(* ===== verification/_CoqProject ===== *)
-Q . S2P
Prelude.v
Ring.v
Pstat.v
Adaptive.v
Workload.v
Kernel.v
Spinlock.v
Sched.v
Cstring.v
Riscv.v
Asm.v
Start.v
Kalloc.v
Vm.v
VmCopy.v
VmMap.v
ProcMem.v
ProcAlloc.v
ProcStat.v
Sleeplock.v
Uart.v
Console.v
Pipe.v
Bio.v
Virtio.v
VirtioSpec.v
Cache.v
Log.v
Crash.v
Fs.v
Tx.v
LogFull.v
FsBlock.v
FsInode.v
FsFile.v
FsAlloc.v
FsWrite.v
Path.v
Namei.v
File.v
Proc.v
Orphan.v
Exec.v
Syscall.v
Descr.v
Trap.v
Boot.v
Hogs.v
Ulib.v
Uprintf.v
Uformat.v
Umalloc.v
Grep.v
Tools.v
Monitor.v
Load.v
Procs.v
Family.v
Rand.v
Shell.v
ShellSyntax.v
ShellRun.v
ShellInput.v
Mkfs.v
MkfsFiles.v
MkfsImage.v
