(* ===== verification/Prelude.v ===== *)
(** * A verification of the xv6 kernel with an adaptive scheduler

    The program is xv6 for RISC-V (src/kernel) with three additions: per-process metrics
    (phase 1), a scheduler that ranks processes by class, waiting time and burst estimate
    (phase 2), and burst prediction with anomaly detection and "self-healing" (phase 3); its user
    programs and their library (src/user); and the program that builds the disk image (src/mkfs).

    ** How the code is modelled

    - C integers are [Z]; a truncation of the C type is written out ([u8] ... [i32]).
    - The global variables and tables of the kernel are the record [kernel] (Kernel.v), the C
      structs are records, and a pointer into a table is an index. Physical memory is a function
      from addresses to bytes; page tables, the free list and trapframes are in it.
    - A function of the kernel is a computation in the monad [K]: from a state it returns
      ([Ok]), panics ([Panic]), gives the CPU away in swtch() with the code that runs when it is
      switched back in ([Swtch]), or makes no progress ([Hang]). A dereference of a null pointer
      panics, as kerneltrap() does; what C leaves undefined panics with "undefined: ...".
    - The state holds the hart that runs. Other harts and other processes act where the
      code lets them: at a [Swtch], when theorems quantify over the state that comes back,
      and through locks they hold. Interrupts are calls of the handlers between two steps.
    - Assembly is a list of instructions of a machine with registers, control registers and
      memory (Asm.v).
    - A user program is a computation in the monad [U] (Ulib.v) on its own memory and on the
      system calls, which are the operations of a class [Os]; programs that make processes are
      machines that make one call at a time (Procs.v, ShellRun.v), and their processes run in
      every interleaving of the calls.
    - What an uninitialised variable holds, the addresses chosen by the linker (class
      [Image]), the byte order of the host of mkfs, and what devices deliver are parameters.

    ** Files, in order

    - Prelude: this header, machine integers, lists, tactics. Ring: ring buffers with
      wrapping counters.
    - Pstat: the metrics and the policy functions of proc.c and pstat.h, with the accounting
      blocks of scheduler(), sched() and the traps. Adaptive: their theorems. Workload: what they
      predict for a program with a steady rhythm.
    - Kernel: the state and the monad. Spinlock: spinlock.c. Sched: switching, sleep() and
      wakeup(), kkill(), scheduler(), clock_tick_accounting(), get_workload_stats().
    - Cstring: string.c. Riscv: riscv.h, memlayout.h. Asm: swtch.S, trampoline.S, kernelvec.S,
      entry.S. Start: start.c. Kalloc: kalloc.c.
    - Vm: vm.c; VmCopy: copying in and out; VmMap: building page tables.
    - ProcMem: process slots and their memory; ProcAlloc: allocproc(); ProcStat: the layout
      of [struct procinfo].
    - Sleeplock, Uart (uart.c, printk.c), Console, Pipe: the files of these names.
    - Bio: bio.c; Cache: what it promises. Virtio: virtio_disk.c; VirtioSpec: the driver
      implements what Bio expects of the disk.
    - Log: log.c; Crash: crash safety; Tx: transactions, as the code of fs.c uses the log;
      LogFull: a log that fills the buffer cache.
    - Fs: fs.c; FsBlock: the block allocator; FsInode: inodes; FsFile: bmap() and readi(),
      directories; FsAlloc: bmap() when it allocates; FsWrite: writei(); Path: path elements;
      Namei: namei() on the tree of directories.
    - File: file.c, pipealloc(). Proc: fork, exit, wait, userinit() of proc.c; Orphan: the
      children of an exiting process. Exec: exec.c.
    - Syscall: syscall.c, sysproc.c, sysfile.c; Descr: file descriptors and dup(). Trap:
      trap.c, plic.c, forkret(). Boot: main(). Hogs: the scheduler, the traps and the clock
      together.
    - Ulib: ulib.c and the system calls; Uprintf: printf.c, Uformat: what it prints; Umalloc:
      umalloc.c. Grep: grep.c. Tools: cat, echo, kill, ln, ls, mkdir, rm, sync, wc. Monitor:
      monitor.c. Load: the programs that put load on the scheduler.
    - Procs: init, zombie, forktest and starve, and the processes that run them, with fork, wait,
      exit, exec, kill and fatal traps; Family: what they do together. Rand: the random numbers
      of grind.c.
    - Shell: the parser of sh.c, whose constructors of commands are those of the type [cmd];
      ShellSyntax: it inverts printing; ShellRun: runcmd() and main() on file descriptors;
      ShellInput: getcmd().
    - Mkfs: mkfs.c; MkfsFiles: appending to files; MkfsImage: the image as a whole.

    ** What the theorems show

    - Policy (Adaptive, Workload): an invariant of every reachable state of a process slot;
      exact slices; aging; the burst of a steady program is predicted exactly. Two anomaly
      detectors can never fire, and the priority and slice that healing sets are recomputed before
      they are read.
    - Scheduling (Sched, Hogs): the dispatched process is the best one; no wakeup is lost;
      yield(), kill() and the statistics do what they say. A computing process does get the
      CPU from another one, after a wait that is half its own burst estimate.
    - Assembly (Asm): a trap gives the user back every register; swtch() resumes the other
      context; kernelvec is transparent.
    - Memory (Cstring, Kalloc, VmCopy, VmMap, ProcAlloc, ProcStat): the allocator
      implements a set of pages; copies honour address translation and stop at pages the user may
      not touch, wherever the range runs into them; mappages() changes exactly the mappings asked
      for, and writes only the pages of the table.
    - Input and output (Uart, Console, Pipe): number formatting; the line editor refines a
      pair of byte lists; a pipe is a queue.
    - Disk (VirtioSpec): with a device that keeps the virtio specification, the driver
      transfers the block asked for and gives every descriptor back.
    - Log (Crash, LogFull): commit and recovery are atomic at every crash point; three operations
      that use what begin_op() grants them make the commit panic.
    - File system (FsBlock, FsInode, FsFile, FsAlloc, FsWrite, Path, Namei): the bitmap
      implements a set of free blocks; inodes round-trip through their blocks; what writei() stores,
      with the blocks it allocates, readi() returns; namei() follows the tree of directories and
      leaks no reference.
    - Processes and descriptors (Orphan, Descr): orphans go to init, which is woken; dup()
      keeps the reference counts of open files exact (open, close, fork and exit are not
      shown to).
    - User library (Uformat, Umalloc): printf() renders its format; malloc() and free() keep the
      heap, and malloc() fails only when sbrk() does.
    - User programs (Grep, Monitor, Load, Family, Rand, the Shell files): grep matches the language
      of its expressions; the monitor shows the statistics; init keeps its shell unless it is
      killed or refused a process; the parser of the shell inverts printing, and its commands
      connect the right descriptors.
    - mkfs (MkfsImage): the image holds the files given, in a file system as fs.c reads it.
    - fork, exit, wait, exec, the system calls on paths and main() are modelled and have
      no theorem of their own, beyond those of the functions they call.
    - Some theorems state defects: a full log makes commit() panic, a process can be
      killed before it is born, kill(1) stops the system, padding bytes reach user space.

    ** Bounds and fuel

    - A loop whose end depends on data takes fuel; running out is [Hang] (in user programs,
      [running]), never a result. The callers give one more than the number of rounds the code can
      make: pages of a range, bytes of a copy, characters of a format or path, entries of a
      directory, blocks of a file; the theorems on malloc() and grep say how much is enough.
    - A loop around sleep() may find its condition false [WAITS] (64) times; each round
      ends in a [Swtch], so the theorems about blocking look at single rounds.
    - The theorems on counters assume fewer than 2^29 events in the life of a process slot,
      so that the [int] and [uint] arithmetic of the policy does not wrap.
    - The theorem on writei() asks for room in the log: four blocks per block it touches, and four
      more, two of them for an indirect block the file may not have yet. The most that filewrite()
      writes at a time, 3072 bytes in up to four blocks, needs 20 of the 30.

    ** Not modelled, and why

    - Disk requests in flight together: the code above the driver calls the contract
      [disk_transfer] of Bio.v, a whole block at a time, and the theorem that the driver
      implements it starts with no request outstanding. A write is one entry of the disk
      history, so a crash does not tear a block.
    - True concurrency between harts inside a critical section: the locks exclude it.
    - panic() itself, which stops the machine, and the messages that recovery prints.
    - usertests, stressfs, logstress, dorphan, forphan, the rest of grind, and the test scripts:
      they exercise the running system and have no result but whether it passes.
    - Declarations (defs.h, types.h, user.h), the linker scripts, and usys.pl, which generates the
      stubs that the class [Os] stands for. *)
From stdpp Require Export base gmap list strings numbers sets.
From Stdlib Require Export Lia ZArith.
Open Scope Z_scope.

(** ** Machine integers

    C integers are kept as [Z]; every place where the C type truncates is
    written with one of these wrap-around functions. *)

Definition u8 (x : Z) : Z := x mod 2 ^ 8.
Definition u16 (x : Z) : Z := x mod 2 ^ 16.
Definition u32 (x : Z) : Z := x mod 2 ^ 32.
Definition u64 (x : Z) : Z := x mod 2 ^ 64.
(** Two's complement reading of the low 32 bits: the C type [int]. *)
Definition i32 (x : Z) : Z := (x + 2 ^ 31) mod 2 ^ 32 - 2 ^ 31.

Lemma u8_small x : 0 <= x < 2 ^ 8 → u8 x = x.
Proof. apply Z.mod_small. Qed.
Lemma u16_small x : 0 <= x < 2 ^ 16 → u16 x = x.
Proof. apply Z.mod_small. Qed.
Lemma u32_small x : 0 <= x < 2 ^ 32 → u32 x = x.
Proof. apply Z.mod_small. Qed.
Lemma u64_small x : 0 <= x < 2 ^ 64 → u64 x = x.
Proof. apply Z.mod_small. Qed.
Lemma i32_small x : - 2 ^ 31 <= x < 2 ^ 31 → i32 x = x.
Proof. intros. unfold i32. rewrite Z.mod_small; lia. Qed.

Lemma u8_range x : 0 <= u8 x < 2 ^ 8.
Proof. apply Z.mod_pos_bound; lia. Qed.
Lemma u16_range x : 0 <= u16 x < 2 ^ 16.
Proof. apply Z.mod_pos_bound; lia. Qed.
Lemma u32_range x : 0 <= u32 x < 2 ^ 32.
Proof. apply Z.mod_pos_bound; lia. Qed.
Lemma u64_range x : 0 <= u64 x < 2 ^ 64.
Proof. apply Z.mod_pos_bound; lia. Qed.
Lemma i32_range x : - 2 ^ 31 <= i32 x < 2 ^ 31.
Proof.
  unfold i32. pose proof (Z.mod_pos_bound (x + 2 ^ 31) (2 ^ 32)). lia.
Qed.

(** Adding a multiple of the modulus, or wrapping an argument first, does not
    change a wrapped sum: the facts the ring-buffer indices rely on. *)
Lemma u32_add_l x y : u32 (u32 x + y) = u32 (x + y).
Proof. apply Zplus_mod_idemp_l. Qed.
Lemma u32_sub_l x y : u32 (u32 x - y) = u32 (x - y).
Proof. apply Zminus_mod_idemp_l. Qed.
Lemma u32_sub_r x y : u32 (x - u32 y) = u32 (x - y).
Proof. apply Zminus_mod_idemp_r. Qed.

Create HintDb word.
#[export] Hint Resolve u8_range u16_range u32_range u64_range i32_range : word.
Create Rewrite HintDb word.
#[export] Hint Rewrite u32_add_l u32_sub_l u32_sub_r : word.

(** [word_small] rewrites a wrap-around away when [lia] bounds its argument. *)
Ltac word_small :=
  repeat match goal with
  | |- context [u8 ?x] => rewrite (u8_small x) by lia
  | |- context [u16 ?x] => rewrite (u16_small x) by lia
  | |- context [u32 ?x] => rewrite (u32_small x) by lia
  | |- context [u64 ?x] => rewrite (u64_small x) by lia
  | |- context [i32 ?x] => rewrite (i32_small x) by lia
  | H : context [u8 ?x] |- _ => rewrite (u8_small x) in H by lia
  | H : context [u16 ?x] |- _ => rewrite (u16_small x) in H by lia
  | H : context [u32 ?x] |- _ => rewrite (u32_small x) in H by lia
  | H : context [u64 ?x] |- _ => rewrite (u64_small x) in H by lia
  | H : context [i32 ?x] |- _ => rewrite (i32_small x) in H by lia
  end.

(** [note t] adds the fact [t] once. *)
Ltac note t :=
  let T := type of t in
  match goal with
  | _ : T |- _ => fail 1
  | _ => pose proof t
  end.

(** [word_bounds] adds the range of every wrapped term in sight. *)
Ltac word_bounds :=
  repeat match goal with
  | |- context [u8 ?x] => note (u8_range x)
  | |- context [u16 ?x] => note (u16_range x)
  | |- context [u32 ?x] => note (u32_range x)
  | |- context [u64 ?x] => note (u64_range x)
  | |- context [i32 ?x] => note (i32_range x)
  | H : context [u8 ?x] |- _ => note (u8_range x)
  | H : context [u16 ?x] |- _ => note (u16_range x)
  | H : context [u32 ?x] |- _ => note (u32_range x)
  | H : context [u64 ?x] |- _ => note (u64_range x)
  | H : context [i32 ?x] |- _ => note (i32_range x)
  end.

(** [split_ifs] analyses every [if] whose condition is a boolean test. *)
Ltac split_if :=
  match goal with
  | |- context [if ?b then _ else _] =>
      match b with
      | context [if _ then _ else _] => fail 1
      | _ => let E := fresh "E" in destruct b eqn:E; simpl in E
      end
  end.
Ltac split_ifs := repeat split_if.
Ltac split_if_in H :=
  match type of H with
  | context [if ?b then _ else _] =>
      match b with
      | context [if _ then _ else _] => fail 1
      | _ => let E := fresh "E" in destruct b eqn:E; simpl in E
      end
  end.

(** [blia] is [lia] with boolean tests first turned into propositions. *)
Ltac blia :=
  rewrite ?andb_true_iff, ?andb_false_iff, ?orb_true_iff, ?orb_false_iff, ?negb_true_iff,
    ?negb_false_iff, ?Z.leb_le, ?Z.leb_gt, ?Z.ltb_lt, ?Z.ltb_ge, ?Z.eqb_eq, ?Z.eqb_neq in *;
  lia.

(** [dlia] is [lia] with division and modulo replaced by their equations. *)
Ltac dlia := Z.to_euclidean_division_equations; lia.

(** Updating every slot of a table in turn is one map over the table. *)
Lemma foldl_alter_imap_aux {A} (f : nat → A → A) (l : list A) (k n : nat) :
  foldl (λ l i, alter (f i) i l) l (seq k n)
  = imap (λ i x, if decide (k <= i < k + n)%nat then f i x else x) l.
Proof.
  revert k l. induction n as [|n IH]; intros k l; simpl.
  - apply list_eq. intros i. rewrite list_lookup_imap.
    destruct (l !! i); simpl; [|done]. case_decide; (done || lia).
  - rewrite IH. apply list_eq. intros i. rewrite !list_lookup_imap.
    destruct (decide (i = k)) as [->|Hne].
    + rewrite list_lookup_alter_eq. destruct (l !! k); simpl; [|done].
      repeat case_decide; (done || lia).
    + rewrite list_lookup_alter_ne by done. destruct (l !! i); simpl; [|done].
      repeat case_decide; (done || lia).
Qed.

Lemma foldl_alter_imap {A} (f : nat → A → A) (l : list A) n :
  (length l <= n)%nat → foldl (λ l i, alter (f i) i l) l (seq 0 n) = imap f l.
Proof.
  intros Hn. rewrite foldl_alter_imap_aux. apply list_eq. intros i.
  rewrite !list_lookup_imap. destruct (l !! i) eqn:E; simpl; [|done].
  apply lookup_lt_Some in E. by rewrite decide_True by lia.
Qed.

(** An update only matters at the entry it changes. *)
Lemma alter_ext_at {A} (f g : A → A) (l : list A) i :
  (∀ x, l !! i = Some x → f x = g x) → alter f i l = alter g i l.
Proof.
  intros H. apply list_eq. intros j. destruct (decide (j = i)) as [->|Hne].
  - rewrite !list_lookup_alter_eq. destruct (l !! i) eqn:E; simpl; [|done].
    by rewrite H.
  - by rewrite !list_lookup_alter_ne.
Qed.
Lemma alter_id_at {A} (f : A → A) (l : list A) i :
  (∀ x, l !! i = Some x → f x = x) → alter f i l = l.
Proof.
  intros H. rewrite (alter_ext_at f id l i) by done. by apply list_alter_id.
Qed.

(** The first index below [n] with a decidable property, if there is one. *)
Lemma least_index (P : nat → Prop) {HP : ∀ i, Decision (P i)} n :
  (∃ i, (i < n)%nat ∧ P i ∧ ∀ j, (j < i)%nat → ¬ P j) ∨ (∀ j, (j < n)%nat → ¬ P j).
Proof.
  induction n as [|n [(i & ? & ? & ?)|Hn]]; [right; lia | left; exists i; auto with lia |].
  destruct (decide (P n)); [left; exists n; auto |].
  right. intros j Hj. destruct (decide (j = n)) as [->|]; [done | apply Hn; lia].
Qed.

(** A search returns the first match. *)
Lemma find_first {A} (f : A → bool) (l : list A) :
  match List.find f l with
  | Some x => ∃ k, l !! k = Some x ∧ f x = true ∧ ∀ j y, (j < k)%nat → l !! j = Some y → f y = false
  | None => ∀ x, x ∈ l → f x = false
  end.
Proof.
  induction l as [|x l IH]; simpl; [by intros ? ?%elem_of_nil|]. destruct (f x) eqn:E.
  - exists 0%nat. split_and!; [done | done | lia].
  - destruct (List.find f l) as [y|].
    + destruct IH as (k & Hk & Hf & Hlt). exists (S k). split_and!; [done | done |].
      intros [|j] z Hj Hz; simpl in Hz; [congruence | apply (Hlt j); [lia | done]].
    + intros z [->|Hz]%elem_of_cons; auto.
Qed.
Lemma find_seq (f : nat → bool) n :
  match List.find f (seq 0 n) with
  | Some i => (i < n)%nat ∧ f i = true ∧ ∀ j, (j < i)%nat → f j = false
  | None => ∀ i, (i < n)%nat → f i = false
  end.
Proof.
  pose proof (find_first f (seq 0 n)) as H. destruct (List.find f (seq 0 n)) as [i|].
  - destruct H as (k & Hk & Hf & Hlt). apply lookup_seq in Hk as [-> Hk]. simpl in *. split_and!; [done | done |].
    intros j Hj. apply (Hlt j j Hj). apply lookup_seq. lia.
  - intros i Hi. apply H, elem_of_seq. lia.
Qed.
