(* ===== verification/Ring.v ===== *)
(** Ring buffers with free-running 32-bit counters, as in pipes and the console: the
    element counted [c] is at index [c mod size], and [size] divides 2^32, so the
    wrap-around of a counter is harmless. *)
From S2P Require Import Prelude.

Section ring.
Variable size : Z.
Hypothesis Hsize : 0 < size.
Hypothesis Hdiv : (size | 2 ^ 32).

Definition ring_index (c : Z) : nat := Z.to_nat (c mod size).

(** The [n] elements from counter [start] on. *)
Definition ring (buf : list Z) (start : Z) (n : nat) : list Z :=
  (λ i, default 0 (buf !! ring_index (start + Z.of_nat i))) <$> seq 0 n.

Lemma length_ring buf start n : length (ring buf start n) = n.
Proof. unfold ring. by rewrite length_fmap, length_seq. Qed.

Lemma ring_index_mod c c' : c mod 2 ^ 32 = c' mod 2 ^ 32 → ring_index c = ring_index c'.
Proof.
  intros H. unfold ring_index. f_equal. destruct Hdiv as [q Hq]. assert (0 < q) by nia.
  rewrite Hq, (Z.mul_comm q), !Z.rem_mul_r in H by lia.
  pose proof (Z.mod_pos_bound c size Hsize). pose proof (Z.mod_pos_bound c' size Hsize). 
  assert (Hm : (c mod size + size * ((c / size) mod q)) mod size
               = (c' mod size + size * ((c' / size) mod q)) mod size) by (by rewrite H).
  rewrite !(Z.mul_comm size), !Z.mod_add, !Z.mod_mod in Hm by lia. exact Hm.
Qed.
Lemma ring_start_mod buf c c' n : c mod 2 ^ 32 = c' mod 2 ^ 32 → ring buf c n = ring buf c' n.
Proof.
  intros H. apply list_fmap_ext. intros i j _. do 2 f_equal. apply ring_index_mod.
  rewrite <- (Z.add_mod_idemp_l c), <- (Z.add_mod_idemp_l c') by lia. by rewrite H.
Qed.

Lemma ring_app buf start a b :
  ring buf start (a + b) = ring buf start a ++ ring buf (start + Z.of_nat a) b.
Proof.
  unfold ring. rewrite seq_app, fmap_app. f_equal.
  replace (seq (0 + a) b) with (Nat.add a <$> seq 0 b) by (rewrite fmap_add_seq; f_equal; lia).
  rewrite <- list_fmap_compose. apply list_fmap_ext.
  intros i j _. simpl. do 3 f_equal. lia.
Qed.
Lemma ring_S buf start n :
  ring buf start (S n) = default 0 (buf !! ring_index start) :: ring buf (start + 1) n.
Proof.
  change (S n) with (1 + n)%nat. rewrite ring_app. unfold ring at 1. simpl. by rewrite Z.add_0_r.
Qed.

Lemma ring_index_ne start i j :
  0 <= i < size → 0 <= j < size → i ≠ j → ring_index (start + i) ≠ ring_index (start + j).
Proof.
  intros Hi Hj Hne. unfold ring_index.
  pose proof (Z.mod_pos_bound (start + i) size Hsize). pose proof (Z.mod_pos_bound (start + j) size Hsize).
  pose proof (Z.div_mod (start + i) size ltac:(lia)). pose proof (Z.div_mod (start + j) size ltac:(lia)).
  intros E. assert (Em : (start + i) mod size = (start + j) mod size) by lia.
  assert (size * ((start + i) / size - (start + j) / size) = i - j) by lia.
  assert ((start + i) / size = (start + j) / size ∨ (start + i) / size ≠ (start + j) / size) as [Eq|Nq] by lia;
    [lia | nia].
Qed.

(** Storing the next element behind the [n] that are there. *)
Lemma ring_store buf start n v :
  Z.of_nat (length buf) = size → Z.of_nat n < size →
  ring (<[ring_index (start + Z.of_nat n) := v]> buf) start (S n) = ring buf start n ++ [v].
Proof.
  intros Hl Hn. rewrite <- Nat.add_1_r, ring_app. f_equal.
  - apply list_fmap_ext. intros i j [-> Hi]%lookup_seq. f_equal. apply list_lookup_insert_ne.
    apply ring_index_ne; lia.
  - unfold ring. simpl. rewrite Z.add_0_r, list_lookup_insert_eq; [done|].
    unfold ring_index. pose proof (Z.mod_pos_bound (start + Z.of_nat n) size Hsize). lia.
Qed.
End ring.
