(* ===== verification/Pstat.v ===== *)
(** Per-process metrics of the adaptive scheduler: kernel/pstat.h, the phase
    1-3 fields of [struct proc] (kernel/proc.h), the pure policy functions of
    kernel/proc.c ([calc_dynamic_priority], [calc_time_slice],
    [apply_self_healing], [update_prediction_and_health]) and the accounting
    blocks that scheduler(), sched(), clock_tick_accounting(), usertrap() and
    kerneltrap() run on one process while they hold its lock. *)
From S2P Require Import Prelude.

(** ** Enumerations and constants *)

Inductive procstate := UNUSED | USED | SLEEPING | RUNNABLE | RUNNING | ZOMBIE.
#[export] Instance procstate_eq_dec : EqDecision procstate.
Proof. solve_decision. Defined.

Inductive proc_type_t := PROC_TYPE_INTERACTIVE | PROC_TYPE_CPU_BOUND | PROC_TYPE_MIXED.
#[export] Instance proc_type_eq_dec : EqDecision proc_type_t.
Proof. solve_decision. Defined.

Inductive health_t := HEALTH_NORMAL | HEALTH_WARNING | HEALTH_CRITICAL.
#[export] Instance health_eq_dec : EqDecision health_t.
Proof. solve_decision. Defined.

Definition INTERACTIVE_BURST_THRESH : Z := 2.
Definition CPU_BOUND_BURST_THRESH : Z := 8.
Definition PRIO_BASE_INTERACTIVE : Z := 50.
Definition PRIO_BASE_MIXED : Z := 30.
Definition PRIO_BASE_CPU_BOUND : Z := 10.
Definition AGING_WEIGHT : Z := 2.
Definition BURST_PENALTY_WEIGHT : Z := 1.
Definition MAX_PRIORITY : Z := 100.
Definition MIN_PRIORITY : Z := 1.
Definition STARVATION_THRESH_TICKS : Z := 20.
Definition BURST_SURGE_THRESH : Z := 4.
Definition MAX_ANOMALY_SCORE : Z := 100.
Definition ANOMALY_NONE : Z := 0.
Definition ANOMALY_BURST_SURGE : Z := 1.
Definition ANOMALY_STARVATION : Z := 2.
Definition ANOMALY_THRASHING : Z := 4.
Definition ANOMALY_INSTABILITY : Z := 8.

(** The monitoring, scheduling and prediction fields of [struct proc]
    (kernel/proc.h, phases 1 to 3). *)
Record metrics := Metrics {
  cputicks : Z; (* uint64 *)
  waitticks : Z; (* uint64 *)
  sched_count : Z; (* uint64 *)
  switches : Z; (* uint64 *)
  creation_tick : Z; (* uint64 *)
  last_sched_tick : Z; (* uint64 *)
  current_burst : Z; (* uint *)
  last_burst : Z; (* uint *)
  est_burst : Z; (* uint *)
  proc_type : proc_type_t;
  priority : Z; (* int *)
  time_slice : Z; (* uint *)
  ticks_in_slice : Z; (* uint *)
  predicted_burst : Z; (* uint *)
  prediction_error : Z; (* uint *)
  burst_trend : Z; (* int *)
  anomaly_score : Z; (* int *)
  anomaly_flags : Z; (* int, bit mask *)
  health_status : health_t;
  healing_actions : Z; (* uint *)
  last_heal_tick : Z (* uint64 *)
}.

Definition set_cputicks (x : Z) (m : metrics) : metrics :=
  Metrics x (waitticks m) (sched_count m) (switches m) (creation_tick m)
    (last_sched_tick m) (current_burst m) (last_burst m) (est_burst m) (proc_type m)
    (priority m) (time_slice m) (ticks_in_slice m) (predicted_burst m) (prediction_error
    m) (burst_trend m) (anomaly_score m) (anomaly_flags m) (health_status m)
    (healing_actions m) (last_heal_tick m).
Definition set_waitticks (x : Z) (m : metrics) : metrics :=
  Metrics (cputicks m) x (sched_count m) (switches m) (creation_tick m)
    (last_sched_tick m) (current_burst m) (last_burst m) (est_burst m) (proc_type m)
    (priority m) (time_slice m) (ticks_in_slice m) (predicted_burst m) (prediction_error
    m) (burst_trend m) (anomaly_score m) (anomaly_flags m) (health_status m)
    (healing_actions m) (last_heal_tick m).
Definition set_sched_count (x : Z) (m : metrics) : metrics :=
  Metrics (cputicks m) (waitticks m) x (switches m) (creation_tick m) (last_sched_tick
    m) (current_burst m) (last_burst m) (est_burst m) (proc_type m) (priority m)
    (time_slice m) (ticks_in_slice m) (predicted_burst m) (prediction_error m)
    (burst_trend m) (anomaly_score m) (anomaly_flags m) (health_status m)
    (healing_actions m) (last_heal_tick m).
Definition set_switches (x : Z) (m : metrics) : metrics :=
  Metrics (cputicks m) (waitticks m) (sched_count m) x (creation_tick m)
    (last_sched_tick m) (current_burst m) (last_burst m) (est_burst m) (proc_type m)
    (priority m) (time_slice m) (ticks_in_slice m) (predicted_burst m) (prediction_error
    m) (burst_trend m) (anomaly_score m) (anomaly_flags m) (health_status m)
    (healing_actions m) (last_heal_tick m).
Definition set_creation_tick (x : Z) (m : metrics) : metrics :=
  Metrics (cputicks m) (waitticks m) (sched_count m) (switches m) x (last_sched_tick
    m) (current_burst m) (last_burst m) (est_burst m) (proc_type m) (priority m)
    (time_slice m) (ticks_in_slice m) (predicted_burst m) (prediction_error m)
    (burst_trend m) (anomaly_score m) (anomaly_flags m) (health_status m)
    (healing_actions m) (last_heal_tick m).
Definition set_last_sched_tick (x : Z) (m : metrics) : metrics :=
  Metrics (cputicks m) (waitticks m) (sched_count m) (switches m) (creation_tick m) x
    (current_burst m) (last_burst m) (est_burst m) (proc_type m) (priority m)
    (time_slice m) (ticks_in_slice m) (predicted_burst m) (prediction_error m)
    (burst_trend m) (anomaly_score m) (anomaly_flags m) (health_status m)
    (healing_actions m) (last_heal_tick m).
Definition set_current_burst (x : Z) (m : metrics) : metrics :=
  Metrics (cputicks m) (waitticks m) (sched_count m) (switches m) (creation_tick m)
    (last_sched_tick m) x (last_burst m) (est_burst m) (proc_type m) (priority m)
    (time_slice m) (ticks_in_slice m) (predicted_burst m) (prediction_error m)
    (burst_trend m) (anomaly_score m) (anomaly_flags m) (health_status m)
    (healing_actions m) (last_heal_tick m).
Definition set_last_burst (x : Z) (m : metrics) : metrics :=
  Metrics (cputicks m) (waitticks m) (sched_count m) (switches m) (creation_tick m)
    (last_sched_tick m) (current_burst m) x (est_burst m) (proc_type m) (priority m)
    (time_slice m) (ticks_in_slice m) (predicted_burst m) (prediction_error m)
    (burst_trend m) (anomaly_score m) (anomaly_flags m) (health_status m)
    (healing_actions m) (last_heal_tick m).
Definition set_est_burst (x : Z) (m : metrics) : metrics :=
  Metrics (cputicks m) (waitticks m) (sched_count m) (switches m) (creation_tick m)
    (last_sched_tick m) (current_burst m) (last_burst m) x (proc_type m) (priority m)
    (time_slice m) (ticks_in_slice m) (predicted_burst m) (prediction_error m)
    (burst_trend m) (anomaly_score m) (anomaly_flags m) (health_status m)
    (healing_actions m) (last_heal_tick m).
Definition set_proc_type (x : proc_type_t) (m : metrics) : metrics :=
  Metrics (cputicks m) (waitticks m) (sched_count m) (switches m) (creation_tick m)
    (last_sched_tick m) (current_burst m) (last_burst m) (est_burst m) x (priority m)
    (time_slice m) (ticks_in_slice m) (predicted_burst m) (prediction_error m)
    (burst_trend m) (anomaly_score m) (anomaly_flags m) (health_status m)
    (healing_actions m) (last_heal_tick m).
Definition set_priority (x : Z) (m : metrics) : metrics :=
  Metrics (cputicks m) (waitticks m) (sched_count m) (switches m) (creation_tick m)
    (last_sched_tick m) (current_burst m) (last_burst m) (est_burst m) (proc_type m) x
    (time_slice m) (ticks_in_slice m) (predicted_burst m) (prediction_error m)
    (burst_trend m) (anomaly_score m) (anomaly_flags m) (health_status m)
    (healing_actions m) (last_heal_tick m).
Definition set_time_slice (x : Z) (m : metrics) : metrics :=
  Metrics (cputicks m) (waitticks m) (sched_count m) (switches m) (creation_tick m)
    (last_sched_tick m) (current_burst m) (last_burst m) (est_burst m) (proc_type m)
    (priority m) x (ticks_in_slice m) (predicted_burst m) (prediction_error m)
    (burst_trend m) (anomaly_score m) (anomaly_flags m) (health_status m)
    (healing_actions m) (last_heal_tick m).
Definition set_ticks_in_slice (x : Z) (m : metrics) : metrics :=
  Metrics (cputicks m) (waitticks m) (sched_count m) (switches m) (creation_tick m)
    (last_sched_tick m) (current_burst m) (last_burst m) (est_burst m) (proc_type m)
    (priority m) (time_slice m) x (predicted_burst m) (prediction_error m) (burst_trend
    m) (anomaly_score m) (anomaly_flags m) (health_status m) (healing_actions m)
    (last_heal_tick m).
Definition set_predicted_burst (x : Z) (m : metrics) : metrics :=
  Metrics (cputicks m) (waitticks m) (sched_count m) (switches m) (creation_tick m)
    (last_sched_tick m) (current_burst m) (last_burst m) (est_burst m) (proc_type m)
    (priority m) (time_slice m) (ticks_in_slice m) x (prediction_error m) (burst_trend
    m) (anomaly_score m) (anomaly_flags m) (health_status m) (healing_actions m)
    (last_heal_tick m).
Definition set_prediction_error (x : Z) (m : metrics) : metrics :=
  Metrics (cputicks m) (waitticks m) (sched_count m) (switches m) (creation_tick m)
    (last_sched_tick m) (current_burst m) (last_burst m) (est_burst m) (proc_type m)
    (priority m) (time_slice m) (ticks_in_slice m) (predicted_burst m) x (burst_trend m)
    (anomaly_score m) (anomaly_flags m) (health_status m) (healing_actions m)
    (last_heal_tick m).
Definition set_burst_trend (x : Z) (m : metrics) : metrics :=
  Metrics (cputicks m) (waitticks m) (sched_count m) (switches m) (creation_tick m)
    (last_sched_tick m) (current_burst m) (last_burst m) (est_burst m) (proc_type m)
    (priority m) (time_slice m) (ticks_in_slice m) (predicted_burst m) (prediction_error
    m) x (anomaly_score m) (anomaly_flags m) (health_status m) (healing_actions m)
    (last_heal_tick m).
Definition set_anomaly_score (x : Z) (m : metrics) : metrics :=
  Metrics (cputicks m) (waitticks m) (sched_count m) (switches m) (creation_tick m)
    (last_sched_tick m) (current_burst m) (last_burst m) (est_burst m) (proc_type m)
    (priority m) (time_slice m) (ticks_in_slice m) (predicted_burst m) (prediction_error
    m) (burst_trend m) x (anomaly_flags m) (health_status m) (healing_actions m)
    (last_heal_tick m).
Definition set_anomaly_flags (x : Z) (m : metrics) : metrics :=
  Metrics (cputicks m) (waitticks m) (sched_count m) (switches m) (creation_tick m)
    (last_sched_tick m) (current_burst m) (last_burst m) (est_burst m) (proc_type m)
    (priority m) (time_slice m) (ticks_in_slice m) (predicted_burst m) (prediction_error
    m) (burst_trend m) (anomaly_score m) x (health_status m) (healing_actions m)
    (last_heal_tick m).
Definition set_health_status (x : health_t) (m : metrics) : metrics :=
  Metrics (cputicks m) (waitticks m) (sched_count m) (switches m) (creation_tick m)
    (last_sched_tick m) (current_burst m) (last_burst m) (est_burst m) (proc_type m)
    (priority m) (time_slice m) (ticks_in_slice m) (predicted_burst m) (prediction_error
    m) (burst_trend m) (anomaly_score m) (anomaly_flags m) x (healing_actions m)
    (last_heal_tick m).
Definition set_healing_actions (x : Z) (m : metrics) : metrics :=
  Metrics (cputicks m) (waitticks m) (sched_count m) (switches m) (creation_tick m)
    (last_sched_tick m) (current_burst m) (last_burst m) (est_burst m) (proc_type m)
    (priority m) (time_slice m) (ticks_in_slice m) (predicted_burst m) (prediction_error
    m) (burst_trend m) (anomaly_score m) (anomaly_flags m) (health_status m) x
    (last_heal_tick m).
Definition set_last_heal_tick (x : Z) (m : metrics) : metrics :=
  Metrics (cputicks m) (waitticks m) (sched_count m) (switches m) (creation_tick m)
    (last_sched_tick m) (current_burst m) (last_burst m) (est_burst m) (proc_type m)
    (priority m) (time_slice m) (ticks_in_slice m) (predicted_burst m) (prediction_error
    m) (burst_trend m) (anomaly_score m) (anomaly_flags m) (health_status m)
    (healing_actions m) x.

(** [p->anomaly_flags & f], as a C truth value. *)
Definition has_flag (flags f : Z) : bool := negb (Z.land flags f =? 0).

(** ** The policy functions of kernel/proc.c *)

Definition calc_dynamic_priority (p : metrics) : Z :=
  let base :=
    match proc_type p with
    | PROC_TYPE_INTERACTIVE => PRIO_BASE_INTERACTIVE
    | PROC_TYPE_MIXED => PRIO_BASE_MIXED
    | _ => PRIO_BASE_CPU_BOUND
    end in
  let prio := i32 (base + i32 (u64 (waitticks p * AGING_WEIGHT))
                        - i32 (u32 (est_burst p * BURST_PENALTY_WEIGHT))) in
  let prio := if prio <? MIN_PRIORITY then MIN_PRIORITY else prio in
  let prio := if MAX_PRIORITY <? prio then MAX_PRIORITY else prio in
  prio.

Definition calc_time_slice (p : metrics) : Z :=
  match proc_type p with
  | PROC_TYPE_INTERACTIVE => 1
  | PROC_TYPE_MIXED => 2
  | _ => 4
  end.

(** The three remedies of apply_self_healing(), in order; the boolean is the
    local variable [healed]. *)
Definition heal_starvation (ph : metrics * bool) : metrics * bool :=
  let '(p, healed) := ph in
  if has_flag (anomaly_flags p) ANOMALY_STARVATION then
    let p := set_priority (i32 (priority p + 25)) p in
    let p := if MAX_PRIORITY <? priority p then set_priority MAX_PRIORITY p else p in
    (set_time_slice 2 p, true)
  else (p, healed).

Definition heal_surge (ph : metrics * bool) : metrics * bool :=
  let '(p, healed) := ph in
  if has_flag (anomaly_flags p) (Z.lor ANOMALY_BURST_SURGE ANOMALY_INSTABILITY) then
    let p := set_burst_trend 0 p in
    let p := set_predicted_burst (est_burst p) p in
    (set_time_slice (calc_time_slice p) p, true)
  else (p, healed).

Definition heal_thrashing (ph : metrics * bool) : metrics * bool :=
  let '(p, healed) := ph in
  if has_flag (anomaly_flags p) ANOMALY_THRASHING then (set_time_slice 2 p, true)
  else (p, healed).

(** The final block of apply_self_healing(): count the intervention, relieve
    the score and reclassify. *)
Definition heal_record (ticks : Z) (p : metrics) : metrics :=
  let p := set_healing_actions (u32 (healing_actions p + 1)) p in
  let p := set_last_heal_tick ticks p in
  let p := if 20 <? anomaly_score p
           then set_anomaly_score (i32 (anomaly_score p - 15)) p else p in
  if anomaly_score p <? 30 then set_health_status HEALTH_NORMAL p
  else if anomaly_score p <? 70 then set_health_status HEALTH_WARNING p
  else p.

Definition apply_self_healing (ticks : Z) (p : metrics) : metrics :=
  let '(p, healed) := heal_thrashing (heal_surge (heal_starvation (p, false))) in
  if healed then heal_record ticks p else p.

(** Step 1 of update_prediction_and_health(): |actual - predicted|. *)
Definition prediction_error_of (p : metrics) (actual : Z) : Z :=
  if 0 <? predicted_burst p then
    if predicted_burst p <=? actual then u32 (actual - predicted_burst p)
    else u32 (predicted_burst p - actual)
  else 0.

(** Step 2: the trend and the next forecast. *)
Definition update_trend (p : metrics) (actual : Z) : metrics :=
  let current_diff := i32 (i32 actual - i32 (est_burst p)) in
  let p := set_burst_trend (Z.quot (i32 (current_diff + burst_trend p)) 2) p in
  let next_pred := i32 (i32 (est_burst p) + burst_trend p) in
  let next_pred := if next_pred <? 1 then 1 else next_pred in
  set_predicted_burst (u32 next_pred) p.

(** Step 3: the four anomaly signals, as (flags, score). *)
Definition detect_anomalies (p : metrics) (actual : Z) : Z * Z :=
  let '(flags, score) := (ANOMALY_NONE, 0) in
  let '(flags, score) :=
    if (BURST_SURGE_THRESH <=? prediction_error p)
       && (u32 (predicted_burst p * 2) <? actual)
    then (Z.lor flags ANOMALY_BURST_SURGE, score + 35) else (flags, score) in
  let '(flags, score) :=
    if STARVATION_THRESH_TICKS <=? waitticks p
    then (Z.lor flags ANOMALY_STARVATION, score + 40) else (flags, score) in
  let '(flags, score) :=
    if 6 <=? prediction_error p
    then (Z.lor flags ANOMALY_INSTABILITY, score + 25) else (flags, score) in
  let '(flags, score) :=
    if (u64 (sched_count p * 2) <? switches p) && (5 <? sched_count p)
    then (Z.lor flags ANOMALY_THRASHING, score + 20) else (flags, score) in
  let score := i32 (score + i32 (u32 (prediction_error p * 3))) in
  let score := if MAX_ANOMALY_SCORE <? score then MAX_ANOMALY_SCORE else score in
  (flags, score).

(** Step 4: the health class of a score. *)
Definition classify_health (score : Z) : health_t :=
  if 70 <=? score then HEALTH_CRITICAL
  else if 30 <=? score then HEALTH_WARNING
  else HEALTH_NORMAL.

Definition update_prediction_and_health (ticks : Z) (p : metrics) : metrics :=
  let actual := last_burst p in
  let p := set_prediction_error (prediction_error_of p actual) p in
  let p := update_trend p actual in
  let '(flags, score) := detect_anomalies p actual in
  let p := set_anomaly_flags flags p in
  let p := set_anomaly_score score p in
  let p := set_health_status (classify_health (anomaly_score p)) p in
  if bool_decide (health_status p ≠ HEALTH_NORMAL) || has_flag flags ANOMALY_STARVATION
  then apply_self_healing ticks p else p.

(** ** Accounting blocks *)

(** Classification as written in the SLEEPING/ZOMBIE branch of sched(). *)
Definition classify_burst (est : Z) : proc_type_t :=
  if est <=? INTERACTIVE_BURST_THRESH then PROC_TYPE_INTERACTIVE
  else if CPU_BOUND_BURST_THRESH <=? est then PROC_TYPE_CPU_BOUND
  else PROC_TYPE_MIXED.

(** Classification as written in the RUNNABLE branch of sched() and in the
    trap handlers, which test the upper threshold first. *)
Definition classify_burst_rt (est : Z) : proc_type_t :=
  if CPU_BOUND_BURST_THRESH <=? est then PROC_TYPE_CPU_BOUND
  else if est <=? INTERACTIVE_BURST_THRESH then PROC_TYPE_INTERACTIVE
  else PROC_TYPE_MIXED.

(** sched(), between the panics and swtch(), on the process giving up the CPU
    in state [st]. *)
Definition sched_account (st : procstate) (ticks : Z) (p : metrics) : metrics :=
  let p := set_switches (u64 (switches p + 1)) p in
  match st with
  | SLEEPING | ZOMBIE =>
      let p := set_last_burst (current_burst p) p in
      let p := if est_burst p =? 0 then set_est_burst (last_burst p) p
               else set_est_burst (u32 (last_burst p + est_burst p) / 2) p in
      let p := set_proc_type (classify_burst (est_burst p)) p in
      let p := update_prediction_and_health ticks p in
      set_current_burst 0 p
  | RUNNABLE =>
      if est_burst p <? current_burst p then
        let p := set_est_burst (current_burst p) p in
        let p := set_proc_type (classify_burst_rt (est_burst p)) p in
        let p := set_last_burst (current_burst p) p in
        update_prediction_and_health ticks p
      else p
  | _ => p
  end.

(** The timer block of usertrap() and kerneltrap() (the two are the same code):
    charge one tick to the running process; the boolean is [should_yield]. *)
Definition tick_account (p : metrics) : metrics * bool :=
  let p := set_cputicks (u64 (cputicks p + 1)) p in
  let p := set_current_burst (u32 (current_burst p + 1)) p in
  let p := set_ticks_in_slice (u32 (ticks_in_slice p + 1)) p in
  let p := if est_burst p <? current_burst p then
             let p := set_est_burst (current_burst p) p in
             set_proc_type (classify_burst_rt (est_burst p)) p
           else p in
  if time_slice p <=? ticks_in_slice p then (set_ticks_in_slice 0 p, true)
  else (p, false).

(** The body of clock_tick_accounting() on a RUNNABLE process. *)
Definition clock_account (ticks : Z) (p : metrics) : metrics :=
  let p := set_waitticks (u64 (waitticks p + 1)) p in
  if (STARVATION_THRESH_TICKS <=? waitticks p)
     && negb (has_flag (anomaly_flags p) ANOMALY_STARVATION) then
    let p := set_anomaly_flags (Z.lor (anomaly_flags p) ANOMALY_STARVATION) p in
    let p := set_anomaly_score
               (if MAX_ANOMALY_SCORE <? anomaly_score p + 40 then MAX_ANOMALY_SCORE
                else anomaly_score p + 40) p in
    let p := if 70 <=? anomaly_score p then set_health_status HEALTH_CRITICAL p
             else set_health_status HEALTH_WARNING p in
    apply_self_healing ticks p
  else p.

(** Pass 2 of scheduler(): the fields set when a process gets the CPU. *)
Definition dispatch_account (ticks : Z) (p : metrics) : metrics :=
  let p := set_sched_count (u64 (sched_count p + 1)) p in
  let p := set_last_sched_tick ticks p in
  let p := set_time_slice (calc_time_slice p) p in
  let p := set_ticks_in_slice 0 p in
  set_waitticks 0 p.

(** allocproc(): the initial metrics of a new process. *)
Definition init_metrics (ticks : Z) : metrics :=
  {| cputicks := 0; waitticks := 0; sched_count := 0; switches := 0;
     creation_tick := ticks; last_sched_tick := 0; current_burst := 0;
     last_burst := 0; est_burst := 0; proc_type := PROC_TYPE_INTERACTIVE;
     priority := PRIO_BASE_INTERACTIVE; time_slice := 1; ticks_in_slice := 0;
     predicted_burst := 1; prediction_error := 0; burst_trend := 0;
     anomaly_score := 0; anomaly_flags := ANOMALY_NONE;
     health_status := HEALTH_NORMAL; healing_actions := 0; last_heal_tick := 0 |}.

(** freeproc(): the metrics of a free slot. *)
Definition free_metrics : metrics :=
  {| cputicks := 0; waitticks := 0; sched_count := 0; switches := 0;
     creation_tick := 0; last_sched_tick := 0; current_burst := 0;
     last_burst := 0; est_burst := 0; proc_type := PROC_TYPE_INTERACTIVE;
     priority := PRIO_BASE_INTERACTIVE; time_slice := 1; ticks_in_slice := 0;
     predicted_burst := 0; prediction_error := 0; burst_trend := 0;
     anomaly_score := 0; anomaly_flags := ANOMALY_NONE;
     health_status := HEALTH_NORMAL; healing_actions := 0; last_heal_tick := 0 |}.
