(* ===== verification/Adaptive.v ===== *)
(** Correctness of the adaptive policy (phases 1-3): the life cycle of one
    process slot as a step relation over the accounting blocks of Pstat, the
    invariant of its reachable states, and what the prediction, anomaly and
    healing code can and cannot do in those states. *)
From S2P Require Import Prelude Pstat.

(** ** The life cycle of a slot

    One step is one critical section of the kernel on [p->lock]. [ticks] is
    the value of the global clock the section reads. *)
Inductive slot_step (ticks : Z) : procstate * metrics → procstate * metrics → Prop :=
| step_alloc m : (* allocproc() *)
    slot_step ticks (UNUSED, m) (USED, init_metrics ticks)
| step_ready m : (* kfork(), userinit() *)
    slot_step ticks (USED, m) (RUNNABLE, m)
| step_rank m : (* scheduler(), pass 1 *)
    slot_step ticks (RUNNABLE, m) (RUNNABLE, set_priority (calc_dynamic_priority m) m)
| step_dispatch m : (* scheduler(), pass 2 *)
    slot_step ticks (RUNNABLE, m) (RUNNING, dispatch_account ticks m)
| step_tick m : (* usertrap(), kerneltrap() *)
    slot_step ticks (RUNNING, m) (RUNNING, (tick_account m).1)
| step_clock m : (* clock_tick_accounting() *)
    slot_step ticks (RUNNABLE, m) (RUNNABLE, clock_account ticks m)
| step_yield m : (* yield() *)
    slot_step ticks (RUNNING, m) (RUNNABLE, sched_account RUNNABLE ticks m)
| step_sleep m : (* sleep() *)
    slot_step ticks (RUNNING, m) (SLEEPING, sched_account SLEEPING ticks m)
| step_wake m : (* wakeup(), kkill() *)
    slot_step ticks (SLEEPING, m) (RUNNABLE, m)
| step_exit m : (* kexit() *)
    slot_step ticks (RUNNING, m) (ZOMBIE, sched_account ZOMBIE ticks m)
| step_free st m : (* freeproc(), from kwait(), or from a failed allocation *)
    st = ZOMBIE ∨ st = USED →
    slot_step ticks (st, m) (UNUSED, free_metrics).

(** [slot_run n c c']: [c'] is reached from [c] in [n] steps, at any clock
    values. *)
Inductive slot_run : nat → procstate * metrics → procstate * metrics → Prop :=
| run_refl c : slot_run 0 c c
| run_step n ticks c c' c'' :
    slot_run n c c' → slot_step ticks c' c'' → slot_run (S n) c c''.

(** The flag words a slot can hold: starvation and instability, never the
    burst-surge or thrashing bits. *)
Definition live_flags (f : Z) : Prop :=
  f = 0 ∨ f = ANOMALY_STARVATION ∨ f = ANOMALY_INSTABILITY
  ∨ f = Z.lor ANOMALY_STARVATION ANOMALY_INSTABILITY.

(** 1 while the process holds a CPU: it has been dispatched once more than it
    has been switched out. *)
Definition running_bit (st : procstate) : Z :=
  match st with RUNNING => 1 | _ => 0 end.

Definition valid_slice (t : Z) : Prop := t = 1 ∨ t = 2 ∨ t = 4.

(** The forecast part of the invariant: [e0] is the estimate at the end of the
    last completed burst; the trap handlers have since raised the estimate to
    the running burst when that is longer. *)
Record forecast_inv (m : metrics) (e0 : Z) : Prop := {
  fc_est : est_burst m = Z.max e0 (current_burst m);
  fc_trend : - 2 <= burst_trend m <= 0;
  fc_trend_e0 : - burst_trend m <= e0;
  fc_pred : predicted_burst m = Z.max 1 (e0 + burst_trend m);
}.

(** The invariant of an allocated slot after at most [n] steps. *)
Record slot_inv (n : Z) (st : procstate) (m : metrics) : Prop := {
  inv_type : proc_type m = classify_burst (est_burst m);
  inv_health : health_status m = classify_health (anomaly_score m);
  inv_score : 0 <= anomaly_score m <= MAX_ANOMALY_SCORE;
  inv_flags : live_flags (anomaly_flags m);
  inv_unstable : has_flag (anomaly_flags m) ANOMALY_INSTABILITY = true → 1 <= est_burst m;
  inv_prio : MIN_PRIORITY <= priority m <= MAX_PRIORITY;
  inv_slice : valid_slice (time_slice m);
  inv_burst : 0 <= current_burst m <= n ∧ 0 <= est_burst m <= n;
  inv_wait : 0 <= waitticks m <= n;
  inv_counts : 0 <= switches m ∧ sched_count m <= n ∧
               sched_count m = switches m + running_bit st;
  inv_running : st = RUNNING → waitticks m = 0 ∧ 0 <= ticks_in_slice m < time_slice m;
  inv_forecast : ∃ e0, 0 <= e0 <= n ∧ forecast_inv m e0;
}.

Definition conf_inv (n : Z) (c : procstate * metrics) : Prop :=
  c.1 ≠ UNUSED → slot_inv n c.1 c.2.

(** ** Helper lemmas *)

Lemma classify_burst_rt_eq est : classify_burst_rt est = classify_burst est.
Proof.
  unfold classify_burst, classify_burst_rt, CPU_BOUND_BURST_THRESH, INTERACTIVE_BURST_THRESH.
  split_ifs; (reflexivity || lia).
Qed.

Lemma calc_dynamic_priority_range m :
  MIN_PRIORITY <= calc_dynamic_priority m <= MAX_PRIORITY.
Proof.
  unfold calc_dynamic_priority, MIN_PRIORITY, MAX_PRIORITY. cbv zeta. split_ifs; lia.
Qed.

Lemma calc_time_slice_cases m : valid_slice (calc_time_slice m).
Proof. unfold calc_time_slice, valid_slice. destruct (proc_type m); lia. Qed.

Lemma classify_health_relief score h :
  0 <= score <= MAX_ANOMALY_SCORE → h = classify_health score →
  let score' := if 20 <? score then score - 15 else score in
  (if score' <? 30 then HEALTH_NORMAL else if score' <? 70 then HEALTH_WARNING else h)
  = classify_health score'.
Proof.
  intros Hs ->. cbv zeta. unfold classify_health, MAX_ANOMALY_SCORE in *.
  split_ifs; (reflexivity || lia).
Qed.

(** Evaluate the flag tests on literal flag words. *)
Ltac flag_eval :=
  repeat match goal with
  | |- context [has_flag ?a ?b] =>
      let v := eval vm_compute in (has_flag a b) in
      match v with true => idtac | false => idtac end;
      change (has_flag a b) with v
  | H : context [has_flag ?a ?b] |- _ =>
      let v := eval vm_compute in (has_flag a b) in
      match v with true => idtac | false => idtac end;
      change (has_flag a b) with v in H
  end; simpl in *.

(** What one healing pass changes, for the flag values of the invariant. *)
Record healed_from (m m' : metrics) : Prop := {
  hf_type : proc_type m' = proc_type m;
  hf_est : est_burst m' = est_burst m;
  hf_cur : current_burst m' = current_burst m;
  hf_wait : waitticks m' = waitticks m;
  hf_switches : switches m' = switches m;
  hf_sched : sched_count m' = sched_count m;
  hf_flags : anomaly_flags m' = anomaly_flags m;
  hf_last : last_burst m' = last_burst m;
  hf_health : health_status m' = classify_health (anomaly_score m');
  hf_score : 0 <= anomaly_score m' <= MAX_ANOMALY_SCORE;
  hf_prio : MIN_PRIORITY <= priority m' <= MAX_PRIORITY;
  hf_slice : valid_slice (time_slice m');
  hf_forecast :
    if has_flag (anomaly_flags m) ANOMALY_INSTABILITY
    then burst_trend m' = 0 ∧ predicted_burst m' = est_burst m
    else burst_trend m' = burst_trend m ∧ predicted_burst m' = predicted_burst m;
}.

Lemma heal_record_ok ticks m :
  health_status m = classify_health (anomaly_score m) →
  0 <= anomaly_score m <= MAX_ANOMALY_SCORE →
  health_status (heal_record ticks m) = classify_health (anomaly_score (heal_record ticks m))
  ∧ 0 <= anomaly_score (heal_record ticks m) <= MAX_ANOMALY_SCORE.
Proof.
  destruct m; simpl. intros -> Hs.
  unfold heal_record, classify_health, MAX_ANOMALY_SCORE in *. simpl.
  destruct (20 <? anomaly_score) eqn:E; simpl; word_small;
    split_ifs; simpl; split; try lia; split_ifs; (reflexivity || lia).
Qed.

(** [heal_record] leaves every other field alone. *)
Lemma heal_record_frame ticks m :
  let m' := heal_record ticks m in
  proc_type m' = proc_type m ∧ est_burst m' = est_burst m ∧
  current_burst m' = current_burst m ∧ waitticks m' = waitticks m ∧
  switches m' = switches m ∧ sched_count m' = sched_count m ∧
  anomaly_flags m' = anomaly_flags m ∧ last_burst m' = last_burst m ∧
  priority m' = priority m ∧ time_slice m' = time_slice m ∧
  burst_trend m' = burst_trend m ∧ predicted_burst m' = predicted_burst m.
Proof. unfold heal_record. cbv zeta. split_ifs; simpl; repeat split; reflexivity. Qed.

Lemma apply_self_healing_ok ticks m :
  live_flags (anomaly_flags m) →
  health_status m = classify_health (anomaly_score m) →
  0 <= anomaly_score m <= MAX_ANOMALY_SCORE →
  MIN_PRIORITY <= priority m <= MAX_PRIORITY →
  valid_slice (time_slice m) →
  healed_from m (apply_self_healing ticks m).
Proof.
  intros Hf Hh Hs Hp Ht.
  unfold apply_self_healing.
  destruct (heal_thrashing (heal_surge (heal_starvation (m, false)))) as [m1 healed] eqn:E.
  assert (proc_type m1 = proc_type m ∧ est_burst m1 = est_burst m ∧
    current_burst m1 = current_burst m ∧ waitticks m1 = waitticks m ∧
    switches m1 = switches m ∧ sched_count m1 = sched_count m ∧
    anomaly_flags m1 = anomaly_flags m ∧ last_burst m1 = last_burst m ∧
    health_status m1 = health_status m ∧ anomaly_score m1 = anomaly_score m ∧
    MIN_PRIORITY <= priority m1 <= MAX_PRIORITY ∧ valid_slice (time_slice m1) ∧
    (if has_flag (anomaly_flags m) ANOMALY_INSTABILITY
     then burst_trend m1 = 0 ∧ predicted_burst m1 = est_burst m
     else burst_trend m1 = burst_trend m ∧ predicted_burst m1 = predicted_burst m))
    as (H1 & H2 & H3 & H4 & H5 & H6 & H7 & H8 & H9 & H10 & H11 & H12 & H13).
  { clear Hh Hs. destruct m; simpl in *.
    unfold heal_thrashing, heal_surge, heal_starvation in E.
    unfold MIN_PRIORITY, MAX_PRIORITY in *.
    destruct Hf as [-> | [-> | [-> | ->]]]; flag_eval;
      repeat (first [split_if_in E | progress simpl in E]); simplify_eq; simpl; flag_eval;
      rewrite ?i32_small in * by lia;
      repeat split; auto using calc_time_slice_cases; (lia || by right; left). }
  destruct healed; [|constructor; congruence || (rewrite ?H9, ?H10 in *; done)].
  pose proof (heal_record_frame ticks m1) as (?&?&?&?&?&?&?&?&F1&F2&F3&F4).
  destruct (heal_record_ok ticks m1) as [? ?]; [congruence | lia |].
  constructor; try congruence; rewrite ?F1, ?F2, ?F3, ?F4; done.
Qed.

(** ** The forecast

    One completed burst of [a] ticks, from estimate [e0] and trend [t0]. The
    trap handlers have already raised the estimate to [Z.max e0 a], so the
    trend can only fall, the forecast never exceeds the estimate, and a burst
    can never be twice the new forecast. *)
Lemma forecast_step (e0 a t0 : Z) :
  0 <= e0 → 0 <= a → - 2 <= t0 <= 0 → - t0 <= e0 →
  let p0 := Z.max 1 (e0 + t0) in
  let err := Z.abs (a - p0) in
  let e1 := (a + Z.max e0 a) / 2 in
  let t1 := Z.quot (a - e1 + t0) 2 in
  let p1 := Z.max 1 (e1 + t1) in
  a <= e1 ∧ e1 <= Z.max e0 a ∧ ¬ (4 <= err ∧ 2 * p1 < a) ∧
  (err <= 5 → - 2 <= t1 <= 0 ∧ - t1 <= e1) ∧ (6 <= err → 1 <= e1).
Proof.
  intros He Ha Ht Hte. cbv zeta.
  assert (Hq : ∀ x, Z.quot x 2 = if 0 <=? x then x / 2 else - ((- x) / 2)).
  { intros x. split_if.
    - apply Z.quot_div_nonneg; lia.
    - replace x with (- (- x)) at 1 by lia. rewrite Z.quot_opp_l by lia.
      f_equal. apply Z.quot_div_nonneg; lia. }
  rewrite Hq. split_if; Z.div_mod_to_equations; lia.
Qed.

(** update_prediction_and_health() as sched() calls it: on a process that was
    RUNNING (so its wait counter is 0 and it has not been switched out more
    often than in) and whose burst of [a] ticks has just ended. *)
Record ended (n e0 a : Z) (m : metrics) : Prop := {
  end_n : n < 2 ^ 29;
  end_e0 : 0 <= e0 <= n;
  end_a : 0 <= a <= n;
  end_last : last_burst m = a;
  end_est : est_burst m = (a + Z.max e0 a) / 2;
  end_trend : - 2 <= burst_trend m <= 0;
  end_trend_e0 : - burst_trend m <= e0;
  end_pred : predicted_burst m = Z.max 1 (e0 + burst_trend m);
  end_wait : waitticks m = 0;
  end_counts : 0 <= switches m <= sched_count m;
  end_sched : sched_count m <= n;
}.

(** The new trend and forecast. *)
Definition next_trend (m : metrics) (a : Z) : Z := Z.quot (a - est_burst m + burst_trend m) 2.
Definition next_forecast (m : metrics) (a : Z) : metrics :=
  set_predicted_burst (Z.max 1 (est_burst m + next_trend m a))
    (set_burst_trend (next_trend m a) (set_prediction_error (Z.abs (a - predicted_burst m)) m)).
Definition assessed (flags score : Z) (m : metrics) : metrics :=
  set_health_status (classify_health score) (set_anomaly_score score (set_anomaly_flags flags m)).

Lemma update_trend_ok n e0 a m :
  ended n e0 a m → update_trend (set_prediction_error (prediction_error_of m (last_burst m)) m) (last_burst m)
    = next_forecast m a.
Proof.
  intros []. destruct (forecast_step e0 a (burst_trend m)) as (F1 & F2 & _); [lia..|].
  assert (Herr : prediction_error_of m (last_burst m) = Z.abs (a - predicted_burst m)).
  { unfold prediction_error_of. rewrite end_last0, end_pred0. split_ifs; word_small; lia. }
  rewrite Herr, end_last0. unfold next_forecast, next_trend. rewrite <- end_est0 in F1, F2.
  set (t1 := Z.quot (a - est_burst m + burst_trend m) 2).
  assert (Ht1 : - 2 ^ 29 <= t1 < 2 ^ 29).
  { unfold t1. pose proof (Z.quot_rem' (a - est_burst m + burst_trend m) 2).
    pose proof (Z.rem_bound_abs (a - est_burst m + burst_trend m) 2). lia. }
  unfold update_trend. simpl. word_small. fold t1. word_small. f_equal. split_ifs; word_small; lia.
Qed.

(** With a small error nothing is flagged; otherwise the process is unstable and is healed. *)
Lemma update_exact n ticks e0 a m :
  ended n e0 a m →
  let err := Z.abs (a - predicted_burst m) in
  update_prediction_and_health ticks m
  = if 6 <=? err then apply_self_healing ticks (assessed ANOMALY_INSTABILITY (Z.min 100 (25 + err * 3)) (next_forecast m a))
    else assessed 0 (err * 3) (next_forecast m a).
Proof.
  intros He err. unfold update_prediction_and_health. cbv zeta. rewrite (update_trend_ok n e0 a) by done.
  destruct He. destruct (forecast_step e0 a (burst_trend m)) as (F1 & F2 & F3 & F4 & F5); [lia..|].
  rewrite <- end_est0, <- end_pred0 in *. fold err in F3, F4, F5. fold (next_trend m a) in F3, F4.
  assert (Hd : detect_anomalies (next_forecast m a) (last_burst m)
    = if 6 <=? err then (ANOMALY_INSTABILITY, Z.min 100 (25 + err * 3)) else (0, err * 3)).
  { unfold detect_anomalies, BURST_SURGE_THRESH, STARVATION_THRESH_TICKS, next_forecast. simpl. fold err.
    rewrite end_last0, end_wait0. simpl.
    assert (Hq : next_trend m a <= 2 ^ 29 ∧ err < 2 ^ 30).
    { split; [|unfold err; lia]. unfold next_trend. pose proof (Z.quot_rem' (a - est_burst m + burst_trend m) 2).
      pose proof (Z.rem_bound_abs (a - est_burst m + burst_trend m) 2). lia. }
    word_small. destruct (4 <=? err) eqn:E4; destruct (Z.max 1 (est_burst m + next_trend m a) * 2 <? a) eqn:Ea;
      simpl; try lia;
      (destruct (sched_count m * 2 <? switches m) eqn:Eth; [lia|]); simpl;
      unfold MAX_ANOMALY_SCORE; split_ifs; word_small; simpl in *; try lia;
      repeat f_equal; try lia. }
  rewrite Hd. destruct (6 <=? err) eqn:E6.
  - assert (Hh : classify_health (Z.min 100 (25 + err * 3)) ≠ HEALTH_NORMAL)
      by (unfold classify_health; split_ifs; (discriminate || lia)).
    by rewrite bool_decide_true by exact Hh.
  - assert (Hh : classify_health (err * 3) = HEALTH_NORMAL) by (unfold classify_health; split_ifs; (done || lia)).
    by rewrite bool_decide_false by (intros Hc; exact (Hc Hh)).
Qed.

Lemma update_ok n ticks m e0 a :
  ended n e0 a m → MIN_PRIORITY <= priority m <= MAX_PRIORITY → valid_slice (time_slice m) →
  let m' := update_prediction_and_health ticks m in
  proc_type m' = proc_type m ∧ est_burst m' = est_burst m ∧
  current_burst m' = current_burst m ∧ waitticks m' = waitticks m ∧
  switches m' = switches m ∧ sched_count m' = sched_count m ∧
  health_status m' = classify_health (anomaly_score m') ∧
  0 <= anomaly_score m' <= MAX_ANOMALY_SCORE ∧
  (anomaly_flags m' = 0 ∨ anomaly_flags m' = ANOMALY_INSTABILITY ∧ 1 <= est_burst m') ∧
  MIN_PRIORITY <= priority m' <= MAX_PRIORITY ∧ valid_slice (time_slice m') ∧
  - 2 <= burst_trend m' <= 0 ∧ - burst_trend m' <= est_burst m' ∧
  predicted_burst m' = Z.max 1 (est_burst m' + burst_trend m').
Proof.
  intros He Hprio Hsl. cbv zeta. rewrite (update_exact n ticks e0 a) by done. destruct He.
  destruct (forecast_step e0 a (burst_trend m)) as (F1 & F2 & F3 & F4 & F5); [lia..|].
  rewrite <- end_est0, <- end_pred0 in *. fold (next_trend m a) in F3, F4.
  destruct (6 <=? _) eqn:E6.
  - set (m2 := assessed _ _ _). destruct (apply_self_healing_ok ticks m2) as [];
      [by right; right; left | reflexivity | unfold m2, MAX_ANOMALY_SCORE; simpl; lia | done | done |].
    change (has_flag (anomaly_flags m2) ANOMALY_INSTABILITY) with true in *. destruct hf_forecast0 as [-> ->].
    rewrite hf_type0, hf_est0, hf_cur0, hf_wait0, hf_switches0, hf_sched0, hf_flags0.
    simpl. repeat split; try done; lia.
  - simpl. unfold MAX_ANOMALY_SCORE. repeat split; try done; lia.
Qed.

(** ** Each accounting block preserves the invariant *)

Lemma slot_inv_init ticks : slot_inv 0 USED (init_metrics ticks).
Proof.
  constructor; simpl; try done; try (unfold MAX_ANOMALY_SCORE, MIN_PRIORITY, MAX_PRIORITY,
    PRIO_BASE_INTERACTIVE, ANOMALY_NONE, valid_slice, live_flags; lia).
  exists 0. split; [lia|]. constructor; simpl; lia.
Qed.

Lemma slot_inv_mono n n' st m : n <= n' → slot_inv n st m → slot_inv n' st m.
Proof.
  intros Hle []. constructor; auto; try lia.
  destruct inv_forecast0 as (e0 & ? & ?). exists e0. split; [lia | done].
Qed.

Lemma slot_inv_rank n m :
  slot_inv n RUNNABLE m → slot_inv n RUNNABLE (set_priority (calc_dynamic_priority m) m).
Proof.
  intros []. pose proof (calc_dynamic_priority_range m).
  constructor; simpl; auto. destruct inv_forecast0 as (e0 & ? & []). by exists e0.
Qed.

(** Changing the run state of a slot that is not RUNNING, to one that is not
    RUNNING either, keeps the invariant. *)
Lemma slot_inv_state n st st' m :
  st ≠ RUNNING → st' ≠ RUNNING → slot_inv n st m → slot_inv n st' m.
Proof.
  intros H H' []. constructor; auto; try done.
  destruct st, st'; simpl in *; (congruence || done).
Qed.

Lemma slot_inv_dispatch n ticks m :
  n + 1 < 2 ^ 29 → slot_inv n RUNNABLE m → slot_inv (n + 1) RUNNING (dispatch_account ticks m).
Proof.
  intros Hn []. unfold dispatch_account.
  simpl in inv_counts0.
  constructor; simpl; auto; try lia.
  - apply calc_time_slice_cases.
  - rewrite u64_small by lia. lia.
  - intros _. pose proof (calc_time_slice_cases
      (set_last_sched_tick ticks (set_sched_count (u64 (sched_count m + 1)) m))) as Hc.
    unfold valid_slice in Hc. lia.
  - destruct inv_forecast0 as (e0 & ? & []). exists e0. split; [lia|]. by constructor.
Qed.

Lemma slot_inv_tick n m :
  n + 1 < 2 ^ 29 → slot_inv n RUNNING m → slot_inv (n + 1) RUNNING (tick_account m).1.
Proof.
  intros Hn []. destruct (inv_running0 eq_refl) as [Hw Hts]. simpl in inv_counts0.
  destruct inv_forecast0 as (e0 & ? & []).
  unfold tick_account. simpl. rewrite (u32_small (current_burst m + 1)) by lia.
  unfold valid_slice in inv_slice0. rewrite (u32_small (ticks_in_slice m + 1)) by lia.
  destruct (est_burst m <? current_burst m + 1) eqn:E1; simpl;
  destruct (time_slice m <=? ticks_in_slice m + 1) eqn:E2; simpl;
  constructor; simpl; auto; try lia;
    rewrite ?classify_burst_rt_eq; auto; try (exists e0; split; [lia|]; constructor; simpl; lia).
Qed.

Lemma slot_inv_clock n ticks m :
  n + 1 < 2 ^ 29 → slot_inv n RUNNABLE m → slot_inv (n + 1) RUNNABLE (clock_account ticks m).
Proof.
  intros Hn []. destruct inv_forecast0 as (e0 & He0 & []). simpl in inv_counts0.
  unfold clock_account. simpl. rewrite (u64_small (waitticks m + 1)) by lia.
  destruct (_ && _) eqn:E.
  2: { constructor; simpl; auto; try lia; try done.
       exists e0. split; [lia|]. by constructor. }
  apply andb_true_iff in E as [E1 E2]. apply negb_true_iff in E2.
  set (m2 := if 70 <=? _ then _ else _).
  assert (Hf : live_flags (anomaly_flags m2) ∧
    has_flag (anomaly_flags m2) ANOMALY_INSTABILITY
    = has_flag (anomaly_flags m) ANOMALY_INSTABILITY) .
  { assert (Hm2f : anomaly_flags m2 = Z.lor (anomaly_flags m) ANOMALY_STARVATION)
      by (unfold m2; split_ifs; done).
    rewrite Hm2f. unfold live_flags in *.
    destruct inv_flags0 as [H | [H | [H | H]]]; rewrite H in *; flag_eval; try done; auto. }
  destruct Hf as [Hlf Hinst].
  destruct (apply_self_healing_ok ticks m2) as [].
  { done. }
  { unfold m2, classify_health, MAX_ANOMALY_SCORE in *. split_ifs; simpl; split_ifs; try lia; done. }
  { unfold m2, MAX_ANOMALY_SCORE in *. split_ifs; simpl; lia. }
  { unfold m2. split_ifs; simpl; done. }
  { unfold m2. split_ifs; simpl; done. }
  assert (Hm2 : proc_type m2 = proc_type m ∧ est_burst m2 = est_burst m ∧
    current_burst m2 = current_burst m ∧ waitticks m2 = waitticks m + 1 ∧
    switches m2 = switches m ∧ sched_count m2 = sched_count m ∧
    burst_trend m2 = burst_trend m ∧ predicted_burst m2 = predicted_burst m).
  { unfold m2. split_ifs; simpl; repeat split; done. }
  destruct Hm2 as (G1 & G2 & G3 & G4 & G5 & G6 & G7 & G8).
  constructor; rewrite ?hf_type0, ?hf_est0, ?hf_cur0, ?hf_wait0, ?hf_switches0,
    ?hf_sched0, ?hf_flags0, ?G1, ?G2, ?G3, ?G4, ?G5, ?G6; auto; try lia; try done.
  - rewrite Hinst. done.
  - simpl. lia.
  - rewrite Hinst, ?G2, ?G7, ?G8 in hf_forecast0.
    destruct (has_flag (anomaly_flags m) ANOMALY_INSTABILITY) eqn:Ei.
    + exists (est_burst m). split; [lia|]. specialize (inv_unstable0 eq_refl).
      destruct hf_forecast0. constructor; rewrite ?hf_est0, ?hf_cur0, ?G2, ?G3; lia.
    + exists e0. split; [lia|].
      destruct hf_forecast0. constructor; rewrite ?hf_est0, ?hf_cur0, ?G2, ?G3; lia.
Qed.

(** The preemption branch of sched() never updates: the trap handlers have
    already raised the estimate to the running burst. *)
Lemma sched_account_runnable n ticks m :
  slot_inv n RUNNING m →
  sched_account RUNNABLE ticks m = set_switches (u64 (switches m + 1)) m.
Proof.
  intros []. destruct inv_forecast0 as (e0 & He0 & []).
  unfold sched_account. simpl. split_if; [lia | done].
Qed.

Lemma slot_inv_yield n ticks m :
  n + 1 < 2 ^ 29 → slot_inv n RUNNING m →
  slot_inv (n + 1) RUNNABLE (sched_account RUNNABLE ticks m).
Proof.
  intros Hn Hi. rewrite (sched_account_runnable n) by done. destruct Hi.
  destruct inv_forecast0 as (e0 & He0 & []). simpl in inv_counts0.
  constructor; simpl; auto; try lia; try done.
  - rewrite u64_small; lia.
  - exists e0. split; [lia|]. by constructor.
Qed.

(** The end of a burst: what update_prediction_and_health() is called on. *)
Lemma sched_account_block n ticks st m e0 :
  n + 1 < 2 ^ 29 → st = SLEEPING ∨ st = ZOMBIE → slot_inv n RUNNING m → 0 <= e0 <= n → forecast_inv m e0 →
  ∃ m2, sched_account st ticks m = set_current_burst 0 (update_prediction_and_health ticks m2)
    ∧ ended n e0 (current_burst m) m2 ∧ proc_type m2 = classify_burst (est_burst m2)
    ∧ switches m2 = switches m + 1 ∧ sched_count m2 = sched_count m ∧ burst_trend m2 = burst_trend m
    ∧ predicted_burst m2 = predicted_burst m ∧ priority m2 = priority m ∧ time_slice m2 = time_slice m.
Proof.
  intros Hn Hst [] He0 []. destruct (inv_running0 eq_refl) as [Hw Hts]. simpl in inv_counts0.
  set (m0 := set_switches (u64 (switches m + 1)) m).
  set (m1 := set_last_burst (current_burst m0) m0).
  set (e1 := (current_burst m + Z.max e0 (current_burst m)) / 2).
  assert (He1 : (if est_burst m1 =? 0 then set_est_burst (last_burst m1) m1
    else set_est_burst (u32 (last_burst m1 + est_burst m1) / 2) m1) = set_est_burst e1 m1).
  { unfold e1. simpl. split_if; f_equal.
    - Z.div_mod_to_equations. lia.
    - rewrite u32_small by lia. congruence. }
  exists (set_proc_type (classify_burst e1) (set_est_burst e1 m1)). split.
  { unfold sched_account. cbv zeta.
    destruct Hst as [-> | ->]; fold m0; fold m1; rewrite He1; reflexivity. }
  assert (Hs : switches m0 = switches m + 1) by (apply u64_small; lia).
  split; [|done]. split; try done; try lia; [|simpl; lia]. change (0 <= switches m0 <= sched_count m). lia.
Qed.

Lemma slot_inv_block n ticks st m :
  n + 1 < 2 ^ 29 → st = SLEEPING ∨ st = ZOMBIE → slot_inv n RUNNING m →
  slot_inv (n + 1) st (sched_account st ticks m).
Proof.
  intros Hn Hst Hi. destruct (inv_forecast _ _ _ Hi) as (e0 & He0 & Hf).
  destruct (sched_account_block n ticks st m e0) as (m2 & -> & He & G2 & G6 & G7 & G8 & G9 & G10 & G11); try done.
  destruct Hi. simpl in inv_counts0. destruct (update_ok n ticks m2 e0 (current_burst m) He)
    as (U1 & U2 & U3 & U4 & U5 & U6 & U7 & U8 & U9 & U10 & U11 & U12 & U13 & U14); rewrite ?G10, ?G11; try done.
  destruct He. assert (He1r : 0 <= est_burst m2 <= n) by (rewrite end_est0; Z.div_mod_to_equations; lia).
  generalize dependent (update_prediction_and_health ticks m2). intros m3. intros.
  constructor; simpl; auto; try lia.
  - by rewrite U1, U2, G2.
  - unfold live_flags. destruct U9 as [-> | [-> _]]; auto.
  - destruct U9 as [-> | [-> ?]]; done.
  - destruct Hst as [-> | ->]; simpl; lia.
  - destruct Hst as [-> | ->]; done.
  - exists (est_burst m2). split; [lia|]. constructor; simpl; rewrite ?U2 in *; try done; lia.
Qed.

Lemma slot_inv_step n ticks c c' :
  0 <= n → n + 1 < 2 ^ 29 → conf_inv n c → slot_step ticks c c' → conf_inv (n + 1) c'.
Proof.
  unfold conf_inv. intros Hn0 Hn Hi Hs.
  destruct Hs; cbn [fst snd] in *; intros Hu; try (specialize (Hi ltac:(done))); try done.
  - eapply slot_inv_mono, slot_inv_init. lia.
  - eapply slot_inv_mono, slot_inv_state; [|..|exact Hi]; (lia || done).
  - eapply slot_inv_mono, slot_inv_rank; [|exact Hi]. lia.
  - by apply slot_inv_dispatch.
  - by apply slot_inv_tick.
  - by apply slot_inv_clock.
  - by apply slot_inv_yield.
  - apply slot_inv_block; auto.
  - eapply slot_inv_mono, slot_inv_state; [|..|exact Hi]; (lia || done).
  - apply slot_inv_block; auto.
Qed.

Lemma slot_inv_run n m0 c :
  Z.of_nat n < 2 ^ 29 → slot_run n (UNUSED, m0) c → conf_inv (Z.of_nat n) c.
Proof.
  intros Hn Hr. remember (UNUSED, m0) as c0 eqn:E.
  induction Hr as [|k ticks c0 c1 c2 Hr IH Hs]; subst.
  { by intros []. }
  replace (Z.of_nat (S k)) with (Z.of_nat k + 1) in * by lia.
  eapply slot_inv_step; [lia.. | apply IH; [lia | done] | exact Hs].
Qed.

(** ** The properties *)

(** C1: Every state a process slot can reach from boot (in fewer than 2^29
    accounting steps, so that no counter wraps) satisfies the adaptive
    invariant: the class agrees with the burst estimate, the health status with
    the anomaly score, score, priority, slice and flags are in their documented
    ranges, a running process is inside its slice and has been dispatched
    exactly once more than it was switched out. *)
Theorem adaptive_invariant n m0 st m :
  Z.of_nat n < 2 ^ 29 → slot_run n (UNUSED, m0) (st, m) → st ≠ UNUSED →
  slot_inv (Z.of_nat n) st m.
Proof. intros Hn Hr Hst. exact (slot_inv_run n m0 _ Hn Hr Hst). Qed.

(** A run used by the witnesses: allocation, first dispatch, one tick, and the
    preemption that ends the slice of a new process. *)
Lemma example_run m0 :
  slot_run 5 (UNUSED, m0)
    (RUNNABLE, sched_account RUNNABLE 9
       (tick_account (dispatch_account 8 (init_metrics 7))).1).
Proof.
  apply (run_step _ 9 _ _ _) with (2 := step_yield 9 _).
  apply (run_step _ 9 _ _ _) with (2 := step_tick 9 _).
  apply (run_step _ 8 _ _ _) with (2 := step_dispatch 8 _).
  apply (run_step _ 7 _ _ _) with (2 := step_ready 7 _).
  apply (run_step _ 7 _ _ _) with (2 := step_alloc 7 m0).
  apply run_refl.
Qed.

Lemma adaptive_invariant_witness :
  slot_inv 5 RUNNABLE
    (sched_account RUNNABLE 9 (tick_account (dispatch_account 8 (init_metrics 7))).1).
Proof.
  apply (adaptive_invariant 5 free_metrics RUNNABLE); [reflexivity | | discriminate].
  exact (example_run free_metrics).
Defined.

(** C2: The burst-surge and thrashing detectors are dead code, and the "double
    EMA" never predicts growth: in every reachable state both flag bits are
    clear, the trend is not positive and the forecast does not exceed the
    estimate (or the floor of one tick). *)
Theorem dead_detectors n m0 st m :
  Z.of_nat n < 2 ^ 29 → slot_run n (UNUSED, m0) (st, m) → st ≠ UNUSED →
  has_flag (anomaly_flags m) ANOMALY_BURST_SURGE = false ∧
  has_flag (anomaly_flags m) ANOMALY_THRASHING = false ∧
  - 2 <= burst_trend m <= 0 ∧ 1 <= predicted_burst m <= Z.max 1 (est_burst m).
Proof.
  intros Hn Hr Hst. destruct (slot_inv_run n m0 _ Hn Hr Hst). simpl in *.
  destruct inv_forecast0 as (e0 & He0 & []).
  split; [|split; [|lia]]; destruct inv_flags0 as [-> | [-> | [-> | ->]]]; reflexivity.
Qed.

Lemma dead_detectors_witness :
  has_flag (anomaly_flags
    (sched_account RUNNABLE 9 (tick_account (dispatch_account 8 (init_metrics 7))).1))
    ANOMALY_THRASHING = false.
Proof.
  apply (dead_detectors 5 free_metrics RUNNABLE); [reflexivity | | discriminate].
  exact (example_run free_metrics).
Defined.

(** Healing does not touch what the priority and the slice are computed from. *)
Lemma apply_self_healing_inputs ticks m :
  proc_type (apply_self_healing ticks m) = proc_type m ∧
  waitticks (apply_self_healing ticks m) = waitticks m ∧
  est_burst (apply_self_healing ticks m) = est_burst m.
Proof.
  unfold apply_self_healing, heal_thrashing, heal_surge, heal_starvation.
  destruct (heal_record_frame ticks m) as (?&?&?&?&?&?&?&?&?&?&?&?).
  repeat first [split_if | progress simpl];
    try (match goal with |- context [heal_record ?t ?x] =>
      destruct (heal_record_frame t x) as (->&->&?&->&?&?&?&?&?&?&?&?) end);
    repeat split; reflexivity.
Qed.

(** C3: The starvation remedy has no effect on scheduling: whatever
    apply_self_healing() writes to [priority] and [time_slice] is recomputed
    before it is read. Healed or not, a process is ranked with the same
    priority in pass 1 and dispatched with the same slice in pass 2. *)
Theorem healing_is_not_observed ticks now m :
  calc_dynamic_priority (apply_self_healing ticks m) = calc_dynamic_priority m ∧
  time_slice (dispatch_account now (apply_self_healing ticks m))
  = time_slice (dispatch_account now m).
Proof.
  destruct (apply_self_healing_inputs ticks m) as (H1 & H2 & H3).
  unfold calc_dynamic_priority, dispatch_account, calc_time_slice. simpl.
  by rewrite H1, H2, H3.
Qed.

(** [k] consecutive timer ticks charged to a running process. *)
Fixpoint tick_n (k : nat) (m : metrics) : metrics :=
  match k with
  | O => m
  | S k => (tick_account (tick_n k m)).1
  end.

Lemma tick_n_slice k m :
  1 <= time_slice m < 2 ^ 32 → ticks_in_slice m = 0 → Z.of_nat k < time_slice m →
  time_slice (tick_n k m) = time_slice m ∧ ticks_in_slice (tick_n k m) = Z.of_nat k.
Proof.
  intros Ht H0. induction k as [|k IH]; intros Hk; [done|].
  destruct IH as [IH1 IH2]; [lia|].
  cbn [tick_n]. unfold tick_account. simpl. rewrite IH2, (u32_small (Z.of_nat k + 1)) by lia.
  destruct (_ <? _); simpl; rewrite IH1, ?IH2;
    (destruct (time_slice m <=? Z.of_nat k + 1) eqn:E; [lia|]);
    simpl; rewrite IH1; split; (done || lia).
Qed.

(** C4: Slice enforcement: a process dispatched by the scheduler asks to yield
    at exactly the tick that exhausts the slice of the class it was dispatched
    with (1, 2 or 4 ticks), even if it is reclassified while it runs. *)
Theorem slice_is_exact now m k :
  Z.of_nat k < calc_time_slice m →
  (tick_account (tick_n k (dispatch_account now m))).2
  = (Z.of_nat (S k) =? calc_time_slice m).
Proof.
  intros Hk. pose proof (calc_time_slice_cases m) as Hc. unfold valid_slice in Hc.
  assert (Hs : time_slice (dispatch_account now m) = calc_time_slice m) by reflexivity.
  destruct (tick_n_slice k (dispatch_account now m)) as [H1 H2]; [lia | done | lia |].
  rewrite Nat2Z.inj_succ. set (z := Z.of_nat k) in *.
  unfold tick_account. simpl. rewrite H2, (u32_small (z + 1)) by lia.
  destruct (_ <? _); simpl; rewrite H1, Hs; simpl; rewrite ?H2;
    destruct (calc_time_slice m <=? z + 1) eqn:E; simpl; symmetry;
    (apply Z.eqb_eq || apply Z.eqb_neq); lia.
Qed.

Lemma slice_is_exact_witness :
  (tick_account (tick_n 3 (dispatch_account 8 (set_proc_type PROC_TYPE_CPU_BOUND (init_metrics 0))))).2
  = true.
Proof.
  apply (slice_is_exact 8 (set_proc_type PROC_TYPE_CPU_BOUND (init_metrics 0)) 3). reflexivity.
Defined.

(** C5: Aging: below 2^29 ticks the priority never falls while a process waits,
    and it reaches the maximum once the process has waited (90 + est_burst) / 2
    ticks, whatever its class. *)
Theorem aging_reaches_max m w w' :
  0 <= w <= w' → w' < 2 ^ 29 → 0 <= est_burst m < 2 ^ 29 →
  calc_dynamic_priority (set_waitticks w m) <= calc_dynamic_priority (set_waitticks w' m) ∧
  (90 + est_burst m <= 2 * w' → calc_dynamic_priority (set_waitticks w' m) = MAX_PRIORITY).
Proof.
  intros Hw Hw' He. unfold calc_dynamic_priority, AGING_WEIGHT, BURST_PENALTY_WEIGHT,
    MIN_PRIORITY, MAX_PRIORITY. simpl.
  set (base := match proc_type m with
               | PROC_TYPE_INTERACTIVE => PRIO_BASE_INTERACTIVE
               | PROC_TYPE_CPU_BOUND => PRIO_BASE_CPU_BOUND
               | PROC_TYPE_MIXED => PRIO_BASE_MIXED
               end).
  assert (10 <= base <= 50).
  { unfold base, PRIO_BASE_INTERACTIVE, PRIO_BASE_CPU_BOUND, PRIO_BASE_MIXED.
    destruct (proc_type m); lia. }
  clearbody base. word_small. split_ifs; lia.
Qed.

Lemma aging_reaches_max_witness :
  calc_dynamic_priority (set_waitticks 53 (set_est_burst 16 (init_metrics 0))) = MAX_PRIORITY.
Proof.
  apply (aging_reaches_max (set_est_burst 16 (init_metrics 0)) 0 53); simpl; lia.
Defined.

(** [k] bursts of [a] ticks, each ended by sleep(). *)
Fixpoint bursts (k : nat) (a ticks : Z) (m : metrics) : metrics :=
  match k with
  | O => m
  | S k => sched_account SLEEPING ticks (set_current_burst a (bursts k a ticks m))
  end.

Lemma update_prediction_est ticks m :
  est_burst (update_prediction_and_health ticks m) = est_burst m.
Proof.
  unfold update_prediction_and_health, update_trend.
  destruct (detect_anomalies _ _) as [f sc]. destruct (_ || _); [|done].
  by rewrite (proj2 (proj2 (apply_self_healing_inputs ticks _))).
Qed.

Lemma est_set_current_burst x m : est_burst (set_current_burst x m) = est_burst m.
Proof. reflexivity. Qed.

Lemma sched_account_est ticks m :
  0 <= current_burst m < 2 ^ 31 → 0 <= est_burst m < 2 ^ 31 →
  est_burst (sched_account SLEEPING ticks m)
  = if est_burst m =? 0 then current_burst m else (current_burst m + est_burst m) / 2.
Proof.
  intros Hc He. unfold sched_account.
  rewrite est_set_current_burst, update_prediction_est. simpl.
  destruct (est_burst m =? 0); simpl; [done|]. by rewrite u32_small by lia.
Qed.

(** The moving average converges: [k] completed bursts of the same length
    [a] bring the estimate within [|est - a| / 2^k + 1] ticks of [a], and it
    stays within that distance. *)
Theorem ema_converges k a ticks m :
  0 <= a < 2 ^ 30 → 0 <= est_burst m < 2 ^ 30 →
  Z.abs (est_burst (bursts k a ticks m) - a) <= Z.abs (est_burst m - a) / 2 ^ Z.of_nat k + 1
  ∧ 0 <= est_burst (bursts k a ticks m) < 2 ^ 30.
Proof.
  intros Ha He. induction k as [|k [IH1 IH2]].
  { simpl. rewrite Z.div_1_r. lia. }
  cbn [bursts]. rewrite sched_account_est by (simpl; lia). simpl.
  rewrite Nat2Z.inj_succ, Z.pow_succ_r, Z.mul_comm, <-Z.div_div by lia.
  set (d := Z.abs (est_burst m - a) / 2 ^ Z.of_nat k) in *.
  assert (0 <= d) by (apply Z.div_pos; lia).
  split_if; Z.div_mod_to_equations; lia.
Qed.

Lemma ema_converges_witness :
  Z.abs (est_burst (bursts 3 4 0 (set_est_burst 100 (init_metrics 0))) - 4) <= 13.
Proof.
  apply (ema_converges 3 4 0 (set_est_burst 100 (init_metrics 0))); simpl; lia.
Defined.
