(* ===== verification/Workload.v ===== *)
(** How the adaptive policy sees a program: a process whose bursts are all as long as each other
    is predicted exactly after a few of them, and a burst of another length is noticed. These
    are the workloads of user/stable.c, user/mixed_test.c, user/bursttest.c and
    user/anomaly.c. *)
From S2P Require Import Prelude Pstat Adaptive.

(** ** Bursts *)

(** [awake_run n c c']: [n] steps in which the process is ready or runs. *)
Inductive awake_run : nat → procstate * metrics → procstate * metrics → Prop :=
| awake_refl c : awake_run 0 c c
| awake_step n ticks c c' st m :
    awake_run n c c' → slot_step ticks c' (st, m) → st = RUNNABLE ∨ st = RUNNING → awake_run (S n) c (st, m).

(** [burst a n m m']: a process that sleeps with the metrics [m] is woken, runs for [a] ticks
    altogether, however often it is preempted and however long it waits, and sleeps again. *)
Inductive burst (a : Z) : nat → metrics → metrics → Prop :=
| burst_intro n ticks m m1 :
    awake_run n (RUNNABLE, m) (RUNNING, m1) → current_burst m1 = a →
    burst a (S (S n)) m (sched_account SLEEPING ticks m1).
Inductive stationary (a : Z) : nat → nat → metrics → metrics → Prop :=
| stationary_0 m : stationary a 0 0 m m
| stationary_S k n i m m1 m2 :
    stationary a k n m m1 → burst a i m1 m2 → stationary a (S k) (n + i) m m2.

(** ** The forecast during a burst *)

(** Healing either leaves the forecast alone or makes it the estimate. *)
Lemma healing_forecast ticks m :
  let m' := apply_self_healing ticks m in
  current_burst m' = current_burst m ∧ prediction_error m' = prediction_error m ∧
  anomaly_flags m' = anomaly_flags m ∧
  if has_flag (anomaly_flags m) (Z.lor ANOMALY_BURST_SURGE ANOMALY_INSTABILITY)
  then burst_trend m' = 0 ∧ predicted_burst m' = est_burst m
  else burst_trend m' = burst_trend m ∧ predicted_burst m' = predicted_burst m.
Proof.
  unfold apply_self_healing, heal_thrashing, heal_surge, heal_starvation, heal_record. cbv zeta.
  repeat first [split_if | progress simpl]; try done.
Qed.

Definition unstable (m : metrics) : bool := has_flag (anomaly_flags m) ANOMALY_INSTABILITY.

Lemma live_flags_test f : live_flags f →
  has_flag f (Z.lor ANOMALY_BURST_SURGE ANOMALY_INSTABILITY) = has_flag f ANOMALY_INSTABILITY ∧
  has_flag (Z.lor f ANOMALY_STARVATION) ANOMALY_INSTABILITY = has_flag f ANOMALY_INSTABILITY ∧
  has_flag (Z.lor f ANOMALY_STARVATION) (Z.lor ANOMALY_BURST_SURGE ANOMALY_INSTABILITY) = has_flag f ANOMALY_INSTABILITY.
Proof. intros [-> | [-> | [-> | ->]]]; done. Qed.

(** What the steps from [m] to [m'] do to the forecast [e0]: it rises at most to the length of the
    burst so far, and not at all unless the process was marked as unstable. *)
Record drifts (m m' : metrics) (e0 e1 : Z) : Prop := {
  dr_cur : current_burst m <= current_burst m';
  dr_forecast : forecast_inv m' e1;
  dr_bound : e0 <= e1 <= Z.max e0 (current_burst m');
  dr_trend : burst_trend m <= burst_trend m';
  dr_quiet : unstable m = false → e1 = e0 ∧ burst_trend m' = burst_trend m ∧ unstable m' = false;
}.

Lemma drifts_trans m m1 m2 e0 e1 e2 : drifts m m1 e0 e1 → drifts m1 m2 e1 e2 → drifts m m2 e0 e2.
Proof.
  intros [] []. split; [lia|done|lia|lia|]. intros H. destruct (dr_quiet0 H) as (-> & E1 & H1).
  destruct (dr_quiet1 H1) as (-> & E2 & ?). split_and!; congruence.
Qed.

Lemma tick_drifts n m e0 :
  n + 1 < 2 ^ 29 → slot_inv n RUNNING m → 0 <= e0 → forecast_inv m e0 → drifts m (tick_account m).1 e0 e0.
Proof.
  intros Hn [] He []. unfold tick_account, unstable. simpl. rewrite (u32_small (current_burst m + 1)) by lia.
  destruct (est_burst m <? current_burst m + 1) eqn:E1; simpl;
  destruct (time_slice m <=? u32 (ticks_in_slice m + 1)) eqn:E2; simpl;
    (split; simpl; [lia|split; simpl; try done; lia|lia|lia|done]).
Qed.
Lemma clock_drifts n ticks m e0 :
  n + 1 < 2 ^ 29 → slot_inv n RUNNABLE m → 0 <= e0 → forecast_inv m e0 →
  ∃ e1, drifts m (clock_account ticks m) e0 e1.
Proof.
  intros Hn Hi He Hf. assert (Hp : 1 <= predicted_burst (clock_account ticks m)).
  { destruct (inv_forecast _ _ _ (slot_inv_clock n ticks m Hn Hi)) as (e & _ & []). lia. }
  destruct Hi. revert Hp. unfold clock_account. simpl. destruct (_ && _) eqn:E.
  2: { intros _. exists e0. destruct Hf. split; simpl; try done; try lia; by split. }
  set (m2 := if 70 <=? _ then _ else _).
  assert (Hm2 : est_burst m2 = est_burst m ∧ current_burst m2 = current_burst m ∧ burst_trend m2 = burst_trend m
    ∧ predicted_burst m2 = predicted_burst m ∧ anomaly_flags m2 = Z.lor (anomaly_flags m) ANOMALY_STARVATION).
  { unfold m2. split_ifs; done. }
  destruct Hm2 as (G1 & G2 & G3 & G4 & G5). clearbody m2.
  destruct (apply_self_healing_inputs ticks m2) as (_ & _ & H1). destruct (healing_forecast ticks m2) as (H2 & _ & H3 & H4).
  rewrite G5 in H3, H4. destruct (live_flags_test (anomaly_flags m)) as (_ & L1 & L2); [done|]. rewrite L2 in H4. unfold unstable.
  destruct Hf. destruct (has_flag (anomaly_flags m) ANOMALY_INSTABILITY) eqn:Eu; destruct H4 as [H4 H5]; intros Hp.
  - exists (est_burst m). split; rewrite ?H1, ?H2; try lia; [split; rewrite ?H1, ?H2; lia|].
    unfold unstable. by rewrite Eu.
  - exists e0. split; unfold unstable; rewrite ?H1, ?H2, ?H3, ?L1, ?H4, ?G3; try done; try lia.
    split; rewrite ?H1, ?H2, ?H4, ?H5, ?G1, ?G2, ?G3, ?G4; done.
Qed.

Lemma awake_step_drifts n ticks st m st' m' e0 :
  n + 1 < 2 ^ 29 → slot_inv n st m → st = RUNNABLE ∨ st = RUNNING → 0 <= e0 → forecast_inv m e0 →
  slot_step ticks (st, m) (st', m') → st' = RUNNABLE ∨ st' = RUNNING → ∃ e1, drifts m m' e0 e1.
Proof.
  intros Hn Hi Hst He Hf Hs Hst'. assert (Hid : ∀ x, current_burst x = current_burst m → est_burst x = est_burst m →
    burst_trend x = burst_trend m → predicted_burst x = predicted_burst m → anomaly_flags x = anomaly_flags m → drifts m x e0 e0).
  { intros x H1 H2 H3 H4 H5. destruct Hf. split; unfold unstable; rewrite ?H1, ?H3, ?H5; try done; try lia.
    split; rewrite ?H1, ?H2, ?H3, ?H4; done. }
  inversion Hs; subst; try (by destruct Hst); try (by destruct Hst').
  - exists e0. by apply Hid.
  - exists e0. by apply Hid.
  - exists e0. by apply (tick_drifts n).
  - by apply (clock_drifts n).
  - exists e0. destruct (Z.ltb_spec (est_burst m) (current_burst m)); [destruct Hf; lia|]. by apply Hid.
Qed.

Lemma awake_run_drifts n k m st m1 e0 :
  Z.of_nat n + Z.of_nat k < 2 ^ 29 → slot_inv (Z.of_nat n) RUNNABLE m → 0 <= e0 → forecast_inv m e0 →
  awake_run k (RUNNABLE, m) (st, m1) →
  (st = RUNNABLE ∨ st = RUNNING) ∧ slot_inv (Z.of_nat n + Z.of_nat k) st m1 ∧ ∃ e1, drifts m m1 e0 e1.
Proof.
  intros Hn Hi He Hf Hr. remember (RUNNABLE, m) as c eqn:Ec. remember (st, m1) as c1 eqn:Ec1.
  revert st m1 Hn Ec1. induction Hr as [|k ticks c [st' m'] st m1 Hr IH Hs Hst]; intros st1 m2 Hn Ec1; simplify_eq.
  - split; [by left|]. rewrite Z.add_0_r. split; [done|]. exists e0. split; try done; lia.
  - destruct (IH eq_refl st' m') as (Hst' & Hi' & e1 & Hd); [lia|done|]. split; [done|].
    replace (Z.of_nat n + Z.of_nat (S k)) with (Z.of_nat n + Z.of_nat k + 1) in * by lia. split.
    + apply (slot_inv_step _ ticks (st', m') (st1, m2)); [lia|lia|intros _; done|done|by destruct Hst as [-> | ->]].
    + destruct Hd as [H1 H2 H3 H4 H5]. destruct (awake_step_drifts (Z.of_nat n + Z.of_nat k) ticks st' m' st1 m2 e1) as [e2 Hd];
        try done; try lia. exists e2. eapply drifts_trans; [|done]. by split.
Qed.

(** ** The end of a burst *)

Record ends (a : Z) (m m' : metrics) (e0 e1 : Z) : Prop := {
  en_est : e1 = (a + Z.max e0 a) / 2;
  en_cur : current_burst m' = 0;
  en_trend : burst_trend m' = 0 ∨ burst_trend m' = Z.quot (a - e1 + burst_trend m) 2;
  en_forecast : forecast_inv m' e1;
  en_error : prediction_error m' = Z.abs (a - predicted_burst m);
  en_assessed :
    if 6 <=? Z.abs (a - predicted_burst m) then anomaly_flags m' = ANOMALY_INSTABILITY
    else anomaly_flags m' = 0 ∧ anomaly_score m' = 3 * Z.abs (a - predicted_burst m) ∧ health_status m' = HEALTH_NORMAL;
}.

Lemma sleep_ends n ticks m e0 :
  n + 1 < 2 ^ 29 → slot_inv n RUNNING m → 0 <= e0 <= n → forecast_inv m e0 →
  ∃ e1, ends (current_burst m) m (sched_account SLEEPING ticks m) e0 e1.
Proof.
  intros Hn Hi He0 Hf.
  destruct (sched_account_block n ticks SLEEPING m e0) as (m2 & -> & He & G2 & G6 & G7 & G8 & G9 & G10 & G11); auto.
  destruct Hi. destruct (update_ok n ticks m2 e0 (current_burst m) He)
    as (U1 & U2 & U3 & U4 & U5 & U6 & U7 & U8 & U9 & U10 & U11 & U12 & U13 & U14); rewrite ?G10, ?G11; try done.
  exists (est_burst m2). pose proof (update_exact n ticks e0 (current_burst m) m2 He) as E. cbv zeta in E.
  destruct He. split; cbn [burst_trend set_current_burst prediction_error anomaly_flags anomaly_score health_status].
  - done.
  - done.
  - rewrite E. destruct (6 <=? _).
    + left. set (x := assessed _ _ _). destruct (healing_forecast ticks x) as (_ & _ & _ & H). by destruct H.
    + right. simpl. unfold next_trend. by rewrite G8.
  - split; cbn [est_burst current_burst burst_trend predicted_burst set_current_burst]; rewrite ?U2 in *; try done; lia.
  - rewrite E, <- G9. destruct (6 <=? _); [|done]. set (x := assessed _ _ _).
    by destruct (healing_forecast ticks x) as (_ & -> & _).
  - rewrite <- G9. rewrite E. destruct (6 <=? _) eqn:E6.
    + set (x := assessed _ _ _). by destruct (healing_forecast ticks x) as (_ & _ & -> & _).
    + simpl. split_and!; [done|lia|]. unfold classify_health. split_ifs; [lia|lia|done].
Qed.

Lemma burst_ok a n i m m2 e0 :
  Z.of_nat (n + i) < 2 ^ 29 → slot_inv (Z.of_nat n) SLEEPING m → 0 <= e0 <= Z.of_nat n → forecast_inv m e0 → burst a i m m2 →
  slot_inv (Z.of_nat (n + i)) SLEEPING m2 ∧
  ∃ m1 e1 e2, current_burst m1 = a ∧ drifts m m1 e0 e1 ∧ ends a m1 m2 e1 e2 ∧ 0 <= a ∧ 0 <= e2 <= Z.of_nat (n + i).
Proof.
  intros Hn Hi He Hf Hb. destruct Hb as [k ticks m m1 Hr Ha].
  destruct (awake_run_drifts n k m RUNNING m1 e0) as (_ & Hi1 & e1 & Hd); [lia|by apply (slot_inv_state _ SLEEPING)|lia|done|done|].
  assert (He1 : 0 <= e1 <= Z.of_nat n + Z.of_nat k) by (destruct Hd, Hi1; lia).
  destruct (sleep_ends (Z.of_nat n + Z.of_nat k) ticks m1 e1) as [e2 He2]; [lia|done|done|by destruct Hd|].
  rewrite Ha in He2. split.
  - apply (slot_inv_mono (Z.of_nat n + Z.of_nat k + 1)); [lia|]. apply slot_inv_block; [lia|by left|done].
  - exists m1, e1, e2. assert (0 <= a <= Z.of_nat n + Z.of_nat k) by (destruct Hi1; lia).
    split_and!; try done; try lia; destruct He2 as [-> _ _ _ _ _]; dlia.
Qed.

(** ** Stationary workloads *)

(** After [k] bursts of [a] ticks, from the estimate [E]. *)
Record settling (a E : Z) (k : nat) (m : metrics) (e : Z) : Prop := {
  st_forecast : forecast_inv m e;
  st_lower : (0 < k)%nat → a <= e;
  st_upper : e - a <= Z.max (E - a) 0 / 2 ^ Z.of_nat k;
  st_trend : ∀ K j, E - a < 2 ^ Z.of_nat K → (K + j <= k)%nat → - burst_trend m <= 2 / 2 ^ Z.of_nat j;
}.

Lemma div_pow_S x k : x / 2 ^ Z.of_nat (S k) = x / 2 ^ Z.of_nat k / 2.
Proof. rewrite Nat2Z.inj_succ, Z.pow_succ_r, (Z.mul_comm 2) by lia. symmetry. apply Z.div_div; [|lia]. apply Z.pow_nonzero; lia. Qed.
(** Once [E - a < 2 ^ k] the estimate is exact. *)
Lemma settling_exact a E k K m e :
  settling a E k m e → E - a < 2 ^ Z.of_nat K → (K <= k)%nat → e <= a ∧ ((0 < k)%nat → e = a).
Proof.
  intros [] HK Hk. assert (2 ^ Z.of_nat K <= 2 ^ Z.of_nat k) by (apply Z.pow_le_mono_r; lia).
  assert (0 < 2 ^ Z.of_nat K) by (apply Z.pow_pos_nonneg; lia).
  rewrite Z.div_small in st_upper0 by lia. split; [lia|]. intros Hp. specialize (st_lower0 Hp). lia.
Qed.
Lemma settling_S a E k m m1 m2 e e1 e2 :
  0 <= a → 0 <= e → settling a E k m e → current_burst m1 = a → drifts m m1 e e1 → ends a m1 m2 e1 e2 →
  settling a E (S k) m2 e2.
Proof.
  intros Ha He Hs Hc Hd Hn. assert (H2 : e2 - a = (Z.max e1 a - a) / 2).
  { destruct Hn as [-> _ _ _ _ _]. dlia. }
  assert (H1 : Z.max e1 a <= Z.max e a) by (destruct Hd; lia).
  split; [by destruct Hn|intros _; dlia| |].
  - destruct Hs. rewrite div_pow_S, H2.
    apply Z.div_le_mono; [lia|]. assert (0 <= Z.max (E - a) 0 / 2 ^ Z.of_nat k) by (apply Z.div_pos; [lia|apply Z.pow_pos_nonneg; lia]). lia.
  - intros K j HK Hj. destruct j as [|j]; [destruct Hn as [_ _ _ [] _ _]; change (2 / 2 ^ Z.of_nat 0) with 2; lia|].
    destruct (settling_exact a E k K m e) as [He' _]; [done|done|lia|]. destruct Hs.
    specialize (st_trend0 K j HK ltac:(lia)). rewrite div_pow_S.
    set (T := 2 / 2 ^ Z.of_nat j) in *. destruct Hd as [_ [_ Ht1 _ _] _ Ht _]. destruct Hn as [_ _ [-> | ->] _ _ _]; [dlia|].
    replace (a - e2 + burst_trend m1) with (- (- burst_trend m1)) by dlia. rewrite Z.quot_opp_l, Z.quot_div_nonneg by lia.
    rewrite Z.opp_involutive. apply Z.div_le_mono; lia.
Qed.
Lemma stationary_settling a n k i m m' e :
  Z.of_nat (n + i) < 2 ^ 29 → slot_inv (Z.of_nat n) SLEEPING m → 0 <= e <= Z.of_nat n → forecast_inv m e →
  stationary a k i m m' →
  slot_inv (Z.of_nat (n + i)) SLEEPING m' ∧ ∃ e', 0 <= e' <= Z.of_nat (n + i) ∧ settling a (est_burst m) k m' e'.
Proof.
  intros Hn Hi He Hf Hr. induction Hr as [m|k i j m m1 m2 Hr IH Hb].
  - rewrite Nat.add_0_r. split; [done|]. exists e. split; [done|]. destruct Hf. split; [by split|lia| |].
    + simpl. rewrite Z.div_1_r. lia.
    + intros K j _ Hj. replace j with O by lia. change (2 / 2 ^ Z.of_nat 0) with 2. lia.
  - destruct IH as (Hi1 & e1 & He1 & Hs); [lia|done|done|]. rewrite Nat.add_assoc in *.
    destruct (burst_ok a (n + i) j m1 m2 e1) as (Hi2 & m1' & e1' & e2 & Hc & Hd & Hen & Ha & He2);
      [lia|done|done|by destruct Hs|done|]. split; [done|]. exists e2. split; [done|]. apply (settling_S a _ k m1 m1' m2 e1 e1' e2); (done || lia).
Qed.

(** C6: a steady program is predicted exactly, and a change of its behaviour is noticed. Let a
    process, from whatever it did before, run for [a] ticks again and again and sleep in between,
    however it is preempted and kept waiting. After a few rounds, logarithmic in how far the
    estimate was off, the estimate is [a], the forecast is [a] (or 1, for bursts shorter than a tick), the
    trend is 0 and the process is of the class of [a], healthy and with no flag. When a burst then
    has [b] ticks, the error is the difference, and the process is flagged as unstable if and
    only if it is at least 6. *)
Theorem stationary_predicted n m0 m a K k i m' :
  slot_run n (UNUSED, m0) (SLEEPING, m) → est_burst m - a < 2 ^ Z.of_nat K →
  stationary a k i m m' → (K + 3 <= k)%nat → Z.of_nat (n + i) < 2 ^ 29 →
  (est_burst m' = a ∧ proc_type m' = classify_burst a ∧ burst_trend m' = 0 ∧ predicted_burst m' = Z.max 1 a ∧
   prediction_error m' = Z.max 1 a - a ∧ anomaly_flags m' = ANOMALY_NONE ∧ health_status m' = HEALTH_NORMAL)
  ∧ ∀ b j m'', burst b j m' m'' → Z.of_nat (n + i + j) < 2 ^ 29 →
      prediction_error m'' = Z.abs (b - Z.max 1 a) ∧ (unstable m'' = true ↔ 6 <= Z.abs (b - Z.max 1 a)).
Proof.
  intros Hr HK Hs Hk Hn. assert (Hi : slot_inv (Z.of_nat n) SLEEPING m) by (apply (slot_inv_run n m0 (SLEEPING, m)); [lia|done|done]).
  destruct (inv_forecast _ _ _ Hi) as (e & He & Hf). destruct Hs as [|k i j m m1 m' Hs Hb]; [lia|].
  destruct (stationary_settling a n k i m m1 e) as (Hi1 & e1 & He1 & S1); [lia|done..|].
  rewrite Nat.add_assoc in *.
  destruct (burst_ok a (n + i) j m1 m' e1) as (Hi2 & m2 & e2 & e3 & Hc & Hd & Hen & Ha & He3); [lia|done|done|by destruct S1|done|].
  destruct (settling_exact a _ k K m1 e1 S1) as [_ E1]; [done|lia|]. rewrite E1 in * by lia. clear E1.
  assert (T1 : burst_trend m1 = 0).
  { destruct S1 as [[] _ _ St]. specialize (St K 2%nat HK ltac:(lia)). change (2 / 2 ^ Z.of_nat 2) with 0 in St. lia. }
  assert (P2 : predicted_burst m2 = Z.max 1 a ∧ e2 = a ∧ burst_trend m2 = 0) by (destruct Hd as [_ [] ? ? _]; lia).
  destruct P2 as (P2 & -> & T2). destruct Hen as [En Ec Et Ef Er Ea]. rewrite P2 in Er, Ea.
  assert (e3 = a) as -> by (rewrite En; dlia). replace (6 <=? _) with false in Ea by (symmetry; apply Z.leb_gt; lia).
  assert (T3 : burst_trend m' = 0) by (destruct Et as [-> | ->]; [done|]; rewrite T2, Z.sub_diag; done).
  destruct Ea as (Ea1 & Ea2 & Ea3). split.
  - destruct Ef. assert (est_burst m' = a) as E by lia. split_and!; try done; try lia. by rewrite (inv_type _ _ _ Hi2), E.
  - intros b l m'' Hb' Hl. destruct (burst_ok b (n + i + j) l m' m'' a) as (_ & m3 & e4 & e5 & _ & Hd' & Hen & _); [done..|].
    assert (Hq : unstable m' = false) by (unfold unstable; by rewrite Ea1).
    destruct Hd' as [_ [] _ _ Hq']. destruct (Hq' Hq) as (-> & Et3 & _). destruct Hen as [_ _ _ _ Er' Ea'].
    assert (P3 : predicted_burst m3 = Z.max 1 a) by lia. rewrite P3 in *. split; [done|]. unfold unstable.
    destruct (Z.leb_spec 6 (Z.abs (b - Z.max 1 a))); [by rewrite Ea'|]. destruct Ea' as [-> _]. split; [done|lia].
Qed.

(** A new process that sleeps at once, three bursts of one tick, and one of ten. *)
Definition demo_burst (k : nat) (m : metrics) : metrics :=
  sched_account SLEEPING 0 (tick_n k (dispatch_account 0 m)).
Lemma demo_burst_ok k m : current_burst (tick_n k (dispatch_account 0 m)) = Z.of_nat k → burst (Z.of_nat k) (S (S (S k))) m (demo_burst k m).
Proof.
  intros Hc. constructor; [|done]. clear Hc. induction k as [|k IH]; cbn [tick_n].
  - eapply awake_step; [apply awake_refl|apply (step_dispatch 0)|by right].
  - eapply awake_step; [exact IH|apply (step_tick 0)|by right].
Qed.
Definition demo_asleep : metrics := demo_burst 0 (init_metrics 0).
Lemma demo_asleep_run : slot_run 4 (UNUSED, free_metrics) (SLEEPING, demo_asleep).
Proof.
  apply (run_step _ 0 _ _ _) with (2 := step_sleep 0 _).
  apply (run_step _ 0 _ _ _) with (2 := step_dispatch 0 _).
  apply (run_step _ 0 _ _ _) with (2 := step_ready 0 _).
  apply (run_step _ 0 _ _ _) with (2 := step_alloc 0 free_metrics).
  apply run_refl.
Qed.
Definition demo_steady : metrics := demo_burst 1 (demo_burst 1 (demo_burst 1 demo_asleep)).
Lemma demo_steady_ok : stationary 1 3 12 demo_asleep demo_steady.
Proof.
  apply (stationary_S 1 2 8 4 _ (demo_burst 1 (demo_burst 1 demo_asleep))); [|by apply (demo_burst_ok 1)].
  apply (stationary_S 1 1 4 4 _ (demo_burst 1 demo_asleep)); [|by apply (demo_burst_ok 1)].
  apply (stationary_S 1 0 0 4 _ demo_asleep); [constructor|by apply (demo_burst_ok 1)].
Qed.
Lemma stationary_predicted_witness :
  prediction_error demo_steady = 0 ∧ unstable (demo_burst 10 demo_steady) = true.
Proof.
  destruct (stationary_predicted 4 free_metrics demo_asleep 1 0 3 12 demo_steady) as [H1 H2];
    [exact demo_asleep_run | reflexivity | exact demo_steady_ok | lia | reflexivity |].
  split; [apply H1|]. apply (H2 10 13%nat); [by apply (demo_burst_ok 10) | reflexivity | vm_compute; discriminate].
Defined.
