(* ===== verification/Kernel.v ===== *)
(** The kernel state, and the effect monad in which the kernel is written.

    The state gathers the global variables and tables of the kernel, with the
    C structs as records. A kernel function is a Rocq function from a state to
    an outcome: it returns, it panics, it gives the CPU away in swtch() (with
    the code that runs once the thread is switched back in), or it makes no
    further progress on its own (it spins on a lock held by another hart). *)
From S2P Require Import Prelude Pstat.

(** ** Parameters (kernel/param.h) *)

Definition NPROC : nat := 64.
Definition NCPU : nat := 8.
Definition NOFILE : nat := 16.
Definition NFILE : nat := 100.
Definition NINODE : nat := 50.
Definition NDEV : Z := 10.
Definition ROOTDEV : Z := 1.
Definition MAXARG : Z := 32.
Definition MAXOPBLOCKS : Z := 10.
Definition LOGBLOCKS : Z := MAXOPBLOCKS * 3.
Definition NBUF : nat := 30.
Definition FSSIZE : Z := 2000.
Definition MAXPATH : Z := 128.
Definition USERSTACK : Z := 1.

#[global] Arguments NPROC : simpl never.
#[global] Arguments NBUF : simpl never.
#[global] Arguments NINODE : simpl never.
#[global] Arguments NFILE : simpl never.

(** ** Modes of open() (kernel/fcntl.h) *)

Definition O_RDONLY : Z := 0x000.
Definition O_WRONLY : Z := 0x001.
Definition O_RDWR : Z := 0x002.
Definition O_CREATE : Z := 0x200.
Definition O_TRUNC : Z := 0x400.

(** ** Modes of sbrk() (kernel/vm.h) *)

Definition SBRK_EAGER : Z := 1.
Definition SBRK_LAZY : Z := 2.

(** ** Names of locks and sleep channels

    In C these are addresses of objects; distinct objects have distinct
    addresses, so a constructor per object stands for its address. *)

Inductive sleepid := SL_buf (i : nat) | SL_inode (i : nat).

Inductive lockid :=
| L_pid | L_wait | L_ticks | L_kmem | L_log | L_bcache | L_itable | L_ftable
| L_cons | L_pr | L_tx | L_vdisk
| L_proc (i : nat) | L_pipe (a : Z) | L_sleep (sl : sleepid).

Inductive chan_t :=
| Ch_ticks | Ch_log | Ch_cons | Ch_tx | Ch_diskfree
| Ch_proc (i : nat) | Ch_buf (i : nat) | Ch_sleep (sl : sleepid)
| Ch_pipe_nread (a : Z) | Ch_pipe_nwrite (a : Z).

#[export] Instance sleepid_eq_dec : EqDecision sleepid.
Proof. solve_decision. Defined.
#[export] Instance lockid_eq_dec : EqDecision lockid.
Proof. solve_decision. Defined.
#[export] Instance chan_eq_dec : EqDecision chan_t.
Proof. solve_decision. Defined.

Definition sleepid_code (l : sleepid) : Z * Z :=
  match l with SL_buf i => (0, Z.of_nat i) | SL_inode i => (1, Z.of_nat i) end.
Definition sleepid_decode (c : Z * Z) : sleepid :=
  if c.1 =? 0 then SL_buf (Z.to_nat c.2) else SL_inode (Z.to_nat c.2).
Definition lockid_code (l : lockid) : Z * (Z * Z) :=
  match l with
  | L_pid => (0, (0, 0)) | L_wait => (1, (0, 0)) | L_ticks => (2, (0, 0))
  | L_kmem => (3, (0, 0)) | L_log => (4, (0, 0)) | L_bcache => (5, (0, 0))
  | L_itable => (6, (0, 0)) | L_ftable => (7, (0, 0)) | L_cons => (8, (0, 0))
  | L_pr => (9, (0, 0)) | L_tx => (10, (0, 0)) | L_vdisk => (11, (0, 0))
  | L_proc i => (12, (Z.of_nat i, 0)) | L_pipe a => (13, (a, 0))
  | L_sleep sl => (14, sleepid_code sl)
  end.
Definition lockid_decode (c : Z * (Z * Z)) : lockid :=
  match c.1 with
  | 0 => L_pid | 1 => L_wait | 2 => L_ticks | 3 => L_kmem | 4 => L_log
  | 5 => L_bcache | 6 => L_itable | 7 => L_ftable | 8 => L_cons | 9 => L_pr
  | 10 => L_tx | 11 => L_vdisk | 12 => L_proc (Z.to_nat c.2.1)
  | 13 => L_pipe c.2.1 | _ => L_sleep (sleepid_decode c.2)
  end.
#[export] Instance sleepid_countable : Countable sleepid.
Proof.
  apply (inj_countable' sleepid_code sleepid_decode).
  intros []; unfold sleepid_decode; simpl; by rewrite Nat2Z.id.
Defined.
#[export] Instance lockid_countable : Countable lockid.
Proof.
  apply (inj_countable' lockid_code lockid_decode).
  intros []; try reflexivity; unfold lockid_decode; simpl.
  - by rewrite Nat2Z.id.
  - destruct sl; unfold sleepid_decode; simpl; by rewrite Nat2Z.id.
Defined.

(** ** The structs *)

(** [struct context]: the registers swtch() saves. *)
Record context := Context {
  ctx_ra : Z;
  ctx_sp : Z;
  ctx_s : list Z (* s0 .. s11 *)
}.


(** [struct proc] (kernel/proc.h). *)
Record proc := Proc {
  p_state : procstate;
  p_chan : option chan_t; (* sleeping on this channel *)
  p_killed : Z;
  p_xstate : Z; (* exit status *)
  p_pid : Z;
  p_parent : option nat; (* index in proc[] *)
  p_kstack : Z;
  p_sz : Z;
  p_pagetable : Z; (* 0 is the null pointer *)
  p_trapframe : Z; (* 0 is the null pointer *)
  p_context : context;
  p_ofile : list (option nat); (* indices in ftable *)
  p_cwd : option nat; (* index in itable *)
  p_name : list Z; (* char name[16] *)
  p_mt : metrics (* phases 1-3 *)
}.

Definition set_p_state (x : procstate) (p : proc) : proc :=
  Proc x (p_chan p) (p_killed p) (p_xstate p) (p_pid p) (p_parent p) (p_kstack p)
    (p_sz p) (p_pagetable p) (p_trapframe p) (p_context p) (p_ofile p) (p_cwd p) (p_name
    p) (p_mt p).
Definition set_p_chan (x : option chan_t) (p : proc) : proc :=
  Proc (p_state p) x (p_killed p) (p_xstate p) (p_pid p) (p_parent p) (p_kstack p)
    (p_sz p) (p_pagetable p) (p_trapframe p) (p_context p) (p_ofile p) (p_cwd p) (p_name
    p) (p_mt p).
Definition set_p_killed (x : Z) (p : proc) : proc :=
  Proc (p_state p) (p_chan p) x (p_xstate p) (p_pid p) (p_parent p) (p_kstack p) (p_sz
    p) (p_pagetable p) (p_trapframe p) (p_context p) (p_ofile p) (p_cwd p) (p_name p)
    (p_mt p).
Definition set_p_xstate (x : Z) (p : proc) : proc :=
  Proc (p_state p) (p_chan p) (p_killed p) x (p_pid p) (p_parent p) (p_kstack p) (p_sz
    p) (p_pagetable p) (p_trapframe p) (p_context p) (p_ofile p) (p_cwd p) (p_name p)
    (p_mt p).
Definition set_p_pid (x : Z) (p : proc) : proc :=
  Proc (p_state p) (p_chan p) (p_killed p) (p_xstate p) x (p_parent p) (p_kstack p)
    (p_sz p) (p_pagetable p) (p_trapframe p) (p_context p) (p_ofile p) (p_cwd p) (p_name
    p) (p_mt p).
Definition set_p_parent (x : option nat) (p : proc) : proc :=
  Proc (p_state p) (p_chan p) (p_killed p) (p_xstate p) (p_pid p) x (p_kstack p) (p_sz
    p) (p_pagetable p) (p_trapframe p) (p_context p) (p_ofile p) (p_cwd p) (p_name p)
    (p_mt p).
Definition set_p_kstack (x : Z) (p : proc) : proc :=
  Proc (p_state p) (p_chan p) (p_killed p) (p_xstate p) (p_pid p) (p_parent p) x (p_sz
    p) (p_pagetable p) (p_trapframe p) (p_context p) (p_ofile p) (p_cwd p) (p_name p)
    (p_mt p).
Definition set_p_sz (x : Z) (p : proc) : proc :=
  Proc (p_state p) (p_chan p) (p_killed p) (p_xstate p) (p_pid p) (p_parent p)
    (p_kstack p) x (p_pagetable p) (p_trapframe p) (p_context p) (p_ofile p) (p_cwd p)
    (p_name p) (p_mt p).
Definition set_p_pagetable (x : Z) (p : proc) : proc :=
  Proc (p_state p) (p_chan p) (p_killed p) (p_xstate p) (p_pid p) (p_parent p)
    (p_kstack p) (p_sz p) x (p_trapframe p) (p_context p) (p_ofile p) (p_cwd p) (p_name
    p) (p_mt p).
Definition set_p_trapframe (x : Z) (p : proc) : proc :=
  Proc (p_state p) (p_chan p) (p_killed p) (p_xstate p) (p_pid p) (p_parent p)
    (p_kstack p) (p_sz p) (p_pagetable p) x (p_context p) (p_ofile p) (p_cwd p) (p_name
    p) (p_mt p).
Definition set_p_context (x : context) (p : proc) : proc :=
  Proc (p_state p) (p_chan p) (p_killed p) (p_xstate p) (p_pid p) (p_parent p)
    (p_kstack p) (p_sz p) (p_pagetable p) (p_trapframe p) x (p_ofile p) (p_cwd p)
    (p_name p) (p_mt p).
Definition set_p_ofile (x : list (option nat)) (p : proc) : proc :=
  Proc (p_state p) (p_chan p) (p_killed p) (p_xstate p) (p_pid p) (p_parent p)
    (p_kstack p) (p_sz p) (p_pagetable p) (p_trapframe p) (p_context p) x (p_cwd p)
    (p_name p) (p_mt p).
Definition set_p_cwd (x : option nat) (p : proc) : proc :=
  Proc (p_state p) (p_chan p) (p_killed p) (p_xstate p) (p_pid p) (p_parent p)
    (p_kstack p) (p_sz p) (p_pagetable p) (p_trapframe p) (p_context p) (p_ofile p) x
    (p_name p) (p_mt p).
Definition set_p_name (x : list Z) (p : proc) : proc :=
  Proc (p_state p) (p_chan p) (p_killed p) (p_xstate p) (p_pid p) (p_parent p)
    (p_kstack p) (p_sz p) (p_pagetable p) (p_trapframe p) (p_context p) (p_ofile p)
    (p_cwd p) x (p_mt p).
Definition set_p_mt (x : metrics) (p : proc) : proc :=
  Proc (p_state p) (p_chan p) (p_killed p) (p_xstate p) (p_pid p) (p_parent p)
    (p_kstack p) (p_sz p) (p_pagetable p) (p_trapframe p) (p_context p) (p_ofile p)
    (p_cwd p) (p_name p) x.

(** [struct cpu] of the executing hart, with the hart's interrupt-enable bit.
    Every access to cpus[] in the kernel goes through mycpu(), so the state
    keeps the entry of the hart that runs. *)
Record cpu := Cpu {
  c_proc : option nat; (* the running process *)
  c_noff : Z; (* depth of push_off() nesting *)
  c_intena : bool; (* interrupts on before push_off()? *)
  c_sie : bool (* SSTATUS.SIE of this hart *)
}.

Definition set_c_proc (x : option nat) (c : cpu) : cpu :=
  Cpu x (c_noff c) (c_intena c) (c_sie c).
Definition set_c_noff (x : Z) (c : cpu) : cpu :=
  Cpu (c_proc c) x (c_intena c) (c_sie c).
Definition set_c_intena (x : bool) (c : cpu) : cpu :=
  Cpu (c_proc c) (c_noff c) x (c_sie c).
Definition set_c_sie (x : bool) (c : cpu) : cpu :=
  Cpu (c_proc c) (c_noff c) (c_intena c) x.

(** Supervisor control registers of the executing hart. *)
Record csrs := Csrs {
  r_scause : Z;
  r_sepc : Z;
  r_stval : Z;
  r_sstatus : Z; (* SPP and SPIE; SIE is in [c_sie] *)
  r_stvec : Z;
  r_satp : Z;
  r_time : Z;
  r_stimecmp : Z
}.

Definition set_r_scause (x : Z) (c : csrs) : csrs :=
  Csrs x (r_sepc c) (r_stval c) (r_sstatus c) (r_stvec c) (r_satp c) (r_time c)
    (r_stimecmp c).
Definition set_r_sepc (x : Z) (c : csrs) : csrs :=
  Csrs (r_scause c) x (r_stval c) (r_sstatus c) (r_stvec c) (r_satp c) (r_time c)
    (r_stimecmp c).
Definition set_r_stval (x : Z) (c : csrs) : csrs :=
  Csrs (r_scause c) (r_sepc c) x (r_sstatus c) (r_stvec c) (r_satp c) (r_time c)
    (r_stimecmp c).
Definition set_r_sstatus (x : Z) (c : csrs) : csrs :=
  Csrs (r_scause c) (r_sepc c) (r_stval c) x (r_stvec c) (r_satp c) (r_time c)
    (r_stimecmp c).
Definition set_r_stvec (x : Z) (c : csrs) : csrs :=
  Csrs (r_scause c) (r_sepc c) (r_stval c) (r_sstatus c) x (r_satp c) (r_time c)
    (r_stimecmp c).
Definition set_r_satp (x : Z) (c : csrs) : csrs :=
  Csrs (r_scause c) (r_sepc c) (r_stval c) (r_sstatus c) (r_stvec c) x (r_time c)
    (r_stimecmp c).
Definition set_r_time (x : Z) (c : csrs) : csrs :=
  Csrs (r_scause c) (r_sepc c) (r_stval c) (r_sstatus c) (r_stvec c) (r_satp c) x
    (r_stimecmp c).
Definition set_r_stimecmp (x : Z) (c : csrs) : csrs :=
  Csrs (r_scause c) (r_sepc c) (r_stval c) (r_sstatus c) (r_stvec c) (r_satp c)
    (r_time c) x.

(** [struct buf] (kernel/buf.h); its sleep-lock is [SL_buf]. *)
Record buf := Buf {
  b_valid : bool; (* has data been read from disk? *)
  b_disk : bool; (* does disk own buf? *)
  b_dev : Z;
  b_blockno : Z;
  b_refcnt : Z;
  b_data : list Z (* BSIZE bytes *)
}.

Definition set_b_valid (x : bool) (b : buf) : buf :=
  Buf x (b_disk b) (b_dev b) (b_blockno b) (b_refcnt b) (b_data b).
Definition set_b_disk (x : bool) (b : buf) : buf :=
  Buf (b_valid b) x (b_dev b) (b_blockno b) (b_refcnt b) (b_data b).
Definition set_b_dev (x : Z) (b : buf) : buf :=
  Buf (b_valid b) (b_disk b) x (b_blockno b) (b_refcnt b) (b_data b).
Definition set_b_blockno (x : Z) (b : buf) : buf :=
  Buf (b_valid b) (b_disk b) (b_dev b) x (b_refcnt b) (b_data b).
Definition set_b_refcnt (x : Z) (b : buf) : buf :=
  Buf (b_valid b) (b_disk b) (b_dev b) (b_blockno b) x (b_data b).
Definition set_b_data (x : list Z) (b : buf) : buf :=
  Buf (b_valid b) (b_disk b) (b_dev b) (b_blockno b) (b_refcnt b) x.

(** [struct superblock] (kernel/fs.h). *)
Record superblock := Superblock {
  sb_magic : Z;
  sb_size : Z;
  sb_nblocks : Z;
  sb_ninodes : Z;
  sb_nlog : Z;
  sb_logstart : Z;
  sb_inodestart : Z;
  sb_bmapstart : Z
}.


(** [struct log] with its [struct logheader] (kernel/log.c). *)
Record log_t := Log {
  l_start : Z;
  l_outstanding : Z; (* FS system calls executing *)
  l_committing : bool;
  l_dev : Z;
  l_ncommit : Z;
  lh_n : Z; (* logheader.n *)
  lh_block : list Z (* logheader.block[LOGBLOCKS] *)
}.

Definition set_l_start (x : Z) (l : log_t) : log_t :=
  Log x (l_outstanding l) (l_committing l) (l_dev l) (l_ncommit l) (lh_n l) (lh_block
    l).
Definition set_l_outstanding (x : Z) (l : log_t) : log_t :=
  Log (l_start l) x (l_committing l) (l_dev l) (l_ncommit l) (lh_n l) (lh_block l).
Definition set_l_committing (x : bool) (l : log_t) : log_t :=
  Log (l_start l) (l_outstanding l) x (l_dev l) (l_ncommit l) (lh_n l) (lh_block l).
Definition set_l_dev (x : Z) (l : log_t) : log_t :=
  Log (l_start l) (l_outstanding l) (l_committing l) x (l_ncommit l) (lh_n l)
    (lh_block l).
Definition set_l_ncommit (x : Z) (l : log_t) : log_t :=
  Log (l_start l) (l_outstanding l) (l_committing l) (l_dev l) x (lh_n l) (lh_block
    l).
Definition set_lh_n (x : Z) (l : log_t) : log_t :=
  Log (l_start l) (l_outstanding l) (l_committing l) (l_dev l) (l_ncommit l) x
    (lh_block l).
Definition set_lh_block (x : list Z) (l : log_t) : log_t :=
  Log (l_start l) (l_outstanding l) (l_committing l) (l_dev l) (l_ncommit l) (lh_n l)
    x.

(** [struct inode] (kernel/file.h); its sleep-lock is [SL_inode]. *)
Record inode := Inode {
  i_dev : Z;
  i_inum : Z;
  i_ref : Z;
  i_valid : bool;
  i_type : Z;
  i_major : Z;
  i_minor : Z;
  i_nlink : Z;
  i_size : Z;
  i_addrs : list Z (* NDIRECT+1 block numbers *)
}.

Definition set_i_dev (x : Z) (i : inode) : inode :=
  Inode x (i_inum i) (i_ref i) (i_valid i) (i_type i) (i_major i) (i_minor i) (i_nlink
    i) (i_size i) (i_addrs i).
Definition set_i_inum (x : Z) (i : inode) : inode :=
  Inode (i_dev i) x (i_ref i) (i_valid i) (i_type i) (i_major i) (i_minor i) (i_nlink
    i) (i_size i) (i_addrs i).
Definition set_i_ref (x : Z) (i : inode) : inode :=
  Inode (i_dev i) (i_inum i) x (i_valid i) (i_type i) (i_major i) (i_minor i) (i_nlink
    i) (i_size i) (i_addrs i).
Definition set_i_valid (x : bool) (i : inode) : inode :=
  Inode (i_dev i) (i_inum i) (i_ref i) x (i_type i) (i_major i) (i_minor i) (i_nlink
    i) (i_size i) (i_addrs i).
Definition set_i_type (x : Z) (i : inode) : inode :=
  Inode (i_dev i) (i_inum i) (i_ref i) (i_valid i) x (i_major i) (i_minor i) (i_nlink
    i) (i_size i) (i_addrs i).
Definition set_i_major (x : Z) (i : inode) : inode :=
  Inode (i_dev i) (i_inum i) (i_ref i) (i_valid i) (i_type i) x (i_minor i) (i_nlink
    i) (i_size i) (i_addrs i).
Definition set_i_minor (x : Z) (i : inode) : inode :=
  Inode (i_dev i) (i_inum i) (i_ref i) (i_valid i) (i_type i) (i_major i) x (i_nlink
    i) (i_size i) (i_addrs i).
Definition set_i_nlink (x : Z) (i : inode) : inode :=
  Inode (i_dev i) (i_inum i) (i_ref i) (i_valid i) (i_type i) (i_major i) (i_minor i)
    x (i_size i) (i_addrs i).
Definition set_i_size (x : Z) (i : inode) : inode :=
  Inode (i_dev i) (i_inum i) (i_ref i) (i_valid i) (i_type i) (i_major i) (i_minor i)
    (i_nlink i) x (i_addrs i).
Definition set_i_addrs (x : list Z) (i : inode) : inode :=
  Inode (i_dev i) (i_inum i) (i_ref i) (i_valid i) (i_type i) (i_major i) (i_minor i)
    (i_nlink i) (i_size i) x.

Inductive filetype := FD_NONE | FD_PIPE | FD_INODE | FD_DEVICE.
#[export] Instance filetype_eq_dec : EqDecision filetype.
Proof. solve_decision. Defined.

(** [struct file] (kernel/file.h). *)
Record file := File {
  f_type : filetype;
  f_ref : Z;
  f_readable : bool;
  f_writable : bool;
  f_pipe : Z; (* page address of the pipe *)
  f_ip : option nat; (* index in itable *)
  f_off : Z;
  f_major : Z
}.

Definition set_f_type (x : filetype) (f : file) : file :=
  File x (f_ref f) (f_readable f) (f_writable f) (f_pipe f) (f_ip f) (f_off f)
    (f_major f).
Definition set_f_ref (x : Z) (f : file) : file :=
  File (f_type f) x (f_readable f) (f_writable f) (f_pipe f) (f_ip f) (f_off f)
    (f_major f).
Definition set_f_readable (x : bool) (f : file) : file :=
  File (f_type f) (f_ref f) x (f_writable f) (f_pipe f) (f_ip f) (f_off f) (f_major
    f).
Definition set_f_writable (x : bool) (f : file) : file :=
  File (f_type f) (f_ref f) (f_readable f) x (f_pipe f) (f_ip f) (f_off f) (f_major
    f).
Definition set_f_pipe (x : Z) (f : file) : file :=
  File (f_type f) (f_ref f) (f_readable f) (f_writable f) x (f_ip f) (f_off f)
    (f_major f).
Definition set_f_ip (x : option nat) (f : file) : file :=
  File (f_type f) (f_ref f) (f_readable f) (f_writable f) (f_pipe f) x (f_off f)
    (f_major f).
Definition set_f_off (x : Z) (f : file) : file :=
  File (f_type f) (f_ref f) (f_readable f) (f_writable f) (f_pipe f) (f_ip f) x
    (f_major f).
Definition set_f_major (x : Z) (f : file) : file :=
  File (f_type f) (f_ref f) (f_readable f) (f_writable f) (f_pipe f) (f_ip f) (f_off
    f) x.

(** [struct pipe] (kernel/pipe.c). *)
Record pipe := Pipe {
  pi_data : list Z; (* char data[PIPESIZE] *)
  pi_nread : Z;
  pi_nwrite : Z;
  pi_readopen : bool;
  pi_writeopen : bool
}.

Definition set_pi_data (x : list Z) (pi : pipe) : pipe :=
  Pipe x (pi_nread pi) (pi_nwrite pi) (pi_readopen pi) (pi_writeopen pi).
Definition set_pi_nread (x : Z) (pi : pipe) : pipe :=
  Pipe (pi_data pi) x (pi_nwrite pi) (pi_readopen pi) (pi_writeopen pi).
Definition set_pi_nwrite (x : Z) (pi : pipe) : pipe :=
  Pipe (pi_data pi) (pi_nread pi) x (pi_readopen pi) (pi_writeopen pi).
Definition set_pi_readopen (x : bool) (pi : pipe) : pipe :=
  Pipe (pi_data pi) (pi_nread pi) (pi_nwrite pi) x (pi_writeopen pi).
Definition set_pi_writeopen (x : bool) (pi : pipe) : pipe :=
  Pipe (pi_data pi) (pi_nread pi) (pi_nwrite pi) (pi_readopen pi) x.

(** [struct cons] (kernel/console.c). *)
Record cons_t := Cons {
  cons_buf : list Z; (* char buf[INPUT_BUF_SIZE] *)
  cons_r : Z;
  cons_w : Z;
  cons_e : Z
}.

Definition set_cons_buf (x : list Z) (c : cons_t) : cons_t :=
  Cons x (cons_r c) (cons_w c) (cons_e c).
Definition set_cons_r (x : Z) (c : cons_t) : cons_t :=
  Cons (cons_buf c) x (cons_w c) (cons_e c).
Definition set_cons_w (x : Z) (c : cons_t) : cons_t :=
  Cons (cons_buf c) (cons_r c) x (cons_e c).
Definition set_cons_e (x : Z) (c : cons_t) : cons_t :=
  Cons (cons_buf c) (cons_r c) (cons_w c) x.

(** The 16550 UART as the driver sees it, with the driver's [tx_busy]. *)
Record uart_t := Uart {
  tx_busy : bool;
  u_out : list Z; (* bytes transmitted, newest first *)
  u_in : list Z; (* receive FIFO *)
  u_tx_idle : bool; (* LSR_TX_IDLE *)
  u_regs : gmap Z Z (* control registers *)
}.

Definition set_tx_busy (x : bool) (u : uart_t) : uart_t :=
  Uart x (u_out u) (u_in u) (u_tx_idle u) (u_regs u).
Definition set_u_out (x : list Z) (u : uart_t) : uart_t :=
  Uart (tx_busy u) x (u_in u) (u_tx_idle u) (u_regs u).
Definition set_u_in (x : list Z) (u : uart_t) : uart_t :=
  Uart (tx_busy u) (u_out u) x (u_tx_idle u) (u_regs u).
Definition set_u_tx_idle (x : bool) (u : uart_t) : uart_t :=
  Uart (tx_busy u) (u_out u) (u_in u) x (u_regs u).
Definition set_u_regs (x : gmap Z Z) (u : uart_t) : uart_t :=
  Uart (tx_busy u) (u_out u) (u_in u) (u_tx_idle u) x.

(** The address of a piece of memory that is shared with the disk device: a request
    header, the data of a buffer, a status byte. *)
Inductive dma := D_null | D_req (i : nat) | D_data (b : nat) | D_status (i : nat).

(** [struct virtq_desc] and [struct virtio_blk_req] (kernel/virtio.h). *)
Record virtq_desc := Desc { d_addr : dma; d_len : Z; d_flags : Z; d_next : Z }.
Record virtio_blk_req := Req { rq_type : Z; rq_reserved : Z; rq_sector : Z }.

(** [struct disk] (kernel/virtio_disk.c), with the rings it points to. *)
Record disk_t := Disk {
  dk_desc : list virtq_desc;
  avail_ring : list Z;
  avail_idx : Z;
  used_ring : list Z;
  used_ridx : Z;
  dk_free : list bool;
  dk_used_idx : Z;
  info_b : list (option nat);
  info_status : list Z;
  dk_ops : list virtio_blk_req
}.

Definition set_dk_desc (x : list virtq_desc) (d : disk_t) : disk_t :=
  Disk x (avail_ring d) (avail_idx d) (used_ring d) (used_ridx d) (dk_free d) (dk_used_idx d)
    (info_b d) (info_status d) (dk_ops d).
Definition set_avail_ring (x : list Z) (d : disk_t) : disk_t :=
  Disk (dk_desc d) x (avail_idx d) (used_ring d) (used_ridx d) (dk_free d) (dk_used_idx d)
    (info_b d) (info_status d) (dk_ops d).
Definition set_avail_idx (x : Z) (d : disk_t) : disk_t :=
  Disk (dk_desc d) (avail_ring d) x (used_ring d) (used_ridx d) (dk_free d) (dk_used_idx d)
    (info_b d) (info_status d) (dk_ops d).
Definition set_used_ring (x : list Z) (d : disk_t) : disk_t :=
  Disk (dk_desc d) (avail_ring d) (avail_idx d) x (used_ridx d) (dk_free d) (dk_used_idx d)
    (info_b d) (info_status d) (dk_ops d).
Definition set_used_ridx (x : Z) (d : disk_t) : disk_t :=
  Disk (dk_desc d) (avail_ring d) (avail_idx d) (used_ring d) x (dk_free d) (dk_used_idx d)
    (info_b d) (info_status d) (dk_ops d).
Definition set_dk_free (x : list bool) (d : disk_t) : disk_t :=
  Disk (dk_desc d) (avail_ring d) (avail_idx d) (used_ring d) (used_ridx d) x (dk_used_idx d)
    (info_b d) (info_status d) (dk_ops d).
Definition set_dk_used_idx (x : Z) (d : disk_t) : disk_t :=
  Disk (dk_desc d) (avail_ring d) (avail_idx d) (used_ring d) (used_ridx d) (dk_free d) x
    (info_b d) (info_status d) (dk_ops d).
Definition set_info_b (x : list (option nat)) (d : disk_t) : disk_t :=
  Disk (dk_desc d) (avail_ring d) (avail_idx d) (used_ring d) (used_ridx d) (dk_free d)
    (dk_used_idx d) x (info_status d) (dk_ops d).
Definition set_info_status (x : list Z) (d : disk_t) : disk_t :=
  Disk (dk_desc d) (avail_ring d) (avail_idx d) (used_ring d) (used_ridx d) (dk_free d)
    (dk_used_idx d) (info_b d) x (dk_ops d).
Definition set_dk_ops (x : list virtio_blk_req) (d : disk_t) : disk_t :=
  Disk (dk_desc d) (avail_ring d) (avail_idx d) (used_ring d) (used_ridx d) (dk_free d)
    (dk_used_idx d) (info_b d) (info_status d) x.

(** The state of the kernel as the running thread sees it. *)
Record kernel := Kernel {
  hartid : nat; (* r_tp() *)
  cur : cpu; (* *mycpu() *)
  csr : csrs;
  locks : gmap lockid nat; (* held spin-locks, by hart *)
  slocks : gmap sleepid Z; (* held sleep-locks, by pid *)
  procs : list proc; (* proc[NPROC] *)
  initproc : option nat;
  nextpid : Z;
  ticks : Z; (* uint *)
  mem : Z → Z; (* physical memory, by byte *)
  freelist : Z; (* kmem.freelist *)
  kernel_pagetable : Z;
  bufs : list buf; (* bcache.buf[NBUF] *)
  lru : list nat; (* bcache list, head.next first *)
  disk_img : Z → list Z; (* disk image at boot *)
  disk_hist : list (Z * list Z); (* block writes since, newest first *)
  log : log_t;
  sb : superblock;
  itable : list inode; (* itable.inode[NINODE] *)
  ftable : list file; (* ftable.file[NFILE] *)
  pipes : gmap Z pipe; (* pipes, by page address *)
  cons : cons_t;
  uart : uart_t;
  panicked : bool;
  vdisk : disk_t (* the disk driver *)
}.

Definition set_hartid (x : nat) (s : kernel) : kernel :=
  Kernel x (cur s) (csr s) (locks s) (slocks s) (procs s) (initproc s) (nextpid s)
    (ticks s) (mem s) (freelist s) (kernel_pagetable s) (bufs s) (lru s) (disk_img s)
    (disk_hist s) (log s) (sb s) (itable s) (ftable s) (pipes s) (cons s) (uart s)
    (panicked s) (vdisk s).
Definition set_cur (x : cpu) (s : kernel) : kernel :=
  Kernel (hartid s) x (csr s) (locks s) (slocks s) (procs s) (initproc s) (nextpid s)
    (ticks s) (mem s) (freelist s) (kernel_pagetable s) (bufs s) (lru s) (disk_img s)
    (disk_hist s) (log s) (sb s) (itable s) (ftable s) (pipes s) (cons s) (uart s)
    (panicked s) (vdisk s).
Definition set_csr (x : csrs) (s : kernel) : kernel :=
  Kernel (hartid s) (cur s) x (locks s) (slocks s) (procs s) (initproc s) (nextpid s)
    (ticks s) (mem s) (freelist s) (kernel_pagetable s) (bufs s) (lru s) (disk_img s)
    (disk_hist s) (log s) (sb s) (itable s) (ftable s) (pipes s) (cons s) (uart s)
    (panicked s) (vdisk s).
Definition set_locks (x : gmap lockid nat) (s : kernel) : kernel :=
  Kernel (hartid s) (cur s) (csr s) x (slocks s) (procs s) (initproc s) (nextpid s)
    (ticks s) (mem s) (freelist s) (kernel_pagetable s) (bufs s) (lru s) (disk_img s)
    (disk_hist s) (log s) (sb s) (itable s) (ftable s) (pipes s) (cons s) (uart s)
    (panicked s) (vdisk s).
Definition set_slocks (x : gmap sleepid Z) (s : kernel) : kernel :=
  Kernel (hartid s) (cur s) (csr s) (locks s) x (procs s) (initproc s) (nextpid s)
    (ticks s) (mem s) (freelist s) (kernel_pagetable s) (bufs s) (lru s) (disk_img s)
    (disk_hist s) (log s) (sb s) (itable s) (ftable s) (pipes s) (cons s) (uart s)
    (panicked s) (vdisk s).
Definition set_procs (x : list proc) (s : kernel) : kernel :=
  Kernel (hartid s) (cur s) (csr s) (locks s) (slocks s) x (initproc s) (nextpid s)
    (ticks s) (mem s) (freelist s) (kernel_pagetable s) (bufs s) (lru s) (disk_img s)
    (disk_hist s) (log s) (sb s) (itable s) (ftable s) (pipes s) (cons s) (uart s)
    (panicked s) (vdisk s).
Definition set_initproc (x : option nat) (s : kernel) : kernel :=
  Kernel (hartid s) (cur s) (csr s) (locks s) (slocks s) (procs s) x (nextpid s)
    (ticks s) (mem s) (freelist s) (kernel_pagetable s) (bufs s) (lru s) (disk_img s)
    (disk_hist s) (log s) (sb s) (itable s) (ftable s) (pipes s) (cons s) (uart s)
    (panicked s) (vdisk s).
Definition set_nextpid (x : Z) (s : kernel) : kernel :=
  Kernel (hartid s) (cur s) (csr s) (locks s) (slocks s) (procs s) (initproc s) x
    (ticks s) (mem s) (freelist s) (kernel_pagetable s) (bufs s) (lru s) (disk_img s)
    (disk_hist s) (log s) (sb s) (itable s) (ftable s) (pipes s) (cons s) (uart s)
    (panicked s) (vdisk s).
Definition set_ticks (x : Z) (s : kernel) : kernel :=
  Kernel (hartid s) (cur s) (csr s) (locks s) (slocks s) (procs s) (initproc s)
    (nextpid s) x (mem s) (freelist s) (kernel_pagetable s) (bufs s) (lru s) (disk_img
    s) (disk_hist s) (log s) (sb s) (itable s) (ftable s) (pipes s) (cons s) (uart s)
    (panicked s) (vdisk s).
Definition set_mem (x : Z → Z) (s : kernel) : kernel :=
  Kernel (hartid s) (cur s) (csr s) (locks s) (slocks s) (procs s) (initproc s)
    (nextpid s) (ticks s) x (freelist s) (kernel_pagetable s) (bufs s) (lru s) (disk_img
    s) (disk_hist s) (log s) (sb s) (itable s) (ftable s) (pipes s) (cons s) (uart s)
    (panicked s) (vdisk s).
Definition set_freelist (x : Z) (s : kernel) : kernel :=
  Kernel (hartid s) (cur s) (csr s) (locks s) (slocks s) (procs s) (initproc s)
    (nextpid s) (ticks s) (mem s) x (kernel_pagetable s) (bufs s) (lru s) (disk_img s)
    (disk_hist s) (log s) (sb s) (itable s) (ftable s) (pipes s) (cons s) (uart s)
    (panicked s) (vdisk s).
Definition set_kernel_pagetable (x : Z) (s : kernel) : kernel :=
  Kernel (hartid s) (cur s) (csr s) (locks s) (slocks s) (procs s) (initproc s)
    (nextpid s) (ticks s) (mem s) (freelist s) x (bufs s) (lru s) (disk_img s)
    (disk_hist s) (log s) (sb s) (itable s) (ftable s) (pipes s) (cons s) (uart s)
    (panicked s) (vdisk s).
Definition set_bufs (x : list buf) (s : kernel) : kernel :=
  Kernel (hartid s) (cur s) (csr s) (locks s) (slocks s) (procs s) (initproc s)
    (nextpid s) (ticks s) (mem s) (freelist s) (kernel_pagetable s) x (lru s) (disk_img
    s) (disk_hist s) (log s) (sb s) (itable s) (ftable s) (pipes s) (cons s) (uart s)
    (panicked s) (vdisk s).
Definition set_lru (x : list nat) (s : kernel) : kernel :=
  Kernel (hartid s) (cur s) (csr s) (locks s) (slocks s) (procs s) (initproc s)
    (nextpid s) (ticks s) (mem s) (freelist s) (kernel_pagetable s) (bufs s) x (disk_img
    s) (disk_hist s) (log s) (sb s) (itable s) (ftable s) (pipes s) (cons s) (uart s)
    (panicked s) (vdisk s).
Definition set_disk_img (x : Z → list Z) (s : kernel) : kernel :=
  Kernel (hartid s) (cur s) (csr s) (locks s) (slocks s) (procs s) (initproc s)
    (nextpid s) (ticks s) (mem s) (freelist s) (kernel_pagetable s) (bufs s) (lru s) x
    (disk_hist s) (log s) (sb s) (itable s) (ftable s) (pipes s) (cons s) (uart s)
    (panicked s) (vdisk s).
Definition set_disk_hist (x : list (Z * list Z)) (s : kernel) : kernel :=
  Kernel (hartid s) (cur s) (csr s) (locks s) (slocks s) (procs s) (initproc s)
    (nextpid s) (ticks s) (mem s) (freelist s) (kernel_pagetable s) (bufs s) (lru s)
    (disk_img s) x (log s) (sb s) (itable s) (ftable s) (pipes s) (cons s) (uart s)
    (panicked s) (vdisk s).
Definition set_log (x : log_t) (s : kernel) : kernel :=
  Kernel (hartid s) (cur s) (csr s) (locks s) (slocks s) (procs s) (initproc s)
    (nextpid s) (ticks s) (mem s) (freelist s) (kernel_pagetable s) (bufs s) (lru s)
    (disk_img s) (disk_hist s) x (sb s) (itable s) (ftable s) (pipes s) (cons s) (uart
    s) (panicked s) (vdisk s).
Definition set_sb (x : superblock) (s : kernel) : kernel :=
  Kernel (hartid s) (cur s) (csr s) (locks s) (slocks s) (procs s) (initproc s)
    (nextpid s) (ticks s) (mem s) (freelist s) (kernel_pagetable s) (bufs s) (lru s)
    (disk_img s) (disk_hist s) (log s) x (itable s) (ftable s) (pipes s) (cons s) (uart
    s) (panicked s) (vdisk s).
Definition set_itable (x : list inode) (s : kernel) : kernel :=
  Kernel (hartid s) (cur s) (csr s) (locks s) (slocks s) (procs s) (initproc s)
    (nextpid s) (ticks s) (mem s) (freelist s) (kernel_pagetable s) (bufs s) (lru s)
    (disk_img s) (disk_hist s) (log s) (sb s) x (ftable s) (pipes s) (cons s) (uart s)
    (panicked s) (vdisk s).
Definition set_ftable (x : list file) (s : kernel) : kernel :=
  Kernel (hartid s) (cur s) (csr s) (locks s) (slocks s) (procs s) (initproc s)
    (nextpid s) (ticks s) (mem s) (freelist s) (kernel_pagetable s) (bufs s) (lru s)
    (disk_img s) (disk_hist s) (log s) (sb s) (itable s) x (pipes s) (cons s) (uart s)
    (panicked s) (vdisk s).
Definition set_pipes (x : gmap Z pipe) (s : kernel) : kernel :=
  Kernel (hartid s) (cur s) (csr s) (locks s) (slocks s) (procs s) (initproc s)
    (nextpid s) (ticks s) (mem s) (freelist s) (kernel_pagetable s) (bufs s) (lru s)
    (disk_img s) (disk_hist s) (log s) (sb s) (itable s) (ftable s) x (cons s) (uart s)
    (panicked s) (vdisk s).
Definition set_cons (x : cons_t) (s : kernel) : kernel :=
  Kernel (hartid s) (cur s) (csr s) (locks s) (slocks s) (procs s) (initproc s)
    (nextpid s) (ticks s) (mem s) (freelist s) (kernel_pagetable s) (bufs s) (lru s)
    (disk_img s) (disk_hist s) (log s) (sb s) (itable s) (ftable s) (pipes s) x (uart s)
    (panicked s) (vdisk s).
Definition set_uart (x : uart_t) (s : kernel) : kernel :=
  Kernel (hartid s) (cur s) (csr s) (locks s) (slocks s) (procs s) (initproc s)
    (nextpid s) (ticks s) (mem s) (freelist s) (kernel_pagetable s) (bufs s) (lru s)
    (disk_img s) (disk_hist s) (log s) (sb s) (itable s) (ftable s) (pipes s) (cons s) x
    (panicked s) (vdisk s).
Definition set_panicked (x : bool) (s : kernel) : kernel :=
  Kernel (hartid s) (cur s) (csr s) (locks s) (slocks s) (procs s) (initproc s)
    (nextpid s) (ticks s) (mem s) (freelist s) (kernel_pagetable s) (bufs s) (lru s)
    (disk_img s) (disk_hist s) (log s) (sb s) (itable s) (ftable s) (pipes s) (cons s)
    (uart s) x (vdisk s).
Definition set_vdisk (x : disk_t) (s : kernel) : kernel :=
  Kernel (hartid s) (cur s) (csr s) (locks s) (slocks s) (procs s) (initproc s)
    (nextpid s) (ticks s) (mem s) (freelist s) (kernel_pagetable s) (bufs s) (lru s)
    (disk_img s) (disk_hist s) (log s) (sb s) (itable s) (ftable s) (pipes s) (cons s)
    (uart s) (panicked s) x.

(** ** Outcomes and the monad *)

Inductive res (A : Type) : Type :=
| Ok (a : A) (s : kernel)                  (* returned *)
| Panic (msg : string)                     (* panic(msg), which never returns *)
| Swtch (s : kernel) (k : kernel → res A)  (* swtch(); [k] runs when switched back *)
| Hang (s : kernel).                       (* no progress without another hart *)
Arguments Ok {A} a s.
Arguments Panic {A} msg.
Arguments Swtch {A} s k.
Arguments Hang {A} s.

Definition K (A : Type) : Type := kernel → res A.

Fixpoint rbind {A B} (r : res A) (f : A → K B) : res B :=
  match r with
  | Ok a s => f a s
  | Panic msg => Panic msg
  | Swtch s k => Swtch s (λ s', rbind (k s') f)
  | Hang s => Hang s
  end.

Definition ret {A} (a : A) : K A := λ s, Ok a s.
Definition bind {A B} (m : K A) (f : A → K B) : K B := λ s, rbind (m s) f.
Definition panic {A} (msg : string) : K A := λ _, Panic msg.
Definition get {A} (f : kernel → A) : K A := λ s, Ok (f s) s.
Definition modify (f : kernel → kernel) : K unit := λ s, Ok tt (f s).
(** The swtch() of the running thread. *)
Definition swtch : K unit := λ s, Swtch s (λ s', Ok tt s').
Definition hang {A} : K A := λ s, Hang s.

Declare Scope kernel_scope.
Delimit Scope kernel_scope with kernel.
Notation "x <- m ;; k" := (bind m (λ x, k))
  (at level 100, m at next level, right associativity) : kernel_scope.
Notation "m ;; k" := (bind m (λ _, k))
  (at level 100, right associativity) : kernel_scope.
Notation "'when' b m" := (if b then m else ret tt)
  (at level 60, b at level 9, m at level 9) : kernel_scope.
Open Scope kernel_scope.

(** [for (x in l) f(x)] *)
Fixpoint for_each {A} (l : list A) (f : A → K unit) : K unit :=
  match l with
  | [] => ret tt
  | x :: l => f x ;; for_each l f
  end.

(** [for (x in l) if ((r = f(x))) return r]: a loop left at the first result. *)
Fixpoint for_find {A B} (l : list A) (f : A → K (option B)) : K (option B) :=
  match l with
  | [] => ret None
  | x :: l => r <- f x ;; match r with Some b => ret (Some b) | None => for_find l f end
  end.

(** [for (x in l) acc = f(x, acc)]: a loop that updates local variables. *)
Fixpoint for_acc {A B} (l : list A) (acc : B) (f : A → B → K B) : K B :=
  match l with
  | [] => ret acc
  | x :: l => acc <- f x acc ;; for_acc l acc f
  end.

(** A loop with local state: [body] continues with [inl] or leaves with [inr].
    The fuel bounds the iterations; running out of it is [Hang]. *)
Fixpoint loop {L A} (fuel : nat) (body : L → K (L + A)) (l : L) : K A :=
  match fuel with
  | O => hang
  | S fuel =>
      r <- body l ;;
      match r with inl l' => loop fuel body l' | inr a => ret a end
  end.

(** ** Reasoning about runs *)

Lemma bind_Ok {A B} (m : K A) (f : A → K B) s a s' :
  m s = Ok a s' → bind m f s = f a s'.
Proof. unfold bind. by intros ->. Qed.
Lemma bind_Panic {A B} (m : K A) (f : A → K B) s msg :
  m s = Panic msg → bind m f s = Panic msg.
Proof. unfold bind. by intros ->. Qed.
Lemma bind_Hang {A B} (m : K A) (f : A → K B) s s' :
  m s = Hang s' → bind m f s = Hang s'.
Proof. unfold bind. by intros ->. Qed.
Lemma bind_ret {A B} (a : A) (f : A → K B) s : bind (ret a) f s = f a s.
Proof. reflexivity. Qed.
Lemma bind_get {A B} (g : kernel → A) (f : A → K B) s : bind (get g) f s = f (g s) s.
Proof. reflexivity. Qed.
Lemma bind_modify {B} (g : kernel → kernel) (f : unit → K B) s :
  bind (modify g) f s = f tt (g s).
Proof. reflexivity. Qed.
Lemma bind_panic {A B} msg (f : A → K B) s : bind (panic msg) f s = Panic msg.
Proof. reflexivity. Qed.
Lemma bind_hang {A B} (f : A → K B) s : bind hang f s = Hang s.
Proof. reflexivity. Qed.
Lemma bind_swtch {B} (f : unit → K B) s : bind swtch f s = Swtch s (λ s', f tt s').
Proof. reflexivity. Qed.

Lemma rbind_assoc_ok {A B C} (m : K A) (f : A → K B) (g : B → K C) s :
  (∀ s1 k, m s ≠ Swtch s1 k) →
  bind (bind m f) g s = bind m (λ a, bind (f a) g) s.
Proof. unfold bind. destruct (m s) eqn:E; try done. intros H. by destruct (H _ _ eq_refl). Qed.

(** [kstep] runs the primitive at the head of the goal's run. *)
Ltac kstep :=
  first [ rewrite bind_ret | rewrite bind_get | rewrite bind_modify | rewrite bind_panic
        | rewrite bind_hang | rewrite bind_swtch
        | erewrite bind_Ok by eassumption ]; cbv beta.
Ltac ksteps := repeat kstep.

(** A loop whose body always returns is a fold over the states. *)
Lemma for_each_fold {A} (I : kernel → Prop) (l : list A) (f : A → K unit)
    (g : kernel → A → kernel) s :
  (∀ x s, x ∈ l → I s → f x s = Ok tt (g s x) ∧ I (g s x)) →
  I s → for_each l f s = Ok tt (foldl g s l) ∧ I (foldl g s l).
Proof.
  revert s. induction l as [|x l IH]; intros s Hf Hs; simpl; [done|].
  destruct (Hf x s) as [E HI]; [by left | done |].
  rewrite (bind_Ok _ _ _ _ _ E). apply IH; [|done].
  intros y s' Hy. apply Hf. by right.
Qed.

(** A counted loop, by an invariant. *)
Lemma for_seq_aux (f : nat → K unit) (I : nat → kernel → Prop) n m :
  (∀ k s, (k < m + n)%nat → I k s → ∃ s', f k s = Ok tt s' ∧ I (S k) s') →
  ∀ s, I m s → ∃ s', for_each (seq m n) f s = Ok tt s' ∧ I (m + n)%nat s'.
Proof.
  revert m. induction n as [|n IH]; intros m Hf s Hs; simpl.
  - exists s. by rewrite Nat.add_0_r.
  - destruct (Hf m s) as (s1 & E & H1); [lia | done |]. rewrite (bind_Ok _ _ _ _ _ E).
    destruct (IH (S m)) with (s := s1) as (s2 & E2 & H2); [|done|].
    + intros k s' Hk. apply Hf. lia.
    + exists s2. split; [done|]. by rewrite Nat.add_succ_r.
Qed.
Lemma for_seq (f : nat → K unit) (I : nat → kernel → Prop) n s :
  (∀ k s, (k < n)%nat → I k s → ∃ s', f k s = Ok tt s' ∧ I (S k) s') →
  I 0%nat s → ∃ s', for_each (seq 0 n) f s = Ok tt s' ∧ I n s'.
Proof. intros Hf. by apply (for_seq_aux f I n 0). Qed.

(** ** Access to the process table *)

Definition null_metrics : metrics :=
  Metrics 0 0 0 0 0 0 0 0 0 PROC_TYPE_INTERACTIVE 0 0 0 0 0 0 0 0 HEALTH_NORMAL 0 0.
(** A zeroed entry of proc[], as the loader leaves it. *)
Definition null_proc : proc :=
  Proc UNUSED None 0 0 0 None 0 0 0 0 (Context 0 0 (replicate 12 0))
    (replicate NOFILE None) None (replicate 16 0) null_metrics.

Definition proc_at (s : kernel) (i : nat) : proc := default null_proc (procs s !! i).
Definition upd_proc (i : nat) (f : proc → proc) (s : kernel) : kernel :=
  set_procs (alter f i (procs s)) s.
Definition upd_mt (f : metrics → metrics) (p : proc) : proc := set_p_mt (f (p_mt p)) p.

(** A kernel with every variable as the loader leaves it: zeroed. *)
Definition null_kernel : kernel :=
  {| hartid := 0; cur := Cpu None 0 false false; csr := Csrs 0 0 0 0 0 0 0 0;
     locks := ∅; slocks := ∅; procs := replicate NPROC null_proc; initproc := None;
     nextpid := 1; ticks := 0; mem := λ _, 0; freelist := 0; kernel_pagetable := 0;
     bufs := replicate NBUF (Buf false false 0 0 0 []); lru := [];
     disk_img := λ _, []; disk_hist := [];
     log := Log 0 0 false 0 0 0 (replicate (Z.to_nat LOGBLOCKS) 0);
     sb := Superblock 0 0 0 0 0 0 0 0;
     itable := replicate NINODE (Inode 0 0 0 false 0 0 0 0 0 (replicate 13 0));
     ftable := replicate NFILE (File FD_NONE 0 false false 0 None 0 0);
     pipes := ∅; cons := Cons (replicate 128 0) 0 0 0; uart := Uart false [] [] true ∅;
     panicked := false;
     vdisk := Disk (replicate 8 (Desc D_null 0 0 0)) (replicate 8 0) 0 (replicate 8 0) 0
       (replicate 8 false) 0 (replicate 8 None) (replicate 8 0) (replicate 8 (Req 0 0 0)) |}.
