(* ===== verification/Spinlock.v ===== *)
(** Spin-locks and interrupt nesting: kernel/spinlock.c, with intr_on(),
    intr_off() and intr_get() of kernel/riscv.h and myproc() of kernel/proc.c.

    A held lock is an entry of [locks] with the hart that holds it, which is
    the pair ([locked], [cpu]) of [struct spinlock]; the debugging name is not
    kept. The atomic exchange of acquire() succeeds when the lock is free; when
    another hart holds it the thread makes no progress ([Hang]). *)
From S2P Require Import Prelude Pstat Kernel.

(** ** Operations *)

Definition upd_cur (f : cpu → cpu) (s : kernel) : kernel := set_cur (f (cur s)) s.

Definition intr_get : K bool := get (λ s, c_sie (cur s)).
Definition intr_on : K unit := modify (upd_cur (set_c_sie true)).
Definition intr_off : K unit := modify (upd_cur (set_c_sie false)).

Definition mycpu : K cpu := get cur.

Definition push_off : K unit :=
  old <- intr_get ;;
  intr_off ;;
  c <- mycpu ;;
  when (c_noff c =? 0) (modify (upd_cur (set_c_intena old))) ;;
  modify (upd_cur (λ c, set_c_noff (c_noff c + 1) c)).

Definition pop_off : K unit :=
  i <- intr_get ;;
  if i then panic "pop_off - interruptible" else
  c <- mycpu ;;
  if c_noff c <? 1 then panic "pop_off" else
  modify (upd_cur (λ c, set_c_noff (c_noff c - 1) c)) ;;
  c <- mycpu ;;
  when ((c_noff c =? 0) && c_intena c) intr_on.

Definition initlock (lk : lockid) : K unit :=
  modify (λ s, set_locks (delete lk (locks s)) s).

Definition holding (lk : lockid) : K bool :=
  get (λ s, bool_decide (locks s !! lk = Some (hartid s))).

Definition acquire (lk : lockid) : K unit :=
  push_off ;;
  h <- holding lk ;;
  if h then panic "acquire" else
  l <- get (λ s, locks s !! lk) ;;
  match l with
  | Some _ => hang
  | None => modify (λ s, set_locks (<[lk := hartid s]> (locks s)) s)
  end.

Definition release (lk : lockid) : K unit :=
  h <- holding lk ;;
  if negb h then panic "release" else
  modify (λ s, set_locks (delete lk (locks s)) s) ;;
  pop_off.

(** A straight-line critical section: acquire(lk); ...; release(lk). *)
Definition locked {A} (lk : lockid) (m : K A) : K A :=
  acquire lk ;;
  x <- m ;;
  release lk ;;
  ret x.

Definition myproc : K (option nat) :=
  push_off ;;
  p <- get (λ s, c_proc (cur s)) ;;
  pop_off ;;
  ret p.

(** ** The state of a hart inside and outside critical sections *)

(** What every hart maintains: interrupts are off while it holds a lock. *)
Definition cpu_ok (c : cpu) : Prop := 0 <= c_noff c ∧ (0 < c_noff c → c_sie c = false).

(** The effect of push_off(), and of a matched push_off()/pop_off() pair. *)
Definition pushed (c : cpu) : cpu :=
  Cpu (c_proc c) (c_noff c + 1) (if c_noff c =? 0 then c_sie c else c_intena c) false.
Definition settled (c : cpu) : cpu :=
  Cpu (c_proc c) (c_noff c) (if c_noff c =? 0 then c_sie c else c_intena c) (c_sie c).

Definition settle (s : kernel) : kernel := set_cur (settled (cur s)) s.
Definition lock_state (lk : lockid) (s : kernel) : kernel :=
  set_locks (<[lk := hartid s]> (locks s)) (set_cur (pushed (cur s)) s).

Lemma cpu_ok_pushed c : cpu_ok c → cpu_ok (pushed c).
Proof. unfold cpu_ok, pushed. simpl. lia. Qed.
Lemma cpu_ok_settled c : cpu_ok c → cpu_ok (settled c).
Proof. unfold cpu_ok, settled. simpl. done. Qed.
Lemma settled_idemp c : settled (settled c) = settled c.
Proof. unfold settled. simpl. by destruct (c_noff c =? 0). Qed.
Lemma settled_pushed c : cpu_ok c → settled (pushed c) = pushed c.
Proof.
  intros [H _]. unfold settled, pushed. simpl.
  destruct (c_noff c + 1 =? 0) eqn:E; [lia | done].
Qed.

(** Inside a critical section nothing is left to settle. *)
Lemma settled_locked c : 0 < c_noff c → settled c = c.
Proof.
  intros H. unfold settled. destruct c; simpl in *.
  destruct (_ =? 0) eqn:E; [lia | done].
Qed.

Create HintDb kernel.
#[export] Hint Resolve cpu_ok_pushed cpu_ok_settled : kernel.

Lemma push_off_ok s : push_off s = Ok tt (set_cur (pushed (cur s)) s).
Proof.
  unfold push_off, intr_get, intr_off, mycpu. ksteps. simpl.
  destruct (c_noff (cur s) =? 0) eqn:E; ksteps; unfold pushed, upd_cur, modify; simpl;
    rewrite E; reflexivity.
Qed.

Lemma pop_off_ok s c :
  cpu_ok c → cur s = pushed c → pop_off s = Ok tt (set_cur (settled c) s).
Proof.
  intros [Hn Hs] Hc. unfold pop_off, intr_get, mycpu. ksteps. rewrite Hc. simpl.
  ksteps. rewrite ?Hc. simpl.
  destruct (c_noff c + 1 <? 1) eqn:E; [lia|].
  ksteps. unfold upd_cur, modify, mycpu. simpl. rewrite Hc. simpl.
  replace (c_noff c + 1 - 1) with (c_noff c) by lia.
  unfold settled. destruct (c_noff c =? 0) eqn:E0; simpl.
  - unfold intr_on, upd_cur, modify, ret, pushed. simpl. rewrite E0.
    by destruct (c_sie c).
  - unfold ret, pushed. simpl. by rewrite E0, Hs by lia.
Qed.

Lemma acquire_ok lk s :
  locks s !! lk = None → acquire lk s = Ok tt (lock_state lk s).
Proof.
  intros Hl. unfold acquire. rewrite (bind_Ok _ _ _ _ _ (push_off_ok s)).
  unfold holding. ksteps. simpl. rewrite Hl. simpl. ksteps. simpl. rewrite Hl. reflexivity.
Qed.

Lemma release_ok lk s c :
  cpu_ok c → cur s = pushed c → locks s !! lk = Some (hartid s) →
  release lk s = Ok tt (set_cur (settled c) (set_locks (delete lk (locks s)) s)).
Proof.
  intros Hok Hc Hl. unfold release, holding. ksteps. rewrite bool_decide_true by done.
  simpl. ksteps. rewrite (pop_off_ok _ c); [reflexivity | done | done].
Qed.

Lemma myproc_ok s : cpu_ok (cur s) → myproc s = Ok (c_proc (cur s)) (settle s).
Proof.
  intros Hok. unfold myproc. rewrite (bind_Ok _ _ _ _ _ (push_off_ok s)). ksteps.
  erewrite bind_Ok by (apply (pop_off_ok _ (cur s)); done). reflexivity.
Qed.

(** A critical section whose body returns with the lock still held returns,
    with the lock free again and the interrupt state restored. *)
Lemma locked_ok {A} lk (m : K A) s a s2 :
  cpu_ok (cur s) → locks s !! lk = None →
  m (lock_state lk s) = Ok a s2 →
  cur s2 = pushed (cur s) → hartid s2 = hartid s →
  locks s2 = <[lk := hartid s]> (locks s) →
  locked lk m s = Ok a (set_cur (settled (cur s)) (set_locks (locks s) s2)).
Proof.
  intros Hok Hl Hm Hc Hh Hlk. unfold locked.
  rewrite (bind_Ok _ _ _ _ _ (acquire_ok lk s Hl)), (bind_Ok _ _ _ _ _ Hm).
  erewrite bind_Ok.
  2: { apply (release_ok lk s2 (cur s)); [done | done |]. by rewrite Hlk, lookup_insert_eq, Hh. }
  unfold ret. rewrite Hlk, delete_insert_id by done. reflexivity.
Qed.
