(* ===== verification/Sched.v ===== *)
(** The scheduler and the sleep/wakeup primitives of kernel/proc.c, with the
    statistics system calls' kernel halves.

    A critical section on [p->lock] whose only effect is on that process is
    written with [locked]. swtch() is the [Swtch] outcome: scheduler() and
    sched() each stop there and go on when the other side switches back. *)
From S2P Require Import Prelude Pstat Kernel Spinlock.

(** ** Operations *)

(** [struct proc *p = myproc()] followed by a dereference of [p]: a null [p]
    is a page fault in the kernel, which kerneltrap() turns into a panic. *)
Definition curproc : K nat :=
  p <- myproc ;;
  match p with
  | Some i => ret i
  | None => panic "kerneltrap"
  end.

Definition set_state (i : nat) (st : procstate) : K unit :=
  modify (upd_proc i (set_p_state st)).

Definition sched : K unit :=
  p <- curproc ;;
  h <- holding (L_proc p) ;;
  if negb h then panic "sched p->lock" else
  c <- mycpu ;;
  if negb (c_noff c =? 1) then panic "sched locks" else
  st <- get (λ s, p_state (proc_at s p)) ;;
  if bool_decide (st = RUNNING) then panic "sched RUNNING" else
  i <- intr_get ;;
  if i then panic "sched interruptible" else
  t <- get ticks ;;
  modify (upd_proc p (upd_mt (sched_account st t))) ;;
  c <- mycpu ;;
  swtch ;;
  modify (upd_cur (set_c_intena (c_intena c))).

Definition yield : K unit :=
  p <- curproc ;;
  acquire (L_proc p) ;;
  set_state p RUNNABLE ;;
  sched ;;
  release (L_proc p).

Definition sleep (chan : chan_t) (lk : lockid) : K unit :=
  p <- curproc ;;
  acquire (L_proc p) ;;
  release lk ;;
  modify (upd_proc p (set_p_chan (Some chan))) ;;
  set_state p SLEEPING ;;
  sched ;;
  modify (upd_proc p (set_p_chan None)) ;;
  release (L_proc p) ;;
  acquire lk.

(** The body of the loop of wakeup(). *)
Definition wake_step (chan : chan_t) (i : nat) : K unit :=
  me <- myproc ;;
  if bool_decide (me = Some i) then ret tt else
  locked (L_proc i) (
    p <- get (λ s, proc_at s i) ;;
    when (bool_decide (p_state p = SLEEPING) && bool_decide (p_chan p = Some chan))
      (set_state i RUNNABLE)).

Definition wakeup (chan : chan_t) : K unit := for_each (seq 0 NPROC) (wake_step chan).

(** One probe of the loop of kkill(). *)
Definition kill_probe (pid : Z) (i : nat) : K (option Z) :=
  acquire (L_proc i) ;;
  p <- get (λ s, proc_at s i) ;;
  if p_pid p =? pid then
    modify (upd_proc i (set_p_killed 1)) ;;
    when (bool_decide (p_state p = SLEEPING)) (set_state i RUNNABLE) ;;
    release (L_proc i) ;;
    ret (Some 0)
  else
    release (L_proc i) ;;
    ret None.

Definition kkill (pid : Z) : K Z :=
  r <- for_find (seq 0 NPROC) (kill_probe pid) ;;
  ret (default (-1) r).

Definition setkilled (i : nat) : K unit :=
  locked (L_proc i) (modify (upd_proc i (set_p_killed 1))).

Definition killed (i : nat) : K Z :=
  locked (L_proc i) (get (λ s, p_killed (proc_at s i))).

(** Pass 1 of scheduler(), as a step of its loop over proc[]: the local
    variables are [best_p] and [best_prio]. *)
Definition rank_step (i : nat) (best : option nat * Z) : K (option nat * Z) :=
  locked (L_proc i) (
    p <- get (λ s, proc_at s i) ;;
    if bool_decide (p_state p = RUNNABLE) then
      let prio := calc_dynamic_priority (p_mt p) in
      modify (upd_proc i (upd_mt (set_priority prio))) ;;
      ret (if best.2 <? prio then (Some i, prio) else best)
    else ret best).

Definition rank : K (option nat * Z) := for_acc (seq 0 NPROC) (None, -1) rank_step.

(** Pass 2: dispatch the candidate if it is still RUNNABLE; the result is
    [dispatched]. *)
Definition dispatch (best_p : nat) : K bool :=
  acquire (L_proc best_p) ;;
  st <- get (λ s, p_state (proc_at s best_p)) ;;
  d <- (if bool_decide (st = RUNNABLE) then
          set_state best_p RUNNING ;;
          t <- get ticks ;;
          modify (upd_proc best_p (upd_mt (dispatch_account t))) ;;
          modify (upd_cur (set_c_proc (Some best_p))) ;;
          swtch ;;
          modify (upd_cur (set_c_proc None)) ;;
          ret true
        else ret false) ;;
  release (L_proc best_p) ;;
  ret d.

(** [asm volatile("wfi")]: wait for an interrupt; no state of ours changes. *)
Definition wfi : K unit := ret tt.

(** One iteration of the endless loop of scheduler(). *)
Definition scheduler_iter : K unit :=
  intr_on ;;
  intr_off ;;
  best <- rank ;;
  dispatched <- (match best.1 with None => ret false | Some p => dispatch p end) ;;
  when (negb dispatched) wfi.

Fixpoint scheduler_loop (fuel : nat) : K unit :=
  match fuel with
  | O => hang
  | S fuel => scheduler_iter ;; scheduler_loop fuel
  end.

Definition scheduler (fuel : nat) : K unit :=
  modify (upd_cur (set_c_proc None)) ;;
  scheduler_loop fuel.

Definition clock_tick_accounting : K unit :=
  for_each (seq 0 NPROC) (λ i,
    locked (L_proc i) (
      p <- get (λ s, proc_at s i) ;;
      when (bool_decide (p_state p = RUNNABLE))
        (t <- get ticks ;; modify (upd_proc i (upd_mt (clock_account t)))))).

(** [struct workload_info] (kernel/pstat.h). *)
Record workload_info := WorkloadInfo {
  num_runnable : Z; num_running : Z; num_sleeping : Z; num_total : Z;
  avg_est_burst : Z; pct_interactive : Z; pct_cpu_bound : Z; pct_mixed : Z;
  num_healthy : Z; num_warning : Z; num_critical : Z; total_healing_actions : Z
}.

(** The local counters of get_workload_stats(). *)
Record tally := Tally {
  t_runnable : Z; t_running : Z; t_sleeping : Z; t_total : Z;
  t_interactive : Z; t_cpu_bound : Z; t_mixed : Z;
  t_healthy : Z; t_warning : Z; t_critical : Z; t_heals : Z;
  t_burst : Z
}.

Definition bump (b : bool) (n : Z) : Z := if b then n + 1 else n.

Definition tally_proc (p : proc) (t : tally) : tally :=
  if bool_decide (p_state p = UNUSED) then t else
  let m := p_mt p in
  {| t_total := t_total t + 1;
     t_runnable := bump (bool_decide (p_state p = RUNNABLE)) (t_runnable t);
     t_running := bump (bool_decide (p_state p = RUNNING)) (t_running t);
     t_sleeping := bump (bool_decide (p_state p = SLEEPING)) (t_sleeping t);
     t_burst := u32 (t_burst t + est_burst m);
     t_interactive := bump (bool_decide (proc_type m = PROC_TYPE_INTERACTIVE)) (t_interactive t);
     t_cpu_bound := bump (bool_decide (proc_type m = PROC_TYPE_CPU_BOUND)) (t_cpu_bound t);
     t_mixed := bump (bool_decide (proc_type m = PROC_TYPE_MIXED)) (t_mixed t);
     t_healthy := bump (bool_decide (health_status m = HEALTH_NORMAL)) (t_healthy t);
     t_warning := bump (bool_decide (health_status m = HEALTH_WARNING)) (t_warning t);
     t_critical := bump (bool_decide (health_status m = HEALTH_CRITICAL)) (t_critical t);
     t_heals := i32 (u32 (t_heals t + healing_actions m)) |}.

Definition tally0 : tally := Tally 0 0 0 0 0 0 0 0 0 0 0 0.

Definition summary (t : tally) : workload_info :=
  {| num_runnable := t_runnable t;
     num_running := t_running t;
     num_sleeping := t_sleeping t;
     num_total := t_total t;
     avg_est_burst := if 0 <? t_total t then t_burst t / t_total t else 0;
     pct_interactive := if 0 <? t_total t then t_interactive t * 100 / t_total t else 0;
     pct_cpu_bound := if 0 <? t_total t then t_cpu_bound t * 100 / t_total t else 0;
     pct_mixed := if 0 <? t_total t then t_mixed t * 100 / t_total t else 0;
     num_healthy := t_healthy t;
     num_warning := t_warning t;
     num_critical := t_critical t;
     total_healing_actions := t_heals t |}.

(** The result is what the function stores through [winfo]. *)
Definition get_workload_stats : K workload_info :=
  t <- for_acc (seq 0 NPROC) tally0 (λ i t,
         locked (L_proc i) (p <- get (λ s, proc_at s i) ;; ret (tally_proc p t))) ;;
  ret (summary t).

(** ** Scanning the process table *)

(** The locks of proc[] are free, and the hart keeps the discipline of
    push_off(): the state in which the loops over proc[] run. *)
Definition table_free (s : kernel) : Prop :=
  cpu_ok (cur s) ∧ ∀ i, (i < NPROC)%nat → locks s !! L_proc i = None.

Lemma set_procs_id s : set_procs (procs s) s = s.
Proof. by destruct s. Qed.
Lemma settle_idemp s : settle (settle s) = settle s.
Proof. unfold settle. simpl. by rewrite settled_idemp. Qed.

(** A guarded update of one entry, as an unconditional update. *)
Lemma upd_proc_if i (c : proc → bool) (h : proc → proc) s :
  upd_proc i (λ p, if c p then h p else p) s
  = if c (proc_at s i) then upd_proc i h s else s.
Proof.
  unfold upd_proc, proc_at. destruct (c _) eqn:E.
  - f_equal. apply alter_ext_at. intros p Hp. rewrite Hp in E. simpl in E. by rewrite E.
  - rewrite alter_id_at; [apply set_procs_id|].
    intros p Hp. rewrite Hp in E. simpl in E. by rewrite E.
Qed.

Lemma upd_proc_compose i f g s : upd_proc i g (upd_proc i f s) = upd_proc i (g ∘ f) s.
Proof. unfold upd_proc. simpl. by rewrite list_alter_alter_eq. Qed.
Lemma upd_proc_ext i f g s :
  (∀ p, procs s !! i = Some p → f p = g p) → upd_proc i f s = upd_proc i g s.
Proof. intros H. unfold upd_proc. f_equal. by apply alter_ext_at. Qed.

(** An update followed by a second one under a test of the entry. *)
Lemma upd_proc_if_at i (c : proc → bool) (f h : proc → proc) s :
  upd_proc i (λ p, if c (f p) then h (f p) else f p) s
  = if c (f (proc_at s i)) then upd_proc i h (upd_proc i f s) else upd_proc i f s.
Proof.
  rewrite upd_proc_compose. unfold proc_at.
  destruct (c _) eqn:E; apply upd_proc_ext; intros p Hp; rewrite Hp in E; simpl in E;
    by rewrite E.
Qed.

(** A critical section on [p->lock] that only updates that process. *)
Lemma locked_proc_at {A} i (m : K A) (h : proc → proc) a s :
  cpu_ok (cur s) → locks s !! L_proc i = None →
  m (lock_state (L_proc i) s) = Ok a (upd_proc i h (lock_state (L_proc i) s)) →
  locked (L_proc i) m s = Ok a (upd_proc i h (settle s)).
Proof.
  intros Hok Hl Hm. rewrite (locked_ok _ _ _ _ _ Hok Hl Hm) by done. by destruct s.
Qed.
Lemma locked_proc {A} i (m : K A) (h : proc → proc) a s :
  table_free s → (i < NPROC)%nat →
  m (lock_state (L_proc i) s) = Ok a (upd_proc i h (lock_state (L_proc i) s)) →
  locked (L_proc i) m s = Ok a (upd_proc i h (settle s)).
Proof. intros [Hok Hl] Hi. by apply locked_proc_at; [|apply Hl]. Qed.

Lemma table_free_upd i h s : table_free s → table_free (upd_proc i h (settle s)).
Proof. intros [? ?]. split; simpl; [by apply cpu_ok_settled | done]. Qed.

(** What the loops over proc[] leave alone. *)
Definition same_frame (s0 s : kernel) : Prop :=
  table_free s ∧ ticks s = ticks s0 ∧ c_proc (cur s) = c_proc (cur s0)
  ∧ hartid s = hartid s0.

Lemma foldl_upd_proc (h : nat → proc → proc) n s :
  foldl (λ s i, upd_proc i (h i) (settle s)) s (seq 0 n)
  = if (n =? 0)%nat then s
    else set_procs (foldl (λ l i, alter (h i) i l) (procs s) (seq 0 n)) (settle s).
Proof.
  induction n as [|n IH]; [done|].
  rewrite seq_S, !foldl_app, IH. simpl.
  destruct n; simpl; [done|]. unfold upd_proc, settle. simpl.
  by rewrite settled_idemp.
Qed.

Lemma same_frame_upd s0 s i h :
  same_frame s0 s → same_frame s0 (upd_proc i h (settle s)).
Proof. intros (? & ? & ? & ?). split_and!; [by apply table_free_upd | done..]. Qed.

(** A loop over proc[] whose body updates the entry it visits is one map over
    the table. *)
Lemma scan_procs (body : nat → K unit) (h : nat → proc → proc) s :
  table_free s → (length (procs s) <= NPROC)%nat →
  (∀ i s', (i < NPROC)%nat → same_frame s s' →
     body i s' = Ok tt (upd_proc i (h i) (settle s'))) →
  for_each (seq 0 NPROC) body s = Ok tt (set_procs (imap h (procs s)) (settle s)).
Proof.
  intros Hs Hlen Hb.
  destruct (for_each_fold (same_frame s) (seq 0 NPROC) body
              (λ s i, upd_proc i (h i) (settle s)) s) as [E _].
  - intros i s' Hi Hf. apply elem_of_seq in Hi. split.
    + apply Hb; [lia | done].
    + by apply same_frame_upd.
  - done.
  - rewrite E, foldl_upd_proc, foldl_alter_imap by done. reflexivity.
Qed.

(** The same for a loop that also carries local variables; [k] is its effect
    on them. *)
Lemma scan_acc_aux {B} (body : nat → B → K B) (h : nat → proc → proc)
    (k : nat → proc → B → B) s0 n :
  ∀ j s b, (j + n <= NPROC)%nat → same_frame s0 s →
  (∀ i, (j <= i)%nat → procs s !! i = procs s0 !! i) →
  (∀ i s' b', (i < NPROC)%nat → same_frame s0 s' → proc_at s' i = proc_at s0 i →
     body i b' s' = Ok (k i (proc_at s0 i) b') (upd_proc i (h i) (settle s'))) →
  for_acc (seq j n) b body s
  = Ok (foldl (λ b i, k i (proc_at s0 i) b) b (seq j n))
       (foldl (λ s i, upd_proc i (h i) (settle s)) s (seq j n)).
Proof.
  induction n as [|n IH]; intros j s b Hj Hf Hp Hb; simpl; [done|].
  rewrite (bind_Ok _ _ _ _ _ (Hb j s b ltac:(lia) Hf ltac:(unfold proc_at; by rewrite Hp))).
  apply IH; [lia | by apply same_frame_upd | | done].
  intros i Hi. simpl. rewrite list_lookup_alter_ne by lia. apply Hp. lia.
Qed.

Lemma scan_acc {B} (body : nat → B → K B) (h : nat → proc → proc)
    (k : nat → proc → B → B) s b :
  table_free s → (length (procs s) <= NPROC)%nat →
  (∀ i s' b', (i < NPROC)%nat → same_frame s s' → proc_at s' i = proc_at s i →
     body i b' s' = Ok (k i (proc_at s i) b') (upd_proc i (h i) (settle s'))) →
  for_acc (seq 0 NPROC) b body s
  = Ok (foldl (λ b i, k i (proc_at s i) b) b (seq 0 NPROC))
       (set_procs (imap h (procs s)) (settle s)).
Proof.
  intros Hs Hlen Hb. rewrite (scan_acc_aux body h k s); [|done..].
  by rewrite foldl_upd_proc, foldl_alter_imap.
Qed.

(** ** wakeup(), clock_tick_accounting() *)

Definition sleeping_on (chan : chan_t) (p : proc) : bool :=
  bool_decide (p_state p = SLEEPING) && bool_decide (p_chan p = Some chan).

Definition woken (me : option nat) (chan : chan_t) (i : nat) (p : proc) : proc :=
  if bool_decide (me = Some i) then p
  else if sleeping_on chan p then set_p_state RUNNABLE p else p.

Lemma wake_step_ok chan i s :
  cpu_ok (cur s) → locks s !! L_proc i = None →
  wake_step chan i s = Ok tt (upd_proc i (woken (c_proc (cur s)) chan i) (settle s)).
Proof.
  intros Hok Hl. unfold wake_step. rewrite (bind_Ok _ _ _ _ _ (myproc_ok s Hok)). unfold woken.
  destruct (bool_decide _).
  - unfold upd_proc. rewrite alter_id_at by done. by rewrite set_procs_id.
  - rewrite (locked_proc_at _ _ (λ p, if sleeping_on chan p then set_p_state RUNNABLE p else p) tt).
    + by rewrite settle_idemp.
    + by apply cpu_ok_settled.
    + done.
    + ksteps. rewrite upd_proc_if. unfold sleeping_on, set_state.
      by destruct (_ && _).
Qed.

Lemma wakeup_ok chan s :
  table_free s → (length (procs s) <= NPROC)%nat →
  wakeup chan s = Ok tt (set_procs (imap (woken (c_proc (cur s)) chan) (procs s)) (settle s)).
Proof.
  intros Hs Hlen. unfold wakeup. apply scan_procs; [done..|].
  intros i s' Hi ([Hok Hf] & _ & Hc & _). rewrite wake_step_ok by auto. by rewrite Hc.
Qed.

Definition aged (ticks : Z) (p : proc) : proc :=
  if bool_decide (p_state p = RUNNABLE) then upd_mt (clock_account ticks) p else p.

Lemma clock_tick_accounting_ok s :
  table_free s → (length (procs s) <= NPROC)%nat →
  clock_tick_accounting s
  = Ok tt (set_procs (imap (λ _, aged (ticks s)) (procs s)) (settle s)).
Proof.
  intros Hs Hlen. unfold clock_tick_accounting. apply scan_procs; [done..|].
  intros i s' Hi (Hf & Ht & _). apply locked_proc; [done..|].
  ksteps. unfold aged. rewrite upd_proc_if. rewrite <- Ht.
  destruct (bool_decide _); ksteps; reflexivity.
Qed.

(** ** scheduler(), pass 1 *)

Definition ranked (p : proc) : proc :=
  if bool_decide (p_state p = RUNNABLE)
  then upd_mt (set_priority (calc_dynamic_priority (p_mt p))) p else p.

Definition prefer (i : nat) (p : proc) (best : option nat * Z) : option nat * Z :=
  if bool_decide (p_state p = RUNNABLE) then
    let prio := calc_dynamic_priority (p_mt p) in
    if best.2 <? prio then (Some i, prio) else best
  else best.

(** The choice of pass 1, as a fold over the table. *)
Definition pick (s : kernel) : option nat * Z :=
  foldl (λ b i, prefer i (proc_at s i) b) (None, -1) (seq 0 NPROC).

Lemma rank_ok s :
  table_free s → (length (procs s) <= NPROC)%nat →
  rank s = Ok (pick s) (set_procs (imap (λ _, ranked) (procs s)) (settle s)).
Proof.
  intros Hs Hlen. unfold rank, pick.
  apply (scan_acc rank_step (λ _, ranked) prefer); [done..|].
  intros i s' b Hi (Hf & _) Hp. apply locked_proc; [done..|].
  ksteps. change (proc_at (lock_state (L_proc i) s') i) with (proc_at s' i).
  rewrite Hp. unfold prefer, ranked.
  rewrite (upd_proc_if i (λ p, bool_decide (p_state p = RUNNABLE))
             (λ p, upd_mt (set_priority (calc_dynamic_priority (p_mt p))) p)).
  change (proc_at (lock_state (L_proc i) s') i) with (proc_at s' i). rewrite Hp.
  destruct (bool_decide _); ksteps; [|reflexivity].
  unfold ret. f_equal. unfold upd_proc. f_equal. apply alter_ext_at.
  intros p E. simpl in E. rewrite <- Hp. unfold proc_at. by rewrite E.
Qed.

Definition runnable (s : kernel) (i : nat) : Prop :=
  (i < NPROC)%nat ∧ p_state (proc_at s i) = RUNNABLE.
Definition prio_at (s : kernel) (i : nat) : Z := calc_dynamic_priority (p_mt (proc_at s i)).

Lemma prio_at_range s i : 1 <= prio_at s i <= 100.
Proof.
  unfold prio_at, calc_dynamic_priority, MIN_PRIORITY, MAX_PRIORITY. cbv zeta. split_ifs; lia.
Qed.

(** [b] is the choice among the first [n] entries. *)
Definition best_of (s : kernel) (n : nat) (b : option nat * Z) : Prop :=
  match b.1 with
  | None => b.2 = -1 ∧ ∀ i, (i < n)%nat → p_state (proc_at s i) ≠ RUNNABLE
  | Some i =>
      (i < n)%nat ∧ p_state (proc_at s i) = RUNNABLE ∧ b.2 = prio_at s i ∧
      ∀ j, (j < n)%nat → p_state (proc_at s j) = RUNNABLE →
        prio_at s j < prio_at s i ∨ (prio_at s j = prio_at s i ∧ (i <= j)%nat)
  end.

Lemma best_of_step s n b :
  best_of s n b → best_of s (S n) (prefer n (proc_at s n) b).
Proof.
  unfold best_of, prefer. fold (prio_at s n). pose proof (prio_at_range s n).
  destruct b as [[i|] v]; simpl.
  - intros (Hi & Hr & -> & Hmax). case_bool_decide as Hn; simpl.
    + destruct (prio_at s i <? prio_at s n) eqn:E; simpl; split_and!; try lia; try done;
        intros j Hj Hjr; (destruct (decide (j = n)) as [->|]; [lia|]);
        specialize (Hmax j ltac:(lia) Hjr); lia.
    + split_and!; try lia; try done. intros j Hj Hjr.
      destruct (decide (j = n)) as [->|]; [done|]. apply Hmax; [lia | done].
  - intros [-> Hnone]. case_bool_decide as Hn; simpl.
    + destruct (-1 <? prio_at s n) eqn:E; [simpl | lia]. split_and!; try lia; try done.
      intros j Hj Hjr. destruct (decide (j = n)) as [->|]; [lia|].
      destruct (Hnone j); [lia | done].
    + split; [done|]. intros j Hj. destruct (decide (j = n)) as [->|]; [done|].
      apply Hnone. lia.
Qed.

Lemma pick_best s : best_of s NPROC (pick s).
Proof.
  unfold pick. generalize NPROC as n. induction n as [|n IH].
  - split; [done | lia].
  - rewrite seq_S, foldl_app. simpl. by apply best_of_step.
Qed.

(** ** kkill() *)

Definition killed_proc (p : proc) : proc :=
  let p := set_p_killed 1 p in
  if bool_decide (p_state p = SLEEPING) then set_p_state RUNNABLE p else p.

Lemma kill_probe_miss pid i s :
  table_free s → (i < NPROC)%nat → p_pid (proc_at s i) ≠ pid →
  kill_probe pid i s = Ok None (settle s).
Proof.
  intros [Hok Hl] Hi Hp. unfold kill_probe.
  rewrite (bind_Ok _ _ _ _ _ (acquire_ok _ _ (Hl i Hi))). ksteps.
  change (proc_at (lock_state _ _) i) with (proc_at s i).
  apply Z.eqb_neq in Hp. rewrite Hp.
  erewrite bind_Ok.
  2: { apply (release_ok _ _ (cur s)); [done | done |]. simpl. by rewrite lookup_insert_eq. }
  unfold ret, settle. simpl. rewrite delete_insert_id by auto. by destruct s.
Qed.

Lemma for_find_skip {A B} (I : kernel → Prop) (l1 l2 : list A) (f : A → K (option B)) s :
  (∀ x s, x ∈ l1 → I s → f x s = Ok None (settle s) ∧ I (settle s)) → I s →
  for_find (l1 ++ l2) f s = for_find l2 f (if l1 is [] then s else settle s).
Proof.
  revert s. induction l1 as [|x l1 IH]; intros s Hf Hs; simpl; [done|].
  destruct (Hf x s) as [E HI]; [by left | done |].
  rewrite (bind_Ok _ _ _ _ _ E). rewrite IH; [|intros; apply Hf; [by right|done]|done].
  destruct l1; [done|]. by rewrite settle_idemp.
Qed.

Lemma kill_probe_hit pid i s :
  table_free s → (i < NPROC)%nat → p_pid (proc_at s i) = pid →
  kill_probe pid i s = Ok (Some 0) (upd_proc i killed_proc (settle s)).
Proof.
  intros [Hok Hl] Hi Hp. unfold kill_probe.
  rewrite (bind_Ok _ _ _ _ _ (acquire_ok _ _ (Hl i Hi))). ksteps.
  change (proc_at (lock_state _ _) i) with (proc_at s i).
  rewrite (proj2 (Z.eqb_eq _ _) Hp). ksteps.
  assert (Hk : (when (bool_decide (p_state (proc_at s i) = SLEEPING)) (set_state i RUNNABLE))
    (upd_proc i (set_p_killed 1) (lock_state (L_proc i) s))
    = Ok tt (upd_proc i killed_proc (lock_state (L_proc i) s))).
  { rewrite (upd_proc_if_at i (λ p, bool_decide (p_state p = SLEEPING)) (set_p_killed 1)
      (set_p_state RUNNABLE) (lock_state (L_proc i) s) : upd_proc i killed_proc _ = _).
    change (proc_at (lock_state _ _) i) with (proc_at s i). simpl.
    unfold set_state. by destruct (bool_decide _). }
  rewrite (bind_Ok _ _ _ _ _ Hk). erewrite bind_Ok.
  2: { apply (release_ok _ _ (cur s)); [done | done |]. simpl. by rewrite lookup_insert_eq. }
  unfold ret, settle. simpl. rewrite delete_insert_id by auto. by destruct s.
Qed.

Lemma seq_split_at i n : (i < n)%nat → seq 0 n = seq 0 i ++ i :: seq (S i) (n - S i).
Proof.
  intros. replace n with (i + S (n - S i))%nat at 1 by lia. rewrite seq_app. done.
Qed.

Definition probing (pid : Z) (s0 s : kernel) : Prop := table_free s ∧ procs s = procs s0.

Lemma kill_probe_skip pid s0 (l : list nat) :
  (∀ j, j ∈ l → (j < NPROC)%nat ∧ p_pid (proc_at s0 j) ≠ pid) →
  ∀ j s, j ∈ l → probing pid s0 s →
    kill_probe pid j s = Ok None (settle s) ∧ probing pid s0 (settle s).
Proof.
  intros Hl j s Hj [[Hok Hfree] Hp]. destruct (Hl j Hj) as [? Hne]. split.
  - apply kill_probe_miss; [by split | done |]. unfold proc_at. by rewrite Hp.
  - split; [split; [by apply cpu_ok_settled | done] | done].
Qed.

Lemma kkill_miss pid s :
  table_free s → (∀ j, (j < NPROC)%nat → p_pid (proc_at s j) ≠ pid) →
  kkill pid s = Ok (-1) (settle s).
Proof.
  intros Hs Hne. unfold kkill. erewrite bind_Ok; [|].
  2: { rewrite <- (app_nil_r (seq 0 NPROC)).
       rewrite (for_find_skip (probing pid s)); [reflexivity | | by split].
       apply kill_probe_skip. intros j Hj. apply elem_of_seq in Hj. split; [lia|].
       apply Hne. lia. }
  reflexivity.
Qed.

Lemma kkill_hit pid i s :
  table_free s → (i < NPROC)%nat → p_pid (proc_at s i) = pid →
  (∀ j, (j < i)%nat → p_pid (proc_at s j) ≠ pid) →
  kkill pid s = Ok 0 (upd_proc i killed_proc (settle s)).
Proof.
  intros Hs Hi Hp Hne. set (s1 := if seq 0 i is [] then s else settle s).
  assert (H1 : table_free s1 ∧ proc_at s1 i = proc_at s i ∧ settle s1 = settle s).
  { destruct Hs. unfold s1. destruct (seq 0 i); split_and!; try done. apply settle_idemp. }
  destruct H1 as (Hs1 & Hp1 & He). unfold kkill, bind at 1.
  rewrite (seq_split_at i NPROC Hi), (for_find_skip (probing pid s)); [| | by split].
  2: { apply kill_probe_skip. intros j Hj. apply elem_of_seq in Hj.
       split; [lia | apply Hne; lia]. }
  fold s1. cbn [for_find]. rewrite (bind_Ok _ _ _ _ _ (kill_probe_hit pid i s1 Hs1 Hi
    ltac:(by rewrite Hp1))). simpl. by rewrite He.
Qed.

(** ** Switching

    The contract of swtch(): a thread that gives the CPU away, and the thread
    that takes it, hold the lock of the process concerned and no other, one
    level deep and with interrupts off. *)
Definition handover (p : nat) (s : kernel) : Prop :=
  locks s !! L_proc p = Some (hartid s) ∧ c_noff (cur s) = 1 ∧ c_sie (cur s) = false.

(** The state of a thread that holds no spin-lock. *)
Definition lock_free (s : kernel) : Prop := c_noff (cur s) = 0.

Lemma curproc_ok s p :
  cpu_ok (cur s) → c_proc (cur s) = Some p → curproc s = Ok p (settle s).
Proof.
  intros Hok Hp. unfold curproc. rewrite (bind_Ok _ _ _ _ _ (myproc_ok s Hok)).
  by rewrite Hp.
Qed.

(** sched() under its preconditions, as one switch. *)
Lemma sched_ok s p :
  c_proc (cur s) = Some p → handover p s → p_state (proc_at s p) ≠ RUNNING →
  sched s = Swtch (upd_proc p (upd_mt (sched_account (p_state (proc_at s p)) (ticks s))) s)
                  (λ s', Ok tt (upd_cur (set_c_intena (c_intena (cur s))) s')).
Proof.
  intros Hc (Hl & Hn & Hi) Hr.
  assert (Hs : settle s = s).
  { unfold settle. rewrite settled_locked by lia. by destruct s. }
  unfold sched. rewrite (bind_Ok _ _ _ _ _ (curproc_ok s p ltac:(split; lia || done) Hc)).
  rewrite Hs. unfold holding, mycpu, intr_get. ksteps.
  rewrite bool_decide_true by done. simpl. ksteps. rewrite Hn. simpl. ksteps.
  rewrite bool_decide_false by done. ksteps. rewrite Hi. ksteps. reflexivity.
Qed.

(** A popped critical section, seen from a state that a switch handed over. *)
Lemma release_handover p s :
  handover p s →
  release (L_proc p) s
  = Ok tt (set_cur (Cpu (c_proc (cur s)) 0 (c_intena (cur s)) (c_intena (cur s)))
             (set_locks (delete (L_proc p) (locks s)) s)).
Proof.
  intros (Hl & Hn & Hi).
  rewrite (release_ok _ _ (Cpu (c_proc (cur s)) 0 (c_intena (cur s)) (c_intena (cur s)))).
  - done.
  - split; simpl; lia.
  - destruct s as [? c]; simpl in *. destruct c; simpl in *. by subst.
  - done.
Qed.

(** The process entry while yield() switches away. *)
Definition switched_out (st : procstate) (ticks : Z) (p : proc) : proc :=
  upd_mt (sched_account st ticks) (set_p_state st p).

Lemma proc_at_upd i f s :
  (i < length (procs s))%nat → proc_at (upd_proc i f s) i = f (proc_at s i).
Proof.
  intros Hi. unfold proc_at, upd_proc. simpl. rewrite list_lookup_alter_eq.
  by destruct (lookup_lt_is_Some_2 _ _ Hi) as [q ->].
Qed.

Lemma yield_ok s p :
  cpu_ok (cur s) → lock_free s → c_proc (cur s) = Some p → (p < length (procs s))%nat →
  locks s !! L_proc p = None →
  ∃ k, yield s
       = Swtch (upd_proc p (switched_out RUNNABLE (ticks s)) (lock_state (L_proc p) (settle s))) k
     ∧ ∀ s', handover p s' →
         k s' = Ok tt (set_cur (Cpu (c_proc (cur s')) 0 (c_sie (cur s)) (c_sie (cur s)))
                         (set_locks (delete (L_proc p) (locks s')) s')).
Proof.
  intros Hok Hn Hc Hp Hl. unfold lock_free in Hn. unfold yield.
  rewrite (bind_Ok _ _ _ _ _ (curproc_ok s p Hok Hc)).
  rewrite (bind_Ok _ _ _ _ _ (acquire_ok _ (settle s) Hl)).
  unfold set_state. ksteps.
  set (s1 := upd_proc p (set_p_state RUNNABLE) (lock_state (L_proc p) (settle s))).
  assert (Hp1 : p_state (proc_at s1 p) = RUNNABLE) by (unfold s1; by rewrite proc_at_upd).
  assert (H1 : handover p s1).
  { unfold handover, s1. simpl. rewrite Hn, lookup_insert_eq. done. }
  unfold bind at 1. rewrite (sched_ok s1 p Hc H1) by congruence.
  rewrite Hp1. unfold s1. rewrite upd_proc_compose. eexists. split; [reflexivity|].
  intros s' (Hl' & Hn' & Hi'). simpl.
  rewrite release_handover by (split_and!; done). simpl. rewrite Hn. simpl. by destruct s'.
Qed.

(** The state in which sleep() gives the CPU away, and the one in which it returns. *)
Definition asleep (p : nat) (chan : chan_t) (lk : lockid) (s : kernel) : kernel :=
  upd_proc p (λ q, switched_out SLEEPING (ticks s) (set_p_chan (Some chan) q))
    (set_locks (<[L_proc p := hartid s]> (delete lk (locks s))) s).
Definition awake (p : nat) (lk : lockid) (i : bool) (s : kernel) : kernel :=
  set_cur (Cpu (c_proc (cur s)) 1 i false)
    (set_locks (<[lk := hartid s]> (delete (L_proc p) (locks s))) (upd_proc p (set_p_chan None) s)).

Lemma sleep_run s p chan lk :
  c_noff (cur s) = 1 → c_sie (cur s) = false →
  c_proc (cur s) = Some p → (p < length (procs s))%nat →
  lk ≠ L_proc p → locks s !! lk = Some (hartid s) → locks s !! L_proc p = None →
  ∃ k, sleep chan lk s = Swtch (asleep p chan lk s) k
     ∧ handover p (asleep p chan lk s)
     ∧ ∀ s', handover p s' → locks s' !! lk = None →
         k s' = Ok tt (awake p lk (c_intena (cur s)) s').
Proof.
  intros Hn Hi Hc Hp Hne Hlk Hl. unfold sleep.
  assert (Hs : settle s = s).
  { unfold settle. rewrite settled_locked by lia. by destruct s. }
  rewrite (bind_Ok _ _ _ _ _ (curproc_ok s p ltac:(split; lia || done) Hc)), Hs.
  rewrite (bind_Ok _ _ _ _ _ (acquire_ok _ s Hl)).
  erewrite bind_Ok.
  2: { apply (release_ok _ _ (cur s)); [split; [lia | done] | done |]. simpl.
       by rewrite lookup_insert_ne. }
  unfold set_state. ksteps.
  match goal with |- ∃ _, bind sched _ ?x = _ ∧ _ => set (s1 := x) end.
  assert (Hp1 : p_state (proc_at s1 p) = SLEEPING).
  { unfold s1. by rewrite upd_proc_compose, proc_at_upd. }
  assert (H1 : handover p s1).
  { unfold handover, s1. simpl. rewrite delete_insert_ne, lookup_insert_eq by done. done. }
  assert (E1 : upd_proc p (upd_mt (sched_account SLEEPING (ticks s1))) s1 = asleep p chan lk s).
  { unfold s1, asleep. rewrite !upd_proc_compose. unfold upd_proc. simpl.
    rewrite delete_insert_ne, settled_locked by (done || lia). by destruct s. }
  unfold bind at 1. rewrite (sched_ok s1 p Hc H1) by congruence. rewrite Hp1, E1.
  eexists. split; [reflexivity|]. split.
  - unfold handover, asleep. simpl. by rewrite lookup_insert_eq.
  - intros s' (Hl' & Hn' & Hi') Hlk'. simpl. ksteps.
    erewrite bind_Ok; [|apply release_handover; split_and!; done]. simpl.
    rewrite acquire_ok by (simpl; by rewrite lookup_delete_ne).
    f_equal. unfold awake, lock_state, pushed. simpl. rewrite Hn. simpl. by destruct s'.
Qed.

Lemma sleep_ok s p chan lk :
  c_noff (cur s) = 1 → c_sie (cur s) = false →
  c_proc (cur s) = Some p → (p < length (procs s))%nat →
  lk ≠ L_proc p → locks s !! lk = Some (hartid s) → locks s !! L_proc p = None →
  ∃ s1 k, sleep chan lk s = Swtch s1 k
     ∧ handover p s1
     ∧ set_procs (procs s) s1 = set_locks (locks s1) s
     ∧ proc_at s1 p = switched_out SLEEPING (ticks s) (set_p_chan (Some chan) (proc_at s p))
     ∧ locks s1 = <[L_proc p := hartid s]> (delete lk (locks s))
     ∧ (∀ q, q ≠ p → proc_at s1 q = proc_at s q)
     ∧ ∀ s', handover p s' → locks s' !! lk = None → ∃ s2,
         k s' = Ok tt s2 ∧ locks s2 = <[lk := hartid s']> (delete (L_proc p) (locks s'))
         ∧ c_noff (cur s2) = 1 ∧ c_sie (cur s2) = false
         ∧ c_intena (cur s2) = c_intena (cur s)
         ∧ procs s2 = alter (set_p_chan None) p (procs s').
Proof.
  intros Hn Hi Hc Hp Hne Hlk Hl.
  destruct (sleep_run s p chan lk Hn Hi Hc Hp Hne Hlk Hl) as (k & E & Hh & Hk).
  exists (asleep p chan lk s), k. split; [done|]. split; [done|]. split; [by destruct s|].
  split; [unfold asleep; by rewrite proc_at_upd|]. split; [done|]. split.
  - intros q Hq. unfold proc_at, asleep. simpl. by rewrite list_lookup_alter_ne.
  - intros s' Hs' Hlk'. eexists. split; [by apply Hk|]. done.
Qed.

(** The scheduler's thread between two iterations of its loop. *)
Definition sched_idle (s : kernel) : Prop :=
  lock_free s ∧ table_free s ∧ length (procs s) = NPROC.

(** The state in which pass 2 starts: priorities refreshed, interrupts off. *)
Definition ranked_state (s : kernel) : kernel :=
  set_procs (imap (λ _, ranked) (procs s))
    (set_cur (Cpu (c_proc (cur s)) 0 false false) s).

Lemma rank_idle s :
  sched_idle s →
  rank (upd_cur (set_c_sie false) (upd_cur (set_c_sie true) s)) = Ok (pick s) (ranked_state s).
Proof.
  intros (Hn & [Hok Hf] & Hlen). unfold lock_free in Hn.
  rewrite rank_ok; [| split; [split; simpl; [lia | done] | done] | simpl; lia].
  f_equal. unfold ranked_state, settle, settled. simpl. by rewrite Hn.
Qed.

Lemma proc_at_ranked s i : proc_at (ranked_state s) i = ranked (proc_at s i).
Proof.
  unfold proc_at, ranked_state. simpl. rewrite list_lookup_imap.
  by destruct (procs s !! i).
Qed.
Lemma ranked_p_state p : p_state (ranked p) = p_state p.
Proof. unfold ranked. by destruct (bool_decide _). Qed.

Definition dispatched (ticks : Z) (p : proc) : proc :=
  upd_mt (dispatch_account ticks) (set_p_state RUNNING p).

Lemma dispatch_ok s p :
  sched_idle s → c_sie (cur s) = false → (p < NPROC)%nat →
  p_state (proc_at s p) = RUNNABLE →
  ∃ k, dispatch p s
       = Swtch (upd_cur (set_c_proc (Some p))
                  (upd_proc p (dispatched (ticks s)) (lock_state (L_proc p) s))) k
     ∧ ∀ s', handover p s' →
         k s' = Ok true (set_cur (Cpu None 0 (c_intena (cur s')) (c_intena (cur s')))
                           (set_locks (delete (L_proc p) (locks s')) s')).
Proof.
  intros (Hn & [Hok Hf] & Hlen) Hi Hp Hr. unfold dispatch.
  rewrite (bind_Ok _ _ _ _ _ (acquire_ok _ s (Hf p Hp))). ksteps.
  change (proc_at (lock_state _ _) p) with (proc_at s p).
  rewrite bool_decide_true by done. unfold set_state.
  unfold bind at 1. ksteps. rewrite upd_proc_compose. eexists. split; [reflexivity|].
  intros s' (Hl' & Hn' & Hi'). simpl. ksteps.
  erewrite bind_Ok; [|apply release_handover; split_and!; done]. simpl. by destruct s'.
Qed.

(** A dispatched process holds its own lock, alone. *)
Lemma dispatch_handover s p :
  lock_free s →
  handover p (upd_cur (set_c_proc (Some p))
                (upd_proc p (dispatched (ticks s)) (lock_state (L_proc p) s))).
Proof.
  intros Hn. unfold lock_free in Hn. unfold handover. simpl.
  by rewrite Hn, lookup_insert_eq.
Qed.

Lemma sched_idle_ranked s : sched_idle s → sched_idle (ranked_state s).
Proof.
  intros (Hn & [Hok Hf] & Hlen). split_and!; [done | | by rewrite <- Hlen; apply length_imap].
  split; [by split | done].
Qed.

(** One iteration that finds a process to run. *)
Lemma scheduler_iter_pick s p :
  sched_idle s → (pick s).1 = Some p →
  ∃ k, scheduler_iter s
       = Swtch (upd_cur (set_c_proc (Some p))
                  (upd_proc p (dispatched (ticks s)) (lock_state (L_proc p) (ranked_state s)))) k
     ∧ ∀ s', handover p s' →
         k s' = Ok tt (set_cur (Cpu None 0 (c_intena (cur s')) (c_intena (cur s')))
                         (set_locks (delete (L_proc p) (locks s')) s')).
Proof.
  intros Hs E. pose proof (pick_best s) as Hb. unfold best_of in Hb. rewrite E in Hb.
  destruct Hb as (Hp & Hr & _). unfold scheduler_iter, intr_on, intr_off. ksteps.
  rewrite (bind_Ok _ _ _ _ _ (rank_idle s Hs)), E.
  destruct (dispatch_ok (ranked_state s) p) as (k & Ed & Hk);
    [by apply sched_idle_ranked | done | done | by rewrite proc_at_ranked, ranked_p_state |].
  unfold bind at 1. rewrite Ed. eexists. split; [reflexivity|].
  intros s' Hh. cbv beta; by rewrite (Hk s' Hh).
Qed.

(** ** Properties *)

(** Wakeup(chan) makes every process asleep on [chan], other than the
    caller, RUNNABLE, changes no other process, and leaves every lock free and
    the interrupt state as it was. *)
Theorem wakeup_correct chan s i p :
  table_free s → (length (procs s) <= NPROC)%nat → procs s !! i = Some p →
  ∃ s', wakeup chan s = Ok tt s' ∧ locks s' = locks s ∧ c_noff (cur s') = c_noff (cur s)
    ∧ c_sie (cur s') = c_sie (cur s)
    ∧ procs s' !! i = Some (if bool_decide (c_proc (cur s) ≠ Some i ∧ p_state p = SLEEPING
                                            ∧ p_chan p = Some chan)
                            then set_p_state RUNNABLE p else p).
Proof.
  intros Hs Hlen Hp. eexists. split; [by apply wakeup_ok|]. split_and!; [done..|].
  simpl. rewrite list_lookup_imap, Hp. simpl. f_equal. unfold woken, sleeping_on.
  repeat case_bool_decide; simpl; (done || tauto).
Qed.

(** Two processes, pids 1 and 2: the first runs, the second sleeps on [Ch_ticks]. *)
Definition demo_procs (st1 st2 : procstate) : list proc :=
  [set_p_pid 1 (set_p_state st1 null_proc);
   set_p_chan (Some Ch_ticks) (set_p_pid 2 (set_p_state st2 null_proc))]
  ++ replicate 62 null_proc.
Definition demo (c : option nat) (st1 st2 : procstate) : kernel :=
  set_cur (Cpu c 0 false true) (set_procs (demo_procs st1 st2) null_kernel).

Lemma demo_free c st1 st2 : table_free (demo c st1 st2).
Proof. split; [split; simpl; lia | intros; apply lookup_empty]. Qed.

Lemma wakeup_correct_witness :
  ∃ s', wakeup Ch_ticks (demo (Some 0%nat) RUNNING SLEEPING) = Ok tt s'
    ∧ p_state <$> (procs s' !! 1%nat) = Some RUNNABLE.
Proof.
  destruct (wakeup_correct Ch_ticks (demo (Some 0%nat) RUNNING SLEEPING) 1
    (set_p_chan (Some Ch_ticks) (set_p_pid 2 (set_p_state SLEEPING null_proc))))
    as (s' & E & _ & _ & _ & Hp).
  - apply demo_free.
  - vm_compute. lia.
  - reflexivity.
  - exists s'. split; [exact E|]. rewrite Hp. reflexivity.
Defined.

(** C25: scheduler() runs the RUNNABLE process with the highest dynamic
    priority, the lowest index among equals; with nothing RUNNABLE it dispatches
    nobody. A dispatched process is RUNNING, is the hart's current process,
    starts a fresh slice and holds its own lock alone; when it switches back the
    iteration ends with the lock released and no current process. *)
Theorem scheduler_dispatches_best s :
  sched_idle s →
  match (pick s).1 with
  | None => (∀ i, ¬ runnable s i) ∧ scheduler_iter s = Ok tt (ranked_state s)
  | Some p =>
      runnable s p
      ∧ (∀ j, runnable s j → prio_at s j < prio_at s p ∨ (prio_at s j = prio_at s p ∧ (p <= j)%nat))
      ∧ ∃ s1 k, scheduler_iter s = Swtch s1 k ∧ handover p s1 ∧ c_proc (cur s1) = Some p
        ∧ proc_at s1 p = dispatched (ticks s) (ranked (proc_at s p))
        ∧ (∀ q, q ≠ p → proc_at s1 q = ranked (proc_at s q))
        ∧ ∀ s', handover p s' →
            k s' = Ok tt (set_cur (Cpu None 0 (c_intena (cur s')) (c_intena (cur s')))
                            (set_locks (delete (L_proc p) (locks s')) s'))
  end.
Proof.
  intros Hs. pose proof (pick_best s) as Hb. unfold best_of in Hb.
  destruct (pick s).1 as [p|] eqn:E.
  - destruct Hb as (Hp & Hr & _ & Hmax). split_and!; [done | intros j [? ?]; auto |].
    destruct (scheduler_iter_pick s p Hs E) as (k & -> & Hk).
    do 2 eexists. split; [reflexivity|].
    split_and!; try (by apply (dispatch_handover (ranked_state s))); try done.
    + destruct Hs as (_ & _ & Hlen). rewrite <- proc_at_ranked.
      apply (proc_at_upd p (dispatched (ticks s)) (lock_state (L_proc p) (ranked_state s))).
      simpl. rewrite length_imap. lia.
    + intros q Hq. rewrite <- proc_at_ranked. unfold proc_at. simpl.
      by rewrite list_lookup_alter_ne.
  - destruct Hb as [_ Hnone]. split; [intros i [? ?]; by apply (Hnone i)|].
    unfold scheduler_iter, intr_on, intr_off. ksteps.
    by rewrite (bind_Ok _ _ _ _ _ (rank_idle s Hs)), E.
Qed.

Lemma scheduler_dispatches_best_witness :
  (pick (demo None RUNNABLE RUNNABLE)).1 = Some 0%nat ∧
  ∃ s1 k, scheduler_iter (demo None RUNNABLE RUNNABLE) = Swtch s1 k ∧ c_proc (cur s1) = Some 0%nat.
Proof.
  split; [vm_compute; reflexivity|].
  assert (Hs : sched_idle (demo None RUNNABLE RUNNABLE)).
  { split_and!; [reflexivity | apply demo_free | vm_compute; reflexivity]. }
  pose proof (scheduler_dispatches_best _ Hs) as H.
  replace ((pick (demo None RUNNABLE RUNNABLE)).1) with (Some 0%nat) in H by (vm_compute; reflexivity).
  destruct H as (_ & _ & s1 & k & E & _ & Hc & _). exists s1, k. split; [exact E | exact Hc].
Defined.

(** Kill(pid) marks the first process with that pid as killed, wakes it if
    it sleeps, and returns 0; with no such process it returns -1. No other
    process changes and no lock stays held. *)
Theorem kkill_correct pid s :
  table_free s →
  (∃ i, (i < NPROC)%nat ∧ p_pid (proc_at s i) = pid
     ∧ (∀ j, (j < i)%nat → p_pid (proc_at s j) ≠ pid)
     ∧ kkill pid s = Ok 0 (upd_proc i killed_proc (settle s)))
  ∨ ((∀ j, (j < NPROC)%nat → p_pid (proc_at s j) ≠ pid) ∧ kkill pid s = Ok (-1) (settle s)).
Proof.
  intros Hs. destruct (least_index (λ i, p_pid (proc_at s i) = pid) NPROC)
    as [(i & Hi & Hp & Hmin)|Hno].
  - left. exists i. split_and!; [done.. | by apply kkill_hit].
  - right. split; [done | by apply kkill_miss].
Qed.

Lemma kkill_correct_witness :
  ∃ i s', kkill 2 (demo (Some 0%nat) RUNNING SLEEPING) = Ok 0 (upd_proc i killed_proc s')
          ∧ p_pid (proc_at (demo (Some 0%nat) RUNNING SLEEPING) i) = 2.
Proof.
  destruct (kkill_correct 2 (demo (Some 0%nat) RUNNING SLEEPING) (demo_free _ _ _))
    as [(i & Hi & Hp & _ & E)|[H _]].
  - exists i, (settle (demo (Some 0%nat) RUNNING SLEEPING)). split; [exact E | exact Hp].
  - exfalso. apply (H 1%nat); [vm_compute; lia | reflexivity].
Defined.

(** Yield() gives the CPU away with the process RUNNABLE, its burst
    accounting done and only its own lock held; when the process is switched back
    in, on any hart, yield() returns with the lock released and interrupts as
    they were when it was called. *)
Theorem yield_contract s p :
  cpu_ok (cur s) → lock_free s → c_proc (cur s) = Some p → (p < length (procs s))%nat →
  locks s !! L_proc p = None →
  ∃ s1 k, yield s = Swtch s1 k ∧ handover p s1
    ∧ locks s1 = <[L_proc p := hartid s]> (locks s)
    ∧ proc_at s1 p = switched_out RUNNABLE (ticks s) (proc_at s p)
    ∧ (∀ q, q ≠ p → proc_at s1 q = proc_at s q)
    ∧ ∀ s', handover p s' → ∃ s2, k s' = Ok tt s2 ∧ procs s2 = procs s'
        ∧ locks s2 = delete (L_proc p) (locks s')
        ∧ c_noff (cur s2) = 0 ∧ c_sie (cur s2) = c_sie (cur s).
Proof.
  intros Hok Hn Hc Hp Hl. destruct (yield_ok s p Hok Hn Hc Hp Hl) as (k & E & Hk).
  unfold lock_free in Hn. do 2 eexists. split; [exact E|]. split_and!; simpl; try done.
  - unfold handover. simpl. by rewrite lookup_insert_eq, Hn.
  - by rewrite proc_at_upd.
  - intros q Hq. unfold proc_at. simpl. by rewrite list_lookup_alter_ne.
  - intros s' Hh. eexists. split; [apply (Hk s' Hh) | done].
Qed.

Lemma yield_contract_witness :
  ∃ s1 k, yield (demo (Some 0%nat) RUNNING RUNNABLE) = Swtch s1 k
    ∧ p_state (proc_at s1 0) = RUNNABLE
    ∧ ∃ s2, k s1 = Ok tt s2 ∧ c_sie (cur s2) = true.
Proof.
  destruct (yield_contract (demo (Some 0%nat) RUNNING RUNNABLE) 0)
    as (s1 & k & E & Hh & _ & Hp & _ & Hk).
  - split; simpl; lia.
  - reflexivity.
  - reflexivity.
  - vm_compute. lia.
  - reflexivity.
  - exists s1, k. rewrite Hp. split_and!; [exact E | reflexivity |].
    destruct (Hk s1 Hh) as (s2 & Ek & _ & _ & _ & Hi). exists s2. split; [exact Ek | exact Hi].
Defined.

(** A wakeup() that meets a process lock held by another hart waits there. *)
Lemma wakeup_waits chan s p :
  cpu_ok (cur s) → (p < NPROC)%nat → c_proc (cur s) ≠ Some p →
  (∀ i, (i < p)%nat → locks s !! L_proc i = None) →
  (∃ h, locks s !! L_proc p = Some h ∧ h ≠ hartid s) →
  ∃ s', wakeup chan s = Hang s'.
Proof.
  intros Hok Hp Hme Hf (h & Hh & Hne). unfold wakeup.
  rewrite (seq_split_at p NPROC Hp).
  assert (Hinv : cpu_ok (cur s) ∧ (∀ i, (i < p)%nat → locks s !! L_proc i = None)
    ∧ locks s !! L_proc p = Some h ∧ h ≠ hartid s ∧ c_proc (cur s) ≠ Some p) by done.
  clear Hok Hme Hf Hh Hne. assert (Hl : ∀ i, i ∈ seq 0 p → (i < p)%nat).
  { intros i Hi. apply elem_of_seq in Hi. lia. }
  revert s Hl Hinv. induction (seq 0 p) as [|i l IH]; intros s Hl (Hok & Hf & Hh & Hne & Hme).
  - cbn [app for_each]. unfold bind at 1, wake_step at 1.
    rewrite (bind_Ok _ _ _ _ _ (myproc_ok s Hok)), bool_decide_false by done.
    unfold locked, acquire. unfold bind at 1. rewrite (bind_Ok _ _ _ _ _ (push_off_ok _)).
    unfold holding. ksteps. simpl. rewrite bool_decide_false by congruence. ksteps. simpl.
    rewrite Hh. simpl. by eexists.
  - cbn [app for_each]. assert (Hi : (i < p)%nat) by (apply Hl; by left).
    rewrite (bind_Ok _ _ _ _ _ (wake_step_ok chan i s Hok (Hf i Hi))). apply IH; [intros; apply Hl; by right|].
    split_and!; [by apply cpu_ok_settled | done..].
Qed.

(** C26: no wakeup is lost. sleep(chan, lk) gives up [lk] only when it already
    holds its own process lock, and switches away SLEEPING on [chan] with that
    lock held: until the scheduler releases it, a wakeup(chan) on another hart
    cannot get past the sleeper, and from then on it makes the sleeper RUNNABLE.
    Switched back in, sleep() returns holding [lk]. *)
Theorem no_lost_wakeup s p chan lk :
  c_noff (cur s) = 1 → c_sie (cur s) = false →
  c_proc (cur s) = Some p → (p < NPROC)%nat → length (procs s) = NPROC →
  lk ≠ L_proc p → locks s !! lk = Some (hartid s) → locks s !! L_proc p = None →
  ∃ s1 k, sleep chan lk s = Swtch s1 k ∧ locks s1 !! lk = None
    ∧ (∀ w, locks w !! L_proc p = locks s1 !! L_proc p → hartid w ≠ hartid s1 →
         cpu_ok (cur w) → c_proc (cur w) ≠ Some p →
         (∀ i, (i < p)%nat → locks w !! L_proc i = None) →
         ∃ w', wakeup chan w = Hang w')
    ∧ (∀ w, procs w !! p = procs s1 !! p → table_free w → (length (procs w) <= NPROC)%nat →
         c_proc (cur w) ≠ Some p →
         ∃ w', wakeup chan w = Ok tt w' ∧ p_state (proc_at w' p) = RUNNABLE)
    ∧ (∀ w, handover p w → locks w !! lk = None →
         ∃ w', k w = Ok tt w' ∧ locks w' !! lk = Some (hartid w) ∧ c_noff (cur w') = 1).
Proof.
  intros Hn Hi Hc Hp Hlen Hne Hlk Hl.
  destruct (sleep_ok s p chan lk Hn Hi Hc ltac:(lia) Hne Hlk Hl)
    as (s1 & k & E & (Hh & _) & _ & Hps & Hls & _ & Hk).
  exists s1, k. split; [done|]. split_and!.
  - rewrite Hls, lookup_insert_ne by done. apply lookup_delete_eq.
  - intros w Hw Hhart Hok Hme Hf. apply (wakeup_waits chan w p); try done.
    exists (hartid s1). split; [congruence | done].
  - intros w Hw Hf Hlw Hme. eexists. split; [by apply wakeup_ok|].
    unfold proc_at in *. simpl. rewrite list_lookup_imap, Hw.
    destruct (procs s1 !! p) as [q|]; simpl in *.
    + subst q. unfold woken, sleeping_on, switched_out. rewrite bool_decide_false by done.
      by rewrite !bool_decide_true.
    + apply (f_equal p_state) in Hps. discriminate Hps.
  - intros w Hw Hlw. destruct (Hk w Hw Hlw) as (w' & Ek & Hl' & Hn' & _).
    exists w'. split_and!; try done. rewrite Hl'. apply lookup_insert_eq.
Qed.

Lemma no_lost_wakeup_witness :
  ∃ s1 k, sleep Ch_ticks L_ticks
      (lock_state L_ticks (demo (Some 0%nat) RUNNING SLEEPING)) = Swtch s1 k
    ∧ locks s1 !! L_ticks = None.
Proof.
  destruct (no_lost_wakeup (lock_state L_ticks (demo (Some 0%nat) RUNNING SLEEPING)) 0
    Ch_ticks L_ticks) as (s1 & k & E & Hl & _).
  - reflexivity.
  - reflexivity.
  - reflexivity.
  - vm_compute. lia.
  - vm_compute. reflexivity.
  - discriminate.
  - reflexivity.
  - reflexivity.
  - exists s1, k. split; [exact E | exact Hl].
Defined.

(** ** get_workload_stats() *)

(** The processes that are not UNUSED. *)
Definition active (s : kernel) : list proc :=
  filter (λ p, p_state p ≠ UNUSED) (proc_at s <$> seq 0 NPROC).

Definition count (f : proc → bool) (l : list proc) : Z :=
  Z.of_nat (length (filter (λ p, Is_true (f p)) l)).

Lemma get_workload_stats_ok s :
  table_free s → (length (procs s) <= NPROC)%nat →
  get_workload_stats s
  = Ok (summary (foldl (λ t p, tally_proc p t) tally0 (proc_at s <$> seq 0 NPROC))) (settle s).
Proof.
  intros Hs Hlen. unfold get_workload_stats.
  erewrite bind_Ok; [|apply (scan_acc _ (λ _ p, p) (λ _, tally_proc)); [done..|]].
  2: { intros i s' b Hi (Hf & _) Hp. apply locked_proc; [done..|]. ksteps.
       change (proc_at (lock_state (L_proc i) s') i) with (proc_at s' i). rewrite Hp.
       unfold ret, upd_proc. rewrite alter_id_at by done. by rewrite set_procs_id. }
  assert (H : imap (λ _ p, p) (procs s) = procs s).
  { apply list_eq. intros i. rewrite list_lookup_imap. by destruct (procs s !! i). }
  rewrite foldl_fmap, H. reflexivity.
Qed.

(** What the counters hold after the processes [l] have been seen; [a] are those
    in use. *)
Record tallied (a : list proc) (t : tally) : Prop := {
  tl_total : t_total t = Z.of_nat (length a);
  tl_runnable : t_runnable t = count (λ p, bool_decide (p_state p = RUNNABLE)) a;
  tl_running : t_running t = count (λ p, bool_decide (p_state p = RUNNING)) a;
  tl_sleeping : t_sleeping t = count (λ p, bool_decide (p_state p = SLEEPING)) a;
  tl_burst : t_burst t = u32 (foldr (λ p n, est_burst (p_mt p) + n) 0 a);
  tl_types : t_interactive t + t_cpu_bound t + t_mixed t = t_total t;
  tl_types_nonneg : 0 <= t_interactive t ∧ 0 <= t_cpu_bound t ∧ 0 <= t_mixed t;
  tl_interactive :
    t_interactive t = count (λ p, bool_decide (proc_type (p_mt p) = PROC_TYPE_INTERACTIVE)) a;
  tl_health : t_healthy t + t_warning t + t_critical t = t_total t;
}.

Lemma count_snoc f l p : count f (l ++ [p]) = bump (f p) (count f l).
Proof.
  unfold count, bump. rewrite filter_app, length_app. cbn [filter list_filter].
  destruct (f p); simpl; lia.
Qed.

Lemma sum_est_snoc l p :
  foldr (λ p n, est_burst (p_mt p) + n) 0 (l ++ [p])
  = foldr (λ p n, est_burst (p_mt p) + n) 0 l + est_burst (p_mt p).
Proof. induction l as [|q l IH]; simpl; lia. Qed.

Lemma tallied_all l :
  tallied (filter (λ p, p_state p ≠ UNUSED) l) (foldl (λ t p, tally_proc p t) tally0 l).
Proof.
  induction l as [|p l IH] using rev_ind; [by split|].
  rewrite foldl_app, filter_app. cbn [foldl filter list_filter]. unfold tally_proc at 1.
  set (t := foldl _ _ l) in *. set (a := filter _ l) in *. destruct IH.
  case_bool_decide as Hu; case_decide as Hd; try done; [by rewrite app_nil_r|].
  split; cbn [t_total t_runnable t_running t_sleeping t_interactive t_cpu_bound t_mixed
              t_healthy t_warning t_critical t_heals t_burst].
  - rewrite length_app. simpl. lia.
  - rewrite count_snoc. by rewrite tl_runnable0.
  - rewrite count_snoc. by rewrite tl_running0.
  - rewrite count_snoc. by rewrite tl_sleeping0.
  - rewrite sum_est_snoc, tl_burst0. by rewrite u32_add_l.
  - destruct (proc_type (p_mt p)); simpl; lia.
  - destruct (proc_type (p_mt p)); simpl; lia.
  - rewrite count_snoc. by rewrite tl_interactive0.
  - destruct (health_status (p_mt p)); simpl; lia.
Qed.

(** Three shares of a whole in percent, each rounded down, lose less than 3. *)
Lemma percent_shares a b c n :
  0 <= a → 0 <= b → 0 <= c → a + b + c = n → 0 < n →
  98 <= a * 100 / n + b * 100 / n + c * 100 / n <= 100.
Proof.
  intros. pose proof (Z.div_mod (a * 100) n). pose proof (Z.mod_pos_bound (a * 100) n).
  pose proof (Z.div_mod (b * 100) n). pose proof (Z.mod_pos_bound (b * 100) n).
  pose proof (Z.div_mod (c * 100) n). pose proof (Z.mod_pos_bound (c * 100) n). nia.
Qed.

(** The workload summary is exact. It counts the processes in use and those
    RUNNABLE, RUNNING and SLEEPING; the three health classes partition them; the
    three type percentages add up to 98, 99 or 100; the average burst is the
    (32-bit) total divided by the count. Nothing changes and no lock stays held. *)
Theorem workload_stats_correct s :
  table_free s → (length (procs s) <= NPROC)%nat →
  ∃ w s', get_workload_stats s = Ok w s' ∧ procs s' = procs s ∧ locks s' = locks s
  ∧ num_total w = Z.of_nat (length (active s))
  ∧ num_runnable w = count (λ p, bool_decide (p_state p = RUNNABLE)) (active s)
  ∧ num_running w = count (λ p, bool_decide (p_state p = RUNNING)) (active s)
  ∧ num_sleeping w = count (λ p, bool_decide (p_state p = SLEEPING)) (active s)
  ∧ num_healthy w + num_warning w + num_critical w = num_total w
  ∧ (0 < num_total w → 98 <= pct_interactive w + pct_cpu_bound w + pct_mixed w <= 100
       ∧ avg_est_burst w
         = u32 (foldr (λ p n, est_burst (p_mt p) + n) 0 (active s)) / num_total w)
  ∧ (num_total w = 0 → avg_est_burst w = 0 ∧ pct_interactive w = 0).
Proof.
  intros Hs Hlen. do 2 eexists. split; [by apply get_workload_stats_ok|].
  destruct (tallied_all (proc_at s <$> seq 0 NPROC)). fold (active s) in *.
  set (t := foldl _ _ _) in *. unfold summary. simpl. rewrite tl_burst0.
  split_and!; try done; intros Ht.
  - rewrite (proj2 (Z.ltb_lt _ _) Ht). split; [apply percent_shares; lia | done].
  - by rewrite Ht.
Qed.

Lemma workload_stats_correct_witness :
  ∃ w s', get_workload_stats (demo (Some 0%nat) RUNNING SLEEPING) = Ok w s'
    ∧ num_total w = 2 ∧ num_running w = 1 ∧ num_sleeping w = 1.
Proof.
  destruct (workload_stats_correct (demo (Some 0%nat) RUNNING SLEEPING))
    as (w & s' & E & _ & _ & Ht & _ & Hr & Hsl & _).
  - apply demo_free.
  - vm_compute. lia.
  - exists w, s'. rewrite Ht, Hr, Hsl. split; [exact E|]. vm_compute. auto.
Defined.
