(* ===== verification/Cstring.v ===== *)
(** Byte-addressed memory, and the memory and string routines of
    kernel/string.c on it.

    A memory is a function from addresses to bytes. Every routine is the loop
    of the source: the recursion counts [n] down as the code does, and the
    pointers move along. strlen(), which has no bound of its own, takes fuel. *)
From S2P Require Import Prelude.

(** ** Memory *)

Definition memory : Type := Z → Z.

(** [*a = v], for a byte. *)
Definition upd (m : memory) (a v : Z) : memory := λ x, if x =? a then u8 v else m x.

(** Little-endian loads and stores of [n] bytes. *)
Fixpoint load (n : nat) (m : memory) (a : Z) : Z :=
  match n with
  | O => 0
  | S n => m a + 2 ^ 8 * load n m (a + 1)
  end.
Fixpoint store (n : nat) (m : memory) (a v : Z) : memory :=
  match n with
  | O => m
  | S n => store n (upd m a v) (a + 1) (v / 2 ^ 8)
  end.
Abbreviation load32 := (load 4).
Abbreviation store32 := (store 4).
Abbreviation load64 := (load 8).
Abbreviation store64 := (store 8).

(** The [n] bytes at [a], and putting a list of bytes at [a]. *)
Fixpoint read_bytes (m : memory) (a : Z) (n : nat) : list Z :=
  match n with
  | O => []
  | S n => m a :: read_bytes m (a + 1) n
  end.
Fixpoint write_bytes (m : memory) (a : Z) (l : list Z) : memory :=
  match l with
  | [] => m
  | v :: l => write_bytes (upd m a v) (a + 1) l
  end.

(** ** kernel/string.c *)

Fixpoint memset_loop (n : nat) (m : memory) (cdst c : Z) : memory :=
  match n with
  | O => m
  | S n => memset_loop n (upd m cdst c) (cdst + 1) c
  end.
Definition memset (m : memory) (dst c n : Z) : memory :=
  memset_loop (Z.to_nat (u32 n)) m dst c.

Fixpoint memcmp_loop (n : nat) (m : memory) (s1 s2 : Z) : Z :=
  match n with
  | O => 0
  | S n => if negb (m s1 =? m s2) then m s1 - m s2 else memcmp_loop n m (s1 + 1) (s2 + 1)
  end.
Definition memcmp (m : memory) (v1 v2 n : Z) : Z := memcmp_loop (Z.to_nat (u32 n)) m v1 v2.

(** [while (n-- > 0) *--d = *--s;] *)
Fixpoint move_down (n : nat) (m : memory) (d s : Z) : memory :=
  match n with
  | O => m
  | S n => move_down n (upd m (d - 1) (m (s - 1))) (d - 1) (s - 1)
  end.
(** [while (n-- > 0) *d++ = *s++;] *)
Fixpoint move_up (n : nat) (m : memory) (d s : Z) : memory :=
  match n with
  | O => m
  | S n => move_up n (upd m d (m s)) (d + 1) (s + 1)
  end.
Definition memmove (m : memory) (dst src n : Z) : memory :=
  let n := u32 n in
  if n =? 0 then m
  else if (src <? dst) && (dst <? src + n) then
    move_down (Z.to_nat n) m (dst + n) (src + n)
  else move_up (Z.to_nat n) m dst src.
Definition memcpy (m : memory) (dst src n : Z) : memory := memmove m dst src n.

Fixpoint strncmp_loop (n : nat) (m : memory) (p q : Z) : Z :=
  match n with
  | O => 0
  | S n' =>
      if negb (m p =? 0) && (m p =? m q) then strncmp_loop n' m (p + 1) (q + 1)
      else u8 (m p) - u8 (m q)
  end.
Definition strncmp (m : memory) (p q n : Z) : Z := strncmp_loop (Z.to_nat (u32 n)) m p q.

(** [while (n-- > 0) *s++ = 0;] *)
Fixpoint pad_loop (n : nat) (m : memory) (s : Z) : memory :=
  match n with
  | O => m
  | S n => pad_loop n (upd m s 0) (s + 1)
  end.
Fixpoint strncpy_loop (n : nat) (m : memory) (s t : Z) : memory :=
  match n with
  | O => m
  | S n =>
      let m' := upd m s (m t) in
      if m t =? 0 then pad_loop n m' (s + 1) else strncpy_loop n m' (s + 1) (t + 1)
  end.
Definition strncpy (m : memory) (s t n : Z) : memory := strncpy_loop (Z.to_nat n) m s t.

(** [k] is the value of [--n]. *)
Fixpoint safestrcpy_loop (k : nat) (m : memory) (s t : Z) : memory :=
  match k with
  | O => upd m s 0
  | S k =>
      let m' := upd m s (m t) in
      if m t =? 0 then upd m' (s + 1) 0 else safestrcpy_loop k m' (s + 1) (t + 1)
  end.
Definition safestrcpy (m : memory) (s t n : Z) : memory :=
  if n <=? 0 then m else safestrcpy_loop (Z.to_nat (n - 1)) m s t.

Fixpoint strlen (fuel : nat) (m : memory) (s : Z) : option Z :=
  match fuel with
  | O => None
  | S fuel => if m s =? 0 then Some 0 else (λ n, n + 1) <$> strlen fuel m (s + 1)
  end.

(** ** Loads and stores *)

Lemma u8_u8 x : u8 (u8 x) = u8 x.
Proof. apply u8_small, u8_range. Qed.
#[export] Hint Rewrite u8_u8 : word.

Lemma upd_eq m a v : upd m a v a = u8 v.
Proof. unfold upd. by rewrite Z.eqb_refl. Qed.
Lemma upd_ne m a v x : x ≠ a → upd m a v x = m x.
Proof. intros H. unfold upd. apply Z.eqb_neq in H. by rewrite H. Qed.

(** Memories whose cells are bytes. *)
Definition bytes (m : memory) : Prop := ∀ a, 0 <= m a < 2 ^ 8.

Lemma bytes_upd m a v : bytes m → bytes (upd m a v).
Proof. intros H x. unfold upd. destruct (x =? a); [apply u8_range | apply H]. Qed.

(** [frame a n m m']: nothing outside the [n] cells at [a] changes. *)
Definition frame (a n : Z) (m m' : memory) : Prop := ∀ x, ¬ (a <= x < a + n) → m' x = m x.

Lemma load_ext n m m' a :
  (∀ x, a <= x < a + Z.of_nat n → m x = m' x) → load n m a = load n m' a.
Proof.
  revert a. induction n as [|n IH]; intros a H; simpl; [done|].
  rewrite (H a) by lia. rewrite (IH (a + 1)); [done|]. intros x Hx. apply H. lia.
Qed.
Lemma load_frame n m m' a b k :
  frame b k m m' → (a + Z.of_nat n <= b ∨ b + k <= a) → load n m' a = load n m a.
Proof. intros H Hd. apply load_ext. intros x Hx. apply H. lia. Qed.

Lemma load_range n m a : bytes m → 0 <= load n m a < 2 ^ (8 * Z.of_nat n).
Proof.
  intros Hb. revert a. induction n as [|n IH]; intros a; simpl; [lia|].
  specialize (IH (a + 1)). specialize (Hb a).
  replace (8 * Z.of_nat (S n)) with (8 + 8 * Z.of_nat n) by lia.
  rewrite Z.pow_add_r by lia. nia.
Qed.

Lemma store_frame n m a v : frame a (Z.of_nat n) m (store n m a v).
Proof.
  revert m a v. induction n as [|n IH]; intros m a v x Hx; simpl; [done|].
  rewrite IH by lia. apply upd_ne. lia.
Qed.

Lemma store_bytes n m a v : bytes m → bytes (store n m a v).
Proof. revert m a v. induction n; intros; simpl; auto using bytes_upd. Qed.

Lemma load_store n m a v : load n (store n m a v) a = v mod 2 ^ (8 * Z.of_nat n).
Proof.
  revert m a v. induction n as [|n IH]; intros m a v.
  - simpl. by rewrite Z.mod_1_r.
  - cbn [load store]. rewrite IH.
    rewrite (store_frame n (upd m a v) (a + 1) (v / 2 ^ 8) a) by lia. rewrite upd_eq.
    replace (8 * Z.of_nat (S n)) with (8 + 8 * Z.of_nat n) by lia.
    rewrite Z.pow_add_r by lia. unfold u8.
    rewrite Z.rem_mul_r by (try apply Z.pow_pos_nonneg; lia). lia.
Qed.

Lemma load_store_ne n k m a b v :
  a + Z.of_nat n <= b ∨ b + Z.of_nat k <= a → load n (store k m b v) a = load n m a.
Proof. apply load_frame, store_frame. Qed.

Lemma load64_store64 m a v : 0 <= v < 2 ^ 64 → load64 (store64 m a v) a = v.
Proof. intros. rewrite load_store. apply Z.mod_small. simpl. lia. Qed.
Lemma load32_store32 m a v : 0 <= v < 2 ^ 32 → load32 (store32 m a v) a = v.
Proof. intros. rewrite load_store. apply Z.mod_small. simpl. lia. Qed.

Lemma write_bytes_frame m a l : frame a (Z.of_nat (length l)) m (write_bytes m a l).
Proof.
  revert m a. induction l as [|v l IH]; intros m a x Hx; simpl in *; [done|].
  rewrite IH by lia. apply upd_ne. lia.
Qed.

Lemma write_bytes_lookup m a l i v :
  l !! i = Some v → write_bytes m a l (a + Z.of_nat i) = u8 v.
Proof.
  revert m a i. induction l as [|w l IH]; intros m a i Hi; [done|].
  destruct i as [|i]; simpl in Hi; cbn [write_bytes].
  - injection Hi as ->. rewrite write_bytes_frame by lia. by rewrite Z.add_0_r, upd_eq.
  - replace (a + Z.of_nat (S i)) with (a + 1 + Z.of_nat i) by lia. by apply IH.
Qed.

Lemma length_read_bytes m a n : length (read_bytes m a n) = n.
Proof. revert a. induction n; intros; simpl; auto. Qed.

Lemma read_bytes_lookup m a n i :
  (i < n)%nat → read_bytes m a n !! i = Some (m (a + Z.of_nat i)).
Proof.
  revert a i. induction n as [|n IH]; intros a i Hi; [lia|]. destruct i as [|i]; simpl.
  - by rewrite Z.add_0_r.
  - rewrite IH by lia. f_equal. f_equal. lia.
Qed.

Lemma read_bytes_ext m m' a n :
  (∀ x, a <= x < a + Z.of_nat n → m x = m' x) → read_bytes m a n = read_bytes m' a n.
Proof.
  revert a. induction n as [|n IH]; intros a H; simpl; [done|].
  rewrite (H a) by lia. f_equal. apply IH. intros x Hx. apply H. lia.
Qed.

Lemma read_write_bytes m a l :
  Forall (λ v, 0 <= v < 2 ^ 8) l → read_bytes (write_bytes m a l) a (length l) = l.
Proof.
  revert m a. induction l as [|v l IH]; intros m a Hl; [done|]. cbn [length read_bytes write_bytes].
  inversion_clear Hl. rewrite IH by done. f_equal.
  rewrite write_bytes_frame by lia. by rewrite upd_eq, u8_small.
Qed.

(** ** The routines *)

Lemma memset_loop_spec n m a c x :
  memset_loop n m a c x = if (a <=? x) && (x <? a + Z.of_nat n) then u8 c else m x.
Proof.
  revert m a. induction n as [|n IH]; intros m a.
  - cbn [memset_loop]. destruct ((a <=? x) && _) eqn:E; [blia | done].
  - cbn [memset_loop]. rewrite IH. unfold upd.
    destruct (x =? a) eqn:E; destruct ((a <=? x) && (x <? a + Z.of_nat (S n))) eqn:E1;
      destruct ((a + 1 <=? x) && _) eqn:E2; try done; blia.
Qed.

Lemma memset_spec m a c n x :
  memset m a c n x = if (a <=? x) && (x <? a + u32 n) then u8 c else m x.
Proof.
  unfold memset. rewrite memset_loop_spec. pose proof (u32_range n).
  by rewrite Z2Nat.id by lia.
Qed.
Lemma memset_frame m a c n : frame a (u32 n) m (memset m a c n).
Proof.
  intros x Hx. rewrite memset_spec. destruct ((a <=? x) && _) eqn:E; [lia | done].
Qed.
Lemma memset_bytes m a c n : bytes m → bytes (memset m a c n).
Proof.
  intros H x. rewrite memset_spec. destruct (_ && _); [apply u8_range | apply H].
Qed.

Lemma move_up_frame n m d s : frame d (Z.of_nat n) m (move_up n m d s).
Proof.
  revert m d s. induction n as [|n IH]; intros m d s x Hx; simpl; [done|].
  rewrite IH by lia. apply upd_ne. lia.
Qed.
Lemma move_down_frame n m d s : frame (d - Z.of_nat n) (Z.of_nat n) m (move_down n m d s).
Proof.
  revert m d s. induction n as [|n IH]; intros m d s x Hx; simpl; [done|].
  rewrite IH by lia. apply upd_ne. lia.
Qed.

(** Copying upwards is right when the destination does not start inside the
    source; copying downwards, when the source does not start above it. *)
Lemma move_up_spec n m d s i :
  ¬ (s < d < s + Z.of_nat n) → 0 <= i < Z.of_nat n →
  move_up n m d s (d + i) = u8 (m (s + i)).
Proof.
  revert m d s i. induction n as [|n IH]; intros m d s i Hd Hi; [lia|]. cbn [move_up].
  destruct (decide (i = 0)) as [->|Hne].
  - rewrite move_up_frame by lia. by rewrite !Z.add_0_r, upd_eq.
  - replace (d + i) with (d + 1 + (i - 1)) by lia. rewrite IH by lia.
    replace (s + 1 + (i - 1)) with (s + i) by lia.
    destruct (decide (s + i = d)) as [E|E].
    + exfalso. lia.
    + by rewrite upd_ne.
Qed.
Lemma move_down_spec n m d s i :
  s <= d → 0 <= i < Z.of_nat n →
  move_down n m d s (d - 1 - i) = u8 (m (s - 1 - i)).
Proof.
  revert m d s i. induction n as [|n IH]; intros m d s i Hd Hi; [lia|]. cbn [move_down].
  destruct (decide (i = 0)) as [->|Hne].
  - rewrite move_down_frame by lia. by rewrite !Z.sub_0_r, upd_eq.
  - replace (d - 1 - i) with (d - 1 - 1 - (i - 1)) by lia. rewrite IH by lia.
    replace (s - 1 - 1 - (i - 1)) with (s - 1 - i) by lia. rewrite upd_ne by lia. done.
Qed.

Lemma memmove_spec m dst src n i :
  0 <= i < u32 n → memmove m dst src n (dst + i) = u8 (m (src + i)).
Proof.
  intros Hi. unfold memmove. destruct (u32 n =? 0) eqn:E; [lia|].
  destruct ((src <? dst) && (dst <? src + u32 n)) eqn:E1.
  - replace (dst + i) with (dst + u32 n - 1 - (u32 n - 1 - i)) by lia.
    rewrite move_down_spec by lia. f_equal. f_equal. lia.
  - apply move_up_spec; lia.
Qed.
Lemma memmove_frame m dst src n : frame dst (u32 n) m (memmove m dst src n).
Proof.
  intros x Hx. unfold memmove. pose proof (u32_range n). destruct (u32 n =? 0) eqn:E; [done|].
  destruct (_ && _).
  - apply move_down_frame. lia.
  - apply move_up_frame. lia.
Qed.

Lemma pad_loop_spec n m s x :
  pad_loop n m s x = if (s <=? x) && (x <? s + Z.of_nat n) then 0 else m x.
Proof.
  revert m s. induction n as [|n IH]; intros m s; cbn [pad_loop].
  - destruct ((s <=? x) && _) eqn:E; [blia | done].
  - rewrite IH. unfold upd.
    destruct (x =? s) eqn:E; destruct ((s <=? x) && (x <? s + Z.of_nat (S n))) eqn:E1;
      destruct ((s + 1 <=? x) && _) eqn:E2; try done; blia.
Qed.

Lemma strncpy_frame n m s t : frame s (Z.of_nat n) m (strncpy_loop n m s t).
Proof.
  revert m s t. induction n as [|n IH]; intros m s t x Hx; [done|]. cbn [strncpy_loop].
  destruct (m t =? 0).
  - rewrite pad_loop_spec. destruct ((s + 1 <=? x) && _) eqn:E; [blia|]. apply upd_ne. lia.
  - rewrite IH by lia. apply upd_ne. lia.
Qed.

(** strncpy() copies up to the first NUL and pads with NULs. *)
Lemma strncpy_copies n m s t i :
  t + Z.of_nat n <= s ∨ s + Z.of_nat n <= t → 0 <= i < Z.of_nat n →
  (∀ j, 0 <= j < i → m (t + j) ≠ 0) → strncpy_loop n m s t (s + i) = u8 (m (t + i)).
Proof.
  revert m s t i. induction n as [|n IH]; intros m s t i Hd Hi Hj; [lia|]. cbn [strncpy_loop].
  destruct (decide (i = 0)) as [->|Hne].
  - destruct (m t =? 0) eqn:E.
    + rewrite pad_loop_spec. destruct ((s + 1 <=? s + 0) && _) eqn:E1; [blia|].
      by rewrite !Z.add_0_r, upd_eq.
    + rewrite strncpy_frame by lia. by rewrite !Z.add_0_r, upd_eq.
  - specialize (Hj 0 ltac:(lia)) as H0. rewrite Z.add_0_r in H0. apply Z.eqb_neq in H0.
    rewrite H0. replace (s + i) with (s + 1 + (i - 1)) by lia. rewrite IH; [|lia..|].
    + replace (t + 1 + (i - 1)) with (t + i) by lia. rewrite upd_ne by lia. done.
    + intros j Hj'. rewrite upd_ne by lia. replace (t + 1 + j) with (t + (j + 1)) by lia.
      apply Hj. lia.
Qed.
Lemma strncpy_pads n m s t i j :
  t + Z.of_nat n <= s ∨ s + Z.of_nat n <= t → 0 <= j < i → i < Z.of_nat n →
  m (t + j) = 0 → strncpy_loop n m s t (s + i) = 0.
Proof.
  revert m s t i j. induction n as [|n IH]; intros m s t i j Hd Hj Hi Hm; [lia|].
  cbn [strncpy_loop]. destruct (m t =? 0) eqn:E.
  - rewrite pad_loop_spec. destruct ((s + 1 <=? s + i) && _) eqn:E1; [done | blia].
  - apply Z.eqb_neq in E. assert (j ≠ 0) by (intros ->; by rewrite Z.add_0_r in Hm).
    replace (s + i) with (s + 1 + (i - 1)) by lia. apply (IH _ _ _ _ (j - 1)); try lia.
    rewrite upd_ne by lia. by replace (t + 1 + (j - 1)) with (t + j) by lia.
Qed.

(** strncmp() is 0 exactly when the strings agree up to the first NUL or [n]. *)
Lemma strncmp_zero n m p q :
  bytes m →
  strncmp_loop n m p q = 0 ↔
  ∀ i, 0 <= i < Z.of_nat n → (∀ j, 0 <= j < i → m (p + j) ≠ 0) → m (p + i) = m (q + i).
Proof.
  intros Hb. revert p q. induction n as [|n IH]; intros p q; cbn [strncmp_loop].
  { split; [lia | done]. }
  destruct (negb (m p =? 0) && (m p =? m q)) eqn:E.
  - assert (m p ≠ 0 ∧ m p = m q) as [Hp Hq] by blia. rewrite IH. split; intros H i Hi Hj.
    + destruct (decide (i = 0)) as [->|Hne]; [by rewrite !Z.add_0_r|].
      specialize (H (i - 1) ltac:(lia)).
      replace (p + 1 + (i - 1)) with (p + i) in H by lia.
      replace (q + 1 + (i - 1)) with (q + i) in H by lia. apply H. intros j Hj'.
      replace (p + 1 + j) with (p + (j + 1)) by lia. apply Hj. lia.
    + replace (p + 1 + i) with (p + (i + 1)) by lia.
      replace (q + 1 + i) with (q + (i + 1)) by lia. apply H; [lia|]. intros j Hj'.
      destruct (decide (j = 0)) as [->|]; [by rewrite Z.add_0_r|].
      replace (p + j) with (p + 1 + (j - 1)) by lia. apply Hj. lia.
  - rewrite !u8_small by apply Hb. split; intros H.
    + assert (m p = 0 ∧ m q = 0) as [Hp Hq] by blia. intros i Hi Hj.
      destruct (decide (i = 0)) as [->|]; [by rewrite !Z.add_0_r; congruence|].
      exfalso. apply (Hj 0); [lia|]. by rewrite Z.add_0_r.
    + specialize (H 0 ltac:(lia) ltac:(lia)). rewrite !Z.add_0_r in H. lia.
Qed.

Lemma strncmp_ext n m m' p q :
  (∀ i, 0 <= i < Z.of_nat n → m (p + i) = m' (p + i) ∧ m (q + i) = m' (q + i)) →
  strncmp_loop n m p q = strncmp_loop n m' p q.
Proof.
  revert p q. induction n as [|n IH]; intros p q H; [done|]. cbn [strncmp_loop].
  destruct (H 0) as [Hp Hq]; [lia|]. rewrite !Z.add_0_r in Hp, Hq. rewrite Hp, Hq.
  rewrite (IH (p + 1) (q + 1)); [done|]. intros i Hi.
  replace (p + 1 + i) with (p + (i + 1)) by lia. replace (q + 1 + i) with (q + (i + 1)) by lia.
  apply H. lia.
Qed.

(** Comparing with a copy made by strncpy() is comparing with the original. *)
Lemma strncmp_strncpy n m s t r :
  bytes m → t + Z.of_nat n <= s ∨ s + Z.of_nat n <= t →
  r + Z.of_nat n <= s ∨ s + Z.of_nat n <= r →
  strncmp_loop n (strncpy_loop n m s t) r s = strncmp_loop n m r t.
Proof.
  revert m s t r. induction n as [|n IH]; intros m s t r Hb Ht Hr; [done|].
  cbn [strncmp_loop].
  assert (Es : strncpy_loop (S n) m s t s = m t).
  { pose proof (strncpy_copies (S n) m s t 0 Ht ltac:(lia) ltac:(lia)) as E.
    rewrite !Z.add_0_r in E. rewrite E. apply u8_small, Hb. }
  rewrite Es, (strncpy_frame (S n) m s t r) by lia.
  destruct (negb (m r =? 0) && (m r =? m t)) eqn:E; [|done].
  assert (Hne : (m t =? 0) = false) by blia. cbn [strncpy_loop]. rewrite Hne.
  rewrite IH by (try apply bytes_upd; done || lia).
  apply strncmp_ext. intros i Hi. by rewrite !upd_ne by lia.
Qed.

Lemma safestrcpy_frame k m s t : frame s (Z.of_nat k + 1) m (safestrcpy_loop k m s t).
Proof.
  revert m s t. induction k as [|k IH]; intros m s t x Hx; cbn [safestrcpy_loop].
  - apply upd_ne. lia.
  - destruct (m t =? 0); [by rewrite !upd_ne by lia|]. rewrite IH by lia. apply upd_ne. lia.
Qed.
Lemma safestrcpy_copies k m s t :
  bytes m → t + Z.of_nat k <= s ∨ s + Z.of_nat k + 1 <= t →
  ∃ l, 0 <= l <= Z.of_nat k ∧ safestrcpy_loop k m s t (s + l) = 0
    ∧ (∀ j, 0 <= j < l → safestrcpy_loop k m s t (s + j) = m (t + j) ∧ m (t + j) ≠ 0)
    ∧ (l = Z.of_nat k ∨ m (t + l) = 0).
Proof.
  revert m s t. induction k as [|k IH]; intros m s t Hb Hd; cbn [safestrcpy_loop].
  - exists 0. rewrite Z.add_0_r, upd_eq. split_and!; try done; lia.
  - destruct (m t =? 0) eqn:E.
    + exists 0. rewrite !Z.add_0_r, upd_ne, upd_eq by lia. apply Z.eqb_eq in E. rewrite E.
      split_and!; try done; lia.
    + apply Z.eqb_neq in E.
      destruct (IH (upd m s (m t)) (s + 1) (t + 1)) as (l & Hl & H0 & Hc & Hend);
        [by apply bytes_upd | lia |].
      exists (l + 1). replace (s + (l + 1)) with (s + 1 + l) by lia. split_and!; try lia; try done.
      * intros j Hj. destruct (decide (j = 0)) as [->|].
        { rewrite safestrcpy_frame by lia. rewrite !Z.add_0_r, upd_eq.
          split; [apply u8_small, Hb | done]. }
        destruct (Hc (j - 1)) as [Ec Hne]; [lia|].
        replace (s + 1 + (j - 1)) with (s + j) in Ec by lia.
        replace (t + 1 + (j - 1)) with (t + j) in Ec, Hne by lia.
        rewrite upd_ne in Ec, Hne by lia. done.
      * destruct (decide (l = Z.of_nat k)) as [->|]; [left; lia|]. right.
        destruct Hend as [->|Hend]; [lia|].
        rewrite upd_ne in Hend by lia. by replace (t + (l + 1)) with (t + 1 + l) by lia.
Qed.

(** ** Properties *)

(** Memmove() copies [n] bytes correctly whether or not the two ranges
    overlap, in either direction, and writes nothing outside the destination. *)
Theorem memmove_correct m dst src n i :
  0 <= i < u32 n →
  memmove m dst src n (dst + i) = u8 (m (src + i)) ∧ frame dst (u32 n) m (memmove m dst src n).
Proof. intros Hi. split; [by apply memmove_spec | apply memmove_frame]. Qed.

Lemma memmove_correct_witness :
  memmove (λ x, x) 12 10 5 14 = 12 ∧ frame 12 5 (λ x, x) (memmove (λ x, x) 12 10 5).
Proof. apply (memmove_correct (λ x, x) 12 10 5 2). vm_compute. split; congruence. Defined.

(** File names survive a directory entry. A name stored with strncpy() in a
    field of [n] bytes compares, with strncmp(), to any string as the name itself
    does: no stored name is confused with another or lost, also when it fills the
    field and has no NUL. *)
Theorem strncpy_strncmp_roundtrip m s t r n :
  bytes m → 0 <= n < 2 ^ 31 →
  t + n <= s ∨ s + n <= t → r + n <= s ∨ s + n <= r →
  strncmp (strncpy m s t n) r s n = strncmp m r t n.
Proof.
  intros Hb Hn Ht Hr. unfold strncmp, strncpy. rewrite u32_small by lia.
  apply strncmp_strncpy; [done | lia..].
Qed.

Lemma strncpy_strncmp_roundtrip_witness :
  strncmp (strncpy (λ x, u8 (x / 100)) 0 100 14) 200 0 14 = 1.
Proof.
  rewrite (strncpy_strncmp_roundtrip (λ x, u8 (x / 100)) 0 100 200 14).
  - vm_compute. reflexivity.
  - intros x. apply u8_range.
  - lia.
  - lia.
  - lia.
Defined.

(** Safestrcpy() always leaves a NUL-terminated string within its [n] bytes:
    the longest prefix of the source that fits, the whole source if it is shorter
    than [n], and it writes nothing outside the [n] bytes. *)
Theorem safestrcpy_correct m s t n :
  bytes m → 0 < n → t + n <= s ∨ s + n <= t →
  frame s n m (safestrcpy m s t n) ∧
  ∃ l, 0 <= l < n ∧ safestrcpy m s t n (s + l) = 0
    ∧ (∀ j, 0 <= j < l → safestrcpy m s t n (s + j) = m (t + j) ∧ m (t + j) ≠ 0)
    ∧ (l = n - 1 ∨ m (t + l) = 0).
Proof.
  intros Hb Hn Hd. unfold safestrcpy. destruct (n <=? 0) eqn:E; [lia|].
  set (k := Z.to_nat (n - 1)). assert (Hk : Z.of_nat k = n - 1) by lia. split.
  - replace n with (Z.of_nat k + 1) by lia. apply safestrcpy_frame.
  - destruct (safestrcpy_copies k m s t Hb ltac:(lia)) as (l & ? & ? & ? & ?).
    exists l. split_and!; (done || lia).
Qed.

Lemma safestrcpy_correct_witness :
  ∃ l, 0 <= l < 16 ∧ safestrcpy (λ x, u8 (x / 100)) 0 100 16 (0 + l) = 0.
Proof.
  destruct (safestrcpy_correct (λ x, u8 (x / 100)) 0 100 16) as (_ & l & Hl & H0 & _).
  - intros x. apply u8_range.
  - lia.
  - lia.
  - exists l. split; [exact Hl | exact H0].
Defined.

#[global] Arguments load : simpl never.
#[global] Arguments store : simpl never.
#[global] Arguments memset : simpl never.
#[global] Arguments memmove : simpl never.
