(* ===== verification/Riscv.v ===== *)
(** Pages, page-table entries and the memory layout: the macros of
    kernel/riscv.h and kernel/memlayout.h, and the addresses the linker
    provides (kernel/kernel.ld). *)
From S2P Require Import Prelude.

(** ** Pages (kernel/riscv.h) *)

Definition PGSIZE : Z := 4096.
Definition PGSHIFT : Z := 12.
(** [~(PGSIZE - 1)], as a uint64. *)
Definition PGMASK : Z := 2 ^ 64 - PGSIZE.
Definition PGROUNDUP (sz : Z) : Z := Z.land (u64 (sz + PGSIZE - 1)) PGMASK.
Definition PGROUNDDOWN (a : Z) : Z := Z.land a PGMASK.

(** ** Page-table entries *)

Definition PTE_V : Z := 1.
Definition PTE_R : Z := 2.
Definition PTE_W : Z := 4.
Definition PTE_X : Z := 8.
Definition PTE_U : Z := 16.

Definition PA2PTE (pa : Z) : Z := u64 (Z.shiftl (Z.shiftr pa 12) 10).
Definition PTE2PA (pte : Z) : Z := u64 (Z.shiftl (Z.shiftr pte 10) 12).
Definition PTE_FLAGS (pte : Z) : Z := Z.land pte 1023.

Definition PXMASK : Z := 511.
Definition PXSHIFT (level : Z) : Z := PGSHIFT + 9 * level.
Definition PX (level va : Z) : Z := Z.land (Z.shiftr va (PXSHIFT level)) PXMASK.
Definition MAXVA : Z := Z.shiftl 1 (9 + 9 + 9 + 12 - 1).

Definition SATP_SV39 : Z := Z.shiftl 8 60.
Definition MAKE_SATP (pagetable : Z) : Z := Z.lor SATP_SV39 (Z.shiftr pagetable 12).

(** [pte & f], as a C truth value. *)
Definition bit (pte f : Z) : bool := negb (Z.land pte f =? 0).

(** ** Physical and virtual layout (kernel/memlayout.h) *)

Definition UART0 : Z := 268435456.       (* 0x10000000 *)
Definition UART0_IRQ : Z := 10.
Definition VIRTIO0 : Z := 268439552.     (* 0x10001000 *)
Definition VIRTIO0_IRQ : Z := 1.
Definition PLIC : Z := 201326592.        (* 0x0c000000 *)
Definition KERNBASE : Z := 2147483648.   (* 0x80000000 *)
Definition PHYSTOP : Z := KERNBASE + 128 * 1024 * 1024.
Definition TRAMPOLINE : Z := MAXVA - PGSIZE.
Definition KSTACK (p : Z) : Z := TRAMPOLINE - (p + 1) * 2 * PGSIZE.
Definition TRAPFRAME : Z := TRAMPOLINE - PGSIZE.

(** ** The linked image

    Addresses that only the linker knows, with what kernel.ld guarantees of
    them: the image starts at KERNBASE, its text ends on a page boundary, and it
    leaves room below PHYSTOP. *)
Class Image := {
  end_ : Z;          (* first address after the kernel *)
  etext : Z;
  trampoline : Z;
  uservec : Z;
  userret : Z;
  kernelvec : Z;
  forkret_addr : Z;
  usertrap_addr : Z;
  end_range : KERNBASE <= end_ < PHYSTOP;
  etext_range : KERNBASE < etext <= end_;
  etext_aligned : etext mod PGSIZE = 0;
  trampoline_range : KERNBASE <= trampoline < etext;
  trampoline_aligned : trampoline mod PGSIZE = 0;
}.

(** An image of 33 pages, the first 9 of them text. *)
#[refine] Instance sample_image : Image := {|
  end_ := KERNBASE + 33 * PGSIZE;
  etext := KERNBASE + 9 * PGSIZE;
  trampoline := KERNBASE + 8 * PGSIZE;
  uservec := KERNBASE + 8 * PGSIZE;
  userret := KERNBASE + 8 * PGSIZE + 156;
  kernelvec := KERNBASE + 7 * PGSIZE;
  forkret_addr := KERNBASE + 6 * PGSIZE;
  usertrap_addr := KERNBASE + 5 * PGSIZE |}.
Proof. all: (vm_compute; intuition congruence). Defined.

(** ** Arithmetic of the macros *)

Lemma land_ones_shiftl x k n :
  0 <= k → 0 <= n → 0 <= x < 2 ^ (k + n) →
  Z.land x (Z.shiftl (Z.ones n) k) = x / 2 ^ k * 2 ^ k.
Proof.
  intros Hk Hn Hx. rewrite <- Z.shiftr_div_pow2, <- Z.shiftl_mul_pow2 by lia.
  apply Z.bits_inj'. intros i Hi. rewrite Z.land_spec.
  destruct (decide (i < k)).
  - rewrite !Z.shiftl_spec_low by lia. apply andb_false_r.
  - rewrite !Z.shiftl_spec, Z.shiftr_spec by lia. replace (i - k + k) with i by lia.
    destruct (decide (i < k + n)).
    + rewrite Z.ones_spec_low by lia. apply andb_true_r.
    + rewrite Z.ones_spec_high by lia. rewrite andb_false_r. symmetry.
      destruct (decide (x = 0)) as [->|]; [apply Z.bits_0|].
      apply Z.bits_above_log2; [lia|].
      apply Z.log2_lt_pow2; [lia|]. apply Z.lt_le_trans with (2 ^ (k + n)); [lia|].
      apply Z.pow_le_mono_r; lia.
Qed.

Lemma land_PGMASK x : 0 <= x < 2 ^ 64 → Z.land x PGMASK = x / PGSIZE * PGSIZE.
Proof. intros Hx. apply (land_ones_shiftl x 12 52); lia. Qed.

Lemma PGROUNDDOWN_eq a : 0 <= a < 2 ^ 64 → PGROUNDDOWN a = a / PGSIZE * PGSIZE.
Proof. apply land_PGMASK. Qed.
Lemma PGROUNDUP_eq sz :
  0 <= sz <= 2 ^ 64 - PGSIZE → PGROUNDUP sz = (sz + PGSIZE - 1) / PGSIZE * PGSIZE.
Proof.
  intros H. unfold PGSIZE in *. unfold PGROUNDUP. rewrite u64_small by (unfold PGSIZE; lia).
  apply land_PGMASK. unfold PGSIZE. lia.
Qed.

(** Rounding down gives the page that contains the address. *)
Lemma PGROUNDDOWN_bounds a :
  0 <= a < 2 ^ 64 →
  PGROUNDDOWN a mod PGSIZE = 0 ∧ PGROUNDDOWN a <= a < PGROUNDDOWN a + PGSIZE.
Proof.
  intros H. rewrite PGROUNDDOWN_eq by done. unfold PGSIZE. split; [apply Z_mod_mult|].
  pose proof (Z.div_mod a 4096). pose proof (Z.mod_pos_bound a 4096). lia.
Qed.
Lemma PGROUNDUP_bounds sz :
  0 <= sz <= 2 ^ 64 - PGSIZE →
  PGROUNDUP sz mod PGSIZE = 0 ∧ sz <= PGROUNDUP sz < sz + PGSIZE.
Proof.
  intros H. rewrite PGROUNDUP_eq by done. unfold PGSIZE. split; [apply Z_mod_mult|].
  pose proof (Z.div_mod (sz + 4096 - 1) 4096). pose proof (Z.mod_pos_bound (sz + 4096 - 1) 4096).
  lia.
Qed.
Lemma PGROUNDUP_aligned sz :
  0 <= sz <= 2 ^ 64 - PGSIZE → sz mod PGSIZE = 0 → PGROUNDUP sz = sz.
Proof.
  intros H Ha. destruct (PGROUNDUP_bounds sz H) as [Hm Hb].
  assert (Hd : (PGROUNDUP sz - sz) mod PGSIZE = 0) by (rewrite Zminus_mod, Hm, Ha; done).
  unfold PGSIZE in *. rewrite Z.mod_small in Hd; lia.
Qed.
Lemma PGROUNDDOWN_aligned a : 0 <= a < 2 ^ 64 → a mod PGSIZE = 0 → PGROUNDDOWN a = a.
Proof.
  intros H Ha. rewrite PGROUNDDOWN_eq by done. unfold PGSIZE in *.
  pose proof (Z.div_mod a 4096). lia.
Qed.

(** Low flags under a shifted number are added to it. *)
Lemma lor_low x f k : 0 <= k → 0 <= f < 2 ^ k → Z.lor (x * 2 ^ k) f = x * 2 ^ k + f.
Proof.
  intros Hk Hf. symmetry. apply Z.add_nocarry_lor. apply Z.bits_inj'. intros i Hi.
  rewrite Z.land_spec, Z.bits_0, <- Z.shiftl_mul_pow2 by lia.
  destruct (decide (i < k)).
  - by rewrite Z.shiftl_spec_low by lia.
  - destruct (decide (f = 0)) as [->|]; [by rewrite Z.bits_0, andb_false_r|].
    rewrite (Z.bits_above_log2 f); [apply andb_false_r | lia |].
    apply Z.log2_lt_pow2; [lia|]. apply Z.lt_le_trans with (2 ^ k); [lia|].
    apply Z.pow_le_mono_r; lia.
Qed.

Lemma PA2PTE_eq pa : 0 <= pa < 2 ^ 56 → PA2PTE pa = pa / PGSIZE * 2 ^ 10.
Proof.
  intros H. unfold PA2PTE. rewrite Z.shiftr_div_pow2, Z.shiftl_mul_pow2 by lia.
  change (2 ^ 12) with PGSIZE. apply u64_small. unfold PGSIZE.
  pose proof (Z.div_mod pa 4096). pose proof (Z.mod_pos_bound pa 4096). lia.
Qed.

(** A PTE built from a page address and flags gives both back. *)
Lemma PTE_roundtrip pa f :
  0 <= pa < 2 ^ 56 → pa mod PGSIZE = 0 → 0 <= f < 2 ^ 10 →
  PTE2PA (Z.lor (PA2PTE pa) f) = pa ∧ PTE_FLAGS (Z.lor (PA2PTE pa) f) = f.
Proof.
  intros Hpa Ha Hf. rewrite PA2PTE_eq, lor_low by lia. unfold PTE2PA, PTE_FLAGS.
  change 1023 with (Z.ones 10). rewrite Z.land_ones by lia.
  rewrite Z.shiftr_div_pow2, Z.shiftl_mul_pow2 by lia. split.
  - rewrite Z.div_add_l, (Z.div_small f) by lia. rewrite Z.add_0_r.
    unfold PGSIZE in *. change (2 ^ 12) with 4096.
    replace (pa / 4096 * 4096) with pa by (pose proof (Z.div_mod pa 4096); lia).
    apply u64_small. lia.
  - rewrite Z.add_comm, Z_mod_plus_full. apply Z.mod_small. lia.
Qed.
