(* ===== verification/Asm.v ===== *)
(** The assembly files of the kernel: entry.S, swtch.S, kernelvec.S, trampoline.S.

    Each file is the list of its instructions, run by an interpreter of the
    RISC-V instructions it uses. Loads and stores go through the address
    translation that [satp] selects, a parameter: the theorems assume of it only
    that the few hundred bytes a routine touches are mapped contiguously, which
    is what the page tables of vm.c and proc.c arrange. Code addresses are the
    linker's choice, also a parameter. *)
From S2P Require Import Prelude Cstring Riscv.

(** ** The machine *)

Inductive reg :=
| ra | sp | gp | tp | t0 | t1 | t2 | s0 | s1
| a0 | a1 | a2 | a3 | a4 | a5 | a6 | a7
| s2 | s3 | s4 | s5 | s6 | s7 | s8 | s9 | s10 | s11
| t3 | t4 | t5 | t6.
#[export] Instance reg_eq_dec : EqDecision reg.
Proof. solve_decision. Defined.

Inductive csr := mhartid | sscratch | satp.
#[export] Instance csr_eq_dec : EqDecision csr.
Proof. solve_decision. Defined.

Record machine := Machine {
  regs : reg → Z;
  csrs : csr → Z;
  ram : memory
}.
Definition set_reg (r : reg) (v : Z) (m : machine) : machine :=
  Machine (λ x, if decide (x = r) then v else regs m x) (csrs m) (ram m).
Definition set_csr (c : csr) (v : Z) (m : machine) : machine :=
  Machine (regs m) (λ x, if decide (x = c) then v else csrs m x) (ram m).
Definition set_ram (f : memory → memory) (m : machine) : machine :=
  Machine (regs m) (csrs m) (f (ram m)).

(** ** The instructions *)

Inductive instr :=
| la (rd : reg) (symbol : Z) | li (rd : reg) (imm : Z)
| addi (rd rs : reg) (imm : Z) | add (rd r1 r2 : reg) | mul (rd r1 r2 : reg)
| ld (rd : reg) (off : Z) (rs : reg) | sd (rs : reg) (off : Z) (rd : reg)
| csrr (rd : reg) (c : csr) | csrw (c : csr) (rs : reg) | sfence_vma
| call (f : Z) | jalr (rs : reg) | j (label : Z) | ret | sret.

(** Where control goes: to the next instruction, to an address (in the privilege mode of
    the code), or out of the trap, to [sepc]. *)
Inductive next := Continue | Goto (a : Z) | Trap_return.

Section machine.
Context (walk : Z → Z → Z). (* the physical address, from satp and a virtual address *)
Context (here : list instr → Z). (* the address of a piece of code *)

Definition translate (m : machine) (va : Z) : Z := walk (csrs m satp) va.

(** [rest] is the code that follows the instruction. *)
Definition step (i : instr) (rest : list instr) (m : machine) : machine * next :=
  match i with
  | la rd v | li rd v => (set_reg rd v m, Continue)
  | addi rd rs imm => (set_reg rd (u64 (regs m rs + imm)) m, Continue)
  | add rd r1 r2 => (set_reg rd (u64 (regs m r1 + regs m r2)) m, Continue)
  | mul rd r1 r2 => (set_reg rd (u64 (regs m r1 * regs m r2)) m, Continue)
  | ld rd off rs => (set_reg rd (load64 (ram m) (translate m (u64 (regs m rs + off)))) m, Continue)
  | sd rs off rd =>
      (set_ram (λ d, store64 d (translate m (u64 (regs m rd + off))) (regs m rs)) m, Continue)
  | csrr rd c => (set_reg rd (csrs m c) m, Continue)
  | csrw c rs => (set_csr c (regs m rs) m, Continue)
  | sfence_vma => (m, Continue)
  | call f => (set_reg ra (here rest) m, Goto f)
  | jalr rs => (set_reg ra (here rest) m, Goto (regs m rs))
  | j label => (m, Goto label)
  | ret => (m, Goto (regs m ra))
  | sret => (m, Trap_return)
  end.

(** Straight-line code runs up to its first jump; the last component is the code after it. *)
Fixpoint run (l : list instr) (m : machine) : machine * next * list instr :=
  match l with
  | [] => (m, Continue, [])
  | i :: rest =>
      match step i rest m with
      | (m', Continue) => run rest m'
      | (m', n) => (m', n, rest)
      end
  end.
End machine.

(** ** entry.S *)

Definition _entry (stack0 start spin : Z) : list instr :=
  [la sp stack0; li a0 (1024 * 4); csrr a1 mhartid; addi a1 a1 1; mul a0 a0 a1;
   add sp sp a0; call start; j spin].

(** ** kernelvec.S *)

Definition kernelvec (kerneltrap : Z) : list instr :=
  [addi sp sp (-256); sd ra 0 sp; sd gp 16 sp; sd t0 32 sp; sd t1 40 sp; sd t2 48 sp;
   sd a0 72 sp; sd a1 80 sp; sd a2 88 sp; sd a3 96 sp; sd a4 104 sp; sd a5 112 sp;
   sd a6 120 sp; sd a7 128 sp; sd t3 216 sp; sd t4 224 sp; sd t5 232 sp; sd t6 240 sp;
   call kerneltrap; ld ra 0 sp; ld gp 16 sp; ld t0 32 sp; ld t1 40 sp; ld t2 48 sp;
   ld a0 72 sp; ld a1 80 sp; ld a2 88 sp; ld a3 96 sp; ld a4 104 sp; ld a5 112 sp;
   ld a6 120 sp; ld a7 128 sp; ld t3 216 sp; ld t4 224 sp; ld t5 232 sp; ld t6 240 sp;
   addi sp sp 256; sret].

(** ** swtch.S *)

Definition swtch : list instr :=
  [sd ra 0 a0; sd sp 8 a0; sd s0 16 a0; sd s1 24 a0; sd s2 32 a0; sd s3 40 a0;
   sd s4 48 a0; sd s5 56 a0; sd s6 64 a0; sd s7 72 a0; sd s8 80 a0; sd s9 88 a0;
   sd s10 96 a0; sd s11 104 a0; ld ra 0 a1; ld sp 8 a1; ld s0 16 a1; ld s1 24 a1;
   ld s2 32 a1; ld s3 40 a1; ld s4 48 a1; ld s5 56 a1; ld s6 64 a1; ld s7 72 a1;
   ld s8 80 a1; ld s9 88 a1; ld s10 96 a1; ld s11 104 a1; ret].

(** ** trampoline.S *)

Definition uservec : list instr :=
  [csrw sscratch a0; li a0 TRAPFRAME; sd ra 40 a0; sd sp 48 a0; sd gp 56 a0; sd tp 64 a0;
   sd t0 72 a0; sd t1 80 a0; sd t2 88 a0; sd s0 96 a0; sd s1 104 a0; sd a1 120 a0;
   sd a2 128 a0; sd a3 136 a0; sd a4 144 a0; sd a5 152 a0; sd a6 160 a0; sd a7 168 a0;
   sd s2 176 a0; sd s3 184 a0; sd s4 192 a0; sd s5 200 a0; sd s6 208 a0; sd s7 216 a0;
   sd s8 224 a0; sd s9 232 a0; sd s10 240 a0; sd s11 248 a0; sd t3 256 a0; sd t4 264 a0;
   sd t5 272 a0; sd t6 280 a0; csrr t0 sscratch; sd t0 112 a0; ld sp 8 a0; ld tp 32 a0;
   ld t0 16 a0; ld t1 0 a0; sfence_vma; csrw satp t1; sfence_vma; jalr t0].

Definition userret : list instr :=
  [sfence_vma; csrw satp a0; sfence_vma; li a0 TRAPFRAME; ld ra 40 a0; ld sp 48 a0;
   ld gp 56 a0; ld tp 64 a0; ld t0 72 a0; ld t1 80 a0; ld t2 88 a0; ld s0 96 a0;
   ld s1 104 a0; ld a1 120 a0; ld a2 128 a0; ld a3 136 a0; ld a4 144 a0; ld a5 152 a0;
   ld a6 160 a0; ld a7 168 a0; ld s2 176 a0; ld s3 184 a0; ld s4 192 a0; ld s5 200 a0;
   ld s6 208 a0; ld s7 216 a0; ld s8 224 a0; ld s9 232 a0; ld s10 240 a0; ld s11 248 a0;
   ld t3 256 a0; ld t4 264 a0; ld t5 272 a0; ld t6 280 a0; ld a0 112 a0; sret].

(** userret is the code that follows uservec: the [jalr] of uservec leaves its address in
    [ra], so that usertrap() returns to it. *)
Definition trampoline : list instr := uservec ++ userret.

(** ** Saving and restoring registers *)

Definition saves (b : reg) (l : list (reg * Z)) : list instr := (λ x, sd x.1 x.2 b) <$> l.
Definition restores (b : reg) (l : list (reg * Z)) : list instr := (λ x, ld x.1 x.2 b) <$> l.

(** The [n] bytes at the virtual address [va] are the [n] bytes of RAM at [pa]. *)
Definition mapped (walk : Z → Z → Z) (pt va pa n : Z) : Prop :=
  ∀ o, 0 <= o < n → walk pt (u64 (va + o)) = pa + o.

(** Slots for registers: one per register, in distinct double words of an area of [n] bytes. *)
Definition slots (l : list (reg * Z)) (n : Z) : Prop :=
  NoDup l.*1 ∧ NoDup l.*2 ∧ Forall (λ x, 0 <= x.2 ∧ x.2 + 8 <= n ∧ x.2 mod 8 = 0) l.
#[export] Instance slots_dec l n : Decision (slots l n).
Proof. unfold slots. apply _. Defined.

(** The RAM once the registers [l] of [m] are stored at [pa], and the registers once [l] is
    loaded from [pa]. *)
Definition saved (m : machine) (pa : Z) (l : list (reg * Z)) : memory :=
  foldl (λ d x, store64 d (pa + x.2) (regs m x.1)) (ram m) l.
Definition restored (m : machine) (pa : Z) (l : list (reg * Z)) : reg → Z :=
  foldl (λ f x y, if decide (y = x.1) then load64 (ram m) (pa + x.2) else f y) (regs m) l.

Section frames.
Context (walk : Z → Z → Z) (here : list instr → Z).

Lemma run_saves b l rest m pa n :
  mapped walk (csrs m satp) (regs m b) pa n → Forall (λ x, 0 <= x.2 ∧ x.2 + 8 <= n ∧ x.2 mod 8 = 0) l →
  run walk here (saves b l ++ rest) m
  = run walk here rest (Machine (regs m) (csrs m) (saved m pa l)).
Proof.
  intros Hm. revert m Hm. induction l as [|[r o] l IH]; intros m Hm Hl.
  - by destruct m.
  - apply Forall_cons in Hl as [Ho Hl]. cbn in Ho.
    cbn [saves fmap list_fmap app run step fst snd]. unfold translate.
    rewrite Hm by lia. rewrite IH by done. done.
Qed.

Lemma run_restores b l rest m pa n :
  mapped walk (csrs m satp) (regs m b) pa n → b ∉ l.*1 →
  Forall (λ x, 0 <= x.2 ∧ x.2 + 8 <= n ∧ x.2 mod 8 = 0) l →
  run walk here (restores b l ++ rest) m
  = run walk here rest (Machine (restored m pa l) (csrs m) (ram m)).
Proof.
  intros Hm. revert m Hm. induction l as [|[r o] l IH]; intros m Hm Hb Hl.
  - by destruct m.
  - apply Forall_cons in Hl as [Ho Hl]. cbn in Ho.
    rewrite fmap_cons, not_elem_of_cons in Hb. destruct Hb as [Hr Hb].
    cbn [restores fmap list_fmap app run step fst snd]. unfold translate.
    rewrite Hm by lia. rewrite IH; try done.
    cbn. rewrite decide_False by done. done.
Qed.
End frames.

Lemma saved_frame m pa l lo n :
  Forall (λ x, lo <= x.2 ∧ x.2 + 8 <= lo + n) l → frame (pa + lo) n (ram m) (saved m pa l).
Proof.
  unfold saved. intros Hl. generalize (ram m). revert Hl.
  induction l as [|[r o] l IH]; intros Hl d x Hx; [done|].
  apply Forall_cons in Hl as [Ho Hl]. cbn in Ho |- *.
  rewrite (IH Hl) by done. apply (store_frame 8). lia.
Qed.

Lemma slots_frame m pa l n : slots l n → frame pa n (ram m) (saved m pa l).
Proof.
  intros (_ & _ & Hl) x Hx. apply (saved_frame m pa l 0 n); [|lia].
  eapply Forall_impl; [exact Hl|]. cbn. lia.
Qed.

(** A double word no register is stored in keeps its contents. *)
Lemma saved_other m pa l n o :
  Forall (λ x, 0 <= x.2 ∧ x.2 + 8 <= n ∧ x.2 mod 8 = 0) l → o mod 8 = 0 → o ∉ l.*2 →
  load64 (saved m pa l) (pa + o) = load64 (ram m) (pa + o).
Proof.
  unfold saved. intros Hl Ho. generalize (ram m). revert Hl.
  induction l as [|[r q] l IH]; intros Hl d Hn; [done|].
  apply Forall_cons in Hl as [Hq Hl]. cbn in Hq.
  rewrite fmap_cons, not_elem_of_cons in Hn. destruct Hn as [Hne Hn]. cbn in Hne |- *.
  rewrite (IH Hl) by done. apply load_store_ne. cbn. dlia.
Qed.

Lemma saved_lookup m pa l n r o :
  slots l n → (∀ r, 0 <= regs m r < 2 ^ 64) → (r, o) ∈ l →
  load64 (saved m pa l) (pa + o) = regs m r.
Proof.
  intros (_ & Hnd & Hl) Hr. unfold saved. generalize (ram m). revert Hnd Hl.
  induction l as [|[r' q] l IH]; intros Hnd Hl d Hin; [by apply elem_of_nil in Hin|].
  rewrite fmap_cons, NoDup_cons in Hnd. destruct Hnd as [Hq Hnd].
  apply Forall_cons in Hl as [Hq' Hl]. cbn in Hq, Hq'.
  apply elem_of_cons in Hin as [[= -> ->]|Hin]; [|by apply IH].
  cbn. change (load64 (saved (Machine (regs m) (csrs m) (store64 d (pa + q) (regs m r'))) pa l) (pa + q) = regs m r').
  rewrite (saved_other _ _ _ n) by (done || dlia). cbn [ram]. by rewrite load64_store64.
Qed.

Lemma restored_other m pa l r : r ∉ l.*1 → restored m pa l r = regs m r.
Proof.
  unfold restored. generalize (regs m). induction l as [|[r' q] l IH]; intros f Hn; [done|].
  rewrite fmap_cons, not_elem_of_cons in Hn. destruct Hn as [Hne Hn]. cbn in Hne |- *.
  rewrite IH by done. by rewrite decide_False.
Qed.

Lemma restored_lookup m pa l r o :
  NoDup l.*1 → (r, o) ∈ l → restored m pa l r = load64 (ram m) (pa + o).
Proof.
  unfold restored. generalize (regs m). induction l as [|[r' q] l IH]; intros f Hnd Hin.
  - by apply elem_of_nil in Hin.
  - rewrite fmap_cons, NoDup_cons in Hnd. destruct Hnd as [Hq Hnd]. cbn in Hq.
    apply elem_of_cons in Hin as [[= -> ->]|Hin]; [|by apply IH].
    cbn. change (restored (Machine (λ y, if decide (y = r') then load64 (ram m) (pa + q) else f y) (csrs m) (ram m)) pa l r'
      = load64 (ram m) (pa + q)).
    rewrite restored_other by done. cbn. by rewrite decide_True.
Qed.

(** ** The memory layouts the assembly shares with proc.h *)

(** [struct trapframe]: the slots of the user registers. *)
Definition trapframe_offset (r : reg) : Z :=
  match r with
  | ra => 40 | sp => 48 | gp => 56 | tp => 64 | t0 => 72 | t1 => 80 | t2 => 88
  | s0 => 96 | s1 => 104 | a0 => 112 | a1 => 120 | a2 => 128 | a3 => 136 | a4 => 144
  | a5 => 152 | a6 => 160 | a7 => 168 | s2 => 176 | s3 => 184 | s4 => 192 | s5 => 200
  | s6 => 208 | s7 => 216 | s8 => 224 | s9 => 232 | s10 => 240 | s11 => 248
  | t3 => 256 | t4 => 264 | t5 => 272 | t6 => 280
  end.
(** [struct context]. *)
Definition context_slots : list (reg * Z) :=
  [(ra, 0); (sp, 8); (s0, 16); (s1, 24); (s2, 32); (s3, 40); (s4, 48); (s5, 56);
   (s6, 64); (s7, 72); (s8, 80); (s9, 88); (s10, 96); (s11, 104)].

(** The registers trampoline.S handles uniformly: all but [a0]. *)
Definition user_slots : list (reg * Z) :=
  (λ r, (r, trapframe_offset r)) <$>
  [ra; sp; gp; tp; t0; t1; t2; s0; s1; a1; a2; a3; a4; a5; a6; a7;
   s2; s3; s4; s5; s6; s7; s8; s9; s10; s11; t3; t4; t5; t6].
(** The registers kernelvec saves on the stack. *)
Definition kernelvec_slots : list (reg * Z) :=
  [(ra, 0); (gp, 16); (t0, 32); (t1, 40); (t2, 48); (a0, 72); (a1, 80); (a2, 88);
   (a3, 96); (a4, 104); (a5, 112); (a6, 120); (a7, 128); (t3, 216); (t4, 224); (t5, 232);
   (t6, 240)].

Lemma user_slots_ok : slots user_slots 288.
Proof. by apply (bool_decide_unpack _). Qed.
Lemma context_slots_ok : slots context_slots 112.
Proof. by apply (bool_decide_unpack _). Qed.
Lemma kernelvec_slots_ok : slots kernelvec_slots 256.
Proof. by apply (bool_decide_unpack _). Qed.

Lemma user_slot r : r ≠ a0 → (r, trapframe_offset r) ∈ user_slots.
Proof. intros Hr. apply (bool_decide_unpack _). destruct r; first [done | vm_compute; exact I]. Qed.

(** A value is a double word. *)
Definition regs_ok (m : machine) : Prop := ∀ r, 0 <= regs m r < 2 ^ 64.

Section routines.
Context (walk : Z → Z → Z) (here : list instr → Z).
Implicit Types m : machine.

(** One instruction that does not jump. *)
Lemma run_cons i rest m m' :
  step walk here i rest m = (m', Continue) → run walk here (i :: rest) m = run walk here rest m'.
Proof. intros H. cbn [run]. by rewrite H. Qed.
Lemma run_jump i rest m m' a :
  step walk here i rest m = (m', Goto a) → run walk here (i :: rest) m = (m', Goto a, rest).
Proof. intros H. cbn [run]. by rewrite H. Qed.

Lemma run_ld r o b rest m pa n :
  mapped walk (csrs m satp) (regs m b) pa n → 0 <= o < n →
  run walk here (ld r o b :: rest) m = run walk here rest (set_reg r (load64 (ram m) (pa + o)) m).
Proof. intros Hm Ho. apply run_cons. cbn [step]. unfold translate. by rewrite Hm. Qed.
Lemma run_sd r o b rest m pa n :
  mapped walk (csrs m satp) (regs m b) pa n → 0 <= o < n →
  run walk here (sd r o b :: rest) m
  = run walk here rest (set_ram (λ d, store64 d (pa + o) (regs m r)) m).
Proof. intros Hm Ho. apply run_cons. cbn [step]. unfold translate. by rewrite Hm. Qed.

Lemma trampoline_shape :
  trampoline = csrw sscratch a0 :: li a0 TRAPFRAME :: saves a0 user_slots ++
    csrr t0 sscratch :: sd t0 112 a0 :: ld sp 8 a0 :: ld tp 32 a0 :: ld t0 16 a0 :: ld t1 0 a0 ::
    sfence_vma :: csrw satp t1 :: sfence_vma :: jalr t0 :: userret.
Proof. reflexivity. Qed.
Lemma userret_shape :
  userret = sfence_vma :: csrw satp a0 :: sfence_vma :: li a0 TRAPFRAME ::
    restores a0 user_slots ++ [ld a0 112 a0; sret].
Proof. reflexivity. Qed.
Lemma swtch_shape : swtch = saves a0 context_slots ++ restores a1 context_slots ++ [ret].
Proof. reflexivity. Qed.
Lemma kernelvec_shape kerneltrap :
  kernelvec kerneltrap = addi sp sp (-256) :: saves sp kernelvec_slots ++
    call kerneltrap :: restores sp kernelvec_slots ++ [addi sp sp 256; sret].
Proof. reflexivity. Qed.

(** uservec: the user's registers are in the trapframe, the kernel's stack, hart number and
    page table are in place, and usertrap() is entered so as to return to userret. *)
Lemma uservec_ok m tf :
  regs_ok m → mapped walk (csrs m satp) TRAPFRAME tf 288 →
  ∃ m1, run walk here trampoline m = (m1, Goto (load64 (ram m) (tf + 16)), userret) ∧
    regs m1 ra = here userret ∧ regs m1 sp = load64 (ram m) (tf + 8) ∧
    regs m1 tp = load64 (ram m) (tf + 32) ∧ csrs m1 satp = load64 (ram m) (tf + 0) ∧
    frame (tf + 40) 248 (ram m) (ram m1) ∧
    ∀ r, load64 (ram m1) (tf + trapframe_offset r) = regs m r.
Proof.
  intros Hr Hm. destruct user_slots_ok as (Hn1 & Hn2 & Hf).
  rewrite trampoline_shape.
  rewrite (run_cons _ _ _ (set_csr sscratch (regs m a0) m)) by done.
  set (ma := set_reg a0 TRAPFRAME (set_csr sscratch (regs m a0) m)).
  rewrite (run_cons _ _ _ ma) by done.
  rewrite (run_saves _ _ _ _ _ _ tf 288) by done.
  set (d := saved ma tf user_slots).
  (*CUT*)
  rewrite (run_cons _ _ _ (set_reg t0 (regs m a0) (Machine (regs ma) (csrs ma) d))) by done.
  rewrite (run_sd _ _ _ _ _ tf 288) by (done || lia).
  set (e := store64 d (tf + 112) (regs m a0)).
  do 4 (rewrite (run_ld _ _ _ _ _ tf 288) by (done || lia)).
  do 3 (erewrite run_cons by reflexivity).
  assert (He : ∀ o, o mod 8 = 0 → o ≠ 112 → o ∉ user_slots.*2 → load64 e (tf + o) = load64 (ram m) (tf + o)).
  { intros o Ho H1 H2. unfold e. rewrite load_store_ne by (cbn; dlia). exact (saved_other ma tf user_slots 288 o Hf Ho H2). }
  assert (Hk : ∀ o, o ∈ [0; 8; 16; 32] → load64 e (tf + o) = load64 (ram m) (tf + o)).
  { intros o Ho. repeat (apply elem_of_cons in Ho as [->|Ho]; [apply He; by apply (bool_decide_unpack _)|]).
    by apply elem_of_nil in Ho. }
  rewrite <- (Hk 16), <- (Hk 8), <- (Hk 32), <- (Hk 0) by (by apply (bool_decide_unpack _)).
  erewrite run_jump by reflexivity. eexists. split; [reflexivity|].
  do 4 (split; [reflexivity|]). split.
  - intros x Hx. cbn [ram set_reg set_ram set_csr]. rewrite (store_frame 8) by lia.
    apply (saved_frame ma tf user_slots 40 248); [by apply (bool_decide_unpack _)|lia].
  - intros r. change (load64 e (tf + trapframe_offset r) = regs m r).
    destruct (decide (r = a0)) as [->|Hne]; [by apply load64_store64|].
    unfold e. rewrite load_store_ne by (destruct r; cbn; first [done | lia]).
    rewrite (saved_lookup ma tf user_slots 288 r) by
      first [exact user_slots_ok | by apply user_slot | intros q; cbn; destruct (decide (q = a0)); [done|apply Hr]].
    cbn. by rewrite decide_False.
Qed.

Lemma userret_ok m tf :
  mapped walk (regs m a0) TRAPFRAME tf 288 →
  ∃ m', run walk here userret m = (m', Trap_return, []) ∧ csrs m' satp = regs m a0 ∧
    ram m' = ram m ∧ ∀ r, regs m' r = load64 (ram m) (tf + trapframe_offset r).
Proof.
  intros Hm. destruct user_slots_ok as (Hn1 & Hn2 & Hf). rewrite userret_shape.
  do 4 (erewrite run_cons by reflexivity).
  rewrite (run_restores _ _ _ _ _ _ tf 288) by (done || by apply (bool_decide_unpack _)).
  rewrite (run_ld _ _ _ _ _ tf 288) by
    (lia || (cbn [regs csrs]; rewrite restored_other by (by apply (bool_decide_unpack _)); done)).
  eexists. split; [reflexivity|]. split; [reflexivity|]. split; [reflexivity|].
  intros r. cbn [regs set_reg]. destruct (decide (r = a0)) as [->|Hne]; [done|].
  by rewrite (restored_lookup _ _ _ _ (trapframe_offset r)) by (done || by apply user_slot).
Qed.

(** swtch(): the registers of the thread that calls it are in [old], those of the thread it
    switches to come from [new], and control is where that thread called swtch() itself. *)
Lemma swtch_ok m old new :
  regs_ok m → mapped walk (csrs m satp) (regs m a0) old 112 →
  mapped walk (csrs m satp) (regs m a1) new 112 → old + 112 <= new ∨ new + 112 <= old →
  ∃ m', run walk here swtch m = (m', Goto (load64 (ram m) (new + 0)), []) ∧
    csrs m' = csrs m ∧ frame old 112 (ram m) (ram m') ∧
    (∀ r o, (r, o) ∈ context_slots →
       load64 (ram m') (old + o) = regs m r ∧ regs m' r = load64 (ram m) (new + o)) ∧
    (∀ r, r ∉ context_slots.*1 → regs m' r = regs m r).
Proof.
  intros Hr Ho Hn Hd. destruct context_slots_ok as (Hn1 & Hn2 & Hf). rewrite swtch_shape.
  rewrite (run_saves _ _ _ _ _ _ old 112) by done. set (mb := Machine _ _ _).
  rewrite (run_restores _ _ _ _ _ mb new 112) by (done || by apply (bool_decide_unpack _)).
  assert (Hk : ∀ r o, (r, o) ∈ context_slots → restored mb new context_slots r = load64 (ram m) (new + o)).
  { intros r o Hin. rewrite (restored_lookup _ _ _ _ o) by done.
    rewrite Forall_forall in Hf. specialize (Hf _ Hin). cbn in Hf.
    apply (load_frame 8 _ _ _ old 112); [|cbn; lia]. exact (slots_frame m old _ _ context_slots_ok). }
  rewrite <- (Hk ra 0) by (by apply (bool_decide_unpack _)).
  erewrite run_jump by reflexivity. eexists. split; [reflexivity|]. split; [reflexivity|].
  split; [exact (slots_frame m old _ _ context_slots_ok)|]. split.
  - intros r o Hin. split; [|by apply Hk]. by apply (saved_lookup m old context_slots 112 r).
  - intros r Hin. exact (restored_other mb new context_slots r Hin).
Qed.
End routines.

(** ** What the routines promise *)

(** C14: A trap is invisible to the user program. uservec leaves every user register in its
    slot of the trapframe (and touches nothing else), enters usertrap() through
    [kernel_trap] on the kernel's stack, hart number and page table, with userret as its return
    address; userret, given the user page table in [a0], returns to user mode with every
    register loaded from the same slots. So each register whose slot the kernel left alone has
    the value it had at the trap, and a slot the kernel rewrote (the result in [a0], the
    arguments exec() sets) is what the program sees. *)
Theorem trap_roundtrip walk here m tf :
  regs_ok m → mapped walk (csrs m satp) TRAPFRAME tf 288 →
  ∃ m1, run walk here trampoline m = (m1, Goto (load64 (ram m) (tf + 16)), userret) ∧
    regs m1 ra = here userret ∧ regs m1 sp = load64 (ram m) (tf + 8) ∧
    regs m1 tp = load64 (ram m) (tf + 32) ∧ csrs m1 satp = load64 (ram m) (tf + 0) ∧
    frame (tf + 40) 248 (ram m) (ram m1) ∧
    ∀ m2, mapped walk (regs m2 a0) TRAPFRAME tf 288 →
    ∃ m3, run walk here userret m2 = (m3, Trap_return, []) ∧ csrs m3 satp = regs m2 a0 ∧
      ram m3 = ram m2 ∧
      (∀ r, regs m3 r = load64 (ram m2) (tf + trapframe_offset r)) ∧
      (∀ r, load64 (ram m2) (tf + trapframe_offset r) = load64 (ram m1) (tf + trapframe_offset r) →
         regs m3 r = regs m r).
Proof.
  intros Hr Hm. destruct (uservec_ok walk here m tf Hr Hm) as (m1 & E1 & H1 & H2 & H3 & H4 & H5 & H6).
  exists m1. do 6 (split; [done|]). intros m2 Hm2.
  destruct (userret_ok walk here m2 tf Hm2) as (m3 & E3 & H7 & H8 & H9).
  exists m3. do 4 (split; [done|]). intros r Hk. by rewrite H9, Hk, H6.
Qed.

Definition sample_machine : machine :=
  Machine (λ r, if decide (r = a0) then 4096 else 7) (λ _, 0) (λ _, 0).
Lemma sample_mapped va : 0 <= va < 2 ^ 63 → mapped (λ _ va, va) 0 va va 288.
Proof. intros H o Ho. apply u64_small. lia. Qed.
Lemma sample_regs_ok : regs_ok sample_machine.
Proof. intros r. cbn. case_decide; lia. Qed.

Lemma trap_roundtrip_witness :
  ∃ m1, run (λ _ va, va) (λ _, 0) trampoline sample_machine = (m1, Goto 0, userret) ∧ regs m1 ra = 0.
Proof.
  destruct (trap_roundtrip (λ _ va, va) (λ _, 0) sample_machine TRAPFRAME) as (m1 & E & H & _).
  - exact sample_regs_ok.
  - apply sample_mapped. by vm_compute.
  - exists m1. split; [|exact H]. exact E.
Defined.

(** C33: A thread that gives the CPU away in swtch() resumes exactly where it left off. Once
    swtch(old, new) has run, any later swtch(other, old), on whichever hart and after whatever
    code left the [struct context] at [old] alone, continues at the first caller's return
    address with its stack pointer and its twelve callee-saved registers. *)
Theorem swtch_resumes walk here m m2 old new other :
  regs_ok m → regs_ok m2 →
  mapped walk (csrs m satp) (regs m a0) old 112 → mapped walk (csrs m satp) (regs m a1) new 112 →
  old + 112 <= new ∨ new + 112 <= old →
  mapped walk (csrs m2 satp) (regs m2 a0) other 112 → mapped walk (csrs m2 satp) (regs m2 a1) old 112 →
  other + 112 <= old ∨ old + 112 <= other →
  ∃ m1, run walk here swtch m = (m1, Goto (load64 (ram m) (new + 0)), []) ∧
    frame old 112 (ram m) (ram m1) ∧
    ((∀ x, old <= x < old + 112 → ram m2 x = ram m1 x) →
     ∃ m3, run walk here swtch m2 = (m3, Goto (regs m ra), []) ∧
       ∀ r, r ∈ context_slots.*1 → regs m3 r = regs m r).
Proof.
  intros Hr Hr2 Ho Hn Hd Ho2 Hn2 Hd2.
  destruct (swtch_ok walk here m old new Hr Ho Hn Hd) as (m1 & E1 & _ & Hf & Hk & _).
  exists m1. split; [done|]. split; [done|]. intros Hsame.
  destruct (swtch_ok walk here m2 other old Hr2 Ho2 Hn2 Hd2) as (m3 & E3 & _ & _ & Hk3 & _).
  assert (Hl : ∀ r o, (r, o) ∈ context_slots → load64 (ram m2) (old + o) = regs m r).
  { intros r o Hin. rewrite <- (proj1 (Hk r o Hin)).
    destruct context_slots_ok as (_ & _ & Hb). rewrite Forall_forall in Hb.
    specialize (Hb _ Hin). cbn in Hb. apply load_ext. intros x Hx. apply Hsame. cbn in Hx. lia. }
  exists m3. split.
  - rewrite E3. rewrite (Hl ra 0) by (by apply (bool_decide_unpack _)). done.
  - intros r Hin. apply list_elem_of_fmap in Hin as ([r' o] & -> & Hin).
    cbn [fst]. rewrite (proj2 (Hk3 r' o Hin)). by apply Hl.
Qed.

Definition switched_machine : machine :=
  Machine (λ r, if decide (r = a1) then 4096 else if decide (r = a0) then 8192 else 9) (λ _, 0)
    (λ x, if 4096 <=? x then 7 else 0).
Lemma swtch_resumes_witness :
  ∃ m1, run (λ _ va, va) (λ _, 0) swtch sample_machine = (m1, Goto 0, []).
Proof.
  assert (H : ∀ va n, 0 <= va < 2 ^ 63 → 0 <= n <= 288 → mapped (λ _ va, va) 0 va va n)
    by (intros va n Hv Hn o Ho; apply u64_small; lia).
  destruct (swtch_resumes (λ _ va, va) (λ _, 0) sample_machine switched_machine 4096 7 8192) as (m1 & E & _).
  - exact sample_regs_ok.
  - intros r. cbn. repeat case_decide; lia.
  - apply H; lia.
  - apply H; lia.
  - lia.
  - apply H; lia.
  - apply H; lia.
  - lia.
  - exists m1. exact E.
Defined.

(** The registers a C function hands back as it found them. *)
Definition callee_saved : list reg := [sp; s0; s1; s2; s3; s4; s5; s6; s7; s8; s9; s10; s11].

(** kernelvec up to its call, and from there on. *)
Lemma kernelvec_save_ok walk here kerneltrap m base :
  regs_ok m → 256 <= regs m sp → mapped walk (csrs m satp) (regs m sp - 256) base 256 →
  ∃ m1, run walk here (kernelvec kerneltrap) m
      = (m1, Goto kerneltrap, restores sp kernelvec_slots ++ [addi sp sp 256; sret]) ∧
    regs m1 ra = here (restores sp kernelvec_slots ++ [addi sp sp 256; sret]) ∧
    regs m1 sp = regs m sp - 256 ∧ frame base 256 (ram m) (ram m1) ∧
    (∀ r, r ≠ ra → r ≠ sp → regs m1 r = regs m r) ∧
    (∀ r o, (r, o) ∈ kernelvec_slots → load64 (ram m1) (base + o) = regs m r).
Proof.
  intros Hr Hsp Hm. destruct kernelvec_slots_ok as (Hn1 & Hn2 & Hf). rewrite kernelvec_shape.
  assert (Hu : u64 (regs m sp + -256) = regs m sp - 256) by (specialize (Hr sp); apply u64_small; lia).
  set (ma := set_reg sp (regs m sp - 256) m).
  rewrite (run_cons _ _ _ _ _ ma) by (cbn [step]; by rewrite Hu).
  rewrite (run_saves _ _ _ _ _ ma base 256) by done.
  erewrite run_jump by reflexivity. eexists. split; [reflexivity|]. split; [reflexivity|].
  split; [reflexivity|]. split; [|split].
  - exact (slots_frame ma base _ _ kernelvec_slots_ok).
  - intros r H1 H2. cbn [regs set_reg]. rewrite decide_False by done. cbn. by rewrite decide_False.
  - intros r o Hin. cbn [ram set_reg].
    rewrite (saved_lookup ma base kernelvec_slots 256 r o) by
      first [exact kernelvec_slots_ok | done | intros q; cbn; case_decide; [subst; specialize (Hr sp); lia | apply Hr]].
    cbn. rewrite decide_False; [done|]. intros ->.
    apply (list_elem_of_fmap_2 fst) in Hin. revert Hin. by apply (bool_decide_unpack _).
Qed.
Lemma kernelvec_restore_ok walk here m base :
  0 <= regs m sp → regs m sp + 256 < 2 ^ 64 → mapped walk (csrs m satp) (regs m sp) base 256 →
  ∃ m', run walk here (restores sp kernelvec_slots ++ [addi sp sp 256; sret]) m = (m', Trap_return, []) ∧
    ram m' = ram m ∧ regs m' sp = regs m sp + 256 ∧
    (∀ r o, (r, o) ∈ kernelvec_slots → regs m' r = load64 (ram m) (base + o)) ∧
    (∀ r, r ∉ kernelvec_slots.*1 → r ≠ sp → regs m' r = regs m r).
Proof.
  intros H0 Hsp Hm. destruct kernelvec_slots_ok as (Hn1 & Hn2 & Hf).
  rewrite (run_restores _ _ _ _ _ m base 256) by (done || by apply (bool_decide_unpack _)).
  set (mb := Machine _ _ _).
  assert (Hb : regs mb sp = regs m sp) by (apply restored_other; by apply (bool_decide_unpack _)).
  rewrite (run_cons _ _ _ _ _ (set_reg sp (regs m sp + 256) mb)) by
    (cbn [step]; rewrite Hb, u64_small by lia; done).
  eexists. split; [reflexivity|]. split; [reflexivity|]. split; [reflexivity|]. split.
  - intros r o Hin. cbn [regs set_reg]. rewrite decide_False.
    + by apply restored_lookup.
    + intros ->. apply (list_elem_of_fmap_2 fst) in Hin. revert Hin. by apply (bool_decide_unpack _).
  - intros r Hn Hne. cbn [regs set_reg]. rewrite decide_False by done. by apply restored_other.
Qed.
Lemma reg_cases r : r ≠ tp → r ∈ kernelvec_slots.*1 ∨ (r ∉ kernelvec_slots.*1 ∧ r ∈ callee_saved ∧ r ≠ ra).
Proof. intros Hr. apply (bool_decide_unpack _). destruct r; first [done | by vm_compute]. Qed.

(** C34: An interrupt taken in the kernel is invisible to the code it interrupts. kernelvec
    calls kerneltrap() with the stack pointer 256 bytes down; when kerneltrap() returns, having
    kept the callee-saved registers and those 256 bytes as every C function does, kernelvec
    returns from the trap with every register but [tp] as it was. [tp] is the number of the hart
    that resumes the thread, which is not the one that was interrupted if it was rescheduled. *)
Theorem kernelvec_transparent walk here kerneltrap m base :
  regs_ok m → 256 <= regs m sp → mapped walk (csrs m satp) (regs m sp - 256) base 256 →
  ∃ m1 restore, run walk here (kernelvec kerneltrap) m = (m1, Goto kerneltrap, restore) ∧
    regs m1 ra = here restore ∧ regs m1 sp = regs m sp - 256 ∧ frame base 256 (ram m) (ram m1) ∧
    ∀ m2, (∀ r, r ∈ callee_saved → regs m2 r = regs m1 r) → csrs m2 satp = csrs m satp →
      (∀ x, base <= x < base + 256 → ram m2 x = ram m1 x) →
    ∃ m3, run walk here restore m2 = (m3, Trap_return, []) ∧ ram m3 = ram m2 ∧
      regs m3 tp = regs m2 tp ∧ ∀ r, r ≠ tp → regs m3 r = regs m r.
Proof.
  intros Hr Hsp Hm.
  destruct (kernelvec_save_ok walk here kerneltrap m base Hr Hsp Hm) as (m1 & E1 & Hra & Hs & Hf & Hk & Hl).
  exists m1. eexists. do 4 (split; [done|]). intros m2 Hc Hcs Hmem. pose proof (Hr sp) as Hrs.
  assert (Hs2 : regs m2 sp = regs m sp - 256) by (rewrite Hc; [done | by apply (bool_decide_unpack _)]).
  destruct (kernelvec_restore_ok walk here m2 base) as (m3 & E3 & H1 & H2 & H3 & H4);
    [lia | lia | by rewrite Hcs, Hs2 |].
  exists m3. split; [done|]. split; [done|]. split; [apply H4; [by apply (bool_decide_unpack _)|done]|].
  intros r Hne. destruct (decide (r = sp)) as [->|Hn]; [lia|].
  destruct (reg_cases r Hne) as [Hin|(Hin & Hcs2 & Hra2)].
  - apply list_elem_of_fmap in Hin as ([r' o] & -> & Hin). cbn [fst]. rewrite (H3 r' o Hin), <- (Hl r' o Hin).
    destruct kernelvec_slots_ok as (_ & _ & Hb). rewrite Forall_forall in Hb. specialize (Hb _ Hin).
    cbn in Hb. apply load_ext. intros x Hx. apply Hmem. cbn in Hx. lia.
  - rewrite H4, Hc by done. by apply Hk.
Qed.
Lemma kernelvec_transparent_witness :
  ∃ m1 restore, run (λ _ va, va) (λ _, 0) (kernelvec 64) (Machine (λ _, 4096) (λ _, 0) (λ _, 0))
    = (m1, Goto 64, restore).
Proof.
  destruct (kernelvec_transparent (λ _ va, va) (λ _, 0) 64 (Machine (λ _, 4096) (λ _, 0) (λ _, 0)) 3840)
    as (m1 & l & E & _).
  - intros r. cbn. lia.
  - cbn. lia.
  - intros o Ho. cbn. rewrite u64_small; lia.
  - exists m1, l. exact E.
Defined.

(** Each hart enters start() on its own 4096 bytes of [stack0]. *)
Lemma entry_stack walk here stack0 start spin m :
  0 <= csrs m mhartid < 8 → 0 <= stack0 → stack0 + 4096 * 8 < 2 ^ 64 →
  ∃ m', run walk here (_entry stack0 start spin) m = (m', Goto start, [j spin]) ∧
    regs m' sp = stack0 + 4096 * csrs m mhartid + 4096 ∧ ram m' = ram m.
Proof.
  intros Hh H0 Hs. eexists. split; [reflexivity|]. split; [|reflexivity].
  change (u64 (stack0 + u64 (1024 * 4 * u64 (csrs m mhartid + 1)))
    = stack0 + 4096 * csrs m mhartid + 4096).
  rewrite (u64_small (csrs m mhartid + 1)), (u64_small (_ * _)), u64_small by lia. lia.
Qed.
