(* ===== verification/Start.v ===== *)
(** Machine mode: start() and timerinit() of kernel/start.c, with the accessors of
    kernel/riscv.h they use, from the jump of entry.S to the [mret] that enters main() in
    supervisor mode. A register holds what was last written to it. *)
From S2P Require Import Prelude.

Inductive privilege := User_mode | Supervisor_mode | Machine_mode.

(** The registers of one hart that start() reads or writes. *)
Record hart := Hart {
  h_mode : privilege; h_pc : Z; h_tp : Z;
  h_mhartid : Z; h_time : Z;
  h_mstatus : Z; h_mepc : Z; h_satp : Z; h_medeleg : Z; h_mideleg : Z; h_sie : Z;
  h_pmpaddr0 : Z; h_pmpcfg0 : Z; h_menvcfg : Z; h_mcounteren : Z; h_stimecmp : Z
}.

(** ** kernel/riscv.h *)

Definition MSTATUS_MPP_MASK : Z := Z.shiftl 3 11.
Definition MSTATUS_MPP_S : Z := Z.shiftl 1 11.
Definition SIE_SEIE : Z := Z.shiftl 1 9.
Definition SIE_STIE : Z := Z.shiftl 1 5.

Definition r_mhartid (h : hart) : Z := h_mhartid h.
Definition r_mstatus (h : hart) : Z := h_mstatus h.
Definition r_sie (h : hart) : Z := h_sie h.
Definition r_menvcfg (h : hart) : Z := h_menvcfg h.
Definition r_mcounteren (h : hart) : Z := h_mcounteren h.
Definition r_time (h : hart) : Z := h_time h.

Definition w_mstatus (x : Z) (h : hart) : hart :=
  Hart (h_mode h) (h_pc h) (h_tp h) (h_mhartid h) (h_time h) x (h_mepc h) (h_satp h)
    (h_medeleg h) (h_mideleg h) (h_sie h) (h_pmpaddr0 h) (h_pmpcfg0 h) (h_menvcfg h)
    (h_mcounteren h) (h_stimecmp h).
Definition w_mepc (x : Z) (h : hart) : hart :=
  Hart (h_mode h) (h_pc h) (h_tp h) (h_mhartid h) (h_time h) (h_mstatus h) x (h_satp h)
    (h_medeleg h) (h_mideleg h) (h_sie h) (h_pmpaddr0 h) (h_pmpcfg0 h) (h_menvcfg h)
    (h_mcounteren h) (h_stimecmp h).
Definition w_satp (x : Z) (h : hart) : hart :=
  Hart (h_mode h) (h_pc h) (h_tp h) (h_mhartid h) (h_time h) (h_mstatus h) (h_mepc h) x
    (h_medeleg h) (h_mideleg h) (h_sie h) (h_pmpaddr0 h) (h_pmpcfg0 h) (h_menvcfg h)
    (h_mcounteren h) (h_stimecmp h).
Definition w_medeleg (x : Z) (h : hart) : hart :=
  Hart (h_mode h) (h_pc h) (h_tp h) (h_mhartid h) (h_time h) (h_mstatus h) (h_mepc h) (h_satp h)
    x (h_mideleg h) (h_sie h) (h_pmpaddr0 h) (h_pmpcfg0 h) (h_menvcfg h) (h_mcounteren h)
    (h_stimecmp h).
Definition w_mideleg (x : Z) (h : hart) : hart :=
  Hart (h_mode h) (h_pc h) (h_tp h) (h_mhartid h) (h_time h) (h_mstatus h) (h_mepc h) (h_satp h)
    (h_medeleg h) x (h_sie h) (h_pmpaddr0 h) (h_pmpcfg0 h) (h_menvcfg h) (h_mcounteren h)
    (h_stimecmp h).
Definition w_sie (x : Z) (h : hart) : hart :=
  Hart (h_mode h) (h_pc h) (h_tp h) (h_mhartid h) (h_time h) (h_mstatus h) (h_mepc h) (h_satp h)
    (h_medeleg h) (h_mideleg h) x (h_pmpaddr0 h) (h_pmpcfg0 h) (h_menvcfg h) (h_mcounteren h)
    (h_stimecmp h).
Definition w_pmpaddr0 (x : Z) (h : hart) : hart :=
  Hart (h_mode h) (h_pc h) (h_tp h) (h_mhartid h) (h_time h) (h_mstatus h) (h_mepc h) (h_satp h)
    (h_medeleg h) (h_mideleg h) (h_sie h) x (h_pmpcfg0 h) (h_menvcfg h) (h_mcounteren h)
    (h_stimecmp h).
Definition w_pmpcfg0 (x : Z) (h : hart) : hart :=
  Hart (h_mode h) (h_pc h) (h_tp h) (h_mhartid h) (h_time h) (h_mstatus h) (h_mepc h) (h_satp h)
    (h_medeleg h) (h_mideleg h) (h_sie h) (h_pmpaddr0 h) x (h_menvcfg h) (h_mcounteren h)
    (h_stimecmp h).
Definition w_menvcfg (x : Z) (h : hart) : hart :=
  Hart (h_mode h) (h_pc h) (h_tp h) (h_mhartid h) (h_time h) (h_mstatus h) (h_mepc h) (h_satp h)
    (h_medeleg h) (h_mideleg h) (h_sie h) (h_pmpaddr0 h) (h_pmpcfg0 h) x (h_mcounteren h)
    (h_stimecmp h).
Definition w_mcounteren (x : Z) (h : hart) : hart :=
  Hart (h_mode h) (h_pc h) (h_tp h) (h_mhartid h) (h_time h) (h_mstatus h) (h_mepc h) (h_satp h)
    (h_medeleg h) (h_mideleg h) (h_sie h) (h_pmpaddr0 h) (h_pmpcfg0 h) (h_menvcfg h) x
    (h_stimecmp h).
Definition w_stimecmp (x : Z) (h : hart) : hart :=
  Hart (h_mode h) (h_pc h) (h_tp h) (h_mhartid h) (h_time h) (h_mstatus h) (h_mepc h) (h_satp h)
    (h_medeleg h) (h_mideleg h) (h_sie h) (h_pmpaddr0 h) (h_pmpcfg0 h) (h_menvcfg h)
    (h_mcounteren h) x.
Definition w_tp (x : Z) (h : hart) : hart :=
  Hart (h_mode h) (h_pc h) x (h_mhartid h) (h_time h) (h_mstatus h) (h_mepc h) (h_satp h)
    (h_medeleg h) (h_mideleg h) (h_sie h) (h_pmpaddr0 h) (h_pmpcfg0 h) (h_menvcfg h)
    (h_mcounteren h) (h_stimecmp h).

(** [mret]: the mode and the program counter come from MPP and mepc; MPP becomes U, MIE the
    saved MPIE, and MPIE is set. *)
Definition mret (h : hart) : hart :=
  let mpp := Z.land (Z.shiftr (h_mstatus h) 11) 3 in
  let mpie := Z.land (Z.shiftr (h_mstatus h) 7) 1 in
  let x := Z.ldiff (h_mstatus h) (Z.lor MSTATUS_MPP_MASK (Z.lor (Z.shiftl 1 3) (Z.shiftl 1 7))) in
  let h' := w_mstatus (Z.lor x (Z.lor (Z.shiftl mpie 3) (Z.shiftl 1 7))) h in
  Hart (if mpp =? 3 then Machine_mode else if mpp =? 1 then Supervisor_mode else User_mode)
    (h_mepc h) (h_tp h') (h_mhartid h') (h_time h') (h_mstatus h') (h_mepc h') (h_satp h')
    (h_medeleg h') (h_mideleg h') (h_sie h') (h_pmpaddr0 h') (h_pmpcfg0 h') (h_menvcfg h')
    (h_mcounteren h') (h_stimecmp h').

(** ** kernel/start.c *)

Definition timerinit (h : hart) : hart :=
  let h := w_menvcfg (Z.lor (r_menvcfg h) (Z.shiftl 1 63)) h in
  let h := w_mcounteren (Z.lor (r_mcounteren h) 2) h in
  w_stimecmp (u64 (r_time h + 1000000)) h.

(** [main] is the address of main(). *)
Definition start (main : Z) (h : hart) : hart :=
  let x := r_mstatus h in
  let x := Z.land x (u64 (Z.lnot MSTATUS_MPP_MASK)) in
  let x := Z.lor x MSTATUS_MPP_S in
  let h := w_mstatus x h in
  let h := w_mepc main h in
  let h := w_satp 0 h in
  let h := w_medeleg 0xffff h in
  let h := w_mideleg 0xffff h in
  let h := w_sie (Z.lor (Z.lor (r_sie h) SIE_SEIE) SIE_STIE) h in
  let h := w_pmpaddr0 0x3fffffffffffff h in
  let h := w_pmpcfg0 0xf h in
  let h := timerinit h in
  let id := i32 (r_mhartid h) in
  let h := w_tp (u64 id) h in
  mret h.

(** ** What the kernel proper starts from *)

(** Whatever mstatus holds, the mode start() leaves it to [mret] to enter is supervisor mode. *)
Lemma mpp_supervisor x :
  Z.land (Z.shiftr (Z.lor (Z.land x (u64 (Z.lnot MSTATUS_MPP_MASK))) MSTATUS_MPP_S) 11) 3 = 1.
Proof.
  apply Z.bits_inj'. intros n Hn.
  rewrite Z.land_spec, Z.shiftr_spec, Z.lor_spec, Z.land_spec by done.
  destruct (decide (n = 0)) as [->|H0]; [by rewrite andb_false_r|].
  destruct (decide (n = 1)) as [->|H1]; [by rewrite andb_false_r|].
  rewrite (Z.bits_above_log2 3), (Z.bits_above_log2 1) by (cbn; lia). by rewrite andb_false_r.
Qed.

(** start() enters main() in supervisor mode with paging off, every interrupt and exception
    delegated, external and timer interrupts enabled, all of memory accessible, the timer
    armed, and the number of the hart in tp. *)
Theorem start_correct main h :
  0 <= h_mhartid h < 2 ^ 31 →
  let h' := start main h in
  h_mode h' = Supervisor_mode ∧ h_pc h' = main ∧ h_satp h' = 0 ∧
  h_medeleg h' = 0xffff ∧ h_mideleg h' = 0xffff ∧
  Z.testbit (h_sie h') 9 = true ∧ Z.testbit (h_sie h') 5 = true ∧
  Z.testbit (h_menvcfg h') 63 = true ∧ Z.testbit (h_mcounteren h') 1 = true ∧
  h_stimecmp h' = u64 (h_time h + 1000000) ∧ h_tp h' = h_mhartid h ∧
  (h_pmpaddr0 h', h_pmpcfg0 h') = (0x3fffffffffffff, 0xf).
Proof.
  intros Hh h'. split.
  { change (h_mode h') with (let mpp := Z.land (Z.shiftr (Z.lor (Z.land (h_mstatus h)
      (u64 (Z.lnot MSTATUS_MPP_MASK))) MSTATUS_MPP_S) 11) 3 in
      if mpp =? 3 then Machine_mode else if mpp =? 1 then Supervisor_mode else User_mode).
    by rewrite mpp_supervisor. }
  do 4 (split; [reflexivity|]).
  unfold h', start, timerinit, mret. cbn [h_sie h_menvcfg h_mcounteren h_stimecmp h_tp h_time
    h_mhartid h_pmpaddr0 h_pmpcfg0 w_tp w_stimecmp w_mcounteren w_menvcfg w_pmpcfg0 w_pmpaddr0
    w_sie w_mideleg w_medeleg w_satp w_mepc w_mstatus r_sie r_menvcfg r_mcounteren r_time r_mhartid].
  rewrite !Z.lor_spec, (i32_small (h_mhartid h)), (u64_small (h_mhartid h)) by lia.
  repeat split; by rewrite ?orb_true_r.
Qed.
