(* ===== verification/Kalloc.v ===== *)
(** The physical page allocator: kernel/kalloc.c.

    The free list is threaded through the free pages themselves, in the bytes of
    [mem], with its head in [freelist]; 0 is the null pointer. *)
From S2P Require Import Prelude Pstat Kernel Spinlock Cstring Riscv.

Definition wmem (f : memory → memory) : K unit := modify (λ s, set_mem (f (mem s)) s).

(** ** Operations *)

Section kalloc.
Context {img : Image}.

Definition kfree (pa : Z) : K unit :=
  if negb (pa mod PGSIZE =? 0) || (pa <? end_) || (PHYSTOP <=? pa) then panic "kfree" else
  wmem (λ m, memset m pa 1 PGSIZE) ;;
  acquire L_kmem ;;
  f <- get freelist ;;
  wmem (λ m, store64 m pa f) ;;
  modify (set_freelist pa) ;;
  release L_kmem.

Definition kalloc : K Z :=
  acquire L_kmem ;;
  r <- get freelist ;;
  when (negb (r =? 0)) (n <- get (λ s, load64 (mem s) r) ;; modify (set_freelist n)) ;;
  release L_kmem ;;
  when (negb (r =? 0)) (wmem (λ m, memset m r 5 PGSIZE)) ;;
  ret r.

(** The loop of freerange(): at most one iteration per page of the range. *)
Fixpoint freerange_loop (fuel : nat) (p pa_end : Z) : K unit :=
  match fuel with
  | O => hang
  | S fuel =>
      if p + PGSIZE <=? pa_end then kfree p ;; freerange_loop fuel (p + PGSIZE) pa_end
      else ret tt
  end.
Definition freerange (pa_start pa_end : Z) : K unit :=
  freerange_loop (Z.to_nat ((pa_end - pa_start) / PGSIZE + 1)) (PGROUNDUP pa_start) pa_end.

Definition kinit : K unit :=
  initlock L_kmem ;;
  freerange end_ PHYSTOP.

(** ** The free list *)

Definition page_ok (p : Z) : Prop := p mod PGSIZE = 0 ∧ end_ <= p ∧ p < PHYSTOP.

(** [chain m r l]: following [next] from [r] visits the pages [l]. *)
Fixpoint chain (m : memory) (r : Z) (l : list Z) : Prop :=
  match l with
  | [] => r = 0
  | p :: l => r = p ∧ chain m (load64 m p) l
  end.

(** The allocator's state: [l] are the free pages, in the order they will be
    handed out. *)
Record kmem_ok (s : kernel) (l : list Z) : Prop := {
  km_chain : chain (mem s) (freelist s) l;
  km_nodup : NoDup l;
  km_pages : Forall page_ok l;
}.

(** Two pages are the same or do not overlap. *)
Lemma page_disjoint p q :
  p mod PGSIZE = 0 → q mod PGSIZE = 0 → p ≠ q → p + PGSIZE <= q ∨ q + PGSIZE <= p.
Proof.
  intros Hp Hq Hne. unfold PGSIZE in *.
  pose proof (Z.div_mod p 4096). pose proof (Z.div_mod q 4096). lia.
Qed.

Lemma page_ok_pos p : page_ok p → 0 < p < 2 ^ 32.
Proof.
  intros (? & ? & ?). pose proof end_range. unfold PHYSTOP, KERNBASE in *. lia.
Qed.

Lemma chain_frame m m' r l a :
  a mod PGSIZE = 0 → frame a PGSIZE m m' → Forall page_ok l → a ∉ l →
  chain m r l → chain m' r l.
Proof.
  intros Ha Hf. revert r. induction l as [|p l IH]; intros r Hl Hn Hc; [done|].
  apply Forall_cons in Hl as [Hp Hl]. apply not_elem_of_cons in Hn as [Hne Hn].
  destruct Hc as [-> Hc]. split; [done|].
  rewrite (load_frame 8 m m' p a PGSIZE Hf); [by apply IH|].
  destruct (page_disjoint p a (proj1 Hp) Ha ltac:(congruence)); unfold PGSIZE in *; lia.
Qed.

Lemma kmem_ok_frame s s' l a :
  a mod PGSIZE = 0 → frame a PGSIZE (mem s) (mem s') → a ∉ l →
  freelist s' = freelist s → kmem_ok s l → kmem_ok s' l.
Proof.
  intros Ha Hf Hn Hfl [Hc Hd Hp]. split; [|done..]. rewrite Hfl.
  by apply (chain_frame (mem s) _ _ _ a).
Qed.

(** ** The operations on the free list *)

(** The lock is free and the hart is in order: what every caller provides. *)
Definition kmem_free (s : kernel) : Prop := cpu_ok (cur s) ∧ locks s !! L_kmem = None.

Lemma kmem_free_settle s m f : kmem_free s → kmem_free (set_mem m (set_freelist f (settle s))).
Proof. intros [? ?]. split; [by apply cpu_ok_settled | done]. Qed.

(** Releasing the lock taken by acquire_ok(), after any change to the memory. *)
Lemma release_kmem s s1 :
  kmem_free s → cur s1 = pushed (cur s) → hartid s1 = hartid s →
  locks s1 = <[L_kmem := hartid s]> (locks s) →
  release L_kmem s1 = Ok tt (set_cur (settled (cur s)) (set_locks (locks s) s1)).
Proof.
  intros [Hok Hl] Hc Hh Hlk. rewrite (release_ok _ _ (cur s)) by (done || by rewrite Hlk, Hh, lookup_insert_eq).
  by rewrite Hlk, delete_insert_id.
Qed.

Lemma kalloc_empty s : kmem_free s → kmem_ok s [] → kalloc s = Ok 0 (settle s).
Proof.
  intros Hs [Hc _ _]. simpl in Hc. unfold kalloc.
  rewrite (bind_Ok _ _ _ _ _ (acquire_ok _ _ (proj2 Hs))). ksteps. simpl. rewrite Hc. simpl. ksteps.
  erewrite bind_Ok by (apply (release_kmem s); done). ksteps.
  reflexivity.
Qed.

(** A non-empty list gives its first page, filled with junk. *)
Definition alloc_state (r f : Z) (s : kernel) : kernel :=
  set_mem (memset (mem s) r 5 PGSIZE) (set_freelist f (settle s)).

Lemma kalloc_pop s r l :
  kmem_free s → kmem_ok s (r :: l) →
  kalloc s = Ok r (alloc_state r (load64 (mem s) r) s).
Proof.
  intros Hs [[Hf Hc] _ Hp]. apply Forall_cons in Hp as [Hp _].
  pose proof (page_ok_pos r Hp). unfold kalloc.
  rewrite (bind_Ok _ _ _ _ _ (acquire_ok _ _ (proj2 Hs))). ksteps. simpl. rewrite Hf.
  destruct (r =? 0) eqn:E; [lia|]. ksteps.
  erewrite bind_Ok by (ksteps; reflexivity).
  erewrite bind_Ok by (apply (release_kmem s); done).
  unfold wmem. ksteps. reflexivity.
Qed.

Lemma kalloc_pop_ok s r l :
  kmem_ok s (r :: l) → kmem_ok (alloc_state r (load64 (mem s) r) s) l.
Proof.
  intros [[Hf Hc] Hd Hp]. apply NoDup_cons in Hd as [Hr Hd]. apply Forall_cons in Hp as [Hp Hl].
  split; [|done..]. simpl. apply (chain_frame (mem s) _ _ _ r); try done; [apply Hp|].
  apply (memset_frame (mem s) r 5 PGSIZE).
Qed.

(** Freeing pushes the page, filled with junk but for the link. *)
Definition free_state (pa : Z) (s : kernel) : kernel :=
  set_mem (store64 (memset (mem s) pa 1 PGSIZE) pa (freelist s)) (set_freelist pa (settle s)).

Lemma kfree_push s pa :
  kmem_free s → page_ok pa → kfree pa s = Ok tt (free_state pa s).
Proof.
  intros Hs (Ha & Hlo & Hhi). unfold kfree. rewrite Ha. simpl.
  destruct ((pa <? end_) || (PHYSTOP <=? pa)) eqn:E; [blia|]. unfold wmem at 1. ksteps.
  erewrite bind_Ok by (apply acquire_ok; apply Hs). ksteps. unfold wmem. ksteps.
  rewrite (release_kmem s) by done. by destruct s.
Qed.

Lemma kfree_bad s pa : ¬ page_ok pa → kfree pa s = Panic "kfree".
Proof.
  intros Hp. unfold kfree, page_ok in *. destruct (_ || _) eqn:E; [done|]. exfalso. apply Hp. blia.
Qed.

Lemma free_state_mem_frame pa s : frame pa PGSIZE (mem s) (mem (free_state pa s)).
Proof.
  intros x Hx. simpl. rewrite store_frame by (unfold PGSIZE in *; lia).
  by apply (memset_frame (mem s) pa 1 PGSIZE).
Qed.

Lemma kfree_push_ok s l pa :
  kmem_ok s l → page_ok pa → pa ∉ l → 0 <= freelist s < 2 ^ 64 →
  kmem_ok (free_state pa s) (pa :: l).
Proof.
  intros [Hc Hd Hl] Hp Hn Hf. split; [|by constructor..]. split; [done|].
  change (mem (free_state pa s)) with (store64 (memset (mem s) pa 1 PGSIZE) pa (freelist s)).
  rewrite load64_store64 by done.
  apply (chain_frame (mem s) _ _ _ pa); try done; [apply Hp | apply free_state_mem_frame].
Qed.

Lemma kmem_freelist_range s l : kmem_ok s l → 0 <= freelist s < 2 ^ 64.
Proof.
  intros [Hc _ Hp]. destruct l as [|p l]; simpl in Hc; [lia|]. destruct Hc as [-> _].
  apply Forall_cons in Hp as [Hp _]. pose proof (page_ok_pos p Hp). lia.
Qed.

(** ** kinit() *)

Fixpoint pages (p : Z) (n : nat) : list Z :=
  match n with O => [] | S n => p :: pages (p + PGSIZE) n end.

Lemma elem_of_pages p n q :
  q ∈ pages p n ↔ ∃ i, 0 <= i < Z.of_nat n ∧ q = p + i * PGSIZE.
Proof.
  revert p. induction n as [|n IH]; intros p; cbn [pages].
  - split; [by intros ?%elem_of_nil | intros (i & ? & _); lia].
  - rewrite elem_of_cons, IH. split.
    + intros [->|(i & Hi & ->)]; [exists 0; lia | exists (i + 1); lia].
    + intros (i & Hi & ->). destruct (decide (i = 0)); [left; lia|].
      right. exists (i - 1). lia.
Qed.

Lemma freerange_loop_ok n fuel p pa_end l s :
  (n < fuel)%nat → p mod PGSIZE = 0 → end_ <= p →
  p + Z.of_nat n * PGSIZE <= pa_end < p + (Z.of_nat n + 1) * PGSIZE → pa_end <= PHYSTOP →
  kmem_free s → kmem_ok s l → (∀ q, q ∈ l → q < p) →
  ∃ s', freerange_loop fuel p pa_end s = Ok tt s' ∧ kmem_free s'
        ∧ kmem_ok s' (reverse (pages p n) ++ l).
Proof.
  revert fuel p l s. induction n as [|n IH]; intros fuel p l s Hfu Ha Hlo Hend Hhi Hs Hk Hl;
    (destruct fuel as [|fuel]; [lia|]); cbn [freerange_loop pages];
    destruct (p + PGSIZE <=? pa_end) eqn:E; try (unfold PGSIZE in *; lia).
  - by exists s.
  - assert (Hp : page_ok p) by (split_and!; unfold PGSIZE in *; lia).
    rewrite (bind_Ok _ _ _ _ _ (kfree_push s p Hs Hp)).
    destruct (IH fuel (p + PGSIZE) (p :: l) (free_state p s)) as (s' & Es & Hf & Hok);
      try (unfold PGSIZE in *; lia).
    + rewrite <- Z.add_mod_idemp_l, Ha by done. done.
    + by apply (kmem_free_settle s).
    + apply kfree_push_ok; try done.
      * intros Hin. apply Hl in Hin. lia.
      * by apply (kmem_freelist_range s l).
    + intros q [->|Hq]%elem_of_cons; [unfold PGSIZE; lia|]. apply Hl in Hq. unfold PGSIZE. lia.
    + exists s'. split_and!; [done..|]. by rewrite reverse_cons, <- (assoc_L (++)).
Qed.

(** The pages kinit() hands to the allocator. *)
Definition first_page : Z := PGROUNDUP end_.
Definition all_pages : list Z :=
  reverse (pages first_page (Z.to_nat ((PHYSTOP - first_page) / PGSIZE))).

Lemma first_page_bounds : first_page mod PGSIZE = 0 ∧ end_ <= first_page < end_ + PGSIZE.
Proof.
  apply PGROUNDUP_bounds. pose proof end_range. unfold PHYSTOP, KERNBASE, PGSIZE in *. lia.
Qed.

Lemma elem_of_all_pages p : p ∈ all_pages ↔ page_ok p.
Proof.
  unfold all_pages. rewrite elem_of_reverse, elem_of_pages.
  pose proof first_page_bounds as [Hm Hb]. pose proof end_range.
  pose proof (Z.div_mod first_page PGSIZE). unfold page_ok, PGSIZE in *. split.
  - intros (i & Hi & ->). rewrite Z2Nat.id in Hi by dlia. split_and!; [|lia|].
    + rewrite Z_mod_plus_full. done.
    + unfold PHYSTOP, KERNBASE in *. dlia.
  - intros (Ha & Hlo & Hhi). pose proof (Z.div_mod p 4096).
    exists ((p - first_page) / 4096). unfold PHYSTOP, KERNBASE in *. dlia.
Qed.

Lemma kinit_ok s :
  cpu_ok (cur s) → freelist s = 0 →
  ∃ s', kinit s = Ok tt s' ∧ kmem_free s' ∧ kmem_ok s' all_pages.
Proof.
  intros Hok Hf. unfold kinit, initlock. ksteps. unfold freerange.
  pose proof first_page_bounds as [Hm Hb]. pose proof end_range. rewrite <- (app_nil_r all_pages).
  apply freerange_loop_ok; fold first_page; try done.
  - unfold PGSIZE, PHYSTOP, KERNBASE in *. dlia.
  - lia.
  - unfold PGSIZE, PHYSTOP, KERNBASE in *. dlia.
  - split; [done|]. simpl. apply lookup_delete_eq.
  - split; [done | constructor | constructor].
  - by intros q ?%elem_of_nil.
Qed.

(** ** The interface

    What the clients of the allocator rely on: [owns s l] holds when exactly the
    pages [l] are free. Allocation gives one of them, and changes nothing but
    the page itself and the allocator's own variables. *)
Class PageAllocator (alloc : K Z) (free : Z → K unit) (owns : kernel → list Z → Prop) := {
  alloc_page s r l :
    kmem_free s → owns s (r :: l) → ∃ m f,
    alloc s = Ok r (set_mem m (set_freelist f (settle s)))
    ∧ owns (set_mem m (set_freelist f (settle s))) l
    ∧ page_ok r ∧ (r ∉ l) ∧ frame r PGSIZE (mem s) m;
  alloc_none s : kmem_free s → owns s [] → alloc s = Ok 0 (settle s);
  free_page s pa l :
    kmem_free s → owns s l → page_ok pa → pa ∉ l → ∃ m,
    free pa s = Ok tt (set_mem m (set_freelist pa (settle s)))
    ∧ owns (set_mem m (set_freelist pa (settle s))) (pa :: l)
    ∧ frame pa PGSIZE (mem s) m;
  owns_frame s s' l a :
    a mod PGSIZE = 0 → frame a PGSIZE (mem s) (mem s') → a ∉ l →
    freelist s' = freelist s → owns s l → owns s' l;
  owns_pages s l : owns s l → NoDup l ∧ Forall page_ok l;
}.

#[export] Instance kmem_allocator : PageAllocator kalloc kfree kmem_ok.
Proof.
  split.
  - intros s r l Hs Hk. exists (memset (mem s) r 5 PGSIZE), (load64 (mem s) r).
    destruct (km_nodup _ _ Hk, km_pages _ _ Hk) as [Hd%NoDup_cons Hp%Forall_cons].
    split_and!; [by apply (kalloc_pop s r l) | by apply (kalloc_pop_ok s r l) | apply Hp | apply Hd |].
    apply (memset_frame (mem s) r 5 PGSIZE).
  - apply kalloc_empty.
  - intros s pa l Hs Hk Hp Hn. eexists. split_and!; [by apply kfree_push | |].
    + apply kfree_push_ok; try done. by apply (kmem_freelist_range s l).
    + apply free_state_mem_frame.
  - intros s s' l a. apply kmem_ok_frame.
  - intros s l Hk. split; apply Hk.
Qed.

(** ** Any use of the allocator

    [u] are the pages handed out. Besides kalloc() and kfree() the owner of a
    page may write anything to it. *)
Inductive alloc_step : kernel * list Z → kernel * list Z → Prop :=
| as_alloc s u r s' : kalloc s = Ok r s' → r ≠ 0 → alloc_step (s, u) (s', r :: u)
| as_full s u s' : kalloc s = Ok 0 s' → alloc_step (s, u) (s', u)
| as_free s u u' pa s' :
    u ≡ₚ pa :: u' → kfree pa s = Ok tt s' → alloc_step (s, u) (s', u')
| as_write s u pa m :
    pa ∈ u → frame pa PGSIZE (mem s) m → alloc_step (s, u) (set_mem m s, u).

Definition alloc_inv (c : kernel * list Z) : Prop :=
  ∃ l, kmem_free c.1 ∧ kmem_ok c.1 l ∧ NoDup (l ++ c.2) ∧ ∀ p, page_ok p ↔ p ∈ l ++ c.2.

Lemma alloc_inv_step c c' : alloc_inv c → alloc_step c c' → alloc_inv c'.
Proof.
  intros (l & Hs & Hk & Hd & Hp) Hstep. destruct Hstep as [s u r s' E Hr|s u s' E|s u u' pa s' Hu E|s u pa m Hpa Hf];
    simpl in *.
  - destruct l as [|r' l]; [rewrite (alloc_none s Hs Hk) in E; congruence|].
    destruct (alloc_page s r' l Hs Hk) as (m & f & E' & Hk' & _ & _ & _).
    rewrite E' in E. injection E as <- <-. exists l.
    assert (HP : l ++ r' :: u ≡ₚ (r' :: l) ++ u) by (simpl; by rewrite Permutation_middle).
    split_and!; [by apply kmem_free_settle | done | by rewrite HP |].
    intros p. rewrite HP. apply Hp.
  - destruct l as [|r' l].
    + rewrite (alloc_none s Hs Hk) in E. injection E as <-. exists []. split_and!; try done.
      destruct Hk. by split.
    + destruct (alloc_page s r' l Hs Hk) as (m & f & E' & _ & Hok & _).
      apply page_ok_pos in Hok. rewrite E' in E. injection E. lia.
  - assert (HP : (pa :: l) ++ u' ≡ₚ l ++ u) by (rewrite Hu; simpl; by rewrite Permutation_middle).
    assert (Hok : page_ok pa) by (apply Hp; rewrite <- HP; by left).
    assert (Hn : pa ∉ l).
    { rewrite <- HP in Hd. apply NoDup_cons in Hd as [Hd _].
      intros Hin. apply Hd, elem_of_app. by left. }
    destruct (free_page s pa l Hs Hk Hok Hn) as (m & E' & Hk' & _).
    rewrite E' in E. injection E as <-. exists (pa :: l).
    split_and!; [by apply kmem_free_settle | done | by rewrite HP |].
    intros p. rewrite HP. apply Hp.
  - exists l. split_and!; try done.
    assert (Hok : page_ok pa) by (apply Hp, elem_of_app; by right).
    apply (owns_frame s (set_mem m s) l pa); try done; [apply Hok|].
    intros Hin. apply NoDup_app in Hd as (_ & Hd & _). by apply (Hd pa).
Qed.

(** ** Properties *)

(** C9: the page allocator is safe and complete in every use. After kinit(), in
    any sequence of kalloc(), kfree() of pages handed out, and arbitrary writes by
    their owners to such pages: the pages handed out are distinct pages between
    the kernel and PHYSTOP; kalloc() returns a page nobody holds, or 0 exactly when
    every page is handed out; and kfree() of a page handed out succeeds. *)
Theorem allocator_correct s0 s1 s u :
  cpu_ok (cur s0) → freelist s0 = 0 → kinit s0 = Ok tt s1 →
  rtc alloc_step (s1, []) (s, u) →
  NoDup u ∧ Forall page_ok u
  ∧ (∃ r s', kalloc s = Ok r s' ∧ ((r = 0 ∧ ∀ p, page_ok p → p ∈ u) ∨ (page_ok r ∧ r ∉ u)))
  ∧ (∀ pa, pa ∈ u → ∃ s', kfree pa s = Ok tt s').
Proof.
  intros Hok Hf Hinit Hrun.
  assert (Hinv : alloc_inv (s, u)).
  { destruct (kinit_ok s0 Hok Hf) as (s1' & E & Hs & Hk). rewrite E in Hinit.
    injection Hinit as ->. assert (H0 : alloc_inv (s1, [])).
    { exists all_pages. simpl. rewrite app_nil_r. split_and!; try done; [apply Hk|].
      intros p. by rewrite elem_of_all_pages. }
    revert H0 Hrun. generalize (s1, @nil Z). intros c Hc. clear -Hc.
    intros Hrun. remember (s, u) as c'. revert Hc. induction Hrun; eauto using alloc_inv_step. }
  destruct Hinv as (l & Hs & Hk & Hd & Hp). simpl in *. apply NoDup_app in Hd as (Hdl & Hdis & Hdu).
  split_and!; [done | | |].
  - apply Forall_forall. intros p Hin. apply Hp, elem_of_app. by right.
  - destruct l as [|r l].
    + exists 0, (settle s). split; [by apply alloc_none|]. left. split; [done|].
      intros p Hpo. by apply Hp in Hpo.
    + destruct (alloc_page s r l Hs Hk) as (m & f & E & _ & Hr & _). do 2 eexists.
      split; [exact E|]. right. split; [done | apply Hdis; by left].
  - intros pa Hin. assert (Hpa : page_ok pa) by (apply Hp, elem_of_app; by right).
    eexists. by apply kfree_push.
Qed.

End kalloc.

Lemma allocator_correct_witness :
  ∃ s1 r s', kinit null_kernel = Ok tt s1 ∧ kalloc s1 = Ok r s' ∧ (r = 0 ∨ page_ok r).
Proof.
  destruct (kinit_ok null_kernel) as (s1 & E & _); [split; simpl; lia | reflexivity |].
  destruct (allocator_correct null_kernel s1 s1 []) as (_ & _ & (r & s' & E' & Hr) & _).
  - split; simpl; lia.
  - reflexivity.
  - exact E.
  - apply rtc_refl.
  - exists s1, r, s'. split_and!; [exact E | exact E' |].
    destruct Hr as [[Hr _]|[Hr _]]; [left; exact Hr | right; exact Hr].
Defined.
