(* ===== verification/Vm.v ===== *)
(** Virtual memory: kernel/vm.c, and proc_mapstacks() of kernel/proc.c.

    A page table is the physical address of its root page; its entries are 64-bit
    words in [mem]. A kernel buffer that is copied to or from user space is the
    list of its bytes. Loops whose end depends on their data take fuel; the
    callers give one more than the number of pages. *)
From S2P Require Import Prelude Pstat Kernel Spinlock Sched Cstring Riscv Kalloc.

Section vm.
Context {img : Image}.

(** ** Walking *)

Definition rmem {A} (f : memory → A) : K A := get (λ s, f (mem s)).

(** [&pagetable[i]] *)
Definition pte_addr (pagetable i : Z) : Z := pagetable + 8 * i.

(** One iteration of the loop of walk(): the next page table, if any. *)
Definition walk_step (va : Z) (alloc : bool) (level pagetable : Z) : K (option Z) :=
  let pte := pte_addr pagetable (PX level va) in
  v <- rmem (λ m, load64 m pte) ;;
  if bit v PTE_V then ret (Some (PTE2PA v))
  else if negb alloc then ret None
  else
    pg <- kalloc ;;
    if pg =? 0 then ret None else
    wmem (λ m, memset m pg 0 PGSIZE) ;;
    wmem (λ m, store64 m pte (Z.lor (PA2PTE pg) PTE_V)) ;;
    ret (Some pg).

(** The address of the PTE of [va], or 0. *)
Definition walk (pagetable va : Z) (alloc : bool) : K Z :=
  if MAXVA <=? va then panic "walk" else
  p1 <- walk_step va alloc 2 pagetable ;;
  match p1 with
  | None => ret 0
  | Some p1 =>
      p0 <- walk_step va alloc 1 p1 ;;
      match p0 with
      | None => ret 0
      | Some p0 => ret (pte_addr p0 (PX 0 va))
      end
  end.

Definition walkaddr (pagetable va : Z) : K Z :=
  if MAXVA <=? va then ret 0 else
  pte <- walk pagetable va false ;;
  if pte =? 0 then ret 0 else
  v <- rmem (λ m, load64 m pte) ;;
  if negb (bit v PTE_V) then ret 0 else
  if negb (bit v PTE_U) then ret 0 else
  ret (PTE2PA v).

Definition ismapped (pagetable va : Z) : K bool :=
  pte <- walk pagetable va false ;;
  if pte =? 0 then ret false else
  v <- rmem (λ m, load64 m pte) ;;
  ret (bit v PTE_V).

(** ** Mapping and unmapping *)

Fixpoint mappages_loop (fuel : nat) (pagetable a last pa perm : Z) : K Z :=
  match fuel with
  | O => hang
  | S fuel =>
      pte <- walk pagetable a true ;;
      if pte =? 0 then ret (-1) else
      v <- rmem (λ m, load64 m pte) ;;
      if bit v PTE_V then panic "mappages: remap" else
      wmem (λ m, store64 m pte (Z.lor (Z.lor (PA2PTE pa) perm) PTE_V)) ;;
      if a =? last then ret 0 else
      mappages_loop fuel pagetable (u64 (a + PGSIZE)) last (u64 (pa + PGSIZE)) perm
  end.
Definition mappages (pagetable va size pa perm : Z) : K Z :=
  if negb (va mod PGSIZE =? 0) then panic "mappages: va not aligned" else
  if negb (size mod PGSIZE =? 0) then panic "mappages: size not aligned" else
  if size =? 0 then panic "mappages: size" else
  mappages_loop (S (Z.to_nat (size / PGSIZE))) pagetable va (u64 (va + size - PGSIZE)) pa perm.

Definition uvmcreate : K Z :=
  pagetable <- kalloc ;;
  if pagetable =? 0 then ret 0 else
  wmem (λ m, memset m pagetable 0 PGSIZE) ;;
  ret pagetable.

Fixpoint uvmunmap_loop (fuel : nat) (pagetable a last : Z) (do_free : bool) : K unit :=
  match fuel with
  | O => hang
  | S fuel =>
      if a <? last then
        (pte <- walk pagetable a false ;;
         if pte =? 0 then ret tt else
         v <- rmem (λ m, load64 m pte) ;;
         if negb (bit v PTE_V) then ret tt else
         when do_free (kfree (PTE2PA v)) ;;
         wmem (λ m, store64 m pte 0)) ;;
        uvmunmap_loop fuel pagetable (u64 (a + PGSIZE)) last do_free
      else ret tt
  end.
Definition uvmunmap (pagetable va npages : Z) (do_free : bool) : K unit :=
  if negb (va mod PGSIZE =? 0) then panic "uvmunmap: not aligned" else
  uvmunmap_loop (S (Z.to_nat npages)) pagetable va (u64 (va + npages * PGSIZE)) do_free.

Definition uvmdealloc (pagetable oldsz newsz : Z) : K Z :=
  if oldsz <=? newsz then ret oldsz else
  when (PGROUNDUP newsz <? PGROUNDUP oldsz)
    (let npages := i32 ((PGROUNDUP oldsz - PGROUNDUP newsz) / PGSIZE) in
     uvmunmap pagetable (PGROUNDUP newsz) (u64 npages) true) ;;
  ret newsz.

Fixpoint uvmalloc_loop (fuel : nat) (pagetable oldsz a newsz xperm : Z) : K Z :=
  match fuel with
  | O => hang
  | S fuel =>
      if a <? newsz then
        mem <- kalloc ;;
        if mem =? 0 then uvmdealloc pagetable a oldsz ;; ret 0 else
        wmem (λ m, memset m mem 0 PGSIZE) ;;
        r <- mappages pagetable a PGSIZE mem (Z.lor (Z.lor PTE_R PTE_U) xperm) ;;
        if negb (r =? 0) then kfree mem ;; uvmdealloc pagetable a oldsz ;; ret 0
        else uvmalloc_loop fuel pagetable oldsz (u64 (a + PGSIZE)) newsz xperm
      else ret newsz
  end.
Definition uvmalloc (pagetable oldsz newsz xperm : Z) : K Z :=
  if newsz <? oldsz then ret oldsz else
  let oldsz := PGROUNDUP oldsz in
  uvmalloc_loop (S (S (Z.to_nat ((newsz - oldsz) / PGSIZE)))) pagetable oldsz oldsz newsz xperm.

(** [depth] bounds the recursion: Sv39 page tables have three levels. *)
Fixpoint freewalk (depth : nat) (pagetable : Z) : K unit :=
  match depth with
  | O => hang
  | S depth =>
      for_each (seq 0 512) (λ i,
        let a := pte_addr pagetable (Z.of_nat i) in
        pte <- rmem (λ m, load64 m a) ;;
        if bit pte PTE_V && negb (bit pte (Z.lor (Z.lor PTE_R PTE_W) PTE_X)) then
          freewalk depth (PTE2PA pte) ;;
          wmem (λ m, store64 m a 0)
        else when (bit pte PTE_V) (panic "freewalk: leaf")) ;;
      kfree pagetable
  end.
Definition uvmfree (pagetable sz : Z) : K unit :=
  when (0 <? sz) (uvmunmap pagetable 0 (PGROUNDUP sz / PGSIZE) true) ;;
  freewalk 3 pagetable.

Fixpoint uvmcopy_loop (fuel : nat) (old new i sz : Z) : K Z :=
  match fuel with
  | O => hang
  | S fuel =>
      if i <? sz then
        let err := uvmunmap new 0 (i / PGSIZE) true ;; ret (-1) in
        let continue := uvmcopy_loop fuel old new (i + PGSIZE) sz in
        pte <- walk old i false ;;
        if pte =? 0 then continue else
        v <- rmem (λ m, load64 m pte) ;;
        if negb (bit v PTE_V) then continue else
        mem <- kalloc ;;
        if mem =? 0 then err else
        wmem (λ m, memmove m mem (PTE2PA v) PGSIZE) ;;
        r <- mappages new i PGSIZE mem (PTE_FLAGS v) ;;
        if negb (r =? 0) then kfree mem ;; err else continue
      else ret 0
  end.
Definition uvmcopy (old new sz : Z) : K Z :=
  uvmcopy_loop (S (S (Z.to_nat (sz / PGSIZE)))) old new 0 sz.

Definition uvmclear (pagetable va : Z) : K unit :=
  pte <- walk pagetable va false ;;
  if pte =? 0 then panic "uvmclear" else
  wmem (λ m, store64 m pte (Z.land (load64 m pte) (2 ^ 64 - 1 - PTE_U))).

(** ** Copying between kernel and user space *)

Definition vmfault (pagetable va : Z) (read : bool) : K Z :=
  p <- curproc ;;
  sz <- get (λ s, p_sz (proc_at s p)) ;;
  if sz <=? va then ret 0 else
  let va := PGROUNDDOWN va in
  b <- ismapped pagetable va ;;
  if b then ret 0 else
  mem <- kalloc ;;
  if mem =? 0 then ret 0 else
  wmem (λ m, memset m mem 0 PGSIZE) ;;
  pt <- get (λ s, p_pagetable (proc_at s p)) ;;
  r <- mappages pt va PGSIZE mem (Z.lor (Z.lor PTE_W PTE_U) PTE_R) ;;
  if negb (r =? 0) then kfree mem ;; ret 0 else
  ret mem.

(** The physical page of [va0], mapping it on demand; 0 if there is none. *)
Definition user_page (pagetable va0 : Z) (read : bool) : K Z :=
  pa0 <- walkaddr pagetable va0 ;;
  if pa0 =? 0 then vmfault pagetable va0 read else ret pa0.

Fixpoint copyout_loop (fuel : nat) (pagetable dstva : Z) (src : list Z) : K Z :=
  match fuel with
  | O => hang
  | S fuel =>
      if decide (src = []) then ret 0 else
      let va0 := PGROUNDDOWN dstva in
      if MAXVA <=? va0 then ret (-1) else
      pa0 <- user_page pagetable va0 false ;;
      if pa0 =? 0 then ret (-1) else
      pte <- walk pagetable va0 false ;;
      if pte =? 0 then panic "kerneltrap" else
      v <- rmem (λ m, load64 m pte) ;;
      if negb (bit v PTE_W) then ret (-1) else
      let n := Z.to_nat (Z.min (PGSIZE - (dstva - va0)) (Z.of_nat (length src))) in
      wmem (λ m, write_bytes m (pa0 + (dstva - va0)) (take n src)) ;;
      copyout_loop fuel pagetable (u64 (va0 + PGSIZE)) (drop n src)
  end.
Definition copyout (pagetable dstva : Z) (src : list Z) : K Z :=
  copyout_loop (S (S (length src))) pagetable dstva src.

(** The result is the status and the bytes that reached [dst]. *)
Fixpoint copyin_loop (fuel : nat) (pagetable srcva len : Z) (dst : list Z) : K (Z * list Z) :=
  match fuel with
  | O => hang
  | S fuel =>
      if len <=? 0 then ret (0, dst) else
      let va0 := PGROUNDDOWN srcva in
      pa0 <- user_page pagetable va0 true ;;
      if pa0 =? 0 then ret (-1, dst) else
      let n := Z.min (PGSIZE - (srcva - va0)) len in
      b <- rmem (λ m, read_bytes m (pa0 + (srcva - va0)) (Z.to_nat n)) ;;
      copyin_loop fuel pagetable (u64 (va0 + PGSIZE)) (len - n) (dst ++ b)
  end.
Definition copyin (pagetable srcva len : Z) : K (Z * list Z) :=
  copyin_loop (S (S (Z.to_nat len))) pagetable srcva len [].

(** The inner loop of copyinstr(): the bytes copied, and [got_null]. *)
Fixpoint copy_until_nul (n : nat) (m : memory) (p : Z) : list Z * bool :=
  match n with
  | O => ([], false)
  | S n =>
      if m p =? 0 then ([0], true)
      else let r := copy_until_nul n m (p + 1) in (m p :: r.1, r.2)
  end.
Fixpoint copyinstr_loop (fuel : nat) (pagetable srcva max : Z) (dst : list Z) : K (Z * list Z) :=
  match fuel with
  | O => hang
  | S fuel =>
      if max <=? 0 then ret (-1, dst) else
      let va0 := PGROUNDDOWN srcva in
      pa0 <- walkaddr pagetable va0 ;;
      if pa0 =? 0 then ret (-1, dst) else
      let n := Z.min (PGSIZE - (srcva - va0)) max in
      r <- rmem (λ m, copy_until_nul (Z.to_nat n) m (pa0 + (srcva - va0))) ;;
      if r.2 then ret (0, dst ++ r.1) else
      copyinstr_loop fuel pagetable (u64 (va0 + PGSIZE)) (max - n) (dst ++ r.1)
  end.
Definition copyinstr (pagetable srcva max : Z) : K (Z * list Z) :=
  copyinstr_loop (S (S (Z.to_nat max))) pagetable srcva max [].

(** ** The kernel's own page table *)

Definition kvmmap (kpgtbl va pa sz perm : Z) : K unit :=
  r <- mappages kpgtbl va sz pa perm ;;
  when (negb (r =? 0)) (panic "kvmmap").

Definition proc_mapstacks (kpgtbl : Z) : K unit :=
  for_each (seq 0 NPROC) (λ i,
    pa <- kalloc ;;
    if pa =? 0 then panic "kalloc" else
    kvmmap kpgtbl (KSTACK (Z.of_nat i)) pa PGSIZE (Z.lor PTE_R PTE_W)).

Definition kvmmake : K Z :=
  kpgtbl <- kalloc ;;
  wmem (λ m, memset m kpgtbl 0 PGSIZE) ;;
  kvmmap kpgtbl UART0 UART0 PGSIZE (Z.lor PTE_R PTE_W) ;;
  kvmmap kpgtbl VIRTIO0 VIRTIO0 PGSIZE (Z.lor PTE_R PTE_W) ;;
  kvmmap kpgtbl PLIC PLIC 67108864 (Z.lor PTE_R PTE_W) ;;
  kvmmap kpgtbl KERNBASE KERNBASE (etext - KERNBASE) (Z.lor PTE_R PTE_X) ;;
  kvmmap kpgtbl etext etext (PHYSTOP - etext) (Z.lor PTE_R PTE_W) ;;
  kvmmap kpgtbl TRAMPOLINE trampoline PGSIZE (Z.lor PTE_R PTE_X) ;;
  proc_mapstacks kpgtbl ;;
  ret kpgtbl.

Definition kvminit : K unit :=
  pt <- kvmmake ;;
  modify (set_kernel_pagetable pt).

Definition kvminithart : K unit :=
  pt <- get kernel_pagetable ;;
  modify (λ s, set_csr (set_r_satp (MAKE_SATP pt) (csr s)) s).
End vm.
