(* ===== verification/VmCopy.v ===== *)
(** Copying between kernel and user space, correct with respect to address
    translation.

    [uva2pa] is what the page tables in memory say: the physical page of a user
    address, or 0. copyin() reads, and copyout() writes, exactly the bytes it
    designates. *)
From S2P Require Import Prelude Pstat Kernel Spinlock Sched Cstring Riscv Kalloc Vm.

(** ** Translation as a function of the memory *)

Definition pt_next (m : memory) (va level pt : Z) : option Z :=
  let v := load64 m (pte_addr pt (PX level va)) in
  if bit v PTE_V then Some (PTE2PA v) else None.

(** The address of the PTE of [va], or 0. *)
Definition pt_walk (m : memory) (pt va : Z) : Z :=
  match pt_next m va 2 pt with
  | None => 0
  | Some p1 => match pt_next m va 1 p1 with None => 0 | Some p0 => pte_addr p0 (PX 0 va) end
  end.

Definition uva2pa (m : memory) (pt va : Z) : Z :=
  if MAXVA <=? va then 0 else
  let pte := pt_walk m pt va in
  if pte =? 0 then 0 else
  let v := load64 m pte in
  if negb (bit v PTE_V) then 0 else
  if negb (bit v PTE_U) then 0 else
  PTE2PA v.

Section copy.
Context {img : Image}.

Lemma walk_step_find va level pt s :
  walk_step va false level pt s = Ok (pt_next (mem s) va level pt) s.
Proof. unfold walk_step, pt_next, rmem. kstep. by destruct (bit _ _). Qed.

(** walk() without allocation only looks. *)
Lemma walk_find pt va s : va < MAXVA → walk pt va false s = Ok (pt_walk (mem s) pt va) s.
Proof.
  intros Hva. unfold walk, pt_walk. destruct (MAXVA <=? va) eqn:E; [lia|].
  rewrite (bind_Ok _ _ _ _ _ (walk_step_find _ _ _ _)).
  destruct (pt_next (mem s) va 2 pt) as [p1|]; [|done].
  rewrite (bind_Ok _ _ _ _ _ (walk_step_find _ _ _ _)).
  by destruct (pt_next (mem s) va 1 p1).
Qed.

Lemma walkaddr_ok pt va s : walkaddr pt va s = Ok (uva2pa (mem s) pt va) s.
Proof.
  unfold walkaddr, uva2pa. destruct (MAXVA <=? va) eqn:E; [done|].
  rewrite (bind_Ok _ _ _ _ _ (walk_find pt va s ltac:(lia))).
  destruct (_ =? 0); [done|]. unfold rmem. kstep.
  destruct (negb (bit _ PTE_V)); [done|]. by destruct (negb (bit _ PTE_U)).
Qed.

Lemma user_page_mapped pt va r s :
  uva2pa (mem s) pt va ≠ 0 → user_page pt va r s = Ok (uva2pa (mem s) pt va) s.
Proof.
  intros H. unfold user_page. rewrite (bind_Ok _ _ _ _ _ (walkaddr_ok _ _ _)).
  apply Z.eqb_neq in H. by rewrite H.
Qed.

(** ** Ranges of user memory *)

(** The byte at user address [va]. *)
Definition ubyte (m : memory) (pt va : Z) : Z :=
  m (uva2pa m pt (va / PGSIZE * PGSIZE) + va mod PGSIZE).

(** All the pages of [[va, va + n)] are mapped for the user. *)
Definition mapped (m : memory) (pt va n : Z) : Prop :=
  ∀ a, va <= a < va + n → uva2pa m pt (a / PGSIZE * PGSIZE) ≠ 0.

(** The bytes of a range. *)
Definition ubytes (m : memory) (pt va : Z) (n : nat) : list Z :=
  (λ i, ubyte m pt (va + Z.of_nat i)) <$> seq 0 n.

Lemma ubytes_app m pt va n k :
  ubytes m pt va (n + k) = ubytes m pt va n ++ ubytes m pt (va + Z.of_nat n) k.
Proof.
  unfold ubytes. rewrite seq_app, fmap_app. f_equal. apply list_eq. intros i.
  rewrite !list_lookup_fmap. destruct (decide (i < k)%nat).
  - rewrite !lookup_seq_lt by done. simpl. do 2 f_equal. lia.
  - by rewrite !lookup_seq_ge by lia.
Qed.

(** Bytes of one page are consecutive in physical memory. *)
Lemma ubytes_S m pt va k : ubytes m pt va (S k) = ubyte m pt va :: ubytes m pt (va + 1) k.
Proof.
  unfold ubytes. cbn [seq]. rewrite fmap_cons, Z.add_0_r. f_equal.
  rewrite <- fmap_S_seq, <- list_fmap_compose. apply list_fmap_ext.
  intros i ? _. simpl. f_equal. lia.
Qed.

Lemma ubytes_page m pt va (n : nat) :
  0 <= va → va mod PGSIZE + Z.of_nat n <= PGSIZE →
  ubytes m pt va n
  = read_bytes m (uva2pa m pt (va / PGSIZE * PGSIZE) + va mod PGSIZE) n.
Proof.
  intros Hva Hn. apply list_eq. intros i. unfold ubytes. rewrite list_lookup_fmap.
  destruct (decide (i < n)%nat) as [Hi|Hi].
  - rewrite lookup_seq_lt, read_bytes_lookup by done. simpl. f_equal. unfold ubyte.
    assert (Hd : (va + Z.of_nat i) / PGSIZE = va / PGSIZE ∧
                 (va + Z.of_nat i) mod PGSIZE = va mod PGSIZE + Z.of_nat i).
    { unfold PGSIZE in *. dlia. }
    destruct Hd as [-> ->]. f_equal. lia.
  - rewrite lookup_seq_ge by lia. simpl. symmetry. apply lookup_ge_None.
    rewrite length_read_bytes. lia.
Qed.

(** ** copyin() *)

Lemma mapped_page m pt va n :
  0 < n → mapped m pt va n → uva2pa m pt (va / PGSIZE * PGSIZE) ≠ 0.
Proof. intros Hn H. apply H. lia. Qed.

Lemma page_round va : 0 <= va < MAXVA → PGROUNDDOWN va = va / PGSIZE * PGSIZE.
Proof. intros Hva. apply PGROUNDDOWN_eq. change MAXVA with (2 ^ 38) in Hva. lia. Qed.

(** The first chunk of a copy: up to the end of the page. *)
Lemma chunk_bounds va len :
  0 <= va → 0 < len →
  let n := Z.min (PGSIZE - (va - va / PGSIZE * PGSIZE)) len in
  0 < n <= len ∧ va mod PGSIZE + n <= PGSIZE ∧ va - va / PGSIZE * PGSIZE = va mod PGSIZE
  ∧ (n < len → va / PGSIZE * PGSIZE + PGSIZE = va + n).
Proof. intros. unfold PGSIZE in *. dlia. Qed.

Lemma copyin_loop_ok fuel pt s : ∀ va len dst,
  len < Z.of_nat fuel → 0 <= va → 0 <= len → va + len <= MAXVA → mapped (mem s) pt va len →
  copyin_loop fuel pt va len dst s = Ok (0, dst ++ ubytes (mem s) pt va (Z.to_nat len)) s.
Proof.
  induction fuel as [|fuel IH]; intros va len dst Hf Hva Hlen Hmax Hm; [lia|]. cbn [copyin_loop].
  destruct (len <=? 0) eqn:E.
  { replace len with 0 by lia. simpl. by rewrite app_nil_r. }
  rewrite page_round by lia.
  destruct (chunk_bounds va len Hva ltac:(lia)) as (Hn & Hpg & Hoff & Hnext).
  set (n := Z.min _ len) in *.
  pose proof (mapped_page (mem s) pt va len ltac:(lia) Hm) as Hpa.
  rewrite (bind_Ok _ _ _ _ _ (user_page_mapped pt _ true s Hpa)).
  apply Z.eqb_neq in Hpa. rewrite Hpa. unfold rmem. kstep. rewrite Hoff.
  rewrite <- ubytes_page by (done || lia).
  replace (Z.to_nat len) with (Z.to_nat n + Z.to_nat (len - n))%nat by lia.
  rewrite ubytes_app, (assoc_L (++)). rewrite Z2Nat.id by lia.
  destruct (decide (n = len)) as [En|En].
  - replace (len - n) with 0 by lia. destruct fuel as [|fuel]; [lia|]. simpl. by rewrite app_nil_r.
  - rewrite <- Hnext by lia. change MAXVA with (2 ^ 38) in *.
    rewrite u64_small by lia. apply IH; try lia.
    intros a Ha. apply Hm. lia.
Qed.

Lemma copyin_ok pt va len s :
  0 <= va → 0 <= len → va + len <= MAXVA → mapped (mem s) pt va len →
  copyin pt va len s = Ok (0, ubytes (mem s) pt va (Z.to_nat len)) s.
Proof. intros. unfold copyin. rewrite copyin_loop_ok; try done. lia. Qed.

(** ** Writes that leave the translation alone *)

(** The PTEs that translate [va]. *)
Definition pt_entries (m : memory) (pt va : Z) : list Z :=
  pte_addr pt (PX 2 va) ::
  match pt_next m va 2 pt with
  | None => []
  | Some p1 => pte_addr p1 (PX 1 va) ::
      match pt_next m va 1 p1 with None => [] | Some p0 => [pte_addr p0 (PX 0 va)] end
  end.

Definition leaf (m : memory) (pt va : Z) : Z := load64 m (pt_walk m pt va).

Lemma translation_frame m m' pt va :
  (∀ e x, e ∈ pt_entries m pt va → e <= x < e + 8 → m' x = m x) →
  pt_entries m' pt va = pt_entries m pt va ∧ pt_walk m' pt va = pt_walk m pt va
  ∧ (pt_walk m pt va ≠ 0 → leaf m' pt va = leaf m pt va) ∧ uva2pa m' pt va = uva2pa m pt va.
Proof.
  intros H.
  assert (Hl : ∀ e, e ∈ pt_entries m pt va → load64 m' e = load64 m e).
  { intros e He. apply load_ext. intros x Hx. apply (H e); [done | lia]. }
  assert (H2 : pt_next m' va 2 pt = pt_next m va 2 pt).
  { unfold pt_next. rewrite Hl; [done|]. by left. }
  assert (Hw : pt_entries m' pt va = pt_entries m pt va ∧ pt_walk m' pt va = pt_walk m pt va).
  { unfold pt_entries, pt_walk in *. rewrite H2. destruct (pt_next m va 2 pt) as [p1|]; [|done].
    assert (H1 : pt_next m' va 1 p1 = pt_next m va 1 p1).
    { unfold pt_next. rewrite Hl; [done|]. by right; left. }
    rewrite H1. by destruct (pt_next m va 1 p1). }
  destruct Hw as [He Hw].
  assert (Hleaf : pt_walk m pt va ≠ 0 → leaf m' pt va = leaf m pt va).
  { unfold leaf. rewrite Hw. intros Hne. apply Hl. unfold pt_entries, pt_walk in *.
    destruct (pt_next m va 2 pt) as [p1|]; [|done]. destruct (pt_next m va 1 p1); [|done].
    by right; right; left. }
  split_and!; [done | done | done |]. unfold uva2pa. rewrite Hw.
  destruct (MAXVA <=? va); [done|]. destruct (pt_walk m pt va =? 0) eqn:E0; [done|].
  apply Z.eqb_neq in E0. unfold leaf in Hleaf. rewrite Hw in Hleaf. by rewrite Hleaf.
Qed.

(** ** copyout() *)

(** The physical address of the byte at [a]. *)
Definition phys (m : memory) (pt a : Z) : Z :=
  uva2pa m pt (a / PGSIZE * PGSIZE) + a mod PGSIZE.

(** A range of user memory that can be written: mapped with PTE_W, its bytes at
    distinct physical addresses, none of them inside the PTEs that map it. *)
Record writable (m : memory) (pt va n : Z) : Prop := {
  wr_mapped : mapped m pt va n;
  wr_perm : ∀ a, va <= a < va + n → bit (leaf m pt (a / PGSIZE * PGSIZE)) PTE_W = true;
  wr_inj : ∀ a b, va <= a < va + n → va <= b < va + n → phys m pt a = phys m pt b → a = b;
  wr_pt : ∀ a b e, va <= a < va + n → va <= b < va + n →
    e ∈ pt_entries m pt (b / PGSIZE * PGSIZE) → ¬ (e <= phys m pt a < e + 8);
}.

(** [m'] differs from [m] only on the bytes of the range. *)
Definition uframe (m m' : memory) (pt va n : Z) : Prop :=
  ∀ x, (∀ a, va <= a < va + n → x ≠ phys m pt a) → m' x = m x.

Lemma uframe_translation m m' pt va n a :
  writable m pt va n → uframe m m' pt va n → va <= a < va + n →
  let pg := a / PGSIZE * PGSIZE in
  pt_entries m' pt pg = pt_entries m pt pg ∧ pt_walk m' pt pg = pt_walk m pt pg
  ∧ (pt_walk m pt pg ≠ 0 → leaf m' pt pg = leaf m pt pg) ∧ uva2pa m' pt pg = uva2pa m pt pg.
Proof.
  intros Hw Hf Ha pg. apply translation_frame. intros e x He Hx. apply Hf.
  intros b Hb ->. by apply (wr_pt _ _ _ _ Hw b a e).
Qed.

(** A mapped page has a PTE. *)
Lemma mapped_walk m pt a : uva2pa m pt a ≠ 0 → pt_walk m pt a ≠ 0.
Proof.
  unfold uva2pa. destruct (MAXVA <=? a); [done|].
  destruct (pt_walk m pt a =? 0) eqn:E; [done | by apply Z.eqb_neq in E].
Qed.

Lemma writable_frame m m' pt va n va' n' :
  writable m pt va n → uframe m m' pt va n → va <= va' → va' + n' <= va + n →
  writable m' pt va' n' ∧ (∀ a, va <= a < va + n → phys m' pt a = phys m pt a).
Proof.
  intros Hw Hf Hlo Hhi.
  pose proof (λ a, uframe_translation m m' pt va n a Hw Hf) as Ht. cbv zeta in Ht.
  assert (Hph : ∀ a, va <= a < va + n → phys m' pt a = phys m pt a).
  { intros a Ha. unfold phys. by destruct (Ht a Ha) as (_ & _ & _ & ->). }
  split; [|done]. split.
  - intros a Ha. destruct (Ht a ltac:(lia)) as (_ & _ & _ & ->). apply (wr_mapped _ _ _ _ Hw). lia.
  - intros a Ha. destruct (Ht a ltac:(lia)) as (_ & _ & -> & _).
    + apply (wr_perm _ _ _ _ Hw). lia.
    + apply mapped_walk, (wr_mapped _ _ _ _ Hw). lia.
  - intros a b Ha Hb. rewrite !Hph by lia. apply (wr_inj _ _ _ _ Hw); lia.
  - intros a b e Ha Hb. rewrite Hph by lia. destruct (Ht b ltac:(lia)) as (-> & _).
    apply (wr_pt _ _ _ _ Hw); lia.
Qed.

Lemma phys_add m pt va i :
  0 <= va → 0 <= i → va mod PGSIZE + i < PGSIZE → phys m pt (va + i) = phys m pt va + i.
Proof.
  intros. unfold phys.
  assert (Hd : (va + i) / PGSIZE = va / PGSIZE ∧ (va + i) mod PGSIZE = va mod PGSIZE + i)
    by (unfold PGSIZE in *; dlia).
  destruct Hd as [-> ->]. lia.
Qed.

(** Writing a chunk inside one page. *)
Lemma chunk_uframe m pt va (l : list Z) n :
  0 <= va → va mod PGSIZE + Z.of_nat (length l) <= PGSIZE → Z.of_nat (length l) <= n →
  uframe m (write_bytes m (phys m pt va) l) pt va n.
Proof.
  intros Hva Hl Hn x Hx. apply write_bytes_frame. intros Hr.
  apply (Hx (va + (x - phys m pt va))); [lia|]. unfold phys in *.
  assert (Hd : (va + (x - (uva2pa m pt (va / PGSIZE * PGSIZE) + va mod PGSIZE))) / PGSIZE = va / PGSIZE
    ∧ (va + (x - (uva2pa m pt (va / PGSIZE * PGSIZE) + va mod PGSIZE))) mod PGSIZE
      = va mod PGSIZE + (x - (uva2pa m pt (va / PGSIZE * PGSIZE) + va mod PGSIZE))).
  { generalize dependent (uva2pa m pt (va / PGSIZE * PGSIZE)). intros. unfold PGSIZE in *. dlia. }
  destruct Hd as [-> ->]. lia.
Qed.

Lemma uframe_trans m m1 m' pt va n va' n' :
  (∀ a, va' <= a < va' + n' → phys m1 pt a = phys m pt a) →
  va <= va' → va' + n' <= va + n →
  uframe m m1 pt va n → uframe m1 m' pt va' n' → uframe m m' pt va n.
Proof.
  intros Hph Hlo Hhi H1 H2 x Hx. rewrite H2; [by apply H1|].
  intros a Ha. rewrite Hph by done. apply Hx. lia.
Qed.

(** One round: the bytes of the first page, [c] of them. *)
Lemma copyout_page fuel pt va src n c s :
  0 <= va < MAXVA → 0 < n → c = Z.min (PGSIZE - (va - va / PGSIZE * PGSIZE)) (Z.of_nat (length src)) →
  0 < c <= n → Forall (λ b, 0 <= b < 2 ^ 8) src → writable (mem s) pt va n →
  ∃ m1, copyout_loop (S fuel) pt va src s
      = copyout_loop fuel pt (u64 (va / PGSIZE * PGSIZE + PGSIZE)) (drop (Z.to_nat c) src) (set_mem m1 s)
    ∧ uframe (mem s) m1 pt va c
    ∧ ∀ i b, take (Z.to_nat c) src !! i = Some b → m1 (phys (mem s) pt (va + Z.of_nat i)) = b.
Proof.
  intros Hva Hn Ec Hc Hbytes Hw. cbn [copyout_loop].
  rewrite decide_False by (intros ->; simpl in Ec; lia). rewrite page_round, <- Ec by lia.
  destruct (chunk_bounds va (Z.of_nat (length src)) ltac:(lia) ltac:(lia)) as (Hc' & Hpg & Hoff & _).
  rewrite <- Ec in Hc', Hpg. set (pg := va / PGSIZE * PGSIZE) in *.
  destruct (Z.leb_spec MAXVA pg); [unfold pg, PGSIZE in *; dlia|].
  pose proof (wr_mapped _ _ _ _ Hw va ltac:(lia)) as Hpa. fold pg in Hpa.
  rewrite (bind_Ok _ _ _ _ _ (user_page_mapped pt pg false s Hpa)).
  pose proof (mapped_walk _ _ _ Hpa) as Hwk. apply Z.eqb_neq in Hpa. rewrite Hpa.
  rewrite (bind_Ok _ _ _ _ _ (walk_find pt pg s ltac:(lia))).
  apply Z.eqb_neq in Hwk. rewrite Hwk. unfold rmem. kstep.
  pose proof (wr_perm _ _ _ _ Hw va ltac:(lia)) as Hperm. unfold leaf in Hperm. fold pg in Hperm.
  rewrite Hperm. cbn [negb]. unfold wmem. kstep. rewrite Hoff.
  change (uva2pa (mem s) pt pg + va mod PGSIZE) with (phys (mem s) pt va).
  set (l := take (Z.to_nat c) src).
  assert (Hll : Z.of_nat (length l) = c) by (unfold l; rewrite length_take; lia).
  eexists. split_and!; [reflexivity | apply chunk_uframe; lia |].
  intros i b Hi. pose proof (lookup_lt_Some _ _ _ Hi). rewrite phys_add by lia.
  rewrite (write_bytes_lookup _ _ _ _ _ Hi). apply u8_small.
  unfold l in Hi. apply lookup_take_Some in Hi as [Hi _]. by apply (Forall_lookup_1 _ _ _ _ Hbytes Hi).
Qed.

Lemma uframe_weaken m m' pt va n k : n <= k → uframe m m' pt va n → uframe m m' pt va k.
Proof. intros Hk H x Hx. apply H. intros a Ha. apply Hx. lia. Qed.

(** The first [c] bytes, and then the rest of them, up to the [n]th. *)
Lemma copied_join m m1 m2 pt va src n c :
  0 <= c <= n → n <= Z.of_nat (length src) → writable m pt va n →
  uframe m m1 pt va c → uframe m1 m2 pt (va + c) (n - c) →
  (∀ i b, take (Z.to_nat c) src !! i = Some b → m1 (phys m pt (va + Z.of_nat i)) = b) →
  (∀ i b, take (Z.to_nat (n - c)) (drop (Z.to_nat c) src) !! i = Some b → m2 (phys m1 pt (va + c + Z.of_nat i)) = b) →
  uframe m m2 pt va n ∧ ∀ i b, take (Z.to_nat n) src !! i = Some b → m2 (phys m pt (va + Z.of_nat i)) = b.
Proof.
  intros Hc Hn Hw Hf1 Hf2 Hc1 Hc2. apply (uframe_weaken _ _ _ _ _ n) in Hf1; [|lia].
  destruct (writable_frame _ m1 pt va n (va + c) (n - c) Hw Hf1) as [_ Hph]; [lia..|]. split.
  - eapply (uframe_trans _ m1); [..|exact Hf1|exact Hf2]; [|lia..]. intros a Ha. apply Hph. lia.
  - intros i b [Hi Hin]%lookup_take_Some. destruct (decide (i < Z.to_nat c)%nat).
    + rewrite Hf2; [apply Hc1; by rewrite lookup_take_lt|].
      intros a Ha Eq. rewrite Hph in Eq by lia. apply (wr_inj _ _ _ _ Hw) in Eq; lia.
    + rewrite <- Hph by lia. specialize (Hc2 (i - Z.to_nat c)%nat b).
      replace (va + Z.of_nat i) with (va + c + Z.of_nat (i - Z.to_nat c)) by lia. apply Hc2.
      rewrite lookup_take_lt, lookup_drop by lia. by replace (Z.to_nat c + (i - Z.to_nat c))%nat with i by lia.
Qed.

Lemma copyout_loop_ok pt fuel : ∀ va src s,
  (length src < fuel)%nat → 0 <= va → va + Z.of_nat (length src) <= MAXVA →
  Forall (λ b, 0 <= b < 2 ^ 8) src →
  writable (mem s) pt va (Z.of_nat (length src)) →
  ∃ m', copyout_loop fuel pt va src s = Ok 0 (set_mem m' s)
    ∧ uframe (mem s) m' pt va (Z.of_nat (length src))
    ∧ ∀ i b, src !! i = Some b → m' (phys (mem s) pt (va + Z.of_nat i)) = b.
Proof.
  induction fuel as [|fuel IH]; intros va src s Hf Hva Hmax Hbytes Hw; [lia|].
  destruct (decide (src = [])) as [->|Hne].
  { exists (mem s). split_and!; [by destruct s | done | done]. }
  assert (Hlen : 0 < Z.of_nat (length src)) by (destruct src; [done | simpl; lia]).
  destruct (chunk_bounds va (Z.of_nat (length src)) Hva Hlen) as (Hn & _ & _ & Hnext).
  set (c := Z.min _ _) in *.
  destruct (copyout_page fuel pt va src _ c s ltac:(lia) Hlen ltac:(done) Hn Hbytes Hw) as (m1 & -> & Hf1 & Hc1).
  destruct (decide (c = Z.of_nat (length src))) as [En|En].
  - exists m1. rewrite take_ge in Hc1 by lia. rewrite (drop_ge src) by lia. rewrite En in Hf1.
    destruct fuel as [|fuel]; [lia|]. by split_and!.
  - rewrite Hnext by lia. change MAXVA with (2 ^ 38) in *. rewrite u64_small by lia.
    assert (Hdl : Z.of_nat (length (drop (Z.to_nat c) src)) = Z.of_nat (length src) - c)
      by (rewrite length_drop; lia).
    destruct (writable_frame _ m1 pt va (Z.of_nat (length src)) (va + c)
      (Z.of_nat (length src) - c) Hw) as [Hw1 _]; [eapply uframe_weaken; [|exact Hf1]; lia | lia.. |].
    destruct (IH (va + c) (drop (Z.to_nat c) src) (set_mem m1 s)) as (m2 & E2 & Hf2 & Hc2);
      rewrite ?Hdl; try (done || lia).
    { by apply Forall_drop. }
    rewrite Hdl in Hf2. exists m2. rewrite E2. split; [by destruct s|].
    destruct (copied_join (mem s) m1 m2 pt va src (Z.of_nat (length src)) c) as [H1 H2]; try (done || lia).
    { intros i b [Hi _]%lookup_take_Some. by apply Hc2. }
    split; [done|]. intros i b Hi. apply H2. rewrite take_ge by lia. done.
Qed.

Lemma copyout_ok pt va src s :
  0 <= va → va + Z.of_nat (length src) <= MAXVA → Forall (λ b, 0 <= b < 2 ^ 8) src →
  writable (mem s) pt va (Z.of_nat (length src)) →
  ∃ m', copyout pt va src s = Ok 0 (set_mem m' s)
    ∧ uframe (mem s) m' pt va (Z.of_nat (length src))
    ∧ ∀ i b, src !! i = Some b → m' (phys (mem s) pt (va + Z.of_nat i)) = b.
Proof. intros. unfold copyout. apply copyout_loop_ok; try done. lia. Qed.

(** ** Pages the user may not touch *)

(** A page that is mapped, but not for the user. *)
Definition kernel_page (m : memory) (pt va : Z) : Prop :=
  pt_walk m pt va ≠ 0 ∧ bit (leaf m pt va) PTE_V = true ∧ bit (leaf m pt va) PTE_U = false.

Lemma user_page_refused pt va r s p :
  cpu_ok (cur s) → c_proc (cur s) = Some p → 0 <= va < MAXVA → va mod PGSIZE = 0 →
  kernel_page (mem s) pt va → user_page pt va r s = Ok 0 (settle s).
Proof.
  intros Hok Hp Hva Hal (Hw & Hv & Hu). unfold user_page.
  assert (E0 : uva2pa (mem s) pt va = 0).
  { unfold uva2pa, leaf in *. destruct (MAXVA <=? va); [done|]. destruct (_ =? 0); [done|].
    by rewrite Hv, Hu. }
  rewrite (bind_Ok _ _ _ _ _ (walkaddr_ok pt va s)), E0. simpl. unfold vmfault.
  rewrite (bind_Ok _ _ _ _ _ (curproc_ok s p Hok Hp)). kstep.
  destruct (_ <=? va); [done|].
  rewrite PGROUNDDOWN_aligned by (change MAXVA with (2 ^ 38) in *; lia || done).
  assert (Em : ismapped pt va (settle s) = Ok true (settle s)).
  { unfold ismapped. rewrite (bind_Ok _ _ _ _ _ (walk_find pt va (settle s) ltac:(lia))).
    change (mem (settle s)) with (mem s). apply Z.eqb_neq in Hw. rewrite Hw. unfold rmem. kstep.
    change (mem (settle s)) with (mem s). unfold leaf in Hv. by rewrite Hv. }
  by rewrite (bind_Ok _ _ _ _ _ Em).
Qed.

(** A copy that runs into such a page goes as far as the page boundary. *)
Lemma chunk_before m pt va n len :
  0 <= va → 0 < n < len → mapped m pt va n → uva2pa m pt ((va + n) / PGSIZE * PGSIZE) = 0 →
  Z.min (PGSIZE - (va - va / PGSIZE * PGSIZE)) len = PGSIZE - va mod PGSIZE ∧ PGSIZE - va mod PGSIZE <= n
  ∧ va / PGSIZE * PGSIZE + PGSIZE = va + (PGSIZE - va mod PGSIZE).
Proof.
  intros Hva Hn Hm Hk.
  assert ((va + n) / PGSIZE ≠ va / PGSIZE) as Hne by (intros E; rewrite E in Hk; by apply (Hm va ltac:(lia))).
  unfold PGSIZE in *. dlia.
Qed.

Lemma kernel_page_untranslated m pt va : kernel_page m pt va → uva2pa m pt va = 0.
Proof.
  intros (Hw & Hv & Hu). unfold uva2pa, leaf in *. destruct (MAXVA <=? va); [done|]. destruct (_ =? 0); [done|].
  by rewrite Hv, Hu.
Qed.

Lemma kernel_page_refused pt va r s p :
  cpu_ok (cur s) → c_proc (cur s) = Some p → 0 <= va < MAXVA →
  kernel_page (mem s) pt (va / PGSIZE * PGSIZE) →
  user_page pt (PGROUNDDOWN va) r s = Ok 0 (settle s) ∧ (MAXVA <=? PGROUNDDOWN va) = false.
Proof.
  intros Hok Hp Hva Hk. rewrite page_round by done. set (pg := va / PGSIZE * PGSIZE) in *.
  assert (Hpg : 0 <= pg < MAXVA ∧ pg mod PGSIZE = 0) by (unfold pg, PGSIZE; split; [dlia | apply Z_mod_mult]).
  destruct Hpg. split; [by apply (user_page_refused pt pg r s p) | lia].
Qed.

Lemma copyin_stops fuel pt s p : ∀ va n len dst,
  cpu_ok (cur s) → c_proc (cur s) = Some p → n < Z.of_nat fuel → 0 <= va → 0 <= n < len → va + n < MAXVA →
  mapped (mem s) pt va n → kernel_page (mem s) pt ((va + n) / PGSIZE * PGSIZE) →
  copyin_loop fuel pt va len dst s = Ok (-1, dst ++ ubytes (mem s) pt va (Z.to_nat n)) (settle s).
Proof.
  induction fuel as [|fuel IH]; intros va n len dst Hok Hp Hf Hva Hn Hmax Hm Hk; [lia|]. cbn [copyin_loop].
  destruct (Z.leb_spec len 0); [lia|]. destruct (decide (n = 0)) as [->|Hn0].
  { rewrite Z.add_0_r in Hk.
    rewrite (bind_Ok _ _ _ _ _ (proj1 (kernel_page_refused pt va true s p Hok Hp ltac:(lia) Hk))).
    simpl. by rewrite app_nil_r. }
  destruct (chunk_before _ pt va n len Hva ltac:(lia) Hm (kernel_page_untranslated _ _ _ Hk)) as (Ec & Hc & Hnext).
  rewrite page_round, Ec, Hnext by lia. set (c := PGSIZE - va mod PGSIZE) in *.
  pose proof (mapped_page (mem s) pt va n ltac:(lia) Hm) as Hpa.
  rewrite (bind_Ok _ _ _ _ _ (user_page_mapped pt _ true s Hpa)).
  apply Z.eqb_neq in Hpa. rewrite Hpa. unfold rmem. kstep.
  assert (0 < c) by (unfold c, PGSIZE; dlia).
  replace (va - va / PGSIZE * PGSIZE) with (va mod PGSIZE) by (unfold PGSIZE; dlia).
  rewrite <- ubytes_page by (done || lia). change MAXVA with (2 ^ 38) in *. rewrite u64_small by lia.
  rewrite (IH (va + c) (n - c)); try done; try lia.
  - rewrite <- (assoc_L (++)). do 3 f_equal.
    replace (Z.to_nat n) with (Z.to_nat c + Z.to_nat (n - c))%nat by lia.
    by rewrite ubytes_app, Z2Nat.id by lia.
  - intros a Ha. apply Hm. lia.
  - by replace (va + c + (n - c)) with (va + n) by lia.
Qed.

(** The PTEs of page [pg] are outside the user range. *)
Definition pte_apart (m : memory) (pt pg va n : Z) : Prop :=
  ∀ a e, va <= a < va + n → e ∈ pt_entries m pt pg → ¬ (e <= phys m pt a < e + 8).

Lemma kernel_page_frame m m' pt pg va n :
  uframe m m' pt va n → pte_apart m pt pg va n → kernel_page m pt pg →
  kernel_page m' pt pg ∧ pt_entries m' pt pg = pt_entries m pt pg.
Proof.
  intros Hf Ha (Hw & Hv & Hu). destruct (translation_frame m m' pt pg) as (He & Hw' & Hl & _).
  { intros e x He Hx. apply Hf. intros a Haa ->. by apply (Ha a e). }
  specialize (Hl Hw). split; [|done]. unfold kernel_page. by rewrite Hw', Hl.
Qed.

Lemma copyout_stops pt fuel p : ∀ va n src s,
  cpu_ok (cur s) → c_proc (cur s) = Some p → n < Z.of_nat fuel → 0 <= va → 0 <= n < Z.of_nat (length src) →
  va + n < MAXVA → Forall (λ b, 0 <= b < 2 ^ 8) src → writable (mem s) pt va n →
  let pg := (va + n) / PGSIZE * PGSIZE in
  kernel_page (mem s) pt pg → pte_apart (mem s) pt pg va n →
  ∃ m', copyout_loop fuel pt va src s = Ok (-1) (settle (set_mem m' s)) ∧ uframe (mem s) m' pt va n
    ∧ ∀ i b, take (Z.to_nat n) src !! i = Some b → m' (phys (mem s) pt (va + Z.of_nat i)) = b.
Proof.
  induction fuel as [|fuel IH]; intros va n src s Hok Hp Hf Hva Hn Hmax Hb Hw pg Hk Ha; [lia|].
  destruct (decide (n = 0)) as [->|Hn0].
  { exists (mem s). split; [|done]. cbn [copyout_loop]. rewrite decide_False by (intros ->; simpl in Hn; lia).
    subst pg. rewrite Z.add_0_r in Hk. destruct (kernel_page_refused pt va false s p Hok Hp ltac:(lia) Hk) as [E ->].
    rewrite (bind_Ok _ _ _ _ _ E). by destruct s. }
  destruct (chunk_before _ pt va n (Z.of_nat (length src)) Hva ltac:(lia) (wr_mapped _ _ _ _ Hw)
    (kernel_page_untranslated _ _ _ Hk)) as (Ec & Hc & Hnext).
  set (c := PGSIZE - va mod PGSIZE) in *. assert (0 < c) by (unfold c, PGSIZE; dlia).
  destruct (copyout_page fuel pt va src n c s ltac:(lia) ltac:(lia) ltac:(done) ltac:(lia) Hb Hw)
    as (m1 & -> & Hf1 & Hc1).
  rewrite Hnext. change MAXVA with (2 ^ 38) in *. rewrite u64_small by lia.
  pose proof (uframe_weaken _ _ _ _ _ n Hc Hf1) as Hf1'.
  destruct (writable_frame _ m1 pt va n (va + c) (n - c) Hw Hf1') as [Hw1 Hph]; [lia..|].
  destruct (kernel_page_frame _ m1 pt pg va n Hf1' Ha Hk) as [Hk1 He1].
  assert (Epg : (va + c + (n - c)) / PGSIZE * PGSIZE = pg) by (unfold pg; do 2 f_equal; lia).
  destruct (IH (va + c) (n - c) (drop (Z.to_nat c) src) (set_mem m1 s)) as (m2 & E2 & Hf2 & Hc2);
    rewrite ?Epg, ?length_drop; try (done || lia).
  { by apply Forall_drop. }
  { intros a e Hae. cbn [mem set_mem]. rewrite He1, Hph by lia. apply Ha. lia. }
  exists m2. rewrite E2. split; [by destruct s|].
  apply (copied_join (mem s) m1 m2 pt va src n c); done || lia.
Qed.

(** The bytes of [l] up to its first NUL, and whether there is one. *)
Fixpoint cut_nul (l : list Z) : list Z * bool :=
  match l with
  | [] => ([], false)
  | b :: l => if b =? 0 then ([0], true) else ((b :: (cut_nul l).1), (cut_nul l).2)
  end.
Lemma cut_nul_app l1 l2 :
  cut_nul (l1 ++ l2) = if (cut_nul l1).2 then cut_nul l1 else ((cut_nul l1).1 ++ (cut_nul l2).1, (cut_nul l2).2).
Proof.
  induction l1 as [|b l1 IH]; simpl; [by destruct (cut_nul l2)|]. destruct (b =? 0); [done|].
  rewrite IH. by destruct (cut_nul l1) as [x []].
Qed.
Lemma copy_until_nul_cut n m : ∀ p, copy_until_nul n m p = cut_nul (read_bytes m p n).
Proof. induction n as [|n IH]; intros p; simpl; [done|]. rewrite IH. done. Qed.

Lemma copyinstr_stops fuel pt s : ∀ va n max dst,
  n < Z.of_nat fuel → 0 <= va → 0 <= n < max → va + n < MAXVA →
  mapped (mem s) pt va n → uva2pa (mem s) pt ((va + n) / PGSIZE * PGSIZE) = 0 →
  let r := cut_nul (ubytes (mem s) pt va (Z.to_nat n)) in
  copyinstr_loop fuel pt va max dst s = Ok (if r.2 then 0 else -1, dst ++ r.1) s.
Proof.
  induction fuel as [|fuel IH]; intros va n max dst Hf Hva Hn Hmax Hm Hk; [lia|]. cbn [copyinstr_loop].
  destruct (Z.leb_spec max 0); [lia|].
  rewrite (bind_Ok _ _ _ _ _ (walkaddr_ok pt _ s)), page_round by lia. destruct (decide (n = 0)) as [->|Hn0].
  { rewrite Z.add_0_r in Hk. rewrite Hk. simpl. by rewrite app_nil_r. }
  destruct (chunk_before _ pt va n max Hva ltac:(lia) Hm Hk) as (Ec & Hc & Hnext).
  rewrite Ec, Hnext by lia. set (c := PGSIZE - va mod PGSIZE) in *.
  pose proof (mapped_page (mem s) pt va n ltac:(lia) Hm) as Hpa.
  apply Z.eqb_neq in Hpa. rewrite Hpa. unfold rmem. kstep.
  assert (0 < c) by (unfold c, PGSIZE; dlia).
  replace (va - va / PGSIZE * PGSIZE) with (va mod PGSIZE) by (unfold PGSIZE; dlia).
  rewrite copy_until_nul_cut, <- ubytes_page by (done || lia).
  replace (Z.to_nat n) with (Z.to_nat c + Z.to_nat (n - c))%nat by lia.
  rewrite ubytes_app, Z2Nat.id, cut_nul_app by lia.
  destruct (cut_nul (ubytes (mem s) pt va (Z.to_nat c))) as [l []] eqn:El; cbn [fst snd]; [done|].
  change MAXVA with (2 ^ 38) in *. rewrite u64_small by lia.
  rewrite (IH (va + c) (n - c)); try done; try lia.
  - by rewrite <- (assoc_L (++)).
  - intros a Ha. apply Hm. lia.
  - by replace (va + c + (n - c)) with (va + n) by lia.
Qed.

(** ** Properties *)

(** C10: when every page of the user range is present and mapped with PTE_U, copyin()
    delivers exactly the bytes that the page tables give to the range, across page boundaries,
    and changes nothing. *)
Theorem copyin_correct pt va len s :
  0 <= va → 0 <= len → va + len <= MAXVA → mapped (mem s) pt va len →
  copyin pt va len s = Ok (0, ubytes (mem s) pt va (Z.to_nat len)) s.
Proof. apply copyin_ok. Qed.

(** What copyout() stores in user space copyin() reads back, and no byte of
    memory outside the physical image of the user range changes. *)
Theorem copyout_copyin_roundtrip pt va src s :
  0 <= va → va + Z.of_nat (length src) <= MAXVA → Forall (λ b, 0 <= b < 2 ^ 8) src →
  writable (mem s) pt va (Z.of_nat (length src)) →
  ∃ m', copyout pt va src s = Ok 0 (set_mem m' s)
    ∧ copyin pt va (Z.of_nat (length src)) (set_mem m' s) = Ok (0, src) (set_mem m' s)
    ∧ uframe (mem s) m' pt va (Z.of_nat (length src)).
Proof.
  intros Hva Hmax Hb Hw. destruct (copyout_ok pt va src s) as (m' & E & Hf & Hc); try done.
  destruct (writable_frame _ m' pt va _ va (Z.of_nat (length src)) Hw Hf) as [Hw' Hph]; [lia..|].
  exists m'. split_and!; [done | | done]. rewrite copyin_ok; try (done || lia); [|apply Hw'].
  rewrite Nat2Z.id. do 2 f_equal. change (mem (set_mem m' s)) with m'. apply list_eq. intros i.
  unfold ubytes. rewrite list_lookup_fmap. destruct (src !! i) as [b|] eqn:Ei.
  - pose proof (lookup_lt_Some _ _ _ Ei). rewrite lookup_seq_lt by done. simpl. f_equal.
    change (ubyte m' pt (va + Z.of_nat i)) with (m' (phys m' pt (va + Z.of_nat i))).
    rewrite Hph by lia. by apply Hc.
  - apply lookup_ge_None in Ei. by rewrite lookup_seq_ge.
Qed.

(** C24: the kernel never copies to or from a page that the page table maps without
    PTE_U (the guard page below the stack, the trapframe, the trampoline). A range may begin on
    user pages, all of them present, and run into such a page after [n] bytes, at its first byte
    or later. Then copyin() and copyout() fail with -1; copyin() has delivered only the [n] bytes
    of the user pages; copyout() has stored only the bytes destined to these pages, and every
    byte of memory outside them is unchanged. copyinstr() never reads past them either: it
    succeeds only if they hold a NUL, and delivers the bytes up to it; otherwise it fails with -1. *)
Theorem kernel_pages_protected pt va n len src s p :
  cpu_ok (cur s) → c_proc (cur s) = Some p → 0 <= va → 0 <= n < len → va + n < MAXVA →
  mapped (mem s) pt va n →
  let pg := (va + n) / PGSIZE * PGSIZE in
  kernel_page (mem s) pt pg →
  copyin pt va len s = Ok (-1, ubytes (mem s) pt va (Z.to_nat n)) (settle s)
  ∧ copyinstr pt va len s
    = (let r := cut_nul (ubytes (mem s) pt va (Z.to_nat n)) in Ok (if r.2 then 0 else -1, r.1) s)
  ∧ (Z.of_nat (length src) = len → Forall (λ b, 0 <= b < 2 ^ 8) src →
     writable (mem s) pt va n → pte_apart (mem s) pt pg va n →
     ∃ m', copyout pt va src s = Ok (-1) (settle (set_mem m' s)) ∧ uframe (mem s) m' pt va n
       ∧ ∀ i b, take (Z.to_nat n) src !! i = Some b → m' (phys (mem s) pt (va + Z.of_nat i)) = b).
Proof.
  intros Hok Hp Hva Hn Hmax Hm pg Hk. split_and!.
  - unfold copyin. rewrite (copyin_stops _ pt s p va n); try done; lia.
  - unfold copyinstr. rewrite (copyinstr_stops _ pt s va n); try done; try lia. by apply kernel_page_untranslated.
  - intros Hlen Hb Hw Ha. apply (copyout_stops pt _ p); try done; lia.
Qed.
End copy.

(** ** A concrete page table

    Pages 1 and 2 are mapped for the user, page 3 without PTE_U. *)
Definition demo_root : Z := 2248146944.
Definition demo_pte (pa flags : Z) : Z := Z.lor (PA2PTE pa) flags.
Definition demo_mem : memory :=
  let l1 := demo_root + PGSIZE in
  let l0 := demo_root + 2 * PGSIZE in
  let m := store64 (λ _, 0) demo_root (demo_pte l1 PTE_V) in
  let m := store64 m l1 (demo_pte l0 PTE_V) in
  let m := store64 m (l0 + 8) (demo_pte (demo_root + 16 * PGSIZE) 23) in
  let m := store64 m (l0 + 16) (demo_pte (demo_root + 9 * PGSIZE) 23) in
  store64 m (l0 + 24) (demo_pte (demo_root + 5 * PGSIZE) 7).
Definition demo_vm : kernel := set_mem demo_mem (demo (Some 0%nat) RUNNING SLEEPING).

(** A concrete address is in none of the listed PTEs. *)
Ltac no_pte He :=
  vm_compute in He;
  repeat (apply elem_of_cons in He as [-> | He];
    [vm_compute; intros [H1 H2]; by (exfalso; apply H1) || discriminate H2|]);
  by apply elem_of_nil in He.

Lemma demo_mapped : mapped demo_mem demo_root 8191 2.
Proof.
  intros a Ha. assert (a = 8191 ∨ a = 8192) as [-> | ->] by lia; vm_compute; discriminate.
Qed.

Lemma demo_writable : writable demo_mem demo_root 8191 2.
Proof.
  assert (Hr : ∀ a, 8191 <= a < 8191 + 2 → a = 8191 ∨ a = 8192) by lia. split.
  - apply demo_mapped.
  - intros a Ha. destruct (Hr a Ha) as [-> | ->]; reflexivity.
  - intros a b Ha Hb. destruct (Hr a Ha) as [-> | ->], (Hr b Hb) as [-> | ->];
      vm_compute; (done || discriminate).
  - intros a b e Ha Hb He. destruct (Hr a Ha) as [-> | ->], (Hr b Hb) as [-> | ->];
      no_pte He.
Qed.

Lemma copyin_correct_witness :
  copyin demo_root 8191 2 demo_vm = Ok (0, ubytes demo_mem demo_root 8191 2) demo_vm.
Proof.
  apply (copyin_correct demo_root 8191 2 demo_vm).
  - lia.
  - lia.
  - vm_compute. discriminate.
  - apply demo_mapped.
Defined.

Lemma copyout_copyin_roundtrip_witness :
  ∃ m', copyout demo_root 8191 [10; 20] demo_vm = Ok 0 (set_mem m' demo_vm)
    ∧ copyin demo_root 8191 2 (set_mem m' demo_vm) = Ok (0, [10; 20]) (set_mem m' demo_vm).
Proof.
  destruct (copyout_copyin_roundtrip demo_root 8191 [10; 20] demo_vm) as (m' & E & E' & _).
  - lia.
  - vm_compute. discriminate.
  - repeat constructor; lia.
  - apply demo_writable.
  - exists m'. split; [exact E | exact E'].
Defined.

(** The last two bytes of page 2, and then page 3. *)
Lemma demo_edge : writable demo_mem demo_root 12286 2 ∧ pte_apart demo_mem demo_root 12288 12286 2.
Proof.
  assert (Hr : ∀ a, 12286 <= a < 12286 + 2 → a = 12286 ∨ a = 12287) by lia. split; [split|].
  - intros a Ha. destruct (Hr a Ha) as [-> | ->]; vm_compute; discriminate.
  - intros a Ha. destruct (Hr a Ha) as [-> | ->]; reflexivity.
  - intros a b Ha Hb. destruct (Hr a Ha) as [-> | ->], (Hr b Hb) as [-> | ->];
      vm_compute; (done || discriminate).
  - intros a b e Ha Hb He. destruct (Hr a Ha) as [-> | ->], (Hr b Hb) as [-> | ->];
      no_pte He.
  - intros a e Ha He. destruct (Hr a Ha) as [-> | ->];
      no_pte He.
Qed.

Lemma kernel_pages_protected_witness :
  copyin demo_root 12286 3 demo_vm = Ok (-1, [0; 0]) (settle demo_vm)
  ∧ copyinstr demo_root 12286 3 demo_vm = Ok (0, [0]) demo_vm
  ∧ ∃ m', copyout demo_root 12286 [1; 2; 3] demo_vm = Ok (-1) (settle (set_mem m' demo_vm))
      ∧ m' (phys demo_mem demo_root 12287) = 2.
Proof.
  destruct (kernel_pages_protected demo_root 12286 2 3 [1; 2; 3] demo_vm 0) as (H1 & H2 & H3).
  - split; simpl; lia.
  - reflexivity.
  - lia.
  - lia.
  - vm_compute. reflexivity.
  - apply (wr_mapped _ _ _ _ (proj1 demo_edge)).
  - split_and!; [vm_compute; discriminate | reflexivity | reflexivity].
  - split; [exact H1|]. split; [exact H2|].
    destruct H3 as (m' & E & _ & Hm).
    + reflexivity.
    + repeat constructor; lia.
    + exact (proj1 demo_edge).
    + exact (proj2 demo_edge).
    + exists m'. split; [exact E|]. exact (Hm 1%nat 2 eq_refl).
Defined.
