(* ===== verification/VmMap.v ===== *)
(** Building page tables: walk() with allocation and mappages() keep the tree of
    page-table pages well-formed and change exactly the mappings they should.

    The abstract view of a page table is [pte_of]: the PTE of every user address,
    0 where there is none. *)
From S2P Require Import Prelude Pstat Kernel Spinlock Sched Cstring Riscv Kalloc Vm VmCopy.

(** ** Indices *)

Lemma PX_eq level va : 0 <= level → 0 <= va → PX level va = va / 2 ^ (12 + 9 * level) mod 512.
Proof.
  intros. unfold PX, PXMASK, PXSHIFT, PGSHIFT. rewrite Z.shiftr_div_pow2 by lia.
  change 511 with (Z.ones 9). by rewrite Z.land_ones by lia.
Qed.
Lemma PX_range level va : 0 <= level → 0 <= va → 0 <= PX level va < 512.
Proof. intros. rewrite PX_eq by done. apply Z.mod_pos_bound. lia. Qed.

(** The three indices determine the page. *)
Lemma PX_inj va va' :
  0 <= va < MAXVA → 0 <= va' < MAXVA →
  PX 2 va = PX 2 va' → PX 1 va = PX 1 va' → PX 0 va = PX 0 va' → va / PGSIZE = va' / PGSIZE.
Proof.
  intros Hva Hva'. rewrite !PX_eq by lia. change MAXVA with (2 ^ 38) in *. unfold PGSIZE.
  change (12 + 9 * 2) with 30. change (12 + 9 * 1) with 21. change (12 + 9 * 0) with 12.
  replace (va / 2 ^ 30) with (va / 4096 / 512 / 512) by (rewrite !Z.div_div by lia; f_equal).
  replace (va' / 2 ^ 30) with (va' / 4096 / 512 / 512) by (rewrite !Z.div_div by lia; f_equal).
  replace (va / 2 ^ 21) with (va / 4096 / 512) by (rewrite !Z.div_div by lia; f_equal).
  replace (va' / 2 ^ 21) with (va' / 4096 / 512) by (rewrite !Z.div_div by lia; f_equal).
  change (2 ^ 12) with 4096. intros H2 H1 H0.
  assert (0 <= va / 4096 < 2 ^ 26 ∧ 0 <= va' / 4096 < 2 ^ 26) as [Ha Hb] by dlia.
  generalize dependent (va / 4096). generalize dependent (va' / 4096). intros. dlia.
Qed.

(** Entries of different tables, or different entries of one, do not overlap. *)
Lemma pte_disjoint p q i j :
  p mod PGSIZE = 0 → q mod PGSIZE = 0 → 0 <= i < 512 → 0 <= j < 512 → p ≠ q ∨ i ≠ j →
  pte_addr p i + 8 <= pte_addr q j ∨ pte_addr q j + 8 <= pte_addr p i.
Proof.
  intros Hp Hq Hi Hj Hne. unfold pte_addr. destruct (decide (p = q)) as [->|Hpq]; [lia|].
  destruct (page_disjoint p q Hp Hq Hpq); unfold PGSIZE in *; lia.
Qed.
Lemma pte_outside p q i :
  p mod PGSIZE = 0 → q mod PGSIZE = 0 → 0 <= i < 512 → p ≠ q →
  pte_addr p i + 8 <= q ∨ q + PGSIZE <= pte_addr p i.
Proof.
  intros Hp Hq Hi Hne. unfold pte_addr. destruct (page_disjoint p q Hp Hq Hne); unfold PGSIZE in *; lia.
Qed.

Section map.
Context {img : Image}.

(** ** The tree of page-table pages *)

Definition t1 (m : memory) (root va : Z) : option Z := pt_next m va 2 root.
Definition t0 (m : memory) (root va : Z) : option Z := p1 ← t1 m root va; pt_next m va 1 p1.

Definition pte_of (m : memory) (root va : Z) : Z :=
  match t0 m root va with None => 0 | Some p0 => load64 m (pte_addr p0 (PX 0 va)) end.

(** [ts] are the pages of the tree under [root]; different paths lead to different
    pages. *)
Record pgtree (m : memory) (root : Z) (ts : list Z) : Prop := {
  pg_root : root ∈ ts;
  pg_pages : Forall page_ok ts;
  pg_t1 : ∀ va p1, 0 <= va → t1 m root va = Some p1 → p1 ∈ ts ∧ p1 ≠ root;
  pg_t0 : ∀ va p0, 0 <= va → t0 m root va = Some p0 → p0 ∈ ts ∧ p0 ≠ root;
  pg_inj1 : ∀ va va' p, 0 <= va → 0 <= va' → t1 m root va = Some p → t1 m root va' = Some p →
    PX 2 va = PX 2 va';
  pg_inj0 : ∀ va va' p, 0 <= va → 0 <= va' → t0 m root va = Some p → t0 m root va' = Some p →
    PX 2 va = PX 2 va' ∧ PX 1 va = PX 1 va';
  pg_levels : ∀ va va' p, 0 <= va → 0 <= va' → t1 m root va = Some p → t0 m root va' ≠ Some p;
}.

Lemma pg_aligned m root ts p : pgtree m root ts → p ∈ ts → p mod PGSIZE = 0.
Proof.
  intros Ht Hp. pose proof (pg_pages _ _ _ Ht) as Hf. rewrite Forall_forall in Hf.
  by apply Hf.
Qed.

Lemma t1_index m root va va' : PX 2 va = PX 2 va' → t1 m root va = t1 m root va'.
Proof. intros E. unfold t1, pt_next. by rewrite E. Qed.
Lemma pt_next1_index m va va' p : PX 1 va = PX 1 va' → pt_next m va 1 p = pt_next m va' 1 p.
Proof. intros E. unfold pt_next. by rewrite E. Qed.

(** pt_walk() finds the PTE of the tree. *)
Lemma pt_walk_t0 m root va :
  pt_walk m root va = match t0 m root va with None => 0 | Some p0 => pte_addr p0 (PX 0 va) end.
Proof.
  unfold pt_walk, t0, t1. destruct (pt_next m va 2 root) as [p1|]; [|done]. simpl.
  by destruct (pt_next m va 1 p1).
Qed.

(** What a link to a page reads back as. *)
Lemma link_valid pg :
  page_ok pg →
  let v := Z.lor (PA2PTE pg) PTE_V in
  0 <= v < 2 ^ 64 ∧ bit v PTE_V = true ∧ PTE2PA v = pg.
Proof.
  intros Hp v. pose proof (page_ok_pos pg Hp) as Hr.
  destruct (PTE_roundtrip pg PTE_V) as [Hpa Hfl]; [lia | apply Hp | unfold PTE_V; lia |].
  fold v in Hpa, Hfl. split; [|split; [|done]].
  - unfold v. rewrite PA2PTE_eq, lor_low by (unfold PTE_V; lia). unfold PGSIZE, PTE_V. dlia.
  - unfold bit, PTE_FLAGS in *. unfold PTE_V in *.
    replace (Z.land v 1) with (Z.land (Z.land v 1023) 1) by (rewrite <- Z.land_assoc; done).
    by rewrite Hfl.
Qed.

(** ** Linking a new page *)

(** [m'] is [m] with entry [i] of the table [t] pointing at the zeroed page [pg]; the
    other entries of the pages [ts] are the same. *)
Record linked (m m' : memory) (ts : list Z) (t i pg : Z) : Prop := {
  ln_page : page_ok pg;
  ln_fresh : pg ∉ ts;
  ln_entry : load64 m' (pte_addr t i) = Z.lor (PA2PTE pg) PTE_V;
  ln_zero : ∀ j, 0 <= j < 512 → load64 m' (pte_addr pg j) = 0;
  ln_same : ∀ q j, q ∈ ts → 0 <= j < 512 → q ≠ t ∨ j ≠ i →
    load64 m' (pte_addr q j) = load64 m (pte_addr q j);
}.

Lemma linked_next m m' ts va' level t i pg q :
  linked m m' ts t i pg → 0 <= level → 0 <= va' → q ∈ ts → q ≠ t ∨ PX level va' ≠ i →
  pt_next m' va' level q = pt_next m va' level q.
Proof.
  intros Hl Hlv Hva Hq Hne. unfold pt_next.
  by rewrite (ln_same _ _ _ _ _ _ Hl) by (done || by apply PX_range).
Qed.
Lemma linked_hit m m' ts va' level t pg :
  linked m m' ts t (PX level va') pg → pt_next m' va' level t = Some pg.
Proof.
  intros Hl. unfold pt_next. rewrite (ln_entry _ _ _ _ _ _ Hl).
  destruct (link_valid pg (ln_page _ _ _ _ _ _ Hl)) as (_ & -> & ->). done.
Qed.
Lemma linked_zero m m' ts va' level t i pg :
  linked m m' ts t i pg → 0 <= level → 0 <= va' → pt_next m' va' level pg = None.
Proof.
  intros Hl Hlv Hva. unfold pt_next.
  by rewrite (ln_zero _ _ _ _ _ _ Hl) by (by apply PX_range).
Qed.

Section link.
Variables (m m' : memory) (root : Z) (ts : list Z) (va pg : Z).
Hypothesis Ht : pgtree m root ts.
Hypothesis Hva : 0 <= va.

(** At the root: a new second-level table. *)
Section root.
Hypothesis Hl : linked m m' ts root (PX 2 va) pg.
Hypothesis Hnone : t1 m root va = None.

Lemma link_root_t1 va' : 0 <= va' →
  t1 m' root va' = if PX 2 va' =? PX 2 va then Some pg else t1 m root va'.
Proof.
  intros H. destruct (PX 2 va' =? PX 2 va) eqn:E.
  - apply Z.eqb_eq in E. apply (linked_hit m m' ts). by rewrite E.
  - apply Z.eqb_neq in E. apply (linked_next _ _ _ _ _ _ _ _ _ Hl); [done.. | apply Ht | by right].
Qed.
Lemma link_root_t0 va' : 0 <= va' → t0 m' root va' = t0 m root va'.
Proof.
  intros H. unfold t0. rewrite link_root_t1 by done. destruct (PX 2 va' =? PX 2 va) eqn:E.
  - apply Z.eqb_eq in E. rewrite (t1_index m root va' va E), Hnone. simpl.
    by apply (linked_zero _ _ _ _ _ _ _ _ Hl).
  - destruct (t1 m root va') as [p1|] eqn:E1; [|done]. simpl.
    destruct (pg_t1 _ _ _ Ht va' p1 H E1).
    apply (linked_next _ _ _ _ _ _ _ _ _ Hl); [done.. | by left].
Qed.

Lemma link_root_tree : pgtree m' root (pg :: ts).
Proof.
  destruct Ht as [Hr Hp H1 H0 I1 I0 Hlv]. pose proof (ln_fresh _ _ _ _ _ _ Hl) as Hf. split.
  - by constructor.
  - constructor; [apply Hl | done].
  - intros v p1 Hv. rewrite link_root_t1 by done. destruct (_ =? _); [|naive_solver set_solver].
    intros [= <-]. split; [constructor | congruence].
  - intros v p0 Hv. rewrite link_root_t0 by done. naive_solver set_solver.
  - intros v v' p Hv Hv'. rewrite !link_root_t1 by done.
    destruct (PX 2 v =? PX 2 va) eqn:E, (PX 2 v' =? PX 2 va) eqn:E'; [lia | | | eauto].
    + intros [= <-] E2. by destruct (H1 _ _ Hv' E2).
    + intros E2 [= <-]. by destruct (H1 _ _ Hv E2).
  - intros v v' p Hv Hv'. rewrite !link_root_t0 by done. eauto.
  - intros v v' p Hv Hv'. rewrite link_root_t1, link_root_t0 by done.
    destruct (_ =? _); [|eauto]. intros [= <-] E0. by destruct (H0 _ _ Hv' E0).
Qed.
Lemma link_root_pte va' : 0 <= va' → pte_of m' root va' = pte_of m root va'.
Proof.
  intros H. unfold pte_of. rewrite link_root_t0 by done.
  destruct (t0 m root va') as [p0|] eqn:E; [|done]. destruct (pg_t0 _ _ _ Ht va' p0 H E).
  apply (ln_same _ _ _ _ _ _ Hl); [done | by apply PX_range | by left].
Qed.
End root.

(** At the second level: a new table of leaves. *)
Section middle.
Variable p1 : Z.
Hypothesis Hp1 : t1 m root va = Some p1.
Hypothesis Hl : linked m m' ts p1 (PX 1 va) pg.
Hypothesis Hnone : t0 m root va = None.

Lemma link_mid_t1 va' : 0 <= va' → t1 m' root va' = t1 m root va'.
Proof.
  intros H. destruct (pg_t1 _ _ _ Ht va p1 Hva Hp1).
  apply (linked_next _ _ _ _ _ _ _ _ _ Hl); [done.. | apply Ht | by left].
Qed.
Lemma link_mid_t0 va' : 0 <= va' →
  t0 m' root va' = if (PX 2 va' =? PX 2 va) && (PX 1 va' =? PX 1 va) then Some pg else t0 m root va'.
Proof.
  intros H. unfold t0. rewrite link_mid_t1 by done. destruct (_ && _) eqn:E.
  - apply andb_true_iff in E as [E2%Z.eqb_eq E1%Z.eqb_eq].
    rewrite (t1_index m root va' va E2), Hp1. simpl. apply (linked_hit m m' ts). by rewrite E1.
  - destruct (t1 m root va') as [q|] eqn:Eq; [|done]. simpl.
    destruct (pg_t1 _ _ _ Ht va' q H Eq). apply (linked_next _ _ _ _ _ _ _ _ _ Hl); [done..|].
    destruct (decide (q = p1)) as [->|]; [right | by left].
    pose proof (pg_inj1 _ _ _ Ht _ _ _ H Hva Eq Hp1). lia.
Qed.

Lemma link_mid_tree : pgtree m' root (pg :: ts).
Proof.
  destruct Ht as [Hr Hp H1 H0 I1 I0 Hlv]. pose proof (ln_fresh _ _ _ _ _ _ Hl) as Hf. split.
  - by constructor.
  - constructor; [apply Hl | done].
  - intros v q Hv. rewrite link_mid_t1 by done. naive_solver set_solver.
  - intros v q Hv. rewrite link_mid_t0 by done. destruct (_ && _); [|naive_solver set_solver].
    intros [= <-]. split; [constructor | congruence].
  - intros v v' p Hv Hv'. rewrite !link_mid_t1 by done. eauto.
  - intros v v' p Hv Hv'. rewrite !link_mid_t0 by done.
    destruct ((PX 2 v =? _) && _) eqn:E, ((PX 2 v' =? _) && _) eqn:E'; [lia | | | eauto].
    + intros [= <-] E2. by destruct (H0 _ _ Hv' E2).
    + intros E2 [= <-]. by destruct (H0 _ _ Hv E2).
  - intros v v' p Hv Hv'. rewrite link_mid_t1, link_mid_t0 by done.
    destruct (_ && _); [|eauto]. intros E1 [= <-]. by destruct (H1 _ _ Hv E1).
Qed.
Lemma link_mid_pte va' : 0 <= va' → pte_of m' root va' = pte_of m root va'.
Proof.
  intros H. unfold pte_of. rewrite link_mid_t0 by done. destruct (_ && _) eqn:E.
  - apply andb_true_iff in E as [E2%Z.eqb_eq E1%Z.eqb_eq].
    assert (t0 m root va' = None) as ->.
    { rewrite <- Hnone. unfold t0. rewrite (t1_index m root va' va E2).
      destruct (t1 m root va); [|done]. by apply pt_next1_index. }
    apply (ln_zero _ _ _ _ _ _ Hl), PX_range; lia.
  - destruct (t0 m root va') as [p0|] eqn:E0; [|done]. destruct (pg_t0 _ _ _ Ht va' p0 H E0).
    apply (ln_same _ _ _ _ _ _ Hl); [done | by apply PX_range | left].
    intros ->. by apply (pg_levels _ _ _ Ht va va' p1).
Qed.
End middle.
End link.

(** ** walk() with allocation *)

(** What the allocator and the tree under [root] agree on: [ts] are the pages of the
    tree, [l] the free pages. *)
Record vm_inv (s : kernel) (root : Z) (ts l : list Z) : Prop := {
  vi_lock : kmem_free s;
  vi_free : kmem_ok s l;
  vi_tree : pgtree (mem s) root ts;
  vi_disj : ∀ p, p ∈ ts → p ∉ l;
}.

(** Only the memory, the free list and the interrupt bookkeeping change, and no memory
    outside the pages [ps]. *)
Definition vm_frame (ps : list Z) (s s' : kernel) : Prop :=
  (∃ m f, s' = set_mem m (set_freelist f s) ∨ s' = set_mem m (set_freelist f (settle s)))
  ∧ ∀ x, (∀ p, p ∈ ps → ¬ p <= x < p + PGSIZE) → mem s' x = mem s x.

Lemma vm_frame_refl ps s : vm_frame ps s s.
Proof. split; [exists (mem s), (freelist s); left; by destruct s | done]. Qed.
Lemma vm_frame_trans ps ps' s s1 s' :
  ps ⊆ ps' → vm_frame ps s s1 → vm_frame ps' s1 s' → vm_frame ps' s s'.
Proof.
  intros Hps [(m1 & f1 & H1) M1] [(m2 & f2 & H2) M2]. split.
  - exists m2, f2. destruct H1 as [->| ->], H2 as [->| ->]; [by left | by right | by right |].
    right. unfold settle. simpl. by rewrite settled_idemp.
  - intros x Hx. rewrite M2, M1; [done | | done]. intros p Hp. by apply Hx, Hps.
Qed.

(** Taking a page off the free list, clearing it and linking it in. *)
Definition link_mem (m : memory) (pg t i : Z) : memory :=
  store64 (memset (memset m pg 5 PGSIZE) pg 0 PGSIZE) (pte_addr t i) (Z.lor (PA2PTE pg) PTE_V).

Lemma memset_page_frame m p c : frame p PGSIZE m (memset m p c PGSIZE).
Proof. exact (memset_frame m p c PGSIZE). Qed.
Lemma memset_page_zero m p j : 0 <= j < 512 → load64 (memset m p 0 PGSIZE) (pte_addr p j) = 0.
Proof.
  intros Hj. rewrite (load_ext 8 _ (λ _, 0)); [done|]. intros x Hx. rewrite memset_spec.
  change (u32 PGSIZE) with PGSIZE. unfold pte_addr, PGSIZE in *.
  destruct ((p <=? x) && (x <? p + 4096)) eqn:E; [done | blia].
Qed.

Lemma link_mem_linked m ts t i pg :
  Forall page_ok ts → page_ok pg → pg ∉ ts → t ∈ ts → 0 <= i < 512 →
  linked m (link_mem m pg t i) ts t i pg.
Proof.
  intros Hts Hpg Hf Ht Hi. rewrite Forall_forall in Hts.
  assert (Hal : ∀ q, q ∈ ts → q mod PGSIZE = 0 ∧ q ≠ pg) by (intros q Hq; split; [apply Hts, Hq | congruence]).
  destruct (Hal t Ht) as [Hta Htp]. split; [done.. | | |].
  - apply load64_store64, link_valid, Hpg.
  - intros j Hj. unfold link_mem. rewrite load_store_ne; [by apply memset_page_zero|].
    apply pte_disjoint; (done || apply Hpg || by left).
  - intros q j Hq Hj Hne. destruct (Hal q Hq) as [Hqa Hqp]. unfold link_mem.
    rewrite load_store_ne by (apply pte_disjoint; done).
    by rewrite !(load_frame 8 _ _ _ _ _ (memset_page_frame _ _ _))
      by (apply pte_outside; done || apply Hpg).
Qed.

Lemma link_mem_untouched m pg t i x :
  0 <= i < 512 → ¬ pg <= x < pg + PGSIZE → ¬ t <= x < t + PGSIZE → link_mem m pg t i x = m x.
Proof.
  intros Hi Hp Ht. unfold link_mem. rewrite (store_frame 8) by (unfold pte_addr, PGSIZE in *; lia).
  by rewrite !(memset_page_frame _ _ _ x).
Qed.

Lemma link_chain m r l pg t i :
  Forall page_ok l → page_ok pg → pg ∉ l → t mod PGSIZE = 0 → t ∉ l → 0 <= i < 512 →
  chain m r l → chain (link_mem m pg t i) r l.
Proof.
  intros Hl Hpg Hp Hta Ht Hi Hc. unfold link_mem.
  eapply (chain_frame _ _ _ _ t Hta); [|done..|].
  { intros x Hx. apply (store_frame 8). unfold pte_addr, PGSIZE in *. lia. }
  eapply (chain_frame _ _ _ _ pg (proj1 Hpg)); [apply memset_page_frame | done..|].
  eapply (chain_frame _ _ _ _ pg (proj1 Hpg)); [apply memset_page_frame | done..].
Qed.

(** walk()'s step where the table is missing. *)
Lemma walk_step_alloc s root ts l va level t :
  vm_inv s root ts l → 0 <= va → 0 <= level → t ∈ ts → pt_next (mem s) va level t = None →
  match l with
  | [] => walk_step va true level t s = Ok None (settle s)
  | pg :: l =>
      ∃ f, let s' := set_mem (link_mem (mem s) pg t (PX level va)) (set_freelist f (settle s)) in
      walk_step va true level t s = Ok (Some pg) s' ∧ kmem_free s' ∧ kmem_ok s' l
      ∧ linked (mem s) (mem s') ts t (PX level va) pg
  end.
Proof.
  intros [Hk Hf Ht Hd] Hva Hlv Hin Hn. unfold walk_step, rmem. ksteps.
  assert (bit (load64 (mem s) (pte_addr t (PX level va))) PTE_V = false) as ->.
  { unfold pt_next in Hn. by destruct (bit _ _). }
  simpl. destruct l as [|pg l].
  - by rewrite (bind_Ok _ _ _ _ _ (kalloc_empty s Hk Hf)).
  - rewrite (bind_Ok _ _ _ _ _ (kalloc_pop s pg l Hk Hf)).
    destruct (kmem_free_settle s (link_mem (mem s) pg t (PX level va)) (load64 (mem s) pg) Hk).
    destruct Hf as [[Hr Hc] Hnd Hp]. apply Forall_cons in Hp as [Hp Hl].
    apply NoDup_cons in Hnd as [Hpl Hnd]. pose proof (page_ok_pos pg Hp).
    destruct (pg =? 0) eqn:E0; [lia|]. pose proof (PX_range level va Hlv Hva).
    assert ((pg ∉ ts) ∧ (t ∉ l)) as [Hpt Htl] by set_solver.
    exists (load64 (mem s) pg). split_and!; [| done.. | |].
    + unfold wmem. ksteps. reflexivity.
    + split; [|done..]. simpl. apply link_chain; try done. by apply (pg_aligned (mem s) root ts).
    + apply link_mem_linked; try done. apply Ht.
Qed.

(** Pages may have moved from the free list into the tree; no mapping changed. *)
Record grown (root : Z) (s : kernel) (ts l : list Z) (s' : kernel) (ts' l' : list Z) : Prop := {
  gr_inv : vm_inv s' root ts' l';
  gr_pages : ts' ++ l' ≡ₚ ts ++ l;
  gr_frame : ts ⊆ ts' ∧ vm_frame ts' s s';
  gr_pte : ∀ va, 0 <= va → pte_of (mem s') root va = pte_of (mem s) root va;
}.

Lemma grown_refl root s ts l : vm_inv s root ts l → grown root s ts l s ts l.
Proof. intros H. split; [done | done | split; [done | apply vm_frame_refl] | done]. Qed.
Lemma grown_trans root s ts l s1 ts1 l1 s' ts' l' :
  grown root s ts l s1 ts1 l1 → grown root s1 ts1 l1 s' ts' l' → grown root s ts l s' ts' l'.
Proof.
  intros [I1 P1 [S1 F1] E1] [I2 P2 [S2 F2] E2]. split; [done | by rewrite P2 | | intros; rewrite E2; auto].
  split; [by etrans | by apply (vm_frame_trans ts1 _ _ s1)].
Qed.

Lemma vm_inv_settle s root ts l : vm_inv s root ts l → vm_inv (settle s) root ts l.
Proof.
  intros [[Hc Hl] [? ? ?] Ht Hd]. split; [split; [by apply cpu_ok_settled | done] | done..].
Qed.
Lemma grown_settle root s ts l : vm_inv s root ts l → grown root s ts l (settle s) ts l.
Proof.
  intros H. split; [by apply vm_inv_settle | done | | done]. split; [done|]. split; [|done].
  exists (mem s), (freelist s). right. by destruct s.
Qed.

(** Linking a page keeps the invariant, whatever the level. *)
Lemma grown_link root s ts l pg t i f :
  let s' := set_mem (link_mem (mem s) pg t i) (set_freelist f (settle s)) in
  vm_inv s root ts (pg :: l) → t ∈ ts → 0 <= i < 512 → kmem_free s' → kmem_ok s' l →
  pgtree (mem s') root (pg :: ts) →
  (∀ va, 0 <= va → pte_of (mem s') root va = pte_of (mem s) root va) →
  grown root s ts (pg :: l) s' (pg :: ts) l.
Proof.
  intros s' [_ [_ Hnd _] _ Hd] Ht Hi Hk Hf Htr Hp. apply NoDup_cons in Hnd as [Hpl _].
  split; [| apply Permutation_middle | | done].
  - split; [done.. |]. intros p [->|Hp']%elem_of_cons; [done|]. apply Hd in Hp'. set_solver.
  - split; [set_solver|]. split; [by eexists _, _; right|].
    intros x Hx. apply link_mem_untouched; [done | apply Hx..]; set_solver.
Qed.

Definition step_found (tab : memory → option Z) (root : Z) (s : kernel) (ts l : list Z)
    (r : res (option Z)) : Prop :=
  ∃ o s' ts' l', r = Ok o s' ∧ grown root s ts l s' ts' l'
    ∧ (length l <= S (length l'))%nat ∧ (o = None → l = [] ∧ l' = [])
    ∧ (∀ p, o = Some p → tab (mem s') = Some p).

Lemma walk_step_valid s va level t alloc p :
  pt_next (mem s) va level t = Some p → walk_step va alloc level t s = Ok (Some p) s.
Proof.
  unfold walk_step, rmem, pt_next. intros H. kstep. destruct (bit _ _); [by injection H as <- | done].
Qed.

Lemma walk_level2 s root ts l va :
  vm_inv s root ts l → 0 <= va →
  step_found (λ m, t1 m root va) root s ts l (walk_step va true 2 root s).
Proof.
  intros Hi Hva. destruct (t1 (mem s) root va) as [p1|] eqn:E1.
  { exists (Some p1), s, ts, l.
    split_and!; [by apply walk_step_valid | by apply grown_refl | lia | done | congruence]. }
  pose proof (pg_root _ _ _ (vi_tree _ _ _ _ Hi)) as Hr.
  pose proof (walk_step_alloc s root ts l va 2 root Hi Hva ltac:(lia) Hr E1) as Hs.
  destruct l as [|pg l].
  { exists None, (settle s), ts, []. split_and!; [done | by apply grown_settle | simpl; lia | done | done]. }
  destruct Hs as (f & Hs & Hk & Hf & Hl). eexists (Some pg), _, (pg :: ts), l. split_and!; [done | | done | done |].
  - pose proof (vi_tree _ _ _ _ Hi) as Ht.
    apply grown_link; try done; [by apply PX_range | by apply (link_root_tree (mem s) _ root ts va) |].
    intros va' H. by apply (link_root_pte (mem s) _ root ts va pg).
  - intros p [= <-]. by apply (linked_hit _ _ _ _ _ _ _ Hl).
Qed.

Lemma walk_level1 s root ts l va p1 :
  vm_inv s root ts l → 0 <= va → t1 (mem s) root va = Some p1 →
  step_found (λ m, t0 m root va) root s ts l (walk_step va true 1 p1 s).
Proof.
  intros Hi Hva E1. pose proof (vi_tree _ _ _ _ Hi) as Ht.
  destruct (pg_t1 _ _ _ Ht va p1 Hva E1) as [Hp1 _].
  destruct (pt_next (mem s) va 1 p1) as [p0|] eqn:E0.
  { exists (Some p0), s, ts, l. split_and!; [by apply walk_step_valid | by apply grown_refl | lia | done |].
    intros p [= <-]. unfold t0. by rewrite E1. }
  assert (Hn : t0 (mem s) root va = None) by (unfold t0; by rewrite E1).
  pose proof (walk_step_alloc s root ts l va 1 p1 Hi Hva ltac:(lia) Hp1 E0) as Hs.
  destruct l as [|pg l].
  { exists None, (settle s), ts, []. split_and!; [done | by apply grown_settle | simpl; lia | done | done]. }
  destruct Hs as (f & Hs & Hk & Hf & Hl). eexists (Some pg), _, (pg :: ts), l. split_and!; [done | | done | done |].
  - apply grown_link; try done; [by apply PX_range | by apply (link_mid_tree (mem s) _ root ts va pg Ht Hva p1) |].
    intros va' H. by apply (link_mid_pte (mem s) _ root ts va pg Ht Hva p1).
  - intros p [= <-]. rewrite (link_mid_t0 (mem s) _ root ts va pg Ht Hva p1) by done.
    by rewrite !Z.eqb_refl.
Qed.

(** walk(.., 1) finds the PTE, growing the tree as needed, or runs out of memory. *)
Lemma walk_alloc_ok s root ts l va :
  vm_inv s root ts l → 0 <= va < MAXVA →
  ∃ pte s' ts' l', walk root va true s = Ok pte s' ∧ grown root s ts l s' ts' l'
    ∧ (length l <= 2 + length l')%nat
    ∧ ((pte = 0 ∧ l' = [] ∧ (length l < 2)%nat) ∨ ∃ p0, t0 (mem s') root va = Some p0 ∧ pte = pte_addr p0 (PX 0 va)).
Proof.
  intros Hi Hva. unfold walk. destruct (MAXVA <=? va) eqn:E; [lia|].
  destruct (walk_level2 s root ts l va Hi (proj1 Hva)) as (o & s1 & ts1 & l1 & E1 & G1 & L1 & N1 & F1).
  rewrite (bind_Ok _ _ _ _ _ E1). destruct o as [p1|].
  2: { destruct (N1 eq_refl) as [-> ->]. exists 0, s1, ts1, []. split_and!; [done | done | simpl; lia | left].
       split_and!; (done || simpl; lia). }
  destruct (walk_level1 s1 root ts1 l1 va p1 (gr_inv _ _ _ _ _ _ _ G1) (proj1 Hva) (F1 _ eq_refl))
    as (o & s2 & ts2 & l2 & E2 & G2 & L2 & N2 & F2).
  rewrite (bind_Ok _ _ _ _ _ E2). pose proof (grown_trans _ _ _ _ _ _ _ _ _ _ G1 G2).
  destruct o as [p0|]; eexists _, s2, ts2, l2; (split_and!; [done.. | lia |]); [right; exists p0; auto | left].
  destruct (N2 eq_refl) as [-> ->]. split_and!; (done || simpl in *; lia).
Qed.

(** ** Writing a leaf *)

Section leaf.
Variables (m : memory) (root : Z) (ts : list Z) (va p0 v : Z).
Hypothesis Ht : pgtree m root ts.
Hypothesis Hva : 0 <= va.
Hypothesis Hp0 : t0 m root va = Some p0.
Let m' := store64 m (pte_addr p0 (PX 0 va)) v.

Lemma leaf_same q j : q ∈ ts → 0 <= j < 512 → q ≠ p0 ∨ j ≠ PX 0 va →
  load64 m' (pte_addr q j) = load64 m (pte_addr q j).
Proof.
  intros Hq Hj Hne. destruct (pg_t0 _ _ _ Ht va p0 Hva Hp0) as [Hin _].
  apply load_store_ne, pte_disjoint; try done; [by eapply pg_aligned.. | by apply PX_range].
Qed.
Lemma leaf_next va' level q :
  0 <= level → 0 <= va' → q ∈ ts → q ≠ p0 → pt_next m' va' level q = pt_next m va' level q.
Proof.
  intros. unfold pt_next. by rewrite leaf_same by (done || by apply PX_range || by left).
Qed.
Lemma leaf_t1 va' : 0 <= va' → t1 m' root va' = t1 m root va'.
Proof.
  intros H. destruct (pg_t0 _ _ _ Ht va p0 Hva Hp0) as [_ Hr].
  apply leaf_next; [done.. | apply Ht | done].
Qed.
Lemma leaf_t0 va' : 0 <= va' → t0 m' root va' = t0 m root va'.
Proof.
  intros H. unfold t0. rewrite leaf_t1 by done. destruct (t1 m root va') as [q|] eqn:E; [|done]. simpl.
  destruct (pg_t1 _ _ _ Ht va' q H E). apply leaf_next; [done.. |].
  intros ->. by apply (pg_levels _ _ _ Ht va' va p0).
Qed.
Lemma leaf_tree : pgtree m' root ts.
Proof.
  destruct Ht as [Hr Hp H1 H0 I1 I0 Hlv].
  split; [done | done | intros ? ?.. ]; [| | | |].
  all: intros; rewrite ?leaf_t1, ?leaf_t0 in * by done; eauto.
Qed.

(** Exactly the PTE of the page of [va] changes. *)
Lemma leaf_pte va' :
  va < MAXVA → 0 <= va' < MAXVA → 0 <= v < 2 ^ 64 →
  pte_of m' root va' = if va' / PGSIZE =? va / PGSIZE then v else pte_of m root va'.
Proof.
  intros Hm Hv' Hv. unfold pte_of. rewrite leaf_t0 by lia. destruct (_ =? _) eqn:E.
  - apply Z.eqb_eq in E.
    assert (HPX : ∀ k, 0 <= k → PX k va' = PX k va).
    { intros k Hk. rewrite !PX_eq by lia. rewrite !Z.pow_add_r, <- !Z.div_div by lia.
      change (2 ^ 12) with PGSIZE. by rewrite E. }
    assert (t0 m root va' = Some p0) as ->.
    { rewrite <- Hp0. unfold t0. rewrite (t1_index m root va' va) by (apply HPX; lia).
      destruct (t1 m root va); [|done]. apply pt_next1_index, HPX. lia. }
    rewrite HPX by lia. by apply load64_store64.
  - destruct (t0 m root va') as [q|] eqn:Eq; [|done].
    destruct (pg_t0 _ _ _ Ht va' q (proj1 Hv') Eq). apply leaf_same; [done | apply PX_range; lia |].
    destruct (decide (q = p0)) as [->|]; [right | by left]. intros E0.
    destruct (pg_inj0 _ _ _ Ht va' va p0 (proj1 Hv') Hva Eq Hp0) as [E2 E1].
    pose proof (PX_inj va' va Hv' (conj Hva Hm) E2 E1 E0). lia.
Qed.
End leaf.

Lemma vm_inv_leaf s root ts l va p0 v :
  vm_inv s root ts l → 0 <= va → t0 (mem s) root va = Some p0 →
  let s' := set_mem (store64 (mem s) (pte_addr p0 (PX 0 va)) v) s in
  vm_inv s' root ts l ∧ vm_frame ts s s'.
Proof.
  intros [Hk [Hc Hnd Hp] Ht Hd] Hva Hp0. destruct (pg_t0 _ _ _ Ht va p0 Hva Hp0) as [Hin _].
  pose proof (PX_range 0 va ltac:(lia) Hva) as Hpx.
  assert (Hfr : frame p0 PGSIZE (mem s) (store64 (mem s) (pte_addr p0 (PX 0 va)) v)).
  { intros x Hx. apply (store_frame 8). unfold pte_addr, PGSIZE in *. lia. }
  split; [split; [done | split; [|done..] | by apply leaf_tree | done] |].
  - simpl. apply (chain_frame (mem s) _ _ _ p0); try done; [by eapply pg_aligned | auto].
  - split; [exists (store64 (mem s) (pte_addr p0 (PX 0 va)) v), (freelist s); left; by destruct s|].
    intros x Hx. apply Hfr, Hx. set_solver.
Qed.

(** ** mappages() *)

Definition pte_val (pa perm : Z) : Z := Z.lor (Z.lor (PA2PTE pa) perm) PTE_V.

Lemma lor_range a b k : 0 <= k → 0 <= a < 2 ^ k → 0 <= b < 2 ^ k → 0 <= Z.lor a b < 2 ^ k.
Proof.
  intros Hk Ha Hb. split; [apply Z.lor_nonneg; lia|].
  assert (E : Z.lor a b = Z.lor a b mod 2 ^ k).
  { apply Z.bits_inj'. intros n Hn. destruct (decide (n < k)) as [H|H].
    - by rewrite Z.mod_pow2_bits_low by lia.
    - rewrite Z.mod_pow2_bits_high, Z.lor_spec by lia.
      rewrite <- (Z.mod_small a (2 ^ k)), <- (Z.mod_small b (2 ^ k)) by lia.
      by rewrite !Z.mod_pow2_bits_high by lia. }
  rewrite E. apply Z.mod_pos_bound. lia.
Qed.

Lemma pte_val_spec pa perm :
  0 <= pa < 2 ^ 56 → pa mod PGSIZE = 0 → 0 <= perm < 2 ^ 10 →
  0 <= pte_val pa perm < 2 ^ 64 ∧ PTE2PA (pte_val pa perm) = pa
  ∧ PTE_FLAGS (pte_val pa perm) = Z.lor perm PTE_V.
Proof.
  intros Hpa Ha Hp. unfold pte_val. rewrite <- Z.lor_assoc.
  assert (Hf : 0 <= Z.lor perm PTE_V < 2 ^ 10) by (apply lor_range; unfold PTE_V; lia).
  destruct (PTE_roundtrip pa (Z.lor perm PTE_V)) as [-> ->]; [lia | done | lia |]. split; [|done].
  rewrite PA2PTE_eq, lor_low by lia. unfold PGSIZE. dlia.
Qed.

(** The first [k] of the pages at [a] map to the pages at [pa], all other addresses are
    as before. *)
Definition mapped_prefix (root a pa perm k : Z) (m m' : memory) : Prop :=
  ∀ va, 0 <= va < MAXVA → pte_of m' root va =
    if (a <=? va) && (va <? a + k * PGSIZE) then pte_val (pa + (va - a) / PGSIZE * PGSIZE) perm
    else pte_of m root va.

Lemma mapped_prefix_cons root a pa perm k m m1 m' :
  0 <= a → a mod PGSIZE = 0 → 0 <= k →
  mapped_prefix root a pa perm 1 m m1 →
  mapped_prefix root (a + PGSIZE) (pa + PGSIZE) perm k m1 m' →
  mapped_prefix root a pa perm (k + 1) m m'.
Proof.
  intros Ha Haa Hk H1 H2 va Hva. rewrite (H2 va Hva), (H1 va Hva). unfold PGSIZE in *.
  destruct ((a + 4096 <=? va) && _) eqn:E1, ((a <=? va) && (va <? a + (k + 1) * 4096)) eqn:E2; try blia.
  - f_equal. replace (va - a) with (va - (a + 4096) + 1 * 4096) by lia. rewrite Z.div_add by lia. lia.
  - destruct ((a <=? va) && (va <? a + 1 * 4096)) eqn:E3; blia.
  - destruct ((a <=? va) && (va <? a + 1 * 4096)) eqn:E3; blia.
Qed.

Record mapping (root a pa perm : Z) (n : Z) (s : kernel) (ts l : list Z) (r : Z) (s' : kernel)
    (ts' l' : list Z) (k : Z) : Prop := {
  mp_inv : vm_inv s' root ts' l';
  mp_pages : ts' ++ l' ≡ₚ ts ++ l;
  mp_frame : ts ⊆ ts' ∧ vm_frame ts' s s';
  mp_ptes : mapped_prefix root a pa perm k (mem s) (mem s');
  mp_result : (r = 0 ∧ k = n) ∨ (r = -1 ∧ 0 <= k < n ∧ l' = []);
}.

(** One iteration: the page at [a]. *)
Lemma map_page s root ts l a pa perm :
  vm_inv s root ts l → 0 <= a < MAXVA → a mod PGSIZE = 0 → bit (pte_of (mem s) root a) PTE_V = false →
  0 <= pa < 2 ^ 56 → pa mod PGSIZE = 0 → 0 <= perm < 2 ^ 10 →
  ∃ pte s1 ts1 l1, walk root a true s = Ok pte s1 ∧ (length l <= 2 + length l1)%nat
    ∧ ((pte = 0 ∧ (length l < 2)%nat ∧ mapping root a pa perm 1 s ts l (-1) s1 ts1 l1 0)
       ∨ (pte ≠ 0 ∧ bit (load64 (mem s1) pte) PTE_V = false
          ∧ mapping root a pa perm 1 s ts l 0
              (set_mem (store64 (mem s1) pte (pte_val pa perm)) s1) ts1 l1 1)).
Proof.
  intros Hi Ha Haa Hb Hpa Hpaa Hp.
  destruct (walk_alloc_ok s root ts l a Hi Ha) as (pte & s1 & ts1 & l1 & E & [G1 G2 G3 G4] & Hlen & Hr).
  exists pte, s1, ts1, l1. split_and!; [done.. |].
  destruct Hr as [(-> & -> & Hlt)|(p0 & E0 & ->)]; [left | right].
  - split_and!; [done.. |]. split; [done.. | | right; split_and!; (done || lia)].
    intros va Hva. rewrite G4 by lia. destruct (_ && _) eqn:B; [blia | done].
  - destruct (pg_t0 _ _ _ (vi_tree _ _ _ _ G1) a p0 (proj1 Ha) E0) as [Hin _].
    pose proof (pg_pages _ _ _ (vi_tree _ _ _ _ G1)) as Hps. rewrite Forall_forall in Hps.
    pose proof (page_ok_pos p0 (Hps _ Hin)). pose proof (PX_range 0 a ltac:(lia) (proj1 Ha)).
    destruct (pte_val_spec pa perm Hpa Hpaa Hp) as [Hv _].
    destruct (vm_inv_leaf s1 root ts1 l1 a p0 (pte_val pa perm) G1 (proj1 Ha) E0) as [I2 F2].
    split; [unfold pte_addr; lia|]. split.
    { rewrite <- Hb, <- G4 by lia. unfold pte_of. by rewrite E0. }
    destruct G3 as [G3 F1]. split; [done.. | by split; [|apply (vm_frame_trans ts1 _ _ s1)] | | by left].
    intros va Hva. simpl. rewrite (leaf_pte (mem s1) root ts1 a p0) by (done || apply G1 || lia).
    rewrite G4 by lia. unfold PGSIZE in *.
    destruct (va / 4096 =? a / 4096) eqn:B1, ((a <=? va) && (va <? a + 1 * 4096)) eqn:B2; try dlia.
    f_equal. rewrite (Z.div_small (va - a)) by lia. lia.
Qed.

Lemma mapping_fail root a pa perm n s ts l s' ts' l' :
  0 < n → mapping root a pa perm 1 s ts l (-1) s' ts' l' 0 → mapping root a pa perm n s ts l (-1) s' ts' l' 0.
Proof.
  intros Hn [M1 M2 M3 M4 M5]. split; [done..|]. right. destruct M5 as [[? ?]|(_ & _ & ?)]; [done|].
  split_and!; (done || lia).
Qed.
Lemma mapping_cons root a pa perm n s ts l s1 ts1 l1 r s' ts' l' k :
  0 <= a → a mod PGSIZE = 0 → 0 <= n →
  mapping root a pa perm 1 s ts l 0 s1 ts1 l1 1 →
  mapping root (a + PGSIZE) (pa + PGSIZE) perm n s1 ts1 l1 r s' ts' l' k →
  mapping root a pa perm (n + 1) s ts l r s' ts' l' (k + 1).
Proof.
  intros Ha Haa Hn [M1 M2 M3 M4 M5] [K1 K2 K3 K4 K5]. split; [done | by rewrite K2 | | |].
  - destruct M3 as [S1 F1], K3 as [S2 F2]. split; [by etrans | by apply (vm_frame_trans ts1 _ _ s1)].
  - apply (mapped_prefix_cons _ _ _ _ _ _ (mem s1)); (done || lia).
  - destruct K5 as [[-> ->]|(-> & ? & ->)]; [by left | right]. split_and!; (done || lia).
Qed.

Lemma mappages_iter fuel s root ts l a last pa perm :
  vm_inv s root ts l → 0 <= a < MAXVA → a mod PGSIZE = 0 → bit (pte_of (mem s) root a) PTE_V = false →
  0 <= pa < 2 ^ 56 → pa mod PGSIZE = 0 → 0 <= perm < 2 ^ 10 →
  ∃ s1 ts1 l1, (length l <= 2 + length l1)%nat ∧
    ((mappages_loop (S fuel) root a last pa perm s = Ok (-1) s1 ∧ (length l < 2)%nat
     ∧ mapping root a pa perm 1 s ts l (-1) s1 ts1 l1 0)
    ∨ (mappages_loop (S fuel) root a last pa perm s
         = (if a =? last then Ok 0 s1
            else mappages_loop fuel root (u64 (a + PGSIZE)) last (u64 (pa + PGSIZE)) perm s1)
       ∧ mapping root a pa perm 1 s ts l 0 s1 ts1 l1 1)).
Proof.
  intros Hi Ha Haa Hb Hpa Hpaa Hp.
  destruct (map_page s root ts l a pa perm Hi Ha Haa Hb Hpa Hpaa Hp) as (pte & s1 & ts1 & l1 & E & Hlen & Hr).
  cbn [mappages_loop]. rewrite (bind_Ok _ _ _ _ _ E). destruct Hr as [(-> & Hlt & M)|(Hz & Hv & M)].
  - exists s1, ts1, l1. split; [done|]. by left.
  - destruct (pte =? 0) eqn:Ez; [lia|]. eexists _, ts1, l1. split; [done|]. right. split; [|exact M].
    unfold rmem, wmem. ksteps. rewrite Hv. ksteps. by destruct (a =? last).
Qed.

Lemma mappages_loop_ok root perm (n : nat) : ∀ fuel s ts l a pa,
  (n < fuel)%nat → vm_inv s root ts l → 0 <= a → a + Z.of_nat (S n) * PGSIZE <= MAXVA →
  a mod PGSIZE = 0 →
  (∀ i, 0 <= i < Z.of_nat (S n) → bit (pte_of (mem s) root (a + i * PGSIZE)) PTE_V = false) →
  0 <= pa → pa + Z.of_nat (S n) * PGSIZE <= 2 ^ 56 → pa mod PGSIZE = 0 → 0 <= perm < 2 ^ 10 →
  ∃ r s' ts' l' k, mappages_loop fuel root a (a + Z.of_nat n * PGSIZE) pa perm s = Ok r s'
    ∧ mapping root a pa perm (Z.of_nat (S n)) s ts l r s' ts' l' k.
Proof.
  assert (0 < MAXVA < 2 ^ 40) by (vm_compute; split; congruence).
  induction n as [|n IH]; intros [|fuel] s ts l a pa Hfuel Hi Ha Hmax Haa Hb Hpa Hpm Hpaa Hp; try lia.
  all: pose proof (Hb 0 ltac:(lia)) as Hb0; rewrite Z.mul_0_l, Z.add_0_r in Hb0.
  all: edestruct (mappages_iter fuel s root ts l a) as (s1 & ts1 & l1 & Hlen & [(E & Hlt & M)|[E M]]);
    [done | unfold PGSIZE in *; lia | done | done | split; [exact Hpa | unfold PGSIZE in *; lia] | done | done
    | rewrite E; eexists _, _, _, _, _; split; [done | eapply mapping_fail; [lia | exact M]]
    | rewrite E].
  - rewrite Z.add_0_r, Z.eqb_refl. by eexists _, _, _, _, _.
  - destruct (a =? _) eqn:El; [unfold PGSIZE in *; blia|]. rewrite !u64_small by (unfold PGSIZE in *; lia).
    replace (a + Z.of_nat (S n) * PGSIZE) with (a + PGSIZE + Z.of_nat n * PGSIZE) by lia.
    destruct (IH fuel s1 ts1 l1 (a + PGSIZE) (pa + PGSIZE)) as (r & s' & ts' & l' & k & E' & K);
      try (done || apply M || (unfold PGSIZE in *; dlia)).
    + intros i Hi'. rewrite (mp_ptes _ _ _ _ _ _ _ _ _ _ _ _ _ M) by (unfold PGSIZE in *; lia).
      destruct (_ && _) eqn:B; [unfold PGSIZE in *; blia|].
      replace (a + PGSIZE + i * PGSIZE) with (a + (i + 1) * PGSIZE) by lia. apply Hb. lia.
    + exists r, s', ts', l', (k + 1). split; [done|].
      replace (Z.of_nat (S (S n))) with (Z.of_nat (S n) + 1) by lia.
      apply (mapping_cons _ _ _ _ _ _ _ _ s1 ts1 l1); (done || lia).
Qed.

(** A cleared page is an empty page table. *)
Lemma pgtree_empty m root :
  page_ok root → (∀ j, 0 <= j < 512 → load64 m (pte_addr root j) = 0) →
  pgtree m root [root] ∧ ∀ va, 0 <= va → pte_of m root va = 0.
Proof.
  intros Hr Hz.
  assert (H1 : ∀ va, 0 <= va → t1 m root va = None).
  { intros va Hva. unfold t1, pt_next. by rewrite Hz by (by apply PX_range). }
  assert (H0 : ∀ va, 0 <= va → t0 m root va = None) by (intros va Hva; unfold t0; by rewrite H1).
  split; [|intros va Hva; unfold pte_of; by rewrite H0].
  split; [by constructor | by constructor |..]; intros; rewrite ?H1, ?H0 in * by done; done.
Qed.
End map.

(** C28: mappages() installs exactly the mapping it is asked for. In a well-formed page
    table, mapping [n] unmapped pages at [va] to the physical pages at [pa] either
    succeeds, and then every address of the range translates to its physical page
    with the given permissions, or returns -1 because no page is free for a table.
    In both cases the page table stays well-formed, with its new tables taken from
    the free list, the translation of every address outside the range is unchanged,
    and no memory but the pages of the page table is written. *)
Theorem mappages_correct `{Image} root va pa perm (n : nat) s ts l :
  vm_inv s root ts l → (0 < n)%nat → 0 <= va → va + Z.of_nat n * PGSIZE <= MAXVA → va mod PGSIZE = 0 →
  (∀ i, 0 <= i < Z.of_nat n → bit (pte_of (mem s) root (va + i * PGSIZE)) PTE_V = false) →
  0 <= pa → pa + Z.of_nat n * PGSIZE <= 2 ^ 56 → pa mod PGSIZE = 0 → 0 <= perm < 2 ^ 10 →
  ∃ r s' ts' l', mappages root va (Z.of_nat n * PGSIZE) pa perm s = Ok r s'
    ∧ vm_inv s' root ts' l' ∧ ts' ++ l' ≡ₚ ts ++ l ∧ (ts ⊆ ts' ∧ vm_frame ts' s s')
    ∧ (∀ a, 0 <= a < MAXVA → ¬ va <= a < va + Z.of_nat n * PGSIZE →
         pte_of (mem s') root a = pte_of (mem s) root a)
    ∧ ((r = -1 ∧ l' = [])
       ∨ (r = 0 ∧ ∀ a, va <= a < va + Z.of_nat n * PGSIZE →
            PTE2PA (pte_of (mem s') root a) = pa + (a - va) / PGSIZE * PGSIZE
            ∧ PTE_FLAGS (pte_of (mem s') root a) = Z.lor perm PTE_V)).
Proof.
  intros Hi Hn Hva Hmax Hvaa Hb Hpa Hpm Hpaa Hp. destruct n as [|n]; [lia|]. clear Hn.
  assert (0 < MAXVA < 2 ^ 40) by (vm_compute; split; congruence).
  set (N := Z.of_nat (S n)) in *. assert (HN : N = Z.of_nat n + 1) by lia.
  unfold mappages. rewrite Hvaa, Z_mod_mult, Z.eqb_refl. cbn [negb]. unfold PGSIZE in Hmax, Hpm.
  destruct (_ =? 0) eqn:E0; [unfold PGSIZE in E0; lia|].
  rewrite Z_div_mult, u64_small by (unfold PGSIZE; lia).
  replace (va + N * PGSIZE - PGSIZE) with (va + Z.of_nat n * PGSIZE) by lia.
  destruct (mappages_loop_ok root perm n (S (Z.to_nat N)) s ts l va pa)
    as (r & s' & ts' & l' & k & E & [M1 M2 M3 M4 M5]); try done; [lia | unfold PGSIZE; lia.. |].
  fold N in M5. exists r, s', ts', l'. assert (k <= N) by lia. split; [done|]. split; [done|]. split; [done|].
  split; [done|]. split.
  - intros a Ha Hout. rewrite M4 by done. unfold PGSIZE in *. destruct (_ && _) eqn:B; [blia | done].
  - destruct M5 as [[-> ->]|(-> & _ & ->)]; [right; split; [done|] | by left].
    intros a Ha. rewrite M4 by (unfold PGSIZE in *; lia).
    destruct (_ && _) eqn:B; [|blia].
    apply pte_val_spec; [unfold PGSIZE in *; dlia | unfold PGSIZE in *; dlia | done].
Qed.

(** ** A concrete page table: a cleared root and a free list of two pages. *)

#[local] Existing Instance sample_image.

Definition demo_fresh : kernel :=
  set_mem (store64 (λ _, 0) 2248151040 2248155136)
    (set_freelist 2248151040 (demo (Some 0%nat) RUNNING SLEEPING)).
Definition demo_ts : list Z := [demo_root].
Definition demo_l : list Z := [2248151040; 2248155136].

Lemma demo_vm_inv : vm_inv demo_fresh demo_root demo_ts demo_l.
Proof.
  assert (Hp : ∀ p, p ∈ demo_root :: demo_l → page_ok p).
  { intros p Hp. repeat (apply elem_of_cons in Hp as [->|Hp]; [vm_compute; split; [done|split; congruence]|]).
    by apply elem_of_nil in Hp. }
  split.
  - split; [vm_compute; split; (done || congruence) | done].
  - split; [by vm_compute | by apply (bool_decide_unpack _); vm_compute |].
    rewrite Forall_forall. intros p H. apply Hp. by constructor.
  - apply pgtree_empty; [apply Hp; by constructor|]. intros j Hj.
    unfold demo_fresh. simpl. rewrite load_store_ne; [|unfold pte_addr, demo_root; lia].
    reflexivity.
  - intros p. unfold demo_ts, demo_l. rewrite list_elem_of_singleton. intros ->.
    by apply (bool_decide_unpack _).
Qed.

Lemma mappages_correct_witness :
  ∃ r s' ts' l', mappages demo_root 4096 (Z.of_nat 2 * PGSIZE) 2248200192 6 demo_fresh = Ok r s'
    ∧ vm_inv s' demo_root ts' l' ∧ ts' ++ l' ≡ₚ demo_ts ++ demo_l
    ∧ (demo_ts ⊆ ts' ∧ vm_frame ts' demo_fresh s')
    ∧ (∀ a, 0 <= a < MAXVA → ¬ 4096 <= a < 4096 + Z.of_nat 2 * PGSIZE →
         pte_of (mem s') demo_root a = pte_of (mem demo_fresh) demo_root a)
    ∧ ((r = -1 ∧ l' = [])
       ∨ (r = 0 ∧ ∀ a, 4096 <= a < 4096 + Z.of_nat 2 * PGSIZE →
            PTE2PA (pte_of (mem s') demo_root a) = 2248200192 + (a - 4096) / PGSIZE * PGSIZE
            ∧ PTE_FLAGS (pte_of (mem s') demo_root a) = Z.lor 6 PTE_V)).
Proof.
  apply (mappages_correct demo_root 4096 2248200192 6 2 demo_fresh demo_ts demo_l);
    [apply demo_vm_inv | lia | lia | by vm_compute | done | | lia | by vm_compute | done | lia].
  intros i Hi. assert (i = 0 ∨ i = 1) as [->| ->] by lia; by vm_compute.
Defined.
