(* ===== verification/ProcMem.v ===== *)
(** Process slots and their memory: the part of kernel/proc.c that allocates and
    frees entries of proc[], their trapframes and page tables, and copies data in
    and out of the current process.

    Kernel data that is copied to user space is the list of its bytes; the
    destination of either_copyout() and the source of either_copyin() are values of
    [dest] and [source]. *)
From S2P Require Import Prelude Pstat Adaptive Kernel Spinlock Sched Cstring Riscv Kalloc Vm.

Section proc.
Context {img : Image}.

Definition procinit : K unit :=
  initlock L_pid ;;
  initlock L_wait ;;
  for_each (seq 0 NPROC) (λ i,
    initlock (L_proc i) ;;
    modify (upd_proc i (λ p, set_p_kstack (KSTACK (Z.of_nat i)) (set_p_state UNUSED p)))).

Definition allocpid : K Z :=
  acquire L_pid ;;
  pid <- get nextpid ;;
  modify (set_nextpid (i32 (pid + 1))) ;;
  release L_pid ;;
  ret pid.

(** [int] results are compared as signed numbers. *)
Definition proc_pagetable (p : nat) : K Z :=
  pagetable <- uvmcreate ;;
  if pagetable =? 0 then ret 0 else
  r <- mappages pagetable TRAMPOLINE PGSIZE trampoline (Z.lor PTE_R PTE_X) ;;
  if r <? 0 then uvmfree pagetable 0 ;; ret 0 else
  tf <- get (λ s, p_trapframe (proc_at s p)) ;;
  r <- mappages pagetable TRAPFRAME PGSIZE tf (Z.lor PTE_R PTE_W) ;;
  if r <? 0 then
    uvmunmap pagetable TRAMPOLINE 1 false ;;
    uvmfree pagetable 0 ;;
    ret 0
  else ret pagetable.

Definition proc_freepagetable (pagetable sz : Z) : K unit :=
  uvmunmap pagetable TRAMPOLINE 1 false ;;
  uvmunmap pagetable TRAPFRAME 1 false ;;
  uvmfree pagetable sz.

(** The fields freeproc() resets, [name[0] = 0] among them. *)
Definition free_fields (p : proc) : proc :=
  set_p_mt free_metrics
    (set_p_state UNUSED (set_p_xstate 0 (set_p_killed 0 (set_p_chan None
      (set_p_name (<[0%nat := 0]> (p_name p)) (set_p_parent None (set_p_pid 0
        (set_p_sz 0 (set_p_pagetable 0 p))))))))).
Definition freeproc (i : nat) : K unit :=
  p <- get (λ s, proc_at s i) ;;
  when (negb (p_trapframe p =? 0)) (kfree (p_trapframe p)) ;;
  modify (upd_proc i (set_p_trapframe 0)) ;;
  when (negb (p_pagetable p =? 0)) (proc_freepagetable (p_pagetable p) (p_sz p)) ;;
  modify (upd_proc i free_fields).

Definition alloc_probe (i : nat) : K (option nat) :=
  acquire (L_proc i) ;;
  st <- get (λ s, p_state (proc_at s i)) ;;
  if decide (st = UNUSED) then ret (Some i)
  else release (L_proc i) ;; ret None.

(** The context and the metrics allocproc() gives a new process. *)
Definition fresh_fields (ticks : Z) (p : proc) : proc :=
  set_p_mt (init_metrics ticks)
    (set_p_context (Context forkret_addr (u64 (p_kstack p + PGSIZE)) (replicate 12 0)) p).
Definition allocproc : K (option nat) :=
  found <- for_find (seq 0 NPROC) alloc_probe ;;
  match found with
  | None => ret None
  | Some i =>
      pid <- allocpid ;;
      modify (upd_proc i (λ p, set_p_state USED (set_p_pid pid p))) ;;
      tf <- kalloc ;;
      modify (upd_proc i (set_p_trapframe tf)) ;;
      if tf =? 0 then freeproc i ;; release (L_proc i) ;; ret None else
      pt <- proc_pagetable i ;;
      modify (upd_proc i (set_p_pagetable pt)) ;;
      if pt =? 0 then freeproc i ;; release (L_proc i) ;; ret None else
      t <- get ticks ;;
      modify (upd_proc i (fresh_fields t)) ;;
      ret (Some i)
  end.

Definition growproc (n : Z) : K Z :=
  i <- curproc ;;
  p <- get (λ s, proc_at s i) ;;
  let sz := p_sz p in
  let finish sz := modify (upd_proc i (set_p_sz sz)) ;; ret 0 in
  if 0 <? n then
    if TRAPFRAME <? u64 (sz + n) then ret (-1) else
    sz <- uvmalloc (p_pagetable p) sz (u64 (sz + n)) PTE_W ;;
    if sz =? 0 then ret (-1) else finish sz
  else if n <? 0 then
    sz <- uvmdealloc (p_pagetable p) sz (u64 (sz + n)) ;;
    finish sz
  else finish sz.

(** ** Copying *)

(** [User a] is [user_dst = 1]; with [user_dst = 0] the destination is physical
    memory or a variable of the caller, which keeps the bytes itself. *)
Inductive dest := User (va : Z) | Phys (pa : Z) | Local.
Inductive source := FromUser (va : Z) | FromLocal (src : list Z).

Definition either_copyout (dst : dest) (src : list Z) : K Z :=
  p <- myproc ;;
  match dst with
  | User va =>
      match p with
      | None => panic "kerneltrap"
      | Some p => pt <- get (λ s, p_pagetable (proc_at s p)) ;; copyout pt va src
      end
  | Phys pa => wmem (λ m, write_bytes m pa src) ;; ret 0
  | Local => ret 0
  end.

(** The result is the status and the bytes. *)
Definition either_copyin (src : source) (len : Z) : K (Z * list Z) :=
  p <- myproc ;;
  match src with
  | FromUser va =>
      match p with
      | None => panic "kerneltrap"
      | Some p => pt <- get (λ s, p_pagetable (proc_at s p)) ;; copyin pt va len
      end
  | FromLocal l => ret (0, take (Z.to_nat len) l)
  end.

(** The source and the destination moved on by [n] bytes. *)
Definition src_add (src : source) (n : Z) : source :=
  match src with FromUser va => FromUser (u64 (va + n)) | FromLocal l => FromLocal (drop (Z.to_nat n) l) end.
Definition dst_add (dst : dest) (n : Z) : dest :=
  match dst with User va => User (u64 (va + n)) | Phys pa => Phys (pa + n) | Local => Local end.

(** ** get_proc_stats() *)

(** The [n] bytes of [v], little-endian. *)
Fixpoint le (n : nat) (v : Z) : list Z :=
  match n with O => [] | S n => v mod 256 :: le n (v / 256) end.

(** Storing the bytes [l] at offset [off] of a struct. *)
Definition put_at (off : nat) (l : list Z) (d : list Z) : list Z :=
  take off d ++ l ++ drop (off + length l) d.

(** safestrcpy() between two char arrays of [n] bytes. *)
Definition safestrcpy_arr (dst src : list Z) (n : Z) : list Z :=
  read_bytes (safestrcpy (write_bytes (write_bytes (λ _, 0) 0 dst) 4096 src) 0 4096 n) 0 (Z.to_nat n).

Definition PROCINFO : nat := 144. (* sizeof(struct procinfo) *)

Definition state_code (st : procstate) : Z :=
  match st with UNUSED => 0 | USED => 1 | SLEEPING => 2 | RUNNABLE => 3 | RUNNING => 4 | ZOMBIE => 5 end.
Definition type_code (t : proc_type_t) : Z :=
  match t with PROC_TYPE_INTERACTIVE => 0 | PROC_TYPE_CPU_BOUND => 1 | PROC_TYPE_MIXED => 2 end.
Definition health_code (h : health_t) : Z :=
  match h with HEALTH_NORMAL => 0 | HEALTH_WARNING => 1 | HEALTH_CRITICAL => 2 end.

(** The fields of [struct procinfo] as (offset, bytes). The name is copied into the
    bytes that are there. *)
Definition procinfo_fields (ppid : Z) (p : proc) (junk : list Z) : list (nat * list Z) :=
  let m := p_mt p in
  [(0, le 4 (p_pid p)); (4, le 4 ppid);
   (8, safestrcpy_arr (take 16 (drop 8 junk)) (p_name p) 16);
   (24, le 4 (state_code (p_state p)));
   (32, le 8 (cputicks m)); (40, le 8 (waitticks m)); (48, le 8 (sched_count m));
   (56, le 8 (switches m)); (64, le 8 (creation_tick m)); (72, le 8 (last_sched_tick m));
   (80, le 4 (current_burst m)); (84, le 4 (last_burst m)); (88, le 4 (est_burst m));
   (92, le 4 (type_code (proc_type m))); (96, le 4 (priority m)); (100, le 4 (time_slice m));
   (104, le 4 (ticks_in_slice m)); (108, le 4 (predicted_burst m));
   (112, le 4 (prediction_error m)); (116, le 4 (anomaly_score m));
   (120, le 4 (anomaly_flags m)); (124, le 4 (health_code (health_status m)));
   (128, le 4 (healing_actions m)); (136, le 8 (last_heal_tick m))]%nat.

(** The variable [pi], which starts out as the bytes [junk] of the stack. *)
Definition procinfo (ppid : Z) (p : proc) (junk : list Z) : list Z :=
  foldl (λ d f, put_at f.1 f.2 d) junk (procinfo_fields ppid p junk).

(** One iteration of get_proc_stats(): [inl count] goes on, [inr r] returns. [junk i]
    is what the stack holds where [pi] is. *)
Definition proc_stats_step (junk : nat → list Z) (curr : nat) (dst_addr max_entries : Z)
    (i : nat) (acc : Z + Z) : K (Z + Z) :=
  match acc with
  | inr r => ret (inr r)
  | inl count =>
      acquire (L_proc i) ;;
      p <- get (λ s, proc_at s i) ;;
      if decide (p_state p = UNUSED) then release (L_proc i) ;; ret (inl count)
      else if count <? max_entries then
        ppid <- get (λ s, match p_parent p with Some q => p_pid (proc_at s q) | None => 0 end) ;;
        release (L_proc i) ;;
        let target := u64 (dst_addr + count * Z.of_nat PROCINFO) in
        pt <- get (λ s, p_pagetable (proc_at s curr)) ;;
        r <- copyout pt target (procinfo ppid p (junk i)) ;;
        if r <? 0 then ret (inr (-1)) else ret (inl (count + 1))
      else release (L_proc i) ;; ret (inl (count + 1))
  end.
Definition get_proc_stats (junk : nat → list Z) (dst_addr max_entries : Z) : K Z :=
  curr <- curproc ;;
  r <- for_acc (seq 0 NPROC) (inl 0) (proc_stats_step junk curr dst_addr max_entries) ;;
  ret (match r with inl count => count | inr r => r end).
End proc.
