(* ===== verification/ProcAlloc.v ===== *)
(** Allocating a process slot: allocproc() finds the first free slot, gives it a
    fresh pid, a trapframe and a page table that maps the trampoline and the
    trapframe and nothing else. It does not reset [killed]. *)
From S2P Require Import Prelude Pstat Adaptive Kernel Spinlock Sched Cstring Riscv Kalloc Vm.
From S2P Require Import VmCopy VmMap ProcMem.

Section alloc.
Context {img : Image}.

(** ** Pieces *)

Lemma pushed_settled c : pushed (settled c) = pushed c.
Proof. unfold pushed, settled. simpl. by destruct (c_noff c =? 0). Qed.

(** Inside a critical section the interrupt state is settled. *)
Lemma settle_locked s : 0 < c_noff (cur s) → settle s = s.
Proof. intros H. unfold settle. rewrite settled_locked by done. by destruct s. Qed.

Lemma vm_frame_locked ps s s' :
  0 < c_noff (cur s) → vm_frame ps s s' → ∃ m f, s' = set_mem m (set_freelist f s).
Proof.
  intros Hn [(m & f & [-> | ->]) _]; exists m, f; [done|]. by rewrite settle_locked.
Qed.

Lemma alloc_probe_miss i s :
  table_free s → (i < NPROC)%nat → p_state (proc_at s i) ≠ UNUSED →
  alloc_probe i s = Ok None (settle s).
Proof.
  intros [Hok Hl] Hi Hp. unfold alloc_probe.
  rewrite (bind_Ok _ _ _ _ _ (acquire_ok _ _ (Hl i Hi))). ksteps.
  change (proc_at (lock_state _ _) i) with (proc_at s i).
  rewrite decide_False by done. erewrite bind_Ok.
  2: { apply (release_ok _ _ (cur s)); [done | done |]. simpl. by rewrite lookup_insert_eq. }
  unfold ret, settle. simpl. rewrite delete_insert_id by auto. by destruct s.
Qed.

Lemma alloc_probe_hit i s :
  locks s !! L_proc i = None → p_state (proc_at s i) = UNUSED →
  alloc_probe i s = Ok (Some i) (lock_state (L_proc i) s).
Proof.
  intros Hl Hp. unfold alloc_probe. rewrite (bind_Ok _ _ _ _ _ (acquire_ok _ _ Hl)). ksteps.
  change (proc_at (lock_state _ _) i) with (proc_at s i). by rewrite decide_True.
Qed.

(** The scan of allocproc(). *)
Lemma alloc_scan_skip s (l1 l2 : list nat) :
  table_free s → (∀ j, j ∈ l1 → (j < NPROC)%nat ∧ p_state (proc_at s j) ≠ UNUSED) →
  for_find (l1 ++ l2) alloc_probe s = for_find l2 alloc_probe (if l1 is [] then s else settle s).
Proof.
  intros Hs Hl. apply (for_find_skip (λ t, table_free t ∧ procs t = procs s)); [|done].
  intros j t Hj [[Hok Hfree] Hp]. destruct (Hl j Hj) as [? Hne].
  split; [|split; [split; [by apply cpu_ok_settled | done] | done]].
  apply alloc_probe_miss; [by split | done |]. unfold proc_at. by rewrite Hp.
Qed.

Lemma alloc_scan_hit s i :
  table_free s → (i < NPROC)%nat → p_state (proc_at s i) = UNUSED →
  (∀ j, (j < i)%nat → p_state (proc_at s j) ≠ UNUSED) →
  for_find (seq 0 NPROC) alloc_probe s = Ok (Some i) (lock_state (L_proc i) s).
Proof.
  intros Hs Hi Hp Hne. rewrite (seq_split_at i NPROC Hi), alloc_scan_skip; [|done|].
  2: { intros j Hj%elem_of_seq. split; [lia | apply Hne; lia]. }
  set (t := match seq 0 i with [] => s | _ => settle s end).
  assert (Ht : locks t = locks s ∧ proc_at t i = proc_at s i ∧ lock_state (L_proc i) t = lock_state (L_proc i) s).
  { unfold t. destruct (seq 0 i); [done|]. split_and!; [done.. |].
    unfold lock_state, settle. simpl. by rewrite pushed_settled. }
  destruct Ht as (Hl & Hq & He). cbn [for_find].
  rewrite (bind_Ok _ _ _ _ _ (alloc_probe_hit i t ltac:(rewrite Hl; by apply Hs) ltac:(by rewrite Hq))).
  by rewrite He.
Qed.
Lemma alloc_scan_none s :
  table_free s → (∀ j, (j < NPROC)%nat → p_state (proc_at s j) ≠ UNUSED) →
  for_find (seq 0 NPROC) alloc_probe s = Ok None (settle s).
Proof.
  intros Hs Hne. rewrite <- (app_nil_r (seq 0 NPROC)), alloc_scan_skip; [done | done |].
  intros j Hj%elem_of_seq. split; [lia | apply Hne; lia].
Qed.

Lemma allocpid_ok s :
  0 < c_noff (cur s) → cpu_ok (cur s) → locks s !! L_pid = None →
  allocpid s = Ok (nextpid s) (set_nextpid (i32 (nextpid s + 1)) s).
Proof.
  intros Hn Hok Hl. unfold allocpid. rewrite (bind_Ok _ _ _ _ _ (acquire_ok _ _ Hl)). ksteps.
  erewrite bind_Ok.
  2: { apply (release_ok _ _ (cur s)); [done | done |]. simpl. by rewrite lookup_insert_eq. }
  unfold ret. simpl. rewrite delete_insert_id, settled_locked by done. by destruct s.
Qed.

(** The invariant of a page table is about the memory and the allocator only. *)
Lemma vm_inv_ext s s' root ts l :
  mem s' = mem s → freelist s' = freelist s → kmem_free s' → vm_inv s root ts l → vm_inv s' root ts l.
Proof.
  intros Hm Hf Hk [_ [Hc Hn Hp] Ht Hd]. split; [done | | by rewrite Hm | done].
  split; [by rewrite Hm, Hf | done..].
Qed.

Lemma uvmcreate_ok s pg l :
  kmem_free s → kmem_ok s (pg :: l) →
  ∃ m f, uvmcreate s = Ok pg (set_mem m (set_freelist f (settle s)))
    ∧ let s' := set_mem m (set_freelist f (settle s)) in
      vm_inv s' pg [pg] l ∧ (∀ va, 0 <= va → pte_of m pg va = 0) ∧ frame pg PGSIZE (mem s) m.
Proof.
  intros Hk Hf. pose proof (kalloc_pop_ok s pg l Hf) as Hf'.
  unfold uvmcreate. rewrite (bind_Ok _ _ _ _ _ (kalloc_pop s pg l Hk Hf)).
  destruct Hf as [[_ _] Hnd Hp]. apply Forall_cons in Hp as [Hpg Hl]. apply NoDup_cons in Hnd as [Hnin _].
  pose proof (page_ok_pos pg Hpg). destruct (pg =? 0) eqn:E; [lia|].
  set (m := memset (memset (mem s) pg 5 PGSIZE) pg 0 PGSIZE). exists m, (load64 (mem s) pg).
  split; [unfold wmem; ksteps; done|].
  destruct (pgtree_empty m pg Hpg) as [Ht Hz]; [intros j Hj; by apply memset_page_zero|].
  split_and!; [|done|].
  - split; [by apply kmem_free_settle | | done | by intros p ->%list_elem_of_singleton].
    eapply (kmem_ok_frame (alloc_state pg (load64 (mem s) pg) s) _ l pg);
      [apply Hpg | apply memset_page_frame | done | done | done].
  - intros x Hx. unfold m. by rewrite !(memset_page_frame _ _ _ x).
Qed.

(** Mapping one page, with two free pages for the tables it may need. *)
Lemma mappages_one s root ts l va pa perm :
  vm_inv s root ts l → 0 <= va → va + PGSIZE <= MAXVA → va mod PGSIZE = 0 →
  bit (pte_of (mem s) root va) PTE_V = false →
  0 <= pa < 2 ^ 56 → pa mod PGSIZE = 0 → 0 <= perm < 2 ^ 10 → (2 <= length l)%nat →
  ∃ s' ts' l', mappages root va PGSIZE pa perm s = Ok 0 s' ∧ vm_inv s' root ts' l'
    ∧ ts' ++ l' ≡ₚ ts ++ l ∧ (ts ⊆ ts' ∧ vm_frame ts' s s') ∧ (length l <= 2 + length l')%nat
    ∧ (∀ a, va <= a < va + PGSIZE → PTE2PA (pte_of (mem s') root a) = pa
         ∧ PTE_FLAGS (pte_of (mem s') root a) = Z.lor perm PTE_V)
    ∧ ∀ a, 0 <= a < MAXVA → ¬ va <= a < va + PGSIZE → pte_of (mem s') root a = pte_of (mem s) root a.
Proof.
  intros Hi Hva Hmax Hvaa Hb Hpa Hpaa Hp Hl.
  assert (0 < MAXVA < 2 ^ 40) by (vm_compute; split; congruence).
  unfold mappages. rewrite Hvaa. change (PGSIZE mod PGSIZE) with 0.
  change (PGSIZE / PGSIZE) with 1. change (PGSIZE =? 0) with false. rewrite Z.eqb_refl. cbn [negb].
  replace (va + PGSIZE - PGSIZE) with va by lia. rewrite u64_small by (unfold PGSIZE in *; lia).
  edestruct (mappages_iter (Z.to_nat 1) s root ts l va va pa perm) as (s1 & ts1 & l1 & Hlen & [(_ & Hlt & _)|[E M]]);
    try done; [unfold PGSIZE in *; lia | lia |].
  exists s1, ts1, l1. rewrite E, Z.eqb_refl. destruct M as [M1 M2 M3 M4 _]. split; [done|]. split; [done|]. split; [done|]. split; [done|].
  split; [done|]. split.
  - intros a Ha. rewrite M4 by (unfold PGSIZE in *; lia). destruct (_ && _) eqn:B; [|unfold PGSIZE in *; blia].
    rewrite (Z.div_small (a - va)), Z.add_0_r by lia. by apply pte_val_spec.
  - intros a Ha Hout. rewrite M4 by done. destruct (_ && _) eqn:B; [unfold PGSIZE in *; blia | done].
Qed.

(** ** proc_pagetable() *)

(** The page table of a new process, with [ts] its pages and [l] the free ones. *)
Record user_table (s : kernel) (root tf : Z) (ts l : list Z) : Prop := {
  ut_inv : vm_inv s root ts l;
  ut_tramp : ∀ va, TRAMPOLINE <= va < MAXVA →
    PTE2PA (pte_of (mem s) root va) = trampoline
    ∧ PTE_FLAGS (pte_of (mem s) root va) = Z.lor (Z.lor PTE_R PTE_X) PTE_V;
  ut_frame : ∀ va, TRAPFRAME <= va < TRAMPOLINE →
    PTE2PA (pte_of (mem s) root va) = tf
    ∧ PTE_FLAGS (pte_of (mem s) root va) = Z.lor (Z.lor PTE_R PTE_W) PTE_V;
  ut_empty : ∀ va, 0 <= va < TRAPFRAME → pte_of (mem s) root va = 0;
}.

Lemma trampoline_pa : 0 <= trampoline < 2 ^ 56.
Proof.
  pose proof trampoline_range. pose proof etext_range. pose proof end_range.
  unfold PHYSTOP, KERNBASE in *. lia.
Qed.

Lemma proc_pagetable_ok s p root l tf :
  0 < c_noff (cur s) → kmem_free s → kmem_ok s (root :: l) → (4 <= length l)%nat →
  p_trapframe (proc_at s p) = tf → page_ok tf →
  ∃ m f ts l', proc_pagetable p s = Ok root (set_mem m (set_freelist f s))
    ∧ user_table (set_mem m (set_freelist f s)) root tf ts l'
    ∧ ts ++ l' ≡ₚ root :: l
    ∧ ∀ x, (∀ q, q ∈ ts → ¬ q <= x < q + PGSIZE) → m x = mem s x.
Proof.
  intros Hn Hk Hf Hl Htf Htp. unfold proc_pagetable.
  destruct (uvmcreate_ok s root l Hk Hf) as (m0 & f0 & E0 & I0 & Z0 & F0). rewrite settle_locked in E0, I0 by done.
  rewrite (bind_Ok _ _ _ _ _ E0). set (s0 := set_mem m0 (set_freelist f0 s)) in *.
  destruct Hf as [_ _ Hps]. apply Forall_cons in Hps as [Hroot _]. pose proof (page_ok_pos root Hroot).
  destruct (root =? 0) eqn:Er; [lia|]. clear Er.
  destruct (mappages_one s0 root [root] l TRAMPOLINE trampoline (Z.lor PTE_R PTE_X))
    as (s1 & ts1 & l1 & E1 & I1 & P1 & [S1 F1] & L1 & In1 & Out1);
    [done | done | done | done | by rewrite Z0 | apply trampoline_pa | apply trampoline_aligned | done | lia |].
  rewrite (bind_Ok _ _ _ _ _ E1). cbv beta. change (0 <? 0) with false. cbv iota. kstep.
  destruct (vm_frame_locked _ s0 s1 Hn F1) as (m1 & f1 & Es1).
  replace (p_trapframe (proc_at s1 p)) with tf by (by rewrite Es1).
  assert (Hz1 : ∀ va, 0 <= va < TRAMPOLINE → pte_of (mem s1) root va = 0).
  { intros va Hva. rewrite Out1; [apply Z0 | |]; unfold TRAMPOLINE, PGSIZE in *; lia. }
  destruct (mappages_one s1 root ts1 l1 TRAPFRAME tf (Z.lor PTE_R PTE_W))
    as (s2 & ts2 & l2 & E2 & I2 & P2 & [S2 F2] & L2 & In2 & Out2);
    [done | done | done | done | by rewrite Hz1 | | apply Htp | done | lia |].
  { pose proof (page_ok_pos tf Htp). lia. }
  rewrite (bind_Ok _ _ _ _ _ E2). cbv beta. change (0 <? 0) with false. cbv iota.
  destruct (vm_frame_locked ts2 s1 s2) as (m2 & f2 & Es2); [by rewrite Es1 | done |].
  assert (Es : s2 = set_mem m2 (set_freelist f2 s)) by (rewrite Es2, Es1; by destruct s).
  assert (Hb : TRAPFRAME + PGSIZE = TRAMPOLINE ∧ TRAMPOLINE + PGSIZE = MAXVA ∧ 0 < TRAPFRAME) by done.
  unfold PGSIZE in Hb, In1, In2, Out1, Out2.
  exists m2, f2, ts2, l2. rewrite <- Es. split_and!; [done | split; [done | | |] | by rewrite P2 |].
  - intros va Hva. rewrite Out2 by lia. apply In1. lia.
  - intros va Hva. apply In2. lia.
  - intros va Hva. rewrite Out2 by lia. apply Hz1. lia.
  - intros x Hx. replace m2 with (mem s2) by (by rewrite Es). destruct F1 as [_ F1], F2 as [_ F2].
    rewrite F2, F1; [apply F0, Hx, S2, S1; by left | | done]. intros q Hq. by apply Hx, S2.
Qed.

(** ** allocproc() *)

(** What allocproc() makes of slot [i] of [s], with the pages [l] free. *)
Record allocated (s : kernel) (l : list Z) (i : nat) (s' : kernel) : Prop := {
  al_locks : locks s' = <[L_proc i := hartid s]> (locks s);
  al_others : ∀ j, j ≠ i → proc_at s' j = proc_at s j;
  al_nextpid : nextpid s' = i32 (nextpid s + 1);
  al_state : p_state (proc_at s' i) = USED;
  al_pid : p_pid (proc_at s' i) = nextpid s;
  al_metrics : p_mt (proc_at s' i) = init_metrics (ticks s);
  al_context : p_context (proc_at s' i)
    = Context forkret_addr (u64 (p_kstack (proc_at s i) + PGSIZE)) (replicate 12 0);
  al_killed : p_killed (proc_at s' i) = p_killed (proc_at s i);
  al_pages : ∃ ts l', p_trapframe (proc_at s' i) :: ts ++ l' ≡ₚ l
    ∧ user_table s' (p_pagetable (proc_at s' i)) (p_trapframe (proc_at s' i)) ts l'
    ∧ ∀ x, (∀ q, q ∈ p_trapframe (proc_at s' i) :: ts → ¬ q <= x < q + PGSIZE) → mem s' x = mem s x;
}.

Lemma user_table_ext s s' root tf ts l :
  mem s' = mem s → freelist s' = freelist s → kmem_free s' →
  user_table s root tf ts l → user_table s' root tf ts l.
Proof.
  intros Hm Hf Hk [H1 H2 H3 H4]. split; rewrite ?Hm; [by apply (vm_inv_ext s) | done..].
Qed.

(** From the trapframe on: the state [s] has the trapframe and the rest is to come. *)
Definition alloc_rest (i : nat) : K (option nat) :=
  pt <- proc_pagetable i ;;
  modify (upd_proc i (set_p_pagetable pt)) ;;
  if pt =? 0 then freeproc i ;; release (L_proc i) ;; ret None else
  t <- get ticks ;;
  modify (upd_proc i (fresh_fields t)) ;;
  ret (Some i).

Lemma alloc_rest_ok s i root l tf :
  0 < c_noff (cur s) → kmem_free s → kmem_ok s (root :: l) → (4 <= length l)%nat →
  (i < length (procs s))%nat → p_trapframe (proc_at s i) = tf → page_ok tf →
  ∃ s', alloc_rest i s = Ok (Some i) s'
    ∧ set_mem (mem s) (set_freelist (freelist s) (set_procs (procs s) s')) = s
    ∧ (∀ j, j ≠ i → proc_at s' j = proc_at s j)
    ∧ proc_at s' i = fresh_fields (ticks s) (set_p_pagetable root (proc_at s i))
    ∧ ∃ ts l', ts ++ l' ≡ₚ root :: l ∧ user_table s' root tf ts l'
        ∧ ∀ x, (∀ q, q ∈ ts → ¬ q <= x < q + PGSIZE) → mem s' x = mem s x.
Proof.
  intros Hn Hk Hf Hl Hi Htf Htp.
  destruct (proc_pagetable_ok s i root l tf Hn Hk Hf Hl Htf Htp) as (m & f & ts & l' & E & Ht & Hpp & Hm).
  pose proof (page_ok_pos root (proj1 (Forall_cons_1 _ _ _ (km_pages _ _ Hf)))).
  unfold alloc_rest. rewrite (bind_Ok _ _ _ _ _ E). kstep. destruct (root =? 0) eqn:Er; [lia|]. ksteps.
  eexists. split; [reflexivity|]. split_and!.
  - by destruct s.
  - intros j Hj. unfold proc_at. simpl. by rewrite !list_lookup_alter_ne.
  - rewrite !proc_at_upd by (simpl; rewrite ?length_alter; done). done.
  - exists ts, l'. split; [done|]. split; [|exact Hm]. by apply (user_table_ext (set_mem m (set_freelist f s))).
Qed.

Lemma set_mem_upd_proc m f i g t :
  set_mem m (set_freelist f (upd_proc i g t)) = upd_proc i g (set_mem m (set_freelist f t)).
Proof. reflexivity. Qed.

(** Up to the trapframe. *)
Definition with_trapframe (s : kernel) (i : nat) (tf : Z) : kernel :=
  let s1 := set_nextpid (i32 (nextpid s + 1)) (lock_state (L_proc i) s) in
  upd_proc i (λ p, set_p_trapframe tf (set_p_state USED (set_p_pid (nextpid s) p)))
    (set_mem (memset (mem s) tf 5 PGSIZE) (set_freelist (load64 (mem s) tf) s1)).

Lemma allocproc_start s i tf l :
  table_free s → locks s !! L_pid = None → locks s !! L_kmem = None → (i < NPROC)%nat →
  kmem_ok s (tf :: l) →
  p_state (proc_at s i) = UNUSED → (∀ j, (j < i)%nat → p_state (proc_at s j) ≠ UNUSED) →
  allocproc s = alloc_rest i (with_trapframe s i tf).
Proof.
  intros Hs Hpid Hkm Hi Hf Hu Hmin. unfold allocproc.
  rewrite (bind_Ok _ _ _ _ _ (alloc_scan_hit s i Hs Hi Hu Hmin)).
  set (s1 := lock_state (L_proc i) s).
  assert (Hn1 : 0 < c_noff (cur s1)) by (destruct Hs as [[? ?] _]; simpl; lia).
  assert (Hok1 : cpu_ok (cur s1)) by (apply cpu_ok_pushed, Hs).
  rewrite (bind_Ok _ _ _ _ _ (allocpid_ok s1 Hn1 Hok1 ltac:(unfold s1; simpl; by rewrite lookup_insert_ne))).
  kstep. set (s2 := upd_proc i _ _).
  assert (Hk2 : kmem_free s2) by (split; [done | simpl; by rewrite lookup_insert_ne]).
  assert (Hf2 : kmem_ok s2 (tf :: l)) by (by destruct Hf).
  rewrite (bind_Ok _ _ _ _ _ (kalloc_pop s2 tf _ Hk2 Hf2)). kstep.
  pose proof (page_ok_pos tf (proj1 (Forall_cons_1 _ _ _ (km_pages _ _ Hf)))).
  assert (Hst : upd_proc i (set_p_trapframe tf) (alloc_state tf (load64 (mem s2) tf) s2)
                = with_trapframe s i tf).
  { unfold alloc_state. rewrite (settle_locked s2) by done. unfold with_trapframe, s2.
    rewrite set_mem_upd_proc, upd_proc_compose. reflexivity. }
  rewrite Hst. rewrite (proj2 (Z.eqb_neq tf 0)) by lia. unfold alloc_rest. reflexivity.
Qed.

Lemma with_trapframe_mem s i tf : mem (with_trapframe s i tf) = memset (mem s) tf 5 PGSIZE.
Proof. reflexivity. Qed.
Lemma with_trapframe_freelist s i tf : freelist (with_trapframe s i tf) = load64 (mem s) tf.
Proof. reflexivity. Qed.
Lemma with_trapframe_cur s i tf : cur (with_trapframe s i tf) = pushed (cur s).
Proof. reflexivity. Qed.
Lemma with_trapframe_locks s i tf :
  locks (with_trapframe s i tf) = <[L_proc i := hartid s]> (locks s).
Proof. reflexivity. Qed.
Lemma with_trapframe_misc s i tf :
  nextpid (with_trapframe s i tf) = i32 (nextpid s + 1) ∧ ticks (with_trapframe s i tf) = ticks s
  ∧ length (procs (with_trapframe s i tf)) = length (procs s).
Proof. split_and!; [reflexivity.. |]. apply length_alter. Qed.
Lemma with_trapframe_proc s i tf :
  (i < length (procs s))%nat →
  proc_at (with_trapframe s i tf) i
  = set_p_trapframe tf (set_p_state USED (set_p_pid (nextpid s) (proc_at s i))).
Proof. intros Hi. unfold with_trapframe. by rewrite proc_at_upd. Qed.
Lemma with_trapframe_others s i tf j : j ≠ i → proc_at (with_trapframe s i tf) j = proc_at s j.
Proof. intros Hj. unfold with_trapframe, proc_at. simpl. by rewrite list_lookup_alter_ne. Qed.

Lemma alloc_state_mem r f s : mem (alloc_state r f s) = memset (mem s) r 5 PGSIZE.
Proof. reflexivity. Qed.
Lemma alloc_state_freelist r f s : freelist (alloc_state r f s) = f.
Proof. reflexivity. Qed.
Lemma kmem_trapframe s i tf l : kmem_ok s (tf :: l) → kmem_ok (with_trapframe s i tf) l.
Proof.
  intros H. destruct (kalloc_pop_ok s tf l H) as [Hc Hd Hp]. split; [|done..].
  rewrite with_trapframe_mem, with_trapframe_freelist.
  by rewrite alloc_state_mem, alloc_state_freelist in Hc.
Qed.

Lemma allocproc_ok s l i :
  table_free s → locks s !! L_pid = None → locks s !! L_kmem = None →
  (i < length (procs s))%nat → (length (procs s) <= NPROC)%nat →
  kmem_ok s l → (6 <= length l)%nat →
  p_state (proc_at s i) = UNUSED → (∀ j, (j < i)%nat → p_state (proc_at s j) ≠ UNUSED) →
  ∃ s', allocproc s = Ok (Some i) s' ∧ allocated s l i s'.
Proof.
  intros Hs Hpid Hkm Hi Hlen Hf Hl Hu Hmin. destruct l as [|tf [|root l]]; simpl in Hl; try lia.
  rewrite (allocproc_start s i tf (root :: l)) by (done || lia).
  pose proof (kmem_trapframe s i tf _ Hf) as Hf'.
  pose proof (with_trapframe_proc s i tf Hi) as Hpt.
  pose proof (with_trapframe_mem s i tf) as Hmt. pose proof (with_trapframe_locks s i tf) as Hlt.
  destruct (with_trapframe_misc s i tf) as (Hnt & Htt & Hln).
  pose proof (with_trapframe_others s i tf) as Hot. pose proof (with_trapframe_cur s i tf) as Hct.
  pose proof (proj1 (Forall_cons_1 _ _ _ (km_pages _ _ Hf))) as Htf.
  generalize dependent (with_trapframe s i tf). intros t Hf' Hpt Hmt Hlt Hnt Htt Hln Hot Hct.
  destruct (alloc_rest_ok t i root l tf) as (s' & E & Hfr & Ho & Hat & ts & l' & Hpp & Ht & Hm).
  - rewrite Hct. destruct Hs as [[? ?] _]. simpl. lia.
  - split; [rewrite Hct; apply cpu_ok_pushed, Hs | by rewrite Hlt, lookup_insert_ne].
  - exact Hf'.
  - lia.
  - by rewrite Hln.
  - by rewrite Hpt.
  - exact Htf.
  - exists s'. split; [exact E|]. rewrite Hpt, Htt in Hat.
    assert (Hx : locks s' = locks t ∧ nextpid s' = nextpid t).
    { split; [apply (f_equal locks) in Hfr | apply (f_equal nextpid) in Hfr]; exact Hfr. }
    destruct Hx as [Hx1 Hx2]. split; rewrite ?Hat; [congruence | | congruence | reflexivity.. |].
    + intros j Hj. by rewrite Ho, Hot.
    + exists ts, l'. split; [by rewrite Hpp|]. split; [exact Ht|]. intros x Hx. rewrite Hm by (intros q Hq; apply Hx; by right).
      rewrite Hmt. apply memset_page_frame, Hx. by left.
Qed.
End alloc.

(** C30: allocproc() takes the first UNUSED slot, or fails and changes nothing if there
    is none. With six free pages it gives the process the next pid, a trapframe page
    of its own, and a well-formed page table of its own pages that maps the trampoline
    and the trapframe without PTE_U and nothing below them; it returns holding the
    lock of the process, touches no other process, and writes no memory but the pages
    it allocates. *)
Theorem allocproc_correct `{Image} s l :
  table_free s → locks s !! L_pid = None → locks s !! L_kmem = None →
  length (procs s) = NPROC → kmem_ok s l → (6 <= length l)%nat →
  (∃ i s', (i < NPROC)%nat ∧ p_state (proc_at s i) = UNUSED
     ∧ (∀ j, (j < i)%nat → p_state (proc_at s j) ≠ UNUSED)
     ∧ allocproc s = Ok (Some i) s' ∧ allocated s l i s')
  ∨ ((∀ j, (j < NPROC)%nat → p_state (proc_at s j) ≠ UNUSED) ∧ allocproc s = Ok None (settle s)).
Proof.
  intros Hs Hpid Hkm Hlen Hf Hl.
  destruct (least_index (λ i, p_state (proc_at s i) = UNUSED) NPROC) as [(i & Hi & Hu & Hmin)|Hno].
  - left. destruct (allocproc_ok s l i) as (s' & E & Ha);
      [exact Hs | exact Hpid | exact Hkm | lia | lia | exact Hf | exact Hl | exact Hu | exact Hmin |].
    exists i, s'. split_and!; [lia | exact Hu | exact Hmin | exact E | exact Ha].
  - right. split; [exact Hno|]. unfold allocproc.
    by rewrite (bind_Ok _ _ _ _ _ (alloc_scan_none s Hs Hno)).
Qed.

(** A process can be killed before it exists. kill(0) matches the pid of a free
    slot, marks that slot and reports success; allocproc() does not clear [killed], so
    the next process to be created is killed from birth. *)
Theorem killed_at_birth `{Image} s l :
  table_free s → locks s !! L_pid = None → locks s !! L_kmem = None →
  length (procs s) = NPROC → kmem_ok s l → (6 <= length l)%nat →
  (∀ i, (i < NPROC)%nat → p_pid (proc_at s i) = 0 ↔ p_state (proc_at s i) = UNUSED) →
  (∃ i, (i < NPROC)%nat ∧ p_state (proc_at s i) = UNUSED) →
  ∃ s1 i s2, kkill 0 s = Ok 0 s1 ∧ allocproc s1 = Ok (Some i) s2
    ∧ p_state (proc_at s2 i) = USED ∧ p_killed (proc_at s2 i) = 1.
Proof.
  intros Hs Hpid Hkm Hlen Hf Hl Hz (i0 & Hi0 & Hu0).
  destruct (least_index (λ i, p_state (proc_at s i) = UNUSED) NPROC) as [(i & Hi & Hu & Hmin)|Hno];
    [|by destruct (Hno i0)].
  assert (E1 : kkill 0 s = Ok 0 (upd_proc i killed_proc (settle s))).
  { apply kkill_hit; [exact Hs | exact Hi | by apply Hz |]. intros j Hj Hp.
    apply (Hmin j Hj), Hz; [lia | exact Hp]. }
  set (s1 := upd_proc i killed_proc (settle s)) in E1.
  assert (Hp1 : proc_at s1 i = killed_proc (proc_at s i)) by (unfold s1; rewrite proc_at_upd by (simpl; lia); reflexivity).
  assert (Ho1 : ∀ j, j ≠ i → proc_at s1 j = proc_at s j).
  { intros j Hj. unfold s1, proc_at. simpl. by rewrite list_lookup_alter_ne. }
  assert (Hk : p_state (proc_at s1 i) = UNUSED ∧ p_killed (proc_at s1 i) = 1).
  { rewrite Hp1. unfold killed_proc. simpl. rewrite Hu. simpl. done. }
  destruct (allocproc_ok s1 l i) as (s2 & E2 & Ha).
  - apply table_free_upd, Hs.
  - exact Hpid.
  - exact Hkm.
  - unfold s1. simpl. rewrite length_alter. lia.
  - unfold s1. simpl. rewrite length_alter. lia.
  - destruct Hf as [Hc Hd Hp]. split; [exact Hc | exact Hd | exact Hp].
  - exact Hl.
  - apply Hk.
  - intros j Hj. rewrite Ho1 by lia. by apply Hmin.
  - exists s1, i, s2. split_and!; [exact E1 | exact E2 | apply Ha |]. rewrite (al_killed _ _ _ _ Ha). apply Hk.
Qed.

(** ** Concrete runs: two processes and six free pages. *)

#[local] Existing Instance sample_image.

Definition six_pages : list Z := (λ i, KERNBASE + (40 + Z.of_nat i) * PGSIZE) <$> seq 0 6.
Definition demo_kernel : kernel :=
  set_mem (foldr (λ p m, store64 m p (p + PGSIZE)) (λ _, 0) (take 5 six_pages))
    (set_freelist (KERNBASE + 40 * PGSIZE) (demo (Some 0%nat) RUNNING SLEEPING)).

Lemma demo_kernel_pages : kmem_ok demo_kernel six_pages.
Proof.
  split; [vm_compute; intuition | by apply (bool_decide_unpack _); vm_compute |].
  unfold six_pages. rewrite Forall_fmap, Forall_forall. intros i Hi%elem_of_seq.
  unfold page_ok. simpl. change PGSIZE with 4096. change KERNBASE with 2147483648.
  change PHYSTOP with 2281701376. split; [|lia].
  replace (2147483648 + (40 + Z.of_nat i) * 4096) with ((524288 + 40 + Z.of_nat i) * 4096) by lia.
  apply Z_mod_mult.
Qed.

Lemma allocproc_correct_witness :
  (∃ i s', (i < NPROC)%nat ∧ p_state (proc_at demo_kernel i) = UNUSED
     ∧ (∀ j, (j < i)%nat → p_state (proc_at demo_kernel j) ≠ UNUSED)
     ∧ allocproc demo_kernel = Ok (Some i) s' ∧ allocated demo_kernel six_pages i s')
  ∨ ((∀ j, (j < NPROC)%nat → p_state (proc_at demo_kernel j) ≠ UNUSED)
     ∧ allocproc demo_kernel = Ok None (settle demo_kernel)).
Proof.
  apply (allocproc_correct demo_kernel six_pages);
    [apply demo_free | reflexivity | reflexivity | reflexivity | apply demo_kernel_pages | simpl; lia].
Defined.

Lemma killed_at_birth_witness :
  ∃ s1 i s2, kkill 0 demo_kernel = Ok 0 s1 ∧ allocproc s1 = Ok (Some i) s2
    ∧ p_state (proc_at s2 i) = USED ∧ p_killed (proc_at s2 i) = 1.
Proof.
  apply (killed_at_birth demo_kernel six_pages);
    [apply demo_free | reflexivity | reflexivity | reflexivity | apply demo_kernel_pages | simpl; lia | |].
  - intros [|[|i]] Hi; [split; discriminate.. |].
    assert (E : proc_at demo_kernel (S (S i)) = null_proc); [|by rewrite E].
    change (default null_proc (replicate 62 null_proc !! i) = null_proc).
    destruct (_ !! i) as [q|] eqn:Eq; [by apply lookup_replicate in Eq as [-> _] | reflexivity].
  - exists 2%nat. split; [by apply Nat.ltb_lt | reflexivity].
Defined.
