(* ===== verification/ProcStat.v ===== *)
(** The record that getprocstats() copies to user space: [struct procinfo] at the
    offsets of the C ABI, built on the stack of the kernel. *)
From S2P Require Import Prelude Pstat Kernel Cstring Riscv ProcMem.

(** The number with the little-endian bytes [l]. *)
Fixpoint unle (l : list Z) : Z := match l with [] => 0 | b :: l => b + 256 * unle l end.

Definition slice (off n : nat) (d : list Z) : list Z := take n (drop off d).

Lemma length_le n v : length (le n v) = n.
Proof. revert v. induction n; intros v; simpl; auto. Qed.

Lemma unle_le n v : unle (le n v) = v mod 2 ^ (8 * Z.of_nat n).
Proof.
  revert v. induction n as [|n IH]; intros v; [by rewrite Z.mod_1_r|].
  cbn [le unle]. rewrite IH. replace (8 * Z.of_nat (S n)) with (8 + 8 * Z.of_nat n) by lia.
  rewrite Z.pow_add_r, (Z.rem_mul_r v) by lia. done.
Qed.

Lemma length_put_at off l d : (off + length l <= length d)%nat → length (put_at off l d) = length d.
Proof. intros H. unfold put_at. rewrite !length_app, length_take, length_drop. lia. Qed.

Lemma slice_put_at_eq off n l d :
  length l = n → (off + n <= length d)%nat → slice off n (put_at off l d) = l.
Proof.
  intros <- H. unfold slice, put_at. rewrite drop_app_length' by (rewrite length_take; lia).
  by rewrite take_app_length.
Qed.
Lemma slice_put_at_ne off n o l d :
  (off + n <= o ∨ o + length l <= off)%nat → (o + length l <= length d)%nat → (off + n <= length d)%nat →
  slice off n (put_at o l d) = slice off n d.
Proof.
  intros Hd Ho Hn. unfold slice, put_at. apply list_eq. intros i.
  destruct (decide (i < n)%nat) as [Hi|Hi]; [|by rewrite !lookup_take_ge by lia].
  rewrite !lookup_take_lt, !lookup_drop by lia. destruct Hd as [Hd|Hd].
  - rewrite lookup_app_l by (rewrite length_take; lia). by rewrite lookup_take_lt by lia.
  - rewrite lookup_app_r by (rewrite length_take; lia). rewrite length_take_le by lia.
    rewrite lookup_app_r by lia. rewrite lookup_drop. f_equal. lia.
Qed.

Lemma length_safestrcpy_arr dst src n : length (safestrcpy_arr dst src n) = Z.to_nat n.
Proof. apply length_read_bytes. Qed.

(** Storing the fields [fs], none of them beyond the end. *)
Definition fits (n : nat) (fs : list (nat * list Z)) : Prop :=
  Forall (λ f, (f.1 + length f.2 <= n)%nat) fs.
Definition stored (fs : list (nat * list Z)) (d : list Z) : list Z :=
  foldl (λ d f, put_at f.1 f.2 d) d fs.

Lemma length_stored fs d : fits (length d) fs → length (stored fs d) = length d.
Proof.
  unfold stored. revert d. induction fs as [|[o l] fs IH]; intros d Hf; [done|].
  apply Forall_cons in Hf as [H1 H2]. simpl in *. rewrite IH; rewrite length_put_at; done.
Qed.

(** Bytes that no field covers keep their value. *)
Lemma slice_stored_ne off n fs d :
  fits (length d) fs → (off + n <= length d)%nat →
  Forall (λ f, off + n <= f.1 ∨ f.1 + length f.2 <= off)%nat fs →
  slice off n (stored fs d) = slice off n d.
Proof.
  unfold stored. revert d. induction fs as [|[o l] fs IH]; intros d Hf Hn Hd; [done|].
  apply Forall_cons in Hf as [H1 H2], Hd as [H3 H4]. simpl in *.
  rewrite IH; [|rewrite length_put_at; done..|done]. by apply slice_put_at_ne.
Qed.

(** A field keeps its bytes under the fields stored after it. *)
Lemma slice_stored_eq fs1 off l fs2 d :
  fits (length d) (fs1 ++ (off, l) :: fs2) →
  Forall (λ f, off + length l <= f.1 ∨ f.1 + length f.2 <= off)%nat fs2 →
  slice off (length l) (stored (fs1 ++ (off, l) :: fs2) d) = l.
Proof.
  intros Hf Hd. apply Forall_app in Hf as [H1 [H2 H3]%Forall_cons]. simpl in H2.
  unfold stored. rewrite foldl_app. cbn [foldl fst snd]. fold (stored fs1 d).
  pose proof (length_stored fs1 d H1) as Hl.
  change (foldl _ ?x fs2) with (stored fs2 x).
  rewrite (slice_stored_ne off (length l) fs2) by (rewrite ?length_put_at; rewrite ?Hl; done).
  apply slice_put_at_eq; [done | by rewrite Hl].
Qed.

(** ** The layout *)

(** Offsets and sizes. *)
Definition layout (fs : list (nat * list Z)) : list (nat * nat) := (λ f, (f.1, length f.2)) <$> fs.
Definition apart (off n : nat) (f : nat * nat) : Prop := (off + n <= f.1 ∨ f.1 + f.2 <= off)%nat.
#[export] Instance apart_dec off n f : Decision (apart off n f).
Proof. unfold apart. apply _. Defined.

Fixpoint disjoint_fields (size : nat) (lay : list (nat * nat)) : bool :=
  match lay with
  | [] => true
  | f :: lay =>
      bool_decide (f.1 + f.2 <= size)%nat
      && forallb (λ g, bool_decide (f.1 + f.2 <= g.1)%nat) lay && disjoint_fields size lay
  end.

Lemma disjoint_fits size fs : disjoint_fields size (layout fs) = true → fits size fs.
Proof.
  unfold fits. induction fs as [|[o l] fs IH]; simpl; [constructor|].
  intros [[H1 H2]%andb_true_iff H3]%andb_true_iff. apply bool_decide_eq_true in H1. auto.
Qed.
Lemma disjoint_after size fs1 o l fs2 :
  disjoint_fields size (layout (fs1 ++ (o, l) :: fs2)) = true →
  Forall (λ f, o + length l <= f.1 ∨ f.1 + length f.2 <= o)%nat fs2.
Proof.
  induction fs1 as [|[o1 l1] fs1 IH]; simpl; intros [[H1 H2]%andb_true_iff H3]%andb_true_iff; [|auto].
  apply Forall_forall. intros f Hf. left. rewrite forallb_forall in H2.
  apply (bool_decide_eq_true (o + length l <= f.1)%nat), (H2 (f.1, length f.2)).
  apply list_elem_of_In, list_elem_of_fmap. eauto.
Qed.

Lemma field_stored fs d k o l :
  disjoint_fields (length d) (layout fs) = true → fs !! k = Some (o, l) →
  slice o (length l) (stored fs d) = l.
Proof.
  intros Hd Hk. rewrite <- (take_drop_middle fs k (o, l) Hk) in *.
  by apply slice_stored_eq; [apply disjoint_fits | eapply disjoint_after].
Qed.

Section procinfo.
Variables (ppid : Z) (p : proc) (junk : list Z).
Hypothesis Hjunk : length junk = PROCINFO.

Lemma procinfo_layout :
  layout (procinfo_fields ppid p junk)
  = [(0, 4); (4, 4); (8, 16); (24, 4); (32, 8); (40, 8); (48, 8); (56, 8); (64, 8); (72, 8);
     (80, 4); (84, 4); (88, 4); (92, 4); (96, 4); (100, 4); (104, 4); (108, 4); (112, 4);
     (116, 4); (120, 4); (124, 4); (128, 4); (136, 8)]%nat.
Proof. unfold layout, procinfo_fields. cbn [fmap list_fmap fst snd]. by rewrite !length_le, length_safestrcpy_arr. Qed.

Lemma procinfo_disjoint : disjoint_fields (length junk) (layout (procinfo_fields ppid p junk)) = true.
Proof. rewrite procinfo_layout, Hjunk. reflexivity. Qed.

Lemma procinfo_stored : procinfo ppid p junk = stored (procinfo_fields ppid p junk) junk.
Proof. unfold procinfo, stored. reflexivity. Qed.

Lemma procinfo_field k o l :
  procinfo_fields ppid p junk !! k = Some (o, l) → slice o (length l) (procinfo ppid p junk) = l.
Proof.
  intros Hk. rewrite procinfo_stored. eapply field_stored; [apply procinfo_disjoint | exact Hk].
Qed.

Lemma procinfo_num k o n v :
  procinfo_fields ppid p junk !! k = Some (o, le n v) →
  unle (slice o n (procinfo ppid p junk)) = v mod 2 ^ (8 * Z.of_nat n).
Proof.
  intros Hk. pose proof (procinfo_field k o (le n v) Hk) as H. rewrite length_le in H.
  by rewrite H, unle_le.
Qed.

Lemma procinfo_gap off n :
  (off + n <= PROCINFO)%nat →
  Forall (apart off n) (layout (procinfo_fields ppid p junk)) →
  slice off n (procinfo ppid p junk) = slice off n junk.
Proof.
  intros Hn Hg. rewrite procinfo_stored. apply slice_stored_ne; [| by rewrite Hjunk |].
  - apply disjoint_fits, procinfo_disjoint.
  - unfold layout, apart in Hg. rewrite Forall_fmap in Hg. exact Hg.
Qed.
End procinfo.

Definition field (d : list Z) (off n : Z) : Z := unle (slice (Z.to_nat off) (Z.to_nat n) d).

(** What the monitoring programs read. Every field of the [struct procinfo] that
    get_proc_stats() hands out, read at its ABI offset, is the field of the process it
    was built from; but the padding of the struct, bytes 28 to 31 and 132 to 135, is
    whatever the kernel's stack held, which is thereby disclosed to the user. *)
Theorem procinfo_correct ppid p junk :
  length junk = PROCINFO →
  let d := procinfo ppid p junk in
  let m := p_mt p in
  length d = PROCINFO
  ∧ field d 0 4 = u32 (p_pid p) ∧ field d 4 4 = u32 ppid ∧ field d 24 4 = state_code (p_state p)
  ∧ field d 32 8 = u64 (cputicks m) ∧ field d 40 8 = u64 (waitticks m) ∧ field d 48 8 = u64 (sched_count m)
  ∧ field d 56 8 = u64 (switches m) ∧ field d 64 8 = u64 (creation_tick m) ∧ field d 72 8 = u64 (last_sched_tick m)
  ∧ field d 80 4 = u32 (current_burst m) ∧ field d 84 4 = u32 (last_burst m) ∧ field d 88 4 = u32 (est_burst m)
  ∧ field d 92 4 = type_code (proc_type m) ∧ field d 96 4 = u32 (priority m) ∧ field d 100 4 = u32 (time_slice m)
  ∧ field d 104 4 = u32 (ticks_in_slice m) ∧ field d 108 4 = u32 (predicted_burst m)
  ∧ field d 112 4 = u32 (prediction_error m) ∧ field d 116 4 = u32 (anomaly_score m)
  ∧ field d 120 4 = u32 (anomaly_flags m) ∧ field d 124 4 = health_code (health_status m)
  ∧ field d 128 4 = u32 (healing_actions m) ∧ field d 136 8 = u64 (last_heal_tick m)
  ∧ slice 8%nat 16%nat d = safestrcpy_arr (slice 8%nat 16%nat junk) (p_name p) 16
  ∧ slice 28%nat 4%nat d = slice 28%nat 4%nat junk ∧ slice 132%nat 4%nat d = slice 132%nat 4%nat junk.
Proof.
  intros Hj d m. subst m.
  assert (N : ∀ k o n v, procinfo_fields ppid p junk !! k = Some (o, le n v) →
    field d (Z.of_nat o) (Z.of_nat n) = v mod 2 ^ (8 * Z.of_nat n)).
  { intros k o n v Hk. unfold field. rewrite !Nat2Z.id. by apply (procinfo_num ppid p junk Hj k). }
  assert (G : ∀ o, Forall (apart o 4) (layout (procinfo_fields ppid p junk)) → (o + 4 <= PROCINFO)%nat →
    slice o 4 d = slice o 4 junk) by (intros o; intros; by apply procinfo_gap).
  split_and!.
  { unfold d. rewrite procinfo_stored, length_stored; [done|]. by apply disjoint_fits, procinfo_disjoint. }
  - exact (N 0%nat _ _ _ eq_refl).
  - exact (N 1%nat _ _ _ eq_refl).
  - etransitivity; [exact (N 3%nat _ _ _ eq_refl) | by destruct (p_state p)].
  - exact (N 4%nat _ _ _ eq_refl).
  - exact (N 5%nat _ _ _ eq_refl).
  - exact (N 6%nat _ _ _ eq_refl).
  - exact (N 7%nat _ _ _ eq_refl).
  - exact (N 8%nat _ _ _ eq_refl).
  - exact (N 9%nat _ _ _ eq_refl).
  - exact (N 10%nat _ _ _ eq_refl).
  - exact (N 11%nat _ _ _ eq_refl).
  - exact (N 12%nat _ _ _ eq_refl).
  - etransitivity; [exact (N 13%nat _ _ _ eq_refl) | by destruct (proc_type (p_mt p))].
  - exact (N 14%nat _ _ _ eq_refl).
  - exact (N 15%nat _ _ _ eq_refl).
  - exact (N 16%nat _ _ _ eq_refl).
  - exact (N 17%nat _ _ _ eq_refl).
  - exact (N 18%nat _ _ _ eq_refl).
  - exact (N 19%nat _ _ _ eq_refl).
  - exact (N 20%nat _ _ _ eq_refl).
  - etransitivity; [exact (N 21%nat _ _ _ eq_refl) | by destruct (health_status (p_mt p))].
  - exact (N 22%nat _ _ _ eq_refl).
  - exact (N 23%nat _ _ _ eq_refl).
  - pose proof (procinfo_field ppid p junk Hj 2 _ _ eq_refl) as H. rewrite length_safestrcpy_arr in H. exact H.
  - apply G; [rewrite procinfo_layout; apply (bool_decide_unpack _); by vm_compute | unfold PROCINFO; lia].
  - apply G; [rewrite procinfo_layout; apply (bool_decide_unpack _); by vm_compute | unfold PROCINFO; lia].
Qed.

Lemma procinfo_correct_witness :
  let d := procinfo 1 null_proc (replicate 144 170) in
  length d = PROCINFO ∧ field d 96 4 = u32 (priority (p_mt null_proc))
  ∧ slice 28 4 d = slice 28 4 (replicate 144 170).
Proof.
  pose proof (procinfo_correct 1 null_proc (replicate 144 170) eq_refl) as H. cbv zeta in H.
  destruct_and! H. split_and!; assumption.
Defined.
