(* ===== verification/Sleeplock.v ===== *)
(** Sleep-locks: kernel/sleeplock.c.

    A held sleep-lock is an entry of [slocks] with the pid of its holder, which is
    the pair ([locked], [pid]) of [struct sleeplock]; its spin-lock is
    [L_sleep]. *)
From S2P Require Import Prelude Pstat Kernel Spinlock Sched.

(** How often a loop around sleep() may wake up and find its condition still
    false; a run that needs more is cut off as [Hang]. *)
Definition WAITS : nat := 64.

(** [while (cond) sleep(chan, lk);] *)
Fixpoint sleep_while (fuel : nat) (cond : kernel → bool) (chan : chan_t) (lk : lockid) : K unit :=
  match fuel with
  | O => hang
  | S fuel =>
      b <- get cond ;;
      if b then sleep chan lk ;; sleep_while fuel cond chan lk else ret tt
  end.

Definition mypid : K Z :=
  p <- curproc ;;
  get (λ s, p_pid (proc_at s p)).

Definition initsleeplock (sl : sleepid) : K unit :=
  initlock (L_sleep sl) ;;
  modify (λ s, set_slocks (delete sl (slocks s)) s).

Definition acquiresleep (sl : sleepid) : K unit :=
  acquire (L_sleep sl) ;;
  sleep_while WAITS (λ s, bool_decide (is_Some (slocks s !! sl))) (Ch_sleep sl) (L_sleep sl) ;;
  pid <- mypid ;;
  modify (λ s, set_slocks (<[sl := pid]> (slocks s)) s) ;;
  release (L_sleep sl).

Definition releasesleep (sl : sleepid) : K unit :=
  acquire (L_sleep sl) ;;
  modify (λ s, set_slocks (delete sl (slocks s)) s) ;;
  wakeup (Ch_sleep sl) ;;
  release (L_sleep sl).

Definition holdingsleep (sl : sleepid) : K bool :=
  acquire (L_sleep sl) ;;
  o <- get (λ s, slocks s !! sl) ;;
  r <- (match o with
        | None => ret false
        | Some owner => pid <- mypid ;; ret (owner =? pid)
        end) ;;
  release (L_sleep sl) ;;
  ret r.

(** ** Running alone

    The theorems about the code above sleep-locks follow one process [p] while no
    other hart is inside a critical section. *)
Record env (p : nat) (s : kernel) : Prop := {
  e_cpu : cpu_ok (cur s);
  e_locks : locks s = ∅;
  e_proc : c_proc (cur s) = Some p;
  e_len : (length (procs s) <= NPROC)%nat;
}.

Definition pid_of (s : kernel) (p : nat) : Z := p_pid (proc_at s p).

Lemma env_settle p s : env p s → env p (settle s).
Proof. intros []. by split. Qed.

(** A critical section on one lock, from a state with no lock held. *)
Lemma env_acquire p s lk : env p s → acquire lk s = Ok tt (lock_state lk s).
Proof. intros H. apply acquire_ok. by rewrite (e_locks _ _ H). Qed.
Lemma env_release p s s1 lk :
  env p s → cur s1 = pushed (cur s) → hartid s1 = hartid s → locks s1 = {[lk := hartid s]} →
  release lk s1 = Ok tt (set_cur (settled (cur s)) (set_locks ∅ s1)).
Proof.
  intros [Hok Hl _ _] Hc Hh Hlk.
  rewrite (release_ok _ _ (cur s)) by (done || by rewrite Hlk, Hh, lookup_singleton_eq).
  by rewrite Hlk, delete_singleton_eq.
Qed.

Lemma lock_state_free p s lk :
  env p s → (∀ i, lk ≠ L_proc i) → table_free (lock_state lk s).
Proof.
  intros [Hok Hl _ _] Hlk. split; [by apply cpu_ok_pushed|]. intros i _. simpl.
  rewrite Hl, lookup_insert_ne by done. apply lookup_empty.
Qed.

Lemma settle_lock_state p s lk : env p s → settle (lock_state lk s) = lock_state lk s.
Proof.
  intros [Hok _ _ _]. unfold settle. simpl. by rewrite settled_pushed.
Qed.

Lemma mypid_locked p s lk :
  env p s → mypid (lock_state lk s) = Ok (pid_of s p) (lock_state lk s).
Proof.
  intros He. unfold mypid. destruct He as [Hok Hl Hp Hn] eqn:E. clear E.
  rewrite (bind_Ok _ _ _ _ _ (curproc_ok (lock_state lk s) p (cpu_ok_pushed _ Hok) Hp)).
  by rewrite (settle_lock_state p).
Qed.

Lemma acquiresleep_ok p s sl :
  env p s → slocks s !! sl = None →
  acquiresleep sl s = Ok tt (set_slocks (<[sl := pid_of s p]> (slocks s)) (settle s)).
Proof.
  intros He Hsl. unfold acquiresleep. rewrite (bind_Ok _ _ _ _ _ (env_acquire p s _ He)).
  change WAITS with (S 63). cbn [sleep_while]. unfold bind at 1. ksteps. simpl. rewrite Hsl.
  rewrite bool_decide_false by (by intros [? ?]). simpl.
  rewrite (bind_Ok _ _ _ _ _ (mypid_locked p s _ He)). ksteps.
  rewrite (env_release p s); try done.
  - simpl. f_equal. rewrite <- (e_locks _ _ He). by destruct s.
  - simpl. by rewrite (e_locks _ _ He).
Qed.

Lemma holdingsleep_ok p s sl :
  env p s →
  holdingsleep sl s = Ok (bool_decide (slocks s !! sl = Some (pid_of s p))) (settle s).
Proof.
  intros He. unfold holdingsleep. rewrite (bind_Ok _ _ _ _ _ (env_acquire p s _ He)). ksteps.
  erewrite bind_Ok.
  2: { instantiate (1 := lock_state (L_sleep sl) s).
       instantiate (1 := bool_decide (slocks s !! sl = Some (pid_of s p))). simpl.
       destruct (slocks s !! sl) as [o|]; [|done].
       rewrite (bind_Ok _ _ _ _ _ (mypid_locked p s _ He)). unfold ret. f_equal.
       case_bool_decide; [apply Z.eqb_eq | apply Z.eqb_neq]; congruence. }
  erewrite bind_Ok.
  2: { apply (env_release p s); try done. simpl. by rewrite (e_locks _ _ He). }
  unfold ret. f_equal. rewrite <- (e_locks _ _ He). by destruct s.
Qed.

Lemma releasesleep_ok p s sl :
  env p s →
  releasesleep sl s
  = Ok tt (set_slocks (delete sl (slocks s))
             (set_procs (imap (woken (Some p) (Ch_sleep sl)) (procs s)) (settle s))).
Proof.
  intros He. unfold releasesleep. rewrite (bind_Ok _ _ _ _ _ (env_acquire p s _ He)). ksteps.
  erewrite bind_Ok; [|apply wakeup_ok].
  - simpl. rewrite (env_release p s); try done; simpl.
    + f_equal. rewrite (e_proc _ _ He), <- (e_locks _ _ He). by destruct s.
    + rewrite settled_pushed; [done | apply He].
    + by rewrite (e_locks _ _ He).
  - apply (lock_state_free p s (L_sleep sl)); done.
  - apply He.
Qed.
