(* ===== verification/Uart.v ===== *)
(** The serial port and formatted output: kernel/uart.c (uartintr() is in Console.v),
    consputc() of kernel/console.c and kernel/printk.c.

    The device is [uart]: the control registers, the bytes it has transmitted and
    the receive FIFO. A busy-wait on the line status register ends when the
    transmitter is idle. panic() is the outcome [Panic] of the monad, so the
    branches for a panicking kernel, in which no lock is taken, are not runs of the
    model; [panicked] stops the output of the other harts. *)
From S2P Require Import Prelude Pstat Kernel Spinlock Sched Sleeplock.

(** ** The driver *)

Definition RHR : Z := 0.
Definition THR : Z := 0.
Definition IER : Z := 1.
Definition IER_RX_ENABLE : Z := Z.shiftl 1 0.
Definition IER_TX_ENABLE : Z := Z.shiftl 1 1.
Definition FCR : Z := 2.
Definition FCR_FIFO_ENABLE : Z := Z.shiftl 1 0.
Definition FCR_FIFO_CLEAR : Z := Z.shiftl 3 1.
Definition LCR : Z := 3.
Definition LCR_EIGHT_BITS : Z := Z.shiftl 3 0.
Definition LCR_BAUD_LATCH : Z := Z.shiftl 1 7.

Definition upd_uart (f : uart_t → uart_t) (s : kernel) : kernel := set_uart (f (uart s)) s.

(** With the baud latch set, registers 0 and 1 are the baud rate. *)
Definition latched (u : uart_t) : bool :=
  negb (Z.land (default 0 (u_regs u !! LCR)) LCR_BAUD_LATCH =? 0).
Definition write_reg (reg v : Z) (u : uart_t) : uart_t :=
  if (reg =? THR) && negb (latched u) then set_u_tx_idle false (set_u_out (u8 v :: u_out u) u)
  else set_u_regs (<[reg := u8 v]> (u_regs u)) u.
Definition WriteReg (reg v : Z) : K unit := modify (upd_uart (write_reg reg v)).

Definition uartinit : K unit :=
  WriteReg IER 0 ;;
  WriteReg LCR LCR_BAUD_LATCH ;;
  WriteReg 0 3 ;;
  WriteReg 1 0 ;;
  WriteReg LCR LCR_EIGHT_BITS ;;
  WriteReg FCR (Z.lor FCR_FIFO_ENABLE FCR_FIFO_CLEAR) ;;
  WriteReg IER (Z.lor IER_TX_ENABLE IER_RX_ENABLE) ;;
  initlock L_tx.

Definition uartwrite (buf : list Z) : K unit :=
  acquire L_tx ;;
  for_each buf (λ c,
    sleep_while WAITS (λ s, tx_busy (uart s)) Ch_tx L_tx ;;
    WriteReg THR c ;;
    modify (upd_uart (set_tx_busy true))) ;;
  release L_tx.

Definition uartputc_sync (c : Z) : K unit :=
  push_off ;;
  p <- get panicked ;;
  if p : bool then hang else
  modify (upd_uart (set_u_tx_idle true)) ;;
  WriteReg THR c ;;
  pop_off.

(** The next input byte, or -1. *)
Definition uartgetc : K Z :=
  l <- get (λ s, u_in (uart s)) ;;
  match l with
  | [] => ret (-1)
  | c :: l => modify (upd_uart (set_u_in l)) ;; ret c
  end.

Definition BACKSPACE : Z := 256.
Definition consputc (c : Z) : K unit :=
  if c =? BACKSPACE then uartputc_sync 8 ;; uartputc_sync 32 ;; uartputc_sync 8
  else uartputc_sync c.

(** ** printk() *)

Fixpoint chars (s : string) : list Z :=
  match s with
  | String.EmptyString => []
  | String.String a s => Z.of_N (Ascii.N_of_ascii a) :: chars s
  end.

Definition digits : list Z := chars "0123456789abcdef".
Definition digit (d : Z) : Z := default 0 (digits !! Z.to_nat d).

(** The loop of printint() that fills [buf], least significant digit first. A
    64-bit number has at most 20 digits in base 10, and 64 in any base. *)
Fixpoint int_digits (fuel : nat) (x base : Z) : list Z :=
  match fuel with
  | O => []
  | S fuel =>
      digit (x mod base) :: (if x / base =? 0 then [] else int_digits fuel (x / base) base)
  end.

(** What printint() leaves in [buf]; [xx] is a [long long]. *)
Definition int_buf (xx base : Z) (sign : bool) : list Z :=
  let neg := sign && (xx <? 0) in
  let x := if neg then u64 (- xx) else u64 xx in
  int_digits 64 x base ++ (if neg then [45] else []).
Definition printint (xx base : Z) (sign : bool) : K unit :=
  for_each (reverse (int_buf xx base sign)) consputc.

Definition printptr (x : Z) : K unit :=
  consputc 48 ;;
  consputc 120 ;;
  for_each (seq 0 16) (λ i, consputc (digit (Z.shiftr (u64 (Z.shiftl x (4 * Z.of_nat i))) 60))).

(** An argument of printk(): a number, or a string, which may be null. *)
Inductive arg := Num (v : Z) | Str (s : option (list Z)).

(** [va_arg()]; a missing argument, or one of another type, is undefined. *)
Definition va_num (ap : list arg) (k : Z → list arg → K unit) : K unit :=
  match ap with Num v :: ap => k v ap | _ => panic "undefined: va_arg" end.
Definition va_str (ap : list arg) (k : option (list Z) → list arg → K unit) : K unit :=
  match ap with Str s :: ap => k s ap | _ => panic "undefined: va_arg" end.

(** A [long long] argument that carries the bits of [v]. *)
Definition i64 (v : Z) : Z := let u := u64 v in if u <? 2 ^ 63 then u else u - 2 ^ 64.

(** The loop over the format; each round consumes at least one character. *)
Fixpoint printk_loop (fuel : nat) (fmt : list Z) (ap : list arg) : K unit :=
  match fuel with
  | O => hang
  | S fuel =>
      match fmt with
      | [] => ret tt
      | cx :: fmt =>
          if negb (cx =? 37) then consputc cx ;; printk_loop fuel fmt ap else
          let c0 := default 0 (fmt !! 0%nat) in
          let c1 := default 0 (fmt !! 1%nat) in
          let c2 := default 0 (fmt !! 2%nat) in
          let eq (c x : Z) := c =? x in
          let int (n : nat) (v base : Z) (sign : bool) ap :=
            printint v base sign ;; printk_loop fuel (drop n fmt) ap in
          if eq c0 100 then va_num ap (λ v, int 1%nat (i32 v) 10 true)
          else if eq c0 108 && eq c1 100 then va_num ap (λ v, int 2%nat (i64 v) 10 true)
          else if eq c0 108 && eq c1 108 && eq c2 100 then va_num ap (λ v, int 3%nat (i64 v) 10 true)
          else if eq c0 117 then va_num ap (λ v, int 1%nat (u32 v) 10 false)
          else if eq c0 108 && eq c1 117 then va_num ap (λ v, int 2%nat (i64 v) 10 false)
          else if eq c0 108 && eq c1 108 && eq c2 117 then va_num ap (λ v, int 3%nat (i64 v) 10 false)
          else if eq c0 120 then va_num ap (λ v, int 1%nat (u32 v) 16 false)
          else if eq c0 108 && eq c1 120 then va_num ap (λ v, int 2%nat (i64 v) 16 false)
          else if eq c0 108 && eq c1 108 && eq c2 120 then va_num ap (λ v, int 3%nat (i64 v) 16 false)
          else if eq c0 112 then va_num ap (λ v ap, printptr (u64 v) ;; printk_loop fuel (drop 1 fmt) ap)
          else if eq c0 99 then va_num ap (λ v ap, consputc (u32 v) ;; printk_loop fuel (drop 1 fmt) ap)
          else if eq c0 115 then
            va_str ap (λ s ap,
              for_each (default (chars "(null)") s) consputc ;;
              printk_loop fuel (drop 1 fmt) ap)
          else if eq c0 37 then consputc 37 ;; printk_loop fuel (drop 1 fmt) ap
          else if eq c0 0 then ret tt
          else consputc 37 ;; consputc c0 ;; printk_loop fuel (drop 1 fmt) ap
      end
  end.
Definition printk (fmt : string) (ap : list arg) : K unit :=
  acquire L_pr ;;
  printk_loop (S (String.length fmt)) (chars fmt) ap ;;
  release L_pr.

(** \n *)
Definition newline : string := String.String (Ascii.ascii_of_nat 10) String.EmptyString.

Definition printkinit : K unit := initlock L_pr.

(** ** Output *)

(** The state of a hart that may print. *)
Record printable (s : kernel) : Prop := {
  pr_cpu : cpu_ok (cur s);
  pr_live : panicked s = false;
  pr_latch : latched (uart s) = false;
}.

(** [s'] is [s] after the bytes [l] have been sent. *)
Record sent (l : list Z) (s s' : kernel) : Prop := {
  se_out : u_out (uart s') = reverse l ++ u_out (uart s);
  se_regs : u_regs (uart s') = u_regs (uart s) ∧ u_in (uart s') = u_in (uart s)
    ∧ tx_busy (uart s') = tx_busy (uart s);
  se_frame : s' = s ∨ s' = set_uart (uart s') (settle s);
}.

Lemma sent_nil s : sent [] s s.
Proof. split; [done | done | by left]. Qed.
Lemma sent_trans l1 l2 s s1 s' : sent l1 s s1 → sent l2 s1 s' → sent (l1 ++ l2) s s'.
Proof.
  intros [O1 (R1 & I1 & T1) F1] [O2 (R2 & I2 & T2) F2]. split.
  - by rewrite O2, O1, reverse_app, app_assoc.
  - split_and!; congruence.
  - destruct F2 as [->|F2]; [done|]. right. rewrite F2.
    destruct F1 as [->|F1]; [done|]. rewrite F1. unfold settle. simpl. by rewrite settled_idemp.
Qed.
Lemma sent_printable l s s' : printable s → sent l s s' → printable s'.
Proof.
  intros [H1 H2 H3] [_ (R & _) F].
  assert (L : latched (uart s') = false) by (unfold latched in *; by rewrite R).
  destruct F as [->|F]; [by split|]. split; [| |done]; rewrite F; simpl; [by apply cpu_ok_settled | done].
Qed.

Lemma uartputc_sync_ok c s :
  printable s → ∃ s', uartputc_sync c s = Ok tt s' ∧ sent [u8 c] s s'.
Proof.
  intros [H1 H2 H3]. unfold uartputc_sync. rewrite (bind_Ok _ _ _ _ _ (push_off_ok s)). kstep.
  simpl. rewrite H2. unfold WriteReg. ksteps.
  set (t := upd_uart _ _). rewrite (pop_off_ok t (cur s) H1 eq_refl). eexists. split; [reflexivity|].
  assert (L : latched (set_u_tx_idle true (uart s)) = false) by exact H3.
  unfold t, upd_uart, write_reg. simpl. rewrite L. simpl. split; simpl; [done | done | right; by destruct s].
Qed.

Lemma consputc_ok c s :
  printable s → c ≠ BACKSPACE → ∃ s', consputc c s = Ok tt s' ∧ sent [u8 c] s s'.
Proof.
  intros H Hc. unfold consputc. apply Z.eqb_neq in Hc. rewrite Hc. by apply uartputc_sync_ok.
Qed.

Lemma print_chars l s :
  printable s → Forall (λ c, 0 <= c < 2 ^ 8) l →
  ∃ s', for_each l consputc s = Ok tt s' ∧ sent l s s'.
Proof.
  revert s. induction l as [|c l IH]; intros s Hs Hl; [exists s; split; [done | apply sent_nil]|].
  apply Forall_cons in Hl as [Hc Hl].
  destruct (consputc_ok c s Hs) as (s1 & E1 & S1); [unfold BACKSPACE; lia|]. rewrite u8_small in S1 by lia.
  destruct (IH s1) as (s' & E & S'); [by eapply sent_printable | done |].
  exists s'. split; [|by apply (sent_trans [c] l s s1)]. cbn [for_each].
  by rewrite (bind_Ok _ _ _ _ _ E1).
Qed.

(** ** Printing with locks *)

Lemma sent_inside l s s' : sent l s s' → 0 < c_noff (cur s) → cpu_ok (cur s) →
  cur s' = cur s ∧ locks s' = locks s ∧ procs s' = procs s ∧ cons s' = cons s ∧ hartid s' = hartid s
  ∧ panicked s' = panicked s.
Proof.
  intros [_ _ F] Hn Hok. destruct F as [->|F]; [done|]. rewrite F. simpl.
  by rewrite settled_locked.
Qed.

Lemma printk_run fmt ap l s :
  printable s → locks s !! L_pr = None →
  (∃ s1, printk_loop (S (String.length fmt)) (chars fmt) ap (lock_state L_pr s) = Ok tt s1
     ∧ sent l (lock_state L_pr s) s1) →
  ∃ s', printk fmt ap s = Ok tt s' ∧ sent l s s'.
Proof.
  intros Hs Hl (s1 & E & S1). unfold printk. rewrite (bind_Ok _ _ _ _ _ (acquire_ok _ _ Hl)).
  rewrite (bind_Ok _ _ _ _ _ E).
  destruct (sent_inside _ _ _ S1) as (Hc & Hlk & _ & _ & Hh & _); [destruct Hs as [[? ?] _ _]; simpl; lia | apply cpu_ok_pushed, Hs |].
  rewrite (release_ok _ _ (cur s)); [| apply Hs | done | by rewrite Hlk, Hh; apply lookup_insert_eq].
  eexists. split; [reflexivity|]. destruct S1 as [O R F]. split; [exact O | exact R|]. right.
  rewrite Hlk. change (locks (lock_state L_pr s)) with (<[L_pr := hartid s]> (locks s)).
  rewrite delete_insert_id by done. destruct F as [->|F]; [by destruct s|]. rewrite F. by destruct s.
Qed.

(** A format without conversions is sent as it is. *)
Lemma printk_plain fmt s :
  printable s → locks s !! L_pr = None → Forall (λ c, 0 <= c < 2 ^ 8 ∧ c ≠ 37) (chars fmt) →
  ∃ s', printk fmt [] s = Ok tt s' ∧ sent (chars fmt) s s'.
Proof.
  intros Hs Hl Hf. apply printk_run; [done | done |].
  assert (Hp : printable (lock_state L_pr s)) by (destruct Hs; split; [by apply cpu_ok_pushed | done | done]).
  generalize dependent (lock_state L_pr s). intros t Ht. clear Hs Hl. revert t Ht.
  induction fmt as [|a fmt IH]; intros t Ht; [by exists t; split; [|apply sent_nil]|].
  cbn [chars String.length] in *. apply Forall_cons in Hf as [[Hc Hn] Hf].
  destruct (consputc_ok (Z.of_N (Ascii.N_of_ascii a)) t Ht) as (t1 & E1 & S1); [unfold BACKSPACE; lia|].
  rewrite u8_small in S1 by lia. destruct (IH Hf t1) as (t2 & E2 & S2); [by eapply sent_printable|].
  exists t2. split; [|by apply (sent_trans [_] _ t t1)]. cbn [printk_loop]. apply Z.eqb_neq in Hn. rewrite Hn.
  cbn [negb]. by rewrite (bind_Ok _ _ _ _ _ E1).
Qed.

(** ** Numbers *)

(** The value of a digit, and of a number written least significant digit first. *)
Definition digit_value (c : Z) : Z := if c <=? 57 then c - 48 else c - 87.
Fixpoint number (base : Z) (l : list Z) : Z :=
  match l with [] => 0 | c :: l => digit_value c + base * number base l end.

Lemma digit_ok d : 0 <= d < 16 → digit_value (digit d) = d ∧ 48 <= digit d <= 102.
Proof.
  intros H. assert (Hd : d ∈ (Z.of_nat <$> seq 0 16)).
  { apply list_elem_of_fmap. exists (Z.to_nat d). split; [lia|]. apply elem_of_seq. lia. }
  repeat (apply elem_of_cons in Hd as [->|Hd]; [vm_compute; intuition congruence|]). by apply elem_of_nil in Hd.
Qed.

Lemma int_digits_ok fuel x base :
  2 <= base <= 16 → 0 <= x < base ^ Z.of_nat fuel → (0 < fuel)%nat →
  let l := int_digits fuel x base in
  number base l = x ∧ Forall (λ c, 48 <= c <= 102) l ∧ (0 < length l)%nat
  ∧ ((length l = 1%nat ∧ x < base) ∨ base ^ (Z.of_nat (length l) - 1) <= x).
Proof.
  intros Hb. revert x. induction fuel as [|fuel IH]; intros x Hx Hf; [lia|].
  assert (Hm : 0 <= x mod base < base) by (apply Z.mod_pos_bound; lia).
  destruct (digit_ok (x mod base)) as [Hv Hr]; [lia|].
  pose proof (Z.div_mod x base ltac:(lia)) as Hdm. cbn [int_digits].
  destruct (x / base =? 0) eqn:E.
  { apply Z.eqb_eq in E. cbn [number length]. rewrite Hv. split_and!; [lia | by apply Forall_singleton | lia | left; split; [done | lia]]. }
  apply Z.eqb_neq in E. assert (0 <= x / base) by (apply Z.div_pos; lia).
  assert (Hq : x / base < base ^ Z.of_nat fuel).
  { apply Z.div_lt_upper_bound; [lia|]. rewrite <- Z.pow_succ_r by lia. rewrite <- Nat2Z.inj_succ. apply Hx. }
  destruct fuel as [|fuel]; [simpl in Hq; lia|].
  destruct (IH (x / base)) as (I1 & I2 & I3 & I4); [lia | lia |].
  set (l := int_digits (S fuel) (x / base) base) in *. cbn [number length]. rewrite Hv, I1.
  split_and!; [lia | by constructor | lia | right].
  replace (Z.of_nat (S (length l)) - 1) with (Z.succ (Z.of_nat (length l) - 1)) by lia.
  rewrite Z.pow_succ_r by lia. destruct I4 as [[-> _]|I4]; [|nia].
  change (Z.of_nat 1 - 1) with 0. rewrite Z.pow_0_r. nia.
Qed.

(** The value of a printed number: its digits, negated after a minus sign. *)
Definition printed_value (base : Z) (text : list Z) : Z :=
  match text with
  | [] => 0
  | c :: t => if c =? 45 then - number base (reverse t) else number base (reverse text)
  end.

Lemma printed_digits base l :
  Forall (λ c, 48 <= c <= 102) l → (0 < length l)%nat →
  printed_value base (reverse l) = number base l
  ∧ printed_value base (reverse (l ++ [45])) = - number base l.
Proof.
  intros Hl Hn. split.
  - destruct l as [|c t _] using rev_ind; [simpl in Hn; lia|].
    apply Forall_app in Hl as [_ Hc]. apply Forall_cons in Hc as [Hc _]. rewrite reverse_snoc. simpl.
    destruct (c =? 45) eqn:E; [lia|]. by rewrite <- reverse_snoc, reverse_involutive.
  - rewrite reverse_snoc. simpl. by rewrite reverse_involutive.
Qed.

Lemma int_buf_ok xx base sign :
  base = 10 ∨ base = 16 → - 2 ^ 63 <= xx < 2 ^ 63 →
  let v := if sign : bool then xx else u64 xx in
  let text := reverse (int_buf xx base sign) in
  (0 < length text <= 20)%nat ∧ printed_value base text = v ∧ Forall (λ c, 0 <= c < 2 ^ 8) text
  ∧ (Z.abs v < base ∨ base ^ (Z.of_nat (length text) - (if v <? 0 then 2 else 1)) <= Z.abs v).
Proof.
  intros Hb Hx v text. set (neg := sign && (xx <? 0)).
  set (x := if neg then u64 (- xx) else u64 xx). set (l := int_digits 64 x base).
  assert (Hr : 0 <= x < 2 ^ 64) by (unfold x; destruct neg; apply u64_range).
  assert (Hbuf : int_buf xx base sign = l ++ (if neg then [45] else [])) by reflexivity.
  assert (Hneg : neg = true → 0 < x <= 2 ^ 63).
  { unfold x. intros E. rewrite E. unfold neg in E. apply andb_true_iff in E as [_ E].
    rewrite u64_small; lia. }
  assert (Hv : v = if neg then - x else x).
  { unfold v, x, neg, u64 in *. destruct sign, (xx <? 0) eqn:E; simpl; try done; try dlia. }
  destruct (int_digits_ok 64 x base) as (D1 & D2 & D3 & D4); [lia | | lia |].
  { split; [lia|]. destruct Hb as [->| ->]; eapply Z.lt_le_trans; try apply Hr; vm_compute; discriminate. }
  fold l in D1, D2, D3, D4. destruct (printed_digits base l D2 D3) as [P1 P2].
  assert (Hlen : (length l <= (if neg then 19 else 20))%nat).
  { destruct D4 as [[-> _]|D4]; [destruct neg; lia|].
    assert (Hx' : x < if neg then 10 ^ 19 else 10 ^ 20).
    { destruct neg; [destruct (Hneg eq_refl)|]; lia. }
    destruct (decide (length l <= if neg then 19 else 20)%nat) as [|Hn]; [done|exfalso].
    assert (10 ^ (Z.of_nat (length l) - 1) <= base ^ (Z.of_nat (length l) - 1)) by (apply Z.pow_le_mono_l; lia).
    assert ((if neg then 10 ^ 19 else 10 ^ 20) <= 10 ^ (Z.of_nat (length l) - 1)).
    { destruct neg; apply Z.pow_le_mono_r; lia. }
    lia. }
  assert (Hfa : Forall (λ c, 0 <= c < 2 ^ 8) l) by (eapply Forall_impl; [exact D2 | simpl; lia]).
  assert (Habs : Z.abs v = x) by (rewrite Hv; destruct neg; lia).
  unfold text. rewrite Hbuf, length_reverse, length_app, Forall_reverse, Forall_app, Habs, Hv.
  clearbody l x neg. destruct neg.
  - destruct (Hneg eq_refl) as [? _]. rewrite P2, D1. cbn [length].
    split_and!; [lia | lia | done | done | by apply Forall_singleton |].
    destruct D4 as [[_ D4]|D4]; [by left | right]. destruct (- x <? 0) eqn:E0; [|lia].
    by replace (Z.of_nat (length l + 1) - 2) with (Z.of_nat (length l) - 1) by lia.
  - rewrite app_nil_r, P1, D1. cbn [length]. rewrite Nat.add_0_r.
    split_and!; [lia | lia | done | done | constructor |].
    destruct (x <? 0) eqn:E0; [lia|]. destruct D4 as [[_ D4]|D4]; [by left | by right].
Qed.

(** Printk() prints numbers right. For %d, %u and %x alike, the characters that
    printint() sends to the console spell the number it is given, as a signed or as an
    unsigned 64-bit value, with no leading zeros, and they fit in its 20-byte buffer;
    nothing but the serial port changes. *)
Theorem printint_correct xx base sign s :
  printable s → base = 10 ∨ base = 16 → - 2 ^ 63 <= xx < 2 ^ 63 →
  let v := if sign : bool then xx else u64 xx in
  ∃ s' text, printint xx base sign s = Ok tt s' ∧ sent text s s' ∧ (0 < length text <= 20)%nat
    ∧ printed_value base text = v
    ∧ (Z.abs v < base ∨ base ^ (Z.of_nat (length text) - (if v <? 0 then 2 else 1)) <= Z.abs v).
Proof.
  intros Hs Hb Hx v. destruct (int_buf_ok xx base sign Hb Hx) as (H1 & H2 & H3 & H4).
  destruct (print_chars _ s Hs H3) as (s' & E & S).
  exists s', (reverse (int_buf xx base sign)). split_and!; [exact E | exact S | apply H1 | apply H1 | exact H2 | exact H4].
Qed.

Lemma printint_correct_witness :
  ∃ s' text, printint (- 2 ^ 63) 10 true null_kernel = Ok tt s' ∧ sent text null_kernel s'
    ∧ (0 < length text <= 20)%nat ∧ printed_value 10 text = - 2 ^ 63
    ∧ (Z.abs (- 2 ^ 63) < 10
       ∨ 10 ^ (Z.of_nat (length text) - (if - 2 ^ 63 <? 0 then 2 else 1)) <= Z.abs (- 2 ^ 63)).
Proof.
  apply (printint_correct (- 2 ^ 63) 10 true null_kernel); [split; [split; simpl; lia | done | done] | by left | lia].
Defined.
