(* ===== verification/Console.v ===== *)
(** The console: kernel/console.c (consputc() is in Uart.v), uartintr() of
    kernel/uart.c, and procdump() of kernel/proc.c.

    The input buffer is a ring with three counters; its abstract view is the pair of
    the bytes of complete lines and the bytes of the line being edited. *)
From S2P Require Import Prelude Ring Pstat Kernel Spinlock Sched Cstring Riscv Kalloc Vm ProcMem Sleeplock Uart.

Section console.
Context {img : Image}.

Definition INPUT_BUF_SIZE : Z := 128.
Definition C (x : Z) : Z := x - 64. (* Control-x *)

Definition upd_cons (f : cons_t → cons_t) (s : kernel) : kernel := set_cons (f (cons s)) s.

(** ** Writing *)

Fixpoint consolewrite_loop (fuel : nat) (src : source) (n i : Z) : K Z :=
  match fuel with
  | O => hang
  | S fuel =>
      if negb (i <? n) then ret i else
      let nn := Z.min 32 (n - i) in
      r <- either_copyin (src_add src i) nn ;;
      if r.1 =? -1 then ret i else
      uartwrite r.2 ;;
      consolewrite_loop fuel src n (i + nn)
  end.
Definition consolewrite (src : source) (n : Z) : K Z :=
  consolewrite_loop (S (Z.to_nat n)) src n 0.

(** ** Reading *)

(** [while (cons.r == cons.w)]; [true] is the early return, with the lock released. *)
Fixpoint consoleread_wait (fuel : nat) : K bool :=
  match fuel with
  | O => hang
  | S fuel =>
      c <- get cons ;;
      if cons_r c =? cons_w c then
        p <- curproc ;;
        k <- killed p ;;
        if negb (k =? 0) then release L_cons ;; ret true else
        sleep Ch_cons L_cons ;;
        consoleread_wait fuel
      else ret false
  end.

(** The byte at [cons.r], which moves on. *)
Definition cons_byte (c : cons_t) : Z :=
  default 0 (cons_buf c !! Z.to_nat (cons_r c mod INPUT_BUF_SIZE)).

(** [n] is the number of bytes still wanted; [inl] is the early return. *)
Fixpoint consoleread_loop (n : nat) (target : Z) (dst : dest) : K (unit + Z) :=
  match n with
  | O => ret (inr 0)
  | S n' =>
      dead <- consoleread_wait WAITS ;;
      if dead : bool then ret (inl tt) else
      c <- get cons ;;
      let b := cons_byte c in
      modify (upd_cons (λ c, set_cons_r (u32 (cons_r c + 1)) c)) ;;
      if b =? C 68 then
        when (Z.of_nat n <? target) (modify (upd_cons (λ c, set_cons_r (u32 (cons_r c - 1)) c))) ;;
        ret (inr (Z.of_nat n))
      else
        r <- either_copyout dst [b] ;;
        if r =? -1 then ret (inr (Z.of_nat n)) else
        if b =? 10 then ret (inr (Z.of_nat n'))
        else consoleread_loop n' target (dst_add dst 1)
  end.
Definition consoleread (dst : dest) (n : Z) : K Z :=
  acquire L_cons ;;
  r <- consoleread_loop (Z.to_nat n) (u32 n) dst ;;
  match r with
  | inl _ => ret (-1)
  | inr rest => release L_cons ;; ret (if 0 <? n then n - rest else 0)
  end.

(** ** Input *)

Definition state_name (st : procstate) : list Z :=
  chars (match st with
         | UNUSED => "unused" | USED => "used" | SLEEPING => "sleep "
         | RUNNABLE => "runble" | RUNNING => "run   " | ZOMBIE => "zombie"
         end).
(** The characters of a NUL-terminated array. *)
Fixpoint cstr (l : list Z) : list Z :=
  match l with [] => [] | c :: l => if c =? 0 then [] else c :: cstr l end.

Definition procdump : K unit :=
  printk newline [] ;;
  for_each (seq 0 NPROC) (λ i,
    p <- get (λ s, proc_at s i) ;;
    if decide (p_state p = UNUSED) then ret tt else
    printk "%d %s %s" [Num (p_pid p); Str (Some (state_name (p_state p))); Str (Some (cstr (p_name p)))] ;;
    printk newline []).

(** [cons.e--; consputc(BACKSPACE);] *)
Definition erase : K unit :=
  modify (upd_cons (λ c, set_cons_e (u32 (cons_e c - 1)) c)) ;;
  consputc BACKSPACE.

(** The loop of control-U; the line being edited gets shorter in each round. *)
Fixpoint kill_line (fuel : nat) : K unit :=
  match fuel with
  | O => hang
  | S fuel =>
      c <- get cons ;;
      if negb (cons_e c =? cons_w c)
         && negb (default 0 (cons_buf c !! Z.to_nat (u32 (cons_e c - 1) mod INPUT_BUF_SIZE)) =? 10)
      then erase ;; kill_line fuel
      else ret tt
  end.

(** [cons.buf[cons.e++ % INPUT_BUF_SIZE] = c;] *)
Definition cons_put (ch : Z) (c : cons_t) : cons_t :=
  set_cons_e (u32 (cons_e c + 1))
    (set_cons_buf (<[Z.to_nat (cons_e c mod INPUT_BUF_SIZE) := u8 ch]> (cons_buf c)) c).

Definition input_char (ch : Z) : K unit :=
  c <- get cons ;;
  when (negb (ch =? 0) && (u32 (cons_e c - cons_r c) <? INPUT_BUF_SIZE))
    (let ch := if ch =? 13 then 10 else ch in
     consputc ch ;;
     modify (upd_cons (cons_put ch)) ;;
     c <- get cons ;;
     when ((ch =? 10) || (ch =? C 68) || (u32 (cons_e c - cons_r c) =? INPUT_BUF_SIZE))
       (modify (upd_cons (λ c, set_cons_w (cons_e c) c)) ;;
        wakeup Ch_cons)).

Definition consoleintr (ch : Z) : K unit :=
  acquire L_cons ;;
  (if ch =? C 80 then procdump
   else if ch =? C 85 then
     c <- get cons ;;
     kill_line (S (Z.to_nat (u32 (cons_e c - cons_w c))))
   else if (ch =? C 72) || (ch =? 127) then
     c <- get cons ;;
     when (negb (cons_e c =? cons_w c)) erase
   else input_char ch) ;;
  release L_cons.

(** [tx_idle] is what the line status register shows; the FIFO empties. *)
Fixpoint drain (fuel : nat) : K unit :=
  match fuel with
  | O => hang
  | S fuel =>
      c <- uartgetc ;;
      if c =? -1 then ret tt else consoleintr c ;; drain fuel
  end.
Definition uartintr : K unit :=
  acquire L_tx ;;
  idle <- get (λ s, u_tx_idle (uart s)) ;;
  when idle (modify (upd_uart (set_tx_busy false)) ;; wakeup Ch_tx) ;;
  release L_tx ;;
  n <- get (λ s, length (u_in (uart s))) ;;
  drain (S n).

(** The entries of devsw[] are constant once this has run. *)
Definition consoleinit : K unit :=
  initlock L_cons ;;
  uartinit.

(** ** The process list *)

Lemma print_one c s (k : K unit) l :
  printable s → 0 <= c < 2 ^ 8 →
  (∀ s1, sent [c] s s1 → ∃ s', k s1 = Ok tt s' ∧ sent l s1 s') →
  ∃ s', bind (consputc c) (λ _, k) s = Ok tt s' ∧ sent (c :: l) s s'.
Proof.
  intros Hs Hc Hk. destruct (consputc_ok c s Hs) as (s1 & E1 & S1); [unfold BACKSPACE; lia|].
  rewrite u8_small in S1 by lia. destruct (Hk s1 S1) as (s' & E & S').
  exists s'. rewrite (bind_Ok _ _ _ _ _ E1). split; [done|]. by apply (sent_trans [c] l s s1).
Qed.
Lemma print_many t s (k : K unit) l :
  printable s → Forall (λ c, 0 <= c < 2 ^ 8) t →
  (∀ s1, sent t s s1 → ∃ s', k s1 = Ok tt s' ∧ sent l s1 s') →
  ∃ s', bind (for_each t consputc) (λ _, k) s = Ok tt s' ∧ sent (t ++ l) s s'.
Proof.
  intros Hs Hc Hk. destruct (print_chars t s Hs Hc) as (s1 & E1 & S1).
  destruct (Hk s1 S1) as (s' & E & S').
  exists s'. rewrite (bind_Ok _ _ _ _ _ E1). split; [done|]. by apply (sent_trans t l s s1).
Qed.

Lemma printk_newline s :
  printable s → locks s !! L_pr = None → ∃ s', printk newline [] s = Ok tt s' ∧ sent [10] s s'.
Proof. intros Hs Hl. apply (printk_plain newline); [done | done |]. by repeat constructor. Qed.

(** The line of one process. *)
Definition proc_line (p : proc) : list Z :=
  reverse (int_buf (i32 (p_pid p)) 10 true) ++ 32 :: state_name (p_state p) ++ 32 :: cstr (p_name p).

Lemma state_name_bytes st : Forall (λ c, 0 <= c < 2 ^ 8) (state_name st).
Proof. apply (bool_decide_unpack _). by destruct st; vm_compute. Qed.
Lemma cstr_bytes l : Forall (λ c, 0 <= c < 2 ^ 8) l → Forall (λ c, 0 <= c < 2 ^ 8) (cstr l).
Proof. induction 1 as [|c l Hc Hl IH]; simpl; [done|]. destruct (c =? 0); auto. Qed.

Lemma printk_loop_proc pid st name s :
  printable s →
  printk_loop 9 (chars "%d %s %s") [Num pid; Str (Some st); Str (Some name)] s
  = bind (printint (i32 pid) 10 true) (λ _, bind (consputc 32) (λ _, bind (for_each st consputc) (λ _,
      bind (consputc 32) (λ _, bind (for_each name consputc) (λ _, ret tt))))) s.
Proof. intros _. reflexivity. Qed.

Lemma printk_proc p s :
  printable s → locks s !! L_pr = None → Forall (λ c, 0 <= c < 2 ^ 8) (p_name p) →
  ∃ s', printk "%d %s %s" [Num (p_pid p); Str (Some (state_name (p_state p))); Str (Some (cstr (p_name p)))] s
        = Ok tt s' ∧ sent (proc_line p) s s'.
Proof.
  intros Hs Hl Hn. apply printk_run; [done | done |].
  assert (Hp : printable (lock_state L_pr s)) by (destruct Hs; split; [by apply cpu_ok_pushed | done | done]).
  pose proof (i32_range (p_pid p)).
  destruct (int_buf_ok (i32 (p_pid p)) 10 true) as (_ & _ & Hb & _); [by left | lia |].
  change (S (String.length "%d %s %s")) with 9%nat. rewrite printk_loop_proc by done.
  unfold proc_line. apply print_many; [done | done |]. intros s1 S1.
  pose proof (sent_printable _ _ _ Hp S1) as H1. apply print_one; [done | lia |]. intros s2 S2.
  pose proof (sent_printable _ _ _ H1 S2) as H2. apply print_many; [done | apply state_name_bytes |]. intros s3 S3.
  pose proof (sent_printable _ _ _ H2 S3) as H3. apply print_one; [done | lia |]. intros s4 S4.
  pose proof (sent_printable _ _ _ H3 S4) as H4.
  destruct (print_chars _ s4 H4 (cstr_bytes _ Hn)) as (s5 & E5 & S5).
  exists s5. by rewrite (bind_Ok _ _ _ _ _ E5).
Qed.

(** procdump() prints and changes nothing else. *)
Lemma sent_names l s s' : sent l s s' → procs s' = procs s ∧ locks s' = locks s ∧ cons s' = cons s.
Proof. intros [_ _ F]. destruct F as [->|F]; [done|]. by rewrite F. Qed.

Lemma procdump_ok s :
  printable s → locks s !! L_pr = None →
  (∀ i, Forall (λ c, 0 <= c < 2 ^ 8) (p_name (proc_at s i))) →
  ∃ s' l, procdump s = Ok tt s' ∧ sent l s s'.
Proof.
  intros Hs Hl Hn. unfold procdump. destruct (printk_newline s Hs Hl) as (s1 & E1 & S1).
  rewrite (bind_Ok _ _ _ _ _ E1).
  set (f := λ i : nat, _). change (∃ s' l, for_each (seq 0 NPROC) f s1 = Ok tt s' ∧ sent l s s').
  enough (Hloop : ∀ idx t l, sent l s t → ∃ s' l', for_each idx f t = Ok tt s' ∧ sent l' s s').
  { destruct (Hloop (seq 0 NPROC) s1 _ S1) as (s' & l & E & S'). by exists s', l. }
  intros idx. induction idx as [|i idx IH]; intros t l St; [by exists t, l|].
  cbn [for_each]. pose proof (sent_printable _ _ _ Hs St) as Ht. destruct (sent_names _ _ _ St) as (Hp & Hlk & _).
  assert (Hl' : locks t !! L_pr = None) by (by rewrite Hlk).
  assert (Hn' : Forall (λ c, 0 <= c < 2 ^ 8) (p_name (proc_at t i))) by (unfold proc_at; rewrite Hp; apply Hn).
  assert (Hf : ∃ s' l', f i t = Ok tt s' ∧ sent l' t s').
  { unfold f. kstep. destruct (decide _); [exists t, []; split; [reflexivity | apply sent_nil]|].
    destruct (printk_proc _ t Ht Hl' Hn') as (t1 & Et & S2). rewrite (bind_Ok _ _ _ _ _ Et).
    destruct (sent_names _ _ _ S2) as (_ & Hlk2 & _).
    destruct (printk_newline t1) as (t2 & Et2 & S3); [by eapply sent_printable | by rewrite Hlk2 |].
    exists t2. eexists. split; [exact Et2 | by eapply sent_trans]. }
  destruct Hf as (t1 & l1 & Ef & Sf). rewrite (bind_Ok _ _ _ _ _ Ef).
  eapply IH. by eapply sent_trans.
Qed.

(** ** The line editor *)

Definition lines (c : cons_t) : list Z :=
  ring INPUT_BUF_SIZE (cons_buf c) (cons_r c) (Z.to_nat (u32 (cons_w c - cons_r c))).
Definition editing (c : cons_t) : list Z :=
  ring INPUT_BUF_SIZE (cons_buf c) (cons_w c) (Z.to_nat (u32 (cons_e c - cons_w c))).
Definition view (c : cons_t) : list Z * list Z := (lines c, editing c).

Record cons_ok (c : cons_t) : Prop := {
  co_buf : length (cons_buf c) = Z.to_nat INPUT_BUF_SIZE;
  co_r : 0 <= cons_r c < 2 ^ 32;
  co_w : 0 <= cons_w c < 2 ^ 32;
  co_e : 0 <= cons_e c < 2 ^ 32;
  co_size : u32 (cons_w c - cons_r c) + u32 (cons_e c - cons_w c) <= INPUT_BUF_SIZE;
  co_line : 10 ∉ editing c;
}.

(** What a character does to the lines and the line being edited. *)
Definition type_char (ch : Z) (v : list Z * list Z) : list Z * list Z :=
  if ch =? C 80 then v
  else if ch =? C 85 then (v.1, [])
  else if (ch =? C 72) || (ch =? 127) then (v.1, take (pred (length v.2)) v.2)
  else if (ch =? 0) || (INPUT_BUF_SIZE <=? Z.of_nat (length v.1 + length v.2)) then v
  else
    let ch := if ch =? 13 then 10 else ch in
    if (ch =? 10) || (ch =? C 68) || (Z.of_nat (length v.1 + length v.2) + 1 =? INPUT_BUF_SIZE)
    then (v.1 ++ v.2 ++ [ch], []) else (v.1, v.2 ++ [ch]).

Lemma IBS_pos : 0 < INPUT_BUF_SIZE.
Proof. done. Qed.
Lemma IBS_div : (INPUT_BUF_SIZE | 2 ^ 32).
Proof. by exists (2 ^ 25). Qed.

(** The distance from [r] to [e]. *)
Lemma cons_span c : cons_ok c → u32 (cons_e c - cons_r c) = u32 (cons_w c - cons_r c) + u32 (cons_e c - cons_w c).
Proof. intros [_ Hr Hw He Hs _]. unfold u32, INPUT_BUF_SIZE in *. dlia. Qed.
Lemma cons_lengths c : Z.of_nat (length (lines c) + length (editing c)) = u32 (cons_w c - cons_r c) + u32 (cons_e c - cons_w c).
Proof.
  unfold lines, editing. rewrite !length_ring.
  pose proof (u32_range (cons_w c - cons_r c)). pose proof (u32_range (cons_e c - cons_w c)). lia.
Qed.

(** Moving the edit index back. *)
Definition shorter (n : Z) (c : cons_t) : cons_t := set_cons_e (u32 (cons_e c - n)) c.

Lemma shorter_ok c n :
  cons_ok c → 0 <= n <= u32 (cons_e c - cons_w c) →
  cons_ok (shorter n c) ∧ lines (shorter n c) = lines c
  ∧ editing (shorter n c) = take (length (editing c) - Z.to_nat n) (editing c).
Proof.
  intros Hc Hn. pose proof Hc as [Hb Hr Hw He Hs Hl].
  assert (Hd : u32 (u32 (cons_e c - n) - cons_w c) = u32 (cons_e c - cons_w c) - n).
  { unfold u32, INPUT_BUF_SIZE in *. dlia. }
  assert (Hed : editing (shorter n c) = take (length (editing c) - Z.to_nat n) (editing c)).
  { unfold editing, shorter. simpl. rewrite Hd, length_ring.
    set (k := Z.to_nat (u32 (cons_e c - cons_w c) - n)).
    replace (Z.to_nat (u32 (cons_e c - cons_w c)) - Z.to_nat n)%nat with k by lia.
    replace (Z.to_nat (u32 (cons_e c - cons_w c))) with (k + Z.to_nat n)%nat by lia.
    rewrite ring_app, take_app_length'; [done | by rewrite length_ring]. }
  split_and!; [|done|done]. split; try done; simpl.
  - apply u32_range.
  - rewrite Hd. lia.
  - rewrite Hed. intros Hin. by apply elem_of_take in Hin as (i & Hi%list_elem_of_lookup_2 & _).
Qed.

(** Appending a character. *)
Lemma cons_put_ok c ch :
  cons_ok c → u32 (cons_e c - cons_r c) < INPUT_BUF_SIZE → 0 <= ch < 2 ^ 8 →
  let c' := cons_put ch c in
  lines c' = lines c ∧ editing c' = editing c ++ [ch] ∧ u32 (cons_e c' - cons_r c') = u32 (cons_e c - cons_r c) + 1
  ∧ length (cons_buf c') = length (cons_buf c) ∧ cons_r c' = cons_r c ∧ cons_w c' = cons_w c
  ∧ 0 <= cons_e c' < 2 ^ 32 ∧ u32 (cons_e c' - cons_w c') = u32 (cons_e c - cons_w c) + 1.
Proof.
  intros Hc Hlt Hch. pose proof (cons_span c Hc) as Hsp. destruct Hc as [Hb Hr Hw He Hs Hl].
  assert (Hd : u32 (u32 (cons_e c + 1) - cons_w c) = u32 (cons_e c - cons_w c) + 1) by (unfold u32, INPUT_BUF_SIZE in *; dlia).
  assert (Hd' : u32 (u32 (cons_e c + 1) - cons_r c) = u32 (cons_e c - cons_r c) + 1) by (unfold u32, INPUT_BUF_SIZE in *; dlia).
  pose proof (u32_range (cons_w c - cons_r c)). pose proof (u32_range (cons_e c - cons_w c)).
  set (n1 := Z.to_nat (u32 (cons_w c - cons_r c))) in *. set (n2 := Z.to_nat (u32 (cons_e c - cons_w c))) in *.
  set (buf' := <[ring_index INPUT_BUF_SIZE (cons_r c + Z.of_nat (n1 + n2)) := ch]> (cons_buf c)).
  assert (Ebuf : cons_buf (cons_put ch c) = buf').
  { unfold cons_put, buf'. simpl. rewrite (u8_small ch) by lia. f_equal.
    apply (ring_index_mod _ IBS_pos IBS_div). unfold n1, n2, u32 in *. dlia. }
  assert (Er : ring INPUT_BUF_SIZE buf' (cons_r c) (S (n1 + n2)) = ring INPUT_BUF_SIZE (cons_buf c) (cons_r c) (n1 + n2) ++ [ch]).
  { apply ring_store; [done | rewrite Hb; done | lia]. }
  rewrite <- Nat.add_succ_r, !ring_app in Er.
  assert (Ew : ∀ b k, ring INPUT_BUF_SIZE b (cons_r c + Z.of_nat n1) k = ring INPUT_BUF_SIZE b (cons_w c) k).
  { intros b k. apply (ring_start_mod _ IBS_pos IBS_div). unfold n1, u32 in *. dlia. }
  rewrite !Ew, <- app_assoc in Er. apply app_inj_1 in Er as [E1 E2]; [|by rewrite !length_ring].
  cbv zeta. split_and!; try done; try apply u32_range.
  - unfold lines. rewrite Ebuf. exact E1.
  - unfold editing. rewrite Ebuf. change (cons_w (cons_put ch c)) with (cons_w c).
    change (cons_e (cons_put ch c)) with (u32 (cons_e c + 1)). rewrite Hd.
    replace (Z.to_nat (u32 (cons_e c - cons_w c) + 1)) with (S n2) by lia. exact E2.
  - unfold cons_put. simpl. by rewrite length_insert.
Qed.

Lemma cons_commit_ok c ch :
  cons_ok c → u32 (cons_e c - cons_r c) < INPUT_BUF_SIZE → 0 <= ch < 2 ^ 8 →
  let c' := set_cons_w (cons_e (cons_put ch c)) (cons_put ch c) in
  cons_ok c' ∧ view c' = (lines c ++ editing c ++ [ch], []).
Proof.
  intros Hc Hlt Hch. pose proof (cons_put_ok c ch Hc Hlt Hch) as H.
  set (c1 := cons_put ch c) in *. cbv zeta in *. destruct H as (H1 & H2 & H3 & H4 & H5 & H6 & H7 & H8). clearbody c1.
  pose proof (cons_span c Hc) as Hsp. destruct Hc as [Hb Hr Hw He Hs Hl].
  assert (Hz : u32 (cons_e c1 - cons_e c1) = 0) by (by rewrite Z.sub_diag).
  assert (Hed : editing (set_cons_w (cons_e c1) c1) = []) by (unfold editing; simpl; by rewrite Hz).
  split.
  - split; simpl; try done; [by rewrite H4 | by rewrite H5 | |].
    + rewrite Hz, H3. lia.
    + rewrite Hed. apply not_elem_of_nil.
  - unfold view. rewrite Hed, app_assoc, <- H1, <- (app_assoc (lines c1)), <- H2. f_equal.
    unfold lines, editing. simpl. rewrite H3, H8, H5, H6, Hsp.
    pose proof (u32_range (cons_w c - cons_r c)). pose proof (u32_range (cons_e c - cons_w c)).
    replace (Z.to_nat (u32 (cons_w c - cons_r c) + u32 (cons_e c - cons_w c) + 1))
      with (Z.to_nat (u32 (cons_w c - cons_r c)) + Z.to_nat (u32 (cons_e c - cons_w c) + 1))%nat by lia.
    rewrite ring_app. f_equal. apply (ring_start_mod _ IBS_pos IBS_div). unfold u32 in *. dlia.
Qed.

Lemma cons_append_ok c ch :
  cons_ok c → u32 (cons_e c - cons_r c) < INPUT_BUF_SIZE → 0 <= ch < 2 ^ 8 → ch ≠ 10 →
  cons_ok (cons_put ch c) ∧ view (cons_put ch c) = (lines c, editing c ++ [ch]).
Proof.
  intros Hc Hlt Hch Hnl. pose proof (cons_put_ok c ch Hc Hlt Hch) as H.
  set (c1 := cons_put ch c) in *. cbv zeta in *. destruct H as (H1 & H2 & H3 & H4 & H5 & H6 & H7 & H8). clearbody c1.
  pose proof (cons_span c Hc) as Hsp. destruct Hc as [Hb Hr Hw He Hs Hl]. split; [|unfold view; by rewrite H1, H2].
  split; rewrite ?H4, ?H5, ?H6; try done.
  - rewrite <- H6, H8, H6. lia.
  - rewrite H2. intros [Hi|Hi]%elem_of_app; [done|]. by apply list_elem_of_singleton in Hi.
Qed.

(** The last character of the line being edited. *)
Lemma editing_last c :
  cons_ok c → 0 < u32 (cons_e c - cons_w c) →
  default 0 (cons_buf c !! Z.to_nat (u32 (cons_e c - 1) mod INPUT_BUF_SIZE)) ≠ 10.
Proof.
  intros Hc Hn E. pose proof Hc as [Hb Hr Hw He Hs Hl]. apply Hl. unfold editing.
  replace (Z.to_nat (u32 (cons_e c - cons_w c))) with (Z.to_nat (u32 (cons_e c - cons_w c) - 1) + 1)%nat by lia.
  rewrite ring_app. apply elem_of_app. right. unfold ring. simpl. apply list_elem_of_singleton.
  rewrite <- E. do 2 f_equal. symmetry. etransitivity; [|apply (ring_index_mod _ IBS_pos IBS_div)].
  - reflexivity.
  - unfold u32, INPUT_BUF_SIZE in *. dlia.
Qed.

(** *** The handler, inside the critical section of the console *)

Record held (s0 s : kernel) : Prop := {
  he_print : printable s;
  he_cur : cur s = pushed (cur s0);
  he_hart : hartid s = hartid s0;
  he_locks : locks s = <[L_cons := hartid s0]> (locks s0);
  he_procs : length (procs s) = length (procs s0);
}.

Section handler.
Variable s0 : kernel.
Hypothesis Hs0 : printable s0.

Lemma held_noff s : held s0 s → 0 < c_noff (cur s) ∧ cpu_ok (cur s).
Proof.
  intros [_ Hc _ _ _]. rewrite Hc. destruct Hs0 as [Hok _ _]. split; [|by apply cpu_ok_pushed].
  destruct Hok. simpl. lia.
Qed.
Lemma held_sent l s s' : held s0 s → sent l s s' → held s0 s' ∧ cons s' = cons s.
Proof.
  intros H S. destruct (held_noff s H) as [Hn Hok].
  destruct (sent_inside _ _ _ S Hn Hok) as (A & B & D & E & F & G). destruct H as [H1 H2 H3 H4 H5].
  split; [|done]. split; [by eapply sent_printable | congruence..].
Qed.
Lemma held_upd_cons f s : held s0 s → held s0 (upd_cons f s).
Proof. intros [[] ? ? ? ?]. by split; [split|..]. Qed.

Lemma erase_ok s :
  held s0 s → ∃ s', erase s = Ok tt s' ∧ held s0 s' ∧ cons s' = shorter 1 (cons s).
Proof.
  intros H. unfold erase. kstep. set (t := upd_cons _ s).
  pose proof (held_upd_cons _ s H : held s0 t) as Ht.
  destruct (uartputc_sync_ok 8 t (he_print _ _ Ht)) as (t1 & E1 & S1).
  destruct (held_sent _ _ _ Ht S1) as [H1 C1].
  destruct (uartputc_sync_ok 32 t1 (he_print _ _ H1)) as (t2 & E2 & S2).
  destruct (held_sent _ _ _ H1 S2) as [H2 C2].
  destruct (uartputc_sync_ok 8 t2 (he_print _ _ H2)) as (t3 & E3 & S3).
  destruct (held_sent _ _ _ H2 S3) as [H3 C3].
  exists t3. unfold consputc. rewrite Z.eqb_refl, (bind_Ok _ _ _ _ _ E1), (bind_Ok _ _ _ _ _ E2).
  split; [exact E3|]. split; [done|]. by rewrite C3, C2, C1.
Qed.

Lemma shorter_shorter n m c : shorter n (shorter m c) = shorter (m + n) c.
Proof. unfold shorter, set_cons_e. simpl. f_equal. unfold u32. dlia. Qed.
Lemma shorter_0 c : 0 <= cons_e c < 2 ^ 32 → shorter 0 c = c.
Proof. intros H. unfold shorter. rewrite Z.sub_0_r, u32_small by done. by destruct c. Qed.

Lemma kill_line_ok n : ∀ s,
  held s0 s → cons_ok (cons s) → u32 (cons_e (cons s) - cons_w (cons s)) = Z.of_nat n →
  ∃ s', kill_line (S n) s = Ok tt s' ∧ held s0 s' ∧ cons s' = shorter (Z.of_nat n) (cons s).
Proof.
  induction n as [|n IH]; intros s H Hc Hn; cbn [kill_line]; kstep.
  - assert (E : cons_e (cons s) =? cons_w (cons s) = true).
    { destruct Hc as [_ ? ? ? ? ?]. unfold u32 in Hn. apply Z.eqb_eq. dlia. }
    rewrite E. simpl. exists s. split; [reflexivity|]. split; [done|]. by rewrite shorter_0 by apply Hc.
  - assert (E : cons_e (cons s) =? cons_w (cons s) = false).
    { apply Z.eqb_neq. intros Eq. rewrite Eq, Z.sub_diag in Hn. change (u32 0) with 0 in Hn. lia. }
    rewrite E. pose proof (editing_last _ Hc ltac:(lia)) as Hl. apply Z.eqb_neq in Hl. rewrite Hl. cbn [negb andb].
    destruct (erase_ok s H) as (s1 & E1 & H1 & C1). rewrite (bind_Ok _ _ _ _ _ E1).
    destruct (shorter_ok (cons s) 1 Hc ltac:(lia)) as [Hc1 _].
    destruct (IH s1) as (s' & E' & H' & C'); [done | by rewrite C1 | |].
    { rewrite C1. unfold shorter. simpl. destruct Hc. unfold u32 in *. dlia. }
    exists s'. split; [exact E'|]. split; [done|]. rewrite C', C1, shorter_shorter. f_equal. lia.
Qed.

Hypothesis Hfree : ∀ i, (i < NPROC)%nat → locks s0 !! L_proc i = None.
Hypothesis Hlen : (length (procs s0) <= NPROC)%nat.

Lemma held_wakeup ch s : held s0 s → ∃ s', wakeup ch s = Ok tt s' ∧ held s0 s' ∧ cons s' = cons s.
Proof.
  intros H. destruct (held_noff s H) as [Hn Hok]. pose proof H as [[Hp1 Hp2 Hp3] H2 H3 H4 H5].
  eexists. split; [apply wakeup_ok|].
  - split; [done|]. intros i Hi. rewrite H4, lookup_insert_ne by done. by apply Hfree.
  - by rewrite H5.
  - split; [|done]. split; simpl; [split; simpl; [by apply cpu_ok_settled | done | done] | | done | done |].
    + by rewrite settled_locked.
    + by rewrite length_imap.
Qed.

Definition typed (ch : Z) (c c' : cons_t) : Prop := cons_ok c' ∧ view c' = type_char ch (view c).

Lemma input_char_ok ch s :
  held s0 s → cons_ok (cons s) → 0 <= ch < 2 ^ 8 → ch ≠ C 80 → ch ≠ C 85 → ch ≠ C 72 → ch ≠ 127 →
  ∃ s', input_char ch s = Ok tt s' ∧ held s0 s' ∧ typed ch (cons s) (cons s').
Proof.
  intros H Hc Hch N1 N2 N3 N4. unfold input_char, typed, type_char. kstep.
  apply Z.eqb_neq in N1, N2, N3, N4. rewrite N1, N2, N3, N4. cbn [orb fst snd view].
  rewrite (cons_lengths (cons s)), <- (cons_span _ Hc).
  set (sp := u32 (cons_e (cons s) - cons_r (cons s))).
  destruct (ch =? 0) eqn:E0; [cbn [negb andb orb]; by exists s|].
  destruct (INPUT_BUF_SIZE <=? sp) eqn:Esp.
  { rewrite (proj2 (Z.ltb_ge _ _)) by lia. cbn [negb andb orb]. by exists s. }
  rewrite (proj2 (Z.ltb_lt _ _)) by lia. cbn [negb andb orb].
  set (c := if ch =? 13 then 10 else ch). assert (Hcr : 0 <= c < 2 ^ 8) by (unfold c; destruct (ch =? 13); lia).
  destruct (consputc_ok c s (he_print _ _ H)) as (s1 & E1 & S1); [unfold BACKSPACE; lia|].
  destruct (held_sent _ _ _ H S1) as [H1 C1]. rewrite (bind_Ok _ _ _ _ _ E1). ksteps.
  pose proof (held_upd_cons (cons_put c) s1 H1) as H2. set (s2 := upd_cons _ s1) in *.
  assert (C2 : cons s2 = cons_put c (cons s)) by (unfold s2; simpl; by rewrite C1).
  destruct (cons_put_ok (cons s) c Hc ltac:(fold sp; lia) Hcr) as (_ & _ & Hsp2 & _). fold sp in Hsp2.
  rewrite C2, Hsp2. destruct (_ || _ || _) eqn:Ecommit.
  - kstep. destruct (held_wakeup Ch_cons _ (held_upd_cons (λ c, set_cons_w (cons_e c) c) s2 H2)) as (s3 & E3 & H3 & C3).
    exists s3. split; [exact E3|]. split; [done|]. rewrite C3. unfold upd_cons. cbn [cons set_cons]. rewrite C2.
    destruct (cons_commit_ok (cons s) c Hc ltac:(fold sp; lia) Hcr). done.
  - exists s2. split; [reflexivity|]. split; [done|]. rewrite C2.
    apply cons_append_ok; [done | fold sp; lia | done |]. destruct (c =? 10) eqn:E; [done | lia].
Qed.

Lemma handler_ok ch :
  locks s0 !! L_pr = None → (∀ i, Forall (λ c, 0 <= c < 2 ^ 8) (p_name (proc_at s0 i))) →
  cons_ok (cons s0) → 0 <= ch < 2 ^ 8 →
  ∃ s', (if ch =? C 80 then procdump
         else if ch =? C 85 then
           c <- get cons ;; kill_line (S (Z.to_nat (u32 (cons_e c - cons_w c))))
         else if (ch =? C 72) || (ch =? 127) then
           c <- get cons ;; when (negb (cons_e c =? cons_w c)) erase
         else input_char ch) (lock_state L_cons s0) = Ok tt s' ∧ held s0 s' ∧ typed ch (cons s0) (cons s').
Proof.
  intros Hpr Hnm Hc Hch. set (s := lock_state L_cons s0).
  assert (H : held s0 s).
  { split; [|done..]. destruct Hs0. split; [by apply cpu_ok_pushed | done | done]. }
  unfold typed, type_char. destruct (ch =? C 80) eqn:E1.
  { destruct (procdump_ok s (he_print _ _ H)) as (s' & l & E & S); [simpl; by rewrite lookup_insert_ne | done |].
    destruct (held_sent _ _ _ H S) as [H' C']. exists s'. rewrite C'. done. }
  destruct (ch =? C 85) eqn:E2.
  { kstep. change (cons s) with (cons s0). set (n := u32 (cons_e (cons s0) - cons_w (cons s0))).
    pose proof (u32_range (cons_e (cons s0) - cons_w (cons s0))) as Hn. fold n in Hn.
    destruct (kill_line_ok (Z.to_nat n) s H Hc) as (s' & E & H' & C'); [rewrite Z2Nat.id by lia; done|].
    exists s'. split; [exact E|]. split; [done|]. rewrite C', Z2Nat.id by lia.
    destruct (shorter_ok (cons s0) n Hc) as (O & L & Ed); [fold n; lia|]. split; [done|]. unfold view.
    change (cons s) with (cons s0). rewrite L, Ed. f_equal. unfold editing. rewrite length_ring. fold n. by rewrite Nat.sub_diag. }
  destruct ((ch =? C 72) || (ch =? 127)) eqn:E3.
  { kstep. change (cons s) with (cons s0). pose proof (u32_range (cons_e (cons s0) - cons_w (cons s0))).
    destruct (cons_e (cons s0) =? cons_w (cons s0)) eqn:E; cbn [negb].
    - apply Z.eqb_eq in E. exists s. split; [reflexivity|]. split; [done|]. split; [done|]. unfold view.
      change (cons s) with (cons s0). f_equal. cbn [fst snd]. unfold editing. by rewrite E, Z.sub_diag.
    - apply Z.eqb_neq in E. destruct (erase_ok s H) as (s' & E' & H' & C'). exists s'. split; [exact E'|].
      split; [done|]. rewrite C'. change (cons s) with (cons s0).
      destruct (shorter_ok (cons s0) 1 Hc) as (O & L & Ed); [destruct Hc; unfold u32 in *; dlia|].
      split; [done|]. unfold view. rewrite L, Ed. cbn [fst snd]. do 2 f_equal. lia. }
  destruct (input_char_ok ch s H Hc Hch) as (s' & E & H' & T); [lia | lia | lia | lia |].
  exists s'. split; [exact E|]. split; [done|]. destruct T as [T1 T2]. split; [done|].
  rewrite T2. unfold type_char. by rewrite E1, E2, E3.
Qed.
End handler.
End console.

(** C31: the console is a line editor. Whatever byte arrives, consoleintr() keeps the
    input ring well-formed and does to the pair of complete lines and line being edited
    what the editor should: backspace and delete remove the last character of the
    current line, control-U all of it, and neither ever reaches into a complete line; a
    character is appended unless the 128 bytes are used up; newline, control-D and a
    full buffer complete the line; control-P changes nothing. *)
Theorem console_line_editor ch s :
  printable s → table_free s → (length (procs s) <= NPROC)%nat →
  locks s !! L_cons = None → locks s !! L_pr = None →
  (∀ i, Forall (λ c, 0 <= c < 2 ^ 8) (p_name (proc_at s i))) →
  cons_ok (cons s) → 0 <= ch < 2 ^ 8 →
  ∃ s', consoleintr ch s = Ok tt s' ∧ cons_ok (cons s') ∧ view (cons s') = type_char ch (view (cons s))
    ∧ locks s' = locks s.
Proof.
  intros Hs Hf Hlen Hl Hpr Hnm Hc Hch.
  destruct (handler_ok s Hs (proj2 Hf) Hlen ch Hpr Hnm Hc Hch) as (s1 & E & [H1 H2 H3 H4 H5] & T1 & T2).
  unfold consoleintr. rewrite (bind_Ok _ _ _ _ _ (acquire_ok _ _ Hl)), (bind_Ok _ _ _ _ _ E).
  rewrite (release_ok _ _ (cur s)); [| apply Hs | done | by rewrite H4, H3; apply lookup_insert_eq].
  eexists. split; [reflexivity|]. split_and!; [done.. |]. simpl. by rewrite H4, delete_insert_id.
Qed.

Lemma console_line_editor_witness :
  ∃ s', consoleintr 8 null_kernel = Ok tt s' ∧ cons_ok (cons s')
    ∧ view (cons s') = type_char 8 (view (cons null_kernel)) ∧ locks s' = locks null_kernel.
Proof.
  apply (console_line_editor 8 null_kernel).
  - split; [split; simpl; lia | done | done].
  - split; [split; simpl; lia | intros; apply lookup_empty].
  - apply (bool_decide_unpack _). by vm_compute.
  - apply lookup_empty.
  - apply lookup_empty.
  - intros i. unfold proc_at. destruct (_ !! i) as [p|] eqn:E; simpl.
    + change (procs null_kernel) with (replicate NPROC null_proc) in E.
      apply lookup_replicate in E as [-> _]. by apply Forall_replicate.
    + by repeat constructor.
  - split; try done. apply not_elem_of_nil.
  - lia.
Defined.
