(* ===== verification/Pipe.v ===== *)
(** Pipes: kernel/pipe.c (pipealloc() is in File.v, with the file table).

    A pipe is an entry of [pipes], by the address of its page; using a pipe after
    pipeclose() has freed it is undefined. The abstract view of a pipe is the list
    of its unread bytes, [contents]. *)
From S2P Require Import Prelude Ring Pstat Kernel Spinlock Sched Cstring Riscv Kalloc Vm VmCopy Sleeplock.

Section pipe.
Context {img : Image}.

Definition PIPESIZE : Z := 512.

Definition pipe_at (pi : Z) : K pipe :=
  o <- get (λ s, pipes s !! pi) ;;
  match o with Some x => ret x | None => panic "undefined: freed pipe" end.
Definition upd_pipe (pi : Z) (f : pipe → pipe) (s : kernel) : kernel :=
  set_pipes (alter f pi (pipes s)) s.

Definition pipeclose (pi : Z) (writable : bool) : K unit :=
  acquire (L_pipe pi) ;;
  (if writable then
     modify (upd_pipe pi (set_pi_writeopen false)) ;;
     wakeup (Ch_pipe_nread pi)
   else
     modify (upd_pipe pi (set_pi_readopen false)) ;;
     wakeup (Ch_pipe_nwrite pi)) ;;
  x <- pipe_at pi ;;
  if negb (pi_readopen x) && negb (pi_writeopen x) then
    release (L_pipe pi) ;;
    modify (λ s, set_pipes (delete pi (pipes s)) s) ;;
    kfree pi
  else release (L_pipe pi).

(** [pi->data[pi->nwrite++ % PIPESIZE] = ch;] *)
Definition put (ch : Z) (x : pipe) : pipe :=
  set_pi_nwrite (u32 (pi_nwrite x + 1))
    (set_pi_data (<[Z.to_nat (pi_nwrite x mod PIPESIZE) := ch]> (pi_data x)) x).

Definition user_pagetable (p : nat) : K Z := get (λ s, p_pagetable (proc_at s p)).

(** The loop of pipewrite(), from [i]: [inl r] is an early return, with the lock
    released, [inr i] the value of [i] after the loop. *)
Fixpoint pipewrite_loop (fuel : nat) (pi : Z) (pr : nat) (addr n i : Z) : K (Z + Z) :=
  match fuel with
  | O => hang
  | S fuel =>
      if negb (i <? n) then ret (inr i) else
      x <- pipe_at pi ;;
      dead <- (if negb (pi_readopen x) then ret true
               else k <- killed pr ;; ret (negb (k =? 0))) ;;
      if dead : bool then release (L_pipe pi) ;; ret (inl (-1)) else
      if pi_nwrite x =? u32 (pi_nread x + PIPESIZE) then
        wakeup (Ch_pipe_nread pi) ;;
        sleep (Ch_pipe_nwrite pi) (L_pipe pi) ;;
        pipewrite_loop fuel pi pr addr n i
      else
        pt <- user_pagetable pr ;;
        r <- copyin pt (u64 (addr + i)) 1 ;;
        if r.1 =? -1 then ret (inr i) else
        modify (upd_pipe pi (put (default 0 (head r.2)))) ;;
        pipewrite_loop fuel pi pr addr n (i + 1)
  end.
Definition pipewrite (pi addr n : Z) : K Z :=
  pr <- curproc ;;
  acquire (L_pipe pi) ;;
  r <- pipewrite_loop (S (Z.to_nat n + WAITS)) pi pr addr n 0 ;;
  match r with
  | inl r => ret r
  | inr i =>
      wakeup (Ch_pipe_nread pi) ;;
      release (L_pipe pi) ;;
      ret i
  end.

(** The first loop of piperead(); [true] is its early return, with the lock
    released. *)
Fixpoint piperead_wait (fuel : nat) (pi : Z) (pr : nat) : K bool :=
  match fuel with
  | O => hang
  | S fuel =>
      x <- pipe_at pi ;;
      if (pi_nread x =? pi_nwrite x) && pi_writeopen x then
        k <- killed pr ;;
        if negb (k =? 0) then release (L_pipe pi) ;; ret true else
        sleep (Ch_pipe_nread pi) (L_pipe pi) ;;
        piperead_wait fuel pi pr
      else ret false
  end.
(** The second loop, with [todo] iterations to go. *)
Fixpoint piperead_loop (todo : nat) (pi : Z) (pr : nat) (addr i : Z) : K Z :=
  match todo with
  | O => ret i
  | S todo =>
      x <- pipe_at pi ;;
      if pi_nread x =? pi_nwrite x then ret i else
      let ch := default 0 (pi_data x !! Z.to_nat (pi_nread x mod PIPESIZE)) in
      pt <- user_pagetable pr ;;
      r <- copyout pt (u64 (addr + i)) [ch] ;;
      if r =? -1 then ret (if i =? 0 then -1 else i) else
      modify (upd_pipe pi (λ x, set_pi_nread (u32 (pi_nread x + 1)) x)) ;;
      piperead_loop todo pi pr addr (i + 1)
  end.
Definition piperead (pi addr n : Z) : K Z :=
  pr <- curproc ;;
  acquire (L_pipe pi) ;;
  dead <- piperead_wait WAITS pi pr ;;
  if dead : bool then ret (-1) else
  i <- piperead_loop (Z.to_nat n) pi pr addr 0 ;;
  wakeup (Ch_pipe_nwrite pi) ;;
  release (L_pipe pi) ;;
  ret i.

(** ** The queue *)

Definition fill (x : pipe) : Z := u32 (pi_nwrite x - pi_nread x).

Record pipe_ok (x : pipe) : Prop := {
  po_data : length (pi_data x) = Z.to_nat PIPESIZE;
  po_bytes : Forall (λ b, 0 <= b < 2 ^ 8) (pi_data x);
  po_nread : 0 <= pi_nread x < 2 ^ 32;
  po_nwrite : 0 <= pi_nwrite x < 2 ^ 32;
  po_fill : fill x <= PIPESIZE;
}.

Definition contents (x : pipe) : list Z :=
  ring PIPESIZE (pi_data x) (pi_nread x) (Z.to_nat (fill x)).
(** The next byte to read. *)
Definition slot (x : pipe) : Z :=
  default 0 (pi_data x !! Z.to_nat (pi_nread x mod PIPESIZE)).

Lemma PIPESIZE_pos : 0 < PIPESIZE.
Proof. done. Qed.
Lemma PIPESIZE_div : (PIPESIZE | 2 ^ 32).
Proof. by exists (2 ^ 23). Qed.

Definition get1 (x : pipe) : pipe := set_pi_nread (u32 (pi_nread x + 1)) x.

Lemma length_contents x : length (contents x) = Z.to_nat (fill x).
Proof. apply length_ring. Qed.

(** The tests of the code. *)
Lemma pipe_full x : pipe_ok x → (pi_nwrite x =? u32 (pi_nread x + PIPESIZE)) = (fill x =? PIPESIZE).
Proof.
  intros [_ _ Hr Hw Hf]. unfold fill, u32, PIPESIZE in *. apply eq_true_iff_eq. rewrite !Z.eqb_eq. dlia.
Qed.
Lemma pipe_empty x : pipe_ok x → (pi_nread x =? pi_nwrite x) = (fill x =? 0).
Proof.
  intros [_ _ Hr Hw Hf]. unfold fill, u32, PIPESIZE in *. apply eq_true_iff_eq. rewrite !Z.eqb_eq. dlia.
Qed.

Lemma put_ok c x :
  pipe_ok x → fill x < PIPESIZE → 0 <= c < 2 ^ 8 →
  pipe_ok (put c x) ∧ contents (put c x) = contents x ++ [c] ∧ fill (put c x) = fill x + 1.
Proof.
  intros [Hd Hb Hr Hw Hf] Hlt Hc.
  assert (Hf1 : fill (put c x) = fill x + 1).
  { unfold fill, put, u32, PIPESIZE in *. simpl in *. dlia. }
  assert (H0 : 0 <= fill x) by (unfold fill; apply u32_range).
  split_and!; [split; simpl | |done].
  - by rewrite length_insert.
  - by apply Forall_insert.
  - done.
  - apply u32_range.
  - lia.
  - unfold contents. rewrite Hf1. replace (Z.to_nat (fill x + 1)) with (S (Z.to_nat (fill x))) by lia.
    rewrite <- (ring_store _ PIPESIZE_pos) by (rewrite ?Hd; unfold PIPESIZE in *; lia).
    unfold put. simpl. do 2 f_equal. apply (ring_index_mod _ PIPESIZE_pos PIPESIZE_div).
    rewrite Z2Nat.id by lia. unfold fill, u32. dlia.
Qed.

Lemma get_ok x :
  pipe_ok x → 0 < fill x →
  pipe_ok (get1 x) ∧ contents x = slot x :: contents (get1 x) ∧ fill (get1 x) = fill x - 1
  ∧ 0 <= slot x < 2 ^ 8.
Proof.
  intros [Hd Hb Hr Hw Hf] Hlt.
  assert (Hf1 : fill (get1 x) = fill x - 1).
  { unfold fill, get1, u32, PIPESIZE in *. simpl in *. dlia. }
  split_and!; [split; simpl; try done | |done | |].
  - apply u32_range.
  - lia.
  - unfold contents. rewrite Hf1. replace (Z.to_nat (fill x)) with (S (Z.to_nat (fill x - 1))) by lia.
    rewrite ring_S. f_equal. apply (ring_start_mod _ PIPESIZE_pos PIPESIZE_div).
    unfold get1, u32. simpl. by rewrite Z.mod_mod.
  - unfold slot. destruct (_ !! _) as [b|] eqn:E; simpl; [|lia].
    rewrite Forall_lookup in Hb. specialize (Hb _ _ E). simpl in Hb. lia.
  - unfold slot. destruct (_ !! _) as [b|] eqn:E; simpl; [|lia].
    rewrite Forall_lookup in Hb. specialize (Hb _ _ E). simpl in Hb. lia.
Qed.

(** ** The operations, run by process [p] alone *)

(** Inside the critical section of the pipe, which is [x]. *)
Definition inside (pi : Z) (s : kernel) (x : pipe) : kernel :=
  set_pipes (<[pi := x]> (pipes s)) (lock_state (L_pipe pi) s).

(** [x'] is [x] with the bytes [l] appended. *)
Record appended (x : pipe) (l : list Z) (x' : pipe) : Prop := {
  ap_ok : pipe_ok x';
  ap_contents : contents x' = contents x ++ l;
  ap_fill : fill x' = fill x + Z.of_nat (length l);
  ap_readopen : pi_readopen x' = pi_readopen x;
  ap_writeopen : pi_writeopen x' = pi_writeopen x;
}.

Lemma appended_cons x c l x1 x' :
  appended x [c] x1 → appended x1 l x' → appended x (c :: l) x'.
Proof.
  intros [A1 A2 A3 A4 A5] [B1 B2 B3 B4 B5].
  split; [done | by rewrite B2, A2, <- app_assoc | simpl in *; lia | congruence | congruence].
Qed.
Lemma put_appended c x :
  pipe_ok x → fill x < PIPESIZE → 0 <= c < 2 ^ 8 → appended x [c] (put c x).
Proof. intros H1 H2 H3. destruct (put_ok c x H1 H2 H3) as (? & ? & ?). by split. Qed.

Section run.
Variables (p : nat) (pi : Z) (s : kernel).
Hypothesis He : env p s.

Lemma settle_inside x : settle (inside pi s x) = inside pi s x.
Proof. unfold settle, inside. simpl. by rewrite settled_pushed by apply He. Qed.
Lemma inside_table_free x : table_free (inside pi s x).
Proof. destruct (lock_state_free p s (L_pipe pi) He) as [H1 H2]; [done|]. by split. Qed.

Lemma pipe_at_inside x : pipe_at pi (inside pi s x) = Ok x (inside pi s x).
Proof. unfold pipe_at. kstep. unfold inside. simpl. by rewrite lookup_insert_eq. Qed.
Lemma upd_pipe_inside f x : upd_pipe pi f (inside pi s x) = inside pi s (f x).
Proof.
  unfold upd_pipe, inside. simpl. by rewrite alter_insert_eq.
Qed.
Lemma killed_inside x :
  killed p (inside pi s x) = Ok (p_killed (proc_at s p)) (inside pi s x).
Proof.
  unfold killed. erewrite (locked_proc_at p _ (λ q, q)).
  - rewrite settle_inside. f_equal. unfold upd_proc, inside. simpl.
    rewrite list_alter_id by done. by destruct s.
  - unfold inside. simpl. apply cpu_ok_pushed, He.
  - unfold inside. simpl. rewrite lookup_insert_ne by done. by rewrite (e_locks _ _ He).
  - unfold get, upd_proc. rewrite list_alter_id by done. unfold inside. by destruct s.
Qed.

Definition woken_state (ch : chan_t) (x : pipe) : kernel :=
  set_procs (imap (woken (Some p) ch) (procs s)) (set_pipes (<[pi := x]> (pipes s)) (settle s)).
Lemma wake_release {A} ch x (f : K A) :
  bind (wakeup ch) (λ _, bind (release (L_pipe pi)) (λ _, f)) (inside pi s x)
  = f (woken_state ch x).
Proof.
  rewrite (bind_Ok _ _ _ _ _ (wakeup_ok ch _ (inside_table_free x) (e_len _ _ He))).
  erewrite bind_Ok; [|apply (env_release p s); simpl; try done].
  - f_equal. unfold woken_state. simpl. rewrite (e_proc _ _ He), <- (e_locks _ _ He). by destruct s.
  - rewrite settled_pushed; [done | apply He].
  - by rewrite (e_locks _ _ He).
Qed.

(** Entering the critical section. *)
Lemma enter_pipe {A} x (f : nat → K A) :
  pipes s !! pi = Some x →
  bind curproc (λ pr, bind (acquire (L_pipe pi)) (λ _, f pr)) s = f p (inside pi s x).
Proof.
  intros Hpi. rewrite (bind_Ok _ _ _ _ _ (curproc_ok s p (e_cpu _ _ He) (e_proc _ _ He))).
  rewrite (bind_Ok _ _ _ _ _ (env_acquire p _ (L_pipe pi) (env_settle _ _ He))).
  f_equal. unfold inside, settle. rewrite insert_id by done.
  destruct He as [Hok _ _ _]. unfold lock_state. simpl.
  replace (pushed (settled (cur s))) with (pushed (cur s)); [by destruct s|].
  unfold pushed, settled. simpl. by destruct (c_noff (cur s) =? 0).
Qed.

(** *** Writing *)

Variables (x0 : pipe) (addr n : Z).
Hypothesis Hopen : pi_readopen x0 = true.
Hypothesis Halive : p_killed (proc_at s p) = 0.
Let pt : Z := p_pagetable (proc_at s p).
Hypothesis Haddr : 0 <= addr.
Hypothesis Hmax : addr + n <= MAXVA.
Hypothesis Hmem : bytes (mem s).

Lemma copyin1 i x :
  0 <= i < n → mapped (mem s) pt addr n →
  copyin pt (u64 (addr + i)) 1 (inside pi s x)
  = Ok (0, [ubyte (mem s) pt (addr + i)]) (inside pi s x).
Proof.
  intros Hi Hm. assert (MAXVA < 2 ^ 64) by done. rewrite u64_small by lia.
  rewrite copyin_ok; [|lia|lia|lia|].
  - unfold ubytes. simpl. by rewrite Z.add_0_r.
  - intros a Ha. apply Hm. lia.
Qed.

(** One iteration where the byte fits. *)
Lemma write_iter fuel i x :
  mapped (mem s) pt addr n → pipe_ok x → pi_readopen x = true → fill x < PIPESIZE → 0 <= i < n →
  pipewrite_loop (S fuel) pi p addr n i (inside pi s x)
  = pipewrite_loop fuel pi p addr n (i + 1) (inside pi s (put (ubyte (mem s) pt (addr + i)) x)).
Proof.
  intros Hm Hx Ho Hf Hi. cbn [pipewrite_loop]. rewrite (proj2 (Z.ltb_lt i n)) by lia. cbn [negb].
  rewrite (bind_Ok _ _ _ _ _ (pipe_at_inside x)), Ho. cbn [negb].
  erewrite bind_Ok by (by rewrite (bind_Ok _ _ _ _ _ (killed_inside x)), Halive).
  change (negb (0 =? 0)) with false. cbv iota beta. rewrite pipe_full by done. destruct (fill x =? PIPESIZE) eqn:E; [lia|].
  unfold user_pagetable. kstep. change (p_pagetable (proc_at (inside pi s x) p)) with pt.
  rewrite (bind_Ok _ _ _ _ _ (copyin1 i x Hi Hm)). simpl. kstep. by rewrite upd_pipe_inside.
Qed.

Lemma write_run (k : nat) : ∀ fuel i x,
  mapped (mem s) pt addr n → pipe_ok x → pi_readopen x = true →
  fill x + Z.of_nat k <= PIPESIZE → 0 <= i → i + Z.of_nat k <= n →
  ∃ x', appended x (ubytes (mem s) pt (addr + i) k) x'
    ∧ pipewrite_loop (k + fuel) pi p addr n i (inside pi s x)
      = pipewrite_loop fuel pi p addr n (i + Z.of_nat k) (inside pi s x').
Proof.
  induction k as [|k IH]; intros fuel i x Hm Hx Ho Hf Hi Hn.
  - exists x. split; [|by rewrite Z.add_0_r]. split; [done | by rewrite app_nil_r | simpl; lia | done..].
  - assert (Hput : appended x [ubyte (mem s) pt (addr + i)] (put (ubyte (mem s) pt (addr + i)) x)).
    { apply put_appended; [done | lia | apply Hmem]. }
    destruct (IH fuel (i + 1) (put (ubyte (mem s) pt (addr + i)) x)) as (x' & Ha & E);
      [done | apply Hput | by rewrite (ap_readopen _ _ _ Hput) | | lia..|].
    { rewrite (ap_fill _ _ _ Hput). simpl. lia. }
    exists x'. split.
    + rewrite ubytes_S. apply (appended_cons _ _ _ _ _ Hput). by rewrite <- Z.add_assoc.
    + change (S k + fuel)%nat with (S (k + fuel)). rewrite write_iter by (done || lia).
      rewrite E. f_equal. lia.
Qed.

Lemma write_exit fuel i t :
  n <= i → pipewrite_loop (S fuel) pi p addr n i t = Ok (inr i) t.
Proof. intros H. cbn [pipewrite_loop]. by rewrite (proj2 (Z.ltb_ge _ _)) by done. Qed.

(** A write that fits. *)
Lemma pipewrite_fits :
  pipes s !! pi = Some x0 → pipe_ok x0 → mapped (mem s) pt addr n → 0 <= n → fill x0 + n <= PIPESIZE →
  ∃ x', appended x0 (ubytes (mem s) pt addr (Z.to_nat n)) x'
    ∧ pipewrite pi addr n s
      = Ok n (woken_state (Ch_pipe_nread pi) x').
Proof.
  intros Hpi Hx Hm Hn Hf. unfold pipewrite. rewrite (enter_pipe _ _ Hpi).
  destruct (write_run (Z.to_nat n) (S WAITS) 0 x0) as (x' & Ha & E); try (done || lia).
  exists x'. rewrite Z.add_0_r in Ha. split; [done|].
  replace (S (Z.to_nat n + WAITS)) with (Z.to_nat n + S WAITS)%nat by lia.
  erewrite bind_Ok by (rewrite E; apply write_exit; lia).
  cbv beta iota. rewrite wake_release. unfold ret. f_equal. lia.
Qed.

(** A write that does not fit fills the pipe, wakes the readers and sleeps. *)
Lemma write_blocks_iter fuel i x :
  (p < length (procs s))%nat → c_noff (cur s) = 0 →
  pipe_ok x → pi_readopen x = true → fill x = PIPESIZE → 0 <= i < n →
  ∃ s1 k, pipewrite_loop (S fuel) pi p addr n i (inside pi s x) = Swtch s1 k
    ∧ handover p s1 ∧ locks s1 = {[L_proc p := hartid s]}
    ∧ pipes s1 = <[pi := x]> (pipes s) ∧ mem s1 = mem s
    ∧ p_state (proc_at s1 p) = SLEEPING ∧ p_chan (proc_at s1 p) = Some (Ch_pipe_nwrite pi)
    ∧ ∀ q, q ≠ p → proc_at s1 q = proc_at (woken_state (Ch_pipe_nread pi) x) q.
Proof.
  intros Hp Hno Hx Ho Hf Hi. cbn [pipewrite_loop]. rewrite (proj2 (Z.ltb_lt i n)) by lia. cbn [negb].
  rewrite (bind_Ok _ _ _ _ _ (pipe_at_inside x)), Ho. cbn [negb].
  erewrite bind_Ok by (by rewrite (bind_Ok _ _ _ _ _ (killed_inside x)), Halive).
  change (negb (0 =? 0)) with false. cbv iota beta. rewrite pipe_full, Hf, Z.eqb_refl by done.
  rewrite (bind_Ok _ _ _ _ _ (wakeup_ok _ _ (inside_table_free x) (e_len _ _ He))).
  rewrite settle_inside. set (t := set_procs _ _).
  destruct (sleep_ok t p (Ch_pipe_nwrite pi) (L_pipe pi)) as (s1 & k & E & Hh & Hfr & Hps & Hls & Hq & _).
  - unfold t. simpl. lia.
  - done.
  - unfold t. simpl. apply He.
  - unfold t. simpl. by rewrite length_imap.
  - done.
  - unfold t. simpl. apply lookup_insert_eq.
  - unfold t. simpl. rewrite lookup_insert_ne by done. by rewrite (e_locks _ _ He).
  - exists s1. eexists. split; [unfold bind; rewrite E; reflexivity|].
    assert (Hproj : pipes s1 = pipes t ∧ mem s1 = mem t).
    { split; [apply (f_equal pipes) in Hfr | apply (f_equal mem) in Hfr]; exact Hfr. }
    destruct Hproj as [-> ->]. rewrite Hps, Hls. split_and!; try done.
    + unfold t. simpl. rewrite (e_locks _ _ He). change (<[?a := ?b]> ∅) with ({[a := b]} : gmap lockid nat).
      by rewrite delete_singleton_eq.
    + intros q Hne. rewrite Hq by done. unfold t, woken_state, proc_at. simpl. by rewrite (e_proc _ _ He).
Qed.
End run.

(** *** Reading *)

(** [x'] is [x] with its first [k] bytes taken out, [m'] is [m] with them at [va]. *)
Record delivered (pt va : Z) (k : nat) (m : memory) (x : pipe) (m' : memory) (x' : pipe) : Prop := {
  dl_ok : pipe_ok x';
  dl_contents : contents x' = drop k (contents x);
  dl_frame : uframe m m' pt va (Z.of_nat k);
  dl_bytes : ∀ j b, take k (contents x) !! j = Some b → m' (phys m pt (va + Z.of_nat j)) = b;
}.

Lemma uframe_mono m m' pt va n va' n' :
  va' <= va → va + n <= va' + n' → uframe m m' pt va n → uframe m m' pt va' n'.
Proof. intros H1 H2 H x Hx. apply H. intros a Ha. apply Hx. lia. Qed.

Lemma delivered_cons pt va k m x m1 m' x' (n : Z) :
  writable m pt va n → Z.of_nat (S k) <= n → pipe_ok x → 0 < fill x →
  uframe m m1 pt va 1 → m1 (phys m pt va) = slot x →
  delivered pt (va + 1) k m1 (get1 x) m' x' → delivered pt va (S k) m x m' x'.
Proof.
  intros Hw Hn Hx Hf H1 Hc [D1 D2 D3 D4]. destruct (get_ok x Hx Hf) as (_ & Ec & _ & _).
  assert (H1' : uframe m m1 pt va n) by (eapply uframe_mono; [..|exact H1]; lia).
  destruct (writable_frame m m1 pt va n va n Hw H1') as [_ Hph]; [lia..|].
  split; [done | by rewrite Ec | |].
  - intros y Hy. rewrite D3.
    + apply H1. intros a Ha. apply Hy. lia.
    + intros a Ha. rewrite Hph by lia. apply Hy. lia.
  - rewrite Ec. intros [|j] b Hj; simpl in Hj.
    + rewrite Z.add_0_r. injection Hj as <-. rewrite D3, Hc; [done|].
      intros a Ha. rewrite Hph by lia. intros Eq. apply (wr_inj _ _ _ _ Hw) in Eq; lia.
    + apply lookup_lt_Some in Hj as Hl. rewrite length_take in Hl.
      specialize (D4 _ _ Hj). rewrite Hph in D4 by lia. rewrite <- D4. do 2 f_equal. lia.
Qed.

Lemma env_set_mem p s m : env p s → env p (set_mem m s).
Proof. intros []. by split. Qed.

Lemma read_iter p pi s x addr i todo (n : Z) :
  env p s → pipe_ok x → 0 < fill x → 0 <= addr → 0 <= i → addr + i + n <= MAXVA → 0 < n →
  let pt := p_pagetable (proc_at s p) in
  writable (mem s) pt (addr + i) n →
  ∃ m1, piperead_loop (S todo) pi p addr i (inside pi s x)
        = piperead_loop todo pi p addr (i + 1) (inside pi (set_mem m1 s) (get1 x))
    ∧ uframe (mem s) m1 pt (addr + i) 1 ∧ m1 (phys (mem s) pt (addr + i)) = slot x.
Proof.
  intros He Hx Hf Ha Hi Hmax Hn pt Hw. assert (MAXVA < 2 ^ 64) by (vm_compute; done).
  destruct (get_ok x Hx Hf) as (_ & _ & _ & Hb).
  destruct (copyout_ok pt (addr + i) [slot x] (inside pi s x)) as (m1 & E & F & B).
  - lia.
  - simpl. lia.
  - by apply Forall_singleton.
  - eapply (writable_frame _ _ _ _ n); [exact Hw | by intros ? ? | simpl; lia..].
  - exists m1. split; [|split; [exact F|]].
    + cbn [piperead_loop]. rewrite (bind_Ok _ _ _ _ _ (pipe_at_inside pi s x)).
      rewrite pipe_empty by done. destruct (fill x =? 0) eqn:E0; [lia|].
      unfold user_pagetable. kstep. change (p_pagetable (proc_at (inside pi s x) p)) with pt.
      rewrite u64_small by lia. unfold slot in E.
      rewrite (bind_Ok _ _ _ _ _ E). cbn [Z.eqb]. kstep. f_equal.
      change (set_mem m1 (inside pi s x)) with (inside pi (set_mem m1 s) x). by rewrite upd_pipe_inside.
    + specialize (B 0%nat (slot x) eq_refl). by rewrite Z.add_0_r in B.
Qed.

Lemma read_run p pi pt (todo : nat) : ∀ s x addr i,
  env p s → p_pagetable (proc_at s p) = pt → pipe_ok x → 0 <= addr → 0 <= i →
  addr + i + Z.of_nat todo <= MAXVA → writable (mem s) pt (addr + i) (Z.of_nat todo) →
  ∃ m' x', let k := Nat.min todo (Z.to_nat (fill x)) in
    piperead_loop todo pi p addr i (inside pi s x) = Ok (i + Z.of_nat k) (inside pi (set_mem m' s) x')
    ∧ delivered pt (addr + i) k (mem s) x m' x'.
Proof.
  induction todo as [|todo IH]; intros s x addr i He Hpt Hx Ha Hi Hmax Hw.
  { exists (mem s), x. split; [simpl; rewrite Z.add_0_r; by destruct s | by split]. }
  assert (H0 : 0 <= fill x) by (unfold fill; apply u32_range).
  destruct (decide (fill x = 0)) as [E0|E0].
  { exists (mem s), x. rewrite E0. cbn [Z.to_nat]. rewrite Nat.min_0_r. split; [|by split].
    cbn [piperead_loop]. rewrite (bind_Ok _ _ _ _ _ (pipe_at_inside pi s x)).
    rewrite pipe_empty, E0, Z.add_0_r by done. simpl. by destruct s. }
  destruct (get_ok x Hx ltac:(lia)) as (Hx1 & Hc1 & Hf1 & _).
  destruct (read_iter p pi s x addr i todo (Z.of_nat (S todo))) as (m1 & E & F & B);
    rewrite ?Hpt; try (done || lia). rewrite Hpt in F, B.
  assert (F' : uframe (mem s) m1 pt (addr + i) (Z.of_nat (S todo))) by (eapply uframe_mono; [..|exact F]; lia).
  destruct (IH (set_mem m1 s) (get1 x) addr (i + 1)) as (m' & x' & E2 & D);
    [by apply env_set_mem | done | done | done | lia | lia | |].
  { eapply (writable_frame _ _ _ _ _ _ _ Hw F'); lia. }
  exists m', x'. cbv zeta. rewrite E, E2.
  replace (Nat.min (S todo) (Z.to_nat (fill x))) with (S (Nat.min todo (Z.to_nat (fill (get1 x))))) by lia.
  split; [f_equal; lia|]. eapply (delivered_cons _ _ _ _ _ m1); [exact Hw | lia | done | lia | done | done |].
  by rewrite <- Z.add_assoc.
Qed.

Lemma piperead_ok p pi s x addr n :
  env p s → pipes s !! pi = Some x → pipe_ok x → 0 < fill x ∨ pi_writeopen x = false →
  0 <= addr → 0 <= n → addr + n <= MAXVA →
  let pt := p_pagetable (proc_at s p) in writable (mem s) pt addr n →
  ∃ m' x', let k := Nat.min (Z.to_nat n) (Z.to_nat (fill x)) in
    piperead pi addr n s = Ok (Z.of_nat k) (woken_state p pi (set_mem m' s) (Ch_pipe_nwrite pi) x')
    ∧ delivered pt addr k (mem s) x m' x'.
Proof.
  intros He Hpi Hx Hne Ha Hn Hmax pt Hw.
  destruct (read_run p pi pt (Z.to_nat n) s x addr 0) as (m' & x' & E & D); try (done || lia).
  { rewrite Z.add_0_r, Z2Nat.id by lia. done. }
  exists m', x'. rewrite Z.add_0_r in D. split; [|done]. unfold piperead. rewrite (enter_pipe p pi s He x _ Hpi).
  erewrite bind_Ok.
  2: { change WAITS with (S 63). cbn [piperead_wait]. rewrite (bind_Ok _ _ _ _ _ (pipe_at_inside pi s x)).
       rewrite pipe_empty by done. destruct Hne as [Hne| ->]; [|rewrite andb_false_r; reflexivity].
       destruct (fill x =? 0) eqn:E0; [lia | reflexivity]. }
  cbv iota. rewrite (bind_Ok _ _ _ _ _ E).
  rewrite (wake_release p pi (set_mem m' s) (env_set_mem _ _ _ He)). unfold ret. f_equal.
Qed.
End pipe.

(** C29: a pipe is a FIFO of bytes. A pipewrite() that fits appends exactly the bytes of
    the user's buffer and returns their number; a piperead() from a pipe that is not
    empty, or whose write end is closed, delivers the oldest bytes, as many as it asks
    for and there are, to the user's buffer, removes them and writes no other memory.
    This holds across the wrap-around of the ring and of its 32-bit counters. *)
Theorem pipe_fifo `{Image} p pi s x addr n :
  env p s → pipes s !! pi = Some x → pipe_ok x → bytes (mem s) →
  0 <= addr → 0 <= n → addr + n <= MAXVA →
  let pt := p_pagetable (proc_at s p) in
  (pi_readopen x = true → p_killed (proc_at s p) = 0 → mapped (mem s) pt addr n →
   Z.of_nat (length (contents x)) + n <= PIPESIZE →
     ∃ s' x', pipewrite pi addr n s = Ok n s' ∧ pipes s' = <[pi := x']> (pipes s)
       ∧ pipe_ok x' ∧ contents x' = contents x ++ ubytes (mem s) pt addr (Z.to_nat n)
       ∧ mem s' = mem s ∧ locks s' = ∅)
  ∧ (contents x ≠ [] ∨ pi_writeopen x = false → writable (mem s) pt addr n →
     let k := Nat.min (Z.to_nat n) (length (contents x)) in
     ∃ s' x', piperead pi addr n s = Ok (Z.of_nat k) s' ∧ pipes s' = <[pi := x']> (pipes s)
       ∧ pipe_ok x' ∧ contents x' = drop k (contents x)
       ∧ ubytes (mem s') pt addr k = take k (contents x)
       ∧ uframe (mem s) (mem s') pt addr (Z.of_nat k) ∧ locks s' = ∅).
Proof.
  intros He Hpi Hx Hb Ha Hn Hmax pt. assert (H0 : 0 <= fill x) by (unfold fill; apply u32_range).
  rewrite length_contents. split.
  - intros Ho Hk Hm Hf. destruct (pipewrite_fits p pi s He x addr n) as (x' & A & E); try (done || lia).
    eexists _, x'. split_and!; [exact E | done | apply A | apply A | done | apply He].
  - intros Hne Hw k. destruct (piperead_ok p pi s x addr n) as (m' & x' & E & D); try done.
    { destruct Hne as [Hne|]; [left | by right]. rewrite <- (length_zero_iff_nil (contents x)) in Hne.
      rewrite length_contents in Hne. lia. }
    fold k in E, D. exists (woken_state p pi (set_mem m' s) (Ch_pipe_nwrite pi) x'), x'.
    split_and!; [exact E | done | apply D | apply D | | apply D | apply He].
    change (mem (woken_state _ _ _ _ _)) with m'.
    assert (F : uframe (mem s) m' pt addr n) by (eapply uframe_mono; [..|apply D]; lia).
    destruct (writable_frame _ _ _ _ _ addr n Hw F) as [_ Hph]; [lia..|].
    apply list_eq. intros j. unfold ubytes. rewrite list_lookup_fmap.
    assert (Hlen : length (take k (contents x)) = k) by (rewrite length_take, length_contents; lia).
    destruct (decide (j < k)%nat) as [Hj|Hj].
    + rewrite lookup_seq_lt by done. simpl.
      destruct (lookup_lt_is_Some_2 (take k (contents x)) j ltac:(lia)) as [b Hjb]. rewrite Hjb. f_equal.
      unfold ubyte. change (m' (phys m' pt (addr + Z.of_nat j)) = b). rewrite Hph by lia.
      by apply (dl_bytes _ _ _ _ _ _ _ D).
    + rewrite lookup_seq_ge by lia. simpl. symmetry. apply lookup_ge_None. lia.
Qed.

(** A writer never overruns the pipe. When the bytes do not all fit, pipewrite()
    appends as many as there is room for, wakes the readers, and gives the CPU away
    asleep on [&pi->nwrite] with the lock of the pipe released. *)
Theorem pipewrite_blocks `{Image} p pi s x addr n :
  env p s → pipes s !! pi = Some x → pipe_ok x → bytes (mem s) →
  0 <= addr → addr + n <= MAXVA → pi_readopen x = true → p_killed (proc_at s p) = 0 →
  (p < length (procs s))%nat → c_noff (cur s) = 0 →
  mapped (mem s) (p_pagetable (proc_at s p)) addr n →
  PIPESIZE - Z.of_nat (length (contents x)) < n →
  ∃ s1 k x', pipewrite pi addr n s = Swtch s1 k ∧ handover p s1
    ∧ locks s1 = {[L_proc p := hartid s]} ∧ pipes s1 = <[pi := x']> (pipes s) ∧ pipe_ok x'
    ∧ length (contents x') = Z.to_nat PIPESIZE
    ∧ (∃ room, contents x' = contents x ++ ubytes (mem s) (p_pagetable (proc_at s p)) addr room)
    ∧ p_state (proc_at s1 p) = SLEEPING ∧ p_chan (proc_at s1 p) = Some (Ch_pipe_nwrite pi)
    ∧ (∀ q, q ≠ p → p_state (proc_at s q) = SLEEPING → p_chan (proc_at s q) = Some (Ch_pipe_nread pi) →
         p_state (proc_at s1 q) = RUNNABLE).
Proof.
  intros He Hpi Hx Hb Ha Hmax Ho Hk Hp Hno Hm Hf. rewrite length_contents in Hf.
  assert (H0 : 0 <= fill x) by (unfold fill; apply u32_range).
  pose proof (po_fill _ Hx). set (room := Z.to_nat (PIPESIZE - fill x)).
  unfold pipewrite. rewrite (enter_pipe p pi s He x _ Hpi).
  destruct (write_run p pi s He addr n Hk Ha Hmax Hb room (S (Z.to_nat n - room + WAITS)) 0 x)
    as (x' & A & E); try (done || lia).
  assert (Hf' : fill x' = PIPESIZE).
  { rewrite (ap_fill _ _ _ A). unfold ubytes. rewrite length_fmap, length_seq. lia. }
  destruct (write_blocks_iter p pi s He addr n Hk (Z.to_nat n - room + WAITS) (0 + Z.of_nat room) x')
    as (s1 & k & E1 & Hh & Hl & Hpp & _ & Hst & Hch & Hq); try (done || lia).
  { apply A. } { by rewrite (ap_readopen _ _ _ A). }
  exists s1. eexists _, x'. split.
  { unfold bind. replace (S (Z.to_nat n + WAITS)) with (room + S (Z.to_nat n - room + WAITS))%nat by lia.
    rewrite E, E1. reflexivity. }
  split_and!; try done; [apply A | by rewrite length_contents, Hf' | |].
  - exists room. rewrite Z.add_0_r in A. apply A.
  - intros q Hne Hs Hc. rewrite Hq by done. unfold woken_state, proc_at in *. simpl.
    rewrite list_lookup_imap. destruct (procs s !! q) as [r|]; [|discriminate Hs]. simpl in *.
    unfold woken, sleeping_on. rewrite bool_decide_false by congruence. by rewrite !bool_decide_true.
Qed.

(** ** Concrete runs *)

#[local] Existing Instance sample_image.

(** The counters are about to wrap around. *)
Definition demo_pipe (nw : Z) : pipe := Pipe (replicate 512 7) (2 ^ 32 - 2) nw true true.
Definition demo_ps (nw : Z) : kernel :=
  set_pipes {[4096 := demo_pipe nw]} (upd_proc 0 (set_p_pagetable demo_root) demo_vm).

Lemma demo_pipe_ok nw : 0 <= nw <= 510 → pipe_ok (demo_pipe nw).
Proof.
  intros H. split; [done | by apply Forall_replicate | done | |].
  - change (0 <= nw < 2 ^ 32). lia.
  - unfold fill, u32, PIPESIZE. change (pi_nwrite (demo_pipe nw)) with nw.
    change (pi_nread (demo_pipe nw)) with (2 ^ 32 - 2). dlia.
Qed.
Lemma demo_ps_env nw : env 0 (demo_ps nw).
Proof. split; [split; simpl; lia | done | done | done]. Qed.
Lemma demo_bytes : bytes demo_mem.
Proof. repeat apply store_bytes. intros a. done. Qed.

Lemma pipe_fifo_witness :
  (∃ s' x', pipewrite 4096 8191 2 (demo_ps 1) = Ok 2 s' ∧ pipes s' = <[4096 := x']> (pipes (demo_ps 1))
     ∧ pipe_ok x' ∧ contents x' = contents (demo_pipe 1) ++ ubytes demo_mem demo_root 8191 2
     ∧ mem s' = demo_mem ∧ locks s' = ∅)
  ∧ ∃ s' x', piperead 4096 8191 2 (demo_ps 1) = Ok 2 s' ∧ pipes s' = <[4096 := x']> (pipes (demo_ps 1))
     ∧ pipe_ok x' ∧ contents x' = drop 2 (contents (demo_pipe 1))
     ∧ ubytes (mem s') demo_root 8191 2 = take 2 (contents (demo_pipe 1))
     ∧ uframe demo_mem (mem s') demo_root 8191 2 ∧ locks s' = ∅.
Proof.
  destruct (pipe_fifo 0 4096 (demo_ps 1) (demo_pipe 1) 8191 2) as [H1 H2];
    [apply demo_ps_env | done | by apply demo_pipe_ok | apply demo_bytes | lia | lia | by vm_compute |].
  split.
  - apply H1; [done | done | apply demo_mapped | by vm_compute].
  - apply H2; [by left | apply demo_writable].
Defined.

Lemma pipewrite_blocks_witness :
  ∃ s1 k x', pipewrite 4096 8191 2 (demo_ps 509) = Swtch s1 k ∧ handover 0 s1
    ∧ locks s1 = {[L_proc 0 := 0%nat]} ∧ pipes s1 = <[4096 := x']> (pipes (demo_ps 509)) ∧ pipe_ok x'
    ∧ length (contents x') = Z.to_nat PIPESIZE
    ∧ (∃ room, contents x' = contents (demo_pipe 509) ++ ubytes demo_mem demo_root 8191 room)
    ∧ p_state (proc_at s1 0) = SLEEPING ∧ p_chan (proc_at s1 0) = Some (Ch_pipe_nwrite 4096)
    ∧ (∀ q, q ≠ 0%nat → p_state (proc_at (demo_ps 509) q) = SLEEPING →
         p_chan (proc_at (demo_ps 509) q) = Some (Ch_pipe_nread 4096) →
         p_state (proc_at s1 q) = RUNNABLE).
Proof.
  apply (pipewrite_blocks 0 4096 (demo_ps 509) (demo_pipe 509) 8191 2);
    [apply demo_ps_env | done | by apply demo_pipe_ok | apply demo_bytes | lia | by vm_compute | done
    | done | by apply Nat.ltb_lt | done | apply demo_mapped | by vm_compute].
Defined.
