(* ===== verification/Bio.v ===== *)
(** The buffer cache: kernel/bio.c.

    A buffer is an index into [bufs]; the doubly linked list of the cache is
    [lru], most recently used first. The disk is the image at boot and the
    block writes made since, newest first, so a crash leaves the disk of some
    suffix of the history. [disk_transfer] is the contract of the disk driver:
    when it returns, the transfer of the whole block has happened (VirtioSpec.v shows
    that virtio_disk_rw() implements it). *)
From S2P Require Import Prelude Pstat Kernel Spinlock Sched Sleeplock.

Definition BSIZE : Z := 1024.

(** ** The disk *)

Fixpoint hist_read (img : Z → list Z) (h : list (Z * list Z)) (b : Z) : list Z :=
  match h with
  | [] => img b
  | (b', d) :: h => if b =? b' then d else hist_read img h b
  end.
Definition disk_read (s : kernel) (b : Z) : list Z := hist_read (disk_img s) (disk_hist s) b.

(** ** Operations *)

Definition null_buf : buf := Buf false false 0 0 0 [].
Definition buf_at (s : kernel) (i : nat) : buf := default null_buf (bufs s !! i).
Definition upd_buf (i : nat) (f : buf → buf) (s : kernel) : kernel :=
  set_bufs (alter f i (bufs s)) s.

Definition disk_transfer (i : nat) (write : bool) : K unit :=
  if write then
    modify (λ s, set_disk_hist ((b_blockno (buf_at s i), b_data (buf_at s i)) :: disk_hist s) s)
  else modify (λ s, upd_buf i (set_b_data (disk_read s (b_blockno (buf_at s i)))) s).

Definition binit : K unit :=
  initlock L_bcache ;;
  modify (set_lru []) ;;
  for_each (seq 0 NBUF) (λ i,
    initsleeplock (SL_buf i) ;;
    modify (λ s, set_lru (i :: lru s) s)).

Definition is_block (dev blockno : Z) (b : buf) : bool :=
  (b_dev b =? dev) && (b_blockno b =? blockno).

Definition bget (dev blockno : Z) : K nat :=
  acquire L_bcache ;;
  o <- get (λ s, List.find (λ i, is_block dev blockno (buf_at s i)) (lru s)) ;;
  match o with
  | Some i =>
      modify (upd_buf i (λ b, set_b_refcnt (u32 (b_refcnt b + 1)) b)) ;;
      release L_bcache ;;
      acquiresleep (SL_buf i) ;;
      ret i
  | None =>
      o <- get (λ s, List.find (λ i, b_refcnt (buf_at s i) =? 0) (reverse (lru s))) ;;
      match o with
      | Some i =>
          modify (upd_buf i (λ b, Buf false (b_disk b) dev blockno 1 (b_data b))) ;;
          release L_bcache ;;
          acquiresleep (SL_buf i) ;;
          ret i
      | None => panic "bget: no buffers"
      end
  end.

Definition bread (dev blockno : Z) : K nat :=
  i <- bget dev blockno ;;
  v <- get (λ s, b_valid (buf_at s i)) ;;
  when (negb v)
    (disk_transfer i false ;;
     modify (upd_buf i (set_b_valid true))) ;;
  ret i.

Definition bwrite (i : nat) : K unit :=
  h <- holdingsleep (SL_buf i) ;;
  if negb h then panic "bwrite" else
  disk_transfer i true.

Definition brelse (i : nat) : K unit :=
  h <- holdingsleep (SL_buf i) ;;
  if negb h then panic "brelse" else
  releasesleep (SL_buf i) ;;
  acquire L_bcache ;;
  modify (upd_buf i (λ b, set_b_refcnt (u32 (b_refcnt b - 1)) b)) ;;
  r <- get (λ s, b_refcnt (buf_at s i)) ;;
  when (r =? 0) (modify (λ s, set_lru (i :: filter (λ j, j ≠ i) (lru s)) s)) ;;
  release L_bcache.

Definition bpin (i : nat) : K unit :=
  acquire L_bcache ;;
  modify (upd_buf i (λ b, set_b_refcnt (u32 (b_refcnt b + 1)) b)) ;;
  release L_bcache.

Definition bunpin (i : nat) : K unit :=
  acquire L_bcache ;;
  modify (upd_buf i (λ b, set_b_refcnt (u32 (b_refcnt b - 1)) b)) ;;
  release L_bcache.
