(* ===== verification/Virtio.v ===== *)
(** The driver of the virtio disk: kernel/virtio_disk.c, with the structs of
    kernel/virtio.h.

    The descriptor table and the two rings are fields of [vdisk]; the pages they lie in
    only give their addresses to the device. The registers of the device are words of [mem].
    The device itself is not part of the program: it is a parameter of the theorems. *)
From S2P Require Import Prelude Pstat Kernel Spinlock Sched Cstring Riscv Kalloc Sleeplock Bio.

(** ** Registers and constants *)

Definition VIRTIO_MMIO_MAGIC_VALUE : Z := 0.
Definition VIRTIO_MMIO_VERSION : Z := 4.
Definition VIRTIO_MMIO_DEVICE_ID : Z := 8.
Definition VIRTIO_MMIO_VENDOR_ID : Z := 12.
Definition VIRTIO_MMIO_DEVICE_FEATURES : Z := 16.
Definition VIRTIO_MMIO_DRIVER_FEATURES : Z := 32.
Definition VIRTIO_MMIO_QUEUE_SEL : Z := 48.
Definition VIRTIO_MMIO_QUEUE_NUM_MAX : Z := 52.
Definition VIRTIO_MMIO_QUEUE_NUM : Z := 56.
Definition VIRTIO_MMIO_QUEUE_READY : Z := 68.
Definition VIRTIO_MMIO_QUEUE_NOTIFY : Z := 80.
Definition VIRTIO_MMIO_INTERRUPT_STATUS : Z := 96.
Definition VIRTIO_MMIO_INTERRUPT_ACK : Z := 100.
Definition VIRTIO_MMIO_STATUS : Z := 112.
Definition VIRTIO_MMIO_QUEUE_DESC_LOW : Z := 128.
Definition VIRTIO_MMIO_QUEUE_DESC_HIGH : Z := 132.
Definition VIRTIO_MMIO_DRIVER_DESC_LOW : Z := 144.
Definition VIRTIO_MMIO_DRIVER_DESC_HIGH : Z := 148.
Definition VIRTIO_MMIO_DEVICE_DESC_LOW : Z := 160.
Definition VIRTIO_MMIO_DEVICE_DESC_HIGH : Z := 164.
Definition VIRTIO_CONFIG_S_ACKNOWLEDGE : Z := 1.
Definition VIRTIO_CONFIG_S_DRIVER : Z := 2.
Definition VIRTIO_CONFIG_S_DRIVER_OK : Z := 4.
Definition VIRTIO_CONFIG_S_FEATURES_OK : Z := 8.
(** The feature bits that the driver declines. *)
Definition declined : list Z := [5; 7; 11; 12; 27; 29; 28].
Definition NUM : nat := 8.
Definition VRING_DESC_F_NEXT : Z := 1.
Definition VRING_DESC_F_WRITE : Z := 2.
Definition VIRTIO_BLK_T_IN : Z := 0.
Definition VIRTIO_BLK_T_OUT : Z := 1.

(** [*R(r)], read and written. *)
Definition get_reg (r : Z) : K Z := get (λ s, load32 (mem s) (VIRTIO0 + r)).
Definition put_reg (r v : Z) : K unit := wmem (λ m, store32 m (VIRTIO0 + r) v).

Definition upd_vdisk (f : disk_t → disk_t) (s : kernel) : kernel := set_vdisk (f (vdisk s)) s.

Section virtio.
Context {img : Image}.

(** ** Initialisation *)

(** [features &= ~(1 << bit)] for every declined bit; [~(1 << bit)] is an [int], which
    is sign-extended. *)
Definition accept (features : Z) : Z :=
  foldl (λ f b, Z.land f (2 ^ 64 - 1 - 2 ^ b)) features declined.

(** The two halves of an address, to a pair of registers. *)
Definition write_addr (low high a : Z) : K unit :=
  put_reg low a ;;
  put_reg high (Z.shiftr a 32).

Definition virtio_disk_init : K unit :=
  initlock L_vdisk ;;
  magic <- get_reg VIRTIO_MMIO_MAGIC_VALUE ;;
  version <- get_reg VIRTIO_MMIO_VERSION ;;
  device <- get_reg VIRTIO_MMIO_DEVICE_ID ;;
  vendor <- get_reg VIRTIO_MMIO_VENDOR_ID ;;
  if negb (magic =? 0x74726976) || negb (version =? 2) || negb (device =? 2) || negb (vendor =? 0x554d4551)
  then panic "could not find virtio disk" else
  put_reg VIRTIO_MMIO_STATUS 0 ;;
  let status := VIRTIO_CONFIG_S_ACKNOWLEDGE in
  put_reg VIRTIO_MMIO_STATUS status ;;
  let status := Z.lor status VIRTIO_CONFIG_S_DRIVER in
  put_reg VIRTIO_MMIO_STATUS status ;;
  features <- get_reg VIRTIO_MMIO_DEVICE_FEATURES ;;
  put_reg VIRTIO_MMIO_DRIVER_FEATURES (accept features) ;;
  let status := Z.lor status VIRTIO_CONFIG_S_FEATURES_OK in
  put_reg VIRTIO_MMIO_STATUS status ;;
  status <- get_reg VIRTIO_MMIO_STATUS ;;
  if negb (bit status VIRTIO_CONFIG_S_FEATURES_OK) then panic "virtio disk FEATURES_OK unset" else
  put_reg VIRTIO_MMIO_QUEUE_SEL 0 ;;
  ready <- get_reg VIRTIO_MMIO_QUEUE_READY ;;
  if negb (ready =? 0) then panic "virtio disk should not be ready" else
  max <- get_reg VIRTIO_MMIO_QUEUE_NUM_MAX ;;
  if max =? 0 then panic "virtio disk has no queue 0" else
  if max <? Z.of_nat NUM then panic "virtio disk max queue too short" else
  desc <- kalloc ;;
  avail <- kalloc ;;
  used <- kalloc ;;
  if (desc =? 0) || (avail =? 0) || (used =? 0) then panic "virtio disk kalloc" else
  wmem (λ m, memset (memset (memset m desc 0 PGSIZE) avail 0 PGSIZE) used 0 PGSIZE) ;;
  modify (upd_vdisk (λ d,
    set_dk_desc (replicate NUM (Desc D_null 0 0 0)) (set_avail_ring (replicate NUM 0) (set_avail_idx 0
      (set_used_ring (replicate NUM 0) (set_used_ridx 0 d)))))) ;;
  put_reg VIRTIO_MMIO_QUEUE_NUM (Z.of_nat NUM) ;;
  write_addr VIRTIO_MMIO_QUEUE_DESC_LOW VIRTIO_MMIO_QUEUE_DESC_HIGH desc ;;
  write_addr VIRTIO_MMIO_DRIVER_DESC_LOW VIRTIO_MMIO_DRIVER_DESC_HIGH avail ;;
  write_addr VIRTIO_MMIO_DEVICE_DESC_LOW VIRTIO_MMIO_DEVICE_DESC_HIGH used ;;
  put_reg VIRTIO_MMIO_QUEUE_READY 1 ;;
  modify (upd_vdisk (set_dk_free (replicate NUM true))) ;;
  put_reg VIRTIO_MMIO_STATUS (Z.lor status VIRTIO_CONFIG_S_DRIVER_OK).

(** ** Descriptors *)

Definition desc_at (s : kernel) (i : nat) : virtq_desc := default (Desc D_null 0 0 0) (dk_desc (vdisk s) !! i).
Definition set_desc (i : nat) (x : virtq_desc) : K unit :=
  modify (upd_vdisk (λ d, set_dk_desc (<[i := x]> (dk_desc d)) d)).
Definition is_free (s : kernel) (i : nat) : bool := bool_decide (dk_free (vdisk s) !! i = Some true).
Definition set_free (i : nat) (b : bool) : K unit :=
  modify (upd_vdisk (λ d, set_dk_free (<[i := b]> (dk_free d)) d)).

(** The descriptor, or [None] for -1. *)
Definition alloc_desc : K (option nat) :=
  o <- get (λ s, List.find (is_free s) (seq 0 NUM)) ;;
  match o with
  | Some i => set_free i false ;; ret (Some i)
  | None => ret None
  end.

Definition free_desc (i : nat) : K unit :=
  if (NUM <=? i)%nat then panic "free_desc 1" else
  f <- get (λ s, is_free s i) ;;
  if f : bool then panic "free_desc 2" else
  set_desc i (Desc D_null 0 0 0) ;;
  set_free i true ;;
  wakeup Ch_diskfree.

(** A chain that comes back to itself panics in free_desc(). *)
Fixpoint free_chain (fuel : nat) (i : nat) : K unit :=
  match fuel with
  | O => hang
  | S fuel =>
      x <- get (λ s, desc_at s i) ;;
      free_desc i ;;
      when (bit (d_flags x) VRING_DESC_F_NEXT) (free_chain fuel (Z.to_nat (d_next x)))
  end.

(** [idx], or [None] for -1; [idx] holds the descriptors got so far. *)
Fixpoint alloc_descs (n : nat) (idx : list nat) : K (option (list nat)) :=
  match n with
  | O => ret (Some idx)
  | S n =>
      o <- alloc_desc ;;
      match o with
      | Some i => alloc_descs n (idx ++ [i])
      | None => for_each idx free_desc ;; ret None
      end
  end.
Definition alloc3_desc : K (option (list nat)) := alloc_descs 3 [].

(** ** Requests *)

(** [while (1)] around alloc3_desc(). *)
Fixpoint alloc3_loop (fuel : nat) : K (list nat) :=
  match fuel with
  | O => hang
  | S fuel =>
      o <- alloc3_desc ;;
      match o with
      | Some idx => ret idx
      | None => sleep Ch_diskfree L_vdisk ;; alloc3_loop fuel
      end
  end.

(** The three descriptors and the request header, for the device. *)
Definition format (i0 i1 i2 b : nat) (write : bool) (sector : Z) : K unit :=
  modify (upd_vdisk (λ d, set_dk_ops
    (<[i0 := Req (if write then VIRTIO_BLK_T_OUT else VIRTIO_BLK_T_IN) 0 sector]> (dk_ops d)) d)) ;;
  set_desc i0 (Desc (D_req i0) 16 VRING_DESC_F_NEXT (Z.of_nat i1)) ;;
  set_desc i1 (Desc (D_data b) BSIZE
    (Z.lor (if write then 0 else VRING_DESC_F_WRITE) VRING_DESC_F_NEXT) (Z.of_nat i2)) ;;
  modify (upd_vdisk (λ d, set_info_status (<[i0 := 255]> (info_status d)) d)) ;;
  set_desc i2 (Desc (D_status i0) 1 VRING_DESC_F_WRITE 0).

Definition set_info (i : nat) (b : option nat) : K unit :=
  modify (upd_vdisk (λ d, set_info_b (<[i := b]> (info_b d)) d)).

Definition virtio_disk_rw (b : nat) (write : bool) : K unit :=
  blockno <- get (λ s, b_blockno (buf_at s b)) ;;
  let sector := u32 (blockno * (BSIZE / 512)) in
  acquire L_vdisk ;;
  idx <- alloc3_loop WAITS ;;
  match idx with
  | [i0; i1; i2] =>
      format i0 i1 i2 b write sector ;;
      modify (upd_buf b (set_b_disk true)) ;;
      set_info i0 (Some b) ;;
      modify (upd_vdisk (λ d, set_avail_ring
        (<[Z.to_nat (avail_idx d mod Z.of_nat NUM) := Z.of_nat i0]> (avail_ring d)) d)) ;;
      modify (upd_vdisk (λ d, set_avail_idx (u16 (avail_idx d + 1)) d)) ;;
      put_reg VIRTIO_MMIO_QUEUE_NOTIFY 0 ;;
      sleep_while WAITS (λ s, b_disk (buf_at s b)) (Ch_buf b) L_vdisk ;;
      set_info i0 None ;;
      free_chain (S NUM) i0 ;;
      release L_vdisk
  | _ => panic "undefined: idx"
  end.

(** The loop of virtio_disk_intr() over the used ring. *)
Fixpoint intr_loop (fuel : nat) : K unit :=
  match fuel with
  | O => hang
  | S fuel =>
      d <- get vdisk ;;
      if dk_used_idx d =? used_ridx d then ret tt else
      let id := default 0 (used_ring d !! Z.to_nat (dk_used_idx d mod Z.of_nat NUM)) in
      match info_status d !! Z.to_nat id, info_b d !! Z.to_nat id with
      | Some status, Some o =>
          if negb (status =? 0) then panic "virtio_disk_intr status" else
          match o with
          | None => panic "kerneltrap"
          | Some b =>
              modify (upd_buf b (set_b_disk false)) ;;
              wakeup (Ch_buf b) ;;
              modify (upd_vdisk (λ d, set_dk_used_idx (u16 (dk_used_idx d + 1)) d)) ;;
              intr_loop fuel
          end
      | _, _ => panic "undefined: info[id]"
      end
  end.
Definition virtio_disk_intr : K unit :=
  acquire L_vdisk ;;
  st <- get_reg VIRTIO_MMIO_INTERRUPT_STATUS ;;
  put_reg VIRTIO_MMIO_INTERRUPT_ACK (Z.land st 3) ;;
  n <- get (λ s, u16 (used_ridx (vdisk s) - dk_used_idx (vdisk s))) ;;
  intr_loop (S (Z.to_nat n)) ;;
  release L_vdisk.
End virtio.
