(* ===== verification/VirtioSpec.v ===== *)
(** The disk driver implements the contract that the buffer cache relies on.

    The device is a parameter [dev], with what the virtio specification says of it as a
    hypothesis. A request is followed from virtio_disk_rw() to the switch away, through the
    device and the interrupt handler, to the return of virtio_disk_rw(). *)
From S2P Require Import Prelude Pstat Kernel Spinlock Sched Cstring Riscv Kalloc Sleeplock Bio Virtio.

(** ** The device *)

Definition slot (n : Z) : nat := Z.to_nat (n mod Z.of_nat NUM).

(** The driver has made one request available that the device has not served: a chain of
    header [i0], data [i1] and status [i2], for block [blk] and buffer [b]. *)
Record submitted (d : disk_t) (i0 i1 i2 b : nat) (write : bool) (blk : Z) : Prop := {
  sub_idx : avail_idx d = u16 (used_ridx d + 1);
  sub_ring : avail_ring d !! slot (used_ridx d) = Some (Z.of_nat i0);
  sub_head : dk_desc d !! i0 = Some (Desc (D_req i0) 16 VRING_DESC_F_NEXT (Z.of_nat i1));
  sub_data : dk_desc d !! i1 = Some (Desc (D_data b) BSIZE
               (if write then VRING_DESC_F_NEXT else Z.lor VRING_DESC_F_WRITE VRING_DESC_F_NEXT) (Z.of_nat i2));
  sub_status : dk_desc d !! i2 = Some (Desc (D_status i0) 1 VRING_DESC_F_WRITE 0);
  sub_op : dk_ops d !! i0 = Some (Req (if write then VIRTIO_BLK_T_OUT else VIRTIO_BLK_T_IN) 0 (2 * blk))
}.

(** The transfer of one block, the status byte, and the entry in the used ring. *)
Definition transferred (b : nat) (write : bool) (blk : Z) (s : kernel) : kernel :=
  if write then set_disk_hist ((blk, b_data (buf_at s b)) :: disk_hist s) s
  else upd_buf b (set_b_data (disk_read s blk)) s.
Definition completed (i0 : nat) (d : disk_t) : disk_t :=
  set_info_status (<[i0 := 0]> (info_status d))
    (set_used_ring (<[slot (used_ridx d) := Z.of_nat i0]> (used_ring d))
      (set_used_ridx (u16 (used_ridx d + 1)) d)).

(** What the specification of virtio block devices promises; the registers of the device, which are in
    [mem], may change. *)
Definition serves (dev : kernel → kernel) : Prop :=
  ∀ s i0 i1 i2 b write blk, submitted (vdisk s) i0 i1 i2 b write blk →
    ∃ m, dev s = set_mem m (upd_vdisk (completed i0) (transferred b write blk s)).

(** ** The state of the driver *)

(** No request is outstanding; [n] have been served. *)
Definition quiescent (d : disk_t) : Prop :=
  ∃ n ring uring st ops,
    d = Disk (replicate NUM (Desc D_null 0 0 0)) ring n uring n (replicate NUM true) n (replicate NUM None) st ops
    ∧ 0 <= n < 2 ^ 16 ∧ length ring = NUM ∧ length uring = NUM ∧ length st = NUM ∧ length ops = NUM.

(** The driver after a request for [b], in the first three descriptors. *)
Definition one_request (b : nat) (write : bool) (blk : Z) (d : disk_t) : disk_t :=
  Disk ([Desc (D_req 0) 16 VRING_DESC_F_NEXT 1;
         Desc (D_data b) BSIZE (Z.lor (if write then 0 else VRING_DESC_F_WRITE) VRING_DESC_F_NEXT) 2;
         Desc (D_status 0) 1 VRING_DESC_F_WRITE 0] ++ replicate 5 (Desc D_null 0 0 0))
    (<[slot (avail_idx d) := 0]> (avail_ring d)) (u16 (avail_idx d + 1))
    (used_ring d) (used_ridx d) ([false; false; false] ++ replicate 5 true) (dk_used_idx d)
    (Some b :: replicate 7 None) (<[0%nat := 255]> (info_status d))
    (<[0%nat := Req (if write then VIRTIO_BLK_T_OUT else VIRTIO_BLK_T_IN) 0 (2 * blk)]> (dk_ops d)).

Lemma one_request_submitted b write blk d :
  quiescent d → submitted (one_request b write blk d) 0 1 2 b write blk.
Proof.
  intros (n & ring & uring & st & ops & -> & Hn & Hr & Hu & Hs & Ho). unfold one_request. simpl.
  constructor; simpl; try done.
  - rewrite list_lookup_insert_eq; [done|]. unfold slot, NUM in *. dlia.
  - by destruct write.
  - by rewrite list_lookup_insert_eq by (unfold NUM in Ho; lia).
Qed.

(** ** Submitting a request *)

Lemma alloc_desc_ok i s :
  (i < NUM)%nat → dk_free (vdisk s) !! i = Some true →
  (∀ j, (j < i)%nat → dk_free (vdisk s) !! j = Some false) →
  alloc_desc s = Ok (Some i) (upd_vdisk (λ d, set_dk_free (<[i := false]> (dk_free d)) d) s).
Proof.
  intros Hi Ht Hf. unfold alloc_desc. ksteps.
  assert (Hi1 : is_free s i = true) by (unfold is_free; by rewrite bool_decide_true).
  assert (Hj0 : ∀ j, (j < i)%nat → is_free s j = false).
  { intros j Hj. unfold is_free. rewrite Hf by done. by rewrite bool_decide_false. }
  pose proof (find_seq (is_free s) NUM) as Hfind. destruct (List.find _ _) as [k|].
  - destruct Hfind as (_ & Hk & Hmin). assert (k = i) as ->; [|by ksteps].
    destruct (Nat.lt_trichotomy k i) as [H|[H|H]]; [|done|].
    + by rewrite Hj0 in Hk.
    + by rewrite Hmin in Hi1.
  - by rewrite Hfind in Hi1.
Qed.

Definition first_three : list bool := [false; false; false] ++ replicate 5 true.

Lemma alloc3_ok fuel s :
  dk_free (vdisk s) = replicate NUM true →
  alloc3_loop (S fuel) s = Ok [0; 1; 2]%nat (upd_vdisk (set_dk_free first_three) s).
Proof.
  intros Hf. cbn [alloc3_loop].
  rewrite (bind_Ok _ _ _ (Some [0; 1; 2]%nat) (upd_vdisk (set_dk_free first_three) s)); [done|].
  unfold alloc3_desc. cbn [alloc_descs].
  rewrite (bind_Ok _ _ _ _ _ (alloc_desc_ok 0 s ltac:(unfold NUM; lia) ltac:(by rewrite Hf) ltac:(lia))).
  set (s1 := upd_vdisk _ s).
  assert (H1 : dk_free (vdisk s1) = [false] ++ replicate 7 true) by (unfold s1; simpl; by rewrite Hf).
  rewrite (bind_Ok _ _ _ _ _ (alloc_desc_ok 1 s1 ltac:(unfold NUM; lia) ltac:(by rewrite H1)
    ltac:(intros [|] ?; [by rewrite H1 | lia]))).
  set (s2 := upd_vdisk _ s1).
  assert (H2 : dk_free (vdisk s2) = [false; false] ++ replicate 6 true)
    by (unfold s2; simpl; by rewrite Hf).
  rewrite (bind_Ok _ _ _ _ _ (alloc_desc_ok 2 s2 ltac:(unfold NUM; lia) ltac:(by rewrite H2)
    ltac:(intros [|[|]] ?; [by rewrite H2 | by rewrite H2 | lia]))).
  unfold ret. f_equal. unfold s2, s1, upd_vdisk, set_dk_free. simpl. by rewrite Hf.
Qed.

(** Everything virtio_disk_rw() does before it first sleeps. *)
Definition request_state (b : nat) (write : bool) (blk : Z) (s : kernel) : kernel :=
  set_mem (store32 (mem s) (VIRTIO0 + VIRTIO_MMIO_QUEUE_NOTIFY) 0)
    (set_vdisk (one_request b write blk (vdisk s))
      (upd_buf b (set_b_disk true) (lock_state L_vdisk s))).

(** The rest, from the loop around sleep() on. *)
Definition await (b : nat) : K unit :=
  sleep_while WAITS (λ s, b_disk (buf_at s b)) (Ch_buf b) L_vdisk ;;
  set_info 0 None ;;
  free_chain (S NUM) 0 ;;
  release L_vdisk.

Lemma upd_vdisk_compose f g s : upd_vdisk f (upd_vdisk g s) = upd_vdisk (f ∘ g) s.
Proof. done. Qed.
Lemma upd_buf_vdisk b f g s : upd_buf b f (upd_vdisk g s) = upd_vdisk g (upd_buf b f s).
Proof. done. Qed.
Lemma upd_vdisk_at f d s : f (vdisk s) = d → upd_vdisk f s = set_vdisk d s.
Proof. by intros <-. Qed.

Lemma virtio_submit b write s :
  quiescent (vdisk s) → locks s !! L_vdisk = None → 0 <= b_blockno (buf_at s b) < 2 ^ 31 →
  virtio_disk_rw b write s = await b (request_state b write (b_blockno (buf_at s b)) s).
Proof.
  intros Hq Hl Hb. unfold virtio_disk_rw. ksteps.
  rewrite (bind_Ok _ _ _ _ _ (acquire_ok _ s Hl)).
  set (blk := b_blockno (buf_at s b)) in *. set (y := lock_state L_vdisk s).
  assert (Hy : vdisk y = vdisk s) by done.
  destruct Hq as (n & ring & uring & st & ops & Hd & _).
  change WAITS with (S 63) at 1.
  rewrite (bind_Ok _ _ _ _ _ (alloc3_ok 63 y ltac:(by rewrite Hy, Hd))).
  change (BSIZE / 512) with 2. rewrite (u32_small (blk * 2)), (Z.mul_comm blk 2) by lia.
  erewrite bind_Ok by (unfold format, set_desc; ksteps; reflexivity).
  unfold set_info, put_reg, wmem. ksteps. unfold await. f_equal.
  rewrite !upd_vdisk_compose, upd_buf_vdisk, !upd_vdisk_compose.
  erewrite (upd_vdisk_at _ (one_request b write blk (vdisk s))); [done|].
  change (vdisk (upd_buf _ _ y)) with (vdisk s). by rewrite Hd.
Qed.

(** The rest once the device is done. *)
Definition retire : K unit := set_info 0 None ;; free_chain (S NUM) 0 ;; release L_vdisk.

Lemma await_sleeps p b x :
  b_disk (buf_at x b) = true → c_noff (cur x) = 1 → c_sie (cur x) = false →
  c_proc (cur x) = Some p → (p < length (procs x))%nat →
  locks x !! L_vdisk = Some (hartid x) → locks x !! L_proc p = None →
  ∃ k, await b x = Swtch (asleep p (Ch_buf b) L_vdisk x) k
     ∧ handover p (asleep p (Ch_buf b) L_vdisk x)
     ∧ ∀ r, handover p r → locks r !! L_vdisk = None → b_disk (buf_at r b) = false →
         k r = retire (awake p L_vdisk (c_intena (cur x)) r).
Proof.
  intros Hb Hn Hi Hc Hp Hl Hlp.
  destruct (sleep_run x p (Ch_buf b) L_vdisk Hn Hi Hc Hp ltac:(done) Hl Hlp) as (k & E & Hh & Hk).
  assert (Es : sleep_while WAITS (λ s, b_disk (buf_at s b)) (Ch_buf b) L_vdisk x
    = rbind (sleep (Ch_buf b) L_vdisk x) (λ _, sleep_while 63 (λ s, b_disk (buf_at s b)) (Ch_buf b) L_vdisk)).
  { change WAITS with (S 63). cbn [sleep_while]. ksteps. by rewrite Hb. }
  unfold await, bind at 1. rewrite Es, E. cbn [rbind]. eexists. split; [reflexivity|]. split; [done|].
  intros r Hr Hlr Hbr. rewrite (Hk r Hr Hlr). cbn [rbind].
  set (y := awake p L_vdisk _ r).
  assert (Ey : sleep_while 63 (λ s, b_disk (buf_at s b)) (Ch_buf b) L_vdisk y = Ok tt y).
  { change 63%nat with (S 62). cbn [sleep_while]. ksteps.
    change (b_disk (buf_at y b)) with (b_disk (buf_at r b)). by rewrite Hbr. }
  by rewrite Ey.
Qed.

(** ** The interrupt *)

(** The state after the handler has reported the completion of [b]. *)
Definition reported (b : nat) (s : kernel) : kernel :=
  set_procs (imap (woken (c_proc (cur s)) (Ch_buf b)) (procs s))
    (upd_vdisk (λ d, set_dk_used_idx (used_ridx d) d) (upd_buf b (set_b_disk false) (settle s))).

Lemma virtio_intr_ok b s :
  table_free s → lock_free s → locks s !! L_vdisk = None → (length (procs s) <= NPROC)%nat →
  let d := vdisk s in
  0 <= dk_used_idx d < 2 ^ 16 → used_ridx d = u16 (dk_used_idx d + 1) →
  used_ring d !! slot (dk_used_idx d) = Some 0 →
  info_status d !! 0%nat = Some 0 → info_b d !! 0%nat = Some (Some b) →
  ∃ m, virtio_disk_intr s = Ok tt (set_mem m (reported b s)).
Proof.
  intros [Hok Hf] Hn Hl Hlen d Hr Hu Hring Hst Hb. unfold lock_free in Hn.
  unfold virtio_disk_intr. rewrite (bind_Ok _ _ _ _ _ (acquire_ok _ s Hl)).
  unfold get_reg, put_reg, wmem. ksteps.
  set (m := store32 _ _ _). set (x := set_mem m (lock_state L_vdisk s)).
  change (vdisk x) with d.
  assert (H1 : u16 (used_ridx d - dk_used_idx d) = 1).
  { rewrite Hu. unfold u16 in *. rewrite Zminus_mod_idemp_l.
    by replace (dk_used_idx d + 1 - dk_used_idx d) with 1 by lia. }
  assert (Hne : dk_used_idx d ≠ used_ridx d).
  { rewrite Hu. unfold u16. intros E. dlia. }
  rewrite H1. change (S (Z.to_nat 1)) with 2%nat.
  set (y := upd_buf b (set_b_disk false) x).
  assert (Hy : table_free y).
  { split; [by apply cpu_ok_pushed|]. intros i Hi. simpl. rewrite lookup_insert_ne by done. auto. }
  set (z := upd_vdisk (λ d, set_dk_used_idx (u16 (dk_used_idx d + 1)) d)
              (set_procs (imap (woken (c_proc (cur y)) (Ch_buf b)) (procs y)) (settle y))).
  assert (Ez : intr_loop 2 x = Ok tt z).
  { cbn [intr_loop]. ksteps. change (vdisk x) with d.
    rewrite (proj2 (Z.eqb_neq _ _) Hne). unfold slot in Hring. rewrite Hring.
    change (Z.to_nat (default 0 (Some 0))) with 0%nat. rewrite Hst, Hb. change (negb (0 =? 0)) with false.
    cbv iota. ksteps. fold y. rewrite (bind_Ok _ _ _ _ _ (wakeup_ok (Ch_buf b) y Hy Hlen)). ksteps. fold z.
    change (vdisk z) with (set_dk_used_idx (u16 (dk_used_idx d + 1)) d). simpl.
    by rewrite Hu, Z.eqb_refl. }
  rewrite (bind_Ok _ _ _ _ _ Ez). exists m.
  rewrite (release_ok _ _ (cur s)); [|done| |].
  - f_equal. change (locks z) with (<[L_vdisk := hartid s]> (locks s)).
    rewrite delete_insert_id by done. unfold z, reported, upd_vdisk. cbv beta.
    change (vdisk (set_procs _ (settle y))) with d. rewrite <- Hu. clearbody m. unfold d. by destruct s.
  - simpl. by apply settled_pushed.
  - simpl. by rewrite lookup_insert_eq.
Qed.

(** ** Giving the descriptors back *)

Lemma free_desc_ok i s :
  table_free s → (length (procs s) <= NPROC)%nat → (i < NUM)%nat → is_free s i = false →
  free_desc i s
  = Ok tt (set_procs (imap (woken (c_proc (cur s)) Ch_diskfree) (procs s))
      (upd_vdisk (λ d, set_dk_free (<[i := true]> (dk_free d))
                   (set_dk_desc (<[i := Desc D_null 0 0 0]> (dk_desc d)) d)) (settle s))).
Proof.
  intros Hs Hlen Hi Hf. unfold free_desc. rewrite (proj2 (Nat.leb_gt _ _) Hi). ksteps. rewrite Hf.
  unfold set_desc, set_free. ksteps. rewrite wakeup_ok; [| by destruct Hs | done].
  f_equal.
Qed.

(** The states in which the handler of a finished request runs. *)
Definition same_but (s s' : kernel) : Prop :=
  bufs s' = bufs s ∧ disk_hist s' = disk_hist s ∧ disk_img s' = disk_img s
  ∧ locks s' = locks s ∧ hartid s' = hartid s ∧ cur s' = cur s ∧ length (procs s') = length (procs s).

Lemma free_desc_step i s :
  table_free s → 0 < c_noff (cur s) → (length (procs s) <= NPROC)%nat → (i < NUM)%nat →
  is_free s i = false →
  ∃ s', free_desc i s = Ok tt s' ∧ same_but s s' ∧ table_free s'
    ∧ vdisk s' = set_dk_free (<[i := true]> (dk_free (vdisk s)))
                   (set_dk_desc (<[i := Desc D_null 0 0 0]> (dk_desc (vdisk s))) (vdisk s)).
Proof.
  intros Hs Hn Hlen Hi Hf. eexists. split; [by apply free_desc_ok|].
  assert (E : settle s = s) by (unfold settle; rewrite settled_locked by done; by destruct s).
  rewrite E. split; [|split; [by destruct Hs | done]].
  unfold same_but. simpl. rewrite length_imap. done.
Qed.

Lemma free_chain_step fuel i x s :
  table_free s → 0 < c_noff (cur s) → (length (procs s) <= NPROC)%nat → (i < NUM)%nat →
  dk_desc (vdisk s) !! i = Some x → dk_free (vdisk s) !! i = Some false →
  ∃ s', free_chain (S fuel) i s
        = (if bit (d_flags x) VRING_DESC_F_NEXT then free_chain fuel (Z.to_nat (d_next x)) else ret tt) s'
    ∧ same_but s s' ∧ table_free s'
    ∧ vdisk s' = set_dk_free (<[i := true]> (dk_free (vdisk s)))
                   (set_dk_desc (<[i := Desc D_null 0 0 0]> (dk_desc (vdisk s))) (vdisk s)).
Proof.
  intros Hs Hn Hlen Hi Hx Hf.
  destruct (free_desc_step i s) as (s' & E & H1 & H2 & H3); try done.
  { unfold is_free. by rewrite Hf, bool_decide_false. }
  exists s'. split; [|done]. cbn [free_chain]. ksteps. unfold desc_at. by rewrite Hx.
Qed.

Lemma same_but_trans s1 s2 s3 : same_but s1 s2 → same_but s2 s3 → same_but s1 s3.
Proof. unfold same_but. intros (?&?&?&?&?&?&?) (?&?&?&?&?&?&?). split_and!; congruence. Qed.

(** The chain of one request. *)
Lemma retire_chain b write blk d s :
  table_free s → 0 < c_noff (cur s) → (length (procs s) <= NPROC)%nat →
  dk_desc (vdisk s) = dk_desc (one_request b write blk d) → dk_free (vdisk s) = first_three →
  ∃ s', free_chain (S NUM) 0 s = Ok tt s' ∧ same_but s s'
    ∧ vdisk s' = set_dk_free (replicate NUM true)
                   (set_dk_desc (replicate NUM (Desc D_null 0 0 0)) (vdisk s)).
Proof.
  intros Hs Hn Hlen Hd Hf.
  destruct (free_chain_step 8 0 (Desc (D_req 0) 16 VRING_DESC_F_NEXT 1) s)
    as (s1 & E1 & B1 & H1 & V1); try done; [unfold NUM; lia | by rewrite Hd | by rewrite Hf |].
  pose proof B1 as (_ & _ & _ & _ & _ & C1 & L1).
  destruct (free_chain_step 7 1 (Desc (D_data b) BSIZE
      (Z.lor (if write then 0 else VRING_DESC_F_WRITE) VRING_DESC_F_NEXT) 2) s1)
    as (s2 & E2 & B2 & H2 & V2); try done;
    [by rewrite C1 | by rewrite L1 | unfold NUM; lia | by rewrite V1; simpl; rewrite Hd
    | by rewrite V1; simpl; rewrite Hf |].
  pose proof B2 as (_ & _ & _ & _ & _ & C2 & L2).
  destruct (free_chain_step 6 2 (Desc (D_status 0) 1 VRING_DESC_F_WRITE 0) s2)
    as (s3 & E3 & B3 & H3 & V3); try done;
    [by rewrite C2, C1 | by rewrite L2, L1 | unfold NUM; lia
    | by rewrite V2, V1; simpl; rewrite Hd | by rewrite V2, V1; simpl; rewrite Hf |].
  exists s3. split_and!.
  - change (S NUM) with 9%nat. rewrite E1. change (bit _ _) with true. cbv iota.
    change (Z.to_nat (d_next _)) with 1%nat. rewrite E2.
    replace (bit _ _) with true by (by destruct write). cbv iota.
    change (Z.to_nat (d_next _)) with 2%nat. by rewrite E3.
  - eapply same_but_trans; [exact B1|]. by eapply same_but_trans.
  - rewrite V3, V2, V1. simpl. rewrite Hd, Hf. simpl. by destruct (vdisk s).
Qed.

Lemma retire_ok b write blk d s :
  table_free s → c_noff (cur s) = 1 → c_sie (cur s) = false → (length (procs s) <= NPROC)%nat →
  locks s !! L_vdisk = Some (hartid s) → quiescent d →
  vdisk s = set_dk_used_idx (u16 (dk_used_idx d + 1)) (completed 0 (one_request b write blk d)) →
  ∃ s', retire s = Ok tt s' ∧ quiescent (vdisk s') ∧ bufs s' = bufs s ∧ disk_hist s' = disk_hist s
    ∧ disk_img s' = disk_img s ∧ locks s' = delete L_vdisk (locks s).
Proof.
  intros Hs Hn Hi Hlen Hl (n & ring & uring & st & ops & Hd & Hnr & Hr & Hu & Hst & Ho) Hv.
  unfold retire, set_info. ksteps.
  match goal with |- ∃ _, bind _ _ ?x = _ ∧ _ => set (x0 := x) end.
  assert (H0 : table_free x0) by done.
  assert (Hb0 : same_but s x0) by done.
  assert (Hv0 : ∃ ring' uring' st' ops', vdisk x0
    = Disk (dk_desc (one_request b write blk d)) ring' (u16 (n + 1)) uring' (u16 (n + 1)) first_three
        (u16 (n + 1)) (replicate NUM None) st' ops'
    ∧ length ring' = NUM ∧ length uring' = NUM ∧ length st' = NUM ∧ length ops' = NUM).
  { do 4 eexists. split; [unfold x0, upd_vdisk; simpl; rewrite Hv, Hd; reflexivity|].
    simpl. rewrite !length_insert, Hd. done. }
  destruct Hv0 as (ring' & uring' & st' & ops' & Hv0 & Hr' & Hu' & Hst' & Ho'). clearbody x0. clear Hv.
  destruct (retire_chain b write blk d x0) as (x3 & E3 & Hb3 & Hv3);
    [done | | | by rewrite Hv0 | by rewrite Hv0 |].
  { destruct Hb0 as (_ & _ & _ & _ & _ & -> & _). lia. }
  { destruct Hb0 as (_ & _ & _ & _ & _ & _ & ->). lia. }
  rewrite (bind_Ok _ _ _ _ _ E3).
  destruct (same_but_trans _ _ _ Hb0 Hb3) as (B1 & B2 & B3 & B4 & B5 & B6 & _).
  rewrite (release_ok _ _ (Cpu (c_proc (cur s)) 0 (c_intena (cur s)) (c_intena (cur s)))).
  - eexists. split; [reflexivity|]. simpl. rewrite B1, B2, B3, B4. split_and!; try done.
    rewrite Hv3, Hv0. exists (u16 (n + 1)), ring', uring', st', ops'. split_and!; try done.
    all: unfold u16; dlia.
  - split; simpl; lia.
  - rewrite B6. destruct (cur s); simpl in *. by subst.
  - by rewrite B4, B5.
Qed.

(** The return of a process that was asleep in the driver. *)
Lemma retire_awake p b write blk d i r :
  locks r = {[L_proc p := hartid r]} → (length (procs r) <= NPROC)%nat → quiescent d →
  vdisk r = set_dk_used_idx (u16 (dk_used_idx d + 1)) (completed 0 (one_request b write blk d)) →
  ∃ s', retire (awake p L_vdisk i r) = Ok tt s' ∧ quiescent (vdisk s') ∧ bufs s' = bufs r
    ∧ disk_hist s' = disk_hist r ∧ disk_img s' = disk_img r ∧ locks s' = ∅.
Proof.
  intros Hl Hlen Hq Hv. set (x := awake p L_vdisk i r).
  assert (Hx : locks x = {[L_vdisk := hartid r]}).
  { change (locks x) with (<[L_vdisk := hartid r]> (delete (L_proc p) (locks r))).
    by rewrite Hl, delete_singleton_eq. }
  destruct (retire_ok b write blk d x) as (s' & E & Q & S1 & S2 & S3 & S4); try done.
  - split; [split; simpl; [lia | done]|]. intros j _. by rewrite Hx, lookup_singleton_ne.
  - simpl. by rewrite length_alter.
  - by rewrite Hx, lookup_singleton_eq.
  - exists s'. split_and!; try done. by rewrite S4, Hx, delete_singleton_eq.
Qed.

(** ** Properties *)

(** What the scheduler does with a process that has switched away: the end of dispatch(). *)
Definition switched_away (p : nat) (s : kernel) : kernel :=
  set_cur (Cpu None 0 (c_intena (cur s)) (c_intena (cur s))) (set_locks (delete (L_proc p) (locks s)) s).

(** The process [p] may call the driver: it runs with no lock held. *)
Record may_call (p : nat) (s : kernel) : Prop := {
  mc_cpu : c_noff (cur s) = 0;
  mc_proc : c_proc (cur s) = Some p;
  mc_slot : (p < length (procs s))%nat;
  mc_len : (length (procs s) <= NPROC)%nat;
  mc_locks : locks s = ∅
}.

(** What the device and the handler do to a buffer that the driver had marked as the
    device's is what the contract says. *)
Lemma contract_bufs b write s r :
  (b < length (bufs s))%nat → b_disk (buf_at s b) = false →
  bufs r = alter (set_b_disk true) b (bufs s) → disk_hist r = disk_hist s → disk_img r = disk_img s →
  let blk := b_blockno (buf_at s b) in
  ∃ t, disk_transfer b write s = Ok tt t
    ∧ alter (set_b_disk false) b (bufs (transferred b write blk r)) = bufs t
    ∧ disk_hist (transferred b write blk r) = disk_hist t
    ∧ disk_img (transferred b write blk r) = disk_img t.
Proof.
  intros Hb Hd Hr Hh Hi blk. destruct (lookup_lt_is_Some_2 _ _ Hb) as [x Hx].
  assert (Ex : buf_at s b = x) by (unfold buf_at; by rewrite Hx).
  assert (Er : b_data (buf_at r b) = b_data x).
  { unfold buf_at. rewrite Hr, list_lookup_alter_eq, Hx. done. }
  rewrite Ex in Hd. unfold disk_transfer, transferred.
  destruct write; eexists; (split; [reflexivity|]); simpl; rewrite Hr.
  - unfold blk. rewrite list_alter_alter_eq, Er, Hh, Ex. split_and!; [|done..].
    apply alter_id_at. intros y Hy. rewrite Hx in Hy. injection Hy as <-.
    clear -Hd. destruct x; simpl in *. by subst.
  - rewrite !list_alter_alter_eq. split_and!; [|done..]. apply alter_ext_at.
    intros y Hy. unfold disk_read. rewrite Hh, Hi. rewrite Hx in Hy. injection Hy as <-.
    clear -Hd. destruct x; simpl in *. by subst.
Qed.

(** The device leaves the rest of the kernel alone. *)
Lemma served_fields f b write blk r :
  let u := upd_vdisk f (transferred b write blk r) in
  vdisk u = f (vdisk r) ∧ locks u = locks r ∧ cur u = cur r ∧ procs u = procs r.
Proof. by destruct write, r. Qed.

(** From the sleeping process to the end of the interrupt handler. *)
Lemma serve_and_report dev p b write s i :
  serves dev → may_call p s → quiescent (vdisk s) →
  let blk := b_blockno (buf_at s b) in
  let s1 := asleep p (Ch_buf b) L_vdisk (request_state b write blk s) in
  let r1 := set_cur (Cpu None 0 i i) (set_locks (delete (L_proc p) (locks s1)) s1) in
  ∃ m, virtio_disk_intr (dev r1)
       = Ok tt (set_mem m (reported b (upd_vdisk (completed 0) (transferred b write blk r1)))).
Proof.
  intros Hdev [Hn Hc Hp Hlen Hl] Hq blk s1 r1.
  assert (Hv : vdisk r1 = one_request b write blk (vdisk s)) by done.
  assert (Hl1 : locks r1 = ∅).
  { change (locks r1) with (delete (L_proc p) (<[L_proc p := hartid s]> (delete L_vdisk
      (<[L_vdisk := hartid s]> (locks s))))). by rewrite Hl, !delete_insert_eq, !delete_empty. }
  destruct (Hdev r1 0%nat 1%nat 2%nat b write blk) as [m ->].
  { rewrite Hv. by apply one_request_submitted. }
  destruct (served_fields (completed 0) b write blk r1) as (Hu & Hlu & Hcu & Hpu).
  set (u := upd_vdisk _ _) in *. rewrite Hv in Hu. rewrite Hl1 in Hlu. clearbody u.
  assert (Hpl : (length (procs u) <= NPROC)%nat) by (rewrite Hpu; simpl; by rewrite length_alter).
  destruct Hq as (n & ring & uring & st & ops & Hd & Hnr & Hr & Hur & Hst & Ho).
  destruct (virtio_intr_ok b (set_mem m u)) as [m' E]; simpl; rewrite ?Hlu, ?Hu, ?Hd; simpl; try done.
  - split; [split; simpl; rewrite Hcu; simpl; lia|]. simpl. by rewrite Hlu.
  - unfold lock_free. simpl. by rewrite Hcu.
  - rewrite list_lookup_insert_eq; [done|]. rewrite Hur. unfold slot, NUM. dlia.
  - rewrite list_lookup_insert_eq; [done|]. rewrite length_insert, Hst. unfold NUM. lia.
  - exists m'. rewrite E. by destruct u.
Qed.

(** The fields of the state in which the handler returns. *)
Lemma reported_fields b i0 write blk m r :
  let r2 := set_mem m (reported b (upd_vdisk (completed i0) (transferred b write blk r))) in
  procs r2 = imap (woken (c_proc (cur r)) (Ch_buf b)) (procs r)
  ∧ bufs r2 = alter (set_b_disk false) b (bufs (transferred b write blk r))
  ∧ disk_hist r2 = disk_hist (transferred b write blk r)
  ∧ disk_img r2 = disk_img (transferred b write blk r)
  ∧ vdisk r2 = set_dk_used_idx (u16 (used_ridx (vdisk r) + 1)) (completed i0 (vdisk r)).
Proof. destruct write, r; done. Qed.

(** C11: the disk driver implements the contract [disk_transfer] of the buffer cache. With no request
    outstanding, virtio_disk_rw() hands the device a request and sleeps; once the device has
    served it, as virtio promises, virtio_disk_intr() makes the process RUNNABLE again; and when it
    is switched back in, with the buffers and the disk as the handler left them, virtio_disk_rw() returns: the
    block has been transferred as the contract says, every descriptor is free again, and no lock of the driver
    is held. *)
Theorem virtio_refines_contract dev p b write s :
  serves dev → may_call p s → quiescent (vdisk s) → (b < length (bufs s))%nat →
  b_disk (buf_at s b) = false → 0 <= b_blockno (buf_at s b) < 2 ^ 31 →
  ∃ s1 k t r2,
    virtio_disk_rw b write s = Swtch s1 k ∧ handover p s1 ∧ p_state (proc_at s1 p) = SLEEPING
    ∧ disk_transfer b write s = Ok tt t
    ∧ virtio_disk_intr (dev (switched_away p s1)) = Ok tt r2 ∧ p_state (proc_at r2 p) = RUNNABLE
    ∧ ∀ r3, handover p r3 → locks r3 = {[L_proc p := hartid r3]} → length (procs r3) = length (procs s) →
        vdisk r3 = vdisk r2 → bufs r3 = bufs r2 → disk_hist r3 = disk_hist r2 → disk_img r3 = disk_img r2 →
        ∃ s', k r3 = Ok tt s' ∧ bufs s' = bufs t ∧ disk_hist s' = disk_hist t ∧ disk_img s' = disk_img t
          ∧ quiescent (vdisk s') ∧ locks s' = ∅.
Proof.
  intros Hdev [Hn Hc Hp Hlen Hl] Hq Hb Hd Hblk. set (blk := b_blockno (buf_at s b)) in *.
  set (x := request_state b write blk s).
  assert (Hbx : buf_at x b = set_b_disk true (buf_at s b)).
  { unfold x, buf_at. simpl. rewrite list_lookup_alter_eq. by destruct (lookup_lt_is_Some_2 _ _ Hb) as [? ->]. }
  destruct (await_sleeps p b x) as (k & Ek & Hh & Hk); try done.
  { by rewrite Hbx. }
  { simpl. by rewrite Hn. }
  { simpl. by rewrite Hl, lookup_insert_eq. }
  { simpl. rewrite Hl, lookup_insert_ne by done. done. }
  set (s1 := asleep p (Ch_buf b) L_vdisk x) in *. set (r1 := switched_away p s1).
  destruct (serve_and_report dev p b write s (c_intena (cur s1))) as [m Er]; [done..|].
  destruct (contract_bufs b write s r1) as (t & Et & T1 & T2 & T3); [done..|]. fold blk in T1, T2, T3.
  destruct (reported_fields b 0 write blk m r1) as (R1 & R2 & R3 & R4 & R5).
  set (r2 := set_mem m _) in R1, R2, R3, R4, R5. change (virtio_disk_intr (dev r1) = Ok tt r2) in Er.
  exists s1, k, t, r2. clearbody r2. rewrite T1 in R2. rewrite T2 in R3. rewrite T3 in R4.
  replace (used_ridx (vdisk r1)) with (dk_used_idx (vdisk s)) in R5
    by (by destruct Hq as (? & ? & ? & ? & ? & E & _); simpl; rewrite E).
  change (vdisk r1) with (one_request b write blk (vdisk s)) in R5.
  change (procs r1) with (procs s1) in R1. change (c_proc (cur r1)) with (@None nat) in R1.
  assert (Hs1 : proc_at s1 p = switched_out SLEEPING (ticks x) (set_p_chan (Some (Ch_buf b)) (proc_at s p))).
  { unfold s1, asleep. by rewrite proc_at_upd. }
  split; [by rewrite virtio_submit by (rewrite ?Hl; done)|]. split; [done|].
  assert (R6 : b_disk (default null_buf (bufs t !! b)) = false).
  { rewrite <- T1, list_lookup_alter_eq. by destruct (_ !! b). }
  split; [by rewrite Hs1|]. split; [done|]. split; [exact Er|]. clear Er. split.
  { unfold proc_at. rewrite R1, list_lookup_imap.
    assert (Hp1 : procs s1 !! p = Some (proc_at s1 p)).
    { unfold proc_at. destruct (lookup_lt_is_Some_2 (procs s1) p) as [q Hq1]; [|by rewrite Hq1].
      simpl. by rewrite length_alter. }
    rewrite Hp1, Hs1. simpl. unfold woken, sleeping_on. simpl.
    by rewrite (bool_decide_true (Some (Ch_buf b) = Some (Ch_buf b))). }
  intros r3 H3 L3 Len3 V3 B3 D3 I3.
  rewrite (Hk r3 H3) by (first [by rewrite L3, lookup_singleton_ne | unfold buf_at; by rewrite B3, R2]).
  destruct (retire_awake p b write blk (vdisk s) (c_intena (cur x)) r3)
    as (s' & Es & Q & S1 & S2 & S3 & S4); [done | lia | done | congruence |].
  exists s'. split; [done|]. split_and!; congruence || done.
Qed.

(** A device that follows the chain at the head of the available ring. *)
Definition sample_device (s : kernel) : kernel :=
  let d := vdisk s in
  match avail_ring d !! slot (used_ridx d) with
  | Some h =>
      match dk_ops d !! Z.to_nat h, dk_desc d !! Z.to_nat h with
      | Some rq, Some x =>
          match dk_desc d !! Z.to_nat (d_next x) with
          | Some (Desc (D_data b) _ _ _) =>
              upd_vdisk (completed (Z.to_nat h))
                (transferred b (rq_type rq =? VIRTIO_BLK_T_OUT) (rq_sector rq / 2) s)
          | _ => s
          end
      | _, _ => s
      end
  | None => s
  end.

Lemma sample_device_serves : serves sample_device.
Proof.
  intros s i0 i1 i2 b write blk [_ H1 H2 H3 _ H5]. exists (mem s). unfold sample_device.
  rewrite H1, Nat2Z.id, H5, H2. simpl. rewrite Nat2Z.id, H3, Z.mul_comm, Z.div_mul by lia.
  replace ((if write then VIRTIO_BLK_T_OUT else VIRTIO_BLK_T_IN) =? VIRTIO_BLK_T_OUT) with write
    by (by destruct write).
  clear. by destruct write, s.
Qed.

Definition disk_demo : kernel :=
  upd_vdisk (set_dk_free (replicate NUM true)) (set_cur (Cpu (Some 0%nat) 0 false true) null_kernel).

(** Writing buffer 0, which holds block 0. *)
Lemma virtio_refines_contract_witness :
  ∃ s1 k r2, virtio_disk_rw 0 true disk_demo = Swtch s1 k
    ∧ virtio_disk_intr (sample_device (switched_away 0 s1)) = Ok tt r2
    ∧ p_state (proc_at r2 0) = RUNNABLE.
Proof.
  destruct (virtio_refines_contract sample_device 0 0 true disk_demo)
    as (s1 & k & t & r2 & E1 & _ & _ & _ & E2 & E3 & _).
  - exact sample_device_serves.
  - constructor; [reflexivity | reflexivity | vm_compute; lia | vm_compute; lia | reflexivity].
  - exists 0, (replicate NUM 0), (replicate NUM 0), (replicate NUM 0), (replicate NUM (Req 0 0 0)).
    split_and!; [reflexivity | lia | lia | reflexivity..].
  - vm_compute. lia.
  - reflexivity.
  - vm_compute. split; [intros H; inversion H | reflexivity].
  - exists s1, k, r2. split; [exact E1 | split; [exact E2 | exact E3]].
Defined.
