(* ===== verification/Cache.v ===== *)
(** What the buffer cache promises to its clients: an invariant of the cache and
    the effect of each operation of Bio on the contents of blocks.

    [cache p pid B H s]: process [p] (with id [pid]) runs alone; the blocks [B]
    are pinned, the buffers [H] are held. Every buffer that nobody holds or pins
    agrees with the disk. *)
From S2P Require Import Prelude Pstat Kernel Spinlock Sched Sleeplock Bio.

Definition cached (s : kernel) (b : Z) (i : nat) : Prop :=
  (i < NBUF)%nat ∧ is_block ROOTDEV b (buf_at s i) = true.

(** The contents of a block as the file system sees it. *)
Definition content (s : kernel) (b : Z) : list Z :=
  match List.find (λ i, is_block ROOTDEV b (buf_at s i)) (seq 0 NBUF) with
  | Some i => if b_valid (buf_at s i) then b_data (buf_at s i) else disk_read s b
  | None => disk_read s b
  end.

Definition bit_of (P : Prop) `{Decision P} : Z := if decide P then 1 else 0.

Record cache (p : nat) (pid : Z) (B : list Z) (H : list nat) (s : kernel) : Prop := {
  ca_env : env p s;
  ca_pid : pid_of s p = pid;
  ca_len : length (bufs s) = NBUF;
  ca_lru : lru s ≡ₚ seq 0 NBUF;
  ca_dev : ∀ i, (i < NBUF)%nat → b_dev (buf_at s i) = 0 ∨ b_dev (buf_at s i) = ROOTDEV;
  ca_uniq : ∀ b i j, cached s b i → cached s b j → i = j;
  ca_ref : ∀ i, (i < NBUF)%nat →
    b_refcnt (buf_at s i)
    = bit_of (b_dev (buf_at s i) = ROOTDEV ∧ b_blockno (buf_at s i) ∈ B) + bit_of (i ∈ H);
  ca_valid : ∀ i, (i < NBUF)%nat → b_dev (buf_at s i) = ROOTDEV → b_valid (buf_at s i) = true;
  ca_pins : ∀ b, b ∈ B → ∃ i, cached s b i;
  ca_nodup : NoDup B ∧ NoDup H;
  ca_held : ∀ i, i ∈ H → (i < NBUF)%nat ∧ b_dev (buf_at s i) = ROOTDEV;
  ca_locks : ∀ i, slocks s !! SL_buf i = if decide (i ∈ H) then Some pid else None;
  ca_clean : ∀ i, (i < NBUF)%nat → i ∉ H → b_dev (buf_at s i) = ROOTDEV →
    b_blockno (buf_at s i) ∉ B →
    b_data (buf_at s i) = disk_read s (b_blockno (buf_at s i));
}.

(** Only the cache, the disk, the locks of buffers and the states of woken processes
    change. *)
Definition kept (s : kernel) (sl : gmap sleepid Z) (ps : list proc) : Prop :=
  (∀ i, sl !! SL_inode i = slocks s !! SL_inode i) ∧ set_p_state UNUSED <$> ps = set_p_state UNUSED <$> procs s.
Definition fs_frame (s s' : kernel) : Prop :=
  ∃ bs l sl h ps, kept s sl ps ∧ s' = set_bufs bs (set_lru l (set_slocks sl (set_disk_hist h
                         (set_procs ps (settle s))))).

Lemma fs_frame_settle s : fs_frame s (settle s).
Proof. exists (bufs s), (lru s), (slocks s), (disk_hist s), (procs s). split; [done | by destruct s]. Qed.
Lemma fs_frame_trans s1 s2 s3 : fs_frame s1 s2 → fs_frame s2 s3 → fs_frame s1 s3.
Proof.
  intros (? & ? & ? & ? & ? & [K1 K2] & ->) (bs & l & sl & h & ps & [K3 K4] & ->). exists bs, l, sl, h, ps. split.
  - split; [intros i; by rewrite K3, <- K1 | by rewrite K4].
  - unfold settle. simpl. by rewrite settled_idemp.
Qed.

Lemma fs_frame_upd s s' i f : fs_frame s s' → fs_frame s (upd_buf i f s').
Proof.
  intros (bs & l & sl & h & ps & K & ->). exists (alter f i bs), l, sl, h, ps. split; [exact K | reflexivity].
Qed.

(** ** Lookup *)

Lemma buf_at_upd i f s j :
  (i < length (bufs s))%nat →
  buf_at (upd_buf i f s) j = if decide (j = i) then f (buf_at s i) else buf_at s j.
Proof.
  intros Hi. unfold buf_at, upd_buf. simpl. case_decide as Hj.
  - subst j. rewrite list_lookup_alter_eq. by destruct (lookup_lt_is_Some_2 _ _ Hi) as [b ->].
  - by rewrite list_lookup_alter_ne.
Qed.

Lemma find_seq_unique (f : nat → bool) n i :
  (i < n)%nat → f i = true → (∀ j, (j < n)%nat → f j = true → j = i) →
  List.find f (seq 0 n) = Some i.
Proof.
  intros Hi Hf Hu. destruct (List.find f (seq 0 n)) as [j|] eqn:E.
  - apply List.find_some in E as [Hj Hfj]. apply in_seq in Hj. f_equal. apply Hu; [lia | done].
  - pose proof (List.find_none _ _ E i) as Hn. rewrite Hn in Hf; [done|]. apply in_seq. lia.
Qed.

Lemma is_block_spec dev b x : is_block dev b x = true ↔ b_dev x = dev ∧ b_blockno x = b.
Proof. unfold is_block. rewrite andb_true_iff, !Z.eqb_eq. done. Qed.

Lemma content_cached p pid B H s b i :
  cache p pid B H s → cached s b i → content s b = b_data (buf_at s i).
Proof.
  intros Hc Hi. unfold content. rewrite (find_seq_unique _ _ i).
  - destruct Hi as [Hi [Hd _]%is_block_spec]. by rewrite (ca_valid _ _ _ _ _ Hc i Hi Hd).
  - apply Hi.
  - apply Hi.
  - intros j Hj Hb. by apply (ca_uniq _ _ _ _ _ Hc b).
Qed.

Lemma content_uncached s b : (∀ i, ¬ cached s b i) → content s b = disk_read s b.
Proof.
  intros Hn. unfold content. destruct (List.find _ _) as [i|] eqn:E; [|done].
  apply List.find_some in E as [Hi Hb]. apply in_seq in Hi. exfalso. apply (Hn i). by split; [lia|].
Qed.

Lemma cached_dec s b : {i | cached s b i} + {∀ i, ¬ cached s b i}.
Proof.
  destruct (List.find (λ i, is_block ROOTDEV b (buf_at s i)) (seq 0 NBUF)) as [i|] eqn:E.
  - left. exists i. apply List.find_some in E as [Hi Hb]. apply in_seq in Hi. by split; [lia|].
  - right. intros i [Hi Hb]. pose proof (List.find_none _ _ E i) as Hn. cbv beta in Hn.
    rewrite Hn in Hb; [done|]. apply in_seq. lia.
Qed.

(** The search of bget() through the list finds the cached buffer. *)
Lemma find_lru p pid B H s b :
  cache p pid B H s →
  match List.find (λ i, is_block ROOTDEV b (buf_at s i)) (lru s) with
  | Some i => cached s b i
  | None => ∀ i, ¬ cached s b i
  end.
Proof.
  intros Hc. destruct (List.find _ _) as [i|] eqn:E.
  - apply List.find_some in E as [Hi Hb]. split; [|done].
    apply list_elem_of_In in Hi. rewrite (ca_lru _ _ _ _ _ Hc), elem_of_seq in Hi. lia.
  - intros i [Hi Hb]. pose proof (List.find_none _ _ E i) as Hn. cbv beta in Hn.
    rewrite Hn in Hb; [done|]. apply list_elem_of_In.
    rewrite (ca_lru _ _ _ _ _ Hc), elem_of_seq. lia.
Qed.

(** While fewer than NBUF blocks are pinned or held, a buffer is free. *)
Lemma free_buffer p pid B H s :
  cache p pid B H s → (length B + length H < NBUF)%nat →
  ∃ i, (i < NBUF)%nat ∧ b_refcnt (buf_at s i) = 0.
Proof.
  intros Hc Hlen.
  destruct (least_index (λ i, b_refcnt (buf_at s i) = 0) NBUF) as [(i & ? & ? & _)|Hno];
    [by exists i|]. exfalso.
  set (R := filter (λ i, i ∉ H) (seq 0 NBUF)).
  assert (HR : ∀ i, i ∈ R → (i < NBUF)%nat ∧ b_dev (buf_at s i) = ROOTDEV
                            ∧ b_blockno (buf_at s i) ∈ B).
  { intros i Hi. apply list_elem_of_filter in Hi as [Hi Hs]. apply elem_of_seq in Hs.
    assert (Hlt : (i < NBUF)%nat) by lia. pose proof (Hno i Hlt) as Hr.
    rewrite (ca_ref _ _ _ _ _ Hc i Hlt) in Hr. unfold bit_of in Hr.
    destruct (decide (i ∈ H)); [done|]. destruct (decide (_ ∧ _)) as [[? ?]|]; [done|lia]. }
  assert (HB : (length R <= length B)%nat).
  { rewrite <- (length_fmap (λ i, b_blockno (buf_at s i))).
    apply submseteq_length, NoDup_submseteq.
    - apply NoDup_fmap_2_strong; [|apply NoDup_filter, NoDup_seq].
      intros i j Hi Hj E. destruct (HR i Hi) as (? & ? & _), (HR j Hj) as (? & ? & _).
      apply (ca_uniq _ _ _ _ _ Hc (b_blockno (buf_at s i)));
        (split; [done|]); by apply is_block_spec.
    - intros b Hb. apply list_elem_of_fmap in Hb as (i & -> & Hi). apply HR, Hi. }
  assert (Hall : (NBUF <= length (R ++ H))%nat).
  { rewrite <- (length_seq NBUF 0) at 1. apply submseteq_length, NoDup_submseteq; [apply NoDup_seq|].
    intros i Hi. apply elem_of_app. destruct (decide (i ∈ H)); [by right|]. left.
    by apply list_elem_of_filter. }
  rewrite length_app in Hall. lia.
Qed.

Lemma find_free p pid B H s :
  cache p pid B H s → (length B + length H < NBUF)%nat →
  ∃ i, List.find (λ i, b_refcnt (buf_at s i) =? 0) (reverse (lru s)) = Some i
       ∧ (i < NBUF)%nat ∧ b_refcnt (buf_at s i) = 0.
Proof.
  intros Hc Hlen. destruct (List.find _ _) as [i|] eqn:E.
  - apply List.find_some in E as [Hi Hr]. exists i. split_and!; [done | | by apply Z.eqb_eq].
    apply list_elem_of_In in Hi. rewrite elem_of_reverse, (ca_lru _ _ _ _ _ Hc), elem_of_seq in Hi. lia.
  - destruct (free_buffer _ _ _ _ _ Hc Hlen) as (i & Hi & Hr). exfalso.
    pose proof (List.find_none _ _ E i) as Hn. cbv beta in Hn. rewrite Hr in Hn.
    discriminate Hn. apply list_elem_of_In. rewrite elem_of_reverse, (ca_lru _ _ _ _ _ Hc), elem_of_seq.
    lia.
Qed.

(** A buffer with no references is neither held nor pinned. *)
Lemma unreferenced p pid B H s i :
  cache p pid B H s → (i < NBUF)%nat → b_refcnt (buf_at s i) = 0 →
  (i ∉ H) ∧ (b_dev (buf_at s i) = ROOTDEV → b_blockno (buf_at s i) ∉ B).
Proof.
  intros Hc Hi Hr. rewrite (ca_ref _ _ _ _ _ Hc i Hi) in Hr. unfold bit_of in Hr.
  destruct (decide (i ∈ H)), (decide (_ ∧ _)) as [|Hn]; try lia. split; [done|].
  intros Hd Hb. by apply Hn.
Qed.

(** ** bread() *)

Definition incref (b : buf) : buf := set_b_refcnt (u32 (b_refcnt b + 1)) b.
Definition loaded (s : kernel) (blockno : Z) (b : buf) : buf :=
  Buf true (b_disk b) ROOTDEV blockno 1 (disk_read s blockno).

(** A critical section on the cache lock that updates one buffer, then the
    buffer's sleep-lock: the two endings of bget(). *)
Lemma bget_tail p s i f :
  env p s → slocks s !! SL_buf i = None →
  (modify (upd_buf i f) ;; release L_bcache ;; acquiresleep (SL_buf i) ;; ret i)
    (lock_state L_bcache s)
  = Ok i (set_slocks (<[SL_buf i := pid_of s p]> (slocks s)) (upd_buf i f (settle s))).
Proof.
  intros He Hl. ksteps.
  erewrite bind_Ok.
  2: { apply (env_release p s); try done. simpl. by rewrite (e_locks _ _ He). }
  erewrite bind_Ok.
  2: { apply (acquiresleep_ok p); [|done]. destruct He. split; try done; simpl; try done. }
  unfold ret. f_equal. unfold settle. simpl. rewrite settled_idemp, <- (e_locks _ _ He).
  by destruct s.
Qed.

Lemma bread_hit p s b i :
  env p s → slocks s !! SL_buf i = None → (i < length (bufs s))%nat →
  List.find (λ i, is_block ROOTDEV b (buf_at s i)) (lru s) = Some i →
  b_valid (buf_at s i) = true →
  bread ROOTDEV b s
  = Ok i (set_slocks (<[SL_buf i := pid_of s p]> (slocks s)) (upd_buf i incref (settle s))).
Proof.
  intros He Hl Hi Hf Hv. unfold bread.
  assert (E : bget ROOTDEV b s
    = Ok i (set_slocks (<[SL_buf i := pid_of s p]> (slocks s)) (upd_buf i incref (settle s)))).
  { unfold bget. rewrite (bind_Ok _ _ _ _ _ (env_acquire p s _ He)). rewrite bind_get; cbv beta.
    change (List.find _ (lru (lock_state L_bcache s)))
      with (List.find (λ i, is_block ROOTDEV b (buf_at s i)) (lru s)).
    rewrite Hf. by apply bget_tail. }
  rewrite (bind_Ok _ _ _ _ _ E). rewrite bind_get; cbv beta.
  change (buf_at (set_slocks _ (upd_buf i incref (settle s))) i)
    with (buf_at (upd_buf i incref s) i).
  rewrite buf_at_upd, decide_True by done. simpl. by rewrite Hv.
Qed.

Lemma bread_miss p s b i :
  env p s → slocks s !! SL_buf i = None → (i < length (bufs s))%nat →
  List.find (λ i, is_block ROOTDEV b (buf_at s i)) (lru s) = None →
  List.find (λ i, b_refcnt (buf_at s i) =? 0) (reverse (lru s)) = Some i →
  bread ROOTDEV b s
  = Ok i (set_slocks (<[SL_buf i := pid_of s p]> (slocks s)) (upd_buf i (loaded s b) (settle s))).
Proof.
  intros He Hl Hi Hf Hg. unfold bread.
  set (f := λ b0, Buf false (b_disk b0) ROOTDEV b 1 (b_data b0)).
  assert (E : bget ROOTDEV b s
    = Ok i (set_slocks (<[SL_buf i := pid_of s p]> (slocks s)) (upd_buf i f (settle s)))).
  { unfold bget. rewrite (bind_Ok _ _ _ _ _ (env_acquire p s _ He)). rewrite bind_get; cbv beta.
    change (List.find _ (lru (lock_state L_bcache s)))
      with (List.find (λ i, is_block ROOTDEV b (buf_at s i)) (lru s)).
    rewrite Hf, bind_get; cbv beta.
    change (List.find _ (reverse (lru (lock_state L_bcache s))))
      with (List.find (λ i, b_refcnt (buf_at s i) =? 0) (reverse (lru s))).
    rewrite Hg. by apply bget_tail. }
  rewrite (bind_Ok _ _ _ _ _ E). rewrite bind_get; cbv beta.
  change (buf_at (set_slocks _ (upd_buf i f (settle s))) i) with (buf_at (upd_buf i f s) i).
  rewrite buf_at_upd, decide_True by done. simpl. unfold disk_transfer.
  erewrite bind_Ok by (ksteps; reflexivity). unfold ret. f_equal. unfold upd_buf. simpl.
  change (buf_at (set_slocks _ _) i) with (buf_at (upd_buf i f s) i).
  rewrite buf_at_upd, decide_True by done. rewrite !list_alter_alter_eq. done.
Qed.

Lemma bit_of_range (P : Prop) `{Decision P} : 0 <= bit_of P <= 1.
Proof. unfold bit_of. destruct (decide P); lia. Qed.

Lemma bit_of_iff (P Q : Prop) `{Decision P, Decision Q} : (P ↔ Q) → bit_of P = bit_of Q.
Proof. intros. unfold bit_of. by repeat case_decide; tauto. Qed.

(** [taken i f pid s]: buffer [i] updated by [f] and locked by [pid]. *)
Definition taken (i : nat) (f : buf → buf) (pid : Z) (s : kernel) : kernel :=
  set_slocks (<[SL_buf i := pid]> (slocks s)) (upd_buf i f (settle s)).

Lemma buf_at_taken i f pid s j :
  (i < length (bufs s))%nat →
  buf_at (taken i f pid s) j = if decide (j = i) then f (buf_at s i) else buf_at s j.
Proof. apply (buf_at_upd i f s j). Qed.

Lemma taken_frame i f pid s : fs_frame s (taken i f pid s).
Proof.
  exists (alter f i (bufs s)), (lru s), (<[SL_buf i := pid]> (slocks s)), (disk_hist s), (procs s).
  split; [|by destruct s]. split; [|done]. intros j. by rewrite lookup_insert_ne.
Qed.

Lemma taken_env p i f pid s : env p s → env p (taken i f pid s).
Proof. intros []. by split. Qed.

(** Holding one more buffer keeps the invariant: [f] may only change the
    reference count of a cached block, or load a block into a free buffer. *)
Lemma cache_taken p pid B H s i b f :
  cache p pid B H s → (i < NBUF)%nat → i ∉ H →
  (∀ j, j ≠ i → ¬ cached s b j) →
  (b ∈ B → cached s b i) →
  (b_dev (buf_at s i) = ROOTDEV → b_blockno (buf_at s i) ∈ B → b_blockno (buf_at s i) = b) →
  let x := f (buf_at s i) in
  b_dev x = ROOTDEV → b_blockno x = b → b_valid x = true →
  b_refcnt x = bit_of (b ∈ B) + 1 →
  cache p pid B (i :: H) (taken i f pid s).
Proof.
  intros Hc Hi HiH Hother HbB Hrepl x Hdev Hblk Hval Href.
  assert (Hli : (i < length (bufs s))%nat) by (by rewrite (ca_len _ _ _ _ _ Hc)).
  pose proof (λ j, buf_at_taken i f pid s j Hli) as Hat. fold x in Hat.
  assert (Hcd : ∀ b' j, cached (taken i f pid s) b' j →
                  (j = i ∧ b' = b) ∨ (j ≠ i ∧ cached s b' j ∧ b' ≠ b)).
  { intros b' j [Hj E]. rewrite Hat in E. destruct (decide (j = i)) as [Hji|Hji].
    - apply is_block_spec in E as [_ E]. left. split; [done | congruence].
    - right. split_and!; [done | done |]. intros ->. by apply (Hother j). }
  destruct Hc. split; try done.
  - by apply taken_env.
  - by rewrite <- ca_len0; apply length_alter.
  - intros j Hj. rewrite Hat. destruct (decide (j = i)); [by right | auto].
  - intros b' j k [[-> ->]|(? & ? & ?)]%Hcd [[-> ?]|(? & ? & ?)]%Hcd; try done; eauto.
  - intros j Hj. rewrite Hat. destruct (decide (j = i)) as [->|Hji].
    + rewrite Href. f_equal.
      * apply bit_of_iff. rewrite Hdev, Hblk. tauto.
      * unfold bit_of. by rewrite decide_True by (by left).
    + rewrite ca_ref0 by done. f_equal. apply bit_of_iff. rewrite elem_of_cons. tauto.
  - intros j Hj. rewrite Hat. destruct (decide (j = i)); auto.
  - intros b' Hb'. destruct (ca_pins0 b' Hb') as [j Hj]. destruct (decide (j = i)) as [->|Hji].
    + destruct Hj as [Hj [Hd Hb]%is_block_spec]. exists i. split; [done|].
      rewrite Hat, decide_True by done. apply is_block_spec. split; [done|].
      rewrite Hblk, <- Hb. symmetry. apply Hrepl; [done | by rewrite Hb].
    + exists j. destruct Hj. split; [done|]. by rewrite Hat, decide_False.
  - destruct ca_nodup0. split; [done | by constructor].
  - intros j Hj. apply elem_of_cons in Hj. rewrite Hat.
    destruct (decide (j = i)); [by subst|]. destruct Hj; [done|]. by apply ca_held0.
  - intros j. unfold taken. simpl. destruct (decide (j = i)) as [->|Hji].
    + rewrite lookup_insert_eq. by rewrite decide_True by (by left).
    + rewrite lookup_insert_ne by congruence. rewrite ca_locks0.
      destruct (decide (j ∈ H)), (decide (j ∈ i :: H)) as [Hd|Hd]; try done;
        rewrite elem_of_cons in Hd; tauto.
  - intros j Hj HjH. apply not_elem_of_cons in HjH as [Hji HjH].
    rewrite Hat, decide_False by done. by apply ca_clean0.
Qed.

Lemma cached_taken p pid B H s i f b j :
  cache p pid B H s → (i < NBUF)%nat →
  cached (taken i f pid s) b j ↔
  (j < NBUF)%nat ∧ is_block ROOTDEV b (if decide (j = i) then f (buf_at s i) else buf_at s j) = true.
Proof.
  intros Hc Hi. unfold cached. by rewrite buf_at_taken by (by rewrite (ca_len _ _ _ _ _ Hc)).
Qed.

(** The contents of a block depend on its buffer only. *)
Lemma content_eq p pid B H s p' pid' B' H' s' b :
  cache p pid B H s → cache p' pid' B' H' s' →
  (∀ i, cached s b i → cached s' b i ∧ b_data (buf_at s' i) = b_data (buf_at s i)) →
  ((∀ i, ¬ cached s b i) → (∀ i, ¬ cached s' b i) ∧ disk_read s' b = disk_read s b) →
  content s' b = content s b.
Proof.
  intros Hc Hc' Hsome Hnone. destruct (cached_dec s b) as [[i Hi]|Hn].
  - destruct (Hsome i Hi) as [Hi' Hd].
    by rewrite (content_cached _ _ _ _ _ _ _ Hc Hi), (content_cached _ _ _ _ _ _ _ Hc' Hi').
  - destruct (Hnone Hn) as [Hn' Hd]. by rewrite !content_uncached.
Qed.

Lemma cache_hit p pid B H s b i :
  cache p pid B H s → i ∉ H → cached s b i → cache p pid B (i :: H) (taken i incref pid s).
Proof.
  intros Hc HiH Hi. pose proof Hi as [Hlt [Hd Hb]%is_block_spec].
  apply (cache_taken _ _ _ _ _ _ b); try done.
  - intros j Hj Hcj. apply Hj. by apply (ca_uniq _ _ _ _ _ Hc b).
  - by apply (ca_valid _ _ _ _ _ Hc).
  - simpl. rewrite (ca_ref _ _ _ _ _ Hc i Hlt).
    rewrite (bit_of_iff (b_dev _ = _ ∧ _) (b ∈ B)) by (rewrite Hd, Hb; tauto).
    unfold bit_of at 2. rewrite decide_False by done. pose proof (bit_of_range (b ∈ B)).
    rewrite u32_small; lia.
Qed.

Lemma content_hit p pid B H s b i b' :
  cache p pid B H s → i ∉ H → cached s b i → content (taken i incref pid s) b' = content s b'.
Proof.
  intros Hc HiH Hi. pose proof (cache_hit _ _ _ _ _ _ _ Hc HiH Hi) as Hc'.
  assert (Hli : (i < length (bufs s))%nat) by (rewrite (ca_len _ _ _ _ _ Hc); apply Hi).
  assert (Hsame : ∀ j, cached (taken i incref pid s) b' j ↔ cached s b' j).
  { intros j. unfold cached. rewrite buf_at_taken by done.
    destruct (decide (j = i)) as [->|]; done. }
  apply (content_eq _ _ _ _ _ _ _ _ _ _ _ Hc Hc').
  - intros j Hj. rewrite Hsame, buf_at_taken by done. split; [done|].
    destruct (decide (j = i)) as [->|]; done.
  - intros Hn. split; [|done]. intros j. rewrite Hsame. apply Hn.
Qed.

Lemma cache_miss p pid B H s b i :
  cache p pid B H s → (∀ j, ¬ cached s b j) → (i < NBUF)%nat → b_refcnt (buf_at s i) = 0 →
  cache p pid B (i :: H) (taken i (loaded s b) pid s).
Proof.
  intros Hc Hn Hi Hr. destruct (unreferenced _ _ _ _ _ _ Hc Hi Hr) as [HiH HiB].
  assert (HbB : b ∉ B).
  { intros Hin. destruct (ca_pins _ _ _ _ _ Hc b Hin) as [j Hj]. by apply (Hn j). }
  apply (cache_taken _ _ _ _ _ _ b); try done.
  - intros Hd Hb. by destruct (HiB Hd).
  - simpl. unfold bit_of. by rewrite decide_False.
Qed.

Lemma content_miss p pid B H s b i b' :
  cache p pid B H s → (∀ j, ¬ cached s b j) → (i < NBUF)%nat → b_refcnt (buf_at s i) = 0 →
  content (taken i (loaded s b) pid s) b' = content s b'.
Proof.
  intros Hc Hn Hi Hr. pose proof (cache_miss _ _ _ _ _ _ _ Hc Hn Hi Hr) as Hc'.
  destruct (unreferenced _ _ _ _ _ _ Hc Hi Hr) as [HiH HiB].
  assert (Hli : (i < length (bufs s))%nat) by (by rewrite (ca_len _ _ _ _ _ Hc)).
  assert (Hat := buf_at_taken i (loaded s b) pid s).
  destruct (decide (b' = b)) as [->|Hne].
  { rewrite (content_uncached s) by done.
    rewrite (content_cached _ _ _ _ _ _ i Hc').
    - by rewrite Hat, decide_True by done.
    - split; [done|]. rewrite Hat, decide_True by done. by apply is_block_spec. }
  assert (Hold : ∀ j, cached (taken i (loaded s b) pid s) b' j ↔ j ≠ i ∧ cached s b' j).
  { intros j. unfold cached. rewrite Hat by done. destruct (decide (j = i)) as [->|]; [|tauto].
    rewrite is_block_spec. simpl. intuition congruence. }
  destruct (cached_dec s b') as [[j Hj]|Hnj].
  - destruct (decide (j = i)) as [->|Hji].
    + pose proof Hj as [_ [Hd Hb]%is_block_spec].
      rewrite (content_cached _ _ _ _ _ _ _ Hc Hj), (ca_clean _ _ _ _ _ Hc) by auto.
      rewrite Hb, content_uncached; [done|]. intros k [Hk Hck]%Hold. apply Hk.
      by apply (ca_uniq _ _ _ _ _ Hc b').
    + rewrite (content_cached _ _ _ _ _ _ _ Hc Hj).
      rewrite (content_cached _ _ _ _ _ _ j Hc') by (by apply Hold).
      by rewrite Hat, decide_False by done.
  - rewrite !content_uncached; [done | done |]. intros j [_ Hj]%Hold. by apply (Hnj j).
Qed.

(** bread() returns the buffer of the block, held, with the block's contents; no
    block's contents change and nothing is written. *)
Lemma bread_ok p pid B H s b :
  cache p pid B H s → (∀ i, i ∈ H → ¬ cached s b i) →
  (∃ i, cached s b i) ∨ (length B + length H < NBUF)%nat →
  ∃ i s', bread ROOTDEV b s = Ok i s' ∧ cache p pid B (i :: H) s' ∧ cached s' b i
    ∧ (∀ b', content s' b' = content s b') ∧ disk_hist s' = disk_hist s ∧ fs_frame s s'
    ∧ (∀ b' j, j ∈ H → cached s b' j → cached s' b' j).
Proof.
  intros Hc Hnh Hlen. pose proof (find_lru _ _ _ _ _ b Hc) as Hf.
  pose proof (ca_env _ _ _ _ _ Hc) as He. pose proof (ca_len _ _ _ _ _ Hc) as Hl.
  pose proof (ca_pid _ _ _ _ _ Hc) as Hpid.
  destruct (List.find _ (lru s)) as [i|] eqn:E.
  - assert (HiH : i ∉ H) by (intros Hin; by apply (Hnh i)).
    exists i, (taken i incref pid s). pose proof Hf as [Hi [Hd Hb]%is_block_spec].
    rewrite (bread_hit p s b i), Hpid; try done.
    + split_and!; [done | by apply (cache_hit _ _ _ _ _ b) | | | done | apply taken_frame |].
      * split; [done|]. rewrite buf_at_taken, decide_True by (by rewrite ?Hl).
        by apply is_block_spec.
      * intros b'. by apply (content_hit p pid B H s b i).
      * intros b' j Hj. unfold cached.
        by rewrite buf_at_taken, decide_False by (rewrite ?Hl; congruence || done).
    + rewrite (ca_locks _ _ _ _ _ Hc). by rewrite decide_False.
    + by rewrite Hl.
    + by apply (ca_valid _ _ _ _ _ Hc).
  - destruct Hlen as [[i Hi]|Hlen]; [by destruct (Hf i)|].
    destruct (find_free _ _ _ _ _ Hc Hlen) as (i & Ef & Hi & Hr).
    destruct (unreferenced _ _ _ _ _ _ Hc Hi Hr) as [HiH _].
    exists i, (taken i (loaded s b) pid s). rewrite (bread_miss p s b i), Hpid; try done.
    + split_and!; [done | by apply cache_miss | | | done | apply taken_frame |].
      * split; [done|]. rewrite buf_at_taken, decide_True by (by rewrite ?Hl).
        by apply is_block_spec.
      * intros b'. by apply (content_miss p pid B H s b i).
      * intros b' j Hj. unfold cached.
        by rewrite buf_at_taken, decide_False by (rewrite ?Hl; congruence || done).
    + rewrite (ca_locks _ _ _ _ _ Hc). by rewrite decide_False.
    + by rewrite Hl.
Qed.

(** ** Writing to a held buffer *)

Lemma cached_inj s b b' i : cached s b i → cached s b' i → b = b'.
Proof. intros [_ [_ <-]%is_block_spec] [_ [_ <-]%is_block_spec]. done. Qed.

(** Changing the data of a buffer. *)
Lemma cached_data s i d b j : cached (upd_buf i (set_b_data d) s) b j ↔ cached s b j.
Proof.
  unfold cached, buf_at, upd_buf. simpl. destruct (decide (j = i)) as [->|].
  - rewrite list_lookup_alter_eq. by destruct (bufs s !! i).
  - by rewrite list_lookup_alter_ne.
Qed.

Lemma cache_data p pid B H s i d :
  cache p pid B H s → i ∈ H → cache p pid B H (upd_buf i (set_b_data d) s).
Proof.
  intros Hc Hi. destruct (ca_held _ _ _ _ _ Hc i Hi) as [Hlt _].
  assert (Hli : (i < length (bufs s))%nat) by (by rewrite (ca_len _ _ _ _ _ Hc)).
  assert (Hat : ∀ j, ∃ d', buf_at (upd_buf i (set_b_data d) s) j = set_b_data d' (buf_at s j)
                            ∧ (j ≠ i → d' = b_data (buf_at s j))).
  { intros j. rewrite buf_at_upd by done. destruct (decide (j = i)) as [->|].
    - by exists d.
    - exists (b_data (buf_at s j)). split; [by destruct (buf_at s j) | done]. }
  destruct Hc. split; try done.
  - destruct ca_env0. by split.
  - simpl. by rewrite length_alter.
  - intros j Hj. destruct (Hat j) as (? & -> & _). by apply ca_dev0.
  - intros b j k. rewrite !cached_data. apply ca_uniq0.
  - intros j Hj. destruct (Hat j) as (? & -> & _). by apply ca_ref0.
  - intros j Hj. destruct (Hat j) as (? & -> & _). by apply ca_valid0.
  - intros b Hb. destruct (ca_pins0 b Hb) as [j Hj]. exists j. by apply cached_data.
  - intros j Hj. destruct (Hat j) as (? & -> & _). by apply ca_held0.
  - intros j Hj HjH. destruct (Hat j) as (d' & -> & Hd). rewrite Hd by congruence.
    destruct (buf_at s j) eqn:E. simpl. specialize (ca_clean0 j Hj HjH). by rewrite E in ca_clean0.
Qed.

Lemma content_data p pid B H s i d b b' :
  cache p pid B H s → i ∈ H → cached s b i →
  content (upd_buf i (set_b_data d) s) b' = if decide (b' = b) then d else content s b'.
Proof.
  intros Hc Hi Hb. destruct (ca_held _ _ _ _ _ Hc i Hi) as [Hlt _].
  assert (Hli : (i < length (bufs s))%nat) by (by rewrite (ca_len _ _ _ _ _ Hc)).
  pose proof (cache_data _ _ _ _ _ i d Hc Hi) as Hc'. destruct (decide (b' = b)) as [->|Hne].
  - rewrite (content_cached _ _ _ _ _ _ i Hc') by (by apply cached_data).
    by rewrite buf_at_upd, decide_True.
  - apply (content_eq _ _ _ _ _ _ _ _ _ _ _ Hc Hc').
    + intros j Hj. rewrite cached_data. split; [done|].
      rewrite buf_at_upd, decide_False; [done | | done]. intros ->. apply Hne.
      by apply (cached_inj s b' b i).
    + intros Hn. split; [|done]. intros j. rewrite cached_data. apply Hn.
Qed.

(** ** bwrite() *)

Definition written (b : Z) (d : list Z) (s : kernel) : kernel :=
  set_disk_hist ((b, d) :: disk_hist s) (settle s).

Lemma disk_read_written b d s b' :
  disk_read (written b d s) b' = if decide (b' = b) then d else disk_read s b'.
Proof.
  unfold disk_read, written. simpl. destruct (decide (b' = b)) as [->|Hne].
  - by rewrite Z.eqb_refl.
  - apply Z.eqb_neq in Hne. by rewrite Hne.
Qed.

Lemma bwrite_ok p pid B H s i b :
  cache p pid B H s → i ∈ H → cached s b i →
  bwrite i s = Ok tt (written b (content s b) s).
Proof.
  intros Hc Hi Hb. unfold bwrite.
  rewrite (bind_Ok _ _ _ _ _ (holdingsleep_ok p s _ (ca_env _ _ _ _ _ Hc))).
  rewrite (ca_locks _ _ _ _ _ Hc), (ca_pid _ _ _ _ _ Hc), decide_True by done.
  rewrite bool_decide_true by done. simpl. unfold disk_transfer, modify, written. f_equal.
  change (buf_at (settle s) i) with (buf_at s i).
  rewrite (content_cached _ _ _ _ _ _ _ Hc Hb). destruct Hb as [_ [_ ->]%is_block_spec]. done.
Qed.

Lemma cache_written p pid B H s i b :
  cache p pid B H s → i ∈ H → cached s b i → cache p pid B H (written b (content s b) s).
Proof.
  intros Hc Hi Hb. pose proof Hc as []. split; try done.
  - by apply env_settle in ca_env0 as [].
  - intros j Hj HjH Hd HbB.
    change (buf_at (written b (content s b) s) j) with (buf_at s j) in *.
    rewrite disk_read_written, decide_False by
      (intros <-; apply HjH; assert (j = i) as -> by
         (apply (ca_uniq0 (b_blockno (buf_at s j))); [by split; [|apply is_block_spec] | done]);
       done).
    by apply ca_clean0.
Qed.

Lemma content_written p pid B H s i b b' :
  cache p pid B H s → i ∈ H → cached s b i →
  content (written b (content s b) s) b' = content s b'.
Proof.
  intros Hc Hi Hb. pose proof (cache_written _ _ _ _ _ _ _ Hc Hi Hb) as Hc'.
  apply (content_eq _ _ _ _ _ _ _ _ _ _ _ Hc Hc'); [done|].
  intros Hn. split; [done|]. rewrite disk_read_written, decide_False; [done|].
  intros ->. by apply (Hn i).
Qed.

Lemma written_frame b d s : fs_frame s (written b d s).
Proof.
  exists (bufs s), (lru s), (slocks s), ((b, d) :: disk_hist s), (procs s). split; [done | by destruct s].
Qed.

(** ** brelse(), bpin(), bunpin() *)

Lemma pid_woken s me chan ps j :
  ps = imap (woken me chan) (procs s) → pid_of (set_procs ps s) j = pid_of s j.
Proof.
  intros ->. unfold pid_of, proc_at. simpl. rewrite list_lookup_imap.
  destruct (procs s !! j) as [q|]; simpl; [|done]. unfold woken. by repeat case_bool_decide; destruct (sleeping_on chan q).
Qed.

Definition decref (b : buf) : buf := set_b_refcnt (u32 (b_refcnt b - 1)) b.

(** The list after brelse(): the buffer moves to the front when it is free. *)
Definition relisted (i : nat) (s : kernel) : list nat :=
  if u32 (b_refcnt (buf_at s i) - 1) =? 0 then i :: filter (λ j, j ≠ i) (lru s) else lru s.

Definition released (p i : nat) (s : kernel) : kernel :=
  set_lru (relisted i s) (upd_buf i decref (set_slocks (delete (SL_buf i) (slocks s))
    (set_procs (imap (woken (Some p) (Ch_sleep (SL_buf i))) (procs s)) (settle s)))).

Lemma brelse_run p s i :
  env p s → (i < length (bufs s))%nat → slocks s !! SL_buf i = Some (pid_of s p) →
  brelse i s = Ok tt (released p i s).
Proof.
  intros He Hi Hl. unfold brelse.
  rewrite (bind_Ok _ _ _ _ _ (holdingsleep_ok p s _ He)), bool_decide_true by done. simpl.
  rewrite (bind_Ok _ _ _ _ _ (releasesleep_ok p _ _ (env_settle _ _ He))).
  set (s1 := set_slocks _ _).
  assert (He1 : env p s1).
  { destruct He. split; try done. simpl. by rewrite length_imap. }
  rewrite (bind_Ok _ _ _ _ _ (env_acquire p s1 _ He1)). kstep. kstep.
  assert (Hb : b_refcnt (buf_at (upd_buf i decref (lock_state L_bcache s1)) i)
               = u32 (b_refcnt (buf_at s i) - 1)).
  { rewrite buf_at_upd, decide_True by done. done. }
  fold decref. rewrite Hb.
  set (s2 := set_lru (relisted i s) (upd_buf i decref (lock_state L_bcache s1))).
  erewrite (bind_Ok _ _ _ tt s2).
  2: { unfold s2, relisted. destruct (_ =? 0); [done|]. unfold ret. f_equal. }
  rewrite (env_release p s1); try done.
  - unfold released, s2, s1. f_equal. unfold settle. simpl. rewrite !settled_idemp.
    rewrite <- (e_locks _ _ He). by destruct s.
  - simpl. by rewrite (e_locks _ _ He).
Qed.

Lemma relisted_perm p pid B H s i :
  cache p pid B H s → (i < NBUF)%nat → relisted i s ≡ₚ seq 0 NBUF.
Proof.
  intros Hc Hi. unfold relisted. destruct (_ =? 0); [|apply Hc].
  rewrite <- (ca_lru _ _ _ _ _ Hc).
  assert (Hin : i ∈ lru s) by (rewrite (ca_lru _ _ _ _ _ Hc), elem_of_seq; lia).
  assert (Hnd : NoDup (lru s)) by (rewrite (ca_lru _ _ _ _ _ Hc); apply NoDup_seq).
  apply NoDup_Permutation; [| done |].
  - constructor; [|by apply NoDup_filter]. by intros [? _]%list_elem_of_filter.
  - intros j. rewrite elem_of_cons, list_elem_of_filter. destruct (decide (j = i)) as [->|]; tauto.
Qed.

Lemma buf_at_released p pid B H s i j :
  cache p pid B H s → (i < NBUF)%nat →
  buf_at (released p i s) j = if decide (j = i) then decref (buf_at s i) else buf_at s j.
Proof.
  intros Hc Hi. apply (buf_at_upd i decref s j). by rewrite (ca_len _ _ _ _ _ Hc).
Qed.

Lemma cached_released p pid B H s i b j :
  cache p pid B H s → (i < NBUF)%nat → cached (released p i s) b j ↔ cached s b j.
Proof.
  intros Hc Hi. unfold cached. rewrite (buf_at_released _ _ _ _ _ _ _ Hc Hi).
  by destruct (decide (j = i)) as [->|].
Qed.

Lemma cache_released p pid B H s i b :
  cache p pid B (i :: H) s → cached s b i → b ∈ B ∨ content s b = disk_read s b →
  cache p pid B H (released p i s).
Proof.
  intros Hc Hb Hclean. pose proof Hb as [Hi [Hdi Hbi]%is_block_spec].
  pose proof (λ j, buf_at_released _ _ _ _ _ _ j Hc Hi) as Hat.
  pose proof (λ b j, cached_released _ _ _ _ _ _ b j Hc Hi) as Hcd.
  pose proof (relisted_perm _ _ _ _ _ _ Hc Hi) as Hperm.
  pose proof (content_cached _ _ _ _ _ _ _ Hc Hb) as Hcont.
  destruct Hc. destruct ca_nodup0 as [HB [HiH HH]%NoDup_cons].
  assert (Hf : ∀ j, b_dev (buf_at (released p i s) j) = b_dev (buf_at s j)
                 ∧ b_blockno (buf_at (released p i s) j) = b_blockno (buf_at s j)
                 ∧ b_valid (buf_at (released p i s) j) = b_valid (buf_at s j)
                 ∧ b_data (buf_at (released p i s) j) = b_data (buf_at s j)).
  { intros j. rewrite Hat. by destruct (decide (j = i)) as [->|]. }
  split; try done.
  - destruct ca_env0. split; try done. simpl. by rewrite length_imap.
  - rewrite <- ca_pid0. by apply (pid_woken s (Some p) (Ch_sleep (SL_buf i)) _ p).
  - by rewrite <- ca_len0; apply length_alter.
  - intros j Hj. destruct (Hf j) as (-> & _). by apply ca_dev0.
  - intros b' j k. rewrite !Hcd. apply ca_uniq0.
  - intros j Hj. destruct (Hf j) as (-> & -> & _). rewrite Hat.
    destruct (decide (j = i)) as [->|Hji].
    + unfold decref. simpl. rewrite ca_ref0 by done. unfold bit_of at 2 4.
      rewrite decide_True, decide_False by (done || by left). pose proof (bit_of_range
        (b_dev (buf_at s i) = ROOTDEV ∧ b_blockno (buf_at s i) ∈ B)). rewrite u32_small; lia.
    + rewrite ca_ref0 by done. f_equal. apply bit_of_iff. rewrite elem_of_cons. tauto.
  - intros j Hj. destruct (Hf j) as (-> & _ & -> & _). by apply ca_valid0.
  - intros b' Hb'. destruct (ca_pins0 b' Hb') as [j Hj]. exists j. by apply Hcd.
  - intros j Hj. destruct (Hf j) as (-> & _). apply ca_held0. by right.
  - intros j. simpl. destruct (decide (j = i)) as [->|Hji].
    + rewrite lookup_delete_eq. by rewrite decide_False.
    + rewrite lookup_delete_ne by congruence. rewrite ca_locks0.
      destruct (decide (j ∈ i :: H)) as [Hd|Hd], (decide (j ∈ H)); try done;
        rewrite elem_of_cons in Hd; tauto.
  - intros j Hj HjH. destruct (Hf j) as (-> & -> & _ & ->). intros Hd HbB.
    destruct (decide (j = i)) as [->|Hji].
    + rewrite <- Hcont, Hbi. destruct Hclean; [by rewrite Hbi in HbB | done].
    + apply ca_clean0; try done. rewrite elem_of_cons. tauto.
Qed.

Lemma content_released p pid B H s i b b' :
  cache p pid B (i :: H) s → cached s b i → b ∈ B ∨ content s b = disk_read s b →
  content (released p i s) b' = content s b'.
Proof.
  intros Hc Hb Hclean. pose proof (cache_released _ _ _ _ _ _ _ Hc Hb Hclean) as Hc'.
  destruct Hb as [Hi _]. apply (content_eq _ _ _ _ _ _ _ _ _ _ _ Hc Hc').
  - intros j Hj. rewrite (cached_released _ _ _ _ _ _ _ _ Hc Hi). split; [done|].
    rewrite (buf_at_released _ _ _ _ _ _ _ Hc Hi). by destruct (decide (j = i)) as [->|].
  - intros Hn. split; [|done]. intros j. rewrite (cached_released _ _ _ _ _ _ _ _ Hc Hi). apply Hn.
Qed.

Lemma woken_unchanged me ch (ps : list proc) :
  set_p_state UNUSED <$> imap (woken me ch) ps = set_p_state UNUSED <$> ps.
Proof.
  apply list_eq. intros i. rewrite !list_lookup_fmap, list_lookup_imap. destruct (ps !! i); [|done]. simpl.
  unfold woken. by repeat case_match.
Qed.
Lemma released_frame p i s : fs_frame s (released p i s).
Proof.
  exists (alter decref i (bufs s)), (relisted i s), (delete (SL_buf i) (slocks s)), (disk_hist s),
    (imap (woken (Some p) (Ch_sleep (SL_buf i))) (procs s)). split; [|reflexivity]. split.
  - intros j. by rewrite lookup_delete_ne.
  - apply woken_unchanged.
Qed.

(** Changing the pins of one held block. *)
Lemma cache_repin p pid B B' H s i b f :
  cache p pid B H s → i ∈ H → cached s b i →
  (∀ b', b' ≠ b → b' ∈ B ↔ b' ∈ B') → NoDup B' →
  (∀ x, ∃ r, f x = set_b_refcnt r x) →
  b_refcnt (f (buf_at s i)) = bit_of (b ∈ B') + 1 →
  cache p pid B' H (upd_buf i f (settle s)) ∧
  (∀ b', content (upd_buf i f (settle s)) b' = content s b').
Proof.
  intros Hc HiH Hb HBB' HnB' Hf Href. pose proof Hb as [Hi [Hdi Hbi]%is_block_spec].
  assert (Hli : (i < length (bufs s))%nat) by (by rewrite (ca_len _ _ _ _ _ Hc)).
  set (s' := upd_buf i f (settle s)).
  assert (Hat : ∀ j, ∃ r, buf_at s' j = set_b_refcnt r (buf_at s j)
     ∧ (j ≠ i → r = b_refcnt (buf_at s j)) ∧ (j = i → r = bit_of (b ∈ B') + 1)).
  { intros j. unfold s'.
    rewrite (buf_at_upd i f (settle s) j Hli). change (buf_at (settle s)) with (buf_at s).
    destruct (decide (j = i)) as [->|Hj].
    - destruct (Hf (buf_at s i)) as [r Er]. exists r. rewrite Er. split_and!; try done.
      intros _. by rewrite <- Href, Er.
    - exists (b_refcnt (buf_at s j)). by destruct (buf_at s j). }
  assert (Hcd : ∀ b' j, cached s' b' j ↔ cached s b' j).
  { intros b' j. unfold cached. by destruct (Hat j) as (r & -> & _). }
  assert (Hc' : cache p pid B' H s').
  { pose proof Hc as []. split; try done.
    - by apply env_settle in ca_env0 as [].
    - by rewrite <- ca_len0; apply length_alter.
    - intros j Hj. destruct (Hat j) as (r & -> & _). by apply ca_dev0.
    - intros b' j k. rewrite !Hcd. apply ca_uniq0.
    - intros j Hj. destruct (Hat j) as (r & -> & Hne & Heq).
      change (b_refcnt (set_b_refcnt r (buf_at s j))) with r.
      destruct (decide (j = i)) as [->|Hji].
      + rewrite Heq by done. f_equal.
        * apply bit_of_iff. simpl. rewrite Hdi, Hbi. tauto.
        * unfold bit_of. by rewrite decide_True.
      + rewrite Hne, ca_ref0 by done. f_equal. apply bit_of_iff. simpl.
        assert (Hx : b_dev (buf_at s j) = ROOTDEV → b_blockno (buf_at s j) ≠ b).
        { intros Hd E. apply Hji. apply (ca_uniq0 b); [|done]. split; [done|].
          by apply is_block_spec. }
        split; intros [? ?]; split; try done; by apply HBB'; auto.
    - intros j Hj. destruct (Hat j) as (r & -> & _). by apply ca_valid0.
    - intros b' Hb'. destruct (decide (b' = b)) as [->|Hne]; [exists i; by apply Hcd|].
      apply HBB' in Hb'; [|done]. destruct (ca_pins0 b' Hb') as [j Hj]. exists j. by apply Hcd.
    - split; [done | apply ca_nodup0].
    - intros j Hj. destruct (Hat j) as (r & -> & _). by apply ca_held0.
    - intros j Hj HjH. destruct (Hat j) as (r & -> & _). simpl. intros Hd HbB.
      change (disk_read s') with (disk_read s). apply ca_clean0; try done. intros Hin. apply HbB.
      apply HBB'; [|done]. intros E. apply HjH. assert (j = i) as -> by
        (apply (ca_uniq0 b); [by split; [|apply is_block_spec] | done]). done. }
  split; [done|]. intros b'. apply (content_eq _ _ _ _ _ _ _ _ _ _ _ Hc Hc').
  - intros j Hj. rewrite Hcd. split; [done|]. by destruct (Hat j) as (r & -> & _).
  - intros Hn. split; [|done]. intros j. rewrite Hcd. apply Hn.
Qed.

Lemma brefs_run p s i f :
  env p s →
  (acquire L_bcache ;; modify (upd_buf i f) ;; release L_bcache) s = Ok tt (upd_buf i f (settle s)).
Proof.
  intros He. rewrite (bind_Ok _ _ _ _ _ (env_acquire p s _ He)). kstep.
  rewrite (env_release p s); try done.
  - rewrite <- (e_locks _ _ He). by destruct s.
  - simpl. by rewrite (e_locks _ _ He).
Qed.

Lemma upd_buf_frame i f s : fs_frame s (upd_buf i f (settle s)).
Proof.
  exists (alter f i (bufs s)), (lru s), (slocks s), (disk_hist s), (procs s). split; [done | by destruct s].
Qed.

(** bpin() keeps a held block in the cache; bunpin() gives it up. *)
Lemma bpin_ok p pid B H s i b :
  cache p pid B H s → i ∈ H → cached s b i → b ∉ B →
  ∃ s', bpin i s = Ok tt s' ∧ cache p pid (b :: B) H s' ∧ (∀ b', content s' b' = content s b')
    ∧ disk_hist s' = disk_hist s ∧ fs_frame s s' ∧ (∀ b' j, cached s' b' j ↔ cached s b' j).
Proof.
  intros Hc HiH Hb HbB. eexists. split; [apply (brefs_run p), Hc|].
  pose proof Hb as [Hi [Hdi Hbi]%is_block_spec].
  destruct (cache_repin p pid B (b :: B) H s i b incref) as [? ?]; try done.
  - intros b' Hne. rewrite elem_of_cons. tauto.
  - constructor; [done | apply Hc].
  - intros x. by eexists.
  - simpl. rewrite (ca_ref _ _ _ _ _ Hc i Hi). unfold bit_of.
    rewrite (decide_True (P := i ∈ H)), (decide_True (P := b ∈ b :: B)) by (done || by left).
    rewrite decide_False by (by rewrite Hbi; intros [_ ?]). by rewrite u32_small by lia.
  - split_and!; try done; [apply upd_buf_frame|]. intros b' j.
    unfold cached. change (buf_at (upd_buf i _ (settle s)) j) with (buf_at (upd_buf i incref s) j).
    rewrite buf_at_upd by (by rewrite (ca_len _ _ _ _ _ Hc)). by destruct (decide (j = i)) as [->|].
Qed.

Lemma bunpin_ok p pid B B' H s i b :
  cache p pid B H s → i ∈ H → cached s b i → B ≡ₚ b :: B' →
  ∃ s', bunpin i s = Ok tt s' ∧ cache p pid B' H s' ∧ (∀ b', content s' b' = content s b')
    ∧ disk_hist s' = disk_hist s ∧ fs_frame s s' ∧ (∀ b' j, cached s' b' j ↔ cached s b' j).
Proof.
  intros Hc HiH Hb HB. eexists. split; [apply (brefs_run p), Hc|].
  pose proof Hb as [Hi [Hdi Hbi]%is_block_spec].
  assert (HN : NoDup (b :: B')) by (rewrite <- HB; apply Hc).
  apply NoDup_cons in HN as [HbB' HN].
  destruct (cache_repin p pid B B' H s i b decref) as [? ?]; try done.
  - intros b' Hne. rewrite HB, elem_of_cons. tauto.
  - intros x. by eexists.
  - simpl. rewrite (ca_ref _ _ _ _ _ Hc i Hi). unfold bit_of.
    rewrite (decide_True (P := i ∈ H)), (decide_False (P := b ∈ B')) by done.
    rewrite decide_True by (rewrite Hbi, HB; split; [done | by left]). by rewrite u32_small by lia.
  - split_and!; try done; [apply upd_buf_frame|]. intros b' j.
    unfold cached. change (buf_at (upd_buf i _ (settle s)) j) with (buf_at (upd_buf i decref s) j).
    rewrite buf_at_upd by (by rewrite (ca_len _ _ _ _ _ Hc)). by destruct (decide (j = i)) as [->|].
Qed.

Lemma cache_settle p pid B H s : cache p pid B H s → cache p pid B H (settle s).
Proof. intros Hc. pose proof (env_settle _ _ (ca_env _ _ _ _ _ Hc)). destruct Hc. by split. Qed.

(** The held buffers may be listed in any order. *)
Lemma cache_perm p pid B H H' s : H ≡ₚ H' → cache p pid B H s → cache p pid B H' s.
Proof.
  intros HP []. split; try done.
  - intros i Hi. rewrite ca_ref0 by done. f_equal. apply bit_of_iff. by rewrite HP.
  - split; [apply ca_nodup0 | rewrite <- HP; apply ca_nodup0].
  - intros i Hi. apply ca_held0. by rewrite HP.
  - intros i. rewrite ca_locks0.
    destruct (decide (i ∈ H)) as [Hd|Hd], (decide (i ∈ H')) as [Hd'|Hd']; try done;
      rewrite HP in Hd; done.
  - intros i Hi Hn. apply ca_clean0; [done|]. by rewrite HP.
Qed.
(** The pins may be listed in any order. *)
Lemma cache_pins_perm p pid B B' H s : B ≡ₚ B' → cache p pid B H s → cache p pid B' H s.
Proof.
  intros HP []. split; try done.
  - intros i Hi. rewrite ca_ref0 by done. f_equal. apply bit_of_iff. by rewrite HP.
  - intros b Hb. apply ca_pins0. by rewrite HP.
  - split; [rewrite <- HP|]; apply ca_nodup0.
  - intros i Hi Hn Hd Hb. apply ca_clean0; [done.. |]. by rewrite HP.
Qed.
