(* ===== verification/Log.v ===== *)
(** The write-ahead log: kernel/log.c.

    The header block holds the number of logged blocks and their home block
    numbers as little-endian 32-bit words, as [struct logheader] lies in memory.
    The console messages of recovery are left out. *)
From S2P Require Import Prelude Pstat Kernel Spinlock Sched Sleeplock Bio.

(** ** Words in a block *)

(** The 32-bit word at byte [off] of a block, and its replacement. *)
Definition get32 (d : list Z) (off : nat) : Z :=
  default 0 (d !! off) + 2 ^ 8 * default 0 (d !! (off + 1)%nat)
  + 2 ^ 16 * default 0 (d !! (off + 2)%nat) + 2 ^ 24 * default 0 (d !! (off + 3)%nat).
Definition put32 (d : list Z) (off : nat) (v : Z) : list Z :=
  <[off := u8 v]> (<[(off + 1)%nat := u8 (v / 2 ^ 8)]> (<[(off + 2)%nat := u8 (v / 2 ^ 16)]>
    (<[(off + 3)%nat := u8 (v / 2 ^ 24)]> d))).

(** ** Operations *)

Definition upd_log (f : log_t → log_t) (s : kernel) : kernel := set_log (f (log s)) s.
Definition set_data (i : nat) (d : list Z) : K unit := modify (upd_buf i (set_b_data d)).
Definition get_data (i : nat) : K (list Z) := get (λ s, b_data (buf_at s i)).

(** [log.lh.block[i]], as the unsigned block number bread() takes. *)
Definition lh_at (l : log_t) (i : nat) : Z := u32 (default 0 (lh_block l !! i)).

(** One iteration of install_trans(). *)
Definition install_one (recovering : bool) (tail : nat) : K unit :=
  l <- get log ;;
  lbuf <- bread (l_dev l) (u32 (l_start l + Z.of_nat tail + 1)) ;;
  dbuf <- bread (l_dev l) (lh_at l tail) ;;
  d <- get_data lbuf ;;
  set_data dbuf d ;;
  bwrite dbuf ;;
  when (negb recovering) (bunpin dbuf) ;;
  brelse lbuf ;;
  brelse dbuf.
Definition install_trans (recovering : bool) : K unit :=
  n <- get (λ s, lh_n (log s)) ;;
  for_each (seq 0 (Z.to_nat n)) (install_one recovering).

(** Copying more words than [log.lh.block] has room for is undefined. *)
Definition read_head : K unit :=
  l <- get log ;;
  buf <- bread (l_dev l) (l_start l) ;;
  lh <- get_data buf ;;
  let n := i32 (get32 lh 0) in
  if LOGBLOCKS <? n then panic "undefined: log header overflow" else
  let blocks := (λ i, i32 (get32 lh (4 + 4 * i))) <$> seq 0 (Z.to_nat n) in
  modify (upd_log (λ l, set_lh_block (blocks ++ drop (Z.to_nat n) (lh_block l)) (set_lh_n n l))) ;;
  brelse buf.

(** The header block with the in-memory header stored over it. *)
Definition header_data (l : log_t) (hb : list Z) : list Z :=
  foldl (λ d i, put32 d (4 + 4 * i) (default 0 (lh_block l !! i))) (put32 hb 0 (lh_n l))
    (seq 0 (Z.to_nat (lh_n l))).
Definition write_head : K unit :=
  l <- get log ;;
  buf <- bread (l_dev l) (l_start l) ;;
  hb <- get_data buf ;;
  set_data buf (header_data l hb) ;;
  bwrite buf ;;
  brelse buf.

Definition recover_from_log : K unit :=
  read_head ;;
  install_trans true ;;
  modify (upd_log (set_lh_n 0)) ;;
  write_head.

Definition initlog (dev : Z) (sb : superblock) : K unit :=
  initlock L_log ;;
  modify (upd_log (λ l, set_l_dev dev (set_l_start (sb_logstart sb) l))) ;;
  recover_from_log.

(** One iteration of write_log(). *)
Definition write_one (tail : nat) : K unit :=
  l <- get log ;;
  to <- bread (l_dev l) (u32 (l_start l + Z.of_nat tail + 1)) ;;
  from <- bread (l_dev l) (lh_at l tail) ;;
  d <- get_data from ;;
  set_data to d ;;
  bwrite to ;;
  brelse from ;;
  brelse to.
Definition write_log : K unit :=
  n <- get (λ s, lh_n (log s)) ;;
  for_each (seq 0 (Z.to_nat n)) write_one.

Definition commit : K unit :=
  n <- get (λ s, lh_n (log s)) ;;
  when (0 <? n)
    (write_log ;;
     write_head ;;
     install_trans false ;;
     modify (upd_log (set_lh_n 0)) ;;
     write_head).

Definition begin_op : K unit :=
  acquire L_log ;;
  sleep_while WAITS (λ s, l_committing (log s)
      || (LOGBLOCKS <? lh_n (log s) + (l_outstanding (log s) + 1) * MAXOPBLOCKS)) Ch_log L_log ;;
  modify (upd_log (λ l, set_l_outstanding (l_outstanding l + 1) l)) ;;
  release L_log.

Definition end_op : K unit :=
  acquire L_log ;;
  modify (upd_log (λ l, set_l_outstanding (l_outstanding l - 1) l)) ;;
  l <- get log ;;
  if l_committing l then panic "log.committing" else
  let do_commit := l_outstanding l =? 0 in
  (if do_commit then modify (upd_log (set_l_committing true)) else wakeup Ch_log) ;;
  release L_log ;;
  when do_commit
    (commit ;;
     acquire L_log ;;
     modify (upd_log (λ l, set_l_ncommit (l_ncommit l + 1) (set_l_committing false l))) ;;
     wakeup Ch_log ;;
     release L_log).

(** Where log_write() puts a block: its old place, or the first free one. *)
Fixpoint absorb (l : list Z) (blockno : Z) : nat :=
  match l with
  | [] => 0
  | b :: l => if u32 b =? blockno then 0%nat else S (absorb l blockno)
  end.
Definition log_write (b : nat) : K unit :=
  acquire L_log ;;
  l <- get log ;;
  if LOGBLOCKS <=? lh_n l then panic "too big a transaction" else
  if l_outstanding l <? 1 then panic "log_write outside of trans" else
  blockno <- get (λ s, b_blockno (buf_at s b)) ;;
  let i := absorb (take (Z.to_nat (lh_n l)) (lh_block l)) blockno in
  modify (upd_log (λ l, set_lh_block (<[i := i32 blockno]> (lh_block l)) l)) ;;
  when (Z.of_nat i =? lh_n l)
    (bpin b ;;
     modify (upd_log (λ l, set_lh_n (lh_n l + 1) l))) ;;
  release L_log.

Definition sys_sync : K Z :=
  acquire L_log ;;
  l <- get log ;;
  when (l_committing l || (0 <? l_outstanding l))
    (sleep_while WAITS (λ s, l_ncommit (log s) <? l_ncommit l + 1) Ch_log L_log) ;;
  release L_log ;;
  ret 0.
