(* ===== verification/Crash.v ===== *)
(** Crash safety of the log.

    Every write of commit() and of recovery is one block in the disk history; a
    crash keeps some suffix of it. The first part runs the code of Log on the
    buffer cache and computes its exact sequence of block writes; the second
    shows that recovery from every crash point gives all of a transaction or
    none of it. *)
From S2P Require Import Prelude Pstat Kernel Spinlock Sched Sleeplock Bio Cache Log.

(** ** The header block *)

Lemma length_put32 d off v : length (put32 d off v) = length d.
Proof. unfold put32. by rewrite !length_insert. Qed.

Lemma get32_put32_eq d off v : (off + 3 < length d)%nat → get32 (put32 d off v) off = u32 v.
Proof.
  intros Hl. unfold get32, put32.
  repeat first [ rewrite list_lookup_insert_eq by (rewrite ?length_insert; lia)
               | rewrite list_lookup_insert_ne by lia ]. simpl.
  unfold u8, u32. clear. dlia.
Qed.

Lemma get32_put32_ne d off off' v :
  (off + 4 <= off' ∨ off' + 4 <= off)%nat → get32 (put32 d off' v) off = get32 d off.
Proof. intros H. unfold get32, put32. by rewrite !list_lookup_insert_ne by lia. Qed.

(** The number of blocks and the home block numbers in a header block. *)
Definition hdr_n (d : list Z) : Z := i32 (get32 d 0).
Definition hdr_block (d : list Z) (i : nat) : Z := u32 (i32 (get32 d (4 + 4 * i))).
Definition hdr_blocks (d : list Z) : list Z := hdr_block d <$> seq 0 (Z.to_nat (hdr_n d)).

Lemma u32_i32_u32 x : u32 (i32 (u32 x)) = u32 x.
Proof. unfold u32, i32. dlia. Qed.
Lemma i32_u32 x : - 2 ^ 31 <= x < 2 ^ 31 → i32 (u32 x) = x.
Proof. intros. unfold u32, i32. dlia. Qed.

Lemma header_data_get l hb n :
  (4 + 4 * n <= length hb)%nat →
  let d := foldl (λ d i, put32 d (4 + 4 * i) (default 0 (lh_block l !! i))) (put32 hb 0 (lh_n l))
             (seq 0 n) in
  length d = length hb ∧ get32 d 0 = u32 (lh_n l)
  ∧ ∀ i, (i < n)%nat → get32 d (4 + 4 * i) = u32 (default 0 (lh_block l !! i)).
Proof.
  induction n as [|n IH]; intros Hl; cbv zeta.
  - split_and!; [apply length_put32 | apply get32_put32_eq; lia | lia].
  - destruct IH as (Hlen & H0 & Hi); [lia|]. rewrite seq_S, foldl_app. simpl foldl.
    set (d := foldl _ _ (seq 0 n)) in *. split_and!.
    + by rewrite length_put32.
    + rewrite get32_put32_ne by lia. done.
    + intros i Hin. destruct (decide (i = n)) as [->|].
      * apply get32_put32_eq. lia.
      * rewrite get32_put32_ne by lia. apply Hi. lia.
Qed.

(** Writing the in-memory header and reading it back is the identity. *)
Lemma header_roundtrip l hb :
  0 <= lh_n l <= LOGBLOCKS → (4 + 4 * Z.to_nat LOGBLOCKS <= length hb)%nat →
  hdr_n (header_data l hb) = lh_n l ∧
  hdr_blocks (header_data l hb) = lh_at l <$> seq 0 (Z.to_nat (lh_n l)).
Proof.
  intros Hn Hl. unfold header_data.
  destruct (header_data_get l hb (Z.to_nat (lh_n l))) as (_ & H0 & Hi); [lia|].
  set (d := foldl _ _ _) in *.
  assert (E : hdr_n d = lh_n l).
  { unfold hdr_n. rewrite H0. apply i32_u32. unfold LOGBLOCKS, MAXOPBLOCKS in *. lia. }
  split; [done|]. unfold hdr_blocks. rewrite E. apply list_eq. intros i.
  rewrite !list_lookup_fmap. destruct (seq 0 _ !! i) as [j|] eqn:Ej; [|done].
  simpl. f_equal. apply lookup_seq in Ej as [-> Hj]. unfold hdr_block, lh_at.
  rewrite Hi by lia. apply u32_i32_u32.
Qed.

Lemma length_header_data l hb :
  (4 + 4 * Z.to_nat (lh_n l) <= length hb)%nat → length (header_data l hb) = length hb.
Proof. intros Hl. by destruct (header_data_get l hb (Z.to_nat (lh_n l)) Hl). Qed.

(** ** Copying one block to another, through the cache *)

Lemma content_clean p pid B H s b :
  cache p pid B H s → b ∉ B → (∀ i, i ∈ H → ¬ cached s b i) → content s b = disk_read s b.
Proof.
  intros Hc HbB Hn. destruct (cached_dec s b) as [[i Hi]|Hno]; [|by apply content_uncached].
  rewrite (content_cached _ _ _ _ _ _ _ Hc Hi). pose proof Hi as [Hlt [Hd <-]%is_block_spec].
  apply (ca_clean _ _ _ _ _ Hc); try done. intros Hin. by apply (Hn i).
Qed.

(** The state after [set_data j d; bwrite(j)]. *)
Definition stored (j : nat) (y : Z) (d : list Z) (s : kernel) : kernel :=
  written y d (upd_buf j (set_b_data d) s).

Lemma store_ok p pid B H s j y d :
  cache p pid B H s → j ∈ H → cached s y j →
  bwrite j (upd_buf j (set_b_data d) s) = Ok tt (stored j y d s)
  ∧ cache p pid B H (stored j y d s)
  ∧ (∀ b, content (stored j y d s) b = if decide (b = y) then d else content s b)
  ∧ disk_hist (stored j y d s) = (y, d) :: disk_hist s
  ∧ disk_read (stored j y d s) y = d
  ∧ (∀ b k, cached (stored j y d s) b k ↔ cached s b k)
  ∧ (∀ s0, fs_frame s0 s → fs_frame s0 (stored j y d s)).
Proof.
  intros Hc Hj Hy. pose proof (cache_data _ _ _ _ _ j d Hc Hj) as Hc1.
  assert (Hy1 : cached (upd_buf j (set_b_data d) s) y j) by (by apply cached_data).
  pose proof (λ b, content_data _ _ _ _ _ _ d _ b Hc Hj Hy) as Hd.
  assert (Ed : content (upd_buf j (set_b_data d) s) y = d) by (by rewrite Hd, decide_True).
  assert (Es : stored j y d s = written y (content (upd_buf j (set_b_data d) s) y)
                                  (upd_buf j (set_b_data d) s)) by (by rewrite Ed).
  split_and!.
  - rewrite Es. by apply (bwrite_ok p pid B H).
  - rewrite Es. by apply (cache_written _ _ _ _ _ j).
  - intros b. rewrite Es, (content_written _ _ _ _ _ _ _ _ Hc1 Hj Hy1). apply Hd.
  - done.
  - unfold stored. by rewrite disk_read_written, decide_True.
  - intros b k. apply (cached_data s j d b k).
  - intros s0 Hf. apply (fs_frame_trans _ (upd_buf j (set_b_data d) s)).
    + by apply fs_frame_upd.
    + apply written_frame.
Qed.

(** brelse() of the last-held or of the first-held of two buffers. *)
Lemma brelse_ok p pid B H s i b :
  cache p pid B (i :: H) s → cached s b i → b ∈ B ∨ content s b = disk_read s b →
  ∃ s', brelse i s = Ok tt s' ∧ cache p pid B H s' ∧ (∀ b', content s' b' = content s b')
    ∧ disk_hist s' = disk_hist s ∧ fs_frame s s' ∧ disk_img s' = disk_img s
    ∧ (∀ b' j, cached s' b' j ↔ cached s b' j).
Proof.
  intros Hc Hb Hcl. exists (released p i s). pose proof Hb as [Hi _]. split_and!.
  - apply brelse_run; [apply Hc | by rewrite (ca_len _ _ _ _ _ Hc)|].
    rewrite (ca_locks _ _ _ _ _ Hc), (ca_pid _ _ _ _ _ Hc), decide_True by (by left). done.
  - by apply (cache_released _ _ _ _ _ _ b).
  - intros b'. by apply (content_released _ _ _ _ _ _ b b' Hc).
  - done.
  - apply released_frame.
  - done.
  - intros b' j. by apply (cached_released _ _ _ _ _ _ b' j Hc).
Qed.

Lemma fs_frame_img s s' : fs_frame s s' → disk_img s' = disk_img s.
Proof. by intros (? & ? & ? & ? & ? & _ & ->). Qed.
Lemma fs_frame_log s s' : fs_frame s s' → log s' = log s.
Proof. by intros (? & ? & ? & ? & ? & _ & ->). Qed.
Lemma disk_read_eq s s' b :
  disk_hist s' = disk_hist s → disk_img s' = disk_img s → disk_read s' b = disk_read s b.
Proof. unfold disk_read. by intros -> ->. Qed.
Create HintDb fs.
#[export] Hint Resolve fs_frame_trans fs_frame_settle : fs.

(** One iteration of write_log(): the log block [y] becomes the block [x]. *)
Lemma write_one_ok p pid B s tail :
  let l := log s in
  let y := u32 (l_start l + Z.of_nat tail + 1) in
  let x := lh_at l tail in
  cache p pid B [] s → l_dev l = ROOTDEV → x ∈ B → y ∉ B → (length B < NBUF)%nat →
  ∃ s', write_one tail s = Ok tt s' ∧ cache p pid B [] s'
    ∧ (∀ b, content s' b = if decide (b = y) then content s x else content s b)
    ∧ disk_hist s' = (y, content s x) :: disk_hist s ∧ fs_frame s s'.
Proof.
  intros l y x Hc Hdev Hx Hy Hlen. unfold write_one. kstep. fold l y x. rewrite Hdev.
  destruct (bread_ok p pid B [] s y Hc) as (to & s1 & E1 & Hc1 & Hto & Hct1 & Hh1 & Hf1 & _);
    [by intros i ?%elem_of_nil | right; simpl; lia|]. rewrite (bind_Ok _ _ _ _ _ E1).
  destruct (ca_pins _ _ _ _ _ Hc1 x Hx) as [from Hfrom].
  assert (Hne : from ≠ to).
  { intros ->. apply Hy. by rewrite (cached_inj _ _ _ _ Hto Hfrom). }
  destruct (bread_ok p pid B [to] s1 x Hc1) as (from' & s2 & E2 & Hc2 & Hfr & Hct2 & Hh2 & Hf2 & Hk2).
  { intros i ->%list_elem_of_singleton Hi. apply Hy. by rewrite (cached_inj _ _ _ _ Hto Hi). }
  { left. by exists from. }
  rewrite (bind_Ok _ _ _ _ _ E2). unfold get_data, set_data. kstep. kstep.
  assert (Hto2 : cached s2 y to) by (apply Hk2; [by left | done]).
  set (d := b_data (buf_at s2 from')).
  assert (Hd : d = content s x).
  { unfold d. rewrite <- (content_cached _ _ _ _ _ _ _ Hc2 Hfr). by rewrite Hct2, Hct1. }
  destruct (store_ok p pid B _ s2 to y d Hc2) as (E3 & Hc3 & Hct3 & Hh3 & Hr3 & Hk3 & Hf3);
    [by right; left | done |]. rewrite (bind_Ok _ _ _ _ _ E3). set (s3 := stored to y d s2) in *.
  destruct (brelse_ok p pid B [to] s3 from' x Hc3) as (s4 & E4 & Hc4 & Hct4 & Hh4 & Hf4 & Hi4 & Hk4);
    [by apply Hk3 | by left |]. rewrite (bind_Ok _ _ _ _ _ E4).
  destruct (brelse_ok p pid B [] s4 to y Hc4) as (s5 & E5 & Hc5 & Hct5 & Hh5 & Hf5 & _).
  { by apply Hk4, Hk3. }
  { right. rewrite Hct4, (disk_read_eq s3 s4) by done. rewrite Hr3, Hct3. by rewrite decide_True. }
  exists s5. split_and!; [done | done | | |].
  - intros b. rewrite Hct5, Hct4, Hct3, Hd. destruct (decide (b = y)); [done|]. by rewrite Hct2, Hct1.
  - by rewrite Hh5, Hh4, Hh3, Hh2, Hh1, Hd.
  - eauto 10 with fs.
Qed.

(** The common part of an iteration of install_trans(): both blocks read, the home
    block [y] overwritten with the log block [x] and written. *)
Lemma install_copy p pid B s x y :
  cache p pid B [] s → x ≠ y → x ∉ B → (length B + 1 < NBUF)%nat ∨ y ∈ B ∧ (length B < NBUF)%nat →
  ∃ lbuf dbuf s2 s3,
    bread ROOTDEV x s = Ok lbuf s2.1 ∧ bread ROOTDEV y s2.1 = Ok dbuf s2.2
    ∧ b_data (buf_at s2.2 lbuf) = content s x
    ∧ bwrite dbuf (upd_buf dbuf (set_b_data (content s x)) s2.2) = Ok tt s3
    ∧ cache p pid B [lbuf; dbuf] s3 ∧ cached s3 x lbuf ∧ cached s3 y dbuf
    ∧ (∀ b, content s3 b = if decide (b = y) then content s x else content s b)
    ∧ disk_hist s3 = (y, content s x) :: disk_hist s ∧ fs_frame s s3
    ∧ disk_read s3 x = content s x ∧ disk_read s3 y = content s x.
Proof.
  intros Hc Hxy HxB Hlen.
  assert (Hclean : content s x = disk_read s x).
  { apply (content_clean p pid B []); try done. by intros i ?%elem_of_nil. }
  destruct (bread_ok p pid B [] s x Hc) as (lbuf & s1 & E1 & Hc1 & Hl1 & Hct1 & Hh1 & Hf1 & _);
    [by intros i ?%elem_of_nil | right; simpl; lia|].
  destruct (bread_ok p pid B [lbuf] s1 y Hc1) as (dbuf & s2 & E2 & Hc2 & Hd2 & Hct2 & Hh2 & Hf2 & Hk2).
  { intros i ->%list_elem_of_singleton Hi. apply Hxy. by rewrite (cached_inj _ _ _ _ Hl1 Hi). }
  { destruct Hlen as [?|[HyB _]]; [right; simpl; lia | left; by apply (ca_pins _ _ _ _ _ Hc1)]. }
  assert (Hl2 : cached s2 x lbuf) by (apply Hk2; [by left | done]).
  destruct (store_ok p pid B _ s2 dbuf y (content s x) Hc2)
    as (E3 & Hc3 & Hct3 & Hh3 & Hr3 & Hk3 & Hf3); [by left | done |].
  exists lbuf, dbuf, (s1, s2), (stored dbuf y (content s x) s2). cbn [fst snd]. split_and!; try done.
  - rewrite <- (content_cached _ _ _ _ _ _ _ Hc2 Hl2). by rewrite Hct2, Hct1.
  - eapply cache_perm; [|exact Hc3]. apply perm_swap.
  - by apply Hk3.
  - by apply Hk3.
  - intros b. rewrite Hct3. destruct (decide (b = y)); [done|]. by rewrite Hct2, Hct1.
  - by rewrite Hh3, Hh2, Hh1.
  - eauto 10 with fs.
  - unfold stored. rewrite disk_read_written, decide_False by done.
    change (disk_read (upd_buf dbuf _ s2) x) with (disk_read s2 x).
    rewrite (disk_read_eq s s2); [done | by rewrite Hh2, Hh1 |].
    by rewrite (fs_frame_img _ _ Hf2), (fs_frame_img _ _ Hf1).
Qed.

(** The end of an iteration: both buffers released, the home block clean. *)
Lemma release_both p pid B s lbuf dbuf x y :
  cache p pid B [lbuf; dbuf] s → cached s x lbuf → cached s y dbuf →
  content s x = disk_read s x → content s y = disk_read s y →
  ∃ s', (brelse lbuf ;; brelse dbuf) s = Ok tt s' ∧ cache p pid B [] s'
    ∧ (∀ b, content s' b = content s b) ∧ disk_hist s' = disk_hist s ∧ fs_frame s s'.
Proof.
  intros Hc Hx Hy Hcx Hcy.
  destruct (brelse_ok p pid B [dbuf] s lbuf x Hc Hx) as (s1 & E1 & Hc1 & Hct1 & Hh1 & Hf1 & Hi1 & Hk1);
    [by right|]. rewrite (bind_Ok _ _ _ _ _ E1).
  destruct (brelse_ok p pid B [] s1 dbuf y Hc1) as (s2 & E2 & Hc2 & Hct2 & Hh2 & Hf2 & _).
  { by apply Hk1. }
  { right. by rewrite Hct1, (disk_read_eq s s1). }
  exists s2. split_and!; try done.
  - intros b. by rewrite Hct2, Hct1.
  - by rewrite Hh2, Hh1.
  - eauto with fs.
Qed.

Lemma install_one_ok p pid B B' s tail (recovering : bool) :
  let l := log s in
  let x := u32 (l_start l + Z.of_nat tail + 1) in
  let y := lh_at l tail in
  cache p pid B [] s → l_dev l = ROOTDEV → x ≠ y → x ∉ B →
  (if recovering then B = [] ∧ B' = [] else B ≡ₚ y :: B' ∧ (length B < NBUF)%nat) →
  ∃ s', install_one recovering tail s = Ok tt s' ∧ cache p pid B' [] s'
    ∧ (∀ b, content s' b = if decide (b = y) then content s x else content s b)
    ∧ disk_hist s' = (y, content s x) :: disk_hist s ∧ fs_frame s s'.
Proof.
  intros l x y Hc Hdev Hxy HxB HB. unfold install_one. kstep. fold l x y. rewrite Hdev.
  destruct (install_copy p pid B s x y Hc Hxy HxB)
    as (lbuf & dbuf & [s1 s2] & s3 & E1 & E2 & Ed & E3 & Hc3 & Hx3 & Hy3 & Hct3 & Hh3 & Hf3 & Hrx & Hry).
  { destruct recovering; [left; destruct HB as [-> _]; unfold NBUF; simpl; lia|].
    right. destruct HB as [-> ?]. split; [by left | done]. }
  simpl in *. rewrite (bind_Ok _ _ _ _ _ E1), (bind_Ok _ _ _ _ _ E2).
  unfold get_data, set_data. kstep. kstep. rewrite Ed, (bind_Ok _ _ _ _ _ E3).
  assert (Hcx : content s3 x = disk_read s3 x) by (by rewrite Hct3, decide_False).
  assert (Hcy : content s3 y = disk_read s3 y) by (by rewrite Hct3, decide_True).
  destruct recovering; simpl.
  - destruct HB as [-> ->]. kstep.
    destruct (release_both p pid [] s3 lbuf dbuf x y) as (s4 & E4 & Hc4 & Hct4 & Hh4 & Hf4); try done.
    exists s4. split_and!; [done | done | | by rewrite Hh4 | eauto with fs].
    intros b. by rewrite Hct4.
  - destruct HB as [HB _].
    destruct (bunpin_ok p pid B B' [lbuf; dbuf] s3 dbuf y) as (s4 & E4 & Hc4 & Hct4 & Hh4 & Hf4 & Hk4);
      try done; [by right; left|]. rewrite (bind_Ok _ _ _ _ _ E4).
    assert (Hi : disk_img s4 = disk_img s3) by (by apply fs_frame_img).
    destruct (release_both p pid B' s4 lbuf dbuf x y) as (s5 & E5 & Hc5 & Hct5 & Hh5 & Hf5).
    + done.
    + by apply Hk4.
    + by apply Hk4.
    + by rewrite Hct4, (disk_read_eq s3 s4).
    + by rewrite Hct4, (disk_read_eq s3 s4).
    + exists s5. split_and!; [done | done | | by rewrite Hh5, Hh4 | eauto with fs].
      intros b. by rewrite Hct5, Hct4.
Qed.

(** ** The header *)

Lemma write_head_ok p pid B s :
  let l := log s in
  let hd := header_data l (content s (l_start l)) in
  cache p pid B [] s → l_dev l = ROOTDEV → l_start l ∉ B → (length B < NBUF)%nat →
  ∃ s', write_head s = Ok tt s' ∧ cache p pid B [] s'
    ∧ (∀ b, content s' b = if decide (b = l_start l) then hd else content s b)
    ∧ disk_hist s' = (l_start l, hd) :: disk_hist s ∧ fs_frame s s'.
Proof.
  intros l hd Hc Hdev HB Hlen. unfold write_head. kstep. fold l. rewrite Hdev.
  destruct (bread_ok p pid B [] s (l_start l) Hc) as (i & s1 & E1 & Hc1 & Hi1 & Hct1 & Hh1 & Hf1 & _);
    [by intros i ?%elem_of_nil | right; simpl; lia|]. rewrite (bind_Ok _ _ _ _ _ E1).
  unfold get_data, set_data. kstep. kstep.
  assert (Ed : header_data l (b_data (buf_at s1 i)) = hd).
  { unfold hd. by rewrite <- (content_cached _ _ _ _ _ _ _ Hc1 Hi1), Hct1. }
  rewrite Ed. destruct (store_ok p pid B _ s1 i (l_start l) hd Hc1)
    as (E2 & Hc2 & Hct2 & Hh2 & Hr2 & Hk2 & Hf2); [by left | done |]. rewrite (bind_Ok _ _ _ _ _ E2).
  destruct (brelse_ok p pid B [] _ i (l_start l) Hc2) as (s3 & E3 & Hc3 & Hct3 & Hh3 & Hf3 & _).
  { by apply Hk2. }
  { right. rewrite Hr2, Hct2. by rewrite decide_True. }
  exists s3. split_and!; [done | done | | | eauto with fs].
  - intros b. rewrite Hct3, Hct2. destruct (decide (b = l_start l)); [done|]. apply Hct1.
  - by rewrite Hh3, Hh2, Hh1.
Qed.

Lemma cache_log p pid B H s l : cache p pid B H s → cache p pid B H (set_log l s).
Proof.
  intros Hc. pose proof (ca_env _ _ _ _ _ Hc) as []. destruct Hc. by split.
Qed.

Lemma read_head_ok p pid s :
  let l := log s in
  let d := content s (l_start l) in
  cache p pid [] [] s → l_dev l = ROOTDEV → hdr_n d <= LOGBLOCKS → length (lh_block l) = Z.to_nat LOGBLOCKS →
  ∃ s', read_head s = Ok tt s' ∧ cache p pid [] [] s'
    ∧ (∀ b, content s' b = content s b) ∧ disk_hist s' = disk_hist s ∧ disk_img s' = disk_img s
    ∧ l_start (log s') = l_start l ∧ l_dev (log s') = ROOTDEV ∧ lh_n (log s') = hdr_n d
    ∧ lh_at (log s') <$> seq 0 (Z.to_nat (hdr_n d)) = hdr_blocks d.
Proof.
  intros l d Hc Hdev Hn Hlen. unfold read_head. kstep. fold l. rewrite Hdev.
  destruct (bread_ok p pid [] [] s (l_start l) Hc) as (i & s1 & E1 & Hc1 & Hi1 & Hct1 & Hh1 & Hf1 & _);
    [by intros i ?%elem_of_nil | right; simpl; unfold NBUF; lia|]. rewrite (bind_Ok _ _ _ _ _ E1).
  unfold get_data. kstep.
  assert (Ed : b_data (buf_at s1 i) = d).
  { unfold d. by rewrite <- (content_cached _ _ _ _ _ _ _ Hc1 Hi1), Hct1. }
  rewrite Ed. fold (hdr_n d). destruct (LOGBLOCKS <? hdr_n d) eqn:E; [lia|]. kstep.
  set (s2 := upd_log _ s1).
  assert (Hc2 : cache p pid [] [i] s2) by (by apply (cache_log p pid [] [i] s1)).
  assert (Hcl : content s1 (l_start l) = disk_read s1 (l_start l)).
  { rewrite Hct1, (disk_read_eq s s1) by (done || by apply fs_frame_img).
    apply (content_clean p pid [] []); [done | apply not_elem_of_nil | by intros ? ?%elem_of_nil]. }
  destruct (brelse_ok p pid [] [] s2 i (l_start l) Hc2) as (s3 & E3 & Hc3 & Hct3 & Hh3 & Hf3 & Hi3 & _).
  { done. } { by right. }
  pose proof (fs_frame_log _ _ Hf1) as Hl1. pose proof (fs_frame_log _ _ Hf3) as Hl3.
  exists s3. rewrite Hl3. unfold s2. simpl. rewrite Hl1. split_and!; try done.
  - intros b. rewrite Hct3. apply Hct1.
  - by rewrite Hh3, <- Hh1.
  - rewrite Hi3. by apply (fs_frame_img _ _ Hf1).
  - apply list_eq. intros j. unfold hdr_blocks. rewrite !list_lookup_fmap.
    destruct (seq 0 _ !! j) as [k|] eqn:Ek; [|done]. simpl. apply lookup_seq in Ek as [-> Hk].
    f_equal. unfold lh_at. simpl.
    rewrite lookup_app_l by (rewrite length_fmap, length_seq; lia).
    rewrite list_lookup_fmap, (lookup_seq_lt _ _ _ Hk). done.
Qed.

(** ** commit() and recovery as sequences of block writes *)

Section transaction.
Context (p : nat) (pid start : Z) (blocks : list Z).
Context (Hstart : 0 <= start ∧ start + LOGBLOCKS < 2 ^ 31).
Context (Hnodup : NoDup blocks).
Context (Hsize : (length blocks < Z.to_nat LOGBLOCKS)%nat).
Context (Hhome : ∀ b, b ∈ blocks → ¬ (start <= b <= start + LOGBLOCKS)).

(** The in-memory header describes the transaction. *)
Definition log_is (l : log_t) : Prop :=
  l_start l = start ∧ l_dev l = ROOTDEV ∧ lh_n l = Z.of_nat (length blocks)
  ∧ lh_at l <$> seq 0 (length blocks) = blocks.

(** The [i]th log block. *)
Definition logb (i : nat) : Z := start + Z.of_nat i + 1.

Lemma logb_eq l i : l_start l = start → (i < length blocks)%nat →
  u32 (l_start l + Z.of_nat i + 1) = logb i.
Proof.
  intros -> Hi. unfold logb. apply u32_small. unfold LOGBLOCKS, MAXOPBLOCKS in *. lia.
Qed.

Lemma logb_not_home i b : (i < length blocks)%nat → b ∈ blocks → logb i ≠ b.
Proof. intros Hi Hb E. apply (Hhome b Hb). unfold logb in E. lia. Qed.

Lemma lh_at_is l i : log_is l → (i < length blocks)%nat → blocks !! i = Some (lh_at l i).
Proof.
  intros (_ & _ & _ & E) Hi. rewrite <- E, list_lookup_fmap, lookup_seq_lt by done. done.
Qed.

Lemma blocks_lt_NBUF : (length blocks < NBUF)%nat.
Proof. unfold LOGBLOCKS, MAXOPBLOCKS, NBUF in *. simpl in *. lia. Qed.

(** The blocks write_log() writes, in order. *)
Definition log_writes (c : Z → list Z) : list (Z * list Z) := imap (λ i b, (logb i, c b)) blocks.
(** The blocks install_trans() writes, in order. *)
Definition home_writes (c : Z → list Z) : list (Z * list Z) := imap (λ i b, (b, c (logb i))) blocks.

Lemma write_log_ok s :
  cache p pid blocks [] s → log_is (log s) →
  ∃ s', write_log s = Ok tt s' ∧ cache p pid blocks [] s'
    ∧ log s' = log s ∧ disk_img s' = disk_img s
    ∧ disk_hist s' = reverse (log_writes (content s)) ++ disk_hist s
    ∧ (∀ b, ¬ (start < b <= start + LOGBLOCKS) → content s' b = content s b)
    ∧ (∀ i b, blocks !! i = Some b → content s' (logb i) = content s b).
Proof.
  intros Hc Hl. unfold write_log. kstep.
  pose proof Hl as (Hst & Hdev & Hn & _). rewrite Hn, Nat2Z.id.
  destruct (for_seq write_one (λ k s',
      cache p pid blocks [] s' ∧ log s' = log s ∧ disk_img s' = disk_img s
      ∧ disk_hist s' = reverse (take k (log_writes (content s))) ++ disk_hist s
      ∧ (∀ b, ¬ (start < b <= start + LOGBLOCKS) → content s' b = content s b)
      ∧ (∀ i b, (i < k)%nat → blocks !! i = Some b → content s' (logb i) = content s b))
    (length blocks) s) as (s' & E & Hc' & Hl' & Hi' & Hh' & Hct & Hlog).
  - intros k s1 Hk (Hc1 & Hl1 & Hi1 & Hh1 & Hct1 & Hlog1).
    pose proof (lh_at_is _ k Hl Hk) as Hb. pose proof (logb_eq (log s) k Hst Hk) as Ey.
    assert (HbB : lh_at (log s) k ∈ blocks) by (by apply (list_elem_of_lookup_2 _ k)).
    destruct (write_one_ok p pid blocks s1 k) as (s2 & E2 & Hc2 & Hct2 & Hh2 & Hf2);
      rewrite ?Hl1, ?Ey in *; try done.
    + intros Hin. by apply (logb_not_home k (logb k)).
    + exists s2. split_and!; [done | done | | | | |].
      * by rewrite (fs_frame_log _ _ Hf2), Hl1.
      * by rewrite (fs_frame_img _ _ Hf2), Hi1.
      * rewrite Hh2, Hh1. rewrite (take_S_r _ _ (logb k, content s (lh_at (log s) k))).
        -- rewrite reverse_app. simpl. by rewrite (Hct1 (lh_at (log s) k)) by
             (intros ?; apply (Hhome _ HbB); lia).
        -- unfold log_writes. by rewrite list_lookup_imap, Hb.
      * intros b Hb'. rewrite Hct2, decide_False; [by apply Hct1|].
        intros ->. apply Hb'. unfold logb, LOGBLOCKS, MAXOPBLOCKS in *. lia.
      * intros i b Hik Hib. rewrite Hct2. destruct (decide (logb i = logb k)) as [Eik|Nik].
        -- assert (i = k) as -> by (unfold logb in Eik; lia). rewrite Hb in Hib.
           injection Hib as <-. apply Hct1. intros ?. apply (Hhome _ HbB). lia.
        -- apply Hlog1; [|done]. destruct (decide (i = k)) as [->|]; [done | lia].
  - split_and!; try done. lia.
  - exists s'. split_and!; try done.
    + rewrite Hh', take_ge; [done|]. unfold log_writes. by rewrite length_imap.
    + intros i b Hib. apply Hlog; [|done]. by apply (lookup_lt_Some _ _ _ Hib).
Qed.

Definition pins_after (recovering : bool) (k : nat) : list Z :=
  if recovering then [] else drop k blocks.

Lemma install_trans_ok s recovering :
  cache p pid (pins_after recovering 0) [] s → log_is (log s) →
  ∃ s', install_trans recovering s = Ok tt s' ∧ cache p pid [] [] s'
    ∧ log s' = log s ∧ disk_img s' = disk_img s
    ∧ disk_hist s' = reverse (home_writes (content s)) ++ disk_hist s
    ∧ (∀ b, b ∉ blocks → content s' b = content s b)
    ∧ (∀ i b, blocks !! i = Some b → content s' b = content s (logb i)).
Proof.
  intros Hc Hl. unfold install_trans. kstep.
  pose proof Hl as (Hst & Hdev & Hn & _). rewrite Hn, Nat2Z.id.
  destruct (for_seq (install_one recovering) (λ k s',
      cache p pid (pins_after recovering k) [] s' ∧ log s' = log s ∧ disk_img s' = disk_img s
      ∧ disk_hist s' = reverse (take k (home_writes (content s))) ++ disk_hist s
      ∧ (∀ b, b ∉ blocks → content s' b = content s b)
      ∧ (∀ i b, (i < k)%nat → blocks !! i = Some b → content s' b = content s (logb i)))
    (length blocks) s) as (s' & E & Hc' & Hl' & Hi' & Hh' & Hct & Hlog).
  - intros k s1 Hk (Hc1 & Hl1 & Hi1 & Hh1 & Hct1 & Hlog1).
    pose proof (lh_at_is _ k Hl Hk) as Hb. pose proof (logb_eq (log s) k Hst Hk) as Ex.
    assert (HbB : lh_at (log s) k ∈ blocks) by (by apply (list_elem_of_lookup_2 _ k)).
    assert (HxB : logb k ∉ blocks) by (intros Hin; by apply (logb_not_home k (logb k))).
    destruct (install_one_ok p pid (pins_after recovering k) (pins_after recovering (S k)) s1 k
      recovering) as (s2 & E2 & Hc2 & Hct2 & Hh2 & Hf2); rewrite ?Hl1, ?Ex in *; try done.
    + by apply logb_not_home.
    + destruct recovering; simpl; [apply not_elem_of_nil|]. intros Hin. apply HxB.
      rewrite <- (take_drop k blocks), elem_of_app. by right.
    + destruct recovering; [done|]. simpl. rewrite (drop_S _ _ _ Hb). split; [done|].
      rewrite <- (drop_S _ _ _ Hb), length_drop. pose proof blocks_lt_NBUF. lia.
    + exists s2. split_and!; [done | done | | | | |].
      * by rewrite (fs_frame_log _ _ Hf2), Hl1.
      * by rewrite (fs_frame_img _ _ Hf2), Hi1.
      * rewrite Hh2, Hh1. rewrite (take_S_r _ _ (lh_at (log s) k, content s (logb k))).
        -- rewrite reverse_app. simpl. by rewrite (Hct1 (logb k)).
        -- unfold home_writes. by rewrite list_lookup_imap, Hb.
      * intros b Hb'. rewrite Hct2, decide_False by congruence. by apply Hct1.
      * intros i b Hik Hib. rewrite Hct2. destruct (decide (b = lh_at (log s) k)) as [->|Nik].
        -- rewrite (Hct1 (logb k)) by done. do 2 f_equal. symmetry.
           by apply (NoDup_lookup blocks i k (lh_at (log s) k)).
        -- apply Hlog1; [|done]. destruct (decide (i = k)) as [->|]; [congruence | lia].
  - split_and!; try done. lia.
  - exists s'. split_and!; try done.
    + destruct recovering; simpl in Hc'; [done|]. by rewrite drop_all in Hc'.
    + rewrite Hh', take_ge; [done|]. unfold home_writes. by rewrite length_imap.
    + intros i b Hib. apply Hlog; [|done]. by apply (lookup_lt_Some _ _ _ Hib).
Qed.

Lemma start_not_home : start ∉ blocks.
Proof. intros Hin. apply (Hhome _ Hin). unfold LOGBLOCKS, MAXOPBLOCKS. lia. Qed.

(** The log area of the disk. *)
Definition in_log (b : Z) : Prop := start <= b <= start + LOGBLOCKS.

(** commit() writes the log blocks, the header, the home blocks, and the header
    again, cleared. *)
Lemma commit_ok s :
  cache p pid blocks [] s → log_is (log s) → blocks ≠ [] →
  (4 + 4 * Z.to_nat LOGBLOCKS <= length (content s start))%nat →
  ∃ s' hd1 hd0, commit s = Ok tt s' ∧ cache p pid [] [] s' ∧ disk_img s' = disk_img s
    ∧ disk_hist s' = (start, hd0) :: reverse (imap (λ _ b, (b, content s b)) blocks)
        ++ (start, hd1) :: reverse (log_writes (content s)) ++ disk_hist s
    ∧ hdr_n hd1 = Z.of_nat (length blocks) ∧ hdr_blocks hd1 = blocks ∧ hdr_n hd0 = 0
    ∧ (∀ b, ¬ in_log b → content s' b = content s b)
    ∧ length hd1 = length (content s start) ∧ length hd0 = length (content s start)
    ∧ lh_n (log s') = 0.
Proof.
  intros Hc Hl Hne Hhd. pose proof Hl as (Hst & Hdev & Hn & Hbl). unfold commit. kstep.
  assert (Hpos : (0 < length blocks)%nat) by (destruct blocks; [done | simpl; lia]).
  destruct (0 <? lh_n (log s)) eqn:E0; [|lia].
  destruct (write_log_ok s Hc Hl) as (s1 & E1 & Hc1 & Hl1 & Hi1 & Hh1 & Hct1 & Hlog1).
  rewrite (bind_Ok _ _ _ _ _ E1).
  assert (Hcs : content s1 start = content s start) by (apply Hct1; lia).
  destruct (write_head_ok p pid blocks s1 Hc1) as (s2 & E2 & Hc2 & Hct2 & Hh2 & Hf2);
    rewrite ?Hl1, ?Hst in *; try done; [apply start_not_home|].
  rewrite (bind_Ok _ _ _ _ _ E2). set (hd1 := header_data (log s) (content s1 start)) in *.
  destruct (header_roundtrip (log s) (content s1 start)) as [Hn1 Hb1];
    [lia | by rewrite Hcs |]. fold hd1 in Hn1, Hb1.
  assert (Hl2 : log s2 = log s) by (by rewrite (fs_frame_log _ _ Hf2)).
  destruct (install_trans_ok s2 false) as (s3 & E3 & Hc3 & Hl3 & Hi3 & Hh3 & Hct3 & Hlog3);
    [done | by rewrite Hl2 |]. rewrite (bind_Ok _ _ _ _ _ E3). kstep.
  set (s4 := upd_log (set_lh_n 0) s3).
  assert (Hc4 : cache p pid [] [] s4) by (by apply (cache_log _ _ _ _ s3)).
  assert (Hl4 : log s4 = set_lh_n 0 (log s)) by (unfold s4; simpl; by rewrite Hl3, Hl2).
  destruct (write_head_ok p pid [] s4 Hc4) as (s5 & E5 & Hc5 & Hct5 & Hh5 & Hf5).
  { by rewrite Hl4. } { apply not_elem_of_nil. } { unfold NBUF. simpl. lia. }
  rewrite Hl4 in Hct5, Hh5. simpl l_start in Hct5, Hh5. rewrite Hst in Hct5, Hh5.
  set (hd0 := header_data (set_lh_n 0 (log s)) (content s4 start)) in *.
  assert (Hc3s : content s4 start = hd1).
  { change (content s4 start) with (content s3 start). rewrite Hct3 by apply start_not_home.
    by rewrite Hct2, decide_True. }
  assert (Hlen1 : length hd1 = length (content s start)).
  { unfold hd1. rewrite length_header_data; rewrite Hcs; [done | lia]. }
  assert (Hhd0 : hdr_n hd0 = 0).
  { unfold hd0. rewrite Hc3s. apply header_roundtrip; [simpl; unfold LOGBLOCKS, MAXOPBLOCKS; lia|].
    by rewrite Hlen1. }
  assert (Hlen0 : length hd0 = length (content s start)).
  { unfold hd0. rewrite length_header_data, Hc3s; [done|]. rewrite Hc3s. simpl. lia. }
  assert (Hlogc : ∀ i b, blocks !! i = Some b → content s2 (logb i) = content s b).
  { intros i b Hib. rewrite Hct2, decide_False by (unfold logb; lia). by apply Hlog1. }
  exists s5, hd1, hd0. split_and!; try done.
  - rewrite (fs_frame_img _ _ Hf5). change (disk_img s4) with (disk_img s3).
    by rewrite Hi3, (fs_frame_img _ _ Hf2), Hi1.
  - rewrite Hh5. change (disk_hist s4) with (disk_hist s3). rewrite Hh3, Hh2, Hh1.
    do 3 f_equal. unfold home_writes. apply imap_ext. intros i b Hib. by rewrite (Hlogc i b).
  - by rewrite Hn1.
  - rewrite Hb1, Hn, Nat2Z.id. done.
  - intros b Hb. rewrite Hct5, decide_False by (intros ->; apply Hb; unfold in_log; lia).
    change (content s4 b) with (content s3 b).
    destruct (decide (b ∈ blocks)) as [[i Hi]%list_elem_of_lookup|Hnb].
    + rewrite (Hlog3 i b Hi). by apply Hlogc.
    + rewrite Hct3, Hct2, decide_False by (done || intros ->; apply Hb; unfold in_log; lia).
      apply Hct1. unfold in_log in Hb. lia.
  - by rewrite (fs_frame_log _ _ Hf5), Hl4.
Qed.

(** Recovery, from a disk whose header describes [blocks], writes the logged
    blocks home and clears the header. *)
Lemma recover_ok r :
  cache p pid [] [] r → l_start (log r) = start → l_dev (log r) = ROOTDEV →
  length (lh_block (log r)) = Z.to_nat LOGBLOCKS →
  hdr_n (disk_read r start) = Z.of_nat (length blocks) →
  hdr_blocks (disk_read r start) = blocks →
  (4 + 4 * Z.to_nat LOGBLOCKS <= length (disk_read r start))%nat →
  ∃ r' hd0, recover_from_log r = Ok tt r' ∧ cache p pid [] [] r' ∧ disk_img r' = disk_img r
    ∧ disk_hist r' = (start, hd0) :: reverse (home_writes (disk_read r)) ++ disk_hist r
    ∧ hdr_n hd0 = 0 ∧ length hd0 = length (disk_read r start).
Proof.
  intros Hc Hst Hdev Hlh Hn Hbl Hlen.
  assert (Hcl : ∀ b, content r b = disk_read r b).
  { intros b. apply (content_clean p pid [] []); [done | apply not_elem_of_nil |].
    by intros ? ?%elem_of_nil. }
  unfold recover_from_log.
  destruct (read_head_ok p pid r Hc) as (r1 & E1 & Hc1 & Hct1 & Hh1 & Hi1 & Hst1 & Hdev1 & Hn1 & Hb1);
    rewrite ?Hst, ?Hcl in *; try done.
  { rewrite Hn. unfold LOGBLOCKS, MAXOPBLOCKS in *. lia. }
  rewrite (bind_Ok _ _ _ _ _ E1).
  assert (Hl1 : log_is (log r1)).
  { rewrite Hn, Nat2Z.id, Hbl in Hb1. rewrite Hn in Hn1. by split_and!. }
  destruct (install_trans_ok r1 true Hc1 Hl1) as (r2 & E2 & Hc2 & Hl2 & Hi2 & Hh2 & Hct2 & _).
  rewrite (bind_Ok _ _ _ _ _ E2). kstep. set (r3 := upd_log (set_lh_n 0) r2).
  assert (Hc3 : cache p pid [] [] r3) by (by apply (cache_log _ _ _ _ r2)).
  assert (Hl3 : log r3 = set_lh_n 0 (log r1)) by (unfold r3; simpl; by rewrite Hl2).
  destruct (write_head_ok p pid [] r3 Hc3) as (r4 & E4 & Hc4 & _ & Hh4 & Hf4).
  { by rewrite Hl3. } { apply not_elem_of_nil. } { unfold NBUF. simpl. lia. }
  rewrite Hl3 in Hh4. simpl l_start in Hh4. rewrite Hst1 in Hh4.
  set (hd0 := header_data (set_lh_n 0 (log r1)) (content r3 start)) in *.
  assert (Hcs : content r3 start = disk_read r start).
  { change (content r3 start) with (content r2 start). rewrite Hct2 by apply start_not_home.
    by rewrite Hct1, Hcl. }
  exists r4, hd0. split_and!; try done.
  - rewrite (fs_frame_img _ _ Hf4). change (disk_img r3) with (disk_img r2). by rewrite Hi2, Hi1.
  - rewrite Hh4. change (disk_hist r3) with (disk_hist r2). rewrite Hh2, Hh1. do 3 f_equal.
    unfold home_writes. apply imap_ext. intros i b _. by rewrite Hct1, Hcl.
  - unfold hd0. rewrite Hcs. apply header_roundtrip; [simpl; unfold LOGBLOCKS, MAXOPBLOCKS; lia | done].
  - unfold hd0. rewrite length_header_data; rewrite Hcs; [done | simpl; lia].
Qed.
End transaction.

(** ** The disk after a prefix of the writes *)

Lemma hist_read_app img h1 h2 b :
  hist_read img (h1 ++ h2) b = hist_read (hist_read img h2) h1 b.
Proof. induction h1 as [|[b' d] h1 IH]; simpl; [done|]. by destruct (b =? b'). Qed.

Lemma hist_read_notin img h b : b ∉ h.*1 → hist_read img h b = img b.
Proof.
  induction h as [|[b' d] h IH]; simpl; [done|]. intros [Hne Hn]%not_elem_of_cons.
  apply Z.eqb_neq in Hne. by rewrite Hne, IH.
Qed.

Lemma hist_read_in img h b d : NoDup h.*1 → (b, d) ∈ h → hist_read img h b = d.
Proof.
  induction h as [|[b' d'] h IH]; simpl; [by intros _ ?%elem_of_nil|].
  intros [Hn Hd]%NoDup_cons [E|Hin]%elem_of_cons.
  - injection E as -> ->. by rewrite Z.eqb_refl.
  - assert (Hne : b ≠ b') by (intros ->; apply Hn; by apply (list_elem_of_fmap_2' fst _ (b', d))).
    apply Z.eqb_neq in Hne. rewrite Hne. by apply IH.
Qed.

Lemma fst_imap {A} (f : nat → A → Z * list Z) (g : nat → A → Z) (l : list A) :
  (∀ i x, (f i x).1 = g i x) → (imap f l).*1 = imap g l.
Proof. intros H. rewrite fmap_imap. apply imap_ext. intros i x _. apply H. Qed.

(** A suffix of a reversed list is a reversed prefix. *)
Lemma suffix_reverse {A} (l a b : list A) :
  reverse l = a ++ b → ∃ j, b = reverse (take j l).
Proof.
  intros E. exists (length b). rewrite <- (reverse_involutive l), E, reverse_app.
  rewrite <- (length_reverse b) at 1. by rewrite take_app_length, reverse_involutive.
Qed.

Section prefixes.
Context (start : Z) (blocks : list Z) (c D : Z → list Z).
Context (Hnodup : NoDup blocks).
Context (Hsize : (length blocks < Z.to_nat LOGBLOCKS)%nat).
Context (Hhome : ∀ b, b ∈ blocks → ¬ in_log start b).

Lemma log_prefix j b :
  ¬ (start < b <= start + LOGBLOCKS) →
  hist_read D (reverse (take j (log_writes start blocks c))) b = D b.
Proof.
  intros Hb. apply hist_read_notin. intros Hin. apply Hb.
  apply list_elem_of_fmap in Hin as ([b' d] & -> & Hin).
  rewrite elem_of_reverse in Hin. apply elem_of_take in Hin as (i & Hi & _). unfold log_writes in Hi.
  rewrite list_lookup_imap in Hi. destruct (blocks !! i) as [x|] eqn:Ex; [|done].
  injection Hi as <- <-. apply lookup_lt_Some in Ex. unfold logb, LOGBLOCKS, MAXOPBLOCKS in *.
  simpl. lia.
Qed.

Lemma log_full i b :
  blocks !! i = Some b → hist_read D (reverse (log_writes start blocks c)) (logb start i) = c b.
Proof.
  intros Hi. apply hist_read_in.
  - rewrite fmap_reverse, reverse_Permutation. unfold log_writes.
    rewrite (fst_imap _ (λ i _, logb start i)) by done. apply NoDup_alt. intros i' j' x.
    rewrite !list_lookup_imap. intros Hx Hy.
    destruct (blocks !! i'), (blocks !! j'); try done. injection Hx as <-. injection Hy.
    unfold logb. lia.
  - apply elem_of_reverse, list_elem_of_lookup. exists i. unfold log_writes.
    by rewrite list_lookup_imap, Hi.
Qed.

Lemma home_prefix j (f : nat → Z → list Z) b :
  b ∉ blocks → hist_read D (reverse (take j (imap (λ i b, (b, f i b)) blocks))) b = D b.
Proof.
  intros Hb. apply hist_read_notin. intros Hin. apply Hb.
  apply list_elem_of_fmap in Hin as ([b' d] & -> & Hin).
  rewrite elem_of_reverse in Hin. apply elem_of_take in Hin as (i & Hi & _). rewrite list_lookup_imap in Hi.
  destruct (blocks !! i) as [x|] eqn:Ex; [|done]. injection Hi as <- <-.
  by apply (list_elem_of_lookup_2 _ i).
Qed.

Lemma home_full (f : nat → Z → list Z) i b :
  blocks !! i = Some b → hist_read D (reverse (imap (λ i b, (b, f i b)) blocks)) b = f i b.
Proof.
  intros Hi. apply hist_read_in.
  - rewrite fmap_reverse, reverse_Permutation, (fst_imap _ (λ _ b, b)) by done.
    replace (imap (λ _ b, b) blocks) with blocks; [done|].
    apply list_eq. intros k. rewrite list_lookup_imap. by destruct (blocks !! k).
  - apply elem_of_reverse, list_elem_of_lookup. exists i. by rewrite list_lookup_imap, Hi.
Qed.
End prefixes.

(** ** Properties *)

(** A transaction ready to commit: its blocks are pinned in the cache, the
    in-memory header names them, they lie outside the log area and leave a buffer
    free, and the header on disk is clear. *)
Record txn (p : nat) (pid start : Z) (blocks : list Z) (s : kernel) : Prop := {
  tx_start : 0 <= start ∧ start + LOGBLOCKS < 2 ^ 31;
  tx_nodup : NoDup blocks;
  tx_size : (0 < length blocks < Z.to_nat LOGBLOCKS)%nat;
  tx_home : ∀ b, b ∈ blocks → ¬ in_log start b;
  tx_cache : cache p pid blocks [] s;
  tx_log : log_is start blocks (log s);
  tx_clear : hdr_n (disk_read s start) = 0;
  tx_hdr : length (disk_read s start) = Z.to_nat BSIZE;
}.

(** A kernel that has just booted on the disk [d]: nothing is pinned or held, and
    initlog() has set the place of the log. *)
Record booted (start : Z) (d : Z → list Z) (r : kernel) : Prop := {
  bt_cache : ∃ p pid, cache p pid [] [] r;
  bt_log : l_start (log r) = start ∧ l_dev (log r) = ROOTDEV
           ∧ length (lh_block (log r)) = Z.to_nat LOGBLOCKS;
  bt_disk : ∀ b, disk_read r b = d b;
}.

(** The disk after recovery from the disk [d] whose header lists [blocks]. *)
Lemma recover_disk start blocks d r :
  0 <= start ∧ start + LOGBLOCKS < 2 ^ 31 → NoDup blocks →
  (length blocks < Z.to_nat LOGBLOCKS)%nat → (∀ b, b ∈ blocks → ¬ in_log start b) →
  hdr_n (d start) = Z.of_nat (length blocks) → hdr_blocks (d start) = blocks →
  length (d start) = Z.to_nat BSIZE → booted start d r →
  ∃ r' hd0, recover_from_log r = Ok tt r' ∧ disk_img r' = disk_img r
    ∧ disk_hist r' = (start, hd0) :: reverse (home_writes start blocks d) ++ disk_hist r
    ∧ hdr_n hd0 = 0 ∧ length hd0 = Z.to_nat BSIZE
    ∧ (∀ b, ¬ in_log start b → b ∉ blocks → disk_read r' b = d b)
    ∧ (∀ i b, blocks !! i = Some b → disk_read r' b = d (logb start i)).
Proof.
  intros Hst Hnd Hsz Hhm Hn Hbl Hlen [(p & pid & Hc) (Hs & Hdev & Hlh) Hd].
  destruct (recover_ok p pid start blocks) with (r := r)
    as (r' & hd0 & E & _ & Hi & Hh & Hn0 & Hl0); rewrite ?Hd; try done; try lia.
  { rewrite Hlen. unfold BSIZE, LOGBLOCKS, MAXOPBLOCKS. lia. }
  assert (Eh : home_writes start blocks (disk_read r) = home_writes start blocks d).
  { unfold home_writes. apply imap_ext. intros i b _. by rewrite Hd. }
  rewrite Eh in Hh. exists r', hd0. rewrite Hd in Hl0. split_and!; try done; [congruence | |].
  - intros b Hb Hnb. unfold disk_read. rewrite Hh, Hi. cbn [hist_read].
    destruct (b =? start) eqn:Eb.
    { apply Z.eqb_eq in Eb. subst b. exfalso. apply Hb. unfold in_log, LOGBLOCKS, MAXOPBLOCKS. lia. }
    rewrite hist_read_app. rewrite <- (take_ge (home_writes start blocks d) (length blocks)) by
      (unfold home_writes; by rewrite length_imap). unfold home_writes.
    rewrite (home_prefix blocks _ _ (λ i b, d (logb start i))) by done. apply Hd.
  - intros i b Hib. unfold disk_read. rewrite Hh, Hi. cbn [hist_read].
    destruct (b =? start) eqn:Eb.
    { apply Z.eqb_eq in Eb. subst b. exfalso.
      apply (Hhm start); [by apply (list_elem_of_lookup_2 _ i)|].
      unfold in_log, LOGBLOCKS, MAXOPBLOCKS. lia. }
    rewrite hist_read_app. unfold home_writes. by rewrite (home_full blocks _ Hnd (λ i b, d (logb start i)) i b).
Qed.

(** With a clear header recovery changes nothing outside the log. *)
Lemma recover_clear start d r :
  booted start d r → 0 <= start ∧ start + LOGBLOCKS < 2 ^ 31 → hdr_n (d start) = 0 →
  length (d start) = Z.to_nat BSIZE →
  ∃ r', recover_from_log r = Ok tt r' ∧ ∀ b, ¬ in_log start b → disk_read r' b = d b.
Proof.
  intros Hb Hst Hn Hlen.
  destruct (recover_disk start [] d r Hst) as (r' & _ & E & _ & _ & _ & _ & Hr & _); try done.
  - constructor.
  - simpl. unfold LOGBLOCKS, MAXOPBLOCKS. lia.
  - by intros b ?%elem_of_nil.
  - unfold hdr_blocks. by rewrite Hn.
  - exists r'. split; [done|]. intros b Hnb. apply Hr; [done | apply not_elem_of_nil].
Qed.

(** With a committed transaction in the log, recovery gives its outcome [c]. *)
Lemma recover_committed start blocks c d r :
  booted start d r → 0 <= start ∧ start + LOGBLOCKS < 2 ^ 31 → NoDup blocks →
  (length blocks < Z.to_nat LOGBLOCKS)%nat → (∀ b, b ∈ blocks → ¬ in_log start b) →
  hdr_n (d start) = Z.of_nat (length blocks) → hdr_blocks (d start) = blocks →
  length (d start) = Z.to_nat BSIZE →
  (∀ b, ¬ in_log start b → b ∉ blocks → d b = c b) →
  (∀ i b, blocks !! i = Some b → d (logb start i) = c b) →
  ∃ r', recover_from_log r = Ok tt r' ∧ ∀ b, ¬ in_log start b → disk_read r' b = c b.
Proof.
  intros Hboot Hst Hnd Hsz Hhm Hn Hb Hlen Hout Hin.
  destruct (recover_disk start blocks d r) as (r' & _ & E & _ & _ & _ & _ & Ho & Hi); try done.
  exists r'. split; [done|]. intros b Hnb.
  destruct (decide (b ∈ blocks)) as [[i Hib]%list_elem_of_lookup|Hnin].
  - rewrite (Hi i b Hib). by apply Hin.
  - rewrite Ho by done. by apply Hout.
Qed.

(** The disk at any point of commit(): the log partly written, the header
    written and the home blocks partly written, or all done. *)
Lemma crash_points start blocks c hd0 hd1 (h0 w h : list (Z * list Z)) :
  (start, hd0) :: reverse (imap (λ _ b, (b, c b)) blocks)
     ++ (start, hd1) :: reverse (log_writes start blocks c) ++ h0 = w ++ h →
  h0 `suffix_of` h →
  (w ≠ [] ∧ ∃ j, h = reverse (take j (log_writes start blocks c)) ++ h0)
  ∨ (∃ j, h = reverse (take j (imap (λ _ b, (b, c b)) blocks))
                ++ (start, hd1) :: reverse (log_writes start blocks c) ++ h0)
  ∨ (w = [] ∧ h = (start, hd0) :: reverse (imap (λ _ b, (b, c b)) blocks)
                ++ (start, hd1) :: reverse (log_writes start blocks c) ++ h0).
Proof.
  intros E [x ->]. destruct w as [|y w]; [by right; right|].
  injection E as _ E. apply app_eq_inv in E as [(k & E1 & E2)|(k & E1 & E2)].
  - right. left. apply suffix_reverse in E1 as [j ->]. exists j. congruence.
  - destruct k as [|y' k].
    + right. left. exists 0%nat. simpl in *. by rewrite E2.
    + left. split; [done|]. injection E2 as _ E2. rewrite (assoc_L (++)) in E2. apply app_inv_tail in E2.
      apply suffix_reverse in E2 as [j ->]. by exists j.
Qed.

(** The disk once the copies are in the log and the header names them: outside of the log nothing
    has changed, and the log holds the contents that the transaction gives to its blocks. *)
Lemma committed_image start blocks s hd :
  NoDup blocks → (length blocks < Z.to_nat LOGBLOCKS)%nat →
  let d := hist_read (disk_img s) ((start, hd) :: reverse (log_writes start blocks (content s)) ++ disk_hist s) in
  d start = hd ∧ (∀ b, ¬ in_log start b → d b = disk_read s b)
  ∧ ∀ i b, blocks !! i = Some b → d (logb start i) = content s b.
Proof.
  intros Hnd Hsz d. unfold d. split_and!.
  - simpl. by rewrite Z.eqb_refl.
  - intros b Hb. cbn [hist_read]. unfold in_log in Hb. destruct (b =? start) eqn:Eb.
    + exfalso. apply Hb. unfold LOGBLOCKS, MAXOPBLOCKS. blia.
    + rewrite <- (take_ge (log_writes start blocks (content s)) (length blocks)) by
        (unfold log_writes; by rewrite length_imap). rewrite hist_read_app. apply log_prefix; [done|lia].
  - intros i b Hib. cbn [hist_read]. destruct (logb start i =? start) eqn:Eb.
    + exfalso. unfold logb in Eb. blia.
    + rewrite hist_read_app. by apply log_full.
Qed.

(** C7: commits are atomic and durable across crashes. Let commit() run on a ready
    transaction, and let the machine stop after any number of its block writes.
    Booting on what the disk then holds and running recovery gives a file system in
    which every block outside the log is as before the transaction, or every one is
    as the transaction made it; and the latter once commit() has returned. *)
Theorem commit_crash_atomic p pid start blocks s :
  txn p pid start blocks s →
  ∃ s', commit s = Ok tt s'
    ∧ (∀ b, ¬ in_log start b → content s' b = content s b)
    ∧ ∀ w h r, disk_hist s' = w ++ h → disk_hist s `suffix_of` h →
        booted start (hist_read (disk_img s) h) r →
        ∃ r', recover_from_log r = Ok tt r'
          ∧ ((w ≠ [] ∧ ∀ b, ¬ in_log start b → disk_read r' b = disk_read s b)
             ∨ (∀ b, ¬ in_log start b → disk_read r' b = content s b)).
Proof.
  intros [Hst Hnd [Hpos Hsz] Hhm Hc Hl Hcl Hhd].
  assert (Hclean : ∀ b, b ∉ blocks → content s b = disk_read s b).
  { intros b Hb. apply (content_clean p pid blocks []); try done. by intros ? ?%elem_of_nil. }
  assert (Hsb : start ∉ blocks).
  { intros Hin. apply (Hhm _ Hin). unfold in_log, LOGBLOCKS, MAXOPBLOCKS. lia. }
  destruct (commit_ok p pid start blocks Hst Hnd Hsz Hhm s Hc Hl)
    as (s' & hd1 & hd0 & E & _ & Hi & Hh & Hn1 & Hb1 & Hn0 & Hct & Hl1 & Hl0 & _).
  { intros ->. simpl in Hpos. lia. }
  { rewrite Hclean, Hhd by done. unfold BSIZE, LOGBLOCKS, MAXOPBLOCKS. lia. }
  rewrite Hclean, Hhd in Hl1, Hl0 by done.
  exists s'. split_and!; [done | done |]. intros w h r Ew Hsuf Hboot. rewrite Hh in Ew.
  assert (Hlog : ∀ j b, ¬ (start < b <= start + LOGBLOCKS) → hist_read (disk_img s)
    (reverse (take j (log_writes start blocks (content s))) ++ disk_hist s) b = disk_read s b).
  { intros j b Hb. rewrite hist_read_app. by apply log_prefix. }
  set (d1 := hist_read (disk_img s) ((start, hd1) :: reverse (log_writes start blocks (content s))
                                      ++ disk_hist s)).
  destruct (committed_image start blocks s hd1 Hnd Hsz) as (Hd1 & Hd1out & Hd1log). fold d1 in Hd1, Hd1out, Hd1log.
  apply crash_points in Ew as [[Hw [j ->]]|[[j ->]|[-> ->]]]; [| | |done].
  - destruct (recover_clear start _ r Hboot Hst) as (r' & Er & Hr);
      [by rewrite Hlog by lia..|]. exists r'. split; [done|]. left. split; [done|]. intros b Hb.
    rewrite Hr by done. apply Hlog. unfold in_log in Hb. lia.
  - assert (Hdh : ∀ b, b ∉ blocks → hist_read (disk_img s)
      (reverse (take j (imap (λ _ b, (b, content s b)) blocks)) ++ (start, hd1)
        :: reverse (log_writes start blocks (content s)) ++ disk_hist s) b = d1 b).
    { intros b Hb. rewrite hist_read_app. by apply (home_prefix blocks d1 j (λ _ b, content s b)). }
    destruct (recover_committed start blocks (content s) _ r Hboot Hst Hnd Hsz Hhm)
      as (r' & Er & Hr); rewrite ?Hdh, ?Hd1 by done; try done.
    + intros b Hb Hnb. rewrite Hdh, Hd1out, Hclean by done. done.
    + intros i b Hib. rewrite Hdh; [by apply Hd1log|]. intros Hin. apply (Hhm _ Hin).
      apply lookup_lt_Some in Hib. unfold in_log, logb, LOGBLOCKS, MAXOPBLOCKS in *. lia.
    + exists r'. split; [done | by right].
  - destruct (recover_clear start _ r Hboot Hst) as (r' & Er & Hr);
      [simpl; by rewrite Z.eqb_refl..|]. exists r'. split; [done|]. right. intros b Hb.
    rewrite Hr by done. cbn [hist_read]. destruct (b =? start) eqn:Eb.
    { exfalso. apply Hb. unfold in_log, LOGBLOCKS, MAXOPBLOCKS. blia. }
    rewrite hist_read_app. destruct (decide (b ∈ blocks)) as [[i Hib]%list_elem_of_lookup|Hnb].
    + by apply (home_full blocks _ Hnd (λ _ b, content s b) i b).
    + rewrite <- (take_ge (imap (λ _ b, (b, content s b)) blocks) (length blocks)) by
        (by rewrite length_imap). rewrite (home_prefix blocks _ _ (λ _ b, content s b)) by done.
      fold d1. rewrite Hd1out, Hclean by done. done.
Qed.

(** C8: recovery may itself be interrupted. Stop it after any number of its block
    writes, boot again and recover: every block outside the log ends up as the
    uninterrupted recovery leaves it. *)
Theorem recovery_crash_safe start blocks d r :
  0 <= start ∧ start + LOGBLOCKS < 2 ^ 31 → NoDup blocks →
  (length blocks < Z.to_nat LOGBLOCKS)%nat → (∀ b, b ∈ blocks → ¬ in_log start b) →
  hdr_n (d start) = Z.of_nat (length blocks) → hdr_blocks (d start) = blocks →
  length (d start) = Z.to_nat BSIZE → booted start d r →
  ∃ r', recover_from_log r = Ok tt r'
    ∧ ∀ w h r2, disk_hist r' = w ++ h → disk_hist r `suffix_of` h →
        booted start (hist_read (disk_img r) h) r2 →
        ∃ r2', recover_from_log r2 = Ok tt r2'
          ∧ ∀ b, ¬ in_log start b → disk_read r2' b = disk_read r' b.
Proof.
  intros Hst Hnd Hsz Hhm Hn Hbl Hlen Hb.
  destruct (recover_disk start blocks d r) as (r' & hd0 & E & Hi & Hh & Hn0 & Hl0 & Hout & Hin); try done.
  exists r'. split; [done|]. intros w h r2 Ew Hsuf Hb2. rewrite Hh in Ew.
  assert (Hdisk : ∀ b, hist_read (disk_img r) (disk_hist r) b = d b) by apply Hb.
  destruct w as [|y w].
  - destruct (recover_clear start _ r2 Hb2 Hst) as (r2' & E2 & H2).
    { simpl in Ew. rewrite <- Ew. simpl. by rewrite Z.eqb_refl. }
    { simpl in Ew. rewrite <- Ew. simpl. by rewrite Z.eqb_refl. }
    exists r2'. split; [done|]. intros b Hnb. rewrite H2 by done. unfold disk_read.
    rewrite Hi, Hh. simpl in Ew. by rewrite Ew.
  - injection Ew as _ Ew. destruct Hsuf as [x ->]. rewrite (assoc_L (++)) in Ew.
    apply app_inv_tail in Ew. apply suffix_reverse in Ew as [j ->]. unfold home_writes in Hb2.
    assert (Hd : ∀ b, b ∉ blocks → hist_read (disk_img r)
      (reverse (take j (imap (λ i b, (b, d (logb start i))) blocks)) ++ disk_hist r) b = d b).
    { intros b Hnb. rewrite hist_read_app. rewrite <- Hdisk.
      by apply (home_prefix blocks _ j (λ i _, d (logb start i))). }
    assert (Hsb : start ∉ blocks).
    { intros Hs. apply (Hhm _ Hs). unfold in_log, LOGBLOCKS, MAXOPBLOCKS. lia. }
    destruct (recover_committed start blocks (disk_read r') _ r2 Hb2 Hst Hnd Hsz Hhm)
      as (r2' & E2 & H2); rewrite ?Hd by done; try done.
    + intros b Hnb Hnin. rewrite Hd by done. symmetry. by apply Hout.
    + intros i b Hib. rewrite (Hin i b Hib). apply Hd. intros Hs. apply (Hhm _ Hs).
      apply lookup_lt_Some in Hib. unfold in_log, logb, LOGBLOCKS, MAXOPBLOCKS in *. lia.
    + by exists r2'.
Qed.

(** ** A concrete transaction

    One process, one pinned block (number 45), the log at block 2. *)
Definition zero_block : list Z := replicate (Z.to_nat BSIZE) 0.
Definition demo_bufs (blocks : list Z) : list buf :=
  ((λ b, Buf true false ROOTDEV b 1 (replicate (Z.to_nat BSIZE) 7)) <$> blocks)
  ++ replicate (NBUF - length blocks) null_buf.
Definition demo_log (blocks : list Z) : log_t :=
  Log 2 1 true ROOTDEV 0 (Z.of_nat (length blocks))
    (blocks ++ replicate (Z.to_nat LOGBLOCKS - length blocks) 0).
Definition demo_fs (img : Z → list Z) (blocks : list Z) : kernel :=
  set_log (demo_log blocks) (set_bufs (demo_bufs blocks) (set_lru (seq 0 NBUF)
    (set_disk_img img (demo (Some 0%nat) RUNNING SLEEPING)))).

Lemma demo_buf_at img blocks i :
  (length blocks <= NBUF)%nat → (i < NBUF)%nat →
  buf_at (demo_fs img blocks) i
  = match blocks !! i with
    | Some b => Buf true false ROOTDEV b 1 (replicate (Z.to_nat BSIZE) 7)
    | None => null_buf
    end.
Proof.
  intros Hb Hi. unfold buf_at, demo_fs, demo_bufs. cbn [bufs set_log set_bufs].
  destruct (blocks !! i) as [b|] eqn:E.
  - rewrite lookup_app_l by (rewrite length_fmap; by apply lookup_lt_Some in E).
    by rewrite list_lookup_fmap, E.
  - apply lookup_ge_None in E. rewrite lookup_app_r by (by rewrite length_fmap).
    rewrite length_fmap. by rewrite lookup_replicate_2 by lia.
Qed.

Lemma demo_cache img blocks :
  (length blocks <= NBUF)%nat → NoDup blocks → cache 0 1 blocks [] (demo_fs img blocks).
Proof.
  intros Hb Hnd. assert (Hat := demo_buf_at img blocks). split.
  - split; [split; simpl; lia | done | done | vm_compute; lia].
  - done.
  - unfold demo_fs, demo_bufs. cbn [bufs set_log set_bufs].
    rewrite length_app, length_fmap, length_replicate. lia.
  - done.
  - intros i Hi. rewrite Hat by done. destruct (blocks !! i); auto.
  - intros b i j [Hi Hbi] [Hj Hbj]. rewrite Hat in Hbi, Hbj by done.
    destruct (blocks !! i) eqn:Ei, (blocks !! j) eqn:Ej; try done.
    apply is_block_spec in Hbi as [_ Hbi], Hbj as [_ Hbj]. simpl in *. subst.
    by apply (NoDup_lookup blocks i j b).
  - intros i Hi. rewrite Hat by done. unfold bit_of.
    rewrite (decide_False (P := i ∈ [])) by apply not_elem_of_nil.
    destruct (blocks !! i) eqn:Ei.
    + rewrite decide_True; [done|]. split; [done|]. by apply (list_elem_of_lookup_2 _ i).
    + rewrite decide_False; [done|]. by intros [? _].
  - intros i Hi. rewrite Hat by done. by destruct (blocks !! i).
  - intros b [i Hi]%list_elem_of_lookup. exists i. pose proof (lookup_lt_Some _ _ _ Hi).
    split; [lia|]. rewrite Hat, Hi by lia. by apply is_block_spec.
  - split; [done | constructor].
  - by intros i ?%elem_of_nil.
  - intros i. rewrite decide_False by apply not_elem_of_nil. done.
  - intros i Hi _. rewrite Hat by done. destruct (blocks !! i) eqn:Ei; [|done].
    intros _ Hn. destruct Hn. by apply (list_elem_of_lookup_2 _ i).
Qed.

Lemma commit_crash_atomic_witness :
  ∃ s', commit (demo_fs (λ _, zero_block) [45]) = Ok tt s'
        ∧ (∀ b, ¬ in_log 2 b → content s' b = content (demo_fs (λ _, zero_block) [45]) b).
Proof.
  destruct (commit_crash_atomic 0 1 2 [45] (demo_fs (λ _, zero_block) [45])) as (s' & E & Hc & _).
  - split.
    + vm_compute. split; congruence.
    + repeat constructor. by intros ?%elem_of_nil.
    + vm_compute. lia.
    + intros b ->%list_elem_of_singleton. unfold in_log, LOGBLOCKS, MAXOPBLOCKS. lia.
    + apply demo_cache; [vm_compute; lia|]. repeat constructor. by intros ?%elem_of_nil.
    + split_and!; reflexivity.
    + vm_compute. reflexivity.
    + reflexivity.
  - exists s'. split; [exact E | exact Hc].
Defined.

(** A disk whose log holds a committed transaction on block 45. *)
Definition demo_disk (b : Z) : list Z :=
  if b =? 2 then header_data (demo_log [45]) zero_block else zero_block.

Lemma recovery_crash_safe_witness :
  hdr_blocks (demo_disk 2) = [45] ∧
  ∃ r', recover_from_log (demo_fs demo_disk []) = Ok tt r'.
Proof.
  split; [vm_compute; reflexivity|].
  destruct (recovery_crash_safe 2 [45] demo_disk (demo_fs demo_disk [])) as (r' & E & _).
  - vm_compute. split; congruence.
  - repeat constructor. by intros ?%elem_of_nil.
  - vm_compute. lia.
  - intros b ->%list_elem_of_singleton. unfold in_log, LOGBLOCKS, MAXOPBLOCKS. lia.
  - vm_compute. reflexivity.
  - vm_compute. reflexivity.
  - vm_compute. reflexivity.
  - split.
    + exists 0%nat, 1. apply demo_cache; [vm_compute; lia | constructor].
    + split_and!; reflexivity.
    + reflexivity.
  - exists r'. exact E.
Defined.
