(* ===== verification/Fs.v ===== *)
(** The file system proper: kernel/fs.c on top of the log.

    A [struct inode *] is an index into [itable]; the null pointer, where the code
    tests for it, is [None]. A [struct dirent] is its 16 bytes, a path is the list of
    its characters before the NUL, and a [char name[DIRSIZ]] its 14 bytes. readi()
    also returns the bytes it has copied, for destinations that are variables of the
    caller. *)
From S2P Require Import Prelude Pstat Kernel Spinlock Sched Cstring Riscv Kalloc Vm ProcMem Sleeplock Uart Bio Log.

(** ** The format of the disk *)

Definition ROOTINO : Z := 1.
Definition FSMAGIC : Z := 0x10203040.
Definition NDIRECT : nat := 12.
Definition NINDIRECT : Z := BSIZE / 4.
Definition MAXFILE : Z := Z.of_nat NDIRECT + NINDIRECT.
Definition IPB : Z := BSIZE / 64.
Definition IBLOCK (i : Z) (sb : superblock) : Z := u32 (i / IPB + sb_inodestart sb).
Definition BPB : Z := BSIZE * 8.
Definition BBLOCK (b : Z) (sb : superblock) : Z := u32 (b / BPB + sb_bmapstart sb).
Definition DIRSIZ : nat := 14.
Definition DIRENT : Z := 16. (* sizeof(struct dirent) *)
Definition T_DIR : Z := 1.
Definition T_FILE : Z := 2.
Definition T_DEVICE : Z := 3.

(** [short]s in a block. *)
Definition i16 (x : Z) : Z := (x + 2 ^ 15) mod 2 ^ 16 - 2 ^ 15.
Definition get16 (d : list Z) (off : nat) : Z :=
  default 0 (d !! off) + 2 ^ 8 * default 0 (d !! (off + 1)%nat).
Definition put16 (d : list Z) (off : nat) (v : Z) : list Z :=
  <[off := u8 v]> (<[(off + 1)%nat := u8 (v / 2 ^ 8)]> d).

(** [struct dinode]: 64 bytes. *)
Record dinode := Dinode {
  d_type : Z;
  d_major : Z;
  d_minor : Z;
  d_nlink : Z;
  d_size : Z;
  d_addrs : list Z;
}.
Definition read_dinode (d : list Z) (off : nat) : dinode :=
  {| d_type := i16 (get16 d off); d_major := i16 (get16 d (off + 2));
     d_minor := i16 (get16 d (off + 4)); d_nlink := i16 (get16 d (off + 6));
     d_size := get32 d (off + 8);
     d_addrs := (λ i, get32 d (off + 12 + 4 * i)) <$> seq 0 (NDIRECT + 1) |}.
Definition write_dinode (d : list Z) (off : nat) (di : dinode) : list Z :=
  foldl (λ d i, put32 d (off + 12 + 4 * i) (default 0 (d_addrs di !! i)))
    (put32 (put16 (put16 (put16 (put16 d off (d_type di)) (off + 2) (d_major di))
      (off + 4) (d_minor di)) (off + 6) (d_nlink di)) (off + 8) (d_size di))
    (seq 0 (NDIRECT + 1)).
(** [(struct dinode * )bp->data + inum % IPB] *)
Definition dinode_off (inum : Z) : nat := Z.to_nat (64 * (inum mod IPB)).

Definition read_superblock (d : list Z) : superblock :=
  Superblock (get32 d 0) (get32 d 4) (get32 d 8) (get32 d 12) (get32 d 16) (get32 d 20)
    (get32 d 24) (get32 d 28).

(** ** Blocks *)

Section fs.
Context {img : Image}.

Definition readsb (dev : Z) : K unit :=
  bp <- bread dev 1 ;;
  d <- get_data bp ;;
  modify (set_sb (read_superblock d)) ;;
  brelse bp.

Definition bzero (dev bno : Z) : K unit :=
  bp <- bread dev (u32 bno) ;;
  set_data bp (replicate (Z.to_nat BSIZE) 0) ;;
  log_write bp ;;
  brelse bp.

(** The byte of the bitmap with bit [bi], and the mask of the bit. *)
Definition bit_byte (d : list Z) (bi : Z) : Z := default 0 (d !! Z.to_nat (bi / 8)).
Definition bit_mask (bi : Z) : Z := Z.shiftl 1 (bi mod 8).
Definition bit_free (d : list Z) (bi : Z) : bool := Z.land (bit_byte d bi) (bit_mask bi) =? 0.
Definition bit_set (d : list Z) (bi : Z) : list Z :=
  <[Z.to_nat (bi / 8) := u8 (Z.lor (bit_byte d bi) (bit_mask bi))]> d.
Definition bit_clear (d : list Z) (bi : Z) : list Z :=
  <[Z.to_nat (bi / 8) := u8 (Z.land (bit_byte d bi) (Z.lnot (bit_mask bi)))]> d.

(** The inner loop of balloc(): the first free bit of a bitmap block. *)
Definition free_bit (d : list Z) (n : Z) : option Z :=
  List.find (bit_free d) (Z.of_nat <$> seq 0 (Z.to_nat n)).
(** One round of the outer loop, for the blocks from [b] on. *)
Definition balloc_round (dev b : Z) : K (option Z) :=
  sb <- get sb ;;
  bp <- bread dev (BBLOCK b sb) ;;
  d <- get_data bp ;;
  match free_bit d (Z.min BPB (sb_size sb - b)) with
  | Some bi =>
      set_data bp (bit_set d bi) ;;
      log_write bp ;;
      brelse bp ;;
      bzero dev (b + bi) ;;
      ret (Some (b + bi))
  | None => brelse bp ;; ret None
  end.
Definition balloc (dev : Z) : K Z :=
  n <- get (λ s, (sb_size (sb s) + BPB - 1) / BPB) ;;
  r <- for_find (seq 0 (Z.to_nat n)) (λ k, balloc_round dev (BPB * Z.of_nat k)) ;;
  match r with
  | Some b => ret b
  | None => printk ("balloc: out of blocks" +:+ newline) [] ;; ret 0
  end.

Definition bfree (dev b : Z) : K unit :=
  sb <- get sb ;;
  bp <- bread dev (BBLOCK b sb) ;;
  let bi := b mod BPB in
  d <- get_data bp ;;
  if bit_free d bi then panic "freeing free block" else
  set_data bp (bit_clear d bi) ;;
  log_write bp ;;
  brelse bp.

(** ** Inodes *)

Definition null_inode : inode := Inode 0 0 0 false 0 0 0 0 0 (replicate (NDIRECT + 1) 0).
Definition inode_at (s : kernel) (i : nat) : inode := default null_inode (itable s !! i).
Definition upd_inode (i : nat) (f : inode → inode) (s : kernel) : kernel :=
  set_itable (alter f i (itable s)) s.

Definition iinit : K unit :=
  initlock L_itable ;;
  for_each (seq 0 NINODE) (λ i, initsleeplock (SL_inode i)).

(** The two searches of iget(). *)
Definition is_inode (dev inum : Z) (ip : inode) : bool :=
  (0 <? i_ref ip) && (i_dev ip =? dev) && (i_inum ip =? inum).
Definition iget (dev inum : Z) : K nat :=
  acquire L_itable ;;
  o <- get (λ s, List.find (λ i, is_inode dev inum (inode_at s i)) (seq 0 NINODE)) ;;
  match o with
  | Some i =>
      modify (upd_inode i (λ ip, set_i_ref (i_ref ip + 1) ip)) ;;
      release L_itable ;;
      ret i
  | None =>
      o <- get (λ s, List.find (λ i, i_ref (inode_at s i) =? 0) (seq 0 NINODE)) ;;
      match o with
      | None => panic "iget: no inodes"
      | Some i =>
          modify (upd_inode i (λ ip,
            set_i_valid false (set_i_ref 1 (set_i_inum inum (set_i_dev dev ip))))) ;;
          release L_itable ;;
          ret i
      end
  end.

Definition ialloc_round (dev type inum : Z) : K (option nat) :=
  sb <- get sb ;;
  bp <- bread dev (IBLOCK inum sb) ;;
  d <- get_data bp ;;
  let off := dinode_off inum in
  if d_type (read_dinode d off) =? 0 then
    set_data bp (put16 (put_at off (replicate 64 0) d) off type) ;;
    log_write bp ;;
    brelse bp ;;
    i <- iget dev inum ;;
    ret (Some i)
  else brelse bp ;; ret None.
Definition ialloc (dev type : Z) : K (option nat) :=
  n <- get (λ s, sb_ninodes (sb s)) ;;
  r <- for_find (seq 1 (Z.to_nat (n - 1))) (λ k, ialloc_round dev type (Z.of_nat k)) ;;
  match r with
  | Some i => ret (Some i)
  | None => printk ("ialloc: no inodes" +:+ newline) [] ;; ret None
  end.

Definition iupdate (i : nat) : K unit :=
  ip <- get (λ s, inode_at s i) ;;
  sb <- get sb ;;
  bp <- bread (i_dev ip) (IBLOCK (i_inum ip) sb) ;;
  d <- get_data bp ;;
  set_data bp (write_dinode d (dinode_off (i_inum ip))
    (Dinode (i_type ip) (i_major ip) (i_minor ip) (i_nlink ip) (i_size ip) (i_addrs ip))) ;;
  log_write bp ;;
  brelse bp.

Definition idup (i : nat) : K nat :=
  acquire L_itable ;;
  modify (upd_inode i (λ ip, set_i_ref (i_ref ip + 1) ip)) ;;
  release L_itable ;;
  ret i.

Definition from_dinode (di : dinode) (ip : inode) : inode :=
  Inode (i_dev ip) (i_inum ip) (i_ref ip) (i_valid ip) (d_type di) (d_major di) (d_minor di)
    (d_nlink di) (d_size di) (d_addrs di).
Definition ilock (ip : option nat) : K unit :=
  match ip with
  | None => panic "ilock"
  | Some i =>
      r <- get (λ s, i_ref (inode_at s i)) ;;
      if r <? 1 then panic "ilock" else
      acquiresleep (SL_inode i) ;;
      ip <- get (λ s, inode_at s i) ;;
      when (negb (i_valid ip))
        (sb <- get sb ;;
         bp <- bread (i_dev ip) (IBLOCK (i_inum ip) sb) ;;
         d <- get_data bp ;;
         modify (upd_inode i (from_dinode (read_dinode d (dinode_off (i_inum ip))))) ;;
         brelse bp ;;
         modify (upd_inode i (set_i_valid true)) ;;
         t <- get (λ s, i_type (inode_at s i)) ;;
         when (t =? 0) (panic "ilock: no type"))
  end.

Definition iunlock (ip : option nat) : K unit :=
  match ip with
  | None => panic "iunlock"
  | Some i =>
      h <- holdingsleep (SL_inode i) ;;
      r <- get (λ s, i_ref (inode_at s i)) ;;
      if negb h || (r <? 1) then panic "iunlock" else
      releasesleep (SL_inode i)
  end.

(** [if(a) bfree(dev, a);] *)
Definition bfree_nonzero (dev a : Z) : K unit := when (negb (a =? 0)) (bfree dev a).

Definition addr_at (ip : inode) (n : nat) : Z := default 0 (i_addrs ip !! n).
Definition set_addr (n : nat) (a : Z) (ip : inode) : inode := set_i_addrs (<[n := a]> (i_addrs ip)) ip.

Definition itrunc (i : nat) : K unit :=
  for_each (seq 0 NDIRECT) (λ k,
    ip <- get (λ s, inode_at s i) ;;
    when (negb (addr_at ip k =? 0))
      (bfree (i_dev ip) (addr_at ip k) ;;
       modify (upd_inode i (set_addr k 0)))) ;;
  ip <- get (λ s, inode_at s i) ;;
  when (negb (addr_at ip NDIRECT =? 0))
    (bp <- bread (i_dev ip) (addr_at ip NDIRECT) ;;
     for_each (seq 0 (Z.to_nat NINDIRECT)) (λ j,
       d <- get_data bp ;;
       bfree_nonzero (i_dev ip) (get32 d (4 * j))) ;;
     brelse bp ;;
     bfree (i_dev ip) (addr_at ip NDIRECT) ;;
     modify (upd_inode i (set_addr NDIRECT 0))) ;;
  modify (upd_inode i (set_i_size 0)) ;;
  iupdate i.

Definition iput (i : nat) : K unit :=
  acquire L_itable ;;
  ip <- get (λ s, inode_at s i) ;;
  when ((i_ref ip =? 1) && i_valid ip && (i_nlink ip =? 0))
    (acquiresleep (SL_inode i) ;;
     release L_itable ;;
     itrunc i ;;
     modify (upd_inode i (set_i_type 0)) ;;
     iupdate i ;;
     modify (upd_inode i (set_i_valid false)) ;;
     releasesleep (SL_inode i) ;;
     acquire L_itable) ;;
  modify (upd_inode i (λ ip, set_i_ref (i_ref ip - 1) ip)) ;;
  release L_itable.

Definition iunlockput (ip : nat) : K unit :=
  iunlock (Some ip) ;;
  iput ip.

Definition ireclaim_round (dev inum : Z) : K unit :=
  sb <- get sb ;;
  bp <- bread dev (IBLOCK inum sb) ;;
  d <- get_data bp ;;
  let dip := read_dinode d (dinode_off inum) in
  ip <- (if negb (d_type dip =? 0) && (d_nlink dip =? 0) then
           printk ("ireclaim: orphaned inode %d" +:+ newline) [Num inum] ;;
           i <- iget dev inum ;;
           ret (Some i)
         else ret None) ;;
  brelse bp ;;
  match ip with
  | Some i =>
      begin_op ;;
      ilock (Some i) ;;
      iunlock (Some i) ;;
      iput i ;;
      end_op
  | None => ret tt
  end.
Definition ireclaim (dev : Z) : K unit :=
  n <- get (λ s, sb_ninodes (sb s)) ;;
  for_each (seq 1 (Z.to_nat (n - 1))) (λ k, ireclaim_round dev (Z.of_nat k)).

Definition fsinit (dev : Z) : K unit :=
  readsb dev ;;
  sb <- get sb ;;
  if negb (sb_magic sb =? FSMAGIC) then panic "invalid file system" else
  initlog dev sb ;;
  ireclaim dev.

(** ** The contents of files *)

Definition bmap (i : nat) (bn : Z) : K Z :=
  ip <- get (λ s, inode_at s i) ;;
  if bn <? Z.of_nat NDIRECT then
    let k := Z.to_nat bn in
    if addr_at ip k =? 0 then
      addr <- balloc (i_dev ip) ;;
      if addr =? 0 then ret 0 else
      modify (upd_inode i (set_addr k addr)) ;;
      ret addr
    else ret (addr_at ip k)
  else
    let bn := bn - Z.of_nat NDIRECT in
    if bn <? NINDIRECT then
      addr <- (if addr_at ip NDIRECT =? 0 then
                 addr <- balloc (i_dev ip) ;;
                 when (negb (addr =? 0)) (modify (upd_inode i (set_addr NDIRECT addr))) ;;
                 ret addr
               else ret (addr_at ip NDIRECT)) ;;
      if addr =? 0 then ret 0 else
      bp <- bread (i_dev ip) addr ;;
      d <- get_data bp ;;
      let k := (4 * Z.to_nat bn)%nat in
      addr <- (if get32 d k =? 0 then
                 addr <- balloc (i_dev ip) ;;
                 when (negb (addr =? 0))
                   (d <- get_data bp ;;
                    set_data bp (put32 d k addr) ;;
                    log_write bp) ;;
                 ret addr
               else ret (get32 d k)) ;;
      brelse bp ;;
      ret addr
    else panic "bmap: out of range".

(** [struct stat]: [dev], [ino], [type], [nlink] and, after four bytes of padding,
    [size]; [junk] is what the variable held before. *)
Definition stati (ip : inode) (junk : list Z) : list Z :=
  put_at 16 (le 8 (i_size ip)) (put_at 10 (le 2 (i_nlink ip)) (put_at 8 (le 2 (i_type ip))
    (put_at 4 (le 4 (i_inum ip)) (put_at 0 (le 4 (i_dev ip)) junk)))).

(** [n] bytes of a block from [off] on. *)
Definition slice (d : list Z) (off n : Z) : list Z := take (Z.to_nat n) (drop (Z.to_nat off) d).

(** The result is [tot] and the bytes copied. Every round but the first and the last
    moves a whole block. *)
Fixpoint readi_loop (fuel : nat) (i : nat) (dst : dest) (off n tot : Z) (out : list Z) : K (Z * list Z) :=
  match fuel with
  | O => hang
  | S fuel =>
      if negb (tot <? n) then ret (tot, out) else
      addr <- bmap i (off / BSIZE) ;;
      if addr =? 0 then ret (tot, out) else
      dev <- get (λ s, i_dev (inode_at s i)) ;;
      bp <- bread dev addr ;;
      d <- get_data bp ;;
      let m := Z.min (n - tot) (BSIZE - off mod BSIZE) in
      let src := slice d (off mod BSIZE) m in
      r <- either_copyout dst src ;;
      if r =? -1 then brelse bp ;; ret (-1, out) else
      brelse bp ;;
      readi_loop fuel i (dst_add dst m) (off + m) n (tot + m) (out ++ src)
  end.
Definition rounds (n : Z) : nat := Z.to_nat (n / BSIZE + 3).
Definition readi (i : nat) (dst : dest) (off n : Z) : K (Z * list Z) :=
  size <- get (λ s, i_size (inode_at s i)) ;;
  if (size <? off) || (u32 (off + n) <? off) then ret (0, []) else
  let n := if size <? u32 (off + n) then size - off else n in
  readi_loop (rounds n) i dst off n 0 [].

(** The result is [tot] and [off]. *)
Fixpoint writei_loop (fuel : nat) (i : nat) (src : source) (off n tot : Z) : K (Z * Z) :=
  match fuel with
  | O => hang
  | S fuel =>
      if negb (tot <? n) then ret (tot, off) else
      addr <- bmap i (off / BSIZE) ;;
      if addr =? 0 then ret (tot, off) else
      dev <- get (λ s, i_dev (inode_at s i)) ;;
      bp <- bread dev addr ;;
      let m := Z.min (n - tot) (BSIZE - off mod BSIZE) in
      r <- either_copyin src m ;;
      d <- get_data bp ;;
      set_data bp (put_at (Z.to_nat (off mod BSIZE)) r.2 d) ;;
      if r.1 =? -1 then brelse bp ;; ret (tot, off) else
      log_write bp ;;
      brelse bp ;;
      writei_loop fuel i (src_add src m) (off + m) n (tot + m)
  end.
Definition writei (i : nat) (src : source) (off n : Z) : K Z :=
  size <- get (λ s, i_size (inode_at s i)) ;;
  if (size <? off) || (u32 (off + n) <? off) then ret (-1) else
  if MAXFILE * BSIZE <? u32 (off + n) then ret (-1) else
  r <- writei_loop (rounds n) i src off n 0 ;;
  size <- get (λ s, i_size (inode_at s i)) ;;
  when (size <? r.2) (modify (upd_inode i (set_i_size r.2))) ;;
  iupdate i ;;
  ret r.1.

(** ** Directories *)

(** Arrays of the caller, placed in memory for the string routines. *)
Definition namecmp (s t : list Z) : Z :=
  strncmp (write_bytes (write_bytes (λ _, 0) 0 s) 4096 t) 0 4096 (Z.of_nat DIRSIZ).
Definition strncpy_arr (t : list Z) (n : nat) : list Z :=
  read_bytes (strncpy (write_bytes (λ _, 0) 4096 t) 0 4096 (Z.of_nat n)) 0 n.

Definition de_inum (de : list Z) : Z := get16 de 0.
Definition de_name (de : list Z) : list Z := drop 2 de.

(** [readi(dp, 0, &de, off, sizeof(de))], which must read all of it. *)
Definition read_dirent (msg : string) (dp : nat) (off : Z) : K (list Z) :=
  r <- readi dp Local off DIRENT ;;
  if negb (r.1 =? DIRENT) then panic msg else ret r.2.

(** The number of rounds of a loop over the entries of a directory. *)
Definition entries (size : Z) : nat := Z.to_nat ((size + DIRENT - 1) / DIRENT).

(** The entry found, with its offset for [*poff]. *)
Definition dirlookup (dp : nat) (name : list Z) : K (option (nat * Z)) :=
  ip <- get (λ s, inode_at s dp) ;;
  if negb (i_type ip =? T_DIR) then panic "dirlookup not DIR" else
  for_find (seq 0 (entries (i_size ip))) (λ k,
    let off := DIRENT * Z.of_nat k in
    de <- read_dirent "dirlookup read" dp off ;;
    if de_inum de =? 0 then ret None else
    if namecmp name (de_name de) =? 0 then
      dev <- get (λ s, i_dev (inode_at s dp)) ;;
      i <- iget dev (de_inum de) ;;
      ret (Some (i, off))
    else ret None).

(** The bytes of an entry. *)
Definition dirent (inum : Z) (name : list Z) : list Z := le 2 inum ++ strncpy_arr name DIRSIZ.

Definition dirlink (dp : nat) (name : list Z) (inum : Z) : K Z :=
  o <- dirlookup dp name ;;
  match o with
  | Some (i, _) => iput i ;; ret (-1)
  | None =>
      size <- get (λ s, i_size (inode_at s dp)) ;;
      o <- for_find (seq 0 (entries size)) (λ k,
        let off := DIRENT * Z.of_nat k in
        de <- read_dirent "dirlink read" dp off ;;
        ret (if de_inum de =? 0 then Some off else None)) ;;
      let off := default (DIRENT * Z.of_nat (entries size)) o in
      r <- writei dp (FromLocal (dirent inum name)) off DIRENT ;;
      ret (if negb (r =? DIRENT) then -1 else 0)
  end.

(** ** Paths *)

Fixpoint skip_slashes (path : list Z) : list Z :=
  match path with
  | c :: p => if c =? 47 then skip_slashes p else path
  | [] => []
  end.
(** The characters up to the next slash, and the rest. *)
Fixpoint element (path : list Z) : list Z * list Z :=
  match path with
  | c :: p => if c =? 47 then ([], path) else let r := element p in (c :: r.1, r.2)
  | [] => ([], [])
  end.
(** The rest of the path, and [name] with the element copied over it. *)
Definition skipelem (path name : list Z) : option (list Z * list Z) :=
  match skip_slashes path with
  | [] => None
  | path =>
      let (s, path) := element path in
      let name := if (DIRSIZ <=? length s)%nat then put_at 0 (take DIRSIZ s) name
                  else put_at 0 (s ++ [0]) name in
      Some (skip_slashes path, name)
  end.

(** The loop of namex(); the path gets shorter in each round. *)
Fixpoint namex_loop (fuel : nat) (ip : nat) (path : list Z) (parent : bool) (name : list Z)
    : K (option nat * list Z) :=
  match fuel with
  | O => hang
  | S fuel =>
      match skipelem path name with
      | None => if parent then iput ip ;; ret (None, name) else ret (Some ip, name)
      | Some (path, name) =>
          ilock (Some ip) ;;
          t <- get (λ s, i_type (inode_at s ip)) ;;
          if negb (t =? T_DIR) then iunlockput ip ;; ret (None, name) else
          if parent && bool_decide (path = []) then iunlock (Some ip) ;; ret (Some ip, name) else
          next <- dirlookup ip name ;;
          match next with
          | None => iunlockput ip ;; ret (None, name)
          | Some (next, _) => iunlockput ip ;; namex_loop fuel next path parent name
          end
      end
  end.
Definition namex (path : list Z) (parent : bool) (name : list Z) : K (option nat * list Z) :=
  ip <- (if bool_decide (head path = Some 47) then iget ROOTDEV ROOTINO
         else
           p <- curproc ;;
           c <- get (λ s, p_cwd (proc_at s p)) ;;
           match c with Some c => idup c | None => panic "kerneltrap" end) ;;
  namex_loop (S (length path)) ip path parent name.

(** [name] is a local array that is written before it is read. *)
Definition namei (path : list Z) : K (option nat) :=
  r <- namex path false (replicate DIRSIZ 0) ;;
  ret r.1.
Definition nameiparent (path name : list Z) : K (option nat * list Z) := namex path true name.
End fs.
