(* ===== verification/Tx.v ===== *)
(** Transactions: what log_write() promises to the code of the file system.

    [tx p pid B H s]: process [p] is inside a transaction, alone; [B] are the blocks
    written so far, pinned in the cache and listed in the header of the log; the
    buffers [H] are held. The effect of an operation is stated on [content], the
    blocks as the file system sees them. *)
From S2P Require Import Prelude Pstat Kernel Spinlock Sched Sleeplock Uart Bio Cache Log Crash.

Record tx (p : nat) (pid : Z) (B : list Z) (H : list nat) (s : kernel) : Prop := {
  tx_cache : cache p pid B H s;
  tx_open : 1 <= l_outstanding (log s);
  tx_len : length (lh_block (log s)) = Z.to_nat LOGBLOCKS;
  tx_n : lh_n (log s) = Z.of_nat (length B);
  tx_room : (length B <= Z.to_nat LOGBLOCKS)%nat;
  tx_blocks : u32 <$> take (length B) (lh_block (log s)) = B;
}.

(** The blocks of the transaction after [b] is written. *)
Definition logged (b : Z) (B : list Z) : list Z := if decide (b ∈ B) then B else B ++ [b].

Lemma length_logged b B : (length B <= length (logged b B) <= S (length B))%nat.
Proof. unfold logged. destruct (decide _); rewrite ?length_app; simpl; lia. Qed.
Lemma logged_in b B : b ∈ logged b B.
Proof. unfold logged. destruct (decide _); [done|]. apply elem_of_app. right. by left. Qed.

(** Only the cache, the disk, the log, the states of woken processes and what the
    serial port has sent change. *)
Definition tx_frame (s s' : kernel) : Prop :=
  ∃ l u, u_regs u = u_regs (uart s) ∧ fs_frame (set_uart u (set_log l s)) s'.
Lemma tx_frame_fs s s' : fs_frame s s' → tx_frame s s'.
Proof. intros H. exists (log s), (uart s). by destruct s. Qed.
Lemma tx_frame_trans s1 s2 s3 : tx_frame s1 s2 → tx_frame s2 s3 → tx_frame s1 s3.
Proof.
  intros (l1 & u1 & R1 & bs1 & li1 & sl1 & h1 & ps1 & [K1 K2] & ->) (l2 & u2 & R2 & bs & li & sl & h & ps & [K3 K4] & ->).
  exists l2, u2. split; [by rewrite R2|]. exists bs, li, sl, h, ps. split.
  - split; [intros i; rewrite K3; apply K1 | rewrite K4; apply K2].
  - unfold settle. simpl. by rewrite settled_idemp.
Qed.
Lemma tx_frame_settle s : tx_frame s (settle s).
Proof. apply tx_frame_fs, fs_frame_settle. Qed.
Lemma tx_frame_log s l : tx_frame s (set_log l (settle s)).
Proof.
  exists l, (uart s). split; [done|]. exists (bufs s), (lru s), (slocks s), (disk_hist s), (procs s).
  split; [done | by destruct s].
Qed.
Lemma tx_frame_put s s' i f : tx_frame (upd_buf i f s) s' → tx_frame s s'.
Proof. intros (l & u & R & bs & li & sl & h & ps & K & ->). exists l, u. split; [done|]. by exists bs, li, sl, h, ps. Qed.
Lemma tx_frame_sent l s s' : sent l s s' → l ≠ [] → tx_frame s s'.
Proof.
  intros [O (R & _) F] Hl. exists (log s), (uart s'). split; [done|].
  exists (bufs s), (lru s), (slocks s), (disk_hist s), (procs s). destruct F as [->|F].
  - apply (f_equal length) in O. rewrite length_app, length_reverse in O. destruct l; [done | simpl in O; lia].
  - split; [done|]. rewrite F at 1. by destruct s.
Qed.
#[export] Hint Resolve tx_frame_fs tx_frame_trans tx_frame_settle tx_frame_log : fs.

Lemma tx_frame_fields s s' :
  tx_frame s s' → sb s' = sb s ∧ itable s' = itable s ∧ mem s' = mem s ∧ disk_img s' = disk_img s
  ∧ latched (uart s') = latched (uart s) ∧ panicked s' = panicked s.
Proof. intros (l & u & R & ? & ? & ? & ? & ? & _ & ->). split_and!; try done. unfold latched. simpl. by rewrite R. Qed.

Lemma tx_frame_kept s s' : tx_frame s s' → kept s (slocks s') (procs s').
Proof. by intros (l & u & R & ? & ? & ? & ? & ? & [K1 K2] & ->). Qed.

(** ** The steps of a block update *)

Lemma tx_bread p pid B H s b :
  tx p pid B H s → (∀ i, i ∈ H → ¬ cached s b i) → (length B + length H < NBUF)%nat →
  ∃ i s', bread ROOTDEV b s = Ok i s' ∧ tx p pid B (i :: H) s' ∧ cached s' b i
    ∧ b_data (buf_at s' i) = content s b
    ∧ (∀ b', content s' b' = content s b') ∧ disk_hist s' = disk_hist s ∧ fs_frame s s'
    ∧ (∀ b' j, j ∈ H → cached s b' j → cached s' b' j).
Proof.
  intros [Hc Ho Hl Hn Hr Hb] Hnh Hlen.
  destruct (bread_ok p pid B H s b Hc Hnh) as (i & s' & E & Hc' & Hi & Hct & Hh & Hf & Hk).
  { by right. }
  exists i, s'. split_and!; try done.
  - pose proof (fs_frame_log _ _ Hf) as El. split; rewrite ?El; done.
  - by rewrite <- (content_cached _ _ _ _ _ _ _ Hc' Hi), Hct.
Qed.

Lemma tx_store p pid B H s i b d :
  tx p pid B H s → i ∈ H → cached s b i →
  let s' := upd_buf i (set_b_data d) s in
  tx p pid B H s' ∧ (∀ b', content s' b' = if decide (b' = b) then d else content s b')
  ∧ (∀ b' j, cached s' b' j ↔ cached s b' j).
Proof.
  intros [Hc Ho Hl Hn Hr Hb] Hi Hbi s'. split_and!.
  - split; try done. by apply cache_data.
  - intros b'. by apply (content_data p pid B H).
  - intros b' j. apply cached_data.
Qed.

Lemma absorb_take (l : list Z) b :
  let i := absorb l b in
  (i <= length l)%nat ∧ ((i = length l ↔ b ∉ (u32 <$> l)) ∧ (b ∈ (u32 <$> l) → (u32 <$> l) !! i = Some b)).
Proof.
  induction l as [|x l IH]; simpl.
  - split; [lia|]. split; [|by intros ?%elem_of_nil]. split; [intros _; apply not_elem_of_nil | done].
  - destruct (u32 x =? b) eqn:E; [apply Z.eqb_eq in E; subst b | apply Z.eqb_neq in E].
    + split; [lia|]. split; [|done]. split; [lia|]. intros Hn. destruct Hn. by left.
    + destruct IH as (I1 & I2 & I3). split; [lia|]. rewrite not_elem_of_cons, elem_of_cons. split.
      * split; [intros ?; split; [congruence|]; apply I2; lia | intros [_ ?]; f_equal; by apply I2].
      * intros [?|?]; [congruence | by apply I3].
Qed.

(** The log with [b] at its place. *)
Definition log_add (b : Z) (l : log_t) : log_t :=
  let i := absorb (take (Z.to_nat (lh_n l)) (lh_block l)) b in
  let l' := set_lh_block (<[i := i32 b]> (lh_block l)) l in
  if Z.of_nat i =? lh_n l then set_lh_n (lh_n l + 1) l' else l'.

Lemma log_write_run p s i :
  env p s → lh_n (log s) < LOGBLOCKS → 1 <= l_outstanding (log s) →
  let b := b_blockno (buf_at s i) in
  let s1 := upd_log (log_add b) (settle s) in
  log_write i s
  = Ok tt (if Z.of_nat (absorb (take (Z.to_nat (lh_n (log s))) (lh_block (log s))) b) =? lh_n (log s)
           then upd_buf i incref s1 else s1).
Proof.
  intros He Hn Ho b s1. unfold log_write. rewrite (bind_Ok _ _ _ _ _ (env_acquire p s _ He)). kstep.
  change (log (lock_state L_log s)) with (log s).
  rewrite (proj2 (Z.leb_gt _ _)), (proj2 (Z.ltb_ge _ _)) by lia. ksteps.
  change (b_blockno (buf_at (lock_state L_log s) i)) with b. unfold s1, log_add.
  set (a := absorb _ b). set (t := upd_log _ (lock_state L_log s)).
  destruct He as [Hok Hl Hp Hlen]. destruct (Z.of_nat a =? lh_n (log s)) eqn:E.
  - assert (Eb : bpin i t = Ok tt (upd_buf i incref t)).
    { unfold bpin. rewrite (bind_Ok _ _ _ _ _ (acquire_ok L_bcache t ltac:(by simpl; rewrite Hl))). kstep.
      rewrite (release_ok _ _ (cur t)); [| by apply cpu_ok_pushed | done | by apply lookup_insert_eq].
      f_equal. unfold t, upd_log, upd_buf. simpl. rewrite settled_pushed by done. rewrite Hl.
      rewrite delete_insert_id by done. rewrite <- Hl. reflexivity. }
    erewrite bind_Ok; [|erewrite bind_Ok by exact Eb; reflexivity].
    rewrite (release_ok _ _ (cur s)); [| done | done | by apply lookup_insert_eq].
    f_equal. unfold t, upd_log, upd_buf. simpl. rewrite Hl, delete_insert_id by done.
    rewrite <- Hl. fold a. rewrite E. by destruct s.
  - kstep. rewrite (release_ok _ _ (cur s)); [| done | done | by apply lookup_insert_eq].
    f_equal. unfold t, upd_log. simpl. rewrite Hl, delete_insert_id by done. rewrite <- Hl. fold a.
    rewrite E. by destruct s.
Qed.

Lemma upd_log_cached s f b i : cached (upd_log f s) b i ↔ cached s b i.
Proof. done. Qed.

Lemma tx_log p pid B H s i b :
  tx p pid B H s → i ∈ H → cached s b i → 0 <= b < 2 ^ 32 → (length B < Z.to_nat LOGBLOCKS)%nat →
  ∃ s', log_write i s = Ok tt s' ∧ tx p pid (logged b B) H s' ∧ (∀ b', content s' b' = content s b')
    ∧ disk_hist s' = disk_hist s ∧ tx_frame s s' ∧ (∀ b' j, cached s' b' j ↔ cached s b' j).
Proof.
  intros [Hc Ho Hl Hn Hr Hbl] Hi Hb Hr32 Hlen. pose proof Hb as [Hilt [Hdi Hbi]%is_block_spec].
  eexists. split; [apply (log_write_run p); [apply Hc | lia | done]|]. rewrite Hbi, Hn, Nat2Z.id.
  pose proof (absorb_take (take (length B) (lh_block (log s))) b) as (A1 & A2 & A3). rewrite Hbl in A2, A3.
  set (a := absorb _ b) in *. rewrite length_take, Hl in A1, A2.
  assert (Ha : (Z.of_nat a =? Z.of_nat (length B)) = bool_decide (b ∉ B)).
  { destruct (decide (b ∈ B)) as [Hd|Hd]; [rewrite bool_decide_false by tauto | rewrite bool_decide_true by done].
    - apply Z.eqb_neq. intros E. assert (b ∉ B) by (apply A2; lia). done.
    - apply Z.eqb_eq. apply A2 in Hd. lia. }
  assert (Hla : log_add b (log s) = (if bool_decide (b ∉ B) then set_lh_n (lh_n (log s) + 1) else id)
                                      (set_lh_block (<[a := i32 b]> (lh_block (log s))) (log s))).
  { unfold log_add. rewrite Hn, Nat2Z.id. fold a. rewrite Ha. by destruct (bool_decide _). }
  assert (Hu : u32 (i32 b) = b) by (unfold u32, i32; dlia).
  assert (Hins : ∀ k, (a < k)%nat → u32 <$> take k (<[a := i32 b]> (lh_block (log s)))
                     = <[a := b]> (u32 <$> take k (lh_block (log s)))).
  { intros k Hk. rewrite take_insert_lt, list_fmap_insert, Hu by done. done. }
  rewrite Ha. unfold logged. destruct (decide (b ∈ B)) as [Hd|Hd]; [rewrite bool_decide_false in * by tauto | rewrite bool_decide_true in * by done]; cycle 1.
  - apply A2 in Hd as Ea.
    assert (Hab : a = length B) by lia.
    destruct (bpin_ok p pid B H s i b Hc Hi Hb Hd) as (s' & E' & Hc' & Hct & Hh & Hf & Hk).
    assert (Es : s' = upd_buf i incref (settle s)).
    { unfold bpin in E'. rewrite (brefs_run p) in E' by apply Hc. by inversion E'. }
    subst s'. split_and!; [|exact Hct | done | | exact Hk].
    + apply (cache_pins_perm _ _ _ (B ++ [b])) in Hc'; [|apply Permutation_cons_append].
      split; cbn [upd_log log upd_buf set_log set_bufs settle set_cur]; rewrite ?Hla; simpl;
        rewrite ?length_insert, ?length_app, ?Nat.add_1_r; simpl; try done; try lia.
      * exact (cache_log _ _ _ _ _ _ Hc').
      * rewrite Hins by lia. rewrite (take_S_r _ _ (default 0 (lh_block (log s) !! length B))).
        2: { destruct (lookup_lt_is_Some_2 (lh_block (log s)) (length B)) as [x ->]; [lia | done]. }
        rewrite fmap_app, Hbl, Hab, insert_app_r_alt, Nat.sub_diag by done. done.
    + exists (log_add b (log s)), (uart s). split; [done|].
      exists (alter incref i (bufs s)), (lru s), (slocks s), (disk_hist s), (procs s).
      split; [done | by destruct s].
  - assert (Halt : (a < length B)%nat) by (apply lookup_lt_is_Some_1; eauto).
    split_and!; [|by intros | done | apply tx_frame_log | by intros].
    split; cbn [upd_log log upd_buf set_log set_bufs settle set_cur]; rewrite ?Hla; simpl;
      rewrite ?length_insert; try done.
    + apply (cache_log _ _ _ _ (settle s)). by apply cache_settle.
    + rewrite Hins, Hbl by lia. apply list_insert_id; auto.
Qed.

Lemma tx_brelse p pid B H s i b :
  tx p pid B (i :: H) s → cached s b i → b ∈ B ∨ content s b = disk_read s b →
  ∃ s', brelse i s = Ok tt s' ∧ tx p pid B H s' ∧ (∀ b', content s' b' = content s b')
    ∧ disk_hist s' = disk_hist s ∧ fs_frame s s' ∧ (∀ b' j, cached s' b' j ↔ cached s b' j).
Proof.
  intros [Hc Ho Hl Hn Hr Hbl] Hb Hcl.
  destruct (brelse_ok p pid B H s i b Hc Hb Hcl) as (s' & E & Hc' & Hct & Hh & Hf & _ & Hk).
  exists s'. split_and!; try done. pose proof (fs_frame_log _ _ Hf) as El. split; rewrite ?El; done.
Qed.

(** The sequence [bp->data = d; log_write(bp); brelse(bp);] on a held buffer. *)
Lemma tx_put p pid B H s i b d :
  tx p pid B (i :: H) s → cached s b i → 0 <= b < 2 ^ 32 → (length B < Z.to_nat LOGBLOCKS)%nat →
  ∃ s2 s', log_write i (upd_buf i (set_b_data d) s) = Ok tt s2 ∧ brelse i s2 = Ok tt s'
    ∧ tx p pid (logged b B) H s' ∧ (∀ b', content s' b' = if decide (b' = b) then d else content s b')
    ∧ disk_hist s' = disk_hist s ∧ tx_frame s s' ∧ (∀ b' j, cached s' b' j ↔ cached s b' j).
Proof.
  intros Ht Hb Hr Hlen.
  destruct (tx_store _ _ _ _ _ i b d Ht) as (Ht1 & Hct1 & Hk1); [by left | done |].
  set (s1 := upd_buf i (set_b_data d) s) in *.
  destruct (tx_log _ _ _ _ s1 i b Ht1) as (s2 & E2 & Ht2 & Hct2 & Hh2 & Hf2 & Hk2); [by left | by apply Hk1 | done | done |].
  destruct (tx_brelse _ _ _ _ s2 i b Ht2) as (s3 & E3 & Ht3 & Hct3 & Hh3 & Hf3 & Hk3).
  { by apply Hk2, Hk1. }
  { left. apply logged_in. }
  exists s2, s3. split_and!; [exact E2 | exact E3 | exact Ht3 | | | |].
  - intros b'. by rewrite Hct3, Hct2, Hct1.
  - by rewrite Hh3, Hh2.
  - apply (tx_frame_put _ _ i (set_b_data d)). eauto with fs.
  - intros b' j. by rewrite Hk3, Hk2, Hk1.
Qed.

(** A block that no buffer in use holds is logged, or as on the disk. *)
Lemma tx_clean p pid B H s b :
  tx p pid B H s → (∀ i, i ∈ H → ¬ cached s b i) → b ∈ B ∨ content s b = disk_read s b.
Proof.
  intros Ht Hn. destruct (decide (b ∈ B)); [by left | right]. apply (content_clean p pid B H); [apply Ht | done | done].
Qed.

(** Reading a block: its contents, and the cache unchanged. *)
Lemma tx_get p pid B H s b :
  tx p pid B H s → (∀ i, i ∈ H → ¬ cached s b i) → (length B + length H < NBUF)%nat →
  ∃ i s1 s', bread ROOTDEV b s = Ok i s1 ∧ b_data (buf_at s1 i) = content s b ∧ brelse i s1 = Ok tt s'
    ∧ tx p pid B H s' ∧ (∀ b', content s' b' = content s b') ∧ disk_hist s' = disk_hist s ∧ fs_frame s s'
    ∧ fs_frame s s1 ∧ (∀ b' j, j ∈ H → cached s b' j → cached s' b' j).
Proof.
  intros Ht Hn Hlen. pose proof (tx_clean _ _ _ _ _ _ Ht Hn) as Hcl. destruct (tx_bread _ _ _ _ _ b Ht Hn Hlen) as (i & s1 & E1 & Ht1 & Hi1 & Hd1 & Hct1 & Hh1 & Hf1 & Hk1).
  destruct (tx_brelse _ _ _ _ _ i b Ht1 Hi1) as (s2 & E2 & Ht2 & Hct2 & Hh2 & Hf2 & Hk2).
  { destruct Hcl; [by left | right]. by rewrite Hct1, (disk_read_eq s s1) by (done || by apply fs_frame_img). }
  exists i, s1, s2. split_and!; try done.
  - intros b'. by rewrite Hct2, Hct1.
  - by rewrite Hh2, Hh1.
  - eauto with fs.
  - intros b' j Hj Hc. by apply Hk2, Hk1.
Qed.

(** Printing does not touch the file system. *)
Lemma tx_sent p pid B H s l s' :
  tx p pid B H s → sent l s s' → tx p pid B H s' ∧ (∀ b, content s' b = content s b) ∧ (∀ b j, cached s' b j ↔ cached s b j).
Proof.
  intros Ht [_ _ F]. assert (s' = s ∨ ∃ u, s' = set_uart u (settle s)) as [->|[u ->]] by (destruct F; eauto); [done|].
  split_and!; try done.
  destruct Ht as [Hc Ho Hl Hn Hr Hbl]. split; try done. apply cache_settle in Hc.
  pose proof (ca_env _ _ _ _ _ Hc) as []. destruct Hc. by split.
Qed.
