(* ===== verification/LogFull.v ===== *)
(** A log that is as large as the buffer cache.

    param.h gives the log LOGBLOCKS blocks and the cache NBUF buffers, both 3 * MAXOPBLOCKS.
    begin_op() admits operations until their reservations fill the log, and every block in the
    log is pinned in the cache until the commit, which needs one more buffer. *)
From S2P Require Import Prelude Pstat Kernel Spinlock Sched Sleeplock Bio Cache Log Crash Tx.

(** ** Admission *)

Definition opened (l : log_t) : log_t := set_l_outstanding (l_outstanding l + 1) l.

(** begin_op() does not wait when no commit is running and the reservation fits. *)
Lemma begin_op_admits p s :
  env p s → l_committing (log s) = false →
  lh_n (log s) + (l_outstanding (log s) + 1) * MAXOPBLOCKS <= LOGBLOCKS →
  begin_op s = Ok tt (upd_log opened (settle s)).
Proof.
  intros He Hc Hn. unfold begin_op. rewrite (bind_Ok _ _ _ _ _ (env_acquire p s _ He)).
  change WAITS with (S 63). cbn [sleep_while]. unfold bind at 1. ksteps. simpl.
  rewrite Hc, (proj2 (Z.ltb_ge _ _)) by lia. simpl. ksteps.
  rewrite (env_release p s); try done.
  - f_equal. unfold upd_log, opened. simpl. rewrite <- (e_locks _ _ He). by destruct s.
  - simpl. by rewrite (e_locks _ _ He).
Qed.

Definition closed (l : log_t) : log_t := set_l_outstanding (l_outstanding l - 1) l.

(** end_op() of an operation that is not the last one. *)
Lemma end_op_not_last p s :
  env p s → l_committing (log s) = false → l_outstanding (log s) ≠ 1 →
  end_op s = Ok tt (set_procs (imap (woken (Some p) Ch_log) (procs s)) (upd_log closed (settle s))).
Proof.
  intros He Hc Ho. unfold end_op. rewrite (bind_Ok _ _ _ _ _ (env_acquire p s _ He)). kstep. kstep. simpl.
  rewrite Hc, (proj2 (Z.eqb_neq _ _)) by lia.
  pose proof (lock_state_free p s L_log He ltac:(done)) as Hfree.
  erewrite bind_Ok; [|apply wakeup_ok; [exact Hfree | apply He]].
  erewrite bind_Ok; [|apply (env_release p s); [done | simpl; apply settled_pushed, He | done |]].
  - unfold ret. f_equal. simpl. rewrite (e_proc _ _ He), <- (e_locks _ _ He). by destruct s.
  - simpl. by rewrite (e_locks _ _ He).
Qed.

(** ** Every buffer pinned *)

Lemma all_pinned p pid B s i :
  cache p pid B [] s → length B = NBUF → (i < NBUF)%nat →
  b_dev (buf_at s i) = ROOTDEV ∧ b_blockno (buf_at s i) ∈ B ∧ b_refcnt (buf_at s i) = 1.
Proof.
  intros Hc HB Hi.
  assert (Hin : b_dev (buf_at s i) = ROOTDEV ∧ b_blockno (buf_at s i) ∈ B).
  { destruct (decide (b_dev (buf_at s i) = ROOTDEV ∧ b_blockno (buf_at s i) ∈ B)) as [|Hno]; [done|exfalso].
    set (R := filter (λ j, j ≠ i) (seq 0 NBUF)).
    assert (HR : (length R < NBUF)%nat).
    { pose proof (length_filter_lt (λ j, j ≠ i) (seq 0 NBUF) i ltac:(apply elem_of_seq; lia) ltac:(tauto)) as HR.
      by rewrite length_seq in HR. }
    assert (Hsub : (length B <= length ((λ j, b_blockno (buf_at s j)) <$> R))%nat).
    { apply submseteq_length, NoDup_submseteq; [apply Hc|]. intros b Hb.
      destruct (ca_pins _ _ _ _ _ Hc b Hb) as [j [Hj [Hd Hbj]%is_block_spec]].
      apply list_elem_of_fmap. exists j. split; [done|]. apply list_elem_of_filter. split; [|apply elem_of_seq; lia].
      intros ->. apply Hno. by rewrite Hbj. }
    rewrite length_fmap in Hsub. lia. }
  destruct Hin. split; [done|]. split; [done|].
  rewrite (ca_ref _ _ _ _ _ Hc i Hi). unfold bit_of.
  rewrite decide_True, decide_False by (done || by intros ?%elem_of_nil). done.
Qed.

(** bread() of any other block then finds no buffer. *)
Lemma bread_no_buffers p pid B s b :
  cache p pid B [] s → length B = NBUF → b ∉ B → bread ROOTDEV b s = Panic "bget: no buffers".
Proof.
  intros Hc HB Hb. pose proof (λ i, all_pinned p pid B s i Hc HB) as Hall.
  assert (Hhit : List.find (λ i, is_block ROOTDEV b (buf_at s i)) (lru s) = None).
  { pose proof (find_lru _ _ _ _ s b Hc) as Hf. destruct (List.find _ (lru s)) as [i|]; [exfalso|done].
    destruct Hf as [Hi [_ Hbi]%is_block_spec]. destruct (Hall i Hi) as (_ & Hin & _). congruence. }
  assert (Hfree : List.find (λ i, b_refcnt (buf_at s i) =? 0) (reverse (lru s)) = None).
  { destruct (List.find _ (reverse (lru s))) as [i|] eqn:E; [exfalso|done].
    apply List.find_some in E as [Hi Hr]. apply list_elem_of_In in Hi. rewrite elem_of_reverse in Hi.
    rewrite (ca_lru _ _ _ _ _ Hc), elem_of_seq in Hi. destruct (Hall i ltac:(lia)) as (_ & _ & Hr'). cbv beta in Hr. lia. }
  unfold bread. apply bind_Panic. unfold bget.
  rewrite (bind_Ok _ _ _ _ _ (env_acquire p s _ (ca_env _ _ _ _ _ Hc))), bind_get; cbv beta.
  change (List.find _ (lru (lock_state L_bcache s)))
    with (List.find (λ i, is_block ROOTDEV b (buf_at s i)) (lru s)). rewrite Hhit, bind_get; cbv beta.
  change (List.find _ (reverse (lru (lock_state L_bcache s))))
    with (List.find (λ i, b_refcnt (buf_at s i) =? 0) (reverse (lru s))). by rewrite Hfree.
Qed.

(** commit() begins by reading the first block of the log. *)
Lemma commit_no_buffers p pid B s :
  cache p pid B [] s → length B = NBUF → l_dev (log s) = ROOTDEV → 0 < lh_n (log s) →
  u32 (l_start (log s) + 1) ∉ B → commit s = Panic "bget: no buffers".
Proof.
  intros Hc HB Hd Hn Hb. unfold commit. rewrite bind_get, (proj2 (Z.ltb_lt _ _)) by done.
  apply bind_Panic. unfold write_log. rewrite bind_get. destruct (Z.to_nat (lh_n (log s))) eqn:E; [lia|].
  cbn [seq for_each]. apply bind_Panic. unfold write_one. rewrite bind_get, Hd, Z.add_0_r.
  apply bind_Panic. by apply (bread_no_buffers p pid B).
Qed.

(** ** Filling the log *)

(** How the file system changes a block: bzero(), iupdate(), writei() and the others. *)
Definition update (u : Z * list Z) : K unit :=
  i <- bread ROOTDEV u.1 ;; set_data i u.2 ;; log_write i ;; brelse i.

(** The fields of the log that log_write() leaves alone. *)
Definition log_rest (l : log_t) : Z * Z * bool * Z := (l_start l, l_outstanding l, l_committing l, l_dev l).

Lemma log_rest_add b l : log_rest (log_add b l) = log_rest l.
Proof. unfold log_add. by destruct (_ =? _). Qed.

Lemma log_update_ok p pid B s u :
  tx p pid B [] s → 0 <= u.1 < 2 ^ 32 → u.1 ∉ B → (length B < NBUF)%nat →
  ∃ s', update u s = Ok tt s' ∧ tx p pid (B ++ [u.1]) [] s' ∧ log_rest (log s') = log_rest (log s).
Proof.
  intros Ht Hu Hn Hl. unfold update, set_data.
  destruct (tx_bread p pid B [] s u.1 Ht) as (i & s1 & E1 & Ht1 & Hi1 & _ & _ & _ & Hf1 & _);
    [by intros ? ?%elem_of_nil | simpl; lia |]. rewrite (bind_Ok _ _ _ _ _ E1). kstep.
  destruct (tx_store _ _ _ _ _ i u.1 u.2 Ht1 ltac:(by left) Hi1) as (Ht2 & _ & Hk2).
  set (s2 := upd_buf i (set_b_data u.2) s1) in *. pose proof (proj2 (Hk2 _ _) Hi1) as Hi2.
  destruct (tx_log _ _ _ _ s2 i u.1 Ht2 ltac:(by left) Hi2 Hu) as (s3 & E3 & Ht3 & _ & _ & _ & Hk3);
    [unfold LOGBLOCKS, MAXOPBLOCKS, NBUF in *; lia|]. rewrite (bind_Ok _ _ _ _ _ E3).
  destruct (tx_brelse _ _ _ _ s3 i u.1 Ht3) as (s4 & E4 & Ht4 & _ & _ & Hf4 & _);
    [by apply Hk3 | left; apply logged_in |].
  exists s4. unfold logged in Ht4. rewrite decide_False in Ht4 by done. split; [done|]. split; [done|].
  rewrite (fs_frame_log _ _ Hf4), <- (fs_frame_log _ _ Hf1).
  rewrite (log_write_run p) in E3; [|apply Ht2 | rewrite (tx_n _ _ _ _ _ Ht2); unfold LOGBLOCKS, MAXOPBLOCKS, NBUF in *; lia | apply Ht2].
  injection E3 as <-. rewrite <- (log_rest_add (b_blockno (buf_at s2 i)) (log s1)). by destruct (_ =? _).
Qed.

Lemma updates_ok p pid us : ∀ B s,
  tx p pid B [] s → Forall (λ u, 0 <= u.1 < 2 ^ 32) us → NoDup (B ++ us.*1) → (length B + length us <= NBUF)%nat →
  ∃ s', for_each us update s = Ok tt s' ∧ tx p pid (B ++ us.*1) [] s' ∧ log_rest (log s') = log_rest (log s).
Proof.
  induction us as [|u us IH]; intros B s Ht Hu Hnd Hl.
  { exists s. rewrite app_nil_r. done. }
  apply Forall_cons in Hu as [Hu Hus]. cbn [length] in Hl.
  destruct (log_update_ok p pid B s u) as (s1 & E1 & Ht1 & Hl1); [done|done| |lia|].
  { apply NoDup_app in Hnd as (_ & Hd & _). intros Hb. apply (Hd _ Hb). by left. }
  destruct (IH (B ++ [u.1]) s1 Ht1 Hus) as (s' & E' & Ht' & Hl').
  { by rewrite <- (assoc_L (++)). }
  { rewrite length_app. simpl. lia. }
  exists s'. cbn [for_each]. rewrite (bind_Ok _ _ _ _ _ E1). rewrite <- (assoc_L (++)) in Ht'.
  split; [done|]. split; [done|]. congruence.
Qed.

(** ** Three full operations *)

(** A log with nothing in it, and no operation running. *)
Record log_idle (start : Z) (s : kernel) : Prop := {
  li_start : l_start (log s) = start;
  li_range : 0 <= start ∧ start + LOGBLOCKS < 2 ^ 32;
  li_dev : l_dev (log s) = ROOTDEV;
  li_none : l_outstanding (log s) = 0 ∧ l_committing (log s) = false ∧ lh_n (log s) = 0;
  li_len : length (lh_block (log s)) = Z.to_nat LOGBLOCKS;
}.

Lemma three_admitted p s start :
  env p s → log_idle start s →
  (begin_op ;; begin_op ;; begin_op) s = Ok tt (upd_log (set_l_outstanding 3) (settle s)).
Proof.
  intros He [_ _ _ (Ho & Hc & Hn) _].
  assert (Hs : ∀ k, settle (upd_log (set_l_outstanding k) (settle s)) = upd_log (set_l_outstanding k) (settle s))
    by (intros k; unfold settle; simpl; by rewrite settled_idemp).
  assert (Hb : ∀ k, 0 <= k <= 2 → begin_op (upd_log (set_l_outstanding k) (settle s))
                               = Ok tt (upd_log (set_l_outstanding (k + 1)) (settle s))).
  { intros k Hk. rewrite (begin_op_admits p); [| by destruct He | done |].
    2: { change (lh_n (log s) + (k + 1) * MAXOPBLOCKS <= LOGBLOCKS). unfold LOGBLOCKS, MAXOPBLOCKS. lia. }
    rewrite Hs. unfold upd_log, opened. simpl. by destruct s, log. }
  rewrite (bind_Ok _ _ _ tt (upd_log (set_l_outstanding 1) (settle s))).
  - rewrite (bind_Ok _ _ _ _ _ (Hb 1 ltac:(lia))). apply (Hb 2). lia.
  - rewrite (begin_op_admits p); [|done|done|rewrite Ho, Hn; unfold LOGBLOCKS, MAXOPBLOCKS; lia]. unfold opened, upd_log. simpl. by rewrite Ho.
Qed.

Lemma tx_procs p pid B s ch k :
  tx p pid B [] s → 1 <= k →
  tx p pid B [] (set_procs (imap (woken (Some p) ch) (procs s)) (upd_log (set_l_outstanding k) (settle s))).
Proof.
  intros [Hc Ho Hl Hn Hr Hb] Hk. split; try done. apply cache_settle in Hc.
  apply (cache_log _ _ _ _ _ (set_l_outstanding k (log s))) in Hc.
  pose proof (ca_env _ _ _ _ _ Hc) as [? ? ? ?]. destruct Hc. split; try done.
  - split; try done. simpl. by rewrite length_imap.
  - rewrite <- ca_pid. by apply (pid_woken _ (Some p) ch).
Qed.

(** The state after an end_op() that leaves [k] operations running. *)
Definition left_open (p : nat) (k : Z) (s : kernel) : kernel :=
  set_procs (imap (woken (Some p) Ch_log) (procs s)) (upd_log (set_l_outstanding k) (settle s)).

Lemma end_op_left p pid B s k :
  tx p pid B [] s → l_committing (log s) = false → l_outstanding (log s) = k + 1 → 1 <= k →
  end_op s = Ok tt (left_open p k s) ∧ tx p pid B [] (left_open p k s).
Proof.
  intros Ht Hc Ho Hk. split; [|by apply tx_procs]. rewrite (end_op_not_last p) by (done || apply Ht || lia).
  unfold left_open, closed, upd_log. simpl. rewrite Ho. by replace (k + 1 - 1) with k by lia.
Qed.

(** The end_op() that commits. *)
Lemma end_op_no_buffers p pid B s :
  cache p pid B [] s → length B = NBUF → l_dev (log s) = ROOTDEV → 0 < lh_n (log s) →
  u32 (l_start (log s) + 1) ∉ B → l_committing (log s) = false → l_outstanding (log s) = 1 →
  commit s = Panic "bget: no buffers" ∧ end_op s = Panic "bget: no buffers".
Proof.
  intros Hc HB Hd Hn Hb Hcm Ho. split; [by apply (commit_no_buffers p pid B)|].
  pose proof (ca_env _ _ _ _ _ Hc) as He. unfold end_op. rewrite (bind_Ok _ _ _ _ _ (env_acquire p s _ He)). kstep. kstep.
  simpl. rewrite Hcm, Ho. simpl. kstep.
  erewrite bind_Ok; [|apply (env_release p s); try done; simpl; by rewrite (e_locks _ _ He)].
  apply bind_Panic, (commit_no_buffers p pid B); try done.
  apply cache_settle, (cache_log _ _ _ _ _ (set_l_committing true (set_l_outstanding 0 (log s)))) in Hc.
  rewrite <- (e_locks _ _ He). unfold upd_log. simpl. rewrite Ho. by destruct s.
Qed.

(** C27: the buffer cache is no larger than the log. In any state with an idle log, begin_op()
    admits three operations. Together they may write 3 * MAXOPBLOCKS blocks; whichever blocks
    outside the log these are, and whatever is written, every write succeeds, and at the end all
    the buffers of the cache are pinned. The first two calls of end_op() return; commit(), and
    with it the third end_op(), panics for want of a buffer. *)
Theorem full_log_panics p pid start s us :
  cache p pid [] [] s → log_idle start s → NoDup us.*1 → Z.of_nat (length us) = 3 * MAXOPBLOCKS →
  Forall (λ u, 0 <= u.1 < 2 ^ 32 ∧ ¬ in_log start u.1) us →
  ∃ s1 s2 s3,
    (begin_op ;; begin_op ;; begin_op) s = Ok tt s1 ∧ l_outstanding (log s1) = 3 ∧
    for_each us update s1 = Ok tt s2 ∧ lh_n (log s2) = LOGBLOCKS ∧
    (∀ i, (i < NBUF)%nat → b_refcnt (buf_at s2 i) = 1 ∧ b_blockno (buf_at s2 i) ∈ us.*1) ∧
    (end_op ;; end_op) s2 = Ok tt s3 ∧ l_outstanding (log s3) = 1 ∧
    commit s3 = Panic "bget: no buffers" ∧ end_op s3 = Panic "bget: no buffers".
Proof.
  intros Hc Hi Hnd Hlen Hus. pose proof (ca_env _ _ _ _ _ Hc) as He. pose proof (three_admitted p s start He Hi) as E1.
  destruct Hi as [Hst Hrng Hdev (Ho & Hcm & Hn) Hl]. set (s1 := upd_log _ _) in *.
  assert (Ht1 : tx p pid [] [] s1).
  { split; try done; [|simpl; lia]. apply (cache_log _ _ _ _ (settle s)). by apply cache_settle. }
  destruct (updates_ok p pid us [] s1 Ht1) as (s2 & E2 & Ht2 & Hl2); [|done| |].
  { eapply Forall_impl; [exact Hus|]. by intros u [? _]. }
  { unfold MAXOPBLOCKS, NBUF in *. simpl. lia. }
  rewrite app_nil_l in Ht2.
  assert (Hfull : length us.*1 = NBUF) by (rewrite length_fmap; unfold MAXOPBLOCKS, NBUF in *; lia).
  assert (Hl2' : log_rest (log s2) = (start, 3, false, ROOTDEV))
    by (rewrite Hl2; unfold log_rest; cbn; by rewrite Hst, Hcm, Hdev).
  injection Hl2' as Hst2 Ho2 Hcm2 Hdev2.
  destruct (end_op_left p pid _ s2 2 Ht2 Hcm2 Ho2 ltac:(lia)) as [E3 Ht3].
  destruct (end_op_left p pid _ _ 1 Ht3 Hcm2 eq_refl ltac:(lia)) as [E4 Ht4].
  destruct (end_op_no_buffers p pid us.*1 (left_open p 1 (left_open p 2 s2))) as [E5 E6]; try done; [apply Ht4| | |].
  { rewrite (tx_n _ _ _ _ _ Ht4), Hfull. done. }
  { change (u32 (l_start (log s2) + 1) ∉ us.*1). rewrite Hst2.
    rewrite u32_small by (unfold LOGBLOCKS, MAXOPBLOCKS in *; lia). intros (u & Eu & Hu)%list_elem_of_fmap.
    rewrite Forall_forall in Hus. destruct (Hus u Hu) as [_ []]. rewrite <- Eu.
    unfold in_log, LOGBLOCKS, MAXOPBLOCKS. lia. }
  exists s1, s2, (left_open p 1 (left_open p 2 s2)). split_and!; try done.
  - rewrite (tx_n _ _ _ _ _ Ht2), Hfull. done.
  - intros i Hi. by destruct (all_pinned p pid _ s2 i (tx_cache _ _ _ _ _ Ht2) Hfull Hi) as (_ & ? & ?).
  - by rewrite (bind_Ok _ _ _ _ _ E3).
Qed.

(** ** A concrete cache *)

Definition idle_fs : kernel :=
  set_log (Log 2 0 false ROOTDEV 0 0 (replicate (Z.to_nat LOGBLOCKS) 0)) (demo_fs (λ _, zero_block) []).

Lemma full_log_panics_witness :
  ∃ s1 s2, (begin_op ;; begin_op ;; begin_op) idle_fs = Ok tt s1 ∧
    for_each ((λ i, (100 + Z.of_nat i, zero_block)) <$> seq 0 30) update s1 = Ok tt s2 ∧
    (end_op ;; end_op ;; end_op) s2 = Panic "bget: no buffers".
Proof.
  destruct (full_log_panics 0 1 2 idle_fs ((λ i, (100 + Z.of_nat i, zero_block)) <$> seq 0 30))
    as (s1 & s2 & s3 & E1 & _ & E2 & _ & _ & E3 & _ & _ & E4).
  - apply cache_log, demo_cache; [vm_compute; lia | constructor].
  - split; try reflexivity.
    + vm_compute. split; congruence.
    + split_and!; reflexivity.
  - apply (bool_decide_unpack _). vm_compute. exact I.
  - reflexivity.
  - apply Forall_fmap, Forall_seq. intros j Hj. simpl. unfold in_log, LOGBLOCKS, MAXOPBLOCKS. lia.
  - exists s1, s2. split; [exact E1|]. split; [exact E2|].
    destruct (end_op s2) eqn:Ee; unfold bind in E3 |- *; rewrite Ee in E3 |- *; simpl in E3 |- *; try discriminate E3.
    rewrite E3. simpl. exact E4.
Defined.
