(* ===== verification/FsBlock.v ===== *)
(** The block allocator: balloc(), bfree() and bzero() of kernel/fs.c, run inside a
    transaction on the buffer cache, implement a set of free blocks. *)
From S2P Require Import Prelude Pstat Kernel Spinlock Sched Cstring Riscv Kalloc Vm ProcMem Sleeplock Uart Bio Log.
From S2P Require Import Cache Crash Fs Tx.

(** ** Bits *)

Definition byte (x : Z) : Prop := 0 <= x < 2 ^ 8.
Definition is_block_data (d : list Z) : Prop := length d = Z.to_nat BSIZE ∧ Forall byte d.

Lemma land_bit x k : 0 <= k → Z.land x (Z.shiftl 1 k) = if Z.testbit x k then 2 ^ k else 0.
Proof.
  intros Hk. rewrite Z.shiftl_1_l. apply Z.bits_inj'. intros n Hn. rewrite Z.land_spec, Z.pow2_bits_eqb by done.
  destruct (k =? n) eqn:E; [apply Z.eqb_eq in E as <- | apply Z.eqb_neq in E].
  - destruct (Z.testbit x k); [by rewrite Z.pow2_bits_true | by rewrite Z.bits_0].
  - rewrite andb_false_r. destruct (Z.testbit x k); [by rewrite Z.pow2_bits_false by lia | by rewrite Z.bits_0].
Qed.
Lemma bit_free_testbit d bi : bit_free d bi = negb (Z.testbit (bit_byte d bi) (bi mod 8)).
Proof.
  pose proof (Z.mod_pos_bound bi 8). unfold bit_free, bit_mask. rewrite land_bit by lia.
  destruct (Z.testbit _ _); simpl; [|done]. apply Z.eqb_neq. apply Z.pow_nonzero; lia.
Qed.

Lemma testbit_u8 x k : 0 <= k < 8 → Z.testbit (u8 x) k = Z.testbit x k.
Proof. intros. unfold u8. by rewrite Z.mod_pow2_bits_low by lia. Qed.
Lemma u8_byte x : byte (u8 x).
Proof. apply u8_range. Qed.

Lemma bit_byte_insert d bi bj v :
  0 <= bi < BPB → 0 <= bj → length d = Z.to_nat BSIZE →
  bit_byte (<[Z.to_nat (bi / 8) := v]> d) bj = if bi / 8 =? bj / 8 then v else bit_byte d bj.
Proof.
  intros Hi Hj Hl. unfold bit_byte. assert (0 <= bj / 8) by (apply Z.div_pos; lia).
  assert (0 <= bi / 8 < BSIZE) by (unfold BPB, BSIZE in *; dlia).
  destruct (bi / 8 =? bj / 8) eqn:E; [apply Z.eqb_eq in E as <- | apply Z.eqb_neq in E].
  - rewrite list_lookup_insert_eq by lia. done.
  - rewrite list_lookup_insert_ne by lia. done.
Qed.

Lemma bit_set_ok d bi :
  is_block_data d → 0 <= bi < BPB →
  is_block_data (bit_set d bi) ∧ ∀ bj, 0 <= bj → bit_free (bit_set d bi) bj = bit_free d bj && negb (bj =? bi).
Proof.
  intros [Hl Hb] Hi. split.
  { split; [by unfold bit_set; rewrite length_insert | apply Forall_insert; [done | apply u8_byte]]. }
  intros bj Hj. rewrite !bit_free_testbit. unfold bit_set. rewrite bit_byte_insert by done.
  pose proof (Z.mod_pos_bound bj 8). pose proof (Z.mod_pos_bound bi 8).
  pose proof (Z.div_mod bj 8). pose proof (Z.div_mod bi 8).
  destruct (bi / 8 =? bj / 8) eqn:E; [apply Z.eqb_eq in E | apply Z.eqb_neq in E].
  - rewrite testbit_u8, Z.lor_spec by lia. unfold bit_mask. rewrite Z.shiftl_1_l, Z.pow2_bits_eqb by lia.
    assert (Ebb : bit_byte d bi = bit_byte d bj) by (unfold bit_byte; by rewrite E). rewrite Ebb, negb_orb. f_equal.
    f_equal. destruct (bj =? bi) eqn:Ej; [apply Z.eqb_eq in Ej; subst; apply Z.eqb_refl | apply Z.eqb_neq; apply Z.eqb_neq in Ej; lia].
  - destruct (bj =? bi) eqn:Ej; [apply Z.eqb_eq in Ej; by subst | by rewrite andb_true_r].
Qed.

Lemma bit_clear_ok d bi :
  is_block_data d → 0 <= bi < BPB →
  is_block_data (bit_clear d bi) ∧ ∀ bj, 0 <= bj → bit_free (bit_clear d bi) bj = bit_free d bj || (bj =? bi).
Proof.
  intros [Hl Hb] Hi. split.
  { split; [by unfold bit_clear; rewrite length_insert | apply Forall_insert; [done | apply u8_byte]]. }
  intros bj Hj. rewrite !bit_free_testbit. unfold bit_clear. rewrite bit_byte_insert by done.
  pose proof (Z.mod_pos_bound bj 8). pose proof (Z.mod_pos_bound bi 8).
  pose proof (Z.div_mod bj 8). pose proof (Z.div_mod bi 8).
  destruct (bi / 8 =? bj / 8) eqn:E; [apply Z.eqb_eq in E | apply Z.eqb_neq in E].
  - rewrite testbit_u8, Z.land_spec, Z.lnot_spec by lia. unfold bit_mask. rewrite Z.shiftl_1_l, Z.pow2_bits_eqb by lia.
    assert (Ebb : bit_byte d bi = bit_byte d bj) by (unfold bit_byte; by rewrite E). rewrite Ebb, negb_andb, negb_involutive.
    f_equal. destruct (bj =? bi) eqn:Ej; [apply Z.eqb_eq in Ej; subst; apply Z.eqb_refl | apply Z.eqb_neq; apply Z.eqb_neq in Ej; lia].
  - destruct (bj =? bi) eqn:Ej; [apply Z.eqb_eq in Ej; by subst | by rewrite orb_false_r].
Qed.

(** The first free bit. *)
Lemma free_bit_ok d n :
  match free_bit d n with
  | Some bi => 0 <= bi < n ∧ bit_free d bi = true ∧ ∀ bj, 0 <= bj < bi → bit_free d bj = false
  | None => ∀ bj, 0 <= bj < n → bit_free d bj = false
  end.
Proof.
  pose proof (find_first (bit_free d) (Z.of_nat <$> seq 0 (Z.to_nat n))) as H. unfold free_bit.
  destruct (List.find _ _) as [bi|].
  - destruct H as (k & Hk & Hf & Hlt). rewrite list_lookup_fmap in Hk.
    destruct (seq 0 (Z.to_nat n) !! k) as [i|] eqn:E; [|done]. apply lookup_seq in E as [-> Hkn].
    injection Hk as <-. simpl in *. split_and!; [lia | lia | done |]. intros bj Hj.
    apply (Hlt (Z.to_nat bj)); [lia|]. rewrite list_lookup_fmap.
    rewrite (proj2 (lookup_seq 0 (Z.to_nat n) (Z.to_nat bj) (Z.to_nat bj))) by lia. simpl. f_equal. lia.
  - intros bj Hj. apply H, list_elem_of_fmap. exists (Z.to_nat bj). rewrite elem_of_seq. lia.
Qed.

(** ** The set of free blocks *)

Definition block_free (s : kernel) (b : Z) : bool :=
  bit_free (content s (BBLOCK b (sb s))) (b mod BPB).

(** A disk with its superblock in memory: every block is BSIZE bytes, the bitmap lies
    on the disk, and the boot block and the bitmap's own blocks are in use. *)
Record disk_ok (s : kernel) : Prop := {
  dk_data : ∀ b, is_block_data (content s b);
  dk_size : 0 <= sb_size (sb s) < 2 ^ 31;
  dk_map : 0 <= sb_bmapstart (sb s) ∧ ∀ b, 0 <= b < sb_size (sb s) → b / BPB + sb_bmapstart (sb s) < sb_size (sb s);
  dk_boot : block_free s 0 = false;
  dk_used : ∀ b, 0 <= b < sb_size (sb s) → block_free s (BBLOCK b (sb s)) = false;
}.

Lemma BBLOCK_ok s b :
  disk_ok s → 0 <= b < sb_size (sb s) →
  BBLOCK b (sb s) = b / BPB + sb_bmapstart (sb s) ∧ 0 <= BBLOCK b (sb s) < sb_size (sb s).
Proof.
  intros [_ Hsz [Hm0 Hm] _ _] Hb. specialize (Hm b Hb). unfold BBLOCK.
  assert (0 <= b / BPB) by (apply Z.div_pos; unfold BPB, BSIZE; lia). rewrite u32_small; lia.
Qed.

(** What stays the same when blocks are read. *)
Record unchanged (s s' : kernel) : Prop := {
  un_content : ∀ b, content s' b = content s b;
  un_frame : tx_frame s s';
  un_hist : disk_hist s' = disk_hist s;
}.

(** The held buffers stay where they are. *)
Definition held_kept (H : list nat) (s s' : kernel) : Prop := ∀ b j, j ∈ H → cached s b j → cached s' b j.

Lemma held_kept_trans H s1 s2 s3 : held_kept H s1 s2 → held_kept H s2 s3 → held_kept H s1 s3.
Proof. intros H1 H2 b j Hj Hc. by apply H2, H1. Qed.
Lemma held_back p pid B H s s' b j : tx p pid B H s → held_kept H s s' → j ∈ H → cached s' b j → cached s b j.
Proof.
  intros Ht Hk Hj Hc. destruct (ca_held _ _ _ _ _ (tx_cache _ _ _ _ _ Ht) j Hj) as [Hlt Hd].
  assert (H0 : cached s (b_blockno (buf_at s j)) j) by (split; [done | by apply is_block_spec]).
  by rewrite (cached_inj _ _ _ _ Hc (Hk _ _ Hj H0)).
Qed.

(** No held buffer is a bitmap block or a free block. *)
Definition clear_of (H : list nat) (s : kernel) : Prop :=
  ∀ i b, i ∈ H → cached s b i →
    block_free s b = false ∧ ∀ b', 0 <= b' < sb_size (sb s) → b ≠ BBLOCK b' (sb s).

Lemma block_free_eq s s' b :
  sb s' = sb s → content s' (BBLOCK b (sb s)) = content s (BBLOCK b (sb s)) → block_free s' b = block_free s b.
Proof. unfold block_free. by intros -> ->. Qed.

(** [s'] is [s] with block [b] taken from the bitmap and zeroed. *)
Definition zeros : list Z := replicate (Z.to_nat BSIZE) 0.
Record allocated (p : nat) (pid : Z) (B : list Z) (H : list nat) (b : Z) (s s' : kernel) : Prop := {
  al_tx : tx p pid (logged b (logged (BBLOCK b (sb s)) B)) H s';
  al_content : ∀ x, content s' x =
    if decide (x = b) then zeros
    else if decide (x = BBLOCK b (sb s)) then bit_set (content s x) (b mod BPB) else content s x;
  al_frame : tx_frame s s';
  al_held : held_kept H s s';
}.

Section run.
Variables (p : nat) (pid : Z).

Lemma bzero_ok B H s b :
  tx p pid B H s → (∀ i, i ∈ H → ¬ cached s b i) → 0 <= b < 2 ^ 32 →
  (length B + length H < NBUF)%nat → (length B < Z.to_nat LOGBLOCKS)%nat →
  ∃ s', bzero ROOTDEV b s = Ok tt s' ∧ tx p pid (logged b B) H s'
    ∧ (∀ x, content s' x = if decide (x = b) then zeros else content s x) ∧ tx_frame s s' ∧ held_kept H s s'.
Proof.
  intros Ht Hn Hb Hl Hl'. unfold bzero. rewrite u32_small by done.
  destruct (tx_bread _ _ _ _ _ b Ht Hn Hl) as (i & s1 & E1 & Ht1 & Hi1 & Hd1 & Hct1 & Hh1 & Hf1 & Hk1).
  rewrite (bind_Ok _ _ _ _ _ E1). unfold set_data. kstep.
  destruct (tx_put _ _ _ _ s1 i b zeros Ht1 Hi1 Hb Hl') as (s2 & s3 & E2 & E3 & Ht3 & Hct3 & Hh3 & Hf3 & Hk3).
  fold zeros. rewrite (bind_Ok _ _ _ _ _ E2). exists s3. split_and!; [exact E3 | exact Ht3 | | |].
  - intros x. by rewrite Hct3, Hct1.
  - apply (tx_frame_trans _ s1); [by apply tx_frame_fs | done].
  - intros x j Hj Hc. by apply Hk3, Hk1.
Qed.

Lemma bitmap_index k bi : 0 <= bi < BPB → (BPB * k + bi) / BPB = k ∧ (BPB * k + bi) mod BPB = bi.
Proof. unfold BPB, BSIZE. intros. dlia. Qed.
Lemma BBLOCK_index k bi sb : 0 <= bi < BPB → BBLOCK (BPB * k + bi) sb = BBLOCK (BPB * k) sb.
Proof.
  intros Hb. unfold BBLOCK. destruct (bitmap_index k bi Hb) as [-> _].
  destruct (bitmap_index k 0) as [E _]; [unfold BPB, BSIZE; lia|]. by rewrite Z.add_0_r in E; rewrite E.
Qed.

(** The blocks whose bits one round looks at. *)
Definition round_of (s : kernel) (k : Z) (b : Z) : Prop := BPB * k <= b < BPB * k + Z.min BPB (sb_size (sb s) - BPB * k).
Lemma round_index s k b : round_of s k b → ∃ bi, b = BPB * k + bi ∧ 0 <= bi < Z.min BPB (sb_size (sb s) - BPB * k).
Proof. unfold round_of. intros. exists (b - BPB * k). lia. Qed.
Lemma block_free_round s k bi :
  0 <= bi < BPB → block_free s (BPB * k + bi) = bit_free (content s (BBLOCK (BPB * k) (sb s))) bi.
Proof.
  intros Hb. unfold block_free. rewrite BBLOCK_index by done. by destruct (bitmap_index k bi Hb) as [_ ->].
Qed.

Lemma clear_bitmap H s b : clear_of H s → 0 <= b < sb_size (sb s) → ∀ i, i ∈ H → ¬ cached s (BBLOCK b (sb s)) i.
Proof. intros Hcl Hb i Hi Hc. destruct (Hcl i _ Hi Hc) as [_ Hn]. by apply (Hn b). Qed.
Lemma clear_free H s b : clear_of H s → block_free s b = true → ∀ i, i ∈ H → ¬ cached s b i.
Proof. intros Hcl Hb i Hi Hc. destruct (Hcl i _ Hi Hc) as [Hn _]. congruence. Qed.

Lemma balloc_round_ok B H s k :
  tx p pid B H s → disk_ok s → clear_of H s → 0 <= k → BPB * k < sb_size (sb s) →
  (length B + length H + 1 < NBUF)%nat → (length B + 1 < Z.to_nat LOGBLOCKS)%nat →
  ∃ r s', balloc_round ROOTDEV (BPB * k) s = Ok r s' ∧
    match r with
    | None => (∀ b, round_of s k b → block_free s b = false)
        ∧ tx p pid B H s' ∧ unchanged s s' ∧ held_kept H s s'
    | Some b => round_of s k b ∧ block_free s b = true ∧ (∀ b', round_of s k b' → b' < b → block_free s b' = false)
        ∧ allocated p pid B H b s s'
    end.
Proof.
  intros Ht Hdk Hcl Hk0 Hk Hl Hl'. unfold balloc_round. kstep. set (bb := BBLOCK (BPB * k) (sb s)).
  assert (Hb0 : 0 <= BPB * k < sb_size (sb s)) by (unfold BPB, BSIZE in *; lia).
  destruct (BBLOCK_ok s _ Hdk Hb0) as [_ Hbb]. fold bb in Hbb. pose proof (dk_size _ Hdk) as Hsz.
  destruct (tx_bread p pid B H s bb Ht (clear_bitmap _ _ _ Hcl Hb0)) as (i & s1 & E1 & Ht1 & Hi1 & Hd1 & Hct1 & Hh1 & Hf1 & Hk1);
    [lia|]. rewrite (bind_Ok _ _ _ _ _ E1). unfold get_data, set_data. kstep. rewrite Hd1.
  pose proof (free_bit_ok (content s bb) (Z.min BPB (sb_size (sb s) - BPB * k))) as Hfb.
  destruct (free_bit _ _) as [bi|].
  - destruct Hfb as (Hbi & Hfree & Hfirst). kstep.
    pose proof (block_free_round s k bi ltac:(lia)) as Ef. fold bb in Ef. rewrite Hfree in Ef.
    destruct (tx_put p pid B H s1 i bb (bit_set (content s bb) bi) Ht1 Hi1) as (s2 & s3 & E2 & E3 & Ht3 & Hct3 & Hh3 & Hf3 & Hk3);
      [lia | lia |]. rewrite (bind_Ok _ _ _ _ _ E2), (bind_Ok _ _ _ _ _ E3).
    pose proof (length_logged bb B) as Hlog. set (b := BPB * k + bi) in *.
    assert (Hk13 : held_kept H s s3) by (intros x j Hj Hc; by apply Hk3, Hk1).
    destruct (bzero_ok (logged bb B) H s3 b Ht3) as (s4 & E4 & Ht4 & Hct4 & Hf4 & Hk4).
    { intros j Hj Hc. apply (clear_free H s b Hcl Ef j Hj). by eapply held_back. }
    { unfold b. lia. } { lia. } { lia. }
    rewrite (bind_Ok _ _ _ _ _ E4). exists (Some b), s4. split; [reflexivity|].
    assert (Ebb : BBLOCK b (sb s) = bb) by (apply BBLOCK_index; lia).
    split; [unfold round_of, b; lia|]. split; [done|]. split.
    + intros b' (bj & -> & Hbj)%round_index Hlt. rewrite block_free_round by lia. apply Hfirst. unfold b in Hlt. lia.
    + split; rewrite ?Ebb.
      * done.
      * intros x. destruct (bitmap_index k bi ltac:(lia)) as [_ Em]. fold b in Em. rewrite Hct4, Hct3, Hct1, Em.
        destruct (decide (x = b)); [done|]. by destruct (decide (x = bb)) as [->|].
      * apply (tx_frame_trans _ s1); [by apply tx_frame_fs|]. by apply (tx_frame_trans _ s3).
      * by eapply held_kept_trans.
  - destruct (tx_brelse p pid B H s1 i bb Ht1 Hi1) as (s2 & E2 & Ht2 & Hct2 & Hh2 & Hf2 & Hk2).
    { destruct (tx_clean p pid B H s bb Ht (clear_bitmap _ _ _ Hcl Hb0)) as [?|Hc]; [by left | right].
      by rewrite Hct1, (disk_read_eq s s1) by (done || by apply fs_frame_img). }
    rewrite (bind_Ok _ _ _ _ _ E2). exists None, s2. split; [reflexivity|]. split_and!; [| done | |].
    + intros b (bj & -> & Hbj)%round_index. rewrite block_free_round by lia. by apply Hfb.
    + split; [intros x; by rewrite Hct2, Hct1 | apply (tx_frame_trans _ s1); by apply tx_frame_fs | by rewrite Hh2].
    + intros x j Hj Hc. by apply Hk2, Hk1.
Qed.

Lemma unchanged_trans s1 s2 s3 : unchanged s1 s2 → unchanged s2 s3 → unchanged s1 s3.
Proof. intros [H1 F1 D1] [H2 F2 D2]. split; [intros b; by rewrite H2 | by eapply tx_frame_trans | by rewrite D2]. Qed.

Lemma same_free s t b : sb t = sb s → (∀ b, content t b = content s b) → block_free t b = block_free s b.
Proof. intros Hsb Hct. by apply block_free_eq. Qed.
Lemma same_disk s t : sb t = sb s → (∀ b, content t b = content s b) → disk_ok s → disk_ok t.
Proof.
  intros Hsb Hct [D1 D2 D3 D4 D5]. split; rewrite ?Hsb; try done.
  - intros b. by rewrite Hct.
  - by rewrite (same_free s).
  - intros b Hb. rewrite (same_free s) by done. by apply D5.
Qed.
Lemma same_clear B H s t :
  sb t = sb s → (∀ b, content t b = content s b) → tx p pid B H s → held_kept H s t → clear_of H s → clear_of H t.
Proof.
  intros Hsb Hct Ht Hk Hcl i b Hi Hc. rewrite (same_free s), Hsb by done. apply (Hcl i); [done|]. by eapply held_back.
Qed.

(** The searches from round [k] on. *)
Lemma balloc_search B H s n : ∀ k t,
  tx p pid B H s → disk_ok s → clear_of H s →
  (length B + length H + 1 < NBUF)%nat → (length B + 1 < Z.to_nat LOGBLOCKS)%nat →
  Z.of_nat (k + n) = (sb_size (sb s) + BPB - 1) / BPB →
  tx p pid B H t → sb t = sb s → (∀ b, content t b = content s b) → held_kept H s t →
  ∃ r s', for_find (seq k n) (λ k, balloc_round ROOTDEV (BPB * Z.of_nat k)) t = Ok r s' ∧
    match r with
    | None => (∀ b, BPB * Z.of_nat k <= b < sb_size (sb s) → block_free s b = false)
        ∧ tx p pid B H s' ∧ (∀ b, content s' b = content s b) ∧ (s' = t ∨ tx_frame t s') ∧ held_kept H s s'
        ∧ disk_hist s' = disk_hist t
    | Some b => BPB * Z.of_nat k <= b < sb_size (sb s) ∧ block_free s b = true
        ∧ (∀ b', BPB * Z.of_nat k <= b' < b → block_free s b' = false)
        ∧ ∃ t', (t' = t ∨ tx_frame t t') ∧ tx p pid B H t' ∧ (∀ b, content t' b = content s b) ∧ sb t' = sb s
            ∧ held_kept H s t' ∧ allocated p pid B H b t' s'
    end.
Proof.
  induction n as [|n IH]; intros k t Hts Hdk Hcl Hl Hl' Hn Ht Hsb Hct Hk; cbn [seq for_find].
  { exists None, t. split; [reflexivity|]. split; [|by eauto 10]. intros b Hb. rewrite Nat.add_0_r in Hn.
    unfold BPB, BSIZE in *. exfalso. dlia. }
  assert (Hkr : BPB * Z.of_nat k < sb_size (sb s)) by (unfold BPB, BSIZE in *; dlia).
  destruct (balloc_round_ok B H t (Z.of_nat k) Ht) as (r & t1 & E1 & Hr);
    [by eapply same_disk | by eapply same_clear | lia | by rewrite Hsb | done | done |].
  rewrite (bind_Ok _ _ _ _ _ E1). unfold round_of in Hr. rewrite Hsb in Hr. destruct r as [b|].
  - exists (Some b), t1. split; [reflexivity|]. destruct Hr as (R1 & R2 & R3 & R4).
    rewrite (same_free s) in R2 by done. split_and!; [lia | lia | done | |].
    + intros b' Hb'. rewrite <- (same_free s t) by done. apply R3; lia.
    + exists t. split_and!; eauto.
  - destruct Hr as (R1 & R2 & [R3 R4 R6] & R5). destruct (tx_frame_fields _ _ R4) as (Hsb1 & _).
    assert (Hct1 : ∀ b, content t1 b = content s b) by (intros b; by rewrite R3).
    destruct (IH (S k) t1) as (r & s' & E & Hs'); try done; [lia | by rewrite Hsb1 | by eapply held_kept_trans |].
    exists r, s'. split; [exact E|].
    assert (Hsk : ∀ b, BPB * Z.of_nat k <= b < BPB * Z.of_nat (S k) → b < sb_size (sb s) → block_free s b = false).
    { intros b Hb Hb'. rewrite <- (same_free s t) by done. apply R1. unfold BPB, BSIZE in *. lia. }
    assert (Hfr : ∀ t2, t2 = t1 ∨ tx_frame t1 t2 → tx_frame t t2) by (intros t2 [->|?]; eauto using tx_frame_trans).
    destruct r as [b|].
    + destruct Hs' as (S1 & S2 & S3 & t' & S4 & S5). split_and!; [unfold BPB, BSIZE in *; lia | lia | done | |].
      * intros b' Hb'. destruct (decide (b' < BPB * Z.of_nat (S k))); [apply Hsk; lia | apply S3; lia].
      * exists t'. split; [right; by apply Hfr | done].
    + destruct Hs' as (S1 & S2 & S3 & S4 & S5 & S6). split_and!; [| done | done | right; by apply Hfr | done | by rewrite S6].
      intros b Hb. destruct (decide (b < BPB * Z.of_nat (S k))); [apply Hsk; lia | apply S1; lia].
Qed.

Lemma frame_printable s s' : printable s → tx_frame s s' → printable s'.
Proof.
  intros [P1 P2 P3] F. destruct (tx_frame_fields _ _ F) as (_ & _ & _ & _ & L & Pk).
  split; [|by rewrite Pk | by rewrite L]. destruct F as (l & u & _ & ? & ? & ? & ? & ? & _ & ->). simpl. by apply cpu_ok_settled.
Qed.

Lemma balloc_ok B H s :
  tx p pid B H s → disk_ok s → clear_of H s → printable s →
  (length B + length H + 1 < NBUF)%nat → (length B + 1 < Z.to_nat LOGBLOCKS)%nat →
  ∃ r s', balloc ROOTDEV s = Ok r s' ∧
    ((r = 0 ∧ (∀ b, 0 <= b < sb_size (sb s) → block_free s b = false)
      ∧ tx p pid B H s' ∧ unchanged s s' ∧ held_kept H s s')
     ∨ (0 < r < sb_size (sb s) ∧ block_free s r = true ∧ (∀ b, 0 <= b < r → block_free s b = false)
        ∧ allocated p pid B H r s s')).
Proof.
  intros Ht Hdk Hcl Hp Hl Hl'. unfold balloc. kstep. pose proof (dk_size _ Hdk) as Hsz.
  assert (0 <= (sb_size (sb s) + BPB - 1) / BPB) by (apply Z.div_pos; unfold BPB, BSIZE; lia).
  destruct (balloc_search B H s (Z.to_nat ((sb_size (sb s) + BPB - 1) / BPB)) 0 s) as (r & s1 & E1 & Hr); try done; [lia | by intros ? ? |].
  rewrite (bind_Ok _ _ _ _ _ E1). change (Z.of_nat 0) with 0 in Hr. rewrite Z.mul_0_r in Hr. destruct r as [b|].
  - destruct Hr as (R1 & R2 & R3 & t & R4 & R5 & R6 & R7 & R8 & [A1 A2 A3 A4]). exists b, s1. split; [reflexivity|]. right.
    assert (b ≠ 0) by (intros ->; pose proof (dk_boot _ Hdk); congruence).
    split_and!; [lia | lia | done | done |]. rewrite R7 in *. split; [done | | | by eapply held_kept_trans].
    + intros x. by rewrite A2, !R6.
    + destruct R4 as [->|R4]; [done | by eapply tx_frame_trans].
  - destruct Hr as (R1 & R2 & R3 & R4 & R5 & R6).
    assert (Hp1 : printable s1) by (destruct R4 as [->|R4]; [done | by eapply frame_printable]).
    destruct (printk_plain ("balloc: out of blocks" +:+ newline) s1) as (s2 & E2 & S2); [done | | |].
    { by rewrite (e_locks _ _ (ca_env _ _ _ _ _ (tx_cache _ _ _ _ _ R2))). }
    { apply (bool_decide_unpack _). by vm_compute. }
    rewrite (bind_Ok _ _ _ _ _ E2). exists 0, s2. split; [reflexivity|]. left.
    destruct (tx_sent _ _ _ _ _ _ _ R2 S2) as (T1 & T2 & T3). split_and!; [done | done | done | |].
    + pose proof (tx_frame_sent _ _ _ S2 ltac:(by vm_compute)) as F2. split; [intros b; by rewrite T2 | |].
      * destruct R4 as [->|R4]; [done | by eapply tx_frame_trans].
      * rewrite <- R6. by destruct S2 as [_ _ [->| ->]].
    + intros b j Hj Hc. by apply T3, R5.
Qed.

Lemma allocated_free B H s s' r :
  disk_ok s → 0 <= r < sb_size (sb s) → block_free s r = true → allocated p pid B H r s s' →
  disk_ok s' ∧ ∀ b, 0 <= b < sb_size (sb s) → block_free s' b = block_free s b && negb (b =? r).
Proof.
  intros Hdk Hr Hf [A1 A2 A3 A4]. destruct (tx_frame_fields _ _ A3) as (Hsb & _). pose proof (dk_size _ Hdk) as Hsz.
  assert (Hrm : 0 <= r mod BPB < BPB) by (apply Z.mod_pos_bound; unfold BPB, BSIZE; lia).
  destruct (bit_set_ok (content s (BBLOCK r (sb s))) (r mod BPB) (dk_data _ Hdk _) Hrm) as [Hd Hbits].
  assert (Hfree : ∀ b, 0 <= b < sb_size (sb s) → block_free s' b = block_free s b && negb (b =? r)).
  { intros b Hb. unfold block_free at 1. rewrite Hsb, A2. pose proof (dk_used _ Hdk b Hb) as Hu.
    rewrite decide_False by congruence.
    assert (0 <= b mod BPB < BPB) by (apply Z.mod_pos_bound; unfold BPB, BSIZE; lia).
    destruct (decide (BBLOCK b (sb s) = BBLOCK r (sb s))) as [E|E].
    - rewrite E, Hbits by lia. unfold block_free. rewrite E. f_equal. f_equal.
      destruct (BBLOCK_ok s b Hdk Hb) as [E1 _], (BBLOCK_ok s r Hdk Hr) as [E2 _].
      destruct (b =? r) eqn:Eb; [apply Z.eqb_eq in Eb; subst; apply Z.eqb_refl|].
      apply Z.eqb_neq. apply Z.eqb_neq in Eb. intros Em. apply Eb.
      rewrite (Z.div_mod b BPB), (Z.div_mod r BPB) by (unfold BPB, BSIZE; lia). rewrite Em. f_equal. f_equal. lia.
    - destruct (b =? r) eqn:Eb; [apply Z.eqb_eq in Eb; by subst|]. by rewrite andb_true_r. }
  split; [|exact Hfree]. split; rewrite ?Hsb.
  - intros b. rewrite A2. repeat destruct (decide _); [|by subst | apply Hdk].
    split; [apply length_replicate | by apply Forall_replicate].
  - done.
  - apply Hdk.
  - destruct (decide (0 < sb_size (sb s))); [|lia]. rewrite Hfree by lia. by rewrite (dk_boot _ Hdk).
  - intros b Hb. destruct (BBLOCK_ok s b Hdk Hb) as [_ Hbb]. rewrite Hfree by done. by rewrite (dk_used _ Hdk).
Qed.

(** A block of file data: neither the boot block nor part of the bitmap. *)
Definition data_block (s : kernel) (b : Z) : Prop :=
  0 < b < sb_size (sb s) ∧ ∀ b', 0 <= b' < sb_size (sb s) → b ≠ BBLOCK b' (sb s).

Lemma bfree_ok B H s b :
  tx p pid B H s → disk_ok s → clear_of H s → 0 <= b < sb_size (sb s) → block_free s b = false →
  (length B + length H < NBUF)%nat → (length B < Z.to_nat LOGBLOCKS)%nat →
  ∃ s', bfree ROOTDEV b s = Ok tt s' ∧ tx p pid (logged (BBLOCK b (sb s)) B) H s'
    ∧ (∀ x, content s' x = if decide (x = BBLOCK b (sb s)) then bit_clear (content s x) (b mod BPB) else content s x)
    ∧ tx_frame s s' ∧ held_kept H s s'.
Proof.
  intros Ht Hdk Hcl Hb Hu Hl Hl'. unfold bfree. kstep. destruct (BBLOCK_ok s b Hdk Hb) as [_ Hbb].
  pose proof (dk_size _ Hdk) as Hsz. set (bb := BBLOCK b (sb s)) in *.
  destruct (tx_bread p pid B H s bb Ht (clear_bitmap _ _ _ Hcl Hb) Hl) as (i & s1 & E1 & Ht1 & Hi1 & Hd1 & Hct1 & Hh1 & Hf1 & Hk1).
  rewrite (bind_Ok _ _ _ _ _ E1). unfold get_data, set_data. kstep. rewrite Hd1.
  unfold block_free in Hu. fold bb in Hu. rewrite Hu. kstep.
  destruct (tx_put p pid B H s1 i bb (bit_clear (content s bb) (b mod BPB)) Ht1 Hi1) as (s2 & s3 & E2 & E3 & Ht3 & Hct3 & Hh3 & Hf3 & Hk3);
    [lia | lia |]. rewrite (bind_Ok _ _ _ _ _ E2). exists s3. split; [exact E3|]. split_and!; [done | | |].
  - intros x. rewrite Hct3, Hct1. by destruct (decide (x = bb)) as [->|].
  - apply (tx_frame_trans _ s1); [by apply tx_frame_fs | done].
  - intros x j Hj Hc. by apply Hk3, Hk1.
Qed.

Lemma freed_free s s' b :
  disk_ok s → 0 <= b < sb_size (sb s) → sb s' = sb s →
  (∀ x, content s' x = if decide (x = BBLOCK b (sb s)) then bit_clear (content s x) (b mod BPB) else content s x) →
  (∀ x, 0 <= x < sb_size (sb s) → block_free s' x = block_free s x || (x =? b))
  ∧ (data_block s b → disk_ok s').
Proof.
  intros Hdk Hb Hsb A2. assert (Hbm : 0 <= b mod BPB < BPB) by (apply Z.mod_pos_bound; unfold BPB, BSIZE; lia).
  destruct (bit_clear_ok (content s (BBLOCK b (sb s))) (b mod BPB) (dk_data _ Hdk _) Hbm) as [Hd Hbits].
  assert (Hfree : ∀ x, 0 <= x < sb_size (sb s) → block_free s' x = block_free s x || (x =? b)).
  { intros x Hx. unfold block_free at 1. rewrite Hsb, A2.
    assert (0 <= x mod BPB < BPB) by (apply Z.mod_pos_bound; unfold BPB, BSIZE; lia).
    destruct (decide (BBLOCK x (sb s) = BBLOCK b (sb s))) as [E|E].
    - rewrite E, Hbits by lia. unfold block_free. rewrite E. f_equal.
      destruct (BBLOCK_ok s x Hdk Hx) as [E1 _], (BBLOCK_ok s b Hdk Hb) as [E2 _].
      destruct (x =? b) eqn:Eb; [apply Z.eqb_eq in Eb; subst; apply Z.eqb_refl|].
      apply Z.eqb_neq. apply Z.eqb_neq in Eb. intros Em. apply Eb.
      rewrite (Z.div_mod x BPB), (Z.div_mod b BPB) by (unfold BPB, BSIZE; lia). rewrite Em. f_equal. f_equal. lia.
    - destruct (x =? b) eqn:Eb; [apply Z.eqb_eq in Eb; by subst|]. by rewrite orb_false_r. }
  split; [exact Hfree|]. intros [Hb0 Hbm']. split; rewrite ?Hsb; try apply Hdk.
  - intros x. rewrite A2. destruct (decide _) as [->|]; [done | apply Hdk].
  - rewrite Hfree by lia. rewrite (dk_boot _ Hdk). cbn [orb]. apply Z.eqb_neq. lia.
  - intros x Hx. destruct (BBLOCK_ok s x Hdk Hx) as [_ Hbb]. rewrite Hfree, (dk_used _ Hdk) by done. cbn [orb].
    apply Z.eqb_neq. intros E. by apply (Hbm' x).
Qed.
End run.

(** C32: balloc() allocates. Inside a transaction with room for two more blocks it
    returns the first block that the bitmap has free, zeroed, with exactly its bit set
    and both blocks in the log, and no other block of the disk changes; when no block
    is free it returns 0 and the disk is as it was. *)
Theorem balloc_correct p pid B s :
  tx p pid B [] s → disk_ok s → printable s → (length B + 1 < NBUF)%nat →
  ∃ r s', balloc ROOTDEV s = Ok r s' ∧ disk_ok s' ∧
    ((r = 0 ∧ (∀ b, 0 <= b < sb_size (sb s) → block_free s b = false)
      ∧ tx p pid B [] s' ∧ ∀ b, content s' b = content s b)
     ∨ (0 < r < sb_size (sb s) ∧ block_free s r = true ∧ (∀ b, 0 <= b < r → block_free s b = false)
        ∧ tx p pid (logged r (logged (BBLOCK r (sb s)) B)) [] s' ∧ content s' r = zeros
        ∧ (∀ b, 0 <= b < sb_size (sb s) → block_free s' b = block_free s b && negb (b =? r))
        ∧ ∀ b, b ≠ r → b ≠ BBLOCK r (sb s) → content s' b = content s b)).
Proof.
  intros Ht Hdk Hp Hl. destruct (balloc_ok p pid B [] s Ht Hdk) as (r & s' & E & Hr);
    [by intros ? ? ?%elem_of_nil | done | simpl; lia | unfold LOGBLOCKS, MAXOPBLOCKS, NBUF in *; lia |].
  exists r, s'. split; [exact E|]. destruct Hr as [(-> & R1 & R2 & [R3 R4 _] & _)|(R1 & R2 & R3 & R4)].
  - destruct (tx_frame_fields _ _ R4) as (Hsb & _). split; [by eapply same_disk|]. left. done.
  - destruct (allocated_free p pid B [] s s' r Hdk ltac:(lia) R2 R4) as [D1 D2]. destruct R4 as [A1 A2 A3 A4].
    split; [done|]. right. split_and!; try done; try lia.
    + by rewrite A2, decide_True.
    + intros b Hb Hb'. by rewrite A2, !decide_False.
Qed.

(** Bfree() returns a block. It clears exactly the bit of the block, in a logged
    bitmap block, and changes no other block; freeing a block that is already free is
    an error, which stops the kernel. *)
Theorem bfree_correct p pid B s b :
  tx p pid B [] s → disk_ok s → data_block s b → (length B < NBUF)%nat →
  if block_free s b then bfree ROOTDEV b s = Panic "freeing free block"
  else ∃ s', bfree ROOTDEV b s = Ok tt s' ∧ disk_ok s' ∧ tx p pid (logged (BBLOCK b (sb s)) B) [] s'
    ∧ (∀ x, 0 <= x < sb_size (sb s) → block_free s' x = block_free s x || (x =? b))
    ∧ ∀ x, x ≠ BBLOCK b (sb s) → content s' x = content s x.
Proof.
  intros Ht Hdk Hb Hl. pose proof Hb as [Hb0 _].
  assert (Hn : ∀ i : nat, i ∈ [] → ¬ cached s (BBLOCK b (sb s)) i) by (by intros i ?%elem_of_nil).
  destruct (block_free s b) eqn:Ef.
  - unfold bfree. kstep.
    destruct (tx_bread p pid B [] s _ Ht Hn) as (i & s1 & E1 & Ht1 & Hi1 & Hd1 & _); [simpl; lia|].
    rewrite (bind_Ok _ _ _ _ _ E1). unfold get_data. kstep. rewrite Hd1.
    unfold block_free in Ef. by rewrite Ef.
  - destruct (bfree_ok p pid B [] s b Ht Hdk) as (s' & E & T & Hct & Hf & _);
      [by intros ? ? ?%elem_of_nil | lia | done | simpl; lia | unfold LOGBLOCKS, MAXOPBLOCKS, NBUF in *; lia |].
    destruct (tx_frame_fields _ _ Hf) as (Hsb & _).
    destruct (freed_free s s' b Hdk ltac:(lia) Hsb Hct) as [F1 F2]. exists s'. split_and!; auto.
    intros x Hx. by rewrite Hct, decide_False.
Qed.

(** A disk of 2000 blocks whose bitmap is block 45, with 48 blocks in use. *)
Definition demo_sb : superblock := Superblock FSMAGIC 2000 1953 200 31 2 33 45.
Definition demo_image (b : Z) : list Z :=
  if b =? 45 then replicate 6 255 ++ replicate 1018 0 else replicate 1024 0.
Definition demo_tx : kernel := set_sb demo_sb (demo_fs demo_image []).

Lemma cache_sb p pid B H s x : cache p pid B H s → cache p pid B H (set_sb x s).
Proof. intros Hc. pose proof (ca_env _ _ _ _ _ Hc) as []. destruct Hc. by split. Qed.
Lemma demo_content b : content demo_tx b = demo_image b.
Proof.
  rewrite content_uncached; [done|]. intros i [Hi Hc]. change (buf_at demo_tx i) with (buf_at (demo_fs demo_image []) i) in Hc.
  rewrite demo_buf_at in Hc by (done || unfold NBUF; simpl; lia). by vm_compute in Hc.
Qed.
Lemma demo_is_tx : tx 0 1 [] [] demo_tx.
Proof.
  split; try done.
  - apply cache_sb, demo_cache; [unfold NBUF; simpl; lia | constructor].
  - simpl. lia.
Qed.
Lemma demo_disk_ok : disk_ok demo_tx.
Proof.
  assert (HB : ∀ b, 0 <= b < 2000 → BBLOCK b demo_sb = 45).
  { intros b Hb. unfold BBLOCK. rewrite (Z.div_small b) by (unfold BPB, BSIZE; lia). done. }
  assert (H45 : bit_free (demo_image 45) 45 = false) by (by vm_compute).
  split.
  - intros b. rewrite demo_content. unfold demo_image. destruct (b =? 45); (split; [done|]);
      apply (bool_decide_unpack _); by vm_compute.
  - simpl. lia.
  - simpl. split; [lia|]. intros b Hb. unfold BPB, BSIZE. dlia.
  - unfold block_free. rewrite demo_content. by vm_compute.
  - intros b Hb. change (sb demo_tx) with demo_sb in *. change (sb_size demo_sb) with 2000 in Hb.
    unfold block_free. change (sb demo_tx) with demo_sb. rewrite (HB b Hb), demo_content. by vm_compute.
Qed.

Lemma balloc_correct_witness :
  ∃ r s', balloc ROOTDEV demo_tx = Ok r s' ∧ disk_ok s' ∧ r = 48 ∧ block_free demo_tx 48 = true.
Proof.
  destruct (balloc_correct 0 1 [] demo_tx) as (r & s' & E & D & _);
    [apply demo_is_tx | apply demo_disk_ok | split; [split; simpl; lia | done | done] | unfold NBUF; simpl; lia |].
  exists r, s'. split_and!; [exact E | exact D | | by vm_compute].
  vm_compute in E. by injection E.
Defined.

Lemma bfree_correct_witness :
  data_block demo_tx 47 ∧ block_free demo_tx 47 = false ∧ block_free demo_tx 48 = true
  ∧ bfree ROOTDEV 48 demo_tx = Panic "freeing free block"
  ∧ ∃ s', bfree ROOTDEV 47 demo_tx = Ok tt s' ∧ block_free s' 47 = true.
Proof.
  assert (Hd : ∀ b, 45 < b < 2000 → data_block demo_tx b).
  { intros b Hb. split; [simpl; lia|]. intros b' Hb'. change (sb demo_tx) with demo_sb in *.
    change (sb_size demo_sb) with 2000 in Hb'. unfold BBLOCK.
    rewrite (Z.div_small b') by (unfold BPB, BSIZE; lia). change (u32 (0 + sb_bmapstart demo_sb)) with 45. lia. }
  assert (F47 : block_free demo_tx 47 = false) by (by vm_compute).
  assert (F48 : block_free demo_tx 48 = true) by (by vm_compute).
  assert (Hl : (length (A := Z) [] < NBUF)%nat) by (unfold NBUF; simpl; lia).
  pose proof (bfree_correct 0 1 [] demo_tx 47 demo_is_tx demo_disk_ok (Hd 47 ltac:(lia)) Hl) as H1.
  pose proof (bfree_correct 0 1 [] demo_tx 48 demo_is_tx demo_disk_ok (Hd 48 ltac:(lia)) Hl) as H2.
  rewrite F47 in H1. rewrite F48 in H2. split_and!; [by apply Hd | done | done | exact H2 |].
  destruct H1 as (s' & E & _ & _ & Hf & _). exists s'. split; [exact E|]. rewrite Hf by (simpl; lia). by rewrite F47.
Defined.
