(* ===== verification/FsInode.v ===== *)
(** Inodes on disk and in memory: the encoding of [struct dinode], iupdate(), and the
    table of in-memory inodes as a count of references (kernel/fs.c). *)
From S2P Require Import Prelude Pstat Kernel Spinlock Sched Cstring Riscv Kalloc Vm ProcMem Sleeplock Uart Bio Log.
From S2P Require Import Cache Crash Fs Tx FsBlock.

(** ** Words of 16 and 32 bits in a block *)

Lemma length_put16 d off v : length (put16 d off v) = length d.
Proof. unfold put16. by rewrite !length_insert. Qed.
Lemma get16_put16_eq d off v : (off + 1 < length d)%nat → get16 (put16 d off v) off = u16 v.
Proof.
  intros Hl. unfold get16, put16. rewrite list_lookup_insert_eq by (rewrite length_insert; lia).
  rewrite list_lookup_insert_ne, list_lookup_insert_eq by lia. simpl. unfold u8, u16. dlia.
Qed.
Lemma get16_put16_ne d off off' v :
  (off + 2 <= off' ∨ off' + 2 <= off)%nat → get16 (put16 d off' v) off = get16 d off.
Proof. intros H. unfold get16, put16. by rewrite !list_lookup_insert_ne by lia. Qed.
Lemma get16_put32_ne d off off' v :
  (off + 2 <= off' ∨ off' + 4 <= off)%nat → get16 (put32 d off' v) off = get16 d off.
Proof. intros H. unfold get16, put32. by rewrite !list_lookup_insert_ne by lia. Qed.
Lemma get32_put16_ne d off off' v :
  (off + 4 <= off' ∨ off' + 2 <= off)%nat → get32 (put16 d off' v) off = get32 d off.
Proof. intros H. unfold get32, put16. by rewrite !list_lookup_insert_ne by lia. Qed.
Lemma i16_u16 x : - 2 ^ 15 <= x < 2 ^ 15 → i16 (u16 x) = x.
Proof. intros. unfold i16, u16. dlia. Qed.

(** [put_bytes]: both kinds of store keep a block a block. *)
Lemma put16_data d off v : is_block_data d → is_block_data (put16 d off v).
Proof.
  intros [Hl Hb]. split; [by rewrite length_put16|]. unfold put16.
  repeat (apply Forall_insert; [|apply u8_byte]). done.
Qed.
Lemma put32_data d off v : is_block_data d → is_block_data (put32 d off v).
Proof.
  intros [Hl Hb]. split; [by rewrite length_put32|]. unfold put32.
  repeat (apply Forall_insert; [|apply u8_byte]). done.
Qed.

(** The addresses: a loop of stores. *)
Definition put_words (d : list Z) (off : nat) (l : list Z) (n : nat) : list Z :=
  foldl (λ d i, put32 d (off + 4 * i) (default 0 (l !! i))) d (seq 0 n).
Lemma put_words_S d off l n : put_words d off l (S n) = put32 (put_words d off l n) (off + 4 * n) (default 0 (l !! n)).
Proof. unfold put_words. by rewrite seq_S, foldl_app. Qed.
Lemma length_put_words d off l n : length (put_words d off l n) = length d.
Proof. induction n as [|n IH]; [done|]. by rewrite put_words_S, length_put32. Qed.
Lemma put_words_data d off l n : is_block_data d → is_block_data (put_words d off l n).
Proof. intros H. induction n as [|n IH]; [done|]. rewrite put_words_S. by apply put32_data. Qed.
Lemma get32_put_words_eq d off l n i :
  (off + 4 * n <= length d)%nat → (i < n)%nat → get32 (put_words d off l n) (off + 4 * i) = u32 (default 0 (l !! i)).
Proof.
  induction n as [|n IH]; intros Hl Hi; [lia|]. rewrite put_words_S. destruct (decide (i = n)) as [->|].
  - rewrite get32_put32_eq; [done | rewrite length_put_words; lia].
  - rewrite get32_put32_ne by lia. apply IH; lia.
Qed.
Lemma get32_put_words_ne d off l n k :
  (k + 4 <= off ∨ off + 4 * n <= k)%nat → get32 (put_words d off l n) k = get32 d k.
Proof.
  intros Hk. induction n as [|n IH]; [done|]. rewrite put_words_S, get32_put32_ne by lia. apply IH. lia.
Qed.
Lemma get16_put_words_ne d off l n k :
  (k + 2 <= off ∨ off + 4 * n <= k)%nat → get16 (put_words d off l n) k = get16 d k.
Proof.
  intros Hk. induction n as [|n IH]; [done|]. rewrite put_words_S, get16_put32_ne by lia. apply IH. lia.
Qed.

(** ** The encoding of an inode *)

Record dinode_ok (di : dinode) : Prop := {
  do_type : - 2 ^ 15 <= d_type di < 2 ^ 15;
  do_major : - 2 ^ 15 <= d_major di < 2 ^ 15;
  do_minor : - 2 ^ 15 <= d_minor di < 2 ^ 15;
  do_nlink : - 2 ^ 15 <= d_nlink di < 2 ^ 15;
  do_size : 0 <= d_size di < 2 ^ 32;
  do_addrs : length (d_addrs di) = (NDIRECT + 1)%nat ∧ Forall (λ a, 0 <= a < 2 ^ 32) (d_addrs di);
}.

Lemma write_dinode_words d off di :
  write_dinode d off di
  = put_words (put32 (put16 (put16 (put16 (put16 d off (d_type di)) (off + 2) (d_major di))
      (off + 4) (d_minor di)) (off + 6) (d_nlink di)) (off + 8) (d_size di)) (off + 12) (d_addrs di) (NDIRECT + 1).
Proof. reflexivity. Qed.

Lemma read_write_dinode d off di :
  dinode_ok di → (off + 64 <= length d)%nat → read_dinode (write_dinode d off di) off = di.
Proof.
  intros [H1 H2 H3 H4 H5 [H6 H7]] Hl. rewrite write_dinode_words. set (d4 := put16 _ (off + 6) _).
  assert (L4 : length d4 = length d) by (unfold d4; by rewrite !length_put16).
  unfold read_dinode. destruct di as [ty ma mi nl sz ad].
  cbn [d_type d_major d_minor d_nlink d_size d_addrs] in *. f_equal.
  - rewrite get16_put_words_ne, get16_put32_ne by lia. unfold d4. rewrite !get16_put16_ne by lia.
    rewrite get16_put16_eq by lia. by apply i16_u16.
  - rewrite get16_put_words_ne, get16_put32_ne by lia. unfold d4. rewrite !get16_put16_ne by lia.
    rewrite get16_put16_eq by (rewrite !length_put16; lia). by apply i16_u16.
  - rewrite get16_put_words_ne, get16_put32_ne by lia. unfold d4. rewrite !get16_put16_ne by lia.
    rewrite get16_put16_eq by (rewrite !length_put16; lia). by apply i16_u16.
  - rewrite get16_put_words_ne, get16_put32_ne by lia. unfold d4.
    rewrite get16_put16_eq by (rewrite !length_put16; lia). by apply i16_u16.
  - rewrite get32_put_words_ne, get32_put32_eq by lia. by apply u32_small.
  - apply list_eq. intros i. rewrite list_lookup_fmap. destruct (decide (i < NDIRECT + 1)%nat) as [Hi|Hi].
    + rewrite (proj2 (lookup_seq 0 (NDIRECT + 1) i i)) by lia. cbn [fmap option_fmap option_map].
      rewrite get32_put_words_eq by (rewrite ?length_put32, ?L4; unfold NDIRECT in *; lia).
      destruct (lookup_lt_is_Some_2 ad i) as [a Ha]; [lia|]. rewrite Ha. simpl. f_equal.
      apply u32_small. by apply (Forall_lookup_1 _ _ _ _ H7 Ha).
    + rewrite (lookup_ge_None_2 (seq _ _)) by (rewrite length_seq; lia).
      by rewrite lookup_ge_None_2 by lia.
Qed.

Lemma read_write_other d off off' di :
  (off + 64 <= off' ∨ off' + 64 <= off)%nat → read_dinode (write_dinode d off di) off' = read_dinode d off'.
Proof.
  intros Hd. rewrite write_dinode_words. unfold read_dinode, NDIRECT in *. f_equal.
  1-4: rewrite get16_put_words_ne, get16_put32_ne, !get16_put16_ne by lia; done.
  - rewrite get32_put_words_ne, get32_put32_ne, !get32_put16_ne by lia. done.
  - apply list_fmap_ext. intros i x Hx. apply lookup_seq in Hx as [-> Hx].
    rewrite get32_put_words_ne, get32_put32_ne, !get32_put16_ne by lia. done.
Qed.
Lemma write_dinode_data d off di : is_block_data d → is_block_data (write_dinode d off di).
Proof. intros H. rewrite write_dinode_words. apply put_words_data, put32_data. by repeat apply put16_data. Qed.

(** ** Inodes of the disk *)

Definition dinode_of (s : kernel) (inum : Z) : dinode :=
  read_dinode (content s (IBLOCK inum (sb s))) (dinode_off inum).
Definition dinode_of_inode (ip : inode) : dinode :=
  Dinode (i_type ip) (i_major ip) (i_minor ip) (i_nlink ip) (i_size ip) (i_addrs ip).

(** An inode number whose block number does not wrap around. *)
Definition inum_ok (s : kernel) (n : Z) : Prop :=
  0 <= n ∧ 0 <= sb_inodestart (sb s) ∧ n / IPB + sb_inodestart (sb s) < 2 ^ 32.

Lemma IBLOCK_ok s n : inum_ok s n → IBLOCK n (sb s) = n / IPB + sb_inodestart (sb s) ∧ 0 <= IBLOCK n (sb s) < 2 ^ 32.
Proof.
  intros (H1 & H2 & H3). unfold IBLOCK. assert (0 <= n / IPB) by (apply Z.div_pos; [lia | done]).
  rewrite u32_small; lia.
Qed.
Lemma dinode_off_ok n : (dinode_off n + 64 <= Z.to_nat BSIZE)%nat.
Proof. unfold dinode_off. change IPB with 16. change BSIZE with 1024. pose proof (Z.mod_pos_bound n 16). lia. Qed.
Lemma dinode_off_ne s n m :
  inum_ok s n → inum_ok s m → IBLOCK n (sb s) = IBLOCK m (sb s) → n ≠ m →
  (dinode_off n + 64 <= dinode_off m ∨ dinode_off m + 64 <= dinode_off n)%nat.
Proof.
  intros Hn Hm E Hne. destruct (IBLOCK_ok s n Hn) as [En _], (IBLOCK_ok s m Hm) as [Em _].
  assert (Hd : n / IPB = m / IPB) by lia. unfold dinode_off.
  pose proof (Z.div_mod n IPB ltac:(done)). pose proof (Z.div_mod m IPB ltac:(done)).
  pose proof (Z.mod_pos_bound n IPB ltac:(done)). pose proof (Z.mod_pos_bound m IPB ltac:(done)). nia.
Qed.

(** iupdate() writes one inode. The fields of the in-memory inode, encoded into
    its 64 bytes, are what reading the inode back from its block gives; every other
    inode of the disk, also in the same block, and every other block is unchanged, and
    the block is in the log. *)
Theorem iupdate_correct p pid B s i :
  let ip := inode_at s i in
  tx p pid B [] s → (∀ b, is_block_data (content s b)) → i_dev ip = ROOTDEV → inum_ok s (i_inum ip) →
  dinode_ok (dinode_of_inode ip) → (length B < NBUF)%nat →
  ∃ s', iupdate i s = Ok tt s' ∧ tx p pid (logged (IBLOCK (i_inum ip) (sb s)) B) [] s' ∧ itable s' = itable s
    ∧ (∀ n, inum_ok s n → dinode_of s' n = if decide (n = i_inum ip) then dinode_of_inode ip else dinode_of s n)
    ∧ (∀ b, b ≠ IBLOCK (i_inum ip) (sb s) → content s' b = content s b)
    ∧ (∀ b, is_block_data (content s' b)) ∧ tx_frame s s'.
Proof.
  intros ip Ht Hd Hdev Hnum Hok Hl. unfold iupdate. kstep. kstep. fold ip. rewrite Hdev.
  destruct (IBLOCK_ok s _ Hnum) as [_ Hb]. set (b := IBLOCK (i_inum ip) (sb s)) in *.
  destruct (tx_bread p pid B [] s b Ht) as (j & s1 & E1 & Ht1 & Hj1 & Hd1 & Hct1 & _ & Hf1 & _);
    [by intros ? ?%elem_of_nil | simpl; lia |]. rewrite (bind_Ok _ _ _ _ _ E1). unfold get_data, set_data. kstep. kstep.
  rewrite Hd1. change (Dinode _ _ _ _ _ _) with (dinode_of_inode ip).
  set (d := write_dinode (content s b) (dinode_off (i_inum ip)) (dinode_of_inode ip)).
  destruct (tx_put p pid B [] s1 j b d Ht1 Hj1 Hb) as (s2 & s3 & E2 & E3 & Ht3 & Hct3 & _ & Hf3 & _);
    [unfold LOGBLOCKS, MAXOPBLOCKS, NBUF in *; lia|]. rewrite (bind_Ok _ _ _ _ _ E2).
  assert (Hf : tx_frame s s3) by (apply (tx_frame_trans _ s1); [by apply tx_frame_fs | done]).
  destruct (tx_frame_fields _ _ Hf) as (Hsb & Hit & _).
  assert (Hct : ∀ x, content s3 x = if decide (x = b) then d else content s x) by (intros x; by rewrite Hct3, Hct1).
  exists s3. split; [exact E3|]. split_and!; [done | done | | | | done].
  - intros n Hn. unfold dinode_of. rewrite Hsb, Hct. destruct (decide (n = i_inum ip)) as [->|Hne].
    + fold b. rewrite decide_True by done. apply read_write_dinode; [done|]. destruct (Hd b) as [-> _]. apply dinode_off_ok.
    + destruct (decide (IBLOCK n (sb s) = b)) as [E|E]; [|done]. rewrite E. unfold d. apply read_write_other.
      pose proof (dinode_off_ne s n (i_inum ip) Hn Hnum E Hne). lia.
  - intros x Hx. by rewrite Hct, decide_False.
  - intros x. rewrite Hct. destruct (decide (x = b)); [by apply write_dinode_data | done].
Qed.

(** ** ilock() *)

Lemma cache_inode_lock p pid B H s i x : cache p pid B H s → cache p pid B H (set_slocks (<[SL_inode i := x]> (slocks s)) s).
Proof.
  intros Hc. pose proof (ca_env _ _ _ _ _ Hc) as []. destruct Hc. split; try done. intros j. simpl.
  by rewrite lookup_insert_ne.
Qed.
Lemma cache_itable p pid B H s t : cache p pid B H s → cache p pid B H (set_itable t s).
Proof. intros Hc. pose proof (ca_env _ _ _ _ _ Hc) as []. destruct Hc. by split. Qed.

Lemma inode_at_upd s i f j :
  (i < length (itable s))%nat → inode_at (upd_inode i f s) j = if decide (j = i) then f (inode_at s i) else inode_at s j.
Proof.
  intros Hi. unfold inode_at, upd_inode. simpl. destruct (decide (j = i)) as [->|Hj].
  - rewrite list_lookup_alter_eq. by destruct (lookup_lt_is_Some_2 _ _ Hi) as [x ->].
  - by rewrite list_lookup_alter_ne.
Qed.

Lemma length_upd_inode s i f : length (itable (upd_inode i f s)) = length (itable s).
Proof. apply length_alter. Qed.

Lemma fs_frame_itable s s' : fs_frame s s' → itable s' = itable s ∧ sb s' = sb s ∧ ∀ i, slocks s' !! SL_inode i = slocks s !! SL_inode i.
Proof. by intros (? & ? & ? & ? & ? & [K _] & ->). Qed.

Lemma ilock_start p s i :
  env p s → 1 <= i_ref (inode_at s i) → slocks s !! SL_inode i = None →
  ilock (Some i) s
  = (ip <- get (λ s, inode_at s i) ;;
     when (negb (i_valid ip))
        (sb <- get sb ;;
         bp <- bread (i_dev ip) (IBLOCK (i_inum ip) sb) ;;
         d <- get_data bp ;;
         modify (upd_inode i (from_dinode (read_dinode d (dinode_off (i_inum ip))))) ;;
         brelse bp ;;
         modify (upd_inode i (set_i_valid true)) ;;
         t <- get (λ s, i_type (inode_at s i)) ;;
         when (t =? 0) (panic "ilock: no type")))
    (set_slocks (<[SL_inode i := pid_of s p]> (slocks s)) (settle s)).
Proof.
  intros He Hr Hl. unfold ilock. kstep. rewrite (proj2 (Z.ltb_ge _ _)) by lia.
  by rewrite (bind_Ok _ _ _ _ _ (acquiresleep_ok p s _ He Hl)).
Qed.

(** ilock() gives its caller the inode, locked. An inode that is not yet valid is
    read from its place on the disk, and one that is keeps its fields; the disk and the
    other inodes are as before. An inode that is free on the disk is an error, which
    stops the kernel. *)
Theorem ilock_correct p pid B s i :
  let ip := inode_at s i in
  cache p pid B [] s → (i < length (itable s))%nat → 1 <= i_ref ip → slocks s !! SL_inode i = None →
  i_dev ip = ROOTDEV → (length B < NBUF)%nat →
  if negb (i_valid ip) && (d_type (dinode_of s (i_inum ip)) =? 0) then ilock (Some i) s = Panic "ilock: no type"
  else ∃ s', ilock (Some i) s = Ok tt s' ∧ cache p pid B [] s' ∧ (∀ b, content s' b = content s b)
    ∧ slocks s' !! SL_inode i = Some pid ∧ (∀ j, j ≠ i → slocks s' !! SL_inode j = slocks s !! SL_inode j)
    ∧ sb s' = sb s ∧ length (itable s') = length (itable s) ∧ (∀ j, j ≠ i → inode_at s' j = inode_at s j)
    ∧ inode_at s' i = if i_valid ip then ip else set_i_valid true (from_dinode (dinode_of s (i_inum ip)) ip).
Proof.
  intros ip Hc Hi Hr Hl Hdev HB. pose proof (ca_env _ _ _ _ _ Hc) as He.
  rewrite (ilock_start p s i He Hr Hl). rewrite (ca_pid _ _ _ _ _ Hc). kstep.
  set (s0 := set_slocks _ (settle s)). change (inode_at s0 i) with ip.
  assert (Hc0 : cache p pid B [] s0) by (apply (cache_inode_lock _ _ _ _ (settle s)); by apply cache_settle).
  assert (Hl0 : slocks s0 !! SL_inode i = Some pid) by apply lookup_insert_eq.
  destruct (i_valid ip) eqn:Ev; cbn [negb andb].
  { exists s0. split; [reflexivity|]. split_and!; try done. intros j Hj. apply lookup_insert_ne. congruence. }
  kstep. rewrite Hdev. change (sb s0) with (sb s). set (b := IBLOCK (i_inum ip) (sb s)).
  destruct (bread_ok p pid B [] s0 b Hc0) as (k & s1 & E1 & Hc1 & Hk1 & Hct1 & Hh1 & Hf1 & _);
    [by intros ? ?%elem_of_nil | right; simpl; lia |]. rewrite (bind_Ok _ _ _ _ _ E1). unfold get_data. kstep. kstep.
  rewrite <- (content_cached _ _ _ _ _ _ _ Hc1 Hk1), Hct1. change (content s0 b) with (content s b).
  change (read_dinode (content s b) _) with (dinode_of s (i_inum ip)). set (di := dinode_of s (i_inum ip)).
  destruct (fs_frame_itable _ _ Hf1) as (Hit1 & Hsb1 & Hsl1).
  set (s2 := upd_inode i (from_dinode di) s1).
  assert (Hcl : b ∈ B ∨ content s2 b = disk_read s2 b).
  { destruct (decide (b ∈ B)); [by left | right]. change (content s1 b = disk_read s1 b).
    rewrite Hct1, (disk_read_eq s0 s1) by (done || by apply fs_frame_img).
    apply (content_clean p pid B []); [done | done | by intros ? ?%elem_of_nil]. }
  destruct (brelse_ok p pid B [] s2 k b (cache_itable _ _ _ _ _ _ Hc1) Hk1 Hcl) as (s3 & E3 & Hc3 & Hct3 & _ & Hf3 & _).
  rewrite (bind_Ok _ _ _ _ _ E3). ksteps. destruct (fs_frame_itable _ _ Hf3) as (Hit3 & Hsb3 & Hsl3).
  assert (Hlen1 : (i < length (itable s1))%nat) by (by rewrite Hit1).
  assert (Hlen3 : (i < length (itable s3))%nat) by (rewrite Hit3; unfold s2; by rewrite length_upd_inode).
  assert (Hat3 : ∀ j, inode_at s3 j = if decide (j = i) then from_dinode di ip else inode_at s j).
  { intros j. unfold inode_at at 1. rewrite Hit3. fold (inode_at s2 j). unfold s2. rewrite inode_at_upd by done.
    unfold inode_at, ip, inode_at. by rewrite Hit1. }
  rewrite inode_at_upd, decide_True, Hat3, decide_True by done.
  change (i_type (set_i_valid true (from_dinode di ip))) with (d_type di).
  destruct (d_type di =? 0); [done|]. eexists. split; [reflexivity|].
  split_and!; [by apply cache_itable | intros x; change (content s3 x = content s0 x); rewrite Hct3; apply Hct1 | by simpl; rewrite Hsl3, Hsl1 | | | | |].
  - intros j Hj. simpl. rewrite Hsl3. simpl. rewrite Hsl1. simpl. apply lookup_insert_ne. congruence.
  - simpl. rewrite Hsb3. simpl. by rewrite Hsb1.
  - rewrite length_upd_inode, Hit3. unfold s2. by rewrite length_upd_inode, Hit1.
  - intros j Hj. by rewrite inode_at_upd, decide_False, Hat3, decide_False by done.
  - by rewrite inode_at_upd, decide_True, Hat3, decide_True by done.
Qed.

(** ** The table as a count of references *)

Definition live (ip : inode) (dev inum : Z) : Prop := 0 < i_ref ip ∧ i_dev ip = dev ∧ i_inum ip = inum.
Record itable_ok (s : kernel) : Prop := {
  it_len : length (itable s) = NINODE;
  it_refs : ∀ i, 0 <= i_ref (inode_at s i);
  it_uniq : ∀ i j dev inum, (i < NINODE)%nat → (j < NINODE)%nat →
    live (inode_at s i) dev inum → live (inode_at s j) dev inum → i = j;
}.

(** The references to an inode, and whether an entry is free. *)
Definition refs (s : kernel) (dev inum : Z) : Z :=
  match List.find (λ i, is_inode dev inum (inode_at s i)) (seq 0 NINODE) with
  | Some i => i_ref (inode_at s i)
  | None => 0
  end.
Definition full_table (s : kernel) : bool := forallb (λ ip, negb (i_ref ip =? 0)) (itable s).

Lemma is_inode_spec dev inum ip : is_inode dev inum ip = true ↔ live ip dev inum.
Proof. unfold is_inode, live. rewrite !andb_true_iff, Z.ltb_lt, !Z.eqb_eq. tauto. Qed.

Lemma refs_live s i dev inum :
  itable_ok s → (i < NINODE)%nat → live (inode_at s i) dev inum → refs s dev inum = i_ref (inode_at s i).
Proof.
  intros Hok Hi Hl. unfold refs. rewrite (find_seq_unique _ _ i); [done | done | by apply is_inode_spec |].
  intros j Hj Hf. apply is_inode_spec in Hf. by apply (it_uniq _ Hok j i dev inum).
Qed.
Lemma refs_none s dev inum : (∀ i, (i < NINODE)%nat → ¬ live (inode_at s i) dev inum) → refs s dev inum = 0.
Proof.
  intros Hn. unfold refs. pose proof (find_seq (λ i, is_inode dev inum (inode_at s i)) NINODE) as Hf.
  destruct (List.find _ _) as [i|]; [|done]. destruct Hf as (Hi & Hf & _). apply is_inode_spec in Hf. by destruct (Hn i Hi).
Qed.

(** Setting one entry [i] to a live entry for an inode that no other entry holds. *)
Lemma refs_upd s i f dev inum :
  itable_ok s → (i < NINODE)%nat → live (f (inode_at s i)) dev inum →
  (∀ j, (j < NINODE)%nat → j ≠ i → ¬ live (inode_at s j) dev inum) →
  (live (inode_at s i) dev inum ∨ i_ref (inode_at s i) = 0) →
  let s' := upd_inode i f s in
  itable_ok s' ∧ refs s' dev inum = i_ref (f (inode_at s i))
  ∧ ∀ dev' inum', (dev', inum') ≠ (dev, inum) → refs s' dev' inum' = refs s dev' inum'.
Proof.
  intros Hok Hi Hl Hn Ho s'. assert (Hlen : (i < length (itable s))%nat) by (by rewrite (it_len _ Hok)).
  pose proof (λ j, inode_at_upd s i f j Hlen) as Hat. fold s' in Hat.
  assert (Hok' : itable_ok s').
  { split.
    - unfold s'. rewrite length_upd_inode. apply Hok.
    - intros j. rewrite Hat. destruct (decide (j = i)); [destruct Hl; lia | apply Hok].
    - intros j k dv im Hj Hk. rewrite !Hat. destruct (decide (j = i)) as [->|], (decide (k = i)) as [->|]; try done.
      + intros (_ & D1 & I1) L2. destruct Hl as (_ & D2 & I2). subst. by destruct (Hn k).
      + intros L2 (_ & D1 & I1). destruct Hl as (_ & D2 & I2). subst. by destruct (Hn j).
      + by apply (it_uniq _ Hok). }
  split_and!; [done | |].
  - rewrite (refs_live s' i) by (done || by rewrite Hat, decide_True). by rewrite Hat, decide_True.
  - intros dv im Hne. assert (Hcase : ∀ j, (j < NINODE)%nat → live (inode_at s' j) dv im ↔ live (inode_at s j) dv im).
    { intros j Hj. rewrite Hat. destruct (decide (j = i)) as [->|]; [|done]. split; intros (L1 & L2 & L3); exfalso.
      - destruct Hl as (_ & D2 & I2). apply Hne. congruence.
      - destruct Ho as [(_ & D2 & I2)|]; [apply Hne; congruence | lia]. }
    unfold refs at 2. pose proof (find_seq (λ i, is_inode dv im (inode_at s i)) NINODE) as Hf.
    destruct (List.find _ _) as [j|].
    + destruct Hf as (Hj & Hf & _). apply is_inode_spec in Hf.
      rewrite (refs_live s' j) by (done || by apply Hcase). rewrite Hat. destruct (decide (j = i)) as [->|]; [|done].
      exfalso. destruct Ho as [(_ & D2 & I2)|], Hf as (? & ? & ?); [apply Hne; congruence | lia].
    + apply refs_none. intros j Hj Hlv. apply Hcase, is_inode_spec in Hlv; [|done]. by rewrite Hf in Hlv.
Qed.

(** The end of iget(): entry [i] is changed by [f] and the lock released. *)
Definition got (i : nat) (f : inode → inode) (s : kernel) : kernel :=
  set_cur (settled (cur s)) (set_locks (locks s) (upd_inode i f s)).
Lemma iget_end s i f :
  cpu_ok (cur s) → locks s !! L_itable = None →
  (modify (upd_inode i f) ;; release L_itable ;; ret i) (lock_state L_itable s) = Ok i (got i f s).
Proof.
  intros Hcpu Hl. kstep. erewrite bind_Ok; [reflexivity|].
  rewrite (release_ok _ _ (cur s)); [| done | done | by apply lookup_insert_eq].
  f_equal. unfold got, upd_inode. simpl. rewrite delete_insert_id by done. by destruct s.
Qed.
Lemma got_ok s i f dev inum :
  itable_ok s → (i < NINODE)%nat → live (f (inode_at s i)) dev inum →
  (∀ j, (j < NINODE)%nat → j ≠ i → ¬ live (inode_at s j) dev inum) →
  (live (inode_at s i) dev inum ∨ i_ref (inode_at s i) = 0) →
  let s' := got i f s in
  itable_ok s' ∧ refs s' dev inum = i_ref (f (inode_at s i))
  ∧ (∀ dev' inum', (dev', inum') ≠ (dev, inum) → refs s' dev' inum' = refs s dev' inum')
  ∧ inode_at s' i = f (inode_at s i) ∧ ∀ j, j ≠ i → inode_at s' j = inode_at s j.
Proof.
  intros Hok Hi Hl Hn Ho s'. destruct (refs_upd s i f dev inum Hok Hi Hl Hn Ho) as ([O1 O2 O3] & R2 & R3).
  assert (Hlen : (i < length (itable s))%nat) by (by rewrite (it_len _ Hok)).
  assert (Hat : ∀ j, inode_at s' j = if decide (j = i) then f (inode_at s i) else inode_at s j)
    by (intros j; exact (inode_at_upd s i f j Hlen)).
  split_and!; [by split | exact R2 | exact R3 | by rewrite Hat, decide_True | by intros j Hj; rewrite Hat, decide_False].
Qed.

Lemma got_frame i f s : got i f s = set_itable (itable (got i f s)) (settle s).
Proof. by destruct s. Qed.

Lemma full_table_spec s : itable_ok s → full_table s = true ↔ ∀ i, (i < NINODE)%nat → i_ref (inode_at s i) ≠ 0.
Proof.
  intros Hok. unfold full_table. rewrite forallb_forall. split.
  - intros H i Hi. rewrite <- (it_len _ Hok) in Hi. destruct (lookup_lt_is_Some_2 _ _ Hi) as [ip Hip].
    unfold inode_at. rewrite Hip. simpl. apply Z.eqb_neq, negb_true_iff, H. by apply list_elem_of_In, (list_elem_of_lookup_2 _ i).
  - intros H ip Hip%list_elem_of_In. apply list_elem_of_lookup_1 in Hip as [j Hj]. specialize (H j).
    unfold inode_at in H. rewrite Hj in H. apply negb_true_iff, Z.eqb_neq, H. apply lookup_lt_Some in Hj. by rewrite <- (it_len _ Hok).
Qed.

(** The inode table counts references. iget() keeps the table well-formed, with at
    most one live entry per inode: it returns the entry of the inode, whose count it
    raises by one, and leaves the counts of all other inodes alone; a new entry is not
    valid. If the inode is in no entry and none is free it is an error, which stops the
    kernel. *)
Theorem iget_correct dev inum s :
  itable_ok s → cpu_ok (cur s) → locks s !! L_itable = None →
  if (refs s dev inum =? 0) && full_table s then iget dev inum s = Panic "iget: no inodes"
  else ∃ i s', iget dev inum s = Ok i s' ∧ itable_ok s' ∧ locks s' = locks s ∧ (i < NINODE)%nat
    ∧ live (inode_at s' i) dev inum ∧ refs s' dev inum = refs s dev inum + 1
    ∧ (∀ dev' inum', (dev', inum') ≠ (dev, inum) → refs s' dev' inum' = refs s dev' inum')
    ∧ (refs s dev inum = 0 → i_valid (inode_at s' i) = false ∧ i_ref (inode_at s i) = 0 ∧ i_ref (inode_at s' i) = 1)
    ∧ (refs s dev inum ≠ 0 → inode_at s' i = set_i_ref (i_ref (inode_at s i) + 1) (inode_at s i)
        ∧ 0 < i_ref (inode_at s i))
    ∧ (∀ j, j ≠ i → inode_at s' j = inode_at s j) ∧ s' = set_itable (itable s') (settle s).
Proof.
  intros Hok Hcpu Hl. unfold iget. rewrite (bind_Ok _ _ _ _ _ (acquire_ok _ _ Hl)). kstep.
  change (inode_at (lock_state L_itable s)) with (inode_at s).
  pose proof (find_seq (λ i, is_inode dev inum (inode_at s i)) NINODE) as Hf.
  destruct (List.find _ (seq 0 NINODE)) as [i|].
  - destruct Hf as (Hi & Hf & _). apply is_inode_spec in Hf. pose proof (refs_live s i dev inum Hok Hi Hf) as Hr.
    pose proof Hf as (F1 & F2 & F3). rewrite (proj2 (Z.eqb_neq _ _)) by lia. cbn [andb].
    rewrite iget_end by done. set (f := λ ip : inode, set_i_ref (i_ref ip + 1) ip).
    assert (Hfl : live (f (inode_at s i)) dev inum) by (split_and!; simpl; [lia | done | done]).
    destruct (got_ok s i f dev inum Hok Hi Hfl) as (R1 & R2 & R3 & R4 & R5); [| by left |].
    { intros j Hj Hne Hlv. apply Hne. by apply (it_uniq _ Hok j i dev inum). }
    exists i, (got i f s). split; [reflexivity|].
    split_and!; [exact R1 | done | done | by rewrite R4 | by rewrite R2, Hr | exact R3 | lia | by rewrite R4 | exact R5 | apply got_frame].
  - assert (Hn : ∀ j, (j < NINODE)%nat → ¬ live (inode_at s j) dev inum).
    { intros j Hj Hlv%is_inode_spec. by rewrite Hf in Hlv. }
    rewrite (refs_none _ _ _ Hn). change (0 =? 0) with true. cbn [andb]. kstep.
    change (inode_at (lock_state L_itable s)) with (inode_at s).
    pose proof (find_seq (λ i, i_ref (inode_at s i) =? 0) NINODE) as Hg.
    destruct (List.find _ (seq 0 NINODE)) as [i|].
    + destruct Hg as (Hi & Hz%Z.eqb_eq & _).
      assert (Hfull : full_table s = false).
      { apply not_true_iff_false. intros Ht. by apply (proj1 (full_table_spec s Hok) Ht i Hi). }
      rewrite Hfull, iget_end by done. set (f := λ ip : inode, _).
      destruct (got_ok s i f dev inum Hok Hi) as (R1 & R2 & R3 & R4 & R5); [done | by intros j Hj _; apply Hn | by right |].
      exists i, (got i f s). split; [reflexivity|].
      split_and!; [exact R1 | done | done | by rewrite R4 | exact R2 | exact R3 | by rewrite R4 | done | exact R5 | apply got_frame].
    + rewrite (proj2 (full_table_spec s Hok)); [done|]. intros i Hi. by apply Z.eqb_neq, Hg.
Qed.

(** ** Witnesses *)

Definition demo_entry (valid : bool) : inode := Inode ROOTDEV 1 1 valid T_DIR 0 0 1 1024 (47 :: replicate NDIRECT 0).
Definition demo_inodes (valid : bool) : kernel :=
  set_itable (demo_entry valid :: replicate 49 null_inode) demo_tx.

Lemma tx_itable p pid B H s t : tx p pid B H s → tx p pid B H (set_itable t s).
Proof. intros [Hc ? ? ? ? ?]. split; try done. by apply cache_itable. Qed.
Lemma demo_inodes_at v i : inode_at (demo_inodes v) i = if decide (i = 0%nat) then demo_entry v else null_inode.
Proof.
  unfold inode_at, demo_inodes. cbn [itable set_itable]. destruct i as [|i]; [done|].
  change ((demo_entry v :: replicate 49 null_inode) !! S i) with (replicate 49 null_inode !! i).
  destruct (replicate 49 null_inode !! i) as [x|] eqn:E; [|done]. by apply lookup_replicate in E as [-> _].
Qed.
Lemma demo_itable_ok v : itable_ok (demo_inodes v).
Proof.
  split; [done | |].
  - intros i. rewrite demo_inodes_at. destruct (decide _); simpl; lia.
  - intros i j dev inum _ _. rewrite !demo_inodes_at. unfold live.
    destruct (decide (i = 0%nat)), (decide (j = 0%nat)); simpl; (lia || congruence).
Qed.

Lemma demo_dinode_ok : dinode_ok (dinode_of_inode (demo_entry true)).
Proof. split; simpl; unfold T_DIR; try lia. split; [done|]. repeat constructor; lia. Qed.

Lemma iupdate_correct_witness :
  ∃ s', iupdate 0 (demo_inodes true) = Ok tt s' ∧ dinode_of s' 1 = dinode_of_inode (demo_entry true).
Proof.
  destruct (iupdate_correct 0 1 [] (demo_inodes true) 0) as (s' & E & _ & _ & Hd & _).
  - apply tx_itable, demo_is_tx.
  - intros b. apply demo_disk_ok.
  - by vm_compute.
  - split_and!; by vm_compute.
  - apply demo_dinode_ok.
  - by vm_compute; lia.
  - exists s'. split; [exact E|]. rewrite Hd; [done|]. split_and!; by vm_compute.
Defined.

Lemma ilock_correct_witness :
  ilock (Some 0%nat) (demo_inodes false) = Panic "ilock: no type"
  ∧ ∃ s', ilock (Some 0%nat) (demo_inodes true) = Ok tt s' ∧ inode_at s' 0 = demo_entry true.
Proof.
  assert (H : ∀ v, cache 0 1 [] [] (demo_inodes v)) by (intros v; apply cache_itable, demo_is_tx).
  split.
  - apply (ilock_correct 0 1 [] (demo_inodes false) 0); [apply H | by vm_compute; lia | by vm_compute | done | done | by vm_compute; lia].
  - destruct (ilock_correct 0 1 [] (demo_inodes true) 0) as (s' & E & _ & _ & _ & _ & _ & _ & _ & Hat);
      [apply H | by vm_compute; lia | by vm_compute | done | done | by vm_compute; lia |].
    exists s'. split; [exact E | exact Hat].
Defined.

Lemma iget_correct_witness :
  refs (demo_inodes true) ROOTDEV 1 = 1 ∧
  ∃ i s', iget ROOTDEV 1 (demo_inodes true) = Ok i s' ∧ refs s' ROOTDEV 1 = 2.
Proof.
  split; [by vm_compute|].
  destruct (iget_correct ROOTDEV 1 (demo_inodes true)) as (i & s' & E & _ & _ & _ & _ & R & _).
  - apply demo_itable_ok.
  - split; simpl; lia.
  - apply lookup_empty.
  - exists i, s'. split; [exact E|]. rewrite R. by vm_compute.
Defined.
