(* ===== verification/FsFile.v ===== *)
(** The contents of files: bmap() and readi() on a file whose blocks are allocated return the
    bytes that the blocks of the inode hold, and dirlookup() finds the first entry of a
    directory with a name. *)
From S2P Require Import Prelude Pstat Kernel Spinlock Sched Cstring Riscv Kalloc Vm ProcMem Sleeplock Uart Bio Cache Log Crash Fs Tx FsBlock FsInode.

(** ** The bytes of a file *)

(** The address of block [bn] of an inode, 0 if it has none. *)
Definition addr_of (s : kernel) (ip : inode) (bn : Z) : Z :=
  if bn <? Z.of_nat NDIRECT then addr_at ip (Z.to_nat bn)
  else if addr_at ip NDIRECT =? 0 then 0
  else get32 (content s (addr_at ip NDIRECT)) (4 * Z.to_nat (bn - Z.of_nat NDIRECT)).
(** The byte at [x], and the [n] bytes from [off] on. *)
Definition file_byte (s : kernel) (ip : inode) (x : Z) : Z :=
  default 0 (content s (addr_of s ip (x / BSIZE)) !! Z.to_nat (x mod BSIZE)).
Definition file_bytes (s : kernel) (ip : inode) (off n : Z) : list Z := file_byte s ip <$> seqZ off n.

(** Every block up to the size of the file is there. *)
Record mapped (s : kernel) (ip : inode) : Prop := {
  mp_dev : i_dev ip = ROOTDEV;
  mp_size : 0 <= i_size ip <= MAXFILE * BSIZE;
  mp_addr : ∀ bn, 0 <= bn → bn * BSIZE < i_size ip → addr_of s ip bn ≠ 0;
}.

Lemma file_bytes_app s ip off n m :
  0 <= n → 0 <= m → file_bytes s ip off (n + m) = file_bytes s ip off n ++ file_bytes s ip (off + n) m.
Proof. intros Hn Hm. unfold file_bytes. by rewrite seqZ_app, fmap_app by lia. Qed.
(** The bytes of one block. *)
Lemma file_bytes_block s ip off m :
  is_block_data (content s (addr_of s ip (off / BSIZE))) → 0 <= off → 0 <= m → off mod BSIZE + m <= BSIZE →
  slice (content s (addr_of s ip (off / BSIZE))) (off mod BSIZE) m = file_bytes s ip off m.
Proof.
  intros [Hl _] Ho Hm Hb. set (d := content _ _) in *. assert (Hmod := Z.mod_pos_bound off BSIZE ltac:(done)).
  apply list_eq. intros k. unfold slice, file_bytes. rewrite list_lookup_fmap.
  destruct (decide (Z.of_nat k < m)) as [Hk|Hk].
  - rewrite lookup_take_lt, lookup_drop by lia. rewrite (proj2 (lookup_seqZ _ _ k (off + Z.of_nat k))) by lia.
    cbn [fmap option_fmap option_map]. unfold file_byte.
    assert (Hq : (off + Z.of_nat k) / BSIZE = off / BSIZE ∧ (off + Z.of_nat k) mod BSIZE = off mod BSIZE + Z.of_nat k)
      by (unfold BSIZE in *; dlia).
    destruct Hq as [-> ->]. fold d. replace (Z.to_nat (off mod BSIZE + Z.of_nat k)) with (Z.to_nat (off mod BSIZE) + k)%nat by lia.
    destruct (lookup_lt_is_Some_2 d (Z.to_nat (off mod BSIZE) + k)) as [x ->]; [lia|done].
  - rewrite lookup_take_ge by lia. rewrite lookup_seqZ_ge by lia. done.
Qed.

(** ** Reading *)

(** [s'] is [s] after blocks were read and given back. *)
Record reads (p : nat) (pid : Z) (B : list Z) (s s' : kernel) : Prop := {
  re_cache : cache p pid B [] s';
  re_content : ∀ b, content s' b = content s b;
  re_frame : fs_frame s s';
}.
Lemma reads_trans p pid B s1 s2 s3 : reads p pid B s1 s2 → reads p pid B s2 s3 → reads p pid B s1 s3.
Proof.
  intros [_ C1 F1] [Hc C2 F2]. split; [done | intros b; by rewrite C2, C1 | by eapply fs_frame_trans].
Qed.
Lemma reads_settle p pid B s : cache p pid B [] s → reads p pid B s (settle s).
Proof. intros Hc. split; [by apply cache_settle | done | apply fs_frame_settle]. Qed.

Lemma fs_frame_settled s s' : fs_frame s s' → settle s' = s'.
Proof. intros (bs & l & sl & h & ps & _ & ->). unfold settle. simpl. by rewrite settled_idemp. Qed.
Lemma addr_of_eq s s' ip bn : (∀ b, content s' b = content s b) → addr_of s' ip bn = addr_of s ip bn.
Proof. intros H. unfold addr_of. by rewrite H. Qed.
Lemma file_bytes_eq s s' ip off n : (∀ b, content s' b = content s b) → file_bytes s' ip off n = file_bytes s ip off n.
Proof.
  intros H. unfold file_bytes. apply list_fmap_ext. intros k x _. unfold file_byte. by rewrite (addr_of_eq s) , H.
Qed.

(** The blocks that are left, which bound the rounds that are left. *)
Definition blocks_left (off rest : Z) : Z := if rest =? 0 then 0 else (off mod BSIZE + rest + BSIZE - 1) / BSIZE.
Lemma blocks_left_pos off rest : 0 <= rest → 0 <= blocks_left off rest.
Proof.
  intros Hr. unfold blocks_left. destruct (_ =? _); [lia|]. apply Z.div_pos; [|done].
  assert (Hmod := Z.mod_pos_bound off BSIZE ltac:(done)). unfold BSIZE in *. lia.
Qed.
Lemma blocks_left_next off rest :
  0 <= off → 0 < rest → let m := Z.min rest (BSIZE - off mod BSIZE) in
  0 < m ∧ off mod BSIZE + m <= BSIZE ∧ 0 <= rest - m ∧ blocks_left (off + m) (rest - m) + 1 <= blocks_left off rest.
Proof.
  intros Ho Hr m. assert (Hmod := Z.mod_pos_bound off BSIZE ltac:(done)).
  assert (Hmin : m = Z.min rest (BSIZE - off mod BSIZE)) by reflexivity. clearbody m. unfold blocks_left.
  rewrite (proj2 (Z.eqb_neq rest 0)) by lia. destruct (Z.eqb_spec (rest - m) 0) as [E|E]; split_and!; try lia.
  - assert (BSIZE / BSIZE <= (off mod BSIZE + rest + BSIZE - 1) / BSIZE) by (apply Z.div_le_mono; [done|unfold BSIZE in *; lia]).
    unfold BSIZE in *. change (1024 / 1024) with 1 in *. lia.
  - assert (Em : m = BSIZE - off mod BSIZE) by lia.
    assert (E' : (off + m) mod BSIZE = 0) by (unfold BSIZE in *; dlia). rewrite E'.
    replace (off mod BSIZE + rest + BSIZE - 1) with (0 + (rest - m) + BSIZE - 1 + 1 * BSIZE) by lia.
    rewrite Z.div_add by done. lia.
Qed.

Lemma rounds_enough off n : 0 <= n → blocks_left off n < Z.of_nat (rounds n).
Proof.
  intros Hn. unfold rounds, blocks_left. assert (0 <= n / BSIZE) by (apply Z.div_pos; [lia|done]). rewrite Z2Nat.id by lia.
  destruct (n =? 0); [lia|]. assert (Hmod := Z.mod_pos_bound off BSIZE ltac:(done)).
  assert ((off mod BSIZE + n + BSIZE - 1) / BSIZE <= (n + 2 * BSIZE) / BSIZE) by (apply Z.div_le_mono; [done|unfold BSIZE in *; lia]).
  rewrite Z.div_add in * by done. lia.
Qed.

Section run.
Variables (p : nat) (pid : Z) (B : list Z).
Context (HB : (length B < NBUF)%nat).

Lemma cache_get s b :
  cache p pid B [] s →
  ∃ k s1 s', bread ROOTDEV b s = Ok k s1 ∧ b_data (buf_at s1 k) = content s b ∧ fs_frame s s1 ∧ cpu_ok (cur s1) ∧
    brelse k s1 = Ok tt s' ∧ reads p pid B s s'.
Proof.
  intros Hc. assert (Hn : ∀ i, i ∈ [] → ¬ cached s b i) by (by intros i ?%elem_of_nil).
  destruct (bread_ok p pid B [] s b Hc Hn) as (k & s1 & E1 & Hc1 & Hk1 & Hct1 & Hh1 & Hf1 & _); [right; simpl; lia|].
  assert (Hcl : b ∈ B ∨ content s1 b = disk_read s1 b).
  { destruct (decide (b ∈ B)); [by left | right]. rewrite Hct1, (disk_read_eq s s1) by (done || by apply fs_frame_img).
    by apply (content_clean p pid B []). }
  destruct (brelse_ok p pid B [] s1 k b Hc1 Hk1 Hcl) as (s2 & E2 & Hc2 & Hct2 & Hh2 & Hf2 & _).
  exists k, s1, s2. split; [done|]. split; [by rewrite <- (content_cached _ _ _ _ _ _ _ Hc1 Hk1), Hct1|].
  split; [done|]. split; [apply Hc1|]. split; [done|].
  split; [done | intros b'; by rewrite Hct2, Hct1 | by eapply fs_frame_trans].
Qed.

(** bmap() of a block that is there. *)
Lemma bmap_mapped s i bn :
  let ip := inode_at s i in
  cache p pid B [] s → i_dev ip = ROOTDEV → 0 <= bn < MAXFILE → addr_of s ip bn ≠ 0 →
  ∃ s', bmap i bn s = Ok (addr_of s ip bn) s' ∧ (s' = s ∨ reads p pid B s s').
Proof.
  intros ip Hc Hdev Hbn Ha. unfold bmap. kstep. fold ip. unfold addr_of in *.
  destruct (bn <? Z.of_nat NDIRECT) eqn:E.
  - rewrite (proj2 (Z.eqb_neq _ _) Ha). exists s. split; [done | by left].
  - rewrite (proj2 (Z.ltb_lt (bn - Z.of_nat NDIRECT) NINDIRECT)) by (unfold MAXFILE in Hbn; lia).
    destruct (addr_at ip NDIRECT =? 0) eqn:E0; [done|]. kstep. rewrite E0, Hdev.
    destruct (cache_get s (addr_at ip NDIRECT) Hc) as (k & s1 & s' & E1 & Hd & Hf & _ & E2 & Hr).
    rewrite (bind_Ok _ _ _ _ _ E1). unfold get_data. kstep. rewrite Hd, (proj2 (Z.eqb_neq _ _) Ha). kstep.
    rewrite (bind_Ok _ _ _ _ _ E2). exists s'. split; [done | by right].
Qed.

(** One round of the loop of readi(): the bytes of one block. *)
Lemma readi_round s i off m :
  let ip := inode_at s i in
  cache p pid B [] s → mapped s ip → (∀ b, is_block_data (content s b)) →
  0 <= off → 0 < m → off mod BSIZE + m <= BSIZE → off + m <= i_size ip →
  ∃ s1 k s2 s', bmap i (off / BSIZE) s = Ok (addr_of s ip (off / BSIZE)) s1 ∧ addr_of s ip (off / BSIZE) ≠ 0 ∧
    inode_at s1 i = ip ∧ bread ROOTDEV (addr_of s ip (off / BSIZE)) s1 = Ok k s2 ∧
    slice (b_data (buf_at s2 k)) (off mod BSIZE) m = file_bytes s ip off m ∧
    either_copyout Local (file_bytes s ip off m) s2 = Ok 0 s2 ∧ brelse k s2 = Ok tt s' ∧ reads p pid B s s'.
Proof.
  intros ip Hc [Hdev Hsize Haddr] Hd Ho Hm Hb Hs. assert (Hq := Z.div_mod off BSIZE ltac:(done)).
  assert (Hmod := Z.mod_pos_bound off BSIZE ltac:(done)). assert (0 <= off / BSIZE) by (apply Z.div_pos; [lia|done]).
  assert (Ha : addr_of s ip (off / BSIZE) ≠ 0) by (apply Haddr; [done | unfold BSIZE in *; lia]).
  destruct (bmap_mapped s i (off / BSIZE) Hc Hdev) as (s1 & E1 & Hr1); [unfold BSIZE in *; lia|done|].
  assert (H1 : cache p pid B [] s1 ∧ (∀ b, content s1 b = content s b) ∧ inode_at s1 i = ip).
  { destruct Hr1 as [->|[C1 C2 F]]; [done|]. split_and!; [done..|]. unfold ip, inode_at. by destruct (fs_frame_itable _ _ F) as [-> _]. }
  destruct H1 as (Hc1 & Hct1 & Hip1).
  destruct (cache_get s1 (addr_of s ip (off / BSIZE)) Hc1) as (k & s2 & s' & E2 & Hd2 & Hf2 & Hcpu & E3 & Hr3).
  exists s1, k, s2, s'. split_and!; try done.
  - rewrite Hd2, Hct1. apply file_bytes_block; [apply Hd | lia..].
  - unfold either_copyout. rewrite (bind_Ok _ _ _ _ _ (myproc_ok s2 Hcpu)). by rewrite (fs_frame_settled s1).
  - destruct Hr1 as [->|Hr1]; [done | by eapply reads_trans].
Qed.

Lemma reads_inode s s' i : reads p pid B s s' → inode_at s' i = inode_at s i.
Proof. intros [_ _ F]. unfold inode_at. by destruct (fs_frame_itable _ _ F) as [-> _]. Qed.
Lemma reads_mapped s s' ip : reads p pid B s s' → mapped s ip → mapped s' ip.
Proof. intros [_ C _] [H1 H2 H3]. split; [done..|]. intros bn. rewrite (addr_of_eq s); auto. Qed.

Lemma readi_loop_ok fuel : ∀ s i off n tot out,
  let ip := inode_at s i in
  cache p pid B [] s → mapped s ip → (∀ b, is_block_data (content s b)) →
  0 <= off → 0 <= tot <= n → off + (n - tot) <= i_size ip → blocks_left off (n - tot) < Z.of_nat fuel →
  ∃ s', readi_loop fuel i Local off n tot out s = Ok (n, out ++ file_bytes s ip off (n - tot)) s' ∧
    (s' = s ∨ reads p pid B s s').
Proof.
  induction fuel as [|fuel IH]; intros s i off n tot out ip Hc Hm Hd Ho Ht Hs Hfuel.
  { pose proof (blocks_left_pos off (n - tot) ltac:(lia)). lia. }
  cbn [readi_loop]. destruct (Z.ltb_spec tot n) as [Hlt|Hge]; cbn [negb].
  2: { exists s. replace (n - tot) with 0 by lia. rewrite app_nil_r. replace tot with n by lia. split; [done | by left]. }
  destruct (blocks_left_next off (n - tot) Ho ltac:(lia)) as (Hm0 & Hmb & Hrest & Hbl).
  set (m := Z.min (n - tot) (BSIZE - off mod BSIZE)) in *.
  destruct (readi_round s i off m Hc Hm Hd Ho Hm0 Hmb) as (s1 & k & s2 & s3 & E1 & Ha & Hi1 & E2 & Hsl & E3 & E4 & Hr); [fold ip; lia|].
  fold ip in E1, Ha, Hi1, E2, Hsl, E3. rewrite (bind_Ok _ _ _ _ _ E1), (proj2 (Z.eqb_neq _ _) Ha). kstep.
  rewrite Hi1, (mp_dev _ _ Hm), (bind_Ok _ _ _ _ _ E2). unfold get_data. kstep.
  rewrite Hsl, (bind_Ok _ _ _ _ _ E3). change (0 =? -1) with false. cbn iota. rewrite (bind_Ok _ _ _ _ _ E4). cbn [dst_add].
  assert (Hi3 : inode_at s3 i = ip) by (by apply reads_inode).
  destruct (IH s3 i (off + m) n (tot + m) (out ++ file_bytes s ip off m)) as (s' & E & Hr').
  - apply Hr.
  - rewrite Hi3. by eapply reads_mapped.
  - intros b. rewrite (re_content _ _ _ _ _ Hr). apply Hd.
  - lia.
  - lia.
  - rewrite Hi3. lia.
  - replace (n - (tot + m)) with (n - tot - m) by lia. lia.
  - exists s'. rewrite E, Hi3, <- app_assoc, (file_bytes_eq s s3) by apply Hr.
    replace (n - tot) with (m + (n - (tot + m))) by lia. rewrite file_bytes_app by lia.
    split; [done|]. right. destruct Hr' as [->|Hr']; [done | by eapply reads_trans].
Qed.

(** The bytes that readi() returns: none from beyond the end, and none beyond it. *)
Definition read_count (ip : inode) (off n : Z) : Z :=
  if (i_size ip <? off) || (2 ^ 32 <=? off + n) then 0 else Z.min n (i_size ip - off).
Lemma readi_ok s i off n :
  let ip := inode_at s i in
  cache p pid B [] s → mapped s ip → (∀ b, is_block_data (content s b)) →
  0 <= off < 2 ^ 32 → 0 <= n < 2 ^ 32 →
  ∃ s', readi i Local off n s = Ok (read_count ip off n, file_bytes s ip off (read_count ip off n)) s' ∧
    (s' = s ∨ reads p pid B s s').
Proof.
  intros ip Hc Hm Hd Ho Hn. unfold readi. kstep. fold ip. unfold read_count.
  assert (Hu : (u32 (off + n) <? off) = (2 ^ 32 <=? off + n)).
  { destruct (Z.leb_spec (2 ^ 32) (off + n)) as [H|H].
    - apply Z.ltb_lt. unfold u32. dlia.
    - rewrite u32_small by lia. apply Z.ltb_ge. lia. }
  rewrite Hu. destruct ((i_size ip <? off) || (2 ^ 32 <=? off + n)) eqn:E.
  { exists s. split; [done | by left]. }
  apply orb_false_iff in E as [E1%Z.ltb_ge E2%Z.leb_gt]. rewrite u32_small by lia.
  assert (En : (if i_size ip <? off + n then i_size ip - off else n) = Z.min n (i_size ip - off))
    by (destruct (Z.ltb_spec (i_size ip) (off + n)); lia).
  rewrite En. set (n' := Z.min n (i_size ip - off)) in *.
  destruct (readi_loop_ok (rounds n') s i off n' 0 [] Hc Hm Hd) as (s' & E & Hr); [lia|lia|fold ip; lia| |].
  - rewrite Z.sub_0_r. apply rounds_enough. lia.
  - exists s'. by rewrite E, Z.sub_0_r.
Qed.
End run.

(** ** Names *)

(** The characters of a name: those before the first NUL, at most [n]. *)
Fixpoint cname (n : nat) (l : list Z) : list Z :=
  match n, l with S n, c :: l => if c =? 0 then [] else c :: cname n l | _, _ => [] end.
Notation chr l j := (default 0 (l !! j)).

Lemma cname_S n l : cname (S n) l = if chr l 0%nat =? 0 then [] else chr l 0%nat :: cname n (tail l).
Proof. by destruct l. Qed.
Lemma strncmp_names n : ∀ m p q a b,
  (∀ j, (j < n)%nat → m (p + Z.of_nat j) = chr a j) → (∀ j, (j < n)%nat → m (q + Z.of_nat j) = chr b j) →
  bytes m → strncmp_loop n m p q = 0 ↔ cname n a = cname n b.
Proof.
  induction n as [|n IH]; intros m p q a b Ha Hb Hm; [done|]. rewrite !cname_S. cbn [strncmp_loop].
  assert (Ea := Ha 0%nat ltac:(lia)). assert (Eb := Hb 0%nat ltac:(lia)). rewrite Z.add_0_r in Ea, Eb. rewrite <- Ea, <- Eb.
  destruct (Z.eqb_spec (m p) (m q)) as [E|E].
  - rewrite <- E. destruct (Z.eqb_spec (m p) 0) as [E0|E0]; cbn [negb andb].
    + rewrite E. split; [done | lia].
    + rewrite (IH m (p + 1) (q + 1) (tail a) (tail b)); [| |  |done].
      * split; congruence.
      * intros j Hj. rewrite <- Z.add_assoc. replace (1 + Z.of_nat j) with (Z.of_nat (S j)) by lia. rewrite Ha by lia. by destruct a.
      * intros j Hj. rewrite <- Z.add_assoc. replace (1 + Z.of_nat j) with (Z.of_nat (S j)) by lia. rewrite Hb by lia. by destruct b.
  - assert (Hp := Hm p). assert (Hq := Hm q). rewrite andb_false_r, !u8_small by done. split; [lia|].
    destruct (Z.eqb_spec (m p) 0), (Z.eqb_spec (m q) 0); intros H; simplify_eq; lia.
Qed.
Lemma namecmp_zero a b :
  Forall byte a → Forall byte b → (length a <= 4096)%nat → namecmp a b = 0 ↔ cname DIRSIZ a = cname DIRSIZ b.
Proof.
  intros Ha Hb Hl. unfold namecmp, strncmp. change (Z.to_nat (u32 (Z.of_nat DIRSIZ))) with DIRSIZ.
  set (m0 := write_bytes (λ _, 0) 0 a). assert (H0 : ∀ x, bytes x → ∀ a' l, bytes (write_bytes x a' l)).
  { intros x Hx a' l. revert x a' Hx. induction l as [|c l IH]; intros x a' Hx; [done|]. by apply IH, bytes_upd. }
  assert (Hw : ∀ m base l j, Forall byte l → (∀ x, base <= x < base + 4096 → m x = 0) → (j < 4096)%nat →
    write_bytes m base l (base + Z.of_nat j) = chr l j).
  { intros m base l j Hlb Hz Hj. destruct (l !! j) as [c|] eqn:E; cbn [default from_option id].
    - rewrite (write_bytes_lookup _ _ _ _ c) by done. apply u8_small. by apply (Forall_lookup_1 _ _ _ _ Hlb E).
    - apply lookup_ge_None in E. rewrite write_bytes_frame by lia. apply Hz. lia. }
  apply strncmp_names.
  - intros j Hj. unfold DIRSIZ in Hj. rewrite write_bytes_frame by lia. apply (Hw _ 0); [done | done | lia].
  - intros j Hj. unfold DIRSIZ in Hj. apply Hw; [done | | lia]. intros x Hx. unfold m0. rewrite write_bytes_frame by lia. done.
  - apply H0, H0. intros x. lia.
Qed.

(** ** Directories *)

Definition dir_entry (s : kernel) (ip : inode) (k : nat) : list Z := file_bytes s ip (DIRENT * Z.of_nat k) DIRENT.
Definition entry_named (s : kernel) (ip : inode) (name : list Z) (k : nat) : bool :=
  negb (de_inum (dir_entry s ip k) =? 0) && bool_decide (cname DIRSIZ name = cname DIRSIZ (de_name (dir_entry s ip k))).
(** The first entry in use with the name. *)
Definition lookup_dir (s : kernel) (ip : inode) (name : list Z) : option nat :=
  List.find (entry_named s ip name) (seq 0 (entries (i_size ip))).

Lemma file_bytes_data s ip off n : (∀ b, is_block_data (content s b)) → Forall byte (file_bytes s ip off n).
Proof.
  intros Hd. apply Forall_fmap, Forall_true. intros x. unfold file_byte. cbn.
  destruct (content s _ !! _) as [c|] eqn:E; cbn [from_option id]; [|unfold byte; lia].
  destruct (Hd (addr_of s ip (x / BSIZE))) as [_ Hf]. by apply (Forall_lookup_1 _ _ _ _ Hf E).
Qed.

Section directory.
Variables (p : nat) (pid : Z) (B : list Z) (s0 : kernel) (dp : nat).
Notation ip := (inode_at s0 dp).
Context (HB : (length B < NBUF)%nat) (Hc : cache p pid B [] s0) (Hm : mapped s0 ip).
Context (Hd : ∀ b, is_block_data (content s0 b)) (Hsz : i_size ip mod DIRENT = 0).
(** [s0], perhaps after blocks were read. *)
Definition near (s : kernel) : Prop := s = s0 ∨ reads p pid B s0 s.

Lemma near_facts s : near s → cache p pid B [] s ∧ (∀ b, content s b = content s0 b) ∧ itable s = itable s0.
Proof.
  intros [->|[H1 H2 F]]; [done|]. split_and!; [done..|]. by destruct (fs_frame_itable _ _ F) as [-> _].
Qed.
Lemma near_trans s s' : near s → (s' = s ∨ reads p pid B s s') → near s'.
Proof.
  intros Hs [->|Hr]; [done|]. right. destruct Hs as [->|Hs]; [done | by eapply reads_trans].
Qed.

Lemma read_dirent_ok msg s k :
  near s → (k < entries (i_size ip))%nat →
  ∃ s', read_dirent msg dp (DIRENT * Z.of_nat k) s = Ok (dir_entry s0 ip k) s' ∧ near s'.
Proof.
  intros Hs Hk. destruct (near_facts s Hs) as (H1 & H2 & H3). unfold read_dirent.
  assert (Hi : inode_at s dp = ip) by (unfold inode_at; by rewrite H3).
  assert (Hk' : DIRENT * Z.of_nat k + DIRENT <= i_size ip).
  { unfold entries, DIRENT in *. pose proof (mp_size _ _ Hm). dlia. }
  assert (Hmax : i_size ip < 2 ^ 32) by (pose proof (mp_size _ _ Hm); assert (MAXFILE * BSIZE < 2 ^ 32) by done; lia).
  destruct (readi_ok p pid B HB s dp (DIRENT * Z.of_nat k) DIRENT) as (s' & E & Hr).
  - done.
  - rewrite Hi. destruct Hm as [M1 M2 M3]. split; [done..|]. intros bn. rewrite (addr_of_eq s0) by done. auto.
  - intros b. by rewrite H2.
  - unfold DIRENT in *. lia.
  - by unfold DIRENT.
  - rewrite Hi in E. assert (Hn : read_count ip (DIRENT * Z.of_nat k) DIRENT = DIRENT).
    { unfold read_count. rewrite (proj2 (Z.ltb_ge _ _)), (proj2 (Z.leb_gt _ _)) by (unfold DIRENT in *; lia). simpl. lia. }
    rewrite Hn in E. rewrite (bind_Ok _ _ _ _ _ E). cbn [fst snd]. rewrite Z.eqb_refl. cbn [negb].
    exists s'. rewrite (file_bytes_eq s0 s) by done. split; [done | by eapply near_trans].
Qed.

Context (name : list Z) (Hname : Forall byte name) (Hlen : (length name <= DIRSIZ)%nat).
Context (Hit : itable_ok s0).
Lemma near_iget s inum : near s →
  ((refs s0 ROOTDEV inum =? 0) && full_table s0 = true ∧ iget ROOTDEV inum s = Panic "iget: no inodes") ∨
  ∃ j s', iget ROOTDEV inum s = Ok j s' ∧ (refs s0 ROOTDEV inum =? 0) && full_table s0 = false ∧ itable_ok s' ∧
    live (inode_at s' j) ROOTDEV inum ∧ refs s' ROOTDEV inum = refs s0 ROOTDEV inum + 1.
Proof.
  intros Hs. destruct (near_facts s Hs) as (H1 & _ & H3). pose proof (ca_env _ _ _ _ _ H1) as [Hcpu Hlk _ _].
  assert (Hi : ∀ i, inode_at s i = inode_at s0 i) by (intros i; unfold inode_at; by rewrite H3).
  assert (Hit' : itable_ok s) by (destruct Hit as [I1 I2 I3]; split; [by rewrite H3 | intros i; by rewrite Hi |];
    intros i j dev n; rewrite !Hi; apply I3).
  pose proof (iget_correct ROOTDEV inum s Hit' Hcpu ltac:(by rewrite Hlk)) as Hg.
  assert (Hrf : refs s ROOTDEV inum = refs s0 ROOTDEV inum) by (unfold refs, inode_at; by rewrite H3).
  assert (Hfu : full_table s = full_table s0) by (unfold full_table; by rewrite H3).
  rewrite Hrf, Hfu in Hg. destruct ((refs s0 ROOTDEV inum =? 0) && full_table s0); [by left | right].
  destruct Hg as (j & s' & E & K1 & _ & _ & K2 & K3 & _). eauto 10.
Qed.
(** The body of the loop of dirlookup(). *)
Notation probe := (λ k,
    let off := DIRENT * Z.of_nat k in
    de <- read_dirent "dirlookup read" dp off ;;
    if de_inum de =? 0 then ret None else
    if namecmp name (de_name de) =? 0 then
      dev <- get (λ s, i_dev (inode_at s dp)) ;;
      i <- iget dev (de_inum de) ;;
      ret (Some (i, off))
    else ret None).

Lemma dirlookup_loop l : ∀ s, near s → Forall (λ k, (k < entries (i_size ip))%nat) l →
  ∃ s', near s' ∧ for_find l probe s =
    match List.find (entry_named s0 ip name) l with
    | None => Ok None s'
    | Some k => (i <- iget ROOTDEV (de_inum (dir_entry s0 ip k)) ;; ret (Some (i, DIRENT * Z.of_nat k))) s'
    end.
Proof.
  induction l as [|k l IH]; intros s Hs Hl; [by exists s|].
  apply Forall_cons in Hl as [Hk Hl]. destruct (read_dirent_ok "dirlookup read" s k Hs Hk) as (s1 & E & Hs1).
  cbn [for_find List.find]. unfold entry_named at 1. set (de := dir_entry s0 ip k) in *.
  assert (Hde : namecmp name (de_name de) = 0 ↔ cname DIRSIZ name = cname DIRSIZ (de_name de)).
  { apply namecmp_zero; [done | by apply Forall_drop, file_bytes_data | unfold DIRSIZ in *; lia]. }
  destruct (de_inum de =? 0) eqn:E0; cbn [negb andb].
  { destruct (IH s1 Hs1 Hl) as (s' & Hs' & E'). exists s'. split; [done|].
    rewrite <- E'. erewrite bind_Ok; [|rewrite (bind_Ok _ _ _ _ _ E), E0; reflexivity]. done. }
  destruct (Z.eqb_spec (namecmp name (de_name de)) 0) as [En|En].
  - rewrite bool_decide_true by (by apply Hde). exists s1. split; [done|]. unfold bind at 1.
    rewrite (bind_Ok _ _ _ _ _ E), E0. rewrite (proj2 (Z.eqb_eq _ _) En). kstep.
    assert (Hi : inode_at s1 dp = ip) by (unfold inode_at; by destruct (near_facts s1 Hs1) as (_ & _ & ->)).
    rewrite Hi, (mp_dev _ _ Hm). fold de. unfold bind.
    destruct (near_iget s1 (de_inum de) Hs1) as [[_ ->]|(j & s2 & -> & _)]; done.
  - rewrite bool_decide_false by (by rewrite <- Hde). destruct (IH s1 Hs1 Hl) as (s' & Hs' & E'). exists s'. split; [done|].
    rewrite <- E'. erewrite bind_Ok; [|rewrite (bind_Ok _ _ _ _ _ E), E0, (proj2 (Z.eqb_neq _ _) En); reflexivity]. done.
Qed.

(** dirlookup() is the search, and then iget(). *)
Lemma dirlookup_run :
  i_type ip = T_DIR →
  ∃ s', near s' ∧ dirlookup dp name s0 =
    match lookup_dir s0 ip name with
    | None => Ok None s'
    | Some k => (i <- iget ROOTDEV (de_inum (dir_entry s0 ip k)) ;; ret (Some (i, DIRENT * Z.of_nat k))) s'
    end.
Proof.
  intros Ht. unfold dirlookup. kstep. rewrite Ht, Z.eqb_refl. cbn [negb].
  apply (dirlookup_loop (seq 0 (entries (i_size ip))) s0); [by left|].
  apply Forall_forall. intros k Hk. apply elem_of_seq in Hk. lia.
Qed.
(** What dirlookup() returns: the first entry in use with the name and a reference to its inode. *)
Lemma dirlookup_ok :
  i_type ip = T_DIR →
  match lookup_dir s0 ip name with
  | None => ∃ s', dirlookup dp name s0 = Ok None s' ∧ near s'
  | Some k =>
      let inum := de_inum (dir_entry s0 ip k) in
      if (refs s0 ROOTDEV inum =? 0) && full_table s0 then dirlookup dp name s0 = Panic "iget: no inodes"
      else ∃ j s', dirlookup dp name s0 = Ok (Some (j, DIRENT * Z.of_nat k)) s' ∧ itable_ok s' ∧
        live (inode_at s' j) ROOTDEV inum ∧ refs s' ROOTDEV inum = refs s0 ROOTDEV inum + 1
  end.
Proof.
  intros Ht. destruct (dirlookup_run Ht) as (s' & Hs' & E). rewrite E. clear E.
  destruct (lookup_dir s0 ip name) as [k|]; [|by exists s'].
  cbv zeta. destruct (near_iget s' (de_inum (dir_entry s0 ip k)) Hs') as [[Hf Hp]|(j & s2 & E & Hf & H1 & H2 & H3)].
  - rewrite Hf. by rewrite (bind_Panic _ _ _ _ Hp).
  - rewrite Hf. exists j, s2. by rewrite (bind_Ok _ _ _ _ _ E).
Qed.
End directory.

(** ** The theorems *)

(** C35: readi() returns the bytes of the file. From an offset within the file it reads as many of
    the [n] bytes as there are before the end, across blocks that the inode names directly or
    through its indirect block, and returns them in order; from an offset beyond the end, or
    when [off + n] overflows, it returns none. No block's contents change. *)
Theorem readi_correct p pid B s i off n :
  let ip := inode_at s i in
  cache p pid B [] s → (length B < NBUF)%nat → mapped s ip → (∀ b, is_block_data (content s b)) →
  0 <= off < 2 ^ 32 → 0 <= n < 2 ^ 32 →
  let r := read_count ip off n in
  ∃ s', readi i Local off n s = Ok (r, file_bytes s ip off r) s' ∧ cache p pid B [] s' ∧
    (∀ b, content s' b = content s b) ∧ itable s' = itable s.
Proof.
  intros ip Hc HB Hm Hd Ho Hn r. destruct (readi_ok p pid B HB s i off n Hc Hm Hd Ho Hn) as (s' & E & [->|[C1 C2 F]]).
  - by exists s.
  - exists s'. split_and!; try done. by destruct (fs_frame_itable _ _ F).
Qed.

(** Dirlookup() is a search of the directory. It returns the first entry in use whose name is the
    one asked for, comparing up to 14 characters or to the NUL, with its offset and a new
    reference to its inode; [None] exactly if there is no such entry; and it stops the kernel when
    the inode table is full or the inode is not a directory. *)
Theorem dirlookup_correct p pid B s dp name :
  let ip := inode_at s dp in
  cache p pid B [] s → (length B < NBUF)%nat → mapped s ip → (∀ b, is_block_data (content s b)) →
  i_size ip mod DIRENT = 0 → Forall byte name → (length name <= DIRSIZ)%nat → itable_ok s →
  if decide (i_type ip = T_DIR) then
    match lookup_dir s ip name with
    | None => ∃ s', dirlookup dp name s = Ok None s' ∧ itable s' = itable s
    | Some k =>
        let inum := de_inum (dir_entry s ip k) in
        if (refs s ROOTDEV inum =? 0) && full_table s then dirlookup dp name s = Panic "iget: no inodes"
        else ∃ j s', dirlookup dp name s = Ok (Some (j, DIRENT * Z.of_nat k)) s' ∧ itable_ok s' ∧
          live (inode_at s' j) ROOTDEV inum ∧ refs s' ROOTDEV inum = refs s ROOTDEV inum + 1
    end
  else dirlookup dp name s = Panic "dirlookup not DIR".
Proof.
  intros ip Hc HB Hm Hd Hsz Hn Hl Hit. destruct (decide (i_type ip = T_DIR)) as [Ht|Ht].
  - pose proof (dirlookup_ok p pid B s dp HB Hc Hm Hd Hsz name Hn Hl Hit Ht) as H. fold ip in H.
    destruct (lookup_dir s ip name) as [k|]; [done|]. destruct H as (s' & E & Hs'). exists s'. split; [done|].
    by destruct (near_facts p pid B s Hc s' Hs') as (_ & _ & ->).
  - unfold dirlookup. kstep. fold ip. by rewrite (proj2 (Z.eqb_neq _ _) Ht).
Qed.

(** ** Witnesses: a directory of two entries in block 47 *)

Definition demo_dir_image (b : Z) : list Z :=
  if b =? 47 then dirent 1 [46] ++ dirent 7 [99; 97; 116] ++ replicate 992 0 else demo_image b.
Definition demo_dir : kernel :=
  set_itable (Inode ROOTDEV 1 1 true T_DIR 0 0 1 32 (47 :: replicate NDIRECT 0) :: replicate 49 null_inode)
    (set_sb demo_sb (demo_fs demo_dir_image [])).
Lemma demo_dir_content b : content demo_dir b = demo_dir_image b.
Proof.
  rewrite content_uncached; [done|]. intros i [Hi Hc]. change (buf_at demo_dir i) with (buf_at (demo_fs demo_dir_image []) i) in Hc.
  rewrite demo_buf_at in Hc by (done || unfold NBUF; simpl; lia). by vm_compute in Hc.
Qed.
Lemma demo_dir_cache : cache 0 1 [] [] demo_dir.
Proof. apply cache_itable, cache_sb, demo_cache; [unfold NBUF; simpl; lia | constructor]. Qed.
Lemma demo_dir_data b : is_block_data (content demo_dir b).
Proof.
  rewrite demo_dir_content. unfold demo_dir_image. destruct (b =? 47).
  - split; [by vm_compute|]. apply (bool_decide_unpack _). by vm_compute.
  - rewrite <- demo_content. apply demo_disk_ok.
Qed.
Lemma demo_dir_mapped : mapped demo_dir (inode_at demo_dir 0).
Proof.
  split; [done | by vm_compute |]. intros bn H0 H1. assert (Hs : i_size (inode_at demo_dir 0) = 32) by done.
  rewrite Hs in H1. assert (bn = 0) as -> by (unfold BSIZE in H1; lia). by vm_compute.
Qed.
Lemma demo_dir_itable : itable_ok demo_dir.
Proof.
  assert (Hat : ∀ i, inode_at demo_dir i = match i with O => inode_at demo_dir 0 | S _ => null_inode end).
  { intros [|i]; [done|]. unfold inode_at, demo_dir. cbn [itable set_itable].
    change ((_ :: replicate 49 null_inode) !! S i) with (replicate 49 null_inode !! i).
    destruct (replicate 49 null_inode !! i) as [x|] eqn:E; [|done]. by apply lookup_replicate in E as [-> _]. }
  split; [done | |].
  - intros i. rewrite Hat. by destruct i.
  - intros i j dev inum _ _. rewrite (Hat i), (Hat j). unfold live. destruct i, j; try done; simpl; lia.
Qed.

Lemma readi_correct_witness :
  ∃ s', readi 0 Local 16 100 demo_dir = Ok (16, dirent 7 [99; 97; 116]) s'.
Proof.
  destruct (readi_correct 0 1 [] demo_dir 0 16 100) as (s' & E & _).
  - apply demo_dir_cache.
  - unfold NBUF. simpl. lia.
  - apply demo_dir_mapped.
  - apply demo_dir_data.
  - lia.
  - lia.
  - exists s'. rewrite E. reflexivity.
Defined.
Lemma dirlookup_correct_witness :
  (∃ j s', dirlookup 0 [99; 97; 116] demo_dir = Ok (Some (j, 16)) s' ∧ live (inode_at s' j) ROOTDEV 7) ∧
  ∃ s', dirlookup 0 [99; 97] demo_dir = Ok None s'.
Proof.
  split.
  - pose proof (dirlookup_correct 0 1 [] demo_dir 0 [99; 97; 116] demo_dir_cache) as H. cbv zeta in H.
    assert (El : lookup_dir demo_dir (inode_at demo_dir 0) [99; 97; 116] = Some 1%nat) by (by vm_compute).
    rewrite El in H. assert (Ei : de_inum (dir_entry demo_dir (inode_at demo_dir 0) 1) = 7) by (by vm_compute).
    rewrite Ei in H. assert (Ef : (refs demo_dir ROOTDEV 7 =? 0) && full_table demo_dir = false) by (by vm_compute).
    rewrite Ef in H. rewrite decide_True in H by done.
    destruct H as (j & s' & E & _ & L & _); [unfold NBUF; simpl; lia | apply demo_dir_mapped | apply demo_dir_data | done
      | apply (bool_decide_unpack _); by vm_compute | unfold DIRSIZ; simpl; lia | apply demo_dir_itable |].
    exists j, s'. split; [exact E | exact L].
  - pose proof (dirlookup_correct 0 1 [] demo_dir 0 [99; 97] demo_dir_cache) as H. cbv zeta in H.
    assert (El : lookup_dir demo_dir (inode_at demo_dir 0) [99; 97] = None) by (by vm_compute).
    rewrite El in H. rewrite decide_True in H by done.
    destruct H as (s' & E & _); [unfold NBUF; simpl; lia | apply demo_dir_mapped | apply demo_dir_data | done
      | apply (bool_decide_unpack _); by vm_compute | unfold DIRSIZ; simpl; lia | apply demo_dir_itable |].
    exists s'. exact E.
Defined.
