(* ===== verification/FsAlloc.v ===== *)
(** Files that grow: bmap() finds the block of a file, or takes a free one, zeroes it and enters its
    address in the inode or in the indirect block. *)
From S2P Require Import Prelude Pstat Kernel Spinlock Sched Cstring Riscv Kalloc Vm ProcMem Sleeplock Uart Bio Cache Log Crash Fs Tx FsBlock FsInode FsFile.

(** ** The blocks of a file *)

(** The places where a file keeps addresses: [None] is the one of the indirect block, [Some bn] the one
    of block [bn]. *)
Definition place (q : option Z) : Prop := match q with None => True | Some bn => 0 <= bn < MAXFILE end.
Definition slot_of (s : kernel) (ip : inode) (q : option Z) : Z :=
  match q with None => addr_at ip NDIRECT | Some bn => addr_of s ip bn end.

(** A block for data that the bitmap has in use. *)
Definition in_use (s : kernel) (b : Z) : Prop := data_block s b ∧ block_free s b = false.

(** The blocks that a file has are in use, and no two of its places have the same one. *)
Record file_ok (s : kernel) (ip : inode) : Prop := {
  fo_dev : i_dev ip = ROOTDEV;
  fo_len : length (i_addrs ip) = (NDIRECT + 1)%nat;
  fo_used : ∀ q, place q → slot_of s ip q ≠ 0 → in_use s (slot_of s ip q);
  fo_inj : ∀ q q', place q → place q' → slot_of s ip q ≠ 0 → slot_of s ip q = slot_of s ip q' → q = q';
}.
(** A block in use that is not one of the file. *)
Definition foreign (s : kernel) (ip : inode) (b : Z) : Prop := in_use s b ∧ ∀ q, place q → slot_of s ip q ≠ b.
Definition disk_full (s : kernel) : Prop := ∀ b, 0 <= b < sb_size (sb s) → block_free s b = false.

(** [s'] is [s] after the file of inode [i] has changed: it keeps its blocks, and may have new ones that
    were free; no block of anyone else changes. *)
Record evolves (i : nat) (s s' : kernel) : Prop := {
  ev_sb : sb s' = sb s;
  ev_disk : disk_ok s';
  ev_print : printable s';
  ev_inode : ∃ A, inode_at s' i = set_i_addrs A (inode_at s i);
  ev_others : ∀ j, j ≠ i → inode_at s' j = inode_at s j;
  ev_len : length (itable s') = length (itable s);
  ev_file : file_ok s' (inode_at s' i);
  ev_slot : ∀ q, place q → slot_of s (inode_at s i) q ≠ 0 → slot_of s' (inode_at s' i) q = slot_of s (inode_at s i) q;
  ev_new : ∀ q, place q → slot_of s (inode_at s i) q = 0 → slot_of s' (inode_at s' i) q ≠ 0 →
    block_free s (slot_of s' (inode_at s' i) q) = true;
  ev_used : ∀ b, in_use s b → in_use s' b;
  ev_foreign : ∀ b, foreign s (inode_at s i) b → content s' b = content s b;
}.
(** The data of the file has not changed. *)
Definition data_kept (i : nat) (s s' : kernel) : Prop :=
  ∀ bn, 0 <= bn < MAXFILE → addr_of s (inode_at s i) bn ≠ 0 →
    content s' (addr_of s (inode_at s i) bn) = content s (addr_of s (inode_at s i) bn).

Lemma in_use_pos s b : in_use s b → 0 < b < sb_size (sb s).
Proof. by intros [[H _] _]. Qed.
Lemma foreign_evolves i s s' b :
  evolves i s s' → foreign s (inode_at s i) b → foreign s' (inode_at s' i) b.
Proof.
  intros He [Hu Hn]. split; [by apply (ev_used _ _ _ He)|]. intros q Hq E. pose proof (in_use_pos _ _ Hu).
  destruct (decide (slot_of s (inode_at s i) q = 0)) as [E0|E0].
  - pose proof (ev_new _ _ _ He q Hq E0 ltac:(lia)) as Hf. rewrite E in Hf. destruct Hu. congruence.
  - rewrite (ev_slot _ _ _ He q Hq E0) in E. by apply (Hn q).
Qed.
Lemma evolves_trans i s s1 s' : evolves i s s1 → evolves i s1 s' → evolves i s s'.
Proof.
  intros H1 H2. pose proof (ev_sb _ _ _ H1) as Hsb. split.
  - by rewrite (ev_sb _ _ _ H2).
  - apply H2.
  - apply H2.
  - destruct (ev_inode _ _ _ H1) as [A1 E1], (ev_inode _ _ _ H2) as [A2 E2]. exists A2. by rewrite E2, E1.
  - intros j Hj. by rewrite (ev_others _ _ _ H2), (ev_others _ _ _ H1).
  - by rewrite (ev_len _ _ _ H2), (ev_len _ _ _ H1).
  - apply H2.
  - intros q Hq Hn. rewrite (ev_slot _ _ _ H2), (ev_slot _ _ _ H1); try done. by rewrite (ev_slot _ _ _ H1).
  - intros q Hq H0 Hn. destruct (decide (slot_of s1 (inode_at s1 i) q = 0)) as [E|E].
    + pose proof (ev_new _ _ _ H2 q Hq E Hn) as Hf.
      destruct (fo_used _ _ (ev_file _ _ _ H2) q Hq Hn) as [Hdb _].
      destruct (block_free s _) eqn:Ef; [done|exfalso].
      assert (Hu : in_use s (slot_of s' (inode_at s' i) q)).
      { split; [|done]. unfold data_block in *. by rewrite (ev_sb _ _ _ H2), Hsb in Hdb. }
      apply (ev_used _ _ _ H1) in Hu as [_ Hu]. congruence.
    + rewrite (ev_slot _ _ _ H2 q Hq E). by apply (ev_new _ _ _ H1).
  - intros b Hb. by apply H2, H1.
  - intros b Hb. rewrite (ev_foreign _ _ _ H2), (ev_foreign _ _ _ H1); try done. by apply (foreign_evolves i s).
Qed.
Lemma data_kept_trans i s s1 s' :
  evolves i s s1 → data_kept i s s1 → data_kept i s1 s' → data_kept i s s'.
Proof.
  intros H1 K1 K2 bn Hbn Ha. pose proof (ev_slot _ _ _ H1 (Some bn) Hbn Ha) as E. cbn [slot_of] in E.
  specialize (K2 bn Hbn). rewrite E in K2. rewrite K2 by done. by apply K1.
Qed.

(** Blocks that are only read. *)
Lemma evolves_same i s s' :
  sb s' = sb s → itable s' = itable s → (∀ b, content s' b = content s b) → printable s' →
  disk_ok s → file_ok s (inode_at s i) → evolves i s s' ∧ data_kept i s s'.
Proof.
  intros Hsb Hit Hct Hp Hdk Hf.
  assert (Hin : ∀ j, inode_at s' j = inode_at s j) by (intros j; unfold inode_at; by rewrite Hit).
  assert (Hsl : ∀ ip q, slot_of s' ip q = slot_of s ip q) by (intros ip [bn|]; [by apply addr_of_eq | done]).
  assert (Hu : ∀ b, in_use s' b ↔ in_use s b).
  { intros b. unfold in_use, data_block. by rewrite Hsb, (same_free s s'). }
  split; [|intros bn _ _; apply Hct]. split; try done.
  - by eapply same_disk.
  - exists (i_addrs (inode_at s i)). rewrite Hin. by destruct (inode_at s i).
  - by rewrite Hit.
  - rewrite Hin. destruct Hf as [F1 F2 F3 F4]. split; try done.
    + intros q Hq. rewrite Hsl, Hu. by apply F3.
    + intros q q' Hq Hq'. rewrite !Hsl. by apply F4.
  - intros q _ _. by rewrite Hin, Hsl.
  - intros q _ H0. by rewrite Hin, Hsl.
  - intros b. by rewrite Hu.
Qed.

(** A block is changed that is not one of the bitmap. *)
Lemma store_disk s s' a d :
  sb s' = sb s → disk_ok s → data_block s a → is_block_data d →
  (∀ b, content s' b = if decide (b = a) then d else content s b) →
  disk_ok s' ∧ ∀ b, 0 <= b < sb_size (sb s) → block_free s' b = block_free s b.
Proof.
  intros Hsb Hdk [Ha Hbm] Hd Hct.
  assert (Hfree : ∀ b, 0 <= b < sb_size (sb s) → block_free s' b = block_free s b).
  { intros b Hb. apply block_free_eq; [done|]. rewrite Hct, decide_False; [done|]. intros E. by apply (Hbm b). }
  split; [|done]. pose proof Hdk as [D1 D2 D3 D4 D5]. split; rewrite ?Hsb; try done.
  - intros b. rewrite Hct. by destruct (decide _).
  - rewrite Hfree; [done|lia].
  - intros b Hb. rewrite Hfree; [by apply D5|]. by apply (BBLOCK_ok s b Hdk).
Qed.

(** ** A block is taken and linked *)

Section link.
Variables (i : nat) (s s' : kernel) (b : Z) (q0 : option Z).
Notation ip := (inode_at s i).
Notation ip' := (inode_at s' i).
Context (Hdk : disk_ok s) (Hf : file_ok s ip) (Hb : 0 < b < sb_size (sb s)) (Hfree : block_free s b = true).
Context (Hsb : sb s' = sb s) (Hdk' : disk_ok s') (Hp' : printable s').
Context (Hbits : ∀ x, 0 <= x < sb_size (sb s) → block_free s' x = block_free s x && negb (x =? b)).
Context (Hs0 : slot_of s ip q0 = 0).
Context (Hslot : ∀ q, place q → slot_of s' ip' q = if decide (q = q0) then b else slot_of s ip q).
Context (Hkeep : ∀ x, in_use s x → x ≠ addr_at ip NDIRECT → content s' x = content s x).
Context (Hip : ∃ A, length A = (NDIRECT + 1)%nat ∧ ip' = set_i_addrs A ip).
Context (Hothers : ∀ j, j ≠ i → inode_at s' j = inode_at s j) (Hlen : length (itable s') = length (itable s)).

Lemma link_data_block : data_block s b.
Proof. split; [done|]. intros x Hx ->. rewrite (dk_used _ Hdk x Hx) in Hfree. done. Qed.
Lemma link_used x : in_use s' x ↔ in_use s x ∨ x = b.
Proof.
  pose proof link_data_block as Hdb. unfold in_use, data_block in *. rewrite Hsb. split.
  - intros [[Hx Hbm] Hu]. rewrite Hbits in Hu by lia. destruct (Z.eqb_spec x b); [by right|left].
    rewrite andb_true_r in Hu. done.
  - intros [[[Hx Hbm] Hu]| ->].
    + rewrite Hbits, Hu by lia. done.
    + rewrite Hbits, Z.eqb_refl, andb_false_r by lia. done.
Qed.
Lemma link_slot_ne q : place q → slot_of s ip q ≠ b.
Proof.
  intros Hq E. destruct (fo_used _ _ Hf q Hq ltac:(lia)) as [_ Hu]. rewrite E in Hu. congruence.
Qed.
Lemma link_file : file_ok s' ip'.
Proof.
  destruct Hip as (A & HA & EA). destruct Hf as [F1 F2 F3 F4]. split.
  - by rewrite EA.
  - by rewrite EA.
  - intros q Hq. rewrite Hslot, link_used by done. destruct (decide (q = q0)); [by right|]. intros Hn. left. by apply F3.
  - intros q q' Hq Hq'. rewrite !Hslot by done.
    destruct (decide (q = q0)) as [->|], (decide (q' = q0)) as [->|]; try done.
    + intros _ E. by destruct (link_slot_ne q' Hq').
    + intros _ E. by destruct (link_slot_ne q Hq).
    + by apply F4.
Qed.
Lemma link_evolves : evolves i s s' ∧ data_kept i s s'.
Proof.
  split.
  - split; try done.
    + destruct Hip as (A & _ & EA). by exists A.
    + apply link_file.
    + intros q Hq Hn. rewrite Hslot by done. destruct (decide (q = q0)) as [->|]; done.
    + intros q Hq E. rewrite Hslot by done. by destruct (decide (q = q0)) as [->|].
    + intros x Hx. apply link_used. by left.
    + intros x [Hx Hn]. apply Hkeep; [done|]. intros ->. by apply (Hn None).
  - intros bn Hbn Ha. apply Hkeep; [by apply (fo_used _ _ Hf (Some bn))|]. intros E.
    by discriminate (fo_inj _ _ Hf (Some bn) None Hbn I Ha E).
Qed.
End link.

(** ** Entering an address *)

Definition place_of (k : nat) : option Z := if decide (k = NDIRECT) then None else Some (Z.of_nat k).
Lemma get32_zeros k : get32 zeros k = 0.
Proof.
  assert (H : ∀ j, default 0 (zeros !! j) = 0).
  { intros j. destruct (zeros !! j) eqn:E; [|done]. by apply lookup_replicate in E as [-> _]. }
  unfold get32. by rewrite !H.
Qed.
Lemma addr_at_set ip k a j :
  (k < length (i_addrs ip))%nat → addr_at (set_addr k a ip) j = if decide (j = k) then a else addr_at ip j.
Proof.
  intros Hk. unfold addr_at, set_addr. cbn [i_addrs set_i_addrs]. destruct (decide (j = k)) as [->|].
  - by rewrite list_lookup_insert_eq.
  - by rewrite list_lookup_insert_ne.
Qed.
(** An address in the inode. *)
Lemma slot_set_addr s s' ip k b q :
  length (i_addrs ip) = (NDIRECT + 1)%nat → (k <= NDIRECT)%nat → place q → b ≠ 0 → addr_at ip k = 0 →
  (addr_at ip NDIRECT ≠ 0 → content s' (addr_at ip NDIRECT) = content s (addr_at ip NDIRECT)) →
  content s' b = zeros →
  slot_of s' (set_addr k b ip) q = if decide (q = place_of k) then b else slot_of s ip q.
Proof.
  intros Hl Hk Hq Hb H0 Hind Hz. pose proof (addr_at_set ip k b) as Ha. rewrite Hl in Ha. unfold place_of.
  destruct q as [bn|]; cbn [slot_of].
  - unfold addr_of. rewrite !Ha by lia. destruct (Z.ltb_spec bn (Z.of_nat NDIRECT)) as [Hd|Hd].
    + cbn [place] in Hq. destruct (decide (k = NDIRECT)) as [->|Hn].
      * rewrite decide_False, (decide_False (P := Some bn = None)) by (done || lia). done.
      * destruct (decide (Z.to_nat bn = k)) as [E|E]; [rewrite decide_True by (f_equal; lia) | rewrite decide_False by (intros [=]; lia)]; done.
    + destruct (decide (k = NDIRECT)) as [->|Hn].
      * rewrite (decide_True (P := NDIRECT = NDIRECT)), (decide_False (P := Some bn = None)) by done.
        rewrite H0, Z.eqb_refl, (proj2 (Z.eqb_neq b 0)), Hz by done. apply get32_zeros.
      * rewrite decide_False, (decide_False (P := Some bn = _)) by (congruence || (intros [=]; lia)).
        destruct (Z.eqb_spec (addr_at ip NDIRECT) 0); [done|]. by rewrite Hind.
  - rewrite Ha by lia. destruct (decide (k = NDIRECT)) as [->|Hn]; [by rewrite !decide_True|].
    by rewrite decide_False, (decide_False (P := None = Some _)) by congruence.
Qed.
(** An address in the indirect block. *)
Lemma slot_set_entry s s' ip j b q :
  let ind := addr_at ip NDIRECT in let k := (4 * Z.to_nat j)%nat in
  is_block_data (content s ind) → 0 <= j < NINDIRECT → place q → ind ≠ 0 → 0 <= b < 2 ^ 32 →
  content s' ind = put32 (content s ind) k b →
  slot_of s' ip q = if decide (q = Some (Z.of_nat NDIRECT + j)) then b else slot_of s ip q.
Proof.
  intros ind k [Hl _] Hj Hq Hi Hb Hct. destruct q as [bn|]; cbn [slot_of]; [|by rewrite decide_False].
  cbn [place] in Hq. unfold addr_of. fold ind. rewrite (proj2 (Z.eqb_neq ind 0) Hi).
  change NINDIRECT with 256 in *. change BSIZE with 1024 in *. change MAXFILE with 268 in *. change (Z.of_nat NDIRECT) with 12 in *.
  destruct (Z.ltb_spec bn 12); [by rewrite decide_False by (intros [=]; lia)|]. rewrite Hct.
  destruct (decide (Some bn = Some (12 + j))) as [[= ->]|Hn].
  - replace (4 * Z.to_nat (12 + j - 12))%nat with k by (unfold k; lia).
    rewrite get32_put32_eq by (unfold k; lia). by apply u32_small.
  - rewrite get32_put32_ne; [done|]. assert (bn ≠ 12 + j) by congruence. unfold k. lia.
Qed.

Section run.
Variables (p : nat) (pid : Z).

(** A block that is not free, nor one of the bitmap, is as before. *)
Lemma allocated_keep B H b s s' x :
  allocated p pid B H b s s' → block_free s b = true → 0 <= b < sb_size (sb s) → in_use s x → content s' x = content s x.
Proof.
  intros [_ A2 _ _] Hf Hb [[_ Hbm] Hu]. rewrite A2, decide_False by congruence.
  rewrite decide_False; [done|]. by apply Hbm.
Qed.
Lemma length_allocated b bb B : (length (logged b (logged bb B)) <= length B + 2)%nat.
Proof. pose proof (length_logged b (logged bb B)). pose proof (length_logged bb B). lia. Qed.

Lemma inode_at_frame s s' j : tx_frame s s' → inode_at s' j = inode_at s j.
Proof. intros F. destruct (tx_frame_fields _ _ F) as (_ & Hit & _). unfold inode_at. by rewrite Hit. Qed.

(** A new block whose address goes into the inode. *)
Lemma balloc_inode B s i k :
  let ip := inode_at s i in
  tx p pid B [] s → disk_ok s → printable s → file_ok s ip → (i < length (itable s))%nat →
  (k <= NDIRECT)%nat → addr_at ip k = 0 → (length B + 2 < Z.to_nat LOGBLOCKS)%nat →
  ∃ r s1, balloc ROOTDEV s = Ok r s1 ∧
    ((r = 0 ∧ disk_full s1 ∧ tx p pid B [] s1 ∧ inode_at s1 i = ip ∧ evolves i s s1 ∧ data_kept i s s1)
     ∨ (r ≠ 0 ∧ let s2 := upd_inode i (set_addr k r) s1 in
        inode_at s2 i = set_addr k r ip ∧ evolves i s s2 ∧ data_kept i s s2 ∧
        ∃ B', (length B' <= length B + 2)%nat ∧ tx p pid B' [] s2)).
Proof.
  intros ip Ht Hdk Hp Hf Hi Hk H0 HB.
  destruct (balloc_ok p pid B [] s Ht Hdk) as (r & s1 & E & Hr);
    [by intros ? ? ?%elem_of_nil | done | unfold LOGBLOCKS, MAXOPBLOCKS, NBUF in *; simpl; lia | lia |].
  exists r, s1. split; [done|]. destruct Hr as [(-> & R1 & R2 & [R3 R4 R5] & _)|(R1 & R2 & _ & R4)]; [left|right].
  - destruct (tx_frame_fields _ _ R4) as (Hsb & Hit & _).
    assert (Hfull : disk_full s1) by (intros b Hb; rewrite Hsb in Hb; rewrite (same_free s) by done; by apply R1).
    split; [done|]. split; [done|]. split; [done|]. split; [by apply inode_at_frame|].
    apply evolves_same; try done. by eapply frame_printable.
  - split; [lia|]. set (s2 := upd_inode i (set_addr k r) s1). pose proof R4 as [A1 A2 A3 A4].
    destruct (tx_frame_fields _ _ A3) as (Hsb & Hit & _).
    destruct (allocated_free p pid B [] s s1 r Hdk ltac:(lia) R2 R4) as [D1 D2].
    assert (Hat : ∀ j, inode_at s2 j = if decide (j = i) then set_addr k r ip else inode_at s j).
    { intros j. unfold s2. rewrite inode_at_upd by (by rewrite Hit). by rewrite !(inode_at_frame s s1 _ A3). }
    assert (Hi2 : inode_at s2 i = set_addr k r ip) by (by rewrite Hat, decide_True).
    split; [done|].
    assert (Hkeep : ∀ x, in_use s x → content s2 x = content s x)
      by (intros x Hx; apply (allocated_keep B [] r s s1); (done || lia)).
    destruct (link_evolves i s s2 r (place_of k)) as [He Hd]; try done.
    + by apply (same_disk s1).
    + by destruct (frame_printable s s1 Hp A3).
    + unfold place_of. destruct (decide (k = NDIRECT)) as [->|]; [done|]. cbn [slot_of]. unfold addr_of.
      rewrite (proj2 (Z.ltb_lt _ _)) by lia. by rewrite Nat2Z.id.
    + intros q Hq. rewrite Hi2. apply slot_set_addr; try done; [apply Hf | lia | |].
      * intros Hn. apply Hkeep. by apply (fo_used _ _ Hf None).
      * change (content s1 r = zeros). by rewrite A2, decide_True.
    + intros x Hx _. by apply Hkeep.
    + exists (<[k := r]> (i_addrs ip)). split; [rewrite length_insert; apply Hf|]. by rewrite Hi2.
    + intros j Hj. by rewrite Hat, decide_False.
    + unfold s2, upd_inode. simpl. by rewrite length_alter, Hit.
    + split; [done|]. split; [done|]. exists (logged r (logged (BBLOCK r (sb s)) B)). split; [apply length_allocated|].
      by apply tx_itable.
Qed.

(** The end of bmap(), from the indirect block on. *)
Definition entry (ind : Z) (k : nat) : K Z :=
  bp <- bread ROOTDEV ind ;;
  d <- get_data bp ;;
  addr <- (if get32 d k =? 0 then
             addr <- balloc ROOTDEV ;;
             when (negb (addr =? 0))
               (d <- get_data bp ;;
                set_data bp (put32 d k addr) ;;
                log_write bp) ;;
             ret addr
           else ret (get32 d k)) ;;
  brelse bp ;;
  ret addr.

Lemma held_clear B s ind k :
  tx p pid B [k] s → cached s ind k → in_use s ind → clear_of [k] s.
Proof.
  intros Ht Hc [[_ Hbm] Hu] j b Hj Hb. apply list_elem_of_singleton in Hj as ->.
  by rewrite (cached_inj s b ind k Hb Hc).
Qed.

(** The allocation and what follows it, with the indirect block in the buffer [kb] of [s1]. *)
Definition new_entry (kb k : nat) : K Z :=
  addr <- balloc ROOTDEV ;;
  when (negb (addr =? 0))
    (d <- get_data kb ;;
     set_data kb (put32 d k addr) ;;
     log_write kb) ;;
  ret addr.

Section new.
Variables (B : list Z) (s s1 : kernel) (i : nat) (j : Z) (kb : nat).
Notation ip := (inode_at s i).
Notation ind := (addr_at ip NDIRECT).
Notation k := (4 * Z.to_nat j)%nat.
Context (Ht : tx p pid B [] s) (Hdk : disk_ok s) (Hp : printable s) (Hf : file_ok s ip).
Context (Hind : ind ≠ 0) (Hj : 0 <= j < NINDIRECT) (H0 : get32 (content s ind) k = 0).
Context (HB : (length B + 3 < Z.to_nat LOGBLOCKS)%nat).
Context (Ht1 : tx p pid B [kb] s1) (Hk1 : cached s1 ind kb) (Hct1 : ∀ b, content s1 b = content s b).
Context (Hh1 : disk_hist s1 = disk_hist s) (Hf1 : fs_frame s s1).

Lemma new_entry_used : in_use s ind.
Proof. apply (fo_used _ _ Hf None I Hind). Qed.
Lemma new_entry_fields : sb s1 = sb s ∧ itable s1 = itable s ∧ printable s1 ∧ disk_ok s1 ∧ clear_of [kb] s1.
Proof.
  pose proof (tx_frame_fs _ _ Hf1) as F1. destruct (tx_frame_fields _ _ F1) as (Hsb1 & Hit1 & _).
  split_and!; [done | done | by eapply frame_printable | by eapply same_disk |].
  apply (held_clear B s1 ind); [done | done |]. unfold in_use, data_block. rewrite Hsb1, (same_free s s1) by done.
  apply new_entry_used.
Qed.

(** No block is free: the buffer goes back as it came. *)
Lemma new_entry_full s2 :
  unchanged s1 s2 → tx p pid B [kb] s2 → held_kept [kb] s1 s2 →
  (∀ b, 0 <= b < sb_size (sb s1) → block_free s1 b = false) →
  ∃ s', brelse kb s2 = Ok tt s' ∧ tx p pid B [] s' ∧ evolves i s s' ∧ data_kept i s s' ∧ inode_at s' i = ip ∧ disk_full s'.
Proof.
  intros [U1 U2 U3] Ht2 Hk2 Hfull. destruct new_entry_fields as (Hsb1 & Hit1 & Hp1 & _ & _).
  destruct (tx_frame_fields _ _ U2) as (Hsb2 & Hit2 & _ & Himg2 & _).
  destruct (tx_brelse p pid B [] s2 kb ind Ht2) as (s3 & E3 & Ht3 & Hct3 & _ & Hf3 & _).
  { apply Hk2; [by left | done]. }
  { destruct (tx_clean p pid B [] s ind Ht) as [?|Hc]; [by intros ? ?%elem_of_nil | by left | right].
    rewrite U1, Hct1, Hc. symmetry. apply disk_read_eq; [by rewrite U3 | by rewrite Himg2, (fs_frame_img _ _ Hf1)]. }
  pose proof (tx_frame_fs _ _ Hf3) as F3. destruct (tx_frame_fields _ _ F3) as (Hsb3 & Hit3 & _).
  assert (Hct : ∀ b, content s3 b = content s b) by (intros b; by rewrite Hct3, U1, Hct1).
  destruct (evolves_same i s s3) as [He Hd]; try done; [congruence | congruence | |].
  { by eapply frame_printable, F3; eapply frame_printable. }
  exists s3. split_and!; try done.
  - unfold inode_at. by rewrite Hit3, Hit2, Hit1.
  - intros b Hb. rewrite (same_free s1 s3); [apply Hfull | |]; [congruence | congruence |].
    intros x. by rewrite Hct, Hct1.
Qed.

(** A block is found: its address is stored, and the indirect block logged. *)
Lemma new_entry_found r s2 :
  0 < r < sb_size (sb s1) → block_free s1 r = true → allocated p pid B [kb] r s1 s2 →
  b_data (buf_at s2 kb) = content s ind ∧
  ∃ s3 s' B', log_write kb (upd_buf kb (set_b_data (put32 (content s ind) k r)) s2) = Ok tt s3 ∧
    brelse kb s3 = Ok tt s' ∧ tx p pid B' [] s' ∧ (length B' <= length B + 3)%nat ∧
    evolves i s s' ∧ data_kept i s s' ∧ inode_at s' i = ip ∧ r = addr_of s' ip (Z.of_nat NDIRECT + j).
Proof.
  intros Hr Hfree Hal. destruct new_entry_fields as (Hsb1 & Hit1 & Hp1 & Hdk1 & _).
  assert (Hr' : 0 < r < sb_size (sb s)) by (by rewrite <- Hsb1).
  pose proof Hal as [A1 A2 A3 A4]. destruct (tx_frame_fields _ _ A3) as (Hsb2 & Hit2 & _).
  destruct (allocated_free p pid B [kb] s1 s2 r Hdk1 ltac:(lia) Hfree Hal) as [D1 D2].
  assert (Hu1 : ∀ x, in_use s x → in_use s1 x).
  { intros x. unfold in_use, data_block. by rewrite Hsb1, (same_free s s1). }
  assert (Hkeep : ∀ x, in_use s x → content s2 x = content s x).
  { intros x Hx. rewrite (allocated_keep B [kb] r s1 s2) by (done || lia || auto). apply Hct1. }
  pose proof (Hkeep _ new_entry_used) as Hi2.
  assert (Hk2 : cached s2 ind kb) by (apply A4; [by left | done]).
  split. { by rewrite <- (content_cached _ _ _ _ _ _ _ (tx_cache _ _ _ _ _ A1) Hk2). }
  set (d := put32 (content s ind) k r). pose proof (dk_size _ Hdk) as Hsz. pose proof (in_use_pos _ _ new_entry_used) as Hir.
  pose proof (length_allocated r (BBLOCK r (sb s1)) B) as Hla.
  destruct (tx_put p pid _ [] s2 kb ind d A1 Hk2) as (s3 & s' & E3 & E4 & Ht4 & Hct4 & _ & F4 & _); [lia | lia |].
  destruct (tx_frame_fields _ _ F4) as (Hsb4 & Hit4 & _).
  assert (Hat : ∀ l, inode_at s' l = inode_at s l) by (intros l; unfold inode_at; by rewrite Hit4, Hit2, Hit1).
  destruct (store_disk s2 s' ind d Hsb4 D1) as [D3 D4]; [| by apply put32_data, Hdk | done |].
  { unfold data_block. rewrite Hsb2, Hsb1. apply new_entry_used. }
  assert (Hslot : ∀ q, place q → slot_of s' ip q = if decide (q = Some (Z.of_nat NDIRECT + j)) then r else slot_of s ip q).
  { intros q Hq. apply slot_set_entry; [apply Hdk | done | done | done | lia | by rewrite Hct4, decide_True]. }
  assert (Hq : place (Some (Z.of_nat NDIRECT + j))) by (cbn; unfold MAXFILE; lia).
  destruct (link_evolves i s s' r (Some (Z.of_nat NDIRECT + j))) as [He Hd]; try done.
  - rewrite <- Hfree. symmetry. by apply same_free.
  - congruence.
  - by eapply frame_printable, F4; eapply frame_printable, A3.
  - intros x Hx. rewrite D4, D2, (same_free s s1) by (done || congruence). done.
  - cbn [slot_of]. unfold addr_of. rewrite (proj2 (Z.ltb_ge _ _)), (proj2 (Z.eqb_neq _ _) Hind) by lia.
    by replace (Z.of_nat NDIRECT + j - Z.of_nat NDIRECT) with j by lia.
  - intros q Hpq. rewrite Hat. by apply Hslot.
  - intros x Hx Hn. rewrite Hct4, decide_False by done. by apply Hkeep.
  - exists (i_addrs ip). split; [apply Hf|]. rewrite Hat. by destruct ip.
  - by rewrite Hit4, Hit2, Hit1.
  - exists s3, s', (logged ind (logged r (logged (BBLOCK r (sb s1)) B))). split_and!; try done.
    + pose proof (length_logged ind (logged r (logged (BBLOCK r (sb s1)) B))). lia.
    + specialize (Hslot _ Hq). rewrite decide_True in Hslot by done. by rewrite <- Hslot.
Qed.
End new.

Lemma entry_ok B s i j :
  let ip := inode_at s i in let ind := addr_at ip NDIRECT in let k := (4 * Z.to_nat j)%nat in
  tx p pid B [] s → disk_ok s → printable s → file_ok s ip →
  ind ≠ 0 → 0 <= j < NINDIRECT → get32 (content s ind) k = 0 → (length B + 3 < Z.to_nat LOGBLOCKS)%nat →
  ∃ r s' B', entry ind k s = Ok r s' ∧ tx p pid B' [] s' ∧ (length B' <= length B + 3)%nat ∧
    evolves i s s' ∧ data_kept i s s' ∧ inode_at s' i = ip ∧
    ((r = 0 ∧ disk_full s') ∨ (r ≠ 0 ∧ r = addr_of s' ip (Z.of_nat NDIRECT + j))).
Proof.
  intros ip ind k Ht Hdk Hp Hf Hind Hj H0 HB. unfold entry.
  assert (HBn : (length B + 3 < NBUF)%nat) by (unfold LOGBLOCKS, MAXOPBLOCKS, NBUF in *; lia).
  destruct (tx_bread p pid B [] s ind Ht) as (kb & s1 & E1 & Ht1 & Hk1 & Hd1 & Hct1 & Hh1 & Hf1 & _);
    [by intros ? ?%elem_of_nil | simpl; lia |]. rewrite (bind_Ok _ _ _ _ _ E1). unfold get_data at 1. kstep.
  rewrite Hd1, H0, Z.eqb_refl. fold (new_entry kb k).
  destruct (new_entry_fields B s s1 i kb Hdk Hp Hf Hind Ht1 Hk1 Hct1 Hf1) as (_ & _ & Hp1 & Hdk1 & Hcl1).
  destruct (balloc_ok p pid B [kb] s1 Ht1 Hdk1 Hcl1 Hp1) as (r & s2 & E2 & Hr); [simpl; lia | lia |].
  destruct Hr as [(-> & R1 & R2 & R3 & R4)|(R1 & R2 & _ & R4)].
  - destruct (new_entry_full B s s1 i kb Ht Hdk Hp Hf Hind Ht1 Hk1 Hct1 Hh1 Hf1 s2 R3 R2 R4 R1)
      as (s' & E3 & Ht3 & He & Hd & Hi & Hfull).
    exists 0, s', B. split; [|split_and!; try done; [lia | by left]].
    rewrite (bind_Ok _ _ _ 0 s2) by (unfold new_entry; by rewrite (bind_Ok _ _ _ _ _ E2)).
    by rewrite (bind_Ok _ _ _ _ _ E3).
  - destruct (new_entry_found B s s1 i j kb Hdk Hp Hf Hind Hj H0 HB Ht1 Hk1 Hct1 Hf1 r s2 R1 R2 R4)
      as (Hb & s3 & s' & B' & E3 & E4 & Ht4 & HB' & He & Hd & Hi & Ha).
    exists r, s', B'. split; [|split_and!; try done; right; split; [lia | done]].
    rewrite (bind_Ok _ _ _ r s3).
    + by rewrite (bind_Ok _ _ _ _ _ E4).
    + unfold new_entry. rewrite (bind_Ok _ _ _ _ _ E2), (proj2 (Z.eqb_neq r 0)) by lia. cbn [negb].
      unfold get_data, set_data. erewrite bind_Ok; [reflexivity|]. ksteps. rewrite Hb. exact E3.
Qed.

(** The log entries that the indirect block may still cost. *)
Definition ind_cost (ip : inode) : nat := if addr_at ip NDIRECT =? 0 then 2 else 0.

(** What bmap() does for block [bn] of inode [i]. *)
Definition bmapped (B : list Z) (i : nat) (bn : Z) (s : kernel) (o : res Z) : Prop :=
  ∃ r s' B', o = Ok r s' ∧ tx p pid B' [] s' ∧
    (length B' + ind_cost (inode_at s' i) <= length B + 3 + ind_cost (inode_at s i))%nat ∧
    evolves i s s' ∧ data_kept i s s' ∧
    ((r = 0 ∧ disk_full s') ∨ (r ≠ 0 ∧ r = addr_of s' (inode_at s' i) bn)).

Lemma bmap_direct B s i bn :
  tx p pid B [] s → disk_ok s → printable s → file_ok s (inode_at s i) → (i < length (itable s))%nat →
  0 <= bn < Z.of_nat NDIRECT → (length B + 2 < Z.to_nat LOGBLOCKS)%nat →
  addr_of s (inode_at s i) bn = 0 → bmapped B i bn s (bmap i bn s).
Proof.
  intros Ht Hdk Hp Hf Hi Hbn HB Ha. set (ip := inode_at s i) in *. unfold bmap. kstep. fold ip.
  rewrite (proj2 (Z.ltb_lt _ _)) by lia. assert (Ha' : addr_at ip (Z.to_nat bn) = 0).
  { rewrite <- Ha. unfold addr_of. by rewrite (proj2 (Z.ltb_lt _ _)) by lia. }
  rewrite Ha', Z.eqb_refl, (fo_dev _ _ Hf).
  destruct (balloc_inode B s i (Z.to_nat bn) Ht Hdk Hp Hf Hi ltac:(lia) Ha' HB) as (r & s1 & E & Hr).
  rewrite (bind_Ok _ _ _ _ _ E). destruct Hr as [(-> & R1 & R2 & R3 & R4 & R5)|(R1 & R2 & R3 & R4 & B' & HB' & R5)].
  - exists 0, s1, B. split_and!; try done; [rewrite R3; lia | by left].
  - rewrite (proj2 (Z.eqb_neq r 0) R1). kstep. eexists r, _, B'. split; [reflexivity|].
    fold ip in R2. assert (Hind : addr_at (set_addr (Z.to_nat bn) r ip) NDIRECT = addr_at ip NDIRECT)
      by (rewrite addr_at_set, decide_False; [done | lia | rewrite (fo_len _ _ Hf); lia]).
    split_and!; try done.
    + rewrite R2. unfold ind_cost. fold ip. rewrite Hind. lia.
    + right. split; [done|]. rewrite R2. unfold addr_of. rewrite (proj2 (Z.ltb_lt _ _)) by lia.
      rewrite addr_at_set, decide_True; [done | done | rewrite (fo_len _ _ Hf); lia].
Qed.

(** The indirect block, allocated if there is none. *)
Lemma bmap_ind B s i :
  let ip := inode_at s i in
  tx p pid B [] s → disk_ok s → printable s → file_ok s ip → (i < length (itable s))%nat →
  (length B + 2 < Z.to_nat LOGBLOCKS)%nat →
  ∃ r s' B', (if addr_at ip NDIRECT =? 0 then
                 addr <- balloc ROOTDEV ;;
                 when (negb (addr =? 0)) (modify (upd_inode i (set_addr NDIRECT addr))) ;;
                 ret addr
               else ret (addr_at ip NDIRECT)) s = Ok r s' ∧
    tx p pid B' [] s' ∧ (length B' + ind_cost (inode_at s' i) <= length B + ind_cost ip)%nat ∧
    evolves i s s' ∧ data_kept i s s' ∧
    ((r = 0 ∧ disk_full s') ∨ (r ≠ 0 ∧ r = addr_at (inode_at s' i) NDIRECT)).
Proof.
  intros ip Ht Hdk Hp Hf Hi HB. destruct (Z.eqb_spec (addr_at ip NDIRECT) 0) as [E0|E0].
  - destruct (balloc_inode B s i NDIRECT Ht Hdk Hp Hf Hi ltac:(done) E0 HB) as (r & s1 & E & Hr).
    rewrite (bind_Ok _ _ _ _ _ E). destruct Hr as [(-> & R1 & R2 & R3 & R4 & R5)|(R1 & R2 & R3 & R4 & B' & HB' & R5)].
    + exists 0, s1, B. split_and!; try done; [rewrite R3; done | by left].
    + rewrite (proj2 (Z.eqb_neq r 0) R1). cbn [negb]. kstep. eexists r, _, B'. split; [reflexivity|].
      assert (Hind : addr_at (set_addr NDIRECT r ip) NDIRECT = r)
        by (rewrite addr_at_set, decide_True; [done | done | rewrite (fo_len _ _ Hf); lia]).
      split_and!; try done.
      * rewrite R2. unfold ind_cost. fold ip. rewrite Hind, E0, (proj2 (Z.eqb_neq r 0) R1), Z.eqb_refl. lia.
      * right. split; [done|]. by rewrite R2.
  - destruct (evolves_same i s s) as [He Hd]; try done. exists (addr_at ip NDIRECT), s, B.
    split_and!; try done. by right.
Qed.

Lemma reads_tx B s s' : tx p pid B [] s → reads p pid B s s' → tx p pid B [] s'.
Proof.
  intros [_ T2 T3 T4 T5 T6] [C _ F]. pose proof (fs_frame_log _ _ F) as El. split; rewrite ?El; done.
Qed.
Lemma reads_evolves B s s' i :
  reads p pid B s s' → disk_ok s → printable s → file_ok s (inode_at s i) →
  evolves i s s' ∧ data_kept i s s' ∧ inode_at s' i = inode_at s i.
Proof.
  intros [_ C F] Hdk Hp Hf. pose proof (tx_frame_fs _ _ F) as F'. destruct (tx_frame_fields _ _ F') as (Hsb & Hit & _).
  destruct (evolves_same i s s') as [He Hd]; try done; [by eapply frame_printable|].
  split_and!; try done. by apply inode_at_frame.
Qed.

(** An address that the indirect block has. *)
Lemma entry_there B s i j :
  let ip := inode_at s i in let ind := addr_at ip NDIRECT in let k := (4 * Z.to_nat j)%nat in
  tx p pid B [] s → (length B < NBUF)%nat → get32 (content s ind) k ≠ 0 →
  ∃ s', entry ind k s = Ok (get32 (content s ind) k) s' ∧ reads p pid B s s'.
Proof.
  intros ip ind k Ht HB Hn. unfold entry.
  destruct (cache_get p pid B HB s ind (tx_cache _ _ _ _ _ Ht)) as (kb & s1 & s' & E1 & Hd & Hf & _ & E2 & Hr).
  rewrite (bind_Ok _ _ _ _ _ E1). unfold get_data at 1. kstep. rewrite Hd, (proj2 (Z.eqb_neq _ _) Hn). kstep.
  rewrite (bind_Ok _ _ _ _ _ E2). by exists s'.
Qed.

Lemma addr_of_entry s ip j :
  0 <= j → addr_at ip NDIRECT ≠ 0 →
  addr_of s ip (Z.of_nat NDIRECT + j) = get32 (content s (addr_at ip NDIRECT)) (4 * Z.to_nat j).
Proof.
  intros Hj Hn. unfold addr_of. rewrite (proj2 (Z.ltb_ge _ _)), (proj2 (Z.eqb_neq _ _) Hn) by lia.
  by replace (Z.of_nat NDIRECT + j - Z.of_nat NDIRECT) with j by lia.
Qed.

Lemma bmap_indirect B s i j :
  tx p pid B [] s → disk_ok s → printable s → file_ok s (inode_at s i) → (i < length (itable s))%nat →
  0 <= j < NINDIRECT → (length B + 5 < Z.to_nat LOGBLOCKS)%nat →
  bmapped B i (Z.of_nat NDIRECT + j) s (bmap i (Z.of_nat NDIRECT + j) s).
Proof.
  intros Ht Hdk Hp Hf Hi Hj HB. destruct (bmap_ind B s i Ht Hdk Hp Hf Hi ltac:(lia)) as (r & s1 & B1 & E & Ht1 & HB1 & He1 & Hd1 & Hr).
  unfold bmap. kstep. set (ip := inode_at s i) in *. rewrite (proj2 (Z.ltb_ge _ _)) by lia.
  replace (Z.of_nat NDIRECT + j - Z.of_nat NDIRECT) with j by lia. rewrite (proj2 (Z.ltb_lt j _)) by lia.
  rewrite (fo_dev _ _ Hf), (bind_Ok _ _ _ _ _ E). destruct Hr as [[-> Hfull]|[Hr ->]].
  { exists 0, s1, B1. fold ip. split_and!; try done; [lia | by left]. }
  rewrite (proj2 (Z.eqb_neq _ _) Hr). fold (entry (addr_at (inode_at s1 i) NDIRECT) (4 * Z.to_nat j)).
  assert (Hc : (ind_cost ip <= 2)%nat) by (unfold ind_cost; destruct (_ =? 0); lia).
  destruct (decide (get32 (content s1 (addr_at (inode_at s1 i) NDIRECT)) (4 * Z.to_nat j) = 0)) as [E0|E0].
  - destruct (entry_ok B1 s1 i j Ht1 (ev_disk _ _ _ He1) (ev_print _ _ _ He1) (ev_file _ _ _ He1) Hr Hj E0 ltac:(lia))
      as (r & s2 & B2 & E2 & Ht2 & HB2 & He2 & Hd2 & Hi2 & Hr2).
    exists r, s2, B2. rewrite E2. fold ip. split_and!; try done.
    + rewrite Hi2. lia.
    + by eapply evolves_trans.
    + by eapply data_kept_trans.
    + by rewrite Hi2.
  - destruct (entry_there B1 s1 i j Ht1) as (s2 & E2 & Hr2); [unfold LOGBLOCKS, MAXOPBLOCKS, NBUF in *; lia | done |].
    destruct (reads_evolves B1 s1 s2 i Hr2 (ev_disk _ _ _ He1) (ev_print _ _ _ He1) (ev_file _ _ _ He1)) as (He2 & Hd2 & Hi2).
    eexists _, s2, B1. rewrite E2. fold ip. split; [done|]. split_and!.
    + by eapply reads_tx.
    + rewrite Hi2. lia.
    + by eapply evolves_trans.
    + by eapply data_kept_trans.
    + right. split; [done|]. rewrite Hi2, (addr_of_eq s1 s2) by apply Hr2. by rewrite addr_of_entry by (done || lia).
Qed.

(** bmap(): the block of the file, which is allocated if it is missing. *)
Lemma bmap_ok B s i bn :
  tx p pid B [] s → disk_ok s → printable s → file_ok s (inode_at s i) → (i < length (itable s))%nat →
  0 <= bn < MAXFILE → (length B + 5 < Z.to_nat LOGBLOCKS)%nat → bmapped B i bn s (bmap i bn s).
Proof.
  intros Ht Hdk Hp Hf Hi Hbn HB. destruct (decide (bn < Z.of_nat NDIRECT)) as [Hd|Hd].
  - destruct (decide (addr_of s (inode_at s i) bn = 0)) as [E|E]; [by apply bmap_direct; try lia|].
    assert (HBn : (length B < NBUF)%nat) by (unfold LOGBLOCKS, MAXOPBLOCKS, NBUF in *; lia).
    destruct (bmap_mapped p pid B HBn s i bn (tx_cache _ _ _ _ _ Ht) (fo_dev _ _ Hf) Hbn E) as (s' & Eb & Hr).
    rewrite Eb. destruct Hr as [->|Hr].
    + destruct (evolves_same i s s) as [He Hk]; try done. eexists _, s, B. split_and!; try done; [lia | by right].
    + destruct (reads_evolves B s s' i Hr Hdk Hp Hf) as (He & Hk & Hi'). eexists _, s', B.
      split_and!; try done; [by eapply reads_tx | rewrite Hi'; lia | right]. split; [done|].
      by rewrite Hi', (addr_of_eq s s') by apply Hr.
  - replace bn with (Z.of_nat NDIRECT + (bn - Z.of_nat NDIRECT)) by lia. unfold MAXFILE in Hbn.
    apply bmap_indirect; (done || lia).
Qed.
End run.
