(* ===== verification/FsWrite.v ===== *)
(** Writing to files: writei() stores the bytes in the blocks of the file, allocating those it does
    not have, and readi() returns them. *)
From S2P Require Import Prelude Pstat Kernel Spinlock Sched Cstring Riscv Kalloc Vm ProcMem ProcStat Sleeplock Uart Bio Cache Log Crash Fs Tx FsBlock FsInode FsFile FsAlloc.

Lemma block_index x lim : 0 <= x < lim * BSIZE → 0 <= x / BSIZE < lim.
Proof. intros Hx. unfold BSIZE in *. dlia. Qed.

(** [s'] is [s] after the bytes [l] were stored at [off] in the file of inode [i]. *)
Record wrote (i : nat) (off : Z) (l : list Z) (s s' : kernel) : Prop := {
  wo_ev : evolves i s s';
  wo_there : ∀ x, off <= x < off + Z.of_nat (length l) → addr_of s' (inode_at s' i) (x / BSIZE) ≠ 0;
  wo_in : ∀ k c, l !! k = Some c → file_byte s' (inode_at s' i) (off + Z.of_nat k) = c;
  wo_out : ∀ x, 0 <= x < MAXFILE * BSIZE → addr_of s (inode_at s i) (x / BSIZE) ≠ 0 →
    ¬ off <= x < off + Z.of_nat (length l) → file_byte s' (inode_at s' i) x = file_byte s (inode_at s i) x;
}.

Lemma wrote_nil i off s s' : evolves i s s' → data_kept i s s' → wrote i off [] s s'.
Proof.
  intros He Hd. split; [done | simpl; lia | done |]. intros x Hx Ha _. apply block_index in Hx.
  unfold file_byte. pose proof (ev_slot _ _ _ He (Some _) Hx Ha) as E. cbn [slot_of] in E. by rewrite E, Hd.
Qed.
Lemma wrote_there i off l s s' bn :
  wrote i off l s s' → 0 <= bn < MAXFILE → addr_of s (inode_at s i) bn ≠ 0 → addr_of s' (inode_at s' i) bn ≠ 0.
Proof. intros Hw Hbn Ha. pose proof (ev_slot _ _ _ (wo_ev _ _ _ _ _ Hw) (Some bn) Hbn Ha) as E. cbn [slot_of] in E. by rewrite E. Qed.

(** Storing [l1], then [l2] after it. *)
Lemma wrote_app i off l1 l2 s s1 s' :
  0 <= off → off + Z.of_nat (length l1) <= MAXFILE * BSIZE →
  wrote i off l1 s s1 → wrote i (off + Z.of_nat (length l1)) l2 s1 s' → wrote i off (l1 ++ l2) s s'.
Proof.
  intros Ho Hmax H1 H2. pose proof (λ bn, wrote_there _ _ _ _ _ bn H1) as T1. pose proof (λ bn, wrote_there _ _ _ _ _ bn H2) as T2.
  destruct H1 as [E1 Y1 I1 O1], H2 as [E2 Y2 I2 O2]. split.
  - by eapply evolves_trans.
  - intros x. rewrite length_app. intros Hx. destruct (decide (x < off + Z.of_nat (length l1))); [|apply Y2; lia].
    apply T2; [apply block_index; lia|]. apply Y1. lia.
  - intros k c. intros [Hk|[Hk Hk']]%lookup_app_Some.
    + pose proof (lookup_lt_Some _ _ _ Hk). rewrite O2; [by apply I1 | lia | apply Y1; lia | lia].
    + apply I2 in Hk'. rewrite <- Hk'. f_equal. lia.
  - intros x Hx Ha. rewrite length_app. intros Hout. rewrite O2; [apply O1; (done || lia) | done | | lia].
    apply T1; [by apply block_index | done].
Qed.

(** ** One block *)

Section stored.
Variables (i : nat) (s s' : kernel) (off : Z) (l : list Z).
Notation ip := (inode_at s i).
Notation bn := (off / BSIZE).
Notation a := (addr_of s ip bn).
Context (Hdk : disk_ok s) (Hf : file_ok s ip) (Hp' : printable s') (Hl : Forall byte l).
Context (Ho : 0 <= off) (Hlen : off mod BSIZE + Z.of_nat (length l) <= BSIZE) (Hbn : bn < MAXFILE) (Ha : a ≠ 0).
Context (Hsb : sb s' = sb s) (Hit : itable s' = itable s).
Context (Hct : ∀ b, content s' b = if decide (b = a) then put_at (Z.to_nat (off mod BSIZE)) l (content s a) else content s b).

Lemma stored_place : place (Some bn).
Proof. split; [apply Z.div_pos; [lia | done] | done]. Qed.
Lemma stored_inode j : inode_at s' j = inode_at s j.
Proof. unfold inode_at. by rewrite Hit. Qed.
Lemma stored_data : is_block_data (put_at (Z.to_nat (off mod BSIZE)) l (content s a)).
Proof.
  destruct (dk_data _ Hdk a) as [D1 D2]. assert (Hm := Z.mod_pos_bound off BSIZE ltac:(done)).
  split; [rewrite length_put_at; lia|].
  unfold put_at. apply Forall_app_2; [by apply Forall_take|]. apply Forall_app_2; [done | by apply Forall_drop].
Qed.
Lemma stored_used : in_use s a.
Proof. apply (fo_used _ _ Hf (Some bn) stored_place Ha). Qed.
Lemma stored_slot q : place q → slot_of s' ip q = slot_of s ip q.
Proof.
  intros Hq. destruct q as [k|]; [|done]. cbn [slot_of]. unfold addr_of. destruct (k <? _); [done|].
  destruct (addr_at ip NDIRECT =? 0); [done|]. rewrite Hct, decide_False; [done|]. intros E.
  by discriminate (fo_inj _ _ Hf (Some bn) None stored_place I Ha (eq_sym E)).
Qed.
Lemma stored_evolves : evolves i s s'.
Proof.
  destruct (store_disk s s' a _ Hsb Hdk (proj1 stored_used) stored_data Hct) as [D1 D2].
  assert (Hu : ∀ b, in_use s' b ↔ in_use s b).
  { intros b. unfold in_use, data_block. rewrite Hsb. split; intros [[? ?] Hu]; rewrite D2 in * by lia; done. }
  split; try done.
  - exists (i_addrs ip). rewrite stored_inode. by destruct ip.
  - intros j _. apply stored_inode.
  - by rewrite Hit.
  - rewrite stored_inode. destruct Hf as [F1 F2 F3 F4]. split; try done.
    + intros q Hq. rewrite stored_slot, Hu by done. by apply F3.
    + intros q q' Hq Hq'. rewrite !stored_slot by done. by apply F4.
  - intros q Hq _. by rewrite stored_inode, stored_slot.
  - intros q Hq H0. by rewrite stored_inode, stored_slot.
  - intros b. by rewrite Hu.
  - intros b [_ Hn]. rewrite Hct, decide_False; [done|]. intros ->. by apply (Hn (Some bn) stored_place).
Qed.
(** The bytes of the block. *)
Lemma stored_byte x : 0 <= x < MAXFILE * BSIZE → addr_of s ip (x / BSIZE) ≠ 0 →
  file_byte s' ip x = if decide (off <= x < off + Z.of_nat (length l)) then default 0 (l !! Z.to_nat (x - off)) else file_byte s ip x.
Proof.
  intros Hx Hax. apply block_index in Hx as Hxb. unfold file_byte. pose proof (stored_slot (Some _) Hxb) as Es. cbn [slot_of] in Es.
  rewrite Es, Hct.
  assert (Hm := Z.mod_pos_bound off BSIZE ltac:(done)). assert (Hxm := Z.mod_pos_bound x BSIZE ltac:(done)).
  assert (Hq := Z.div_mod x BSIZE ltac:(done)). assert (Hq' := Z.div_mod off BSIZE ltac:(done)).
  destruct (decide (x / BSIZE = bn)) as [E|E].
  - rewrite E in *. rewrite decide_True by done. destruct (dk_data _ Hdk a) as [D1 _]. unfold put_at.
    destruct (decide (off <= x < off + Z.of_nat (length l))) as [Hin|Hout].
    + rewrite lookup_app_r by (rewrite length_take; lia). rewrite length_take_le by lia.
      rewrite lookup_app_l by lia. do 2 f_equal. lia.
    + destruct (decide (x < off)).
      * rewrite lookup_app_l by (rewrite length_take; lia). by rewrite lookup_take_lt by lia.
      * rewrite lookup_app_r by (rewrite length_take; lia). rewrite length_take_le by lia.
        rewrite lookup_app_r by lia. rewrite lookup_drop. do 2 f_equal. lia.
  - assert (addr_of s ip (x / BSIZE) ≠ a).
    { intros Ea. pose proof (fo_inj _ _ Hf (Some _) (Some _) Hxb stored_place Hax Ea). congruence. }
    rewrite decide_False by done. rewrite decide_False; [done|]. intros Hin. apply E. unfold BSIZE in *. dlia.
Qed.
Lemma stored_wrote : wrote i off l s s'.
Proof.
  assert (Hsame : ∀ x, off <= x < off + Z.of_nat (length l) → x / BSIZE = bn).
  { intros x Hx. assert (Hm := Z.mod_pos_bound off BSIZE ltac:(done)). unfold BSIZE in *. dlia. }
  assert (Hmax : off + Z.of_nat (length l) <= MAXFILE * BSIZE).
  { assert (Hq' := Z.div_mod off BSIZE ltac:(done)). unfold BSIZE in *. lia. }
  split.
  - apply stored_evolves.
  - intros x Hx. rewrite stored_inode, (Hsame x Hx). pose proof (stored_slot _ stored_place) as E. cbn [slot_of] in E. by rewrite E.
  - intros k c Hk. pose proof (lookup_lt_Some _ _ _ Hk). rewrite stored_inode, stored_byte, decide_True; [| lia | lia |].
    + replace (Z.to_nat (off + Z.of_nat k - off)) with k by lia. by rewrite Hk.
    + by rewrite Hsame by lia.
  - intros x Hx Hax Hout. rewrite stored_inode, stored_byte by done. by rewrite decide_False.
Qed.
End stored.

(** ** The loop *)

Section run.
Variables (p : nat) (pid : Z).

(** What writei() stores in the block that bmap() gave it. *)
Lemma store_round B s1 i off m src :
  let a := addr_of s1 (inode_at s1 i) (off / BSIZE) in
  let d := put_at (Z.to_nat (off mod BSIZE)) (take (Z.to_nat m) src) (content s1 a) in
  tx p pid B [] s1 → disk_ok s1 → printable s1 → file_ok s1 (inode_at s1 i) → (length B < Z.to_nat LOGBLOCKS)%nat →
  0 <= off → off / BSIZE < MAXFILE → a ≠ 0 → Forall byte src → 0 < m <= Z.of_nat (length src) → off mod BSIZE + m <= BSIZE →
  ∃ k s2 s3 s', bread ROOTDEV a s1 = Ok k s2 ∧
    either_copyin (FromLocal src) m s2 = Ok (0, take (Z.to_nat m) src) s2 ∧ b_data (buf_at s2 k) = content s1 a ∧
    log_write k (upd_buf k (set_b_data d) s2) = Ok tt s3 ∧ brelse k s3 = Ok tt s' ∧
    tx p pid (logged a B) [] s' ∧ wrote i off (take (Z.to_nat m) src) s1 s'.
Proof.
  intros a d Ht Hdk Hp Hf HB Ho Hbn Ha Hsrc Hm Hmb.
  assert (Hu : in_use s1 a) by (apply (fo_used _ _ Hf (Some (off / BSIZE))); [by apply stored_place | done]).
  pose proof (in_use_pos _ _ Hu). pose proof (dk_size _ Hdk).
  assert (HBn : (length B < NBUF)%nat) by (unfold LOGBLOCKS, MAXOPBLOCKS, NBUF in *; lia).
  destruct (tx_bread p pid B [] s1 a Ht) as (k & s2 & E2 & Ht2 & Hk2 & Hd2 & Hct2 & _ & Hf2 & _);
    [by intros ? ?%elem_of_nil | simpl; lia |].
  destruct (tx_put p pid B [] s2 k a d Ht2 Hk2) as (s3 & s4 & E3 & E4 & Ht4 & Hct4 & _ & Hf4 & _); [lia | done |].
  pose proof (tx_frame_trans _ _ _ (tx_frame_fs _ _ Hf2) Hf4) as F. destruct (tx_frame_fields _ _ F) as (Hsb & Hit & _).
  exists k, s2, s3, s4. split_and!; try done.
  - unfold either_copyin. rewrite (bind_Ok _ _ _ _ _ (myproc_ok s2 (e_cpu _ _ (ca_env _ _ _ _ _ (tx_cache _ _ _ _ _ Ht2))))).
    by rewrite (fs_frame_settled s1).
  - apply stored_wrote; try done.
    + by eapply frame_printable.
    + by apply Forall_take.
    + rewrite length_take_le; lia.
    + intros b. rewrite Hct4. fold a. destruct (decide (b = a)); [done | by rewrite Hct2].
Qed.

Lemma ind_cost_evolves i s s' : evolves i s s' → (ind_cost (inode_at s' i) <= ind_cost (inode_at s i))%nat.
Proof.
  intros He. unfold ind_cost. destruct (Z.eqb_spec (addr_at (inode_at s i) NDIRECT) 0) as [E|E]; [destruct (_ =? 0); lia|].
  pose proof (ev_slot _ _ _ He None I E) as E'. cbn [slot_of] in E'. by rewrite E', (proj2 (Z.eqb_neq _ _) E).
Qed.

Lemma writei_loop_ok fuel : ∀ B s i off n tot src,
  tx p pid B [] s → disk_ok s → printable s → file_ok s (inode_at s i) → (i < length (itable s))%nat → Forall byte src →
  0 <= off → 0 <= tot → n = tot + Z.of_nat (length src) → off + Z.of_nat (length src) <= MAXFILE * BSIZE →
  let bl := blocks_left off (Z.of_nat (length src)) in
  bl < Z.of_nat fuel → Z.of_nat (length B + ind_cost (inode_at s i)) + 4 * bl + 2 <= LOGBLOCKS →
  ∃ s' B' m, writei_loop fuel i (FromLocal src) off n tot s = Ok (tot + m, off + m) s' ∧
    0 <= m <= Z.of_nat (length src) ∧ (m < Z.of_nat (length src) → disk_full s') ∧ tx p pid B' [] s' ∧
    Z.of_nat (length B') <= Z.of_nat (length B + ind_cost (inode_at s i)) + 4 * bl ∧
    wrote i off (take (Z.to_nat m) src) s s'.
Proof.
  induction fuel as [|fuel IH]; intros B s i off n tot src Ht Hdk Hp Hf Hi Hsrc Ho Htot Hn Hmax bl Hfuel Hlog.
  { pose proof (blocks_left_pos off (Z.of_nat (length src)) ltac:(lia)). lia. }
  cbn [writei_loop]. destruct (Z.ltb_spec tot n) as [Hlt|Hge]; cbn [negb].
  2: { exists s, B, 0. rewrite !Z.add_0_r. split; [done|]. split; [lia|]. split; [lia|]. split; [done|].
    split; [unfold bl; pose proof (blocks_left_pos off (Z.of_nat (length src)) ltac:(lia)); lia|].
    destruct (evolves_same i s s) as [He Hd]; try done. rewrite take_0. by apply wrote_nil. }
  replace (n - tot) with (Z.of_nat (length src)) in * by lia.
  destruct (blocks_left_next off (Z.of_nat (length src)) Ho ltac:(lia)) as (Hm0 & Hmb & Hrest & Hbl). fold bl in Hbl.
  set (m := Z.min (Z.of_nat (length src)) (BSIZE - off mod BSIZE)) in *.
  pose proof (blocks_left_pos (off + m) (Z.of_nat (length src) - m) ltac:(lia)) as Hbl0.
  assert (HB : (length B + ind_cost (inode_at s i) + 5 < Z.to_nat LOGBLOCKS)%nat) by lia.
  assert (Hbn : off / BSIZE < MAXFILE) by (apply block_index; lia).
  destruct (bmap_ok p pid B s i (off / BSIZE) Ht Hdk Hp Hf Hi) as (r & s1 & B1 & E1 & Ht1 & HB1 & He1 & Hd1 & Hr);
    [apply block_index; lia | lia |]. rewrite (bind_Ok _ _ _ _ _ E1).
  destruct Hr as [[-> Hfull]|[Hr ->]].
  { exists s1, B1, 0. rewrite !Z.add_0_r. split; [done|]. split; [lia|]. split; [done|]. split; [done|].
    split; [lia|]. rewrite take_0. by apply wrote_nil. }
  destruct (store_round B1 s1 i off m src Ht1 (ev_disk _ _ _ He1) (ev_print _ _ _ He1) (ev_file _ _ _ He1))
    as (k & s2 & s3 & s4 & E2 & E3 & Hb2 & E4 & E5 & Ht4 & Hw4); try done; try lia.
  rewrite (proj2 (Z.eqb_neq _ _) Hr). kstep.
  rewrite (fo_dev _ _ (ev_file _ _ _ He1)), (bind_Ok _ _ _ _ _ E2), (bind_Ok _ _ _ _ _ E3). unfold get_data, set_data. kstep. kstep.
  cbn [fst snd]. change (0 =? -1) with false. cbn iota. rewrite Hb2, (bind_Ok _ _ _ _ _ E4), (bind_Ok _ _ _ _ _ E5). cbn [src_add].
  clear E1 E2 E3 E4 E5. set (l := take (Z.to_nat m) src) in *. set (a := addr_of s1 _ _) in *.
  assert (Hll : Z.of_nat (length l) = m) by (unfold l; rewrite length_take_le; lia).
  pose proof (wrote_app i off [] l s s1 s4 Ho ltac:(simpl; lia) (wrote_nil i off s s1 He1 Hd1)
    ltac:(by rewrite Z.add_0_r)) as Hw. rewrite app_nil_l in Hw.
  pose proof (wo_ev _ _ _ _ _ Hw) as He4. pose proof (length_logged a B1) as Hlg.
  pose proof (ind_cost_evolves i s1 s4 (wo_ev _ _ _ _ _ Hw4)) as Hc4.
  destruct (IH (logged a B1) s4 i (off + m) n (tot + m) (drop (Z.to_nat m) src)) as (s' & B' & m' & E' & Hm' & Hfull & Ht' & HB' & Hw');
    try done; rewrite ?length_drop; try lia.
  - apply He4.
  - apply He4.
  - apply He4.
  - by rewrite (ev_len _ _ _ He4).
  - by apply Forall_drop.
  - replace (Z.of_nat (length src - Z.to_nat m)) with (Z.of_nat (length src) - m) by lia. lia.
  - replace (Z.of_nat (length src - Z.to_nat m)) with (Z.of_nat (length src) - m) by lia. lia.
  - rewrite length_drop in Hm', HB', Hfull.
    replace (Z.of_nat (length src - Z.to_nat m)) with (Z.of_nat (length src) - m) in * by lia.
    exists s', B', (m + m'). rewrite E'. split; [f_equal; f_equal; lia|]. split; [lia|]. split; [intros; apply Hfull; lia|].
    split; [done|]. split; [lia|].
    rewrite Z2Nat.inj_add, <- take_take_drop by lia. fold l. apply (wrote_app i off l _ s s4); [done | lia | done |]. by rewrite Hll.
Qed.

(** ** The inode *)

Lemma file_dinode_ok s ip :
  disk_ok s → file_ok s ip → length (i_addrs ip) = (NDIRECT + 1)%nat ∧ Forall (λ a, 0 <= a < 2 ^ 32) (i_addrs ip).
Proof.
  intros Hdk Hf. split; [apply Hf|]. apply Forall_lookup. intros k a Hk. destruct (decide (a = 0)) as [->|Hn]; [lia|].
  pose proof (lookup_lt_Some _ _ _ Hk) as Hlt. rewrite (fo_len _ _ Hf) in Hlt.
  assert (E : addr_at ip k = a) by (unfold addr_at; by rewrite Hk). pose proof (dk_size _ Hdk).
  assert (Hq : ∃ q, place q ∧ slot_of s ip q = a).
  { destruct (decide (k = NDIRECT)) as [->|]; [by exists None|]. exists (Some (Z.of_nat k)). split.
    - cbn. unfold MAXFILE. change NINDIRECT with 256. lia.
    - cbn [slot_of]. unfold addr_of. rewrite (proj2 (Z.ltb_lt _ _)) by lia. by rewrite Nat2Z.id. }
  destruct Hq as (q & Hq & Eq). pose proof (in_use_pos _ _ (fo_used _ _ Hf q Hq ltac:(congruence))). rewrite Eq in *. lia.
Qed.

(** iupdate() of a file whose inode is not in one of its own blocks. *)
Lemma iupdate_file B t i :
  let ip := inode_at t i in let ib := IBLOCK (i_inum ip) (sb t) in
  tx p pid B [] t → disk_ok t → printable t → file_ok t ip → foreign t ip ib → inum_ok t (i_inum ip) →
  dinode_ok (dinode_of_inode ip) → (length B < NBUF)%nat →
  ∃ s', iupdate i t = Ok tt s' ∧ tx p pid (logged ib B) [] s' ∧ itable s' = itable t ∧
    dinode_of s' (i_inum ip) = dinode_of_inode ip ∧ disk_ok s' ∧ file_ok s' ip ∧
    (∀ q, place q → slot_of s' ip q = slot_of t ip q) ∧ (∀ b, b ≠ ib → content s' b = content t b) ∧
    (∀ b, 0 <= b < sb_size (sb t) → block_free s' b = block_free t b) ∧ tx_frame t s'.
Proof.
  intros ip ib Ht Hdk Hp Hf Hib Hin Hdi HB.
  destruct (iupdate_correct p pid B t i Ht (dk_data _ Hdk) (fo_dev _ _ Hf) Hin Hdi HB) as (s' & E & Ht' & Hit & Hd & Hct & Hdata & F).
  fold ip ib in Ht', Hd, Hct. destruct (tx_frame_fields _ _ F) as (Hsb & _).
  destruct (store_disk t s' ib (content s' ib) Hsb Hdk (proj1 (proj1 Hib)) (Hdata _)) as [D1 D2].
  { intros b. destruct (decide (b = ib)) as [->|]; [done | by apply Hct]. }
  assert (Hslot : ∀ q, place q → slot_of s' ip q = slot_of t ip q).
  { intros [bn|] Hq; [|done]. cbn [slot_of]. unfold addr_of. destruct (bn <? _); [done|].
    destruct (addr_at ip NDIRECT =? 0); [done|]. rewrite Hct; [done|]. by apply (proj2 Hib None). }
  assert (Hu : ∀ b, in_use t b → in_use s' b).
  { intros b [[? ?] Hu]. unfold in_use, data_block. rewrite Hsb, D2 by lia. done. }
  exists s'. split_and!; try done.
  - rewrite Hd by done. by rewrite decide_True.
  - destruct Hf as [F1 F2 F3 F4]. split; try done.
    + intros q Hq. rewrite Hslot by done. intros Hn. by apply Hu, F3.
    + intros q q' Hq Hq'. rewrite !Hslot by done. by apply F4.
Qed.

Definition grown (ip : inode) (size : Z) : inode := if i_size ip <? size then set_i_size size ip else ip.
Lemma grown_fields ip size : i_addrs (grown ip size) = i_addrs ip ∧ i_dev (grown ip size) = i_dev ip ∧
  i_inum (grown ip size) = i_inum ip ∧ i_size (grown ip size) = Z.max (i_size ip) size.
Proof. unfold grown. destruct (Z.ltb_spec (i_size ip) size); cbn; split_and!; try done; lia. Qed.
Lemma slot_of_addrs s ip ip' q : i_addrs ip' = i_addrs ip → slot_of s ip' q = slot_of s ip q.
Proof. intros E. unfold slot_of, addr_of, addr_at. by rewrite E. Qed.
Lemma file_ok_addrs s ip ip' : i_addrs ip' = i_addrs ip → i_dev ip' = i_dev ip → file_ok s ip → file_ok s ip'.
Proof.
  intros Ea Ed [F1 F2 F3 F4]. split; [congruence | congruence | |]; intros *; rewrite ?(slot_of_addrs s ip ip') by done; eauto.
Qed.
End run.

(** What writei() needs: a file that has its own blocks, at least those up to its size, an inode that
    is not in one of them, and room in the log: four blocks for each block written, the indirect block
    with its bitmap if there is none, and the inode. *)
Record may_write (B : list Z) (s : kernel) (i : nat) (off n : Z) : Prop := {
  mw_entry : (i < length (itable s))%nat;
  mw_range : 0 <= off <= i_size (inode_at s i) ∧ 0 <= n ∧ off + n <= MAXFILE * BSIZE;
  mw_file : file_ok s (inode_at s i);
  mw_mapped : mapped s (inode_at s i);
  mw_inum : inum_ok s (i_inum (inode_at s i));
  mw_inode : dinode_ok (dinode_of_inode (inode_at s i));
  mw_place : foreign s (inode_at s i) (IBLOCK (i_inum (inode_at s i)) (sb s));
  mw_log : Z.of_nat (length B + ind_cost (inode_at s i)) + 4 * blocks_left off n + 2 <= LOGBLOCKS;
}.

(** [s'] is [s] after writei() stored [l] at [off] and wrote the inode, in a transaction. *)
Record written (p : nat) (pid : Z) (i : nat) (off : Z) (l : list Z) (s s' : kernel) : Prop := {
  wt_tx : ∃ B', tx p pid B' [] s' ∧ (length B' < NBUF)%nat;
  wt_disk : disk_ok s';
  wt_file : file_ok s' (inode_at s' i);
  wt_size : i_size (inode_at s' i) = Z.max (i_size (inode_at s i)) (off + Z.of_nat (length l));
  wt_inode : dinode_of s' (i_inum (inode_at s i)) = dinode_of_inode (inode_at s' i);
  wt_there : ∀ x, off <= x < off + Z.of_nat (length l) → addr_of s' (inode_at s' i) (x / BSIZE) ≠ 0;
  wt_in : ∀ k c, l !! k = Some c → file_byte s' (inode_at s' i) (off + Z.of_nat k) = c;
  wt_out : ∀ x, 0 <= x < MAXFILE * BSIZE → addr_of s (inode_at s i) (x / BSIZE) ≠ 0 →
    ¬ off <= x < off + Z.of_nat (length l) → file_byte s' (inode_at s' i) x = file_byte s (inode_at s i) x;
  wt_slot : ∀ q, place q → slot_of s (inode_at s i) q ≠ 0 → slot_of s' (inode_at s' i) q = slot_of s (inode_at s i) q;
  wt_new : ∀ q, place q → slot_of s (inode_at s i) q = 0 → slot_of s' (inode_at s' i) q ≠ 0 →
    block_free s (slot_of s' (inode_at s' i) q) = true;
  wt_foreign : ∀ b, foreign s (inode_at s i) b → b ≠ IBLOCK (i_inum (inode_at s i)) (sb s) → content s' b = content s b;
}.

(** The new size. *)
Definition resized (i : nat) (size : Z) (t : kernel) : kernel :=
  if i_size (inode_at t i) <? size then upd_inode i (set_i_size size) t else t.
Section resized.
Variables (p : nat) (pid : Z) (i : nat) (size : Z) (t : kernel).
Notation t1 := (resized i size t).
Context (Hi : (i < length (itable t))%nat).
Lemma resized_inode : inode_at t1 i = grown (inode_at t i) size.
Proof. unfold resized, grown. destruct (_ <? _); [|done]. by rewrite inode_at_upd, decide_True. Qed.
Lemma resized_content b : content t1 b = content t b.
Proof. unfold resized. by destruct (_ <? _). Qed.
Lemma resized_sb : sb t1 = sb t.
Proof. unfold resized. by destruct (_ <? _). Qed.
Lemma resized_free b : block_free t1 b = block_free t b.
Proof. apply same_free; [apply resized_sb | apply resized_content]. Qed.
Lemma resized_used b : in_use t1 b ↔ in_use t b.
Proof. unfold in_use, data_block. by rewrite resized_sb, resized_free. Qed.
Lemma resized_slot q : slot_of t1 (inode_at t1 i) q = slot_of t (inode_at t i) q.
Proof.
  rewrite resized_inode. destruct (grown_fields (inode_at t i) size) as (G1 & _).
  rewrite (slot_of_addrs t1 (inode_at t i)) by done. destruct q; [apply addr_of_eq, resized_content | done].
Qed.
Lemma resized_tx B : tx p pid B [] t → tx p pid B [] t1.
Proof. intros Ht. unfold resized. destruct (_ <? _); [by apply tx_itable | done]. Qed.
Lemma resized_disk : disk_ok t → disk_ok t1.
Proof. apply same_disk; [apply resized_sb | apply resized_content]. Qed.
Lemma resized_print : printable t → printable t1.
Proof. intros []. unfold resized. by destruct (_ <? _). Qed.
Lemma resized_file : file_ok t (inode_at t i) → file_ok t1 (inode_at t1 i).
Proof.
  intros [F1 F2 F3 F4]. destruct (grown_fields (inode_at t i) size) as (G1 & G2 & _). rewrite <- resized_inode in G1, G2.
  split; [by rewrite G2 | by rewrite G1 | |].
  - intros q Hq. rewrite resized_slot, resized_used. by apply F3.
  - intros q q' Hq Hq'. rewrite !resized_slot. by apply F4.
Qed.
End resized.

Lemma grown_dinode_ok t ip ipt A size :
  disk_ok t → file_ok t ipt → ipt = set_i_addrs A ip → 0 <= size < 2 ^ 32 → dinode_ok (dinode_of_inode ip) →
  dinode_ok (dinode_of_inode (grown ipt size)).
Proof.
  intros Hdk Hf EA Hs [O1 O2 O3 O4 O5 _]. destruct (file_dinode_ok t ipt Hdk Hf) as [L1 L2]. rewrite EA in L1, L2 |- *.
  unfold grown. destruct (_ <? _); split; done.
Qed.

(** The end of writei(): the inode is written to the disk. *)
Section finish.
Variables (p : nat) (pid : Z) (B : list Z) (s t : kernel) (i : nat) (off : Z) (l : list Z).
Notation ip := (inode_at s i).
Notation ib := (IBLOCK (i_inum ip) (sb s)).
Notation size := (off + Z.of_nat (length l)).
Notation t1 := (resized i size t).
Context (Hw : wrote i off l s t) (Ht : tx p pid B [] t) (HB : (length B + 1 < NBUF)%nat) (Hi : (i < length (itable s))%nat).
Context (Ho : 0 <= off) (Hmax : size <= MAXFILE * BSIZE) (Hin : inum_ok s (i_inum ip)).
Context (Hdi : dinode_ok (dinode_of_inode ip)) (Hib : foreign s ip ib).

Lemma finish_entry : (i < length (itable t))%nat.
Proof. by rewrite (ev_len _ _ _ (wo_ev _ _ _ _ _ Hw)). Qed.
Lemma finish_inum : i_inum (inode_at t1 i) = i_inum ip ∧ sb t1 = sb s.
Proof.
  pose proof (wo_ev _ _ _ _ _ Hw) as He. rewrite resized_inode by apply finish_entry. rewrite resized_sb, (ev_sb _ _ _ He).
  destruct (grown_fields (inode_at t i) size) as (_ & _ & -> & _). destruct (ev_inode _ _ _ He) as [A ->]. done.
Qed.
Lemma finish_place q : place q → slot_of t1 (inode_at t1 i) q ≠ ib.
Proof.
  intros Hq. rewrite resized_slot by apply finish_entry.
  by apply (foreign_evolves i s t ib (wo_ev _ _ _ _ _ Hw) Hib).
Qed.
Lemma finish_run : ∃ s', iupdate i t1 = Ok tt s' ∧ tx p pid (logged ib B) [] s' ∧ inode_at s' i = inode_at t1 i ∧
    dinode_of s' (i_inum ip) = dinode_of_inode (inode_at s' i) ∧ disk_ok s' ∧ file_ok s' (inode_at s' i) ∧
    (∀ q, place q → slot_of s' (inode_at s' i) q = slot_of t (inode_at t i) q) ∧
    (∀ b, b ≠ ib → content s' b = content t b) ∧ (disk_full t → disk_full s').
Proof.
  pose proof (wo_ev _ _ _ _ _ Hw) as He. destruct finish_inum as [Hn Hsb]. pose proof finish_entry as Ht1.
  destruct (iupdate_file p pid B t1 i) as (s' & E & Ht' & Hit & Hd & Hdk & Hf & Hslot & Hct & Hfree & F).
  - by apply resized_tx.
  - apply resized_disk, He.
  - apply resized_print, He.
  - apply resized_file; [done | apply He].
  - rewrite Hn, Hsb. split; [|apply finish_place]. apply resized_used. by apply (ev_used _ _ _ He), Hib.
  - rewrite Hn. unfold inum_ok. by rewrite Hsb.
  - rewrite resized_inode by done. destruct (ev_inode _ _ _ He) as [A EA]. assert (MAXFILE * BSIZE < 2 ^ 32) by done.
    apply (grown_dinode_ok t ip _ A); [apply He | apply He | done | lia | done].
  - lia.
  - rewrite Hn, Hsb in *. assert (Hi' : inode_at s' i = inode_at t1 i) by (unfold inode_at; by rewrite Hit).
    exists s'. rewrite Hi'. split_and!; try done.
    + intros q Hq. by rewrite Hslot, resized_slot.
    + intros b Hb. by rewrite Hct, resized_content.
    + intros Hfull b Hb. destruct (tx_frame_fields _ _ F) as (Hsb' & _). rewrite Hsb', Hsb in Hb.
      rewrite Hfree, resized_free by done. apply Hfull. by rewrite (ev_sb _ _ _ He).
Qed.
Lemma finish_written : ∃ s', iupdate i t1 = Ok tt s' ∧ written p pid i off l s s' ∧ (disk_full t → disk_full s').
Proof.
  pose proof (wo_ev _ _ _ _ _ Hw) as He. destruct finish_run as (s' & E & Ht' & Hi' & Hd & Hdk & Hf & Hsl & Hct & Hfull).
  exists s'. split; [done|]. split; [|done].
  assert (Hby : ∀ x, 0 <= x < MAXFILE * BSIZE → file_byte s' (inode_at s' i) x = file_byte t (inode_at t i) x).
  { intros x Hx. apply block_index in Hx. unfold file_byte. pose proof (Hsl (Some _) Hx) as Es. cbn [slot_of] in Es.
    rewrite Es, Hct; [done|]. pose proof (finish_place (Some _) Hx) as Hp. rewrite resized_slot in Hp by apply finish_entry. done. }
  split; try done.
  - exists (logged ib B). split; [done|]. pose proof (length_logged ib B). lia.
  - rewrite Hi', resized_inode by apply finish_entry. destruct (grown_fields (inode_at t i) size) as (_ & _ & _ & ->).
    destruct (ev_inode _ _ _ He) as [A ->]. done.
  - intros x Hx. pose proof (Hsl (Some (x / BSIZE)) ltac:(apply block_index; lia)) as Es. cbn [slot_of] in Es. rewrite Es.
    by apply (wo_there _ _ _ _ _ Hw).
  - intros k c Hk. pose proof (lookup_lt_Some _ _ _ Hk). rewrite Hby by lia. by apply (wo_in _ _ _ _ _ Hw).
  - intros x Hx Ha Hout. rewrite Hby by done. by apply (wo_out _ _ _ _ _ Hw).
  - intros q Hq Hn. rewrite Hsl by done. by apply (ev_slot _ _ _ He).
  - intros q Hq Hn. rewrite Hsl by done. by apply (ev_new _ _ _ He).
  - intros b Hb Hne. rewrite Hct by done. by apply (ev_foreign _ _ _ He).
Qed.
End finish.

Lemma writei_ok p pid B s i off src :
  let n := Z.of_nat (length src) in
  tx p pid B [] s → disk_ok s → printable s → may_write B s i off n → Forall byte src →
  ∃ m s', writei i (FromLocal src) off n s = Ok m s' ∧ 0 <= m <= n ∧ (m < n → disk_full s') ∧
    written p pid i off (take (Z.to_nat m) src) s s'.
Proof.
  intros n Ht Hdk Hp [W1 (W2 & W2' & W3) W4 W5 W6 W7 W8 W9] Hsrc. unfold writei. kstep.
  assert (MAXFILE * BSIZE < 2 ^ 32) by done.
  rewrite u32_small, (proj2 (Z.ltb_ge (i_size _) off)), (proj2 (Z.ltb_ge (off + n) off)), (proj2 (Z.ltb_ge (MAXFILE * BSIZE) (off + n))) by lia.
  cbn [orb].
  destruct (writei_loop_ok p pid (rounds n) B s i off n 0 src) as (t & B1 & m & E & Hm & Hfull & Ht1 & HB1 & Hw);
    try done; try lia.
  { by apply rounds_enough. }
  rewrite (bind_Ok _ _ _ _ _ E), Z.add_0_l. cbn [fst snd]. kstep. fold n in Hm, Hfull, HB1.
  set (l := take (Z.to_nat m) src) in *. assert (Hl : Z.of_nat (length l) = m) by (unfold l; rewrite length_take_le; lia).
  assert (Er : when (i_size (inode_at t i) <? off + m) (modify (upd_inode i (set_i_size (off + m)))) t
               = Ok tt (resized i (off + Z.of_nat (length l)) t))
    by (rewrite Hl; unfold resized; by destruct (_ <? _)).
  rewrite (bind_Ok _ _ _ _ _ Er).
  destruct (finish_written p pid B1 s t i off l) as (s' & E' & Hs' & Hd'); try done; try lia.
  { unfold LOGBLOCKS, MAXOPBLOCKS, NBUF in *. lia. }
  rewrite (bind_Ok _ _ _ _ _ E'). exists m, s'. split_and!; try done; try lia. auto.
Qed.

(** The bytes stored are the ones that reading finds. *)
Lemma written_bytes p pid i off l s s' :
  written p pid i off l s s' → file_bytes s' (inode_at s' i) off (Z.of_nat (length l)) = l.
Proof.
  intros Hw. apply list_eq. intros k. unfold file_bytes. rewrite list_lookup_fmap.
  destruct (l !! k) as [c|] eqn:E.
  - pose proof (lookup_lt_Some _ _ _ E). rewrite (proj2 (lookup_seqZ _ _ k (off + Z.of_nat k))) by lia.
    cbn [fmap option_fmap option_map]. f_equal. by apply (wt_in _ _ _ _ _ _ _ Hw).
  - apply lookup_ge_None in E. by rewrite lookup_seqZ_ge by lia.
Qed.
Lemma written_mapped p pid i off l s s' :
  written p pid i off l s s' → mapped s (inode_at s i) → 0 <= off <= i_size (inode_at s i) →
  off + Z.of_nat (length l) <= MAXFILE * BSIZE → mapped s' (inode_at s' i).
Proof.
  intros Hw [M1 M2 M3] Ho Hmax. pose proof (wt_size _ _ _ _ _ _ _ Hw) as Hs.
  split; [apply (fo_dev _ _ (wt_file _ _ _ _ _ _ _ Hw)) | lia |]. intros bn H0 H1. rewrite Hs in H1.
  assert (Hbn : 0 <= bn < MAXFILE) by (unfold BSIZE in *; lia).
  destruct (decide (bn * BSIZE < i_size (inode_at s i))) as [Hb|Hb].
  - specialize (M3 bn H0 Hb). pose proof (wt_slot _ _ _ _ _ _ _ Hw (Some bn) Hbn M3) as E. cbn [slot_of] in E. by rewrite E.
  - pose proof (wt_there _ _ _ _ _ _ _ Hw (bn * BSIZE) ltac:(lia)) as Ht. by rewrite Z.div_mul in Ht.
Qed.

(** C15: what writei() writes, readi() reads, also when the file grows. Given an array of the
    kernel and an offset in the file or at its end, writei() stores the bytes in the blocks of the
    file; a block that the file does not have, the indirect block included, it takes from the free
    ones and enters in the inode or in the indirect block. It stops early only when no block of the
    disk is free, and returns the number [m] of bytes stored. The file is as long as that requires,
    its inode on the disk has the new size and addresses, and its blocks are still its own. readi()
    of the range then returns exactly the first [m] bytes; every other byte that the file had
    is as before; the file keeps its old blocks, and its new ones were free; and no other block in
    use changes but the one of the inode. *)
Theorem writei_readi p pid B s i off src :
  let n := Z.of_nat (length src) in let ip := inode_at s i in
  tx p pid B [] s → disk_ok s → printable s → may_write B s i off n → Forall byte src →
  ∃ m s', writei i (FromLocal src) off n s = Ok m s' ∧ 0 <= m <= n ∧ (m < n → disk_full s') ∧
    let ip' := inode_at s' i in
    i_size ip' = Z.max (i_size ip) (off + m) ∧ dinode_of s' (i_inum ip) = dinode_of_inode ip' ∧
    disk_ok s' ∧ file_ok s' ip' ∧ mapped s' ip' ∧
    (∃ s2, readi i Local off m s' = Ok (m, take (Z.to_nat m) src) s2) ∧
    (∀ x, 0 <= x < i_size ip → ¬ off <= x < off + m → file_byte s' ip' x = file_byte s ip x) ∧
    (∀ q, place q → slot_of s ip q ≠ 0 → slot_of s' ip' q = slot_of s ip q) ∧
    (∀ q, place q → slot_of s ip q = 0 → slot_of s' ip' q ≠ 0 → block_free s (slot_of s' ip' q) = true) ∧
    ∀ b, foreign s ip b → b ≠ IBLOCK (i_inum ip) (sb s) → content s' b = content s b.
Proof.
  intros n ip Ht Hdk Hp Hm Hsrc. destruct (writei_ok p pid B s i off src Ht Hdk Hp Hm Hsrc) as (m & s' & E & Hmn & Hfull & Hw).
  destruct Hm as [_ (W1 & W2 & W3) _ W4 _ _ _ _]. fold n in E, Hmn, Hfull, W3.
  set (l := take (Z.to_nat m) src) in *. assert (Hl : Z.of_nat (length l) = m) by (unfold l; rewrite length_take_le; lia).
  pose proof (written_mapped _ _ _ _ _ _ _ Hw W4 W1 ltac:(lia)) as Hmap. pose proof (written_bytes _ _ _ _ _ _ _ Hw) as Hby.
  destruct Hw as [(B' & Ht' & HB') D F S I _ _ O K N G]. rewrite Hl in *. assert (MAXFILE * BSIZE < 2 ^ 32) by done.
  exists m, s'. split; [done|]. split; [done|]. split; [done|]. intros ip'.
  split; [done|]. split; [done|]. split; [done|]. split; [done|]. split; [done|]. split; [|split; [|done]].
  - destruct (readi_ok p pid B' HB' s' i off m (tx_cache _ _ _ _ _ Ht') Hmap (dk_data _ D)) as (s2 & E2 & _); [lia..|].
    assert (Hc : read_count (inode_at s' i) off m = m).
    { unfold read_count. rewrite S, (proj2 (Z.ltb_ge _ _)), (proj2 (Z.leb_gt _ _)) by lia. simpl. lia. }
    rewrite Hc, Hby in E2. by exists s2.
  - intros x Hx Hout. pose proof (mp_size _ _ W4) as Hsz. fold ip in Hsz. apply O; [lia | | done]. apply (mp_addr _ _ W4).
    + apply Z.div_pos; [lia | done].
    + assert (Hq := Z.div_mod x BSIZE ltac:(done)). assert (Hmod := Z.mod_pos_bound x BSIZE ltac:(done)). fold ip. lia.
Qed.

(** ** A file of 1020 bytes in block 47 *)

Definition demo_file : kernel :=
  set_itable (Inode ROOTDEV 1 1 true T_FILE 0 0 1 1020 (47 :: replicate NDIRECT 0) :: replicate 49 null_inode) demo_tx.
Lemma demo_file_slot q : place q → slot_of demo_file (inode_at demo_file 0) q = if decide (q = Some 0) then 47 else 0.
Proof.
  intros Hq. assert (Ha : ∀ k, addr_at (inode_at demo_file 0) k = match k with O => 47 | S _ => 0 end).
  { intros [|k]; [done|]. change (addr_at (inode_at demo_file 0) (S k)) with (default 0 (replicate NDIRECT 0 !! k)).
    destruct (replicate NDIRECT 0 !! k) as [x|] eqn:E; [by apply lookup_replicate in E as [-> _] | done]. }
  destruct q as [bn|]; [|done]. cbn [slot_of]. unfold addr_of. rewrite !Ha. cbn [place] in Hq.
  destruct (Z.ltb_spec bn (Z.of_nat NDIRECT)).
  - destruct (decide (Some bn = Some 0)) as [[= ->]|Hn]; [done|]. destruct (Z.to_nat bn) eqn:E; [|done].
    assert (bn ≠ 0) by congruence. lia.
  - change (match NDIRECT with O => 47 | S _ => 0 end) with 0. rewrite Z.eqb_refl, decide_False; [done|].
    intros [= ->]. done.
Qed.
Lemma demo_file_used b : 45 < b < 48 ∨ b = 33 → in_use demo_file b.
Proof.
  intros Hb. assert (b = 46 ∨ b = 47 ∨ b = 33) as Hb' by lia. split; [split|].
  - change (sb_size (sb demo_file)) with 2000. lia.
  - intros b' Hx. change (sb demo_file) with demo_sb in *. change (sb_size demo_sb) with 2000 in Hx. unfold BBLOCK.
    rewrite (Z.div_small b') by (unfold BPB, BSIZE; lia). change (u32 (0 + sb_bmapstart demo_sb)) with 45. lia.
  - change (block_free demo_tx b = false). destruct Hb' as [->|[->| ->]]; by vm_compute.
Qed.
Lemma demo_may_write : may_write [] demo_file 0 1020 8.
Proof.
  pose proof demo_file_slot as Hs. assert (Hz : i_size (inode_at demo_file 0) = 1020) by done. split.
  - by vm_compute; lia.
  - rewrite Hz. vm_compute. split_and!; congruence.
  - split; [done | done | |].
    + intros q Hq. rewrite Hs by done. destruct (decide (q = Some 0)); [|done]. intros _. apply demo_file_used. lia.
    + intros q q' Hq Hq'. rewrite !Hs by done. destruct (decide (q = Some 0)), (decide (q' = Some 0)); congruence.
  - split; [done | by vm_compute |]. intros bn H0 H1. rewrite Hz in H1. assert (bn = 0) as -> by (unfold BSIZE in H1; lia). by vm_compute.
  - split_and!; by vm_compute.
  - split; simpl; try (unfold T_FILE; lia). split; [done|]. repeat constructor; lia.
  - change (IBLOCK (i_inum (inode_at demo_file 0)) (sb demo_file)) with 33. split; [apply demo_file_used; lia|].
    intros q Hq. rewrite Hs by done. by destruct (decide _).
  - by vm_compute.
Qed.

(** Four bytes go into block 47, and four into a block that is allocated for them. *)
Lemma writei_readi_witness :
  ∃ s' s2, writei 0 (FromLocal [1; 2; 3; 4; 5; 6; 7; 8]) 1020 8 demo_file = Ok 8 s' ∧
    slot_of s' (inode_at s' 0) (Some 1) = 48 ∧
    readi 0 Local 1020 8 s' = Ok (8, [1; 2; 3; 4; 5; 6; 7; 8]) s2.
Proof.
  destruct (writei_readi 0 1 [] demo_file 0 1020 [1; 2; 3; 4; 5; 6; 7; 8]) as (m & s' & E & _ & _ & _ & _ & _ & _ & _ & (s2 & E2) & _).
  - apply tx_itable, demo_is_tx.
  - apply (same_disk demo_tx); [reflexivity | intros b; reflexivity | apply demo_disk_ok].
  - split; [split; simpl; lia | done | done].
  - apply demo_may_write.
  - repeat constructor; lia.
  - assert (Hr : match writei 0 (FromLocal [1; 2; 3; 4; 5; 6; 7; 8]) 1020 8 demo_file with
                 | Ok r x => (r =? 8) && (slot_of x (inode_at x 0) (Some 1) =? 48) | _ => false end = true)
      by (vm_compute; reflexivity).
    change (Z.of_nat (length [1; 2; 3; 4; 5; 6; 7; 8])) with 8 in E. rewrite E in Hr.
    apply andb_true_iff in Hr as [Hm Hs]. apply Z.eqb_eq in Hm, Hs. subst m. exists s', s2. auto.
Defined.
