(* ===== verification/Path.v ===== *)
(** Path names: skipelem() of kernel/fs.c splits a path into its elements. *)
From S2P Require Import Prelude Pstat Kernel Spinlock Sched Cstring Riscv Kalloc Vm ProcMem Sleeplock Uart Bio Log Fs.

(** The elements of a path: the nonempty runs of characters between slashes. *)
Fixpoint split_path (path cur : list Z) : list (list Z) :=
  match path with
  | [] => [cur]
  | c :: p => if c =? 47 then cur :: split_path p [] else split_path p (cur ++ [c])
  end.
Definition elements (path : list Z) : list (list Z) := filter (λ e, e ≠ []) (split_path path []).

(** The string in a [char name[DIRSIZ]], which a NUL ends only if it is shorter. *)
Fixpoint string_of (name : list Z) : list Z :=
  match name with [] => [] | c :: l => if c =? 0 then [] else c :: string_of l end.

Lemma elements_slash path : elements (47 :: path) = elements path.
Proof. reflexivity. Qed.
Lemma skip_slashes_ok path :
  elements (skip_slashes path) = elements path ∧ (length (skip_slashes path) <= length path)%nat
  ∧ head (skip_slashes path) ≠ Some 47.
Proof.
  induction path as [|c p IH]; [done|]. cbn [skip_slashes]. destruct (c =? 47) eqn:E.
  - apply Z.eqb_eq in E as ->. destruct IH as (I1 & I2 & I3). rewrite elements_slash. split_and!; [done | simpl; lia | done].
  - apply Z.eqb_neq in E. split_and!; [done | done |]. simpl. congruence.
Qed.

Lemma split_path_element p cur :
  split_path p cur = match element p with
                     | (s, []) => [cur ++ s]
                     | (s, _ :: r) => (cur ++ s) :: split_path r []
                     end.
Proof.
  revert cur. induction p as [|c p IH]; intros cur; cbn [split_path element]; [by rewrite app_nil_r|].
  destruct (c =? 47); [by rewrite app_nil_r|]. rewrite IH. destruct (element p) as [s [|x r]]; simpl; by rewrite <- app_assoc.
Qed.

Lemma element_ok p :
  let (s, r) := element p in
  p = s ++ r ∧ (r = [] ∨ head r = Some 47) ∧ 47 ∉ s ∧ (head p ≠ Some 47 → p ≠ [] → s ≠ []).
Proof.
  induction p as [|c p IH]; cbn [element].
  - split_and!; [done | by left | apply not_elem_of_nil | done].
  - destruct (c =? 47) eqn:E; [apply Z.eqb_eq in E as -> | apply Z.eqb_neq in E].
    + split_and!; [done | by right | apply not_elem_of_nil | done].
    + destruct (element p) as [s r]. cbn [fst snd]. destruct IH as (I1 & I2 & I3 & _). split_and!; [by rewrite I1 | done | | done].
      apply not_elem_of_cons. split; [congruence | done].
Qed.

Lemma elements_element p :
  p ≠ [] → head p ≠ Some 47 →
  elements p = (element p).1 :: elements (element p).2.
Proof.
  intros Hp Hh. pose proof (element_ok p) as He. unfold elements at 1. rewrite split_path_element.
  destruct (element p) as [s r]. destruct He as (_ & Hr & _ & Hs). cbn [fst snd].
  assert (s ≠ []) by auto. destruct r as [|x r]; simpl.
  - by rewrite filter_cons_True.
  - destruct Hr as [|[= ->]]; [done|]. by rewrite filter_cons_True, elements_slash by done.
Qed.

Lemma string_of_app s l : 0 ∉ s → string_of (s ++ 0 :: l) = s.
Proof.
  induction s as [|c s IH]; [done|]. intros [Hc Hs]%not_elem_of_cons. cbn [app string_of].
  destruct (c =? 0) eqn:E; [apply Z.eqb_eq in E; congruence|]. by rewrite IH.
Qed.
Lemma string_of_id s : 0 ∉ s → string_of s = s.
Proof.
  induction s as [|c s IH]; [done|]. intros [Hc Hs]%not_elem_of_cons. cbn [string_of].
  destruct (c =? 0) eqn:E; [apply Z.eqb_eq in E; congruence|]. by rewrite IH.
Qed.

Lemma skip_slashes_no0 p : 0 ∉ p → 0 ∉ skip_slashes p.
Proof.
  induction p as [|c p IH]; [done|]. intros H. cbn [skip_slashes]. destruct (c =? 47); [|done].
  apply IH. intros ?. apply H. by right.
Qed.

(** Skipelem() takes a path apart. It returns null exactly when the path has no
    element left; otherwise [name] holds the first element, cut off at DIRSIZ
    characters and NUL-terminated if shorter, and the returned path has the remaining
    elements, has no leading slash and is strictly shorter than the path given, so the
    loop of namex() ends. *)
Theorem skipelem_correct path name :
  0 ∉ path → length name = DIRSIZ →
  match skipelem path name with
  | None => elements path = []
  | Some (rest, name') =>
      ∃ e, elements path = e :: elements rest ∧ length name' = DIRSIZ ∧ string_of name' = take DIRSIZ e
        ∧ head rest ≠ Some 47 ∧ (length rest < length path)%nat ∧ 0 ∉ rest
  end.
Proof.
  intros H0 Hn. unfold skipelem. destruct (skip_slashes_ok path) as (S1 & S2 & S3).
  pose proof (skip_slashes_no0 _ H0) as H0'.
  destruct (skip_slashes path) as [|c0 p0]; [by rewrite <- S1|]. set (p := c0 :: p0) in *.
  assert (Hpn : p ≠ []) by done. clearbody p. clear c0 p0.
  pose proof (elements_element p Hpn S3) as Ee. pose proof (element_ok p) as He.
  destruct (element p) as [s r]. destruct He as (Eq & _ & _ & Hs). cbn [fst snd] in Ee. specialize (Hs S3 Hpn).
  destruct (skip_slashes_ok r) as (R1 & R2 & R3). exists s. rewrite R1, <- S1, Ee.
  assert (H0s : 0 ∉ s ∧ 0 ∉ r) by (rewrite Eq, elem_of_app in H0'; tauto). destruct H0s as [H0s H0r].
  assert (Hlen : (length p = length s + length r)%nat) by (by rewrite Eq, length_app).
  assert (0 < length s)%nat by (destruct s; [done | simpl; lia]).
  split; [done|].
  lazymatch goal with |- ?A ∧ ?B ∧ _ =>
    enough (A ∧ B) as [HA HB]; [split_and!; [exact HA | exact HB | done | lia | by apply skip_slashes_no0]|] end.
  unfold put_at. rewrite take_0, app_nil_l. destruct (DIRSIZ <=? length s)%nat eqn:E.
  - apply Nat.leb_le in E. rewrite drop_ge by (rewrite length_take; lia). rewrite app_nil_r, length_take.
    split; [lia|]. apply string_of_id. intros Hin%elem_of_take. destruct Hin as (k & Hk & _).
    by apply H0s, (list_elem_of_lookup_2 _ k).
  - apply Nat.leb_gt in E. rewrite !length_app, length_drop, Hn. simpl. split; [lia|].
    rewrite <- app_assoc. cbn [app]. rewrite string_of_app by done. by rewrite take_ge by lia.
Qed.

Lemma skipelem_correct_witness :
  ∃ e, elements [47; 97; 47; 98; 99] = e :: elements [98; 99] ∧ e = [97].
Proof.
  pose proof (skipelem_correct [47; 97; 47; 98; 99] (replicate DIRSIZ 7)) as H. destruct H as (e & He & Hn & Hs & _).
  - by apply (bool_decide_unpack _).
  - done.
  - exists e. split; [exact He|]. vm_compute in He. by injection He.
Defined.
