(* ===== verification/Namei.v ===== *)
(** Path names resolved on the disk: namei() of kernel/fs.c walks the tree of directories as the
    entries of their blocks define it, and keeps exactly one reference to the inode it returns. *)
From S2P Require Import Prelude Pstat Kernel Spinlock Sched Cstring Riscv Kalloc Vm ProcMem Sleeplock Uart Bio Cache Log Crash Fs Tx FsBlock FsInode FsFile Path.

(** ** The tree on the disk *)

(** Inode [n] as the disk has it. *)
Definition node (s : kernel) (n : Z) : inode :=
  from_dinode (dinode_of s n) (Inode ROOTDEV n 1 true 0 0 0 0 0 []).
(** The inode that a list of names leads to from inode [n]. *)
Fixpoint resolve (s : kernel) (n : Z) (names : list (list Z)) : option Z :=
  match names with
  | [] => Some n
  | e :: names =>
      if d_type (dinode_of s n) =? T_DIR then
        match lookup_dir s (node s n) e with
        | Some k => resolve s (de_inum (dir_entry s (node s n) k)) names
        | None => None
        end
      else None
  end.
(** The inodes [T] are in use and linked, and the entries of their directories lead to inodes of [T]. *)
Record tree (s : kernel) (T : Z → Prop) : Prop := {
  tr_type : ∀ n, T n → d_type (dinode_of s n) ≠ 0;
  tr_nlink : ∀ n, T n → d_nlink (dinode_of s n) ≠ 0;
  tr_dir : ∀ n, T n → d_type (dinode_of s n) = T_DIR → mapped s (node s n) ∧ d_size (dinode_of s n) mod DIRENT = 0;
  tr_closed : ∀ n k, T n → d_type (dinode_of s n) = T_DIR → (k < entries (d_size (dinode_of s n)))%nat →
    de_inum (dir_entry s (node s n) k) ≠ 0 → T (de_inum (dir_entry s (node s n) k));
}.

(** An inode of the table that holds what the disk holds has the same blocks. *)
Definition on_disk (s : kernel) (ip : inode) : Prop := dinode_of_inode ip = dinode_of s (i_inum ip).
Lemma addr_of_fields s ip ip' bn : i_addrs ip = i_addrs ip' → addr_of s ip bn = addr_of s ip' bn.
Proof. intros E. unfold addr_of, addr_at. by rewrite E. Qed.
Lemma file_bytes_fields s ip ip' off n : i_addrs ip = i_addrs ip' → file_bytes s ip off n = file_bytes s ip' off n.
Proof.
  intros E. unfold file_bytes. apply list_fmap_ext. intros k x _. unfold file_byte. by rewrite (addr_of_fields s ip ip').
Qed.
Lemma on_disk_fields s ip : on_disk s ip →
  i_type ip = d_type (dinode_of s (i_inum ip)) ∧ i_size ip = i_size (node s (i_inum ip)) ∧
  i_addrs ip = i_addrs (node s (i_inum ip)) ∧ i_nlink ip = d_nlink (dinode_of s (i_inum ip)).
Proof. unfold on_disk. intros H. unfold node, from_dinode. cbn [i_size i_addrs]. by rewrite <- H. Qed.
Lemma on_disk_lookup s ip name : on_disk s ip →
  lookup_dir s ip name = lookup_dir s (node s (i_inum ip)) name ∧
  ∀ k, dir_entry s ip k = dir_entry s (node s (i_inum ip)) k.
Proof.
  intros (_ & Es & Ea & _)%on_disk_fields.
  assert (He : ∀ k, dir_entry s ip k = dir_entry s (node s (i_inum ip)) k) by (intros k; by apply file_bytes_fields).
  split; [|done]. unfold lookup_dir. rewrite Es. generalize (seq 0 (entries (i_size (node s (i_inum ip))))). intros l.
  induction l as [|k l IH]; cbn [List.find]; [reflexivity|]. unfold entry_named at 1 3. rewrite He, IH. reflexivity.
Qed.
Lemma on_disk_mapped s ip : on_disk s ip → i_dev ip = ROOTDEV → mapped s (node s (i_inum ip)) → mapped s ip.
Proof.
  intros (_ & Es & Ea & _)%on_disk_fields Hd [M1 M2 M3]. split; [done | by rewrite Es |].
  intros bn. rewrite Es, (addr_of_fields s ip _ bn Ea). apply M3.
Qed.

(** ** Names *)

Lemma cname_string n l : (length l <= n)%nat → cname n l = string_of l.
Proof.
  revert n. induction l as [|c l IH]; intros [|n] Hl; simpl in *; try lia; try done. by rewrite IH by lia.
Qed.
Lemma cname_take n e : 0 ∉ e → cname n e = take n e.
Proof.
  revert n. induction e as [|c e IH]; intros [|n] H; try done. apply not_elem_of_cons in H as [Hc He]. cbn [cname take].
  rewrite (proj2 (Z.eqb_neq c 0)) by done. by rewrite IH.
Qed.
Lemma lookup_dir_name s ip a b : cname DIRSIZ a = cname DIRSIZ b → lookup_dir s ip a = lookup_dir s ip b.
Proof.
  intros E. unfold lookup_dir. generalize (seq 0 (entries (i_size ip))). intros l.
  induction l as [|k l IH]; [done|]. cbn [List.find]. unfold entry_named at 1 3. by rewrite E, IH.
Qed.
Lemma skip_slashes_bytes path : Forall byte path → Forall byte (skip_slashes path).
Proof. induction 1 as [|c l Hc Hl IH]; [constructor|]. cbn [skip_slashes]. destruct (c =? 47); [done | by constructor]. Qed.
Lemma skipelem_bytes path name rest name' :
  Forall byte path → Forall byte name → skipelem path name = Some (rest, name') → Forall byte rest ∧ Forall byte name'.
Proof.
  intros Hp Hn. unfold skipelem. apply skip_slashes_bytes in Hp. destruct (skip_slashes path) as [|c q]; [done|].
  set (l := c :: q) in *. clearbody l. pose proof (element_ok l) as He. destruct (element l) as [e r]. destruct He as (-> & _).
  apply Forall_app in Hp as [He Hr]. assert (byte 0) by (unfold byte; lia). set (nm := if (DIRSIZ <=? length e)%nat then _ else _).
  assert (Hnm : Forall byte nm).
  { unfold nm. destruct (DIRSIZ <=? length e)%nat; unfold put_at; rewrite take_0, app_nil_l; apply Forall_app; split;
      auto using Forall_take, Forall_drop. apply Forall_app. by repeat constructor. }
  clearbody nm. intros [= <- <-]. split; [by apply skip_slashes_bytes | done].
Qed.
Lemma elements_no0 path e : 0 ∉ path → e ∈ elements path → 0 ∉ e.
Proof.
  unfold elements. intros H0 [_ He]%list_elem_of_filter. revert H0 He. assert (Hc : 0 ∉ ([] : list Z)) by apply not_elem_of_nil.
  revert Hc. generalize ([] : list Z). induction path as [|c path IH]; intros cur Hc H0 He; cbn [split_path] in He.
  - by apply list_elem_of_singleton in He as ->.
  - apply not_elem_of_cons in H0 as [Hc0 H0]. destruct (c =? 47).
    + apply elem_of_cons in He as [->|He]; [done|]. apply (IH []); [apply not_elem_of_nil | done..].
    + apply (IH (cur ++ [c])); [|done..]. rewrite elem_of_app, list_elem_of_singleton. naive_solver.
Qed.

(** ** Counting entries of the table *)

Definition free_slots (s : kernel) : nat := length (filter (λ ip, i_ref ip = 0) (itable s)).
Lemma free_not_full s : (0 < free_slots s)%nat → full_table s = false.
Proof.
  intros H. apply not_true_iff_false. intros Hf. unfold full_table in Hf. rewrite forallb_forall in Hf.
  unfold free_slots in H. destruct (filter _ (itable s)) as [|ip l] eqn:E; [simpl in H; lia|].
  assert (Hin : ip ∈ filter (λ ip, i_ref ip = 0) (itable s)) by (rewrite E; by left).
  apply list_elem_of_filter in Hin as [Hz Hin]. apply list_elem_of_In, Hf in Hin. by rewrite Hz in Hin.
Qed.
(** Changing one entry changes the count by what it was and what it is. *)
Lemma free_slots_change s s' i :
  (i < length (itable s))%nat → length (itable s') = length (itable s) → (∀ j, j ≠ i → inode_at s' j = inode_at s j) →
  (free_slots s' + (if decide (i_ref (inode_at s i) = 0%Z) then 1 else 0) =
   free_slots s + (if decide (i_ref (inode_at s' i) = 0%Z) then 1 else 0))%nat.
Proof.
  intros Hi Hl Hj. unfold free_slots, inode_at in *. revert Hi Hl Hj. generalize (itable s) (itable s'). clear s s'.
  induction i as [|i IH]; intros [|x l] [|x' l'] Hi Hl Hj; simpl in *; try lia.
  - assert (l' = l) as ->.
    { apply list_eq. intros k. assert (Hk := Hj (S k) ltac:(lia)). simpl in Hk.
      destruct (decide (k < length l)%nat) as [Hlt|Hge]; [|rewrite !lookup_ge_None_2 by lia; done].
      destruct (lookup_lt_is_Some_2 l k Hlt) as [y Ey], (lookup_lt_is_Some_2 l' k ltac:(lia)) as [y' Ey'].
      rewrite Ey, Ey' in *. simpl in Hk. congruence. }
    rewrite !filter_cons. repeat case_decide; simpl; lia.
  - assert (Hx := Hj 0%nat ltac:(lia)). simpl in Hx. subst x'.
    specialize (IH l l' ltac:(lia) ltac:(lia)). rewrite !filter_cons.
    assert (Hj' : ∀ j, j ≠ i → default null_inode (l' !! j) = default null_inode (l !! j)) by (intros j Hne; apply (Hj (S j)); lia).
    specialize (IH Hj'). destruct (decide (i_ref x = 0)); simpl in *; lia.
Qed.
(** Taking away one reference of entry [i]. *)
Lemma refs_drop s s' i dev inum :
  itable_ok s → (i < NINODE)%nat → live (inode_at s i) dev inum → length (itable s') = length (itable s) →
  (∀ j, j ≠ i → inode_at s' j = inode_at s j) →
  inode_at s' i = set_i_ref (i_ref (inode_at s i) - 1) (inode_at s i) →
  itable_ok s' ∧ refs s' dev inum = refs s dev inum - 1 ∧
  ∀ dev' inum', (dev', inum') ≠ (dev, inum) → refs s' dev' inum' = refs s dev' inum'.
Proof.
  intros Hok Hi Hl Hlen Hj Hs. pose proof Hl as (L1 & L2 & L3).
  assert (Hlv : ∀ j d m, live (inode_at s' j) d m → live (inode_at s j) d m).
  { intros j d m. destruct (decide (j = i)) as [->|Hne]; [|by rewrite Hj]. rewrite Hs. intros (H1 & H2 & H3). simpl in *.
    split_and!; [lia | done | done]. }
  assert (Hok' : itable_ok s').
  { destruct Hok as [O1 O2 O3]. split; [by rewrite Hlen | |].
    - intros j. destruct (decide (j = i)) as [->|]; [rewrite Hs; simpl; lia | rewrite Hj by done; apply O2].
    - intros j k d m Hjn Hkn H1 H2. by apply (O3 j k d m); auto. }
  split; [done|]. split.
  - rewrite (refs_live s i) by done. destruct (decide (i_ref (inode_at s i) = 1)) as [E|E].
    + rewrite E. apply refs_none. intros j Hjn Hlj. assert (j = i) as -> by (by apply (it_uniq _ Hok j i dev inum); auto).
      rewrite Hs in Hlj. destruct Hlj as [H1 _]. simpl in H1. lia.
    + rewrite (refs_live s' i); [by rewrite Hs | done | done|]. rewrite Hs. split_and!; simpl; [lia | done | done].
  - intros d m Hne. unfold refs at 2. pose proof (find_seq (λ j, is_inode d m (inode_at s j)) NINODE) as Hf.
    destruct (List.find _ _) as [j|].
    + destruct Hf as (Hjn & Hf & _). apply is_inode_spec in Hf. assert (j ≠ i) by (intros ->; destruct Hf as (_ & ? & ?); congruence).
      rewrite (refs_live s' j) by (done || by rewrite Hj). by rewrite Hj.
    + apply refs_none. intros j Hjn Hlj. apply Hlv, is_inode_spec in Hlj. by rewrite Hf in Hlj.
Qed.

(** ** The walk *)

Section walk.
Variables (p : nat) (pid : Z) (B : list Z) (s0 : kernel) (T : Z → Prop).
Context (HB : (length B < NBUF)%nat) (Hd : ∀ b, is_block_data (content s0 b)) (HT : tree s0 T).

(** Between two calls of the walk, with the lock of the entry [L] held: the disk is as it was, and the entries
    of the table that are valid hold what it holds. *)
Record calm (L : option nat) (s : kernel) : Prop := {
  cm_cache : cache p pid B [] s;
  cm_content : ∀ b, content s b = content s0 b;
  cm_sb : sb s = sb s0;
  cm_table : itable_ok s;
  cm_locks : ∀ i, slocks s !! SL_inode i = if decide (L = Some i) then Some pid else None;
  cm_valid : ∀ i, (i < NINODE)%nat → 0 < i_ref (inode_at s i) → i_dev (inode_at s i) = ROOTDEV →
    i_valid (inode_at s i) = true → on_disk s0 (inode_at s i);
}.

(** The part of the state that iget() and iput() change. *)
Lemma calm_table L s s' i :
  calm L s → s' = set_itable (itable s') (settle s) → itable_ok s' → (∀ j, j ≠ i → inode_at s' j = inode_at s j) →
  (0 < i_ref (inode_at s' i) → i_dev (inode_at s' i) = ROOTDEV → i_valid (inode_at s' i) = true → on_disk s0 (inode_at s' i)) →
  calm L s'.
Proof.
  intros [C1 C2 C3 C4 C5 C6] E Hok Hj Hv. split; try done.
  - rewrite E. apply cache_itable. by apply cache_settle.
  - intros b. rewrite E. apply C2.
  - by rewrite E.
  - intros j. rewrite E. apply C5.
  - intros j Hjn. destruct (decide (j = i)) as [->|]; [auto | rewrite Hj by done; auto].
Qed.

(** An inode of the tree is not freed when a reference to it goes away. *)
Lemma refs_nonneg s d m : itable_ok s → 0 <= refs s d m.
Proof. intros Hok. unfold refs. destruct (List.find _ _); [apply Hok | lia]. Qed.
Lemma iput_calm s j n :
  calm None s → (j < NINODE)%nat → live (inode_at s j) ROOTDEV n → T n →
  ∃ s', iput j s = Ok tt s' ∧ calm None s' ∧ refs s' ROOTDEV n = refs s ROOTDEV n - 1 ∧
    (∀ d m, (d, m) ≠ (ROOTDEV, n) → refs s' d m = refs s d m) ∧
    (free_slots s' = free_slots s + if decide (i_ref (inode_at s j) = 1%Z) then 1 else 0)%nat ∧
    ∀ i, inode_at s' i = if decide (i = j) then set_i_ref (i_ref (inode_at s j) - 1) (inode_at s j) else inode_at s i.
Proof.
  intros Hc Hj Hl Hn. pose proof (cm_cache _ _ Hc) as Hca. pose proof (ca_env _ _ _ _ _ Hca) as [Hcpu Hlk _ _].
  pose proof Hl as (L1 & L2 & L3). unfold iput. rewrite (bind_Ok _ _ _ _ _ (acquire_ok L_itable s ltac:(by rewrite Hlk))). kstep.
  change (inode_at (lock_state L_itable s) j) with (inode_at s j).
  assert (Ef : (i_ref (inode_at s j) =? 1) && i_valid (inode_at s j) && (i_nlink (inode_at s j) =? 0) = false).
  { destruct (i_valid (inode_at s j)) eqn:Ev; [|by rewrite andb_false_r].
    destruct (on_disk_fields s0 _ (cm_valid _ _ Hc j Hj L1 L2 Ev)) as (_ & _ & _ & En). rewrite En, L3.
    rewrite (proj2 (Z.eqb_neq _ _) (tr_nlink _ _ HT n Hn)). by rewrite andb_false_r. }
  rewrite Ef. cbn iota. kstep. set (f := λ ip : inode, set_i_ref (i_ref ip - 1) ip).
  assert (E : (modify (upd_inode j f) ;; release L_itable) (lock_state L_itable s) = Ok tt (got j f s)).
  { kstep. rewrite (release_ok _ _ (cur s)); [| done | done | by apply lookup_insert_eq].
    f_equal. unfold got, upd_inode. simpl. rewrite delete_insert_id by (by rewrite Hlk). by destruct s. }
  rewrite E. clear E. set (s' := got j f s). exists s'. split; [done|].
  assert (Hlen : length (itable s') = length (itable s)) by (apply (length_upd_inode s j f)).
  assert (Hjl : (j < length (itable s))%nat) by (by rewrite (it_len _ (cm_table _ _ Hc))).
  assert (Hat : ∀ i, inode_at s' i = if decide (i = j) then f (inode_at s j) else inode_at s i)
    by (intros i; exact (inode_at_upd s j f i Hjl)).
  assert (Hne : ∀ i, i ≠ j → inode_at s' i = inode_at s i) by (intros i Hi; by rewrite Hat, decide_False).
  assert (Hatj : inode_at s' j = f (inode_at s j)) by (by rewrite Hat, decide_True).
  destruct (refs_drop s s' j ROOTDEV n (cm_table _ _ Hc) Hj Hl Hlen Hne Hatj) as (R1 & R2 & R3).
  pose proof (free_slots_change s s' j Hjl Hlen Hne) as Hf. rewrite Hatj in Hf. simpl in Hf. split_and!; try done.
  - apply (calm_table None s s' j Hc (got_frame j f s) R1 Hne). rewrite Hatj. intros H1 H2 H3.
    change (on_disk s0 (inode_at s j)). apply (cm_valid _ _ Hc); try done.
  - rewrite decide_False in Hf by lia. destruct (decide (i_ref (inode_at s j) = 1)), (decide (i_ref (inode_at s j) - 1 = 0)); lia.
Qed.

Lemma find_ext (f g : nat → bool) l : (∀ x, f x = g x) → List.find f l = List.find g l.
Proof. intros H. induction l as [|x l IH]; [done|]. cbn [List.find]. by rewrite H, IH. Qed.
(** The table as far as references go. *)
Lemma same_keys s s' :
  length (itable s') = length (itable s) →
  (∀ i, i_ref (inode_at s' i) = i_ref (inode_at s i) ∧ i_dev (inode_at s' i) = i_dev (inode_at s i) ∧ i_inum (inode_at s' i) = i_inum (inode_at s i)) →
  itable_ok s → itable_ok s' ∧ ∀ d m, refs s' d m = refs s d m.
Proof.
  intros Hl Hk [O1 O2 O3]. assert (Hlv : ∀ i d m, live (inode_at s' i) d m ↔ live (inode_at s i) d m)
    by (intros i d m; unfold live; by destruct (Hk i) as (-> & -> & ->)).
  split.
  - split; [by rewrite Hl | intros i; destruct (Hk i) as [-> _]; apply O2 |].
    intros i j d m Hi Hj H1 H2. apply (O3 i j d m); by rewrite <- ?Hlv.
  - intros d m. unfold refs. rewrite (find_ext _ (λ i, is_inode d m (inode_at s i))).
    + destruct (List.find _ _) as [i|]; [apply Hk | done].
    + intros i. unfold is_inode. by destruct (Hk i) as (-> & -> & ->).
Qed.

Lemma ilock_calm s j n :
  calm None s → (j < NINODE)%nat → live (inode_at s j) ROOTDEV n → T n →
  ∃ s', ilock (Some j) s = Ok tt s' ∧ calm (Some j) s' ∧ live (inode_at s' j) ROOTDEV n ∧ on_disk s0 (inode_at s' j) ∧
    (∀ d m, refs s' d m = refs s d m) ∧ free_slots s' = free_slots s ∧ i_ref (inode_at s' j) = i_ref (inode_at s j).
Proof.
  intros Hc Hj Hl Hn. pose proof Hl as (L1 & L2 & L3).
  assert (Hjl : (j < length (itable s))%nat) by (by rewrite (it_len _ (cm_table _ _ Hc))).
  assert (Hdi : dinode_of s n = dinode_of s0 n) by (unfold dinode_of; by rewrite (cm_sb _ _ Hc), (cm_content _ _ Hc)).
  pose proof (ilock_correct p pid B s j (cm_cache _ _ Hc) Hjl ltac:(lia) (cm_locks _ _ Hc j) L2 HB) as H.
  rewrite L3, Hdi, (proj2 (Z.eqb_neq _ _) (tr_type _ _ HT n Hn)), andb_false_r in H.
  destruct H as (s' & E & C1 & C2 & C3 & C4 & C5 & C6 & C7 & C8).
  assert (Hk : ∀ i, i_ref (inode_at s' i) = i_ref (inode_at s i) ∧ i_dev (inode_at s' i) = i_dev (inode_at s i) ∧ i_inum (inode_at s' i) = i_inum (inode_at s i)).
  { intros i. destruct (decide (i = j)) as [->|]; [rewrite C8; by destruct (i_valid (inode_at s j)) | by rewrite C7]. }
  destruct (same_keys s s' C6 Hk (cm_table _ _ Hc)) as [K1 K2].
  assert (Hod : on_disk s0 (inode_at s' j)).
  { unfold on_disk. rewrite C8. destruct (i_valid (inode_at s j)) eqn:Ev; [by apply (cm_valid _ _ Hc)|].
    cbn. rewrite L3. by destruct (dinode_of s0 n). }
  exists s'. split_and!; try done.
  - split; try done.
    + intros b. by rewrite C2, (cm_content _ _ Hc).
    + by rewrite C5, (cm_sb _ _ Hc).
    + intros i. destruct (decide (Some j = Some i)) as [[= <-]|Hne]; [done|]. rewrite C4 by congruence. apply (cm_locks _ _ Hc).
    + intros i Hi. destruct (decide (i = j)) as [->|Hne]; [done|]. rewrite C7 by done. by apply (cm_valid _ _ Hc).
  - unfold live. by destruct (Hk j) as (-> & -> & ->).
  - pose proof (free_slots_change s s' j Hjl C6 C7) as Hf. destruct (Hk j) as (Hr & _). rewrite Hr in Hf. lia.
  - apply Hk.
Qed.

Lemma iunlock_calm s j :
  calm (Some j) s → 1 <= i_ref (inode_at s j) → ∃ s', iunlock (Some j) s = Ok tt s' ∧ calm None s' ∧ itable s' = itable s.
Proof.
  intros Hc Hr. pose proof (cm_cache _ _ Hc) as Hca. pose proof (ca_env _ _ _ _ _ Hca) as He.
  unfold iunlock. rewrite (bind_Ok _ _ _ _ _ (holdingsleep_ok p s _ He)). kstep.
  rewrite (cm_locks _ _ Hc), decide_True, (ca_pid _ _ _ _ _ Hca), bool_decide_true by done. cbn [negb orb].
  change (inode_at (settle s) j) with (inode_at s j). rewrite (proj2 (Z.ltb_ge _ _)) by lia.
  rewrite (releasesleep_ok p (settle s) _ (env_settle _ _ He)). eexists. split; [reflexivity|]. split; [|done].
  destruct Hc as [_ C2 C3 C4 C5 C6]. split; try done.
  - apply cache_settle in Hca. apply cache_settle in Hca. destruct Hca as [[E1 E2 E3 E4] P L1 L2 D U R V N ND H Lk Cl].
    split; try done.
    + split; try done. simpl. by rewrite length_imap.
    + rewrite <- P. by apply (pid_woken (settle (settle s)) (Some p) (Ch_sleep (SL_inode j))).
    + intros i. simpl. rewrite lookup_delete_ne by done. apply Lk.
  - by destruct C4.
  - intros i. simpl. destruct (decide (i = j)) as [->|Hne]; [apply lookup_delete_eq|].
    rewrite lookup_delete_ne by congruence. rewrite C5, decide_False by congruence. done.
Qed.

(** Another entry of the table, or the same one with more references. *)
Definition kept_entry (x y : inode) : Prop := ∃ r, y = set_i_ref r x ∧ i_ref x <= r.
Lemma iget_calm L s n :
  calm L s → (refs s ROOTDEV n = 0 → (0 < free_slots s)%nat) →
  ∃ j s', iget ROOTDEV n s = Ok j s' ∧ calm L s' ∧ (j < NINODE)%nat ∧ live (inode_at s' j) ROOTDEV n ∧
    refs s' ROOTDEV n = refs s ROOTDEV n + 1 ∧ (∀ d m, (d, m) ≠ (ROOTDEV, n) → refs s' d m = refs s d m) ∧
    (free_slots s = free_slots s' + if decide (refs s ROOTDEV n = 0%Z) then 1 else 0)%nat ∧
    ∀ i, 0 < i_ref (inode_at s i) → kept_entry (inode_at s i) (inode_at s' i).
Proof.
  intros Hc Hf. pose proof (ca_env _ _ _ _ _ (cm_cache _ _ Hc)) as [Hcpu Hlk _ _].
  pose proof (iget_correct ROOTDEV n s (cm_table _ _ Hc) Hcpu ltac:(by rewrite Hlk)) as H.
  assert (Ef : (refs s ROOTDEV n =? 0) && full_table s = false).
  { destruct (Z.eqb_spec (refs s ROOTDEV n) 0) as [E|E]; [|done]. cbn [andb]. by apply free_not_full, Hf. }
  rewrite Ef in H. destruct H as (j & s' & E & G1 & _ & G2 & G3 & G4 & G5 & G6 & G7 & G8 & G9). exists j, s'.
  assert (Hjl : (j < length (itable s))%nat) by (by rewrite (it_len _ (cm_table _ _ Hc))).
  assert (Hlen : length (itable s') = length (itable s)) by (by rewrite (it_len _ G1), (it_len _ (cm_table _ _ Hc))).
  pose proof (free_slots_change s s' j Hjl Hlen G8) as Hfs.
  split_and!; try done.
  - apply (calm_table L s s' j Hc G9 G1 G8). intros H1 H2 H3. destruct (decide (refs s ROOTDEV n = 0)) as [E0|E0].
    + destruct (G6 E0) as (Hv & _). congruence.
    + destruct (G7 E0) as [Ei Hp]. rewrite Ei in *. change (on_disk s0 (inode_at s j)). by apply (cm_valid _ _ Hc).
  - destruct (decide (refs s ROOTDEV n = 0)) as [E0|E0].
    + destruct (G6 E0) as (_ & Ha & Hb). rewrite decide_True, decide_False in Hfs by lia. lia.
    + destruct (G7 E0) as [Ei Hp]. rewrite decide_False in Hfs by lia. rewrite Ei in Hfs. simpl in Hfs.
      rewrite decide_False in Hfs by lia. lia.
  - intros i Hi. destruct (decide (i = j)) as [->|Hne].
    + destruct (decide (refs s ROOTDEV n = 0)) as [E0|E0]; [destruct (G6 E0) as (_ & Ha & _); lia|].
      destruct (G7 E0) as [-> _]. exists (i_ref (inode_at s j) + 1). split; [done | lia].
    + rewrite G8 by done. exists (i_ref (inode_at s i)). split; [by destruct (inode_at s i) | lia].
Qed.

(** The walk holds one reference, to inode [n] in entry [j]; or none any more. *)
Record hold (s : kernel) (j : nat) (n : Z) : Prop := {
  ho_calm : calm None s;
  ho_entry : (j < NINODE)%nat ∧ live (inode_at s j) ROOTDEV n;
  ho_tree : T n;
  ho_refs : ∀ d m, refs s d m = refs s0 d m + if decide ((d, m) = (ROOTDEV, n)) then 1 else 0;
  ho_free : (free_slots s0 <= free_slots s + if decide (refs s0 ROOTDEV n = 0%Z) then 1 else 0)%nat;
}.
Record let_go (s : kernel) : Prop := { lg_calm : calm None s; lg_refs : ∀ d m, refs s d m = refs s0 d m }.

Lemma near_calm L s s' : calm L s → near p pid B s s' → calm L s' ∧ itable s' = itable s.
Proof.
  intros Hc Hs. destruct (near_facts p pid B s (cm_cache _ _ Hc) s' Hs) as (H1 & H2 & H3). split; [|done].
  destruct Hs as [->|[_ _ F]]; [done|]. destruct (fs_frame_itable _ _ F) as (_ & Hsb & Hsl). destruct Hc as [_ C2 C3 C4 C5 C6].
  assert (Hi : ∀ i, inode_at s' i = inode_at s i) by (intros i; unfold inode_at; by rewrite H3).
  split; [done | intros b; by rewrite H2 | by rewrite Hsb | | intros i; by rewrite Hsl | intros i; rewrite Hi; apply C6].
  destruct (same_keys s s' ltac:(by rewrite H3) ltac:(intros i; by rewrite Hi) C4) as [H _]. done.
Qed.
Lemma iunlockput_calm s j n :
  calm (Some j) s → (j < NINODE)%nat → live (inode_at s j) ROOTDEV n → T n →
  ∃ s', iunlockput j s = Ok tt s' ∧ calm None s' ∧ refs s' ROOTDEV n = refs s ROOTDEV n - 1 ∧
    (∀ d m, (d, m) ≠ (ROOTDEV, n) → refs s' d m = refs s d m) ∧
    (free_slots s' = free_slots s + if decide (i_ref (inode_at s j) = 1%Z) then 1 else 0)%nat ∧
    ∀ i, inode_at s' i = if decide (i = j) then set_i_ref (i_ref (inode_at s j) - 1) (inode_at s j) else inode_at s i.
Proof.
  intros Hc Hj Hl Hn. destruct (iunlock_calm s j Hc) as (s1 & E1 & C1 & H1); [destruct Hl; lia|].
  assert (Hi : ∀ i, inode_at s1 i = inode_at s i) by (intros i; unfold inode_at; by rewrite H1).
  destruct (iput_calm s1 j n C1 Hj ltac:(by rewrite Hi) Hn) as (s2 & E2 & C2 & R1 & R2 & F2 & A2).
  exists s2. unfold iunlockput. rewrite (bind_Ok _ _ _ _ _ E1). split; [done|]. split; [done|].
  assert (Hr : ∀ d m, refs s1 d m = refs s d m) by (intros d m; unfold refs, inode_at; by rewrite H1).
  rewrite R1, Hr, F2, Hi. unfold free_slots. rewrite H1. split_and!; try done.
  - intros d m Hne. by rewrite R2, Hr.
  - intros i. by rewrite A2, !Hi.
Qed.

(** A step that fails gives the reference back. *)
Lemma hold_fails s s1 j n :
  hold s j n → calm (Some j) s1 → live (inode_at s1 j) ROOTDEV n → (∀ d m, refs s1 d m = refs s d m) →
  ∃ s', iunlockput j s1 = Ok tt s' ∧ let_go s'.
Proof.
  intros [_ [Hj _] Hn Hr _] C1 Hl Hr1. destruct (iunlockput_calm s1 j n C1 Hj Hl Hn) as (s' & E & C & R1 & R2 & _).
  exists s'. split; [done|]. split; [done|]. intros d m. destruct (decide ((d, m) = (ROOTDEV, n))) as [[= -> ->]|Hne].
  - rewrite R1, Hr1, Hr, decide_True by done. lia.
  - rewrite R2, Hr1, Hr, decide_False by done. lia.
Qed.
(** A step that succeeds moves the reference on to inode [m]. *)
Lemma hold_moves s s1 j n m :
  hold s j n → (2 <= free_slots s0)%nat → calm (Some j) s1 → live (inode_at s1 j) ROOTDEV n →
  (∀ d x, refs s1 d x = refs s d x) → free_slots s1 = free_slots s → T m →
  ∃ j' s2 s', iget ROOTDEV m s1 = Ok j' s2 ∧ iunlockput j s2 = Ok tt s' ∧ hold s' j' m.
Proof.
  intros [Hc [Hj _] Hn Hr Hf] H2 C1 Hl Hr1 Hf1 Hm.
  destruct (iget_calm (Some j) s1 m C1) as (j' & s2 & E2 & C2 & Hj' & Hl' & R1 & R2 & F2 & K2).
  { intros _. rewrite Hf1. destruct (decide _); lia. }
  destruct (K2 j) as (r & Er & Hrr); [apply Hl|].
  assert (Hl2 : live (inode_at s2 j) ROOTDEV n) by (rewrite Er; destruct Hl as (? & ? & ?); split_and!; simpl; [lia | done | done]).
  destruct (iunlockput_calm s2 j n C2 Hj Hl2 Hn) as (s3 & E3 & C3 & R3 & R4 & F3 & A3).
  exists j', s2, s3. split; [done|]. split; [done|].
  pose proof (refs_nonneg s1 ROOTDEV n (cm_table _ _ C1)) as N1. rewrite Hr1, Hr, decide_True in N1 by done.
  pose proof (refs_live s2 j ROOTDEV n (cm_table _ _ C2) Hj Hl2) as N2.
  pose proof (refs_live s1 j ROOTDEV n (cm_table _ _ C1) Hj Hl) as N3. rewrite Hr1, Hr, decide_True in N3 by done.
  assert (0 < i_ref (inode_at s1 j)) by apply Hl.
  assert (Rm : ∀ d x, refs s1 d x = refs s0 d x + if decide ((d, x) = (ROOTDEV, n)) then 1 else 0) by (intros d x; by rewrite Hr1, Hr).
  split; [done | | done | |].
  - split; [done|]. rewrite A3. destruct (decide (j' = j)) as [->|]; [|done].
    destruct Hl' as (_ & D1 & I1), Hl2 as (_ & D2 & I2). assert (m = n) as -> by congruence.
    split_and!; simpl; [|done|done]. rewrite <- N2, R1, Rm, decide_True by done. lia.
  - intros d x. destruct (decide (m = n)) as [->|Hmn].
    + destruct (decide ((d, x) = (ROOTDEV, n))) as [[= -> ->]|Hne].
      * rewrite R3, R1, Rm, decide_True by done. lia.
      * rewrite R4, R2, Rm, decide_False by done. lia.
    + destruct (decide ((d, x) = (ROOTDEV, n))) as [[= -> ->]|Hne].
      * rewrite R3, R2, Rm, decide_True, decide_False by congruence. lia.
      * rewrite R4 by done. destruct (decide ((d, x) = (ROOTDEV, m))) as [[= -> ->]|Hne'].
        -- rewrite R1, Rm, decide_False by done. lia.
        -- rewrite R2, Rm, decide_False by done. lia.
  - rewrite F3, <- N2. rewrite Rm in F2. destruct (decide (m = n)) as [->|Hmn].
    + rewrite (decide_True (P := (ROOTDEV, n) = (ROOTDEV, n))) in F2 by done.
      rewrite R1, Rm, (decide_True (P := (ROOTDEV, n) = (ROOTDEV, n))) by done.
      repeat case_decide; lia.
    + rewrite (decide_False (P := (ROOTDEV, m) = (ROOTDEV, n))) in F2 by congruence.
      rewrite R2, Rm, (decide_True (P := (ROOTDEV, n) = (ROOTDEV, n))) by congruence.
      repeat case_decide; lia.
Qed.

(** The directory that is locked is the one on the disk. *)
Lemma locked_dir s j n name :
  calm (Some j) s → live (inode_at s j) ROOTDEV n → on_disk s0 (inode_at s j) → T n →
  i_type (inode_at s j) = d_type (dinode_of s0 n) ∧
  lookup_dir s (inode_at s j) name = lookup_dir s0 (node s0 n) name ∧
  (∀ k, dir_entry s (inode_at s j) k = dir_entry s0 (node s0 n) k) ∧
  (d_type (dinode_of s0 n) = T_DIR → mapped s (inode_at s j) ∧ i_size (inode_at s j) mod DIRENT = 0).
Proof.
  intros Hc (_ & L2 & L3) Ho Hn. pose proof (cm_content _ _ Hc) as Hct.
  destruct (on_disk_fields _ _ Ho) as (Et & Es & _). rewrite L3 in Et, Es.
  destruct (on_disk_lookup _ _ name Ho) as [El Ee]. rewrite L3 in El, Ee.
  assert (He : ∀ k, dir_entry s (inode_at s j) k = dir_entry s0 (inode_at s j) k) by (intros k; by apply file_bytes_eq).
  split_and!; [done | | by intros k; rewrite He |].
  - rewrite <- El. unfold lookup_dir. generalize (seq 0 (entries (i_size (inode_at s j)))). intros l.
    induction l as [|k l IH]; cbn [List.find]; [reflexivity|]. unfold entry_named at 1 3. rewrite He, IH. reflexivity.
  - intros Hdir. destruct (tr_dir _ _ HT n Hn Hdir) as [Hm Hsz]. rewrite Es. split; [|done].
    destruct (on_disk_mapped _ _ Ho L2 ltac:(by rewrite L3)) as [M1 M2 M3]. split; [done..|].
    intros bn. rewrite (addr_of_eq s0) by done. apply M3.
Qed.

Lemma namex_loop_ok fuel : (2 <= free_slots s0)%nat → ∀ path name s j n,
  (length path < fuel)%nat → 0 ∉ path → Forall byte path → length name = DIRSIZ → Forall byte name → hold s j n →
  match resolve s0 n (elements path) with
  | Some m => ∃ j' name' s', namex_loop fuel j path false name s = Ok (Some j', name') s' ∧ hold s' j' m
  | None => ∃ name' s', namex_loop fuel j path false name s = Ok (None, name') s' ∧ let_go s'
  end.
Proof.
  intros Hfree. induction fuel as [|fuel IH]; intros path name s j n Hfuel H0 Hpb Hnl Hnb Hh; [lia|].
  cbn [namex_loop]. pose proof (skipelem_correct path name H0 Hnl) as Hsk.
  destruct (skipelem path name) as [[rest name']|] eqn:Esk; [|rewrite Hsk; by exists j, name, s].
  destruct Hsk as (e & Ee & Hl' & Hs' & _ & Hlen & H0').
  destruct (skipelem_bytes _ _ _ _ Hpb Hnb Esk) as [Hpb' Hnb']. rewrite Ee. cbn [resolve].
  pose proof Hh as [Hc [Hj Hlv] Hn _ _].
  destruct (ilock_calm s j n Hc Hj Hlv Hn) as (s1 & E1 & C1 & Hl1 & Ho1 & R1 & F1 & _).
  rewrite (bind_Ok _ _ _ _ _ E1). kstep.
  destruct (locked_dir s1 j n name' C1 Hl1 Ho1 Hn) as (Et & El & Ede & Hdir). rewrite Et.
  destruct (Z.eqb_spec (d_type (dinode_of s0 n)) T_DIR) as [Ed|Ed]; cbn [negb].
  2: { destruct (hold_fails s s1 j n Hh C1 Hl1 R1) as (s' & E & Hg). exists name', s'. by rewrite (bind_Ok _ _ _ _ _ E). }
  destruct (Hdir Ed) as [Hm Hsz]. cbn [andb].
  assert (Hd1 : ∀ b, is_block_data (content s1 b)) by (intros b; rewrite (cm_content _ _ C1); apply Hd).
  destruct (dirlookup_run p pid B s1 j HB (cm_cache _ _ C1) Hm Hd1 Hsz name' Hnb' ltac:(lia) (cm_table _ _ C1)) as (s2 & Hs2 & E2);
    [by rewrite Et|].
  destruct (near_calm _ s1 s2 C1 Hs2) as [C2 Hit]. 
  assert (Hi2 : ∀ i, inode_at s2 i = inode_at s1 i) by (intros i; unfold inode_at; by rewrite Hit).
  assert (Hr2 : ∀ d m, refs s2 d m = refs s d m) by (intros d m; rewrite <- R1; unfold refs, inode_at; by rewrite Hit).
  assert (Hf2 : free_slots s2 = free_slots s) by (rewrite <- F1; unfold free_slots; by rewrite Hit).
  assert (Hname : lookup_dir s0 (node s0 n) name' = lookup_dir s0 (node s0 n) e).
  { apply lookup_dir_name. rewrite (cname_string _ name') by lia. rewrite Hs'. symmetry. apply cname_take.
    apply (elements_no0 path); [done|]. rewrite Ee. by left. }
  rewrite El, Hname in E2. destruct (lookup_dir s0 (node s0 n) e) as [k|] eqn:Ek.
  - rewrite Ede in E2. apply List.find_some in Ek as [Hk Hnm]. apply list_elem_of_In, elem_of_seq in Hk.
    unfold entry_named in Hnm. apply andb_true_iff in Hnm as [Hz%negb_true_iff%Z.eqb_neq _].
    set (m := de_inum (dir_entry s0 (node s0 n) k)) in *.
    assert (Htm : T m) by (apply (tr_closed _ _ HT n k); [done | done | apply Hk | done]).
    destruct (hold_moves s s2 j n m Hh Hfree C2 ltac:(by rewrite Hi2) Hr2 Hf2 Htm) as (j' & s3 & s4 & E3 & E4 & Hh4).
    rewrite (bind_Ok _ _ _ _ _ E3) in E2. rewrite (bind_Ok _ _ _ _ _ E2), (bind_Ok _ _ _ _ _ E4).
    apply IH; try done. lia.
  - rewrite (bind_Ok _ _ _ _ _ E2). destruct (hold_fails s s2 j n Hh C2 ltac:(by rewrite Hi2) Hr2) as (s' & E & Hg).
    exists name', s'. by rewrite (bind_Ok _ _ _ _ _ E).
Qed.

(** ** The start *)

(** The inode that the walk of a path starts at. *)
Definition starts_at (path : list Z) (n : Z) : Prop :=
  if decide (head path = Some 47) then n = ROOTINO
  else ∃ c, p_cwd (proc_at s0 p) = Some c ∧ (c < NINODE)%nat ∧ live (inode_at s0 c) ROOTDEV n.

Lemma idup_hold s c n :
  calm None s → s = settle s0 → (c < NINODE)%nat → live (inode_at s c) ROOTDEV n → T n →
  ∃ s', idup c s = Ok c s' ∧ hold s' c n.
Proof.
  intros Hc Es Hn Hl HTn. pose proof (ca_env _ _ _ _ _ (cm_cache _ _ Hc)) as [Hcpu Hlk _ _].
  unfold idup. rewrite (bind_Ok _ _ _ _ _ (acquire_ok L_itable s ltac:(by rewrite Hlk))).
  rewrite iget_end by (done || by rewrite Hlk). set (f := λ ip : inode, set_i_ref (i_ref ip + 1) ip).
  pose proof Hl as (L1 & L2 & L3). assert (Hcl : (c < length (itable s))%nat) by (by rewrite (it_len _ (cm_table _ _ Hc))).
  assert (Hfl : live (f (inode_at s c)) ROOTDEV n) by (split_and!; simpl; [lia | done | done]).
  destruct (got_ok s c f ROOTDEV n (cm_table _ _ Hc) Hn Hfl) as (R1 & R2 & R3 & R4 & R5); [| by left |].
  { intros j Hj Hne Hlj. apply Hne. by apply (it_uniq _ (cm_table _ _ Hc) j c ROOTDEV n). }
  exists (got c f s). split; [done|].
  assert (Hr0 : ∀ d m, refs s d m = refs s0 d m) by (intros d m; by rewrite Es).
  assert (Hlen : length (itable (got c f s)) = length (itable s)) by (by rewrite (it_len _ R1), (it_len _ (cm_table _ _ Hc))).
  pose proof (free_slots_change s (got c f s) c Hcl Hlen R5) as Hf. rewrite R4 in Hf. simpl in Hf.
  rewrite !decide_False in Hf by lia. split; [| by rewrite R4 | done | |].
  - apply (calm_table None s _ c Hc (got_frame c f s) R1 R5). rewrite R4. intros H1 H2 H3.
    change (on_disk s0 (inode_at s c)). by apply (cm_valid _ _ Hc).
  - intros d m. rewrite <- Hr0. destruct (decide ((d, m) = (ROOTDEV, n))) as [[= -> ->]|Hne]; [|rewrite R3 by done; lia].
    rewrite R2, (refs_live s c) by (done || apply Hc). done.
  - assert (free_slots s = free_slots s0) by (by rewrite Es). lia.
Qed.
Lemma start_hold path n :
  calm None s0 → (2 <= free_slots s0)%nat → starts_at path n → T n →
  ∃ j s', (if bool_decide (head path = Some 47) then iget ROOTDEV ROOTINO
           else
             p <- curproc ;;
             c <- get (λ s, p_cwd (proc_at s p)) ;;
             match c with Some c => idup c | None => panic "kerneltrap" end) s0 = Ok j s' ∧ hold s' j n.
Proof.
  intros Hc Hf Hs Hn. unfold starts_at in Hs. destruct (decide (head path = Some 47)) as [Eh|Eh].
  - rewrite bool_decide_true by done. subst n. destruct (iget_calm None s0 ROOTINO Hc) as (j & s' & E & C & Hj & Hl & R1 & R2 & F & _); [lia|].
    exists j, s'. split; [done|]. split; [done | done | done | | lia].
    intros d m. destruct (decide ((d, m) = (ROOTDEV, ROOTINO))) as [[= -> ->]|Hne]; [done | rewrite R2 by done; lia].
  - rewrite bool_decide_false by done. destruct Hs as (c & Ec & Hcn & Hl).
    pose proof (ca_env _ _ _ _ _ (cm_cache _ _ Hc)) as [Hcpu _ Hp _].
    rewrite (bind_Ok _ _ _ _ _ (curproc_ok s0 p Hcpu Hp)). kstep. change (proc_at (settle s0) p) with (proc_at s0 p). rewrite Ec.
    destruct (idup_hold (settle s0) c n) as (s' & E & Hh); try done; [|by exists c, s'].
    destruct Hc as [C1 C2 C3 C4 C5 C6]. split; try done; [by apply cache_settle | by destruct C4].
Qed.
End walk.

(** C16: namei() resolves a path on the tree of directories. With two free entries in the inode
    table, those of the directory and of its child, it starts at the root or the current directory and
    follows the elements of the path, each cut off at 14 characters, through the entries of the
    directories as the blocks of the disk define them. It returns an entry of the inode table
    for the inode reached, with one more reference to it, and null if an element is missing or
    not in a directory; the references to all other inodes, and the blocks, are as they were
    before: nothing leaks on any way out. *)
Theorem namei_correct p pid B s T path n :
  (length B < NBUF)%nat → (∀ b, is_block_data (content s b)) → tree s T → calm p pid B s None s →
  (2 <= free_slots s)%nat → 0 ∉ path → Forall byte path → starts_at p s path n → T n →
  match resolve s n (elements path) with
  | Some m => ∃ j s', namei path s = Ok (Some j) s' ∧ live (inode_at s' j) ROOTDEV m ∧ calm p pid B s None s' ∧
      ∀ d x, refs s' d x = refs s d x + if decide ((d, x) = (ROOTDEV, m)) then 1 else 0
  | None => ∃ s', namei path s = Ok None s' ∧ calm p pid B s None s' ∧ ∀ d x, refs s' d x = refs s d x
  end.
Proof.
  intros HB Hd HT Hc Hf H0 Hpb Hs Hn. unfold namei, namex.
  destruct (start_hold p pid B s T HB path n Hc Hf Hs Hn) as (j & s1 & E1 & Hh).
  pose proof (namex_loop_ok p pid B s T HB Hd HT (S (length path)) Hf path (replicate DIRSIZ 0) s1 j n) as H.
  destruct (resolve s n (elements path)) as [m|].
  - destruct H as (j' & name' & s' & E & [C [_ L] _ R _]); [lia | done | done | done | by apply Forall_replicate; unfold byte; lia | done |].
    exists j', s'. split; [|done]. erewrite bind_Ok; [|erewrite bind_Ok by exact E1; exact E]. done.
  - destruct H as (name' & s' & E & [C R]); [lia | done | done | done | by apply Forall_replicate; unfold byte; lia | done |].
    exists s'. split; [|done]. erewrite bind_Ok; [|erewrite bind_Ok by exact E1; exact E]. done.
Qed.

(** A disk with the file cat, inode 7, in the root directory. *)
Definition demo_tree_image (b : Z) : list Z :=
  if b =? 33 then
    write_dinode (write_dinode (replicate 1024 0) 64 (Dinode T_DIR 0 0 1 32 (47 :: replicate NDIRECT 0)))
      448 (Dinode T_FILE 0 0 1 0 (replicate 13 0))
  else demo_dir_image b.
Definition demo_tree : kernel :=
  set_itable (replicate NINODE null_inode) (set_sb demo_sb (demo_fs demo_tree_image [])).
Lemma demo_tree_content b : content demo_tree b = demo_tree_image b.
Proof.
  rewrite content_uncached; [done|]. intros i [Hi Hc]. change (buf_at demo_tree i) with (buf_at (demo_fs demo_tree_image []) i) in Hc.
  rewrite demo_buf_at in Hc by (done || unfold NBUF; simpl; lia). by vm_compute in Hc.
Qed.
Lemma demo_tree_entry i : inode_at demo_tree i = null_inode.
Proof.
  unfold inode_at, demo_tree. cbn [itable set_itable]. destruct (replicate NINODE null_inode !! i) as [x|] eqn:E; [|done].
  by apply lookup_replicate in E as [-> _].
Qed.
Lemma demo_tree_calm : calm 0 1 [] demo_tree None demo_tree.
Proof.
  split; try done.
  - apply cache_itable, cache_sb, demo_cache; [unfold NBUF; simpl; lia | constructor].
  - split; [done | intros i; by rewrite demo_tree_entry |]. intros i j d m _ _ H. rewrite demo_tree_entry in H. by destruct H.
  - intros i _ H. rewrite demo_tree_entry in H. done.
Qed.
Lemma demo_tree_ok : tree demo_tree (λ n, n = 1 ∨ n = 7).
Proof.
  split.
  - intros n [-> | ->]; by vm_compute.
  - intros n [-> | ->]; by vm_compute.
  - intros n [-> | ->] H; [|by vm_compute in H]. split; [|by vm_compute]. split; [by vm_compute | by vm_compute |].
    intros bn H0 H1. assert (Hs : i_size (node demo_tree 1) = 32) by (by vm_compute).
    rewrite Hs in H1. assert (bn = 0) as -> by (unfold BSIZE in H1; lia). by vm_compute.
  - intros n k [-> | ->] H Hk; [|by vm_compute in H]. assert (He : entries (d_size (dinode_of demo_tree 1)) = 2%nat) by (by vm_compute).
    rewrite He in Hk. intros _. destruct k as [|[|k]]; [left; by vm_compute | right; by vm_compute | lia].
Qed.
Lemma namei_correct_witness :
  resolve demo_tree ROOTINO (elements [47; 99; 97; 116]) = Some 7 ∧
  ∃ j s', namei [47; 99; 97; 116] demo_tree = Ok (Some j) s' ∧ live (inode_at s' j) ROOTDEV 7.
Proof.
  assert (E : resolve demo_tree ROOTINO (elements [47; 99; 97; 116]) = Some 7) by (by vm_compute).
  split; [exact E|].
  pose proof (namei_correct 0 1 [] demo_tree (λ n, n = 1 ∨ n = 7) [47; 99; 97; 116] ROOTINO) as H. rewrite E in H.
  destruct H as (j & s' & E' & L & _).
  - unfold NBUF. simpl. lia.
  - intros b. rewrite demo_tree_content. unfold demo_tree_image. destruct (b =? 33).
    + split; [by vm_compute|]. apply (bool_decide_unpack _). by vm_compute.
    + rewrite <- demo_dir_content. apply demo_dir_data.
  - apply demo_tree_ok.
  - apply demo_tree_calm.
  - apply (bool_decide_unpack _). by vm_compute.
  - apply (bool_decide_unpack _). by vm_compute.
  - apply (bool_decide_unpack _). by vm_compute.
  - done.
  - by left.
  - exists j, s'. split; [exact E' | exact L].
Defined.
