(* ===== verification/File.v ===== *)
(** Open files: kernel/file.c, and pipealloc() of kernel/pipe.c.

    A [struct file *] is an index into [ftable]. The only device with an entry in
    devsw[] is the console. *)
From S2P Require Import Prelude Pstat Kernel Spinlock Sched Cstring Riscv Kalloc Vm ProcMem Sleeplock Uart Console Pipe Bio Log Fs.

Section file.
Context {img : Image}.

Definition CONSOLE : Z := 1.

Definition null_file : file := File FD_NONE 0 false false 0 None 0 0.
Definition file_at (s : kernel) (f : nat) : file := default null_file (ftable s !! f).
Definition upd_file (f : nat) (g : file → file) (s : kernel) : kernel :=
  set_ftable (alter g f (ftable s)) s.

Definition fileinit : K unit := initlock L_ftable.

Definition filealloc : K (option nat) :=
  acquire L_ftable ;;
  o <- get (λ s, List.find (λ f, f_ref (file_at s f) =? 0) (seq 0 NFILE)) ;;
  match o with
  | Some f =>
      modify (upd_file f (set_f_ref 1)) ;;
      release L_ftable ;;
      ret (Some f)
  | None => release L_ftable ;; ret None
  end.

Definition filedup (f : nat) : K nat :=
  acquire L_ftable ;;
  r <- get (λ s, f_ref (file_at s f)) ;;
  if r <? 1 then panic "filedup" else
  modify (upd_file f (set_f_ref (r + 1))) ;;
  release L_ftable ;;
  ret f.

(** A null [ip] of an open file would be dereferenced by iput() and ilock(). *)
Definition deref (ip : option nat) : K nat :=
  match ip with Some i => ret i | None => panic "kerneltrap" end.

Definition fileclose (f : nat) : K unit :=
  acquire L_ftable ;;
  r <- get (λ s, f_ref (file_at s f)) ;;
  if r <? 1 then panic "fileclose" else
  modify (upd_file f (set_f_ref (r - 1))) ;;
  if 0 <? r - 1 then release L_ftable else
  ff <- get (λ s, file_at s f) ;;
  modify (upd_file f (λ x, set_f_type FD_NONE (set_f_ref 0 x))) ;;
  release L_ftable ;;
  match f_type ff with
  | FD_PIPE => pipeclose (f_pipe ff) (f_writable ff)
  | FD_INODE | FD_DEVICE =>
      begin_op ;;
      ip <- deref (f_ip ff) ;;
      iput ip ;;
      end_op
  | FD_NONE => ret tt
  end.

(** [junk] is what the variable [st] holds before stati() fills it in. *)
Definition filestat (junk : list Z) (f : nat) (addr : Z) : K Z :=
  p <- curproc ;;
  ff <- get (λ s, file_at s f) ;;
  match f_type ff with
  | FD_INODE | FD_DEVICE =>
      ilock (f_ip ff) ;;
      ip <- deref (f_ip ff) ;;
      st <- get (λ s, stati (inode_at s ip) junk) ;;
      iunlock (f_ip ff) ;;
      pt <- get (λ s, p_pagetable (proc_at s p)) ;;
      r <- copyout pt addr st ;;
      ret (if r <? 0 then -1 else 0)
  | _ => ret (-1)
  end.

(** [devsw[major]] has functions, and is in the array. *)
Definition has_device (major : Z) : bool := (0 <=? major) && (major <? NDEV) && (major =? CONSOLE).

Definition fileread (f : nat) (addr n : Z) : K Z :=
  ff <- get (λ s, file_at s f) ;;
  if negb (f_readable ff) then ret (-1) else
  match f_type ff with
  | FD_PIPE => piperead (f_pipe ff) addr n
  | FD_DEVICE =>
      if negb (has_device (f_major ff)) then ret (-1) else consoleread (User addr) n
  | FD_INODE =>
      ilock (f_ip ff) ;;
      ip <- deref (f_ip ff) ;;
      off <- get (λ s, f_off (file_at s f)) ;;
      r <- readi ip (User addr) off (u32 n) ;;
      when (0 <? r.1) (modify (upd_file f (λ x, set_f_off (u32 (f_off x + r.1)) x))) ;;
      iunlock (f_ip ff) ;;
      ret r.1
  | FD_NONE => panic "fileread"
  end.

(** The most bytes written in one transaction. *)
Definition max_write : Z := (MAXOPBLOCKS - 1 - 1 - 2) / 2 * BSIZE.
Fixpoint filewrite_loop (fuel : nat) (f : nat) (addr n i : Z) : K Z :=
  match fuel with
  | O => hang
  | S fuel =>
      if negb (i <? n) then ret i else
      let n1 := Z.min (n - i) max_write in
      begin_op ;;
      ff <- get (λ s, file_at s f) ;;
      ilock (f_ip ff) ;;
      ip <- deref (f_ip ff) ;;
      off <- get (λ s, f_off (file_at s f)) ;;
      r <- writei ip (FromUser (u64 (addr + i))) off n1 ;;
      when (0 <? r) (modify (upd_file f (λ x, set_f_off (u32 (f_off x + r)) x))) ;;
      iunlock (f_ip ff) ;;
      end_op ;;
      if negb (r =? n1) then ret i else filewrite_loop fuel f addr n (i + r)
  end.
Definition filewrite (f : nat) (addr n : Z) : K Z :=
  ff <- get (λ s, file_at s f) ;;
  if negb (f_writable ff) then ret (-1) else
  match f_type ff with
  | FD_PIPE => pipewrite (f_pipe ff) addr n
  | FD_DEVICE =>
      if negb (has_device (f_major ff)) then ret (-1) else consolewrite (FromUser addr) n
  | FD_INODE =>
      i <- filewrite_loop (S (Z.to_nat (n / max_write + 1))) f addr n 0 ;;
      ret (if i =? n then n else -1)
  | FD_NONE => panic "filewrite"
  end.

(** ** pipealloc() *)

(** The fresh page keeps what kalloc() left in it; [data] follows the spin-lock. *)
Definition fresh_pipe (m : memory) (pi : Z) : pipe :=
  Pipe (read_bytes m (pi + 24) (Z.to_nat PIPESIZE)) 0 0 true true.
Definition pipe_end (readable writable : bool) (pi : Z) (x : file) : file :=
  set_f_pipe pi (set_f_writable writable (set_f_readable readable (set_f_type FD_PIPE x))).
(** [goto bad] with no pipe. *)
Definition pipealloc_bad (f0 f1 : option nat) : K (option (nat * nat)) :=
  (match f0 with Some f => fileclose f | None => ret tt end) ;;
  (match f1 with Some f => fileclose f | None => ret tt end) ;;
  ret None.
Definition pipealloc : K (option (nat * nat)) :=
  f0 <- filealloc ;;
  match f0 with
  | None => pipealloc_bad None None
  | Some a =>
      f1 <- filealloc ;;
      match f1 with
      | None => pipealloc_bad f0 None
      | Some b =>
          pi <- kalloc ;;
          if pi =? 0 then pipealloc_bad f0 f1 else
          modify (λ s, set_pipes (<[pi := fresh_pipe (mem s) pi]> (pipes s)) s) ;;
          initlock (L_pipe pi) ;;
          modify (upd_file a (pipe_end true false pi)) ;;
          modify (upd_file b (pipe_end false true pi)) ;;
          ret (Some (a, b))
      end
  end.
End file.
