(* ===== verification/Proc.v ===== *)
(** The life of a process: userinit(), kfork(), reparent(), kexit() and kwait() of
    kernel/proc.c.

    A [struct proc *] is an index into [procs]; as a channel it is [Ch_proc]. The
    trapframe is in memory, at the offsets of kernel/proc.h. *)
From S2P Require Import Prelude Pstat Kernel Spinlock Sched Cstring Riscv Kalloc Vm ProcMem Sleeplock Uart Bio Log Fs.
From S2P Require Import Console Pipe File.

Section proc.
Context {img : Image}.

(** Offsets in [struct trapframe]. *)
Definition TF_kernel_satp : Z := 0.
Definition TF_kernel_sp : Z := 8.
Definition TF_kernel_trap : Z := 16.
Definition TF_epc : Z := 24.
Definition TF_kernel_hartid : Z := 32.
Definition TF_sp : Z := 48.
Definition TF_a0 : Z := 112.
Definition TF_a1 : Z := 120.
Definition TF_a7 : Z := 168.
Definition TF_SIZE : nat := 288.

Definition set_tf (p : nat) (off v : Z) : K unit :=
  modify (λ s, set_mem (store64 (mem s) (p_trapframe (proc_at s p) + off) v) s).
Definition get_tf (p : nat) (off : Z) : K Z :=
  get (λ s, load64 (mem s) (p_trapframe (proc_at s p) + off)).

Definition userinit : K unit :=
  p <- allocproc ;;
  modify (set_initproc p) ;;
  match p with
  | None => panic "kerneltrap"
  | Some i =>
      c <- namei [47] ;;
      modify (upd_proc i (set_p_cwd c)) ;;
      set_state i RUNNABLE ;;
      release (L_proc i)
  end.

(** The loop of kfork() over the open files. *)
Definition dup_files (p np : nat) : K unit :=
  for_each (seq 0 NOFILE) (λ fd,
    o <- get (λ s, p_ofile (proc_at s p) !! fd) ;;
    match o with
    | Some (Some f) =>
        f <- filedup f ;;
        modify (upd_proc np (λ q, set_p_ofile (<[fd := Some f]> (p_ofile q)) q))
    | _ => ret tt
    end).
Definition kfork : K Z :=
  p <- curproc ;;
  o <- allocproc ;;
  match o with
  | None => ret (-1)
  | Some np =>
      pp <- get (λ s, proc_at s p) ;;
      npt <- get (λ s, p_pagetable (proc_at s np)) ;;
      r <- uvmcopy (p_pagetable pp) npt (p_sz pp) ;;
      if r <? 0 then freeproc np ;; release (L_proc np) ;; ret (-1) else
      modify (upd_proc np (set_p_sz (p_sz pp))) ;;
      modify (λ s, set_mem (write_bytes (mem s) (p_trapframe (proc_at s np))
                      (read_bytes (mem s) (p_trapframe (proc_at s p)) TF_SIZE)) s) ;;
      set_tf np TF_a0 0 ;;
      dup_files p np ;;
      cwd <- deref (p_cwd pp) ;;
      c <- idup cwd ;;
      modify (upd_proc np (set_p_cwd (Some c))) ;;
      modify (upd_proc np (λ q, set_p_name (safestrcpy_arr (p_name q) (p_name pp) 16) q)) ;;
      pid <- get (λ s, p_pid (proc_at s np)) ;;
      release (L_proc np) ;;
      acquire L_wait ;;
      modify (upd_proc np (set_p_parent (Some p))) ;;
      release L_wait ;;
      acquire (L_proc np) ;;
      set_state np RUNNABLE ;;
      release (L_proc np) ;;
      ret pid
  end.

(** [wakeup((void * )q)]; nobody sleeps on the null pointer. *)
Definition wakeup_proc (q : option nat) : K unit :=
  match q with Some q => wakeup (Ch_proc q) | None => ret tt end.

Definition reparent (p : nat) : K unit :=
  for_each (seq 0 NPROC) (λ i,
    pa <- get (λ s, p_parent (proc_at s i)) ;;
    when (bool_decide (pa = Some p))
      (ini <- get initproc ;;
       modify (upd_proc i (set_p_parent ini)) ;;
       wakeup_proc ini)).

(** The loop of kexit() over the open files. *)
Definition close_files (p : nat) : K unit :=
  for_each (seq 0 NOFILE) (λ fd,
    o <- get (λ s, p_ofile (proc_at s p) !! fd) ;;
    match o with
    | Some (Some f) =>
        fileclose f ;;
        modify (upd_proc p (λ q, set_p_ofile (<[fd := None]> (p_ofile q)) q))
    | _ => ret tt
    end).
Definition kexit {A} (status : Z) : K A :=
  p <- curproc ;;
  ini <- get initproc ;;
  if bool_decide (ini = Some p) then panic "init exiting" else
  close_files p ;;
  begin_op ;;
  cwd <- get (λ s, p_cwd (proc_at s p)) ;;
  c <- deref cwd ;;
  iput c ;;
  end_op ;;
  modify (upd_proc p (set_p_cwd None)) ;;
  acquire L_wait ;;
  reparent p ;;
  pa <- get (λ s, p_parent (proc_at s p)) ;;
  wakeup_proc pa ;;
  acquire (L_proc p) ;;
  modify (upd_proc p (set_p_xstate status)) ;;
  set_state p ZOMBIE ;;
  release L_wait ;;
  sched ;;
  panic "zombie exit".

(** The scan of kwait() over the entries [l]: [inl r] is a return, with the locks
    released, [inr] the value of [havekids]. *)
Fixpoint kwait_scan (l : list nat) (p : nat) (addr : Z) (havekids : bool) : K (Z + bool) :=
  match l with
  | [] => ret (inr havekids)
  | i :: l =>
      pa <- get (λ s, p_parent (proc_at s i)) ;;
      if negb (bool_decide (pa = Some p)) then kwait_scan l p addr havekids else
      acquire (L_proc i) ;;
      q <- get (λ s, proc_at s i) ;;
      if bool_decide (p_state q = ZOMBIE) then
        r <- (if addr =? 0 then ret 0
              else pt <- get (λ s, p_pagetable (proc_at s p)) ;; copyout pt addr (le 4 (p_xstate q))) ;;
        if r <? 0 then release (L_proc i) ;; release L_wait ;; ret (inl (-1)) else
        freeproc i ;;
        release (L_proc i) ;;
        release L_wait ;;
        ret (inl (p_pid q))
      else release (L_proc i) ;; kwait_scan l p addr true
  end.
Fixpoint kwait_loop (fuel : nat) (p : nat) (addr : Z) : K Z :=
  match fuel with
  | O => hang
  | S fuel =>
      r <- kwait_scan (seq 0 NPROC) p addr false ;;
      match r with
      | inl r => ret r
      | inr havekids =>
          stop <- (if negb havekids then ret true else k <- killed p ;; ret (negb (k =? 0))) ;;
          if stop : bool then release L_wait ;; ret (-1) else
          sleep (Ch_proc p) L_wait ;;
          kwait_loop fuel p addr
      end
  end.
Definition kwait (addr : Z) : K Z :=
  p <- curproc ;;
  acquire L_wait ;;
  kwait_loop WAITS p addr.
End proc.
