(* ===== verification/Orphan.v ===== *)
(** Orphans: reparent() of kernel/proc.c hands the children of an exiting process to init
    and wakes init, so that no zombie is left without a parent to wait for it. *)
From S2P Require Import Prelude Pstat Kernel Spinlock Sched Cstring Riscv Kalloc Vm ProcMem Sleeplock Uart Bio Log Fs.
From S2P Require Import Console Pipe File Proc.

Definition child_of (p : nat) (q : proc) : bool := bool_decide (p_parent q = Some p).
Definition adopt (p : nat) (ini : option nat) (q : proc) : proc :=
  if child_of p q then set_p_parent ini q else q.

Lemma woken_parent me c i x q : woken me c i (set_p_parent x q) = set_p_parent x (woken me c i q).
Proof. unfold woken, sleeping_on. simpl. by repeat case_match. Qed.
Lemma p_parent_woken me c i q : p_parent (woken me c i q) = p_parent q.
Proof. unfold woken. by repeat case_match. Qed.
Lemma woken_idemp me c i q : woken me c i (woken me c i q) = woken me c i q.
Proof.
  unfold woken at 2 3. destruct (bool_decide (me = Some i)) eqn:E.
  - unfold woken. by rewrite E.
  - destruct (sleeping_on c q) eqn:Es; unfold woken; rewrite E; [done | by rewrite Es].
Qed.

(** Some entry below [n] is a child of [p]. *)
Definition has_child (p : nat) (ps : list proc) (n : nat) : bool :=
  existsb (λ j, child_of p (default null_proc (ps !! j))) (seq 0 n).

(** The entry [i] after the loop has visited the entries below [n]. *)
Definition stage (p k : nat) (me : option nat) (ps : list proc) (n i : nat) (q : proc) : proc :=
  (if has_child p ps n then woken me (Ch_proc k) i else id)
    (if (i <? n)%nat then adopt p (Some k) q else q).

Lemma has_child_S p ps n :
  has_child p ps (S n) = has_child p ps n || child_of p (default null_proc (ps !! n)).
Proof. unfold has_child. rewrite seq_S, existsb_app. simpl. by rewrite orb_false_r. Qed.

Lemma stage_skip p k me ps n i q :
  ps !! i = Some q → child_of p (default null_proc (ps !! n)) = false →
  stage p k me ps (S n) i q = stage p k me ps n i q.
Proof.
  intros Hq Hn. unfold stage. rewrite has_child_S, Hn, orb_false_r.
  destruct (decide (i = n)) as [->|Hne].
  - rewrite Nat.ltb_irrefl, (proj2 (Nat.ltb_lt n (S n))) by lia.
    rewrite Hq in Hn. simpl in Hn. unfold adopt. by rewrite Hn.
  - by replace (i <? S n)%nat with (i <? n)%nat
      by (destruct (Nat.ltb_spec i n), (Nat.ltb_spec i (S n)); lia || done).
Qed.

Lemma stage_child p k me ps n i q :
  ps !! i = Some q → child_of p (default null_proc (ps !! n)) = true →
  stage p k me ps (S n) i q
  = woken me (Ch_proc k) i ((if decide (i = n) then set_p_parent (Some k) else id) (stage p k me ps n i q)).
Proof.
  intros Hq Hn. unfold stage. rewrite has_child_S, Hn, orb_true_r.
  assert (Hw : ∀ x, woken me (Ch_proc k) i ((if has_child p ps n then woken me (Ch_proc k) i else id) x)
                    = woken me (Ch_proc k) i x).
  { intros x. destruct (has_child p ps n); [apply woken_idemp | done]. }
  destruct (decide (i = n)) as [->|Hne].
  - rewrite Nat.ltb_irrefl, (proj2 (Nat.ltb_lt n (S n))) by lia.
    rewrite woken_parent, Hw, <- woken_parent. rewrite Hq in Hn. simpl in Hn. unfold adopt. by rewrite Hn.
  - replace (i <? S n)%nat with (i <? n)%nat
      by (destruct (Nat.ltb_spec i n), (Nat.ltb_spec i (S n)); lia || done).
    symmetry. apply Hw.
Qed.

Section orphan.
Context {img : Image}.

Lemma reparent_ok p k s :
  table_free s → 0 < c_noff (cur s) → length (procs s) = NPROC → initproc s = Some k →
  reparent p s = Ok tt (set_procs (imap (stage p k (c_proc (cur s)) (procs s) NPROC) (procs s)) s).
Proof.
  intros Hs Hn Hlen Hi. set (me := c_proc (cur s)). set (ps := procs s).
  assert (Hset : ∀ l, settle (set_procs l s) = set_procs l s).
  { intros l. unfold settle. simpl. rewrite settled_locked by done. by destruct s. }
  destruct (for_seq (λ i, pa <- get (λ s, p_parent (proc_at s i)) ;;
      when (bool_decide (pa = Some p)) (ini <- get initproc ;;
        modify (upd_proc i (set_p_parent ini)) ;; wakeup_proc ini))
    (λ n x, x = set_procs (imap (stage p k me ps n) ps) s) NPROC s) as (s' & E & ->).
  - intros n x Hlt ->. ksteps.
    destruct (lookup_lt_is_Some_2 ps n) as [q Hq]; [unfold ps; lia|].
    assert (Hpar : p_parent (proc_at (set_procs (imap (stage p k me ps n) ps) s) n) = p_parent q).
    { unfold proc_at. simpl. rewrite list_lookup_imap, Hq. simpl. unfold stage.
      rewrite Nat.ltb_irrefl. by destruct (has_child _ _ _); [apply p_parent_woken|]. }
    rewrite Hpar. destruct (bool_decide (p_parent q = Some p)) eqn:Ec.
    + ksteps. simpl. rewrite Hi. simpl.
      set (l := alter (set_p_parent (Some k)) n (imap (stage p k me ps n) ps)).
      change (upd_proc n _ _) with (set_procs l s).
      rewrite wakeup_ok; [| done | simpl; unfold l; rewrite length_alter, length_imap; unfold ps; lia].
      eexists. split; [reflexivity|]. rewrite Hset.
      transitivity (set_procs (imap (woken me (Ch_proc k)) l) s); [done|]. f_equal. unfold l.
      apply list_eq. intros i. rewrite !list_lookup_imap.
      destruct (ps !! i) as [q'|] eqn:Eq; destruct (decide (i = n)) as [->|Hne].
      * rewrite list_lookup_alter_eq, list_lookup_imap, Eq. simpl.
        rewrite (stage_child p k me ps n n q') by (done || by rewrite Hq).
        by rewrite decide_True.
      * rewrite list_lookup_alter_ne, list_lookup_imap, Eq by done. simpl.
        rewrite (stage_child p k me ps n i q') by (done || by rewrite Hq).
        by rewrite decide_False.
      * congruence.
      * by rewrite list_lookup_alter_ne, list_lookup_imap, Eq.
    + eexists. split; [reflexivity|]. f_equal. apply list_eq. intros i. rewrite !list_lookup_imap.
      destruct (ps !! i) as [q'|] eqn:Eq; [|done]. simpl. f_equal. symmetry.
      apply stage_skip; [done | by rewrite Hq].
  - transitivity (set_procs ps s); [by destruct s|]. f_equal. symmetry.
    apply list_eq. intros i. rewrite list_lookup_imap. by destruct (ps !! i).
  - exact E.
Qed.

(** ** Properties *)

(** Reparent() leaves no process with the exiting process [p] as its parent: its children, and no
    others, belong to init afterwards. If there was a child and init sleeps in wait(), init is made RUNNABLE,
    so that it will find the child when it has exited. Nothing else about any process changes. *)
Theorem reparent_correct p k s i q :
  table_free s → 0 < c_noff (cur s) → length (procs s) = NPROC → initproc s = Some k → k ≠ p →
  c_proc (cur s) ≠ Some k → procs s !! i = Some q →
  ∃ s' q', reparent p s = Ok tt s' ∧ procs s' !! i = Some q'
    ∧ p_parent q' ≠ Some p
    ∧ p_parent q' = (if bool_decide (p_parent q = Some p) then Some k else p_parent q)
    ∧ ((∃ j c, procs s !! j = Some c ∧ p_parent c = Some p) → i = k →
       p_state q = SLEEPING → p_chan q = Some (Ch_proc k) → p_state q' = RUNNABLE)
    ∧ (q' = set_p_parent (p_parent q') q
       ∨ sleeping_on (Ch_proc k) q = true ∧ q' = set_p_state RUNNABLE (set_p_parent (p_parent q') q)).
Proof.
  intros Hs Hn Hlen Hi Hkp Hme Hq. pose proof (lookup_lt_Some _ _ _ Hq) as Hlt.
  do 2 eexists. split; [by apply (reparent_ok p k)|].
  cbn [procs set_procs]. rewrite list_lookup_imap, Hq. split; [reflexivity|].
  set (me := c_proc (cur s)) in *. set (q' := stage _ _ _ _ _ _ _).
  assert (Hpar : p_parent q' = (if bool_decide (p_parent q = Some p) then Some k else p_parent q)).
  { unfold q', stage. rewrite (proj2 (Nat.ltb_lt i NPROC)) by lia. unfold adopt, child_of.
    destruct (has_child _ _ _), (bool_decide _); by rewrite ?p_parent_woken. }
  assert (Hq' : q' = (if has_child p (procs s) NPROC then woken me (Ch_proc k) i else id)
                      (set_p_parent (p_parent q') q)).
  { rewrite Hpar. unfold q', stage. rewrite (proj2 (Nat.ltb_lt i NPROC)) by lia. f_equal.
    unfold adopt, child_of. destruct (bool_decide _); [done | by destruct q]. }
  clearbody q'. split_and!; [| done | |].
  - rewrite Hpar. case_bool_decide; congruence.
  - intros (j & c & Hj & Hc) -> Hst Hch.
    assert (Hh : has_child p (procs s) NPROC = true).
    { apply existsb_exists. exists j. split.
      - apply in_seq. apply lookup_lt_Some in Hj. lia.
      - rewrite Hj. unfold child_of. simpl. by rewrite bool_decide_true. }
    rewrite Hq', Hh. unfold woken, sleeping_on. simpl.
    by rewrite bool_decide_false, !bool_decide_true by done.
  - destruct (has_child _ _ _); [|left; exact Hq']. unfold woken in Hq'.
    destruct (bool_decide (me = Some i)); [left; exact Hq'|].
    destruct (sleeping_on (Ch_proc k) (set_p_parent _ q)) eqn:Es;
      [right; split; [exact Es | exact Hq'] | left; exact Hq'].
Qed.
End orphan.

(** Process 2 exits, and 3 is its child; init, process 0, sleeps in wait(). *)
Definition orphan_demo : kernel :=
  set_initproc (Some 0%nat)
    (set_cur (Cpu (Some 2%nat) 1 false false)
      (set_procs ([set_p_chan (Some (Ch_proc 0)) (set_p_state SLEEPING null_proc); null_proc;
                   set_p_state RUNNING null_proc;
                   set_p_parent (Some 2%nat) (set_p_state RUNNABLE null_proc)] ++ replicate 60 null_proc)
        null_kernel)).

Lemma reparent_correct_witness :
  ∃ s' q', reparent 2 orphan_demo = Ok tt s' ∧ procs s' !! 0%nat = Some q' ∧ p_state q' = RUNNABLE.
Proof.
  destruct (reparent_correct 2 0 orphan_demo 0 (set_p_chan (Some (Ch_proc 0)) (set_p_state SLEEPING null_proc)))
    as (s' & q' & E & Hq & _ & _ & Hw & _).
  - split; [split; simpl; [lia | reflexivity] | intros; apply lookup_empty].
  - simpl. lia.
  - reflexivity.
  - reflexivity.
  - lia.
  - discriminate.
  - reflexivity.
  - exists s', q'. split; [exact E|]. split; [exact Hq|]. apply Hw; [|reflexivity..].
    exists 3%nat, (set_p_parent (Some 2%nat) (set_p_state RUNNABLE null_proc)). split; reflexivity.
Defined.
