(* ===== verification/Exec.v ===== *)
(** The exec() system call: kernel/exec.c.

    [argv] is the list of the argument strings; the structs of the ELF file are read
    from their bytes at the offsets of kernel/elf.h. *)
From S2P Require Import Prelude Pstat Kernel Spinlock Sched Cstring Riscv Kalloc Vm ProcMem Sleeplock Uart Bio Log Fs.
From S2P Require Import Console Pipe File Proc.

Section exec.
Context {img : Image}.

Definition flags2perm (flags : Z) : Z :=
  let perm := if bit flags 1 then PTE_X else 0 in
  if bit flags 2 then Z.lor perm PTE_W else perm.

Definition ELF_MAGIC : Z := 0x464C457F.
Definition ELF_PROG_LOAD : Z := 1.
Definition get64 (d : list Z) (off : nat) : Z := get32 d off + 2 ^ 32 * get32 d (off + 4).

(** [struct elfhdr] (64 bytes) and [struct proghdr] (56 bytes), the fields that are used. *)
Record elfhdr := Elfhdr { e_magic : Z; e_entry : Z; e_phoff : Z; e_phnum : Z }.
Definition ELFHDR : Z := 64.
Definition read_elfhdr (d : list Z) : elfhdr :=
  Elfhdr (get32 d 0) (get64 d 24) (get64 d 32) (get16 d 56).
Record proghdr := Proghdr {
  ph_type : Z; ph_flags : Z; ph_off : Z; ph_vaddr : Z; ph_filesz : Z; ph_memsz : Z }.
Definition PROGHDR : Z := 56.
Definition read_proghdr (d : list Z) : proghdr :=
  Proghdr (get32 d 0) (get32 d 4) (get64 d 8) (get64 d 16) (get64 d 32) (get64 d 40).

(** The loop of loadseg(), one page per round. *)
Fixpoint loadseg_loop (fuel : nat) (pagetable va : Z) (ip : nat) (offset sz i : Z) : K Z :=
  match fuel with
  | O => hang
  | S fuel =>
      if negb (i <? sz) then ret 0 else
      pa <- walkaddr pagetable (u64 (va + i)) ;;
      if pa =? 0 then panic "loadseg: address should exist" else
      let n := if sz - i <? PGSIZE then sz - i else PGSIZE in
      r <- readi ip (Phys pa) (u32 (offset + i)) n ;;
      if negb (r.1 =? n) then ret (-1) else
      loadseg_loop fuel pagetable va ip offset sz (u32 (i + PGSIZE))
  end.
Definition loadseg (pagetable va : Z) (ip : nat) (offset sz : Z) : K Z :=
  loadseg_loop (S (Z.to_nat (u32 sz / PGSIZE + 1))) pagetable va ip (u32 offset) (u32 sz) 0.

(** [goto bad] *)
Definition kexec_bad (pagetable sz : Z) (ip : option nat) : K Z :=
  when (negb (pagetable =? 0)) (proc_freepagetable pagetable sz) ;;
  (match ip with Some i => iunlockput i ;; end_op | None => ret tt end) ;;
  ret (-1).

(** The loop over the [n] program headers left: the size of the image so far, and
    whether all of them were loaded. *)
Fixpoint load_segments (n : nat) (ip : nat) (pagetable off sz : Z) : K (Z * bool) :=
  match n with
  | O => ret (sz, true)
  | S n =>
      r <- readi ip Local (u32 off) PROGHDR ;;
      if negb (r.1 =? PROGHDR) then ret (sz, false) else
      let ph := read_proghdr r.2 in
      if negb (ph_type ph =? ELF_PROG_LOAD) then load_segments n ip pagetable (i32 (off + PROGHDR)) sz else
      if ph_memsz ph <? ph_filesz ph then ret (sz, false) else
      if u64 (ph_vaddr ph + ph_memsz ph) <? ph_vaddr ph then ret (sz, false) else
      if negb (ph_vaddr ph mod PGSIZE =? 0) then ret (sz, false) else
      sz1 <- uvmalloc pagetable sz (u64 (ph_vaddr ph + ph_memsz ph)) (flags2perm (ph_flags ph)) ;;
      if sz1 =? 0 then ret (sz, false) else
      r <- loadseg pagetable (ph_vaddr ph) ip (ph_off ph) (ph_filesz ph) ;;
      if r <? 0 then ret (sz1, false) else
      load_segments n ip pagetable (i32 (off + PROGHDR)) sz1
  end.

(** [sp -= n; sp -= sp % 16;] *)
Definition push_sp (sp n : Z) : Z := let sp := u64 (sp - n) in sp - sp mod 16.

(** The loop that copies the arguments to the new stack: the stack pointer and
    [ustack], or [None] for [goto bad]. *)
Fixpoint push_args (argv : list (list Z)) (pagetable sp stackbase : Z) (ustack : list Z)
    : K (option (Z * list Z)) :=
  match argv with
  | [] => ret (Some (sp, ustack))
  | arg :: argv =>
      if MAXARG <=? Z.of_nat (length ustack) then ret None else
      let sp := push_sp sp (Z.of_nat (length arg) + 1) in
      if sp <? stackbase then ret None else
      r <- copyout pagetable sp (arg ++ [0]) ;;
      if r <? 0 then ret None else
      push_args argv pagetable sp stackbase (ustack ++ [sp])
  end.

(** The part of the path after its last slash. *)
Fixpoint last_elem (path last : list Z) : list Z :=
  match path with
  | [] => last
  | c :: s => last_elem s (if c =? 47 then s else last)
  end.

(** Everything after the program is loaded. *)
Definition kexec_finish (path : list Z) (argv : list (list Z)) (p : nat) (elf : elfhdr) (pagetable sz : Z) : K Z :=
  oldsz <- get (λ s, p_sz (proc_at s p)) ;;
  let sz := PGROUNDUP sz in
  sz1 <- uvmalloc pagetable sz (u64 (sz + (USERSTACK + 1) * PGSIZE)) PTE_W ;;
  if sz1 =? 0 then kexec_bad pagetable sz None else
  let sz := sz1 in
  uvmclear pagetable (u64 (sz - (USERSTACK + 1) * PGSIZE)) ;;
  let stackbase := u64 (sz - USERSTACK * PGSIZE) in
  o <- push_args argv pagetable sz stackbase [] ;;
  match o with
  | None => kexec_bad pagetable sz None
  | Some (sp, ustack) =>
      let argc := Z.of_nat (length ustack) in
      if MAXARG <=? argc then panic "undefined: ustack[MAXARG]" else
      let sp := push_sp sp ((argc + 1) * 8) in
      if sp <? stackbase then kexec_bad pagetable sz None else
      r <- copyout pagetable sp (concat (le 8 <$> ustack ++ [0])) ;;
      if r <? 0 then kexec_bad pagetable sz None else
      set_tf p TF_a1 sp ;;
      modify (upd_proc p (λ q, set_p_name (safestrcpy_arr (p_name q) (last_elem path path) 16) q)) ;;
      oldpagetable <- get (λ s, p_pagetable (proc_at s p)) ;;
      modify (upd_proc p (λ q, set_p_sz sz (set_p_pagetable pagetable q))) ;;
      set_tf p TF_epc (e_entry elf) ;;
      set_tf p TF_sp sp ;;
      proc_freepagetable oldpagetable oldsz ;;
      ret argc
  end.

Definition kexec (path : list Z) (argv : list (list Z)) : K Z :=
  p <- curproc ;;
  begin_op ;;
  o <- namei path ;;
  match o with
  | None => end_op ;; ret (-1)
  | Some ip =>
      ilock (Some ip) ;;
      r <- readi ip Local 0 ELFHDR ;;
      if negb (r.1 =? ELFHDR) then kexec_bad 0 0 (Some ip) else
      let elf := read_elfhdr r.2 in
      if negb (e_magic elf =? ELF_MAGIC) then kexec_bad 0 0 (Some ip) else
      pagetable <- proc_pagetable p ;;
      if pagetable =? 0 then kexec_bad 0 0 (Some ip) else
      r <- load_segments (Z.to_nat (e_phnum elf)) ip pagetable (i32 (e_phoff elf)) 0 ;;
      if negb r.2 then kexec_bad pagetable r.1 (Some ip) else
      iunlockput ip ;;
      end_op ;;
      kexec_finish path argv p elf pagetable r.1
  end.
End exec.
