(* ===== verification/Syscall.v ===== *)
(** Arguments of system calls (kernel/syscall.c) and the calls of kernel/sysproc.c and
    kernel/sysfile.c.

    [junk] parameters are what uninitialised variables hold. A C string is the list of
    its characters. Results are [uint64]; -1 stands for all ones, as in the C code. *)
From S2P Require Import Prelude Pstat Kernel Spinlock Sched Cstring Riscv Kalloc Vm ProcMem Sleeplock Uart Bio Log Fs.
From S2P Require Import Console Pipe File Proc Exec.

Section syscall.
Context {img : Image}.

(** ** Arguments *)

Definition pagetable_of (p : nat) : K Z := get (λ s, p_pagetable (proc_at s p)).

(** The value fetched, or [None] for -1. *)
Definition fetchaddr (addr : Z) : K (option Z) :=
  p <- curproc ;;
  sz <- get (λ s, p_sz (proc_at s p)) ;;
  if (sz <=? addr) || (sz <? u64 (addr + 8)) then ret None else
  pt <- pagetable_of p ;;
  r <- copyin pt addr 8 ;;
  if negb (r.1 =? 0) then ret None else ret (Some (get64 r.2 0)).

Definition fetchstr (addr max : Z) : K (option (list Z)) :=
  p <- curproc ;;
  pt <- pagetable_of p ;;
  r <- copyinstr pt addr max ;;
  if r.1 <? 0 then ret None else ret (Some (cstr r.2)).

Definition argraw (n : Z) : K Z :=
  p <- curproc ;;
  if (0 <=? n) && (n <=? 5) then get_tf p (TF_a0 + 8 * n) else panic "argraw".
Definition argint (n : Z) : K Z := v <- argraw n ;; ret (i32 v).
Definition argaddr (n : Z) : K Z := argraw n.
Definition argstr (n max : Z) : K (option (list Z)) :=
  addr <- argaddr n ;;
  fetchstr addr max.

(** ** kernel/sysproc.c *)

Definition sys_exit : K Z := n <- argint 0 ;; kexit n.
Definition sys_getpid : K Z := mypid.
Definition sys_fork : K Z := kfork.
Definition sys_wait : K Z := p <- argaddr 0 ;; kwait p.

Definition sys_sbrk : K Z :=
  n <- argint 0 ;;
  t <- argint 1 ;;
  p <- curproc ;;
  addr <- get (λ s, p_sz (proc_at s p)) ;;
  if (t =? SBRK_EAGER) || (n <? 0) then
    r <- growproc n ;;
    ret (if r <? 0 then -1 else addr)
  else
    if u64 (addr + n) <? addr then ret (-1) else
    if TRAPFRAME <? u64 (addr + n) then ret (-1) else
    modify (upd_proc p (λ q, set_p_sz (u64 (p_sz q + n)) q)) ;;
    ret addr.

(** [while (ticks - ticks0 < n)]; [ticks] is unsigned, so is the comparison. *)
Fixpoint pause_loop (fuel : nat) (n ticks0 : Z) : K Z :=
  match fuel with
  | O => hang
  | S fuel =>
      t <- get ticks ;;
      if negb (u32 (t - ticks0) <? n) then release L_ticks ;; ret 0 else
      p <- curproc ;;
      k <- killed p ;;
      if negb (k =? 0) then release L_ticks ;; ret (-1) else
      sleep Ch_ticks L_ticks ;;
      pause_loop fuel n ticks0
  end.
Definition sys_pause : K Z :=
  n <- argint 0 ;;
  let n := if n <? 0 then 0 else n in
  acquire L_ticks ;;
  ticks0 <- get ticks ;;
  pause_loop (S (Z.to_nat n + WAITS)) n ticks0.

Definition sys_kill : K Z := pid <- argint 0 ;; kkill pid.

Definition sys_uptime : K Z :=
  acquire L_ticks ;;
  xticks <- get ticks ;;
  release L_ticks ;;
  ret xticks.

Definition sys_getprocinfo (junk : nat → list Z) : K Z :=
  max_entries <- argint 0 ;;
  addr <- argaddr 1 ;;
  if (max_entries <=? 0) || (addr =? 0) then ret (-1) else
  get_proc_stats junk addr max_entries.

(** [struct workload_info] as twelve [int]s. *)
Definition workload_bytes (w : workload_info) : list Z :=
  concat (le 4 <$> [num_runnable w; num_running w; num_sleeping w; num_total w; avg_est_burst w;
    pct_interactive w; pct_cpu_bound w; pct_mixed w; num_healthy w; num_warning w; num_critical w;
    total_healing_actions w]).
Definition sys_getworkload : K Z :=
  addr <- argaddr 0 ;;
  if addr =? 0 then ret (-1) else
  winfo <- get_workload_stats ;;
  p <- curproc ;;
  pt <- pagetable_of p ;;
  r <- copyout pt addr (workload_bytes winfo) ;;
  ret (if r <? 0 then -1 else 0).

(** ** kernel/sysfile.c *)

(** The descriptor and the file, or [None] for -1. *)
Definition argfd (n : Z) : K (option (Z * nat)) :=
  fd <- argint n ;;
  if (fd <? 0) || (Z.of_nat NOFILE <=? fd) then ret None else
  p <- curproc ;;
  o <- get (λ s, p_ofile (proc_at s p) !! Z.to_nat fd) ;;
  ret (match o with Some (Some f) => Some (fd, f) | _ => None end).

Definition set_ofile (p : nat) (fd : nat) (f : option nat) : K unit :=
  modify (upd_proc p (λ q, set_p_ofile (<[fd := f]> (p_ofile q)) q)).
Definition fdalloc (f : nat) : K Z :=
  p <- curproc ;;
  o <- get (λ s, List.find (λ fd, bool_decide (p_ofile (proc_at s p) !! fd = Some None)) (seq 0 NOFILE)) ;;
  match o with
  | Some fd => set_ofile p fd (Some f) ;; ret (Z.of_nat fd)
  | None => ret (-1)
  end.

Definition sys_dup : K Z :=
  o <- argfd 0 ;;
  match o with
  | None => ret (-1)
  | Some (_, f) =>
      fd <- fdalloc f ;;
      if fd <? 0 then ret (-1) else
      filedup f ;;
      ret fd
  end.

Definition sys_read : K Z :=
  p <- argaddr 1 ;;
  n <- argint 2 ;;
  o <- argfd 0 ;;
  match o with None => ret (-1) | Some (_, f) => fileread f p n end.
Definition sys_write : K Z :=
  p <- argaddr 1 ;;
  n <- argint 2 ;;
  o <- argfd 0 ;;
  match o with None => ret (-1) | Some (_, f) => filewrite f p n end.

Definition sys_close : K Z :=
  o <- argfd 0 ;;
  match o with
  | None => ret (-1)
  | Some (fd, f) =>
      p <- curproc ;;
      set_ofile p (Z.to_nat fd) None ;;
      fileclose f ;;
      ret 0
  end.

Definition sys_fstat (junk : list Z) : K Z :=
  st <- argaddr 1 ;;
  o <- argfd 0 ;;
  match o with None => ret (-1) | Some (_, f) => filestat junk f st end.

(** [ip->nlink += d], as a [short]. *)
Definition add_nlink (d : Z) (i : nat) : K unit :=
  modify (upd_inode i (λ ip, set_i_nlink (i16 (i_nlink ip + d)) ip)).

(** [bad:] of sys_link(). *)
Definition sys_link_bad (ip : nat) : K Z :=
  ilock (Some ip) ;;
  add_nlink (-1) ip ;;
  iupdate ip ;;
  iunlockput ip ;;
  end_op ;;
  ret (-1).
Definition sys_link (junk : list Z) : K Z :=
  old <- argstr 0 MAXPATH ;;
  match old with
  | None => ret (-1)
  | Some old =>
      new <- argstr 1 MAXPATH ;;
      match new with
      | None => ret (-1)
      | Some new =>
          begin_op ;;
          o <- namei old ;;
          match o with
          | None => end_op ;; ret (-1)
          | Some ip =>
              ilock (Some ip) ;;
              t <- get (λ s, i_type (inode_at s ip)) ;;
              if t =? T_DIR then iunlockput ip ;; end_op ;; ret (-1) else
              add_nlink 1 ip ;;
              iupdate ip ;;
              iunlock (Some ip) ;;
              r <- nameiparent new junk ;;
              match r.1 with
              | None => sys_link_bad ip
              | Some dp =>
                  ilock (Some dp) ;;
                  ddev <- get (λ s, i_dev (inode_at s dp)) ;;
                  x <- get (λ s, inode_at s ip) ;;
                  l <- (if negb (ddev =? i_dev x) then ret (-1) else dirlink dp r.2 (i_inum x)) ;;
                  if l <? 0 then iunlockput dp ;; sys_link_bad ip else
                  iunlockput dp ;;
                  iput ip ;;
                  end_op ;;
                  ret 0
              end
          end
      end
  end.

Definition isdirempty (dp : nat) : K bool :=
  size <- get (λ s, i_size (inode_at s dp)) ;;
  r <- for_find (seq 2 (entries size - 2)) (λ k,
         de <- read_dirent "isdirempty: readi" dp (DIRENT * Z.of_nat k) ;;
         ret (if negb (de_inum de =? 0) then Some tt else None)) ;;
  ret (match r with Some _ => false | None => true end).

(** [bad:] of sys_unlink(). *)
Definition sys_unlink_bad (dp : nat) : K Z := iunlockput dp ;; end_op ;; ret (-1).
Definition sys_unlink (junk : list Z) : K Z :=
  path <- argstr 0 MAXPATH ;;
  match path with
  | None => ret (-1)
  | Some path =>
      begin_op ;;
      r <- nameiparent path junk ;;
      match r.1 with
      | None => end_op ;; ret (-1)
      | Some dp =>
          ilock (Some dp) ;;
          let name := r.2 in
          if (namecmp name [46] =? 0) || (namecmp name [46; 46] =? 0) then sys_unlink_bad dp else
          o <- dirlookup dp name ;;
          match o with
          | None => sys_unlink_bad dp
          | Some (ip, off) =>
              ilock (Some ip) ;;
              x <- get (λ s, inode_at s ip) ;;
              if i_nlink x <? 1 then panic "unlink: nlink < 1" else
              full <- (if i_type x =? T_DIR then e <- isdirempty ip ;; ret (negb e) else ret false) ;;
              if full : bool then iunlockput ip ;; sys_unlink_bad dp else
              w <- writei dp (FromLocal (replicate 16 0)) off DIRENT ;;
              if negb (w =? DIRENT) then panic "unlink: writei" else
              when (i_type x =? T_DIR) (add_nlink (-1) dp ;; iupdate dp) ;;
              iunlockput dp ;;
              add_nlink (-1) ip ;;
              iupdate ip ;;
              iunlockput ip ;;
              end_op ;;
              ret 0
          end
      end
  end.

(** [fail:] of create(). *)
Definition create_fail (ip dp : nat) : K (option nat) :=
  modify (upd_inode ip (set_i_nlink 0)) ;;
  iupdate ip ;;
  iunlockput ip ;;
  iunlockput dp ;;
  ret None.
Definition create (junk path : list Z) (type major minor : Z) : K (option nat) :=
  r <- nameiparent path junk ;;
  match r.1 with
  | None => ret None
  | Some dp =>
      let name := r.2 in
      ilock (Some dp) ;;
      o <- dirlookup dp name ;;
      match o with
      | Some (ip, _) =>
          iunlockput dp ;;
          ilock (Some ip) ;;
          t <- get (λ s, i_type (inode_at s ip)) ;;
          if (type =? T_FILE) && ((t =? T_FILE) || (t =? T_DEVICE)) then ret (Some ip) else
          iunlockput ip ;;
          ret None
      | None =>
          ddev <- get (λ s, i_dev (inode_at s dp)) ;;
          o <- ialloc ddev type ;;
          match o with
          | None => iunlockput dp ;; ret None
          | Some ip =>
              ilock (Some ip) ;;
              modify (upd_inode ip (λ x, set_i_nlink 1 (set_i_minor minor (set_i_major major x)))) ;;
              iupdate ip ;;
              inum <- get (λ s, i_inum (inode_at s ip)) ;;
              ok <- (if type =? T_DIR then
                       l <- dirlink ip [46] inum ;;
                       if l <? 0 then ret false else
                       dinum <- get (λ s, i_inum (inode_at s dp)) ;;
                       l <- dirlink ip [46; 46] dinum ;;
                       ret (negb (l <? 0))
                     else ret true) ;;
              if negb ok then create_fail ip dp else
              l <- dirlink dp name inum ;;
              if l <? 0 then create_fail ip dp else
              when (type =? T_DIR) (add_nlink 1 dp ;; iupdate dp) ;;
              iunlockput dp ;;
              ret (Some ip)
          end
      end
  end.

(** The error exits of sys_open(). *)
Definition sys_open_bad (ip : nat) : K Z := iunlockput ip ;; end_op ;; ret (-1).
(** What sys_open() stores in the new file. *)
Definition open_file (ip : nat) (x : inode) (omode : Z) (f : file) : file :=
  let f := if i_type x =? T_DEVICE then set_f_major (i_major x) (set_f_type FD_DEVICE f)
           else set_f_off 0 (set_f_type FD_INODE f) in
  set_f_writable (bit omode O_WRONLY || bit omode O_RDWR)
    (set_f_readable (negb (bit omode O_WRONLY)) (set_f_ip (Some ip) f)).
(** The rest of sys_open(), with the inode locked. *)
Definition open_inode (ip : nat) (omode : Z) : K Z :=
  x <- get (λ s, inode_at s ip) ;;
  if (i_type x =? T_DEVICE) && ((i_major x <? 0) || (NDEV <=? i_major x)) then sys_open_bad ip else
  o <- filealloc ;;
  match o with
  | None => sys_open_bad ip
  | Some f =>
      fd <- fdalloc f ;;
      if fd <? 0 then fileclose f ;; sys_open_bad ip else
      modify (upd_file f (open_file ip x omode)) ;;
      when (bit omode O_TRUNC && (i_type x =? T_FILE)) (itrunc ip) ;;
      iunlock (Some ip) ;;
      end_op ;;
      ret fd
  end.
Definition sys_open (junk : list Z) : K Z :=
  omode <- argint 1 ;;
  path <- argstr 0 MAXPATH ;;
  match path with
  | None => ret (-1)
  | Some path =>
      begin_op ;;
      if bit omode O_CREATE then
        o <- create junk path T_FILE 0 0 ;;
        match o with
        | None => end_op ;; ret (-1)
        | Some ip => open_inode ip omode
        end
      else
        o <- namei path ;;
        match o with
        | None => end_op ;; ret (-1)
        | Some ip =>
            ilock (Some ip) ;;
            t <- get (λ s, i_type (inode_at s ip)) ;;
            if (t =? T_DIR) && negb (omode =? O_RDONLY) then sys_open_bad ip
            else open_inode ip omode
        end
  end.

Definition sys_mkdir (junk : list Z) : K Z :=
  begin_op ;;
  path <- argstr 0 MAXPATH ;;
  o <- (match path with None => ret None | Some path => create junk path T_DIR 0 0 end) ;;
  match o with
  | None => end_op ;; ret (-1)
  | Some ip => iunlockput ip ;; end_op ;; ret 0
  end.

(** create() takes the numbers as [short]s. *)
Definition sys_mknod (junk : list Z) : K Z :=
  begin_op ;;
  major <- argint 1 ;;
  minor <- argint 2 ;;
  path <- argstr 0 MAXPATH ;;
  o <- (match path with None => ret None | Some path => create junk path T_DEVICE (i16 major) (i16 minor) end) ;;
  match o with
  | None => end_op ;; ret (-1)
  | Some ip => iunlockput ip ;; end_op ;; ret 0
  end.

Definition sys_chdir : K Z :=
  p <- curproc ;;
  begin_op ;;
  path <- argstr 0 MAXPATH ;;
  o <- (match path with None => ret None | Some path => namei path end) ;;
  match o with
  | None => end_op ;; ret (-1)
  | Some ip =>
      ilock (Some ip) ;;
      t <- get (λ s, i_type (inode_at s ip)) ;;
      if negb (t =? T_DIR) then iunlockput ip ;; end_op ;; ret (-1) else
      iunlock (Some ip) ;;
      cwd <- get (λ s, p_cwd (proc_at s p)) ;;
      c <- deref cwd ;;
      iput c ;;
      end_op ;;
      modify (upd_proc p (set_p_cwd (Some ip))) ;;
      ret 0
  end.

(** The loop of sys_exec() that fetches the arguments, [n] entries of [argv] left: the
    pages allocated and the strings in them, and whether it reached the end. *)
Fixpoint fetch_args (n : nat) (uargv i : Z) (pages : list Z) (args : list (list Z))
    : K (list Z * list (list Z) * bool) :=
  match n with
  | O => ret (pages, args, false)
  | S n =>
      o <- fetchaddr (u64 (uargv + 8 * i)) ;;
      match o with
      | None => ret (pages, args, false)
      | Some uarg =>
          if uarg =? 0 then ret (pages, args, true) else
          pg <- kalloc ;;
          if pg =? 0 then ret (pages, args, false) else
          p <- curproc ;;
          pt <- pagetable_of p ;;
          r <- copyinstr pt uarg PGSIZE ;;
          wmem (λ m, write_bytes m pg r.2) ;;
          if r.1 <? 0 then ret (pages ++ [pg], args, false) else
          fetch_args n uargv (i + 1) (pages ++ [pg]) (args ++ [cstr r.2])
      end
  end.
Definition sys_exec : K Z :=
  uargv <- argaddr 1 ;;
  path <- argstr 0 MAXPATH ;;
  match path with
  | None => ret (-1)
  | Some path =>
      r <- fetch_args (Z.to_nat MAXARG) uargv 0 [] [] ;;
      let '(pages, args, ok) := r in
      v <- (if ok : bool then kexec path args else ret (-1)) ;;
      for_each pages kfree ;;
      ret v
  end.

(** Closing both ends again. *)
Definition close_both (rf wf : nat) : K Z := fileclose rf ;; fileclose wf ;; ret (-1).
Definition sys_pipe : K Z :=
  p <- curproc ;;
  fdarray <- argaddr 0 ;;
  o <- pipealloc ;;
  match o with
  | None => ret (-1)
  | Some (rf, wf) =>
      fd0 <- fdalloc rf ;;
      if fd0 <? 0 then close_both rf wf else
      fd1 <- fdalloc wf ;;
      if fd1 <? 0 then set_ofile p (Z.to_nat fd0) None ;; close_both rf wf else
      pt <- pagetable_of p ;;
      r <- copyout pt fdarray (le 4 fd0) ;;
      r <- (if r <? 0 then ret r else copyout pt (u64 (fdarray + 4)) (le 4 fd1)) ;;
      if r <? 0 then
        set_ofile p (Z.to_nat fd0) None ;;
        set_ofile p (Z.to_nat fd1) None ;;
        close_both rf wf
      else ret 0
  end.

(** ** syscall() *)

(** syscalls[], by number. *)
Definition syscalls (junk : nat → list Z) (num : Z) : option (K Z) :=
  nth_default None
    [None; Some sys_fork; Some sys_exit; Some sys_wait; Some sys_pipe; Some sys_read; Some sys_kill;
     Some sys_exec; Some (sys_fstat (junk 0%nat)); Some sys_chdir; Some sys_dup; Some sys_getpid; Some sys_sbrk;
     Some sys_pause; Some sys_uptime; Some (sys_open (junk 0%nat)); Some sys_write; Some (sys_mknod (junk 0%nat));
     Some (sys_unlink (junk 0%nat)); Some (sys_link (junk 0%nat)); Some (sys_mkdir (junk 0%nat)); Some sys_close;
     Some sys_sync; Some (sys_getprocinfo junk); Some sys_getworkload]
    (Z.to_nat num).
Definition NSYSCALLS : Z := 25.
Definition syscall (junk : nat → list Z) : K unit :=
  p <- curproc ;;
  a7 <- get_tf p TF_a7 ;;
  let num := i32 a7 in
  match (if (0 <? num) && (num <? NSYSCALLS) then syscalls junk num else None) with
  | Some f => r <- f ;; set_tf p TF_a0 r
  | None =>
      q <- get (λ s, proc_at s p) ;;
      printk ("%d %s: unknown sys call %d" +:+ newline) [Num (p_pid q); Str (Some (cstr (p_name q))); Num num] ;;
      set_tf p TF_a0 (-1)
  end.
End syscall.
