(* ===== verification/Descr.v ===== *)
(** File descriptors: what it means that the reference counts of open files are exact, and that
    dup() keeps them so. *)
From S2P Require Import Prelude Pstat Kernel Spinlock Sched Cstring Riscv Kalloc Vm ProcMem Sleeplock Uart Bio Log Fs.
From S2P Require Import Console Pipe File Proc Exec Syscall.

(** ** Counting *)

Definition count (f : nat) (l : list (option nat)) : nat := length (filter (λ o, o = Some f) l).

Lemma count_app f l1 l2 : count f (l1 ++ l2) = (count f l1 + count f l2)%nat.
Proof. unfold count. by rewrite filter_app, length_app. Qed.

Lemma count_insert_None f g fd l :
  l !! fd = Some None → count f (<[fd := Some g]> l) = (count f l + if decide (g = f) then 1 else 0)%nat.
Proof.
  intros H. rewrite insert_take_drop by (by eapply lookup_lt_Some).
  rewrite <- (take_drop_middle l fd None H) at 3. rewrite !count_app. unfold count.
  rewrite !filter_cons. destruct (decide (Some g = Some f)), (decide (g = f)); simplify_eq;
    simpl; lia.
Qed.

(** The descriptors of all processes that stand for the file [f]. *)
Definition refs (ps : list proc) (f : nat) : nat := count f (concat (p_ofile <$> ps)).

Lemma refs_update ps p q f h :
  ps !! p = Some q →
  (refs (alter h p ps) f + count f (p_ofile q) = refs ps f + count f (p_ofile (h q)))%nat.
Proof.
  intros H. unfold refs. rewrite <- (take_drop_middle ps p q H) at 2.
  rewrite <- (take_drop_middle (alter h p ps) p (h q)) at 1 by (by rewrite list_lookup_alter_eq, H).
  rewrite !fmap_app, !concat_app, !count_app. simpl. rewrite !count_app.
  rewrite take_alter, drop_alter, !decide_False by lia. lia.
Qed.

(** ** Well-formed descriptor tables *)

Record files_ok (s : kernel) : Prop := {
  fo_tables : Forall (λ q, length (p_ofile q) = NOFILE) (procs s);
  fo_len : length (ftable s) = NFILE;
  fo_valid : ∀ f, (0 < refs (procs s) f)%nat → (f < NFILE)%nat;
  fo_count : ∀ f, (f < NFILE)%nat → f_ref (file_at s f) = Z.of_nat (refs (procs s) f)
}.

Section descr.
Context {img : Image}.

(** ** Operations *)

Lemma env_curproc p s : env p s → curproc s = Ok p (settle s).
Proof. intros []. by apply curproc_ok. Qed.

(** The argument registers. *)
Definition arg (s : kernel) (p : nat) (n : Z) : Z := load64 (mem s) (p_trapframe (proc_at s p) + (TF_a0 + 8 * n)).

Lemma argint_ok p n s : env p s → 0 <= n <= 5 → argint n s = Ok (i32 (arg s p n)) (settle s).
Proof.
  intros He Hn. unfold argint. rewrite (bind_Ok _ _ _ (arg s p n) (settle s)); [done|].
  unfold argraw. rewrite (bind_Ok _ _ _ _ _ (env_curproc p s He)).
  replace ((0 <=? n) && (n <=? 5)) with true by (symmetry; blia). done.
Qed.

(** The file of a descriptor. *)
Definition file_of (s : kernel) (p : nat) (fd : Z) : option nat :=
  if (0 <=? fd) && (fd <? Z.of_nat NOFILE) then mjoin (p_ofile (proc_at s p) !! Z.to_nat fd) else None.

Lemma argfd_ok p n s :
  env p s → 0 <= n <= 5 →
  argfd n s = Ok ((λ f, (i32 (arg s p n), f)) <$> file_of s p (i32 (arg s p n))) (settle s).
Proof.
  intros He Hn. unfold argfd. rewrite (bind_Ok _ _ _ _ _ (argint_ok p n s He Hn)).
  unfold file_of. set (fd := i32 _).
  destruct (0 <=? fd) eqn:E1; [|replace (fd <? 0) with true by (symmetry; lia); done].
  replace (fd <? 0) with false by (symmetry; lia). simpl.
  destruct (fd <? Z.of_nat NOFILE) eqn:E2; [|replace (_ <=? fd) with true by (symmetry; lia); done].
  replace (Z.of_nat NOFILE <=? fd) with false by (symmetry; lia). simpl.
  rewrite (bind_Ok _ _ _ _ _ (env_curproc p _ (env_settle p s He))), settle_idemp. ksteps.
  change (proc_at (settle s) p) with (proc_at s p).
  by destruct (_ !! _) as [[]|].
Qed.

(** The lowest free descriptor. *)
Definition free_fd (s : kernel) (p : nat) : option nat :=
  List.find (λ fd, bool_decide (p_ofile (proc_at s p) !! fd = Some None)) (seq 0 NOFILE).

Definition opened (p fd f : nat) (s : kernel) : kernel :=
  upd_proc p (λ q, set_p_ofile (<[fd := Some f]> (p_ofile q)) q) s.

Lemma fdalloc_ok p f s :
  env p s →
  fdalloc f s = match free_fd s p with
                | Some fd => Ok (Z.of_nat fd) (opened p fd f (settle s))
                | None => Ok (-1) (settle s)
                end.
Proof.
  intros He. unfold fdalloc. rewrite (bind_Ok _ _ _ _ _ (env_curproc p s He)). ksteps.
  change (proc_at (settle s) p) with (proc_at s p). fold (free_fd s p).
  by destruct (free_fd s p).
Qed.

Lemma filedup_ok p f s :
  env p s → 1 <= f_ref (file_at s f) →
  filedup f s = Ok f (upd_file f (set_f_ref (f_ref (file_at s f) + 1)) (settle s)).
Proof.
  intros He Hr. unfold filedup. rewrite (bind_Ok _ _ _ _ _ (env_acquire p s _ He)). ksteps.
  change (file_at (lock_state L_ftable s) f) with (file_at s f).
  replace (f_ref (file_at s f) <? 1) with false by (symmetry; lia). ksteps.
  erewrite bind_Ok.
  2: { apply (env_release p s); try done. simpl. by rewrite (e_locks _ _ He). }
  unfold ret. f_equal. rewrite <- (e_locks _ _ He). by destruct s.
Qed.

(** ** dup() *)

Lemma free_fd_None s p fd : free_fd s p = Some fd → p_ofile (proc_at s p) !! fd = Some None.
Proof.
  unfold free_fd. intros E. pose proof (find_seq (λ fd, bool_decide (p_ofile (proc_at s p) !! fd = Some None)) NOFILE) as H.
  rewrite E in H. destruct H as (_ & H & _). by apply bool_decide_eq_true in H.
Qed.

Lemma procs_at s p : (p < length (procs s))%nat → procs s !! p = Some (proc_at s p).
Proof. intros H. unfold proc_at. by destruct (lookup_lt_is_Some_2 _ _ H) as [q ->]. Qed.

Lemma refs_opened s p fd f g :
  (p < length (procs s))%nat → p_ofile (proc_at s p) !! fd = Some None →
  refs (procs (opened p fd f s)) g = (refs (procs s) g + if decide (f = g) then 1 else 0)%nat.
Proof.
  intros Hp H. pose proof (refs_update (procs s) p (proc_at s p) g
    (λ q, set_p_ofile (<[fd := Some f]> (p_ofile q)) q) (procs_at s p Hp)) as E.
  simpl in E. rewrite (count_insert_None _ _ _ _ H) in E. unfold opened, upd_proc. simpl. lia.
Qed.

(** A file that a descriptor stands for is counted. *)
Lemma refs_pos s p fd f :
  (p < length (procs s))%nat → file_of s p fd = Some f → (0 < refs (procs s) f)%nat.
Proof.
  intros Hp. unfold file_of. destruct (_ && _); [|done]. intros H.
  assert (Hin : Some f ∈ concat (p_ofile <$> procs s)).
  { apply list_elem_of_In, in_concat. exists (p_ofile (proc_at s p)). split; apply list_elem_of_In.
    - apply list_elem_of_fmap. exists (proc_at s p). split; [done|].
      by eapply list_elem_of_lookup_2, procs_at.
    - destruct (_ !! Z.to_nat fd) as [[g|]|] eqn:E; simpl in H; try done.
      injection H as ->. by eapply list_elem_of_lookup_2. }
  unfold refs, count. assert (H' : Some f ∈ filter (λ o, o = Some f) (concat (p_ofile <$> procs s)))
    by (by apply list_elem_of_filter).
  destruct (filter _ _); [by apply elem_of_nil in H' | simpl; lia].
Qed.

(** ** Properties *)

Lemma files_ok_dup s p fd f :
  files_ok s → (p < length (procs s))%nat → p_ofile (proc_at s p) !! fd = Some None → (f < NFILE)%nat →
  files_ok (upd_file f (set_f_ref (f_ref (file_at s f) + 1)) (opened p fd f s)).
Proof.
  intros [H1 H2 H3 H4] Hp Hn Hf.
  assert (Hr : ∀ g, refs (procs (opened p fd f s)) g = (refs (procs s) g + if decide (f = g) then 1 else 0)%nat)
    by (intros; by apply refs_opened).
  constructor; simpl.
  - apply Forall_alter; [done|]. intros q _ Hq. simpl. by rewrite length_insert.
  - by rewrite length_alter.
  - intros g. rewrite Hr. destruct (decide (f = g)) as [->|]; [done|]. rewrite Nat.add_0_r. apply H3.
  - intros g Hg. rewrite Hr. unfold file_at. simpl. destruct (decide (f = g)) as [->|Hne].
    + rewrite list_lookup_alter_eq. destruct (lookup_lt_is_Some_2 (ftable s) g) as [x Hx]; [lia|].
      rewrite Hx. simpl. specialize (H4 g Hg). unfold file_at in H4. rewrite Hx in H4. simpl in H4. lia.
    + rewrite list_lookup_alter_ne by done. rewrite Nat.add_0_r. by apply H4.
Qed.

(** C13: dup() keeps descriptor tables well-formed. If the reference count of every open file is
    the number of descriptors that stand for it, in all processes, it still is after dup(). Given an
    open descriptor and a free one, dup() makes the lowest free descriptor stand for the same file;
    otherwise it returns -1 and changes neither descriptors nor files. The panic of filedup()
    is not reached. *)
Theorem dup_keeps_refcounts p s :
  env p s → (p < length (procs s))%nat → files_ok s →
  ∃ r s', sys_dup s = Ok r s' ∧ files_ok s'
    ∧ match file_of s p (i32 (arg s p 0)), free_fd s p with
      | Some f, Some fd =>
          r = Z.of_nat fd ∧ p_ofile (proc_at s' p) = <[fd := Some f]> (p_ofile (proc_at s p))
          ∧ (∀ q, q ≠ p → proc_at s' q = proc_at s q)
          ∧ f_ref (file_at s' f) = f_ref (file_at s f) + 1
      | _, _ => r = -1 ∧ procs s' = procs s ∧ ftable s' = ftable s
      end.
Proof.
  intros He Hp Hok. unfold sys_dup.
  rewrite (bind_Ok _ _ _ _ _ (argfd_ok p 0 s He ltac:(lia))).
  destruct (file_of s p _) as [f|] eqn:Ef; simpl.
  2: { exists (-1), (settle s). split; [done|]. split; [by destruct Hok | done]. }
  assert (Hpos : (0 < refs (procs s) f)%nat) by (by eapply refs_pos).
  assert (Hf : (f < NFILE)%nat) by (by apply (fo_valid s Hok)).
  pose proof (fdalloc_ok p f _ (env_settle p s He)) as Ea. rewrite settle_idemp in Ea.
  change (free_fd (settle s) p) with (free_fd s p) in Ea.
  destruct (free_fd s p) as [fd|] eqn:Efd; unfold bind at 1; rewrite Ea; cbn [rbind].
  2: { exists (-1), (settle s). split; [done|]. split; [by destruct Hok | done]. }
  rewrite (proj2 (Z.ltb_ge (Z.of_nat fd) 0)) by lia.
  set (s1 := opened p fd f (settle s)).
  assert (He1 : env p s1).
  { destruct He. constructor; try done. simpl. by rewrite length_alter. }
  assert (Hc : f_ref (file_at s1 f) = Z.of_nat (refs (procs s) f)) by (by apply (fo_count s Hok)).
  rewrite (bind_Ok _ _ _ _ _ (filedup_ok p f s1 He1 ltac:(lia))).
  assert (Es : settle s1 = s1) by (unfold s1, settle; simpl; by rewrite settled_idemp).
  rewrite Es. do 2 eexists. split; [reflexivity|]. split.
  - apply (files_ok_dup (settle s)); try done; [by destruct Hok | by apply free_fd_None].
  - split; [done|]. split_and!.
    + change (p_ofile (proc_at s1 p) = <[fd := Some f]> (p_ofile (proc_at s p))).
      unfold s1, opened. by rewrite (proc_at_upd p _ (settle s)).
    + intros q Hq. unfold proc_at. simpl. by rewrite list_lookup_alter_ne.
    + unfold file_at. simpl. rewrite list_lookup_alter_eq.
      destruct (lookup_lt_is_Some_2 (ftable s) f) as [x ->]; [by rewrite (fo_len s Hok) | done].
Qed.
End descr.

(** Process 0 has descriptor 0 on file 0 and asks for a second one. *)
Definition fd_demo : kernel :=
  set_ftable (File FD_NONE 1 false false 0 None 0 0 :: replicate 99 (File FD_NONE 0 false false 0 None 0 0))
    (set_procs (set_p_ofile (Some 0%nat :: replicate 15 None) null_proc :: replicate 63 null_proc)
      (set_cur (Cpu (Some 0%nat) 0 false true) null_kernel)).

Lemma dup_keeps_refcounts_witness : ∃ s', sys_dup fd_demo = Ok 1 s' ∧ files_ok s'.
Proof.
  destruct (dup_keeps_refcounts 0 fd_demo) as (r & s' & E & Hok & H).
  - constructor; [split; simpl; lia | reflexivity | reflexivity | vm_compute; lia].
  - vm_compute. lia.
  - assert (Hr : ∀ f, refs (procs fd_demo) f = if decide (f = 0%nat) then 1%nat else 0%nat).
    { intros [|f]; reflexivity. }
    constructor.
    + apply (bool_decide_unpack _). vm_compute. exact I.
    + reflexivity.
    + intros [|f]; rewrite Hr; [vm_compute; lia | simpl; lia].
    + intros [|f] Hf; rewrite Hr; [reflexivity|]. unfold NFILE in Hf.
      change (f_ref (default null_file (replicate 99 (File FD_NONE 0 false false 0 None 0 0) !! f)) = 0).
      rewrite lookup_replicate_2 by lia. reflexivity.
  - exists s'. assert (Hf : file_of fd_demo 0 (i32 (arg fd_demo 0 0)) = Some 0%nat) by (vm_compute; reflexivity).
    assert (Hn : free_fd fd_demo 0 = Some 1%nat) by (vm_compute; reflexivity).
    rewrite Hf, Hn in H. destruct H as (-> & _). split; [exact E | exact Hok].
Defined.
