(* ===== verification/Trap.v ===== *)
(** Traps: kernel/trap.c, the interrupt controller (kernel/plic.c) and forkret() of
    kernel/proc.c.

    The control registers are [csr]; the interrupt-enable bit of sstatus is [c_sie].
    The registers of the interrupt controller are words of [mem]; what the claim register
    holds when a trap comes is the device's choice. *)
From S2P Require Import Prelude Pstat Kernel Spinlock Sched Cstring Riscv Kalloc Vm ProcMem Sleeplock Uart Bio Log Fs.
From S2P Require Import Console Pipe Virtio File Proc Exec Syscall.

Section trap.
Context {img : Image}.

Definition SSTATUS_SPP : Z := 256.
Definition SSTATUS_SPIE : Z := 32.

Definition cpuid : K nat := get hartid.
Definition csr_get (f : csrs → Z) : K Z := get (λ s, f (csr s)).
Definition csr_put (f : csrs → csrs) : K unit := modify (λ s, set_csr (f (csr s)) s).

(** ** kernel/plic.c *)

Definition PLIC_SENABLE (hart : Z) : Z := PLIC + 8320 + hart * 256.
Definition PLIC_SPRIORITY (hart : Z) : Z := PLIC + 2101248 + hart * 8192.
Definition PLIC_SCLAIM (hart : Z) : Z := PLIC + 2101252 + hart * 8192.

Definition plicinit : K unit :=
  wmem (λ m, store32 m (PLIC + UART0_IRQ * 4) 1) ;;
  wmem (λ m, store32 m (PLIC + VIRTIO0_IRQ * 4) 1).
Definition plicinithart : K unit :=
  hart <- cpuid ;;
  wmem (λ m, store32 m (PLIC_SENABLE (Z.of_nat hart))
               (Z.lor (Z.shiftl 1 UART0_IRQ) (Z.shiftl 1 VIRTIO0_IRQ))) ;;
  wmem (λ m, store32 m (PLIC_SPRIORITY (Z.of_nat hart)) 0).
Definition plic_claim : K Z :=
  hart <- cpuid ;;
  irq <- get (λ s, load32 (mem s) (PLIC_SCLAIM (Z.of_nat hart))) ;;
  ret (i32 irq).
Definition plic_complete (irq : Z) : K unit :=
  hart <- cpuid ;;
  wmem (λ m, store32 m (PLIC_SCLAIM (Z.of_nat hart)) irq).

(** ** kernel/trap.c *)

Definition trapinit : K unit := initlock L_ticks.
Definition trapinithart : K unit := csr_put (set_r_stvec kernelvec).

Definition clockintr : K unit :=
  id <- cpuid ;;
  when (bool_decide (id = 0%nat))
    (acquire L_ticks ;;
     modify (λ s, set_ticks (u32 (ticks s + 1)) s) ;;
     wakeup Ch_ticks ;;
     release L_ticks ;;
     clock_tick_accounting) ;;
  csr_put (λ c, set_r_stimecmp (u64 (r_time c + 1000000)) c).

Definition EXTERNAL : Z := 2 ^ 63 + 9.
Definition TIMER : Z := 2 ^ 63 + 5.
Definition devintr : K Z :=
  scause <- csr_get r_scause ;;
  if scause =? EXTERNAL then
    irq <- plic_claim ;;
    (if irq =? UART0_IRQ then uartintr
     else if irq =? VIRTIO0_IRQ then virtio_disk_intr
     else when (negb (irq =? 0)) (printk ("unexpected interrupt irq=%d" +:+ newline) [Num irq])) ;;
    when (negb (irq =? 0)) (plic_complete irq) ;;
    ret 1
  else if scause =? TIMER then clockintr ;; ret 2
  else ret 0.

(** The block at the end of usertrap() and kerneltrap(). *)
Definition charge_tick (p : nat) : K unit :=
  should_yield <- locked (L_proc p)
    (m <- get (λ s, p_mt (proc_at s p)) ;;
     modify (upd_proc p (set_p_mt (tick_account m).1)) ;;
     ret (tick_account m).2) ;;
  when should_yield yield.

Definition prepare_return : K unit :=
  p <- curproc ;;
  intr_off ;;
  csr_put (set_r_stvec (TRAMPOLINE + (uservec - trampoline))) ;;
  satp <- csr_get r_satp ;;
  set_tf p TF_kernel_satp satp ;;
  kstack <- get (λ s, p_kstack (proc_at s p)) ;;
  set_tf p TF_kernel_sp (u64 (kstack + PGSIZE)) ;;
  set_tf p TF_kernel_trap usertrap_addr ;;
  hart <- cpuid ;;
  set_tf p TF_kernel_hartid (Z.of_nat hart) ;;
  csr_put (λ c, set_r_sstatus (Z.lor (Z.land (r_sstatus c) (2 ^ 64 - 1 - SSTATUS_SPP)) SSTATUS_SPIE) c) ;;
  epc <- get_tf p TF_epc ;;
  csr_put (set_r_sepc epc).

(** What usertrap() does about the cause of the trap; the result is [which_dev]. *)
Definition handle_cause (junk : nat → list Z) (p : nat) : K Z :=
  scause <- csr_get r_scause ;;
  if scause =? 8 then
    k <- killed p ;;
    when (negb (k =? 0)) (kexit (-1)) ;;
    epc <- get_tf p TF_epc ;;
    set_tf p TF_epc (u64 (epc + 4)) ;;
    intr_on ;;
    syscall junk ;;
    ret 0
  else
    which_dev <- devintr ;;
    if negb (which_dev =? 0) then ret which_dev else
    stval <- csr_get r_stval ;;
    pt <- pagetable_of p ;;
    pa <- (if (scause =? 15) || (scause =? 13) then vmfault pt stval (scause =? 13) else ret 0) ;;
    if negb (pa =? 0) then ret 0 else
    pid <- get (λ s, p_pid (proc_at s p)) ;;
    printk ("usertrap(): unexpected scause 0x%lx pid=%d" +:+ newline) [Num scause; Num pid] ;;
    sepc <- csr_get r_sepc ;;
    printk ("            sepc=0x%lx stval=0x%lx" +:+ newline) [Num sepc; Num stval] ;;
    setkilled p ;;
    ret 0.
Definition usertrap (junk : nat → list Z) : K Z :=
  sstatus <- csr_get r_sstatus ;;
  if bit sstatus SSTATUS_SPP then panic "usertrap: not from user mode" else
  csr_put (set_r_stvec kernelvec) ;;
  p <- curproc ;;
  sepc <- csr_get r_sepc ;;
  set_tf p TF_epc sepc ;;
  which_dev <- handle_cause junk p ;;
  k <- killed p ;;
  when (negb (k =? 0)) (kexit (-1)) ;;
  when (which_dev =? 2) (charge_tick p) ;;
  prepare_return ;;
  pt <- pagetable_of p ;;
  ret (MAKE_SATP pt).

Definition kerneltrap : K unit :=
  sepc <- csr_get r_sepc ;;
  sstatus <- csr_get r_sstatus ;;
  scause <- csr_get r_scause ;;
  if negb (bit sstatus SSTATUS_SPP) then panic "kerneltrap: not from supervisor mode" else
  sie <- intr_get ;;
  if sie : bool then panic "kerneltrap: interrupts enabled" else
  which_dev <- devintr ;;
  if which_dev =? 0 then
    stval <- csr_get r_stval ;;
    sepc <- csr_get r_sepc ;;
    printk ("scause=0x%lx sepc=0x%lx stval=0x%lx" +:+ newline) [Num scause; Num sepc; Num stval] ;;
    panic "kerneltrap"
  else
  me <- myproc ;;
  (match me with Some p => when (which_dev =? 2) (charge_tick p) | None => ret tt end) ;;
  csr_put (set_r_sepc sepc) ;;
  csr_put (set_r_sstatus sstatus) ;;
  modify (upd_cur (set_c_sie sie)).

(** ** forkret()

    [first] is its static variable, false once a process has been through here; the
    result is the argument of userret, the user page table. *)
Definition forkret (first : bool) : K Z :=
  p <- curproc ;;
  release (L_proc p) ;;
  when first
    (fsinit ROOTDEV ;;
     r <- kexec (chars "/init") [chars "/init"] ;;
     set_tf p TF_a0 r ;;
     a0 <- get_tf p TF_a0 ;;
     when (a0 =? 2 ^ 64 - 1) (panic "exec")) ;;
  prepare_return ;;
  pt <- pagetable_of p ;;
  ret (MAKE_SATP pt).
End trap.
