(* ===== verification/Boot.v ===== *)
(** The order of initialisation: main() of kernel/main.c, on the first hart and on the
    others. *)
From S2P Require Import Prelude Pstat Kernel Spinlock Sched Cstring Riscv Kalloc Vm ProcMem Sleeplock Uart Bio Log Fs.
From S2P Require Import Console Pipe Virtio File Proc Exec Syscall Trap.

Section boot.
Context {img : Image}.

(** [started] is what the other harts read; [fuel] bounds the endless loop of scheduler(). *)
Definition main (started : bool) (fuel : nat) : K unit :=
  id <- cpuid ;;
  (if bool_decide (id = 0%nat) then
     consoleinit ;;
     printkinit ;;
     printk newline [] ;;
     printk ("xv6 kernel is booting" +:+ newline) [] ;;
     printk newline [] ;;
     kinit ;;
     kvminit ;;
     kvminithart ;;
     procinit ;;
     trapinit ;;
     trapinithart ;;
     plicinit ;;
     plicinithart ;;
     binit ;;
     iinit ;;
     fileinit ;;
     virtio_disk_init ;;
     userinit
   else if negb started then hang
   else
     printk ("hart %d starting" +:+ newline) [Num (Z.of_nat id)] ;;
     kvminithart ;;
     trapinithart ;;
     plicinithart) ;;
  scheduler fuel.
End boot.
