(* ===== verification/Hogs.v ===== *)
(** How long a process that computes waits for another one: the scheduler, the trap
    handler and the clock together, on one hart.

    Two processes never leave user mode of their own accord; every other process is asleep or
    absent. A turn is one iteration of scheduler() with the whole time slice of the process
    it dispatches: the return to user mode, the timer interrupts taken by usertrap(), and the
    yield() at the end of the slice. *)
From S2P Require Import Prelude Pstat Kernel Spinlock Sched Cstring Riscv Kalloc Vm ProcMem Sleeplock Uart Bio Log Fs.
From S2P Require Import Console Pipe File Proc Exec Syscall Trap.

Section hogs.
Context {img : Image}.

(** ** Turns *)

(** The trap hardware on a timer interrupt in user mode. *)
Definition timer (u : kernel) : kernel :=
  set_csr (set_r_scause TIMER (set_r_sstatus 0 (csr u))) (upd_cur (set_c_sie false) u).

(** A thread: what a process does when it is switched in, up to user mode. *)
Definition thread := kernel → res Z.

(** [p] computes in user mode from [u] until a timer interrupt takes the CPU from it. *)
Inductive computes (junk : nat → list Z) : kernel → kernel → thread → Prop :=
| computes_on u v u1 s k :
    usertrap junk (timer u) = Ok v u1 → computes junk u1 s k → computes junk u s k
| computes_out u s k :
    usertrap junk (timer u) = Swtch s k → computes junk u s k.

Definition threads := nat → thread.
Definition turn (junk : nat → list Z) (p : nat) (c c' : threads * kernel) : Prop :=
  ∃ s1 k v u s2 k',
    scheduler_iter c.2 = Swtch s1 k ∧ c_proc (cur s1) = Some p
    ∧ c.1 p s1 = Ok v u ∧ computes junk u s2 k'
    ∧ k s2 = Ok tt c'.2 ∧ c'.1 = λ q, if decide (q = p) then k' else c.1 q.

(** A sequence of steps [R], with their labels. *)
Inductive turns {C : Type} (R : nat → C → C → Prop) : list nat → C → C → Prop :=
| turns_nil c : turns R [] c c
| turns_cons p l c c1 c' : R p c c1 → turns R l c1 c' → turns R (p :: l) c c'.

(** The return to user mode. *)
Definition finish (p : nat) : K Z :=
  prepare_return ;;
  pt <- pagetable_of p ;;
  ret (MAKE_SATP pt).
(** A thread that yield() switched out at the end of usertrap(). *)
Definition resume (p : nat) : thread :=
  modify (upd_cur (set_c_intena false)) ;;
  release (L_proc p) ;;
  finish p.

(** ** The metrics of a process that never sleeps *)

Lemma heal_frame t m :
  let m' := apply_self_healing t m in
  waitticks m' = waitticks m ∧ proc_type m' = proc_type m
  ∧ est_burst m' = est_burst m ∧ current_burst m' = current_burst m.
Proof.
  unfold apply_self_healing, heal_thrashing, heal_surge, heal_starvation, heal_record.
  repeat (case_match; simplify_eq); simpl; done.
Qed.

Lemma clock_account_frame t m :
  let m' := clock_account t m in
  waitticks m' = u64 (waitticks m + 1) ∧ proc_type m' = proc_type m
  ∧ est_burst m' = est_burst m ∧ current_burst m' = current_burst m.
Proof.
  unfold clock_account. cbv zeta. destruct (_ && _); [|done].
  match goal with |- context [apply_self_healing t ?x] =>
    pose proof (heal_frame t x) as (-> & -> & -> & ->) end.
  destruct (70 <=? _); simpl; done.
Qed.

(** ** The clock interrupt *)

(** What a tick does to the table while [me] runs. *)
Definition ticked (me : option nat) (t : Z) (i : nat) (p : proc) : proc :=
  aged t (woken me Ch_ticks i p).

Definition clock_state (s : kernel) : kernel :=
  let t := u32 (ticks s + 1) in
  set_csr (set_r_stimecmp (u64 (r_time (csr s) + 1000000)) (csr s))
    (set_procs (imap (ticked (c_proc (cur s)) t) (procs s)) (set_ticks t (settle s))).

Lemma clockintr_ok s :
  table_free s → lock_free s → hartid s = 0%nat → locks s !! L_ticks = None →
  length (procs s) = NPROC → clockintr s = Ok tt (clock_state s).
Proof.
  intros [Hok Hf] Hn Hh Hl Hlen. unfold lock_free in Hn.
  unfold clockintr, cpuid. ksteps. rewrite bool_decide_true by done.
  set (t := u32 (ticks s + 1)).
  rewrite (bind_Ok _ _ _ tt (set_procs (imap (ticked (c_proc (cur s)) t) (procs s))
    (set_ticks t (settle s)))); [by ksteps|].
  rewrite (bind_Ok _ _ _ _ _ (acquire_ok _ s Hl)). ksteps.
  set (s1 := set_ticks t (lock_state L_ticks s)).
  assert (H1 : table_free s1).
  { split; [by apply cpu_ok_pushed|]. intros i Hi. simpl. rewrite lookup_insert_ne by done. auto. }
  rewrite (bind_Ok _ _ _ _ _ (wakeup_ok Ch_ticks s1 H1 ltac:(simpl; lia))).
  erewrite bind_Ok.
  2: { apply (release_ok _ _ (cur s)); [done | simpl; by apply settled_pushed |].
       simpl. by rewrite lookup_insert_eq. }
  simpl. rewrite delete_insert_id by done.
  rewrite clock_tick_accounting_ok.
  - f_equal. cbn [procs set_procs ticks set_cur set_locks settle]. simpl.
    rewrite (imap_const (aged t)), fmap_imap. unfold settle. simpl.
    rewrite settled_idemp. by destruct s.
  - split; [by apply cpu_ok_settled | done].
  - simpl. rewrite length_imap. lia.
Qed.

(** ** A timer interrupt in user mode *)

(** [p] runs in the kernel on its own account and holds no lock. *)
Record runs (p : nat) (u : kernel) : Prop := {
  ru_table : table_free u;
  ru_free : lock_free u;
  ru_proc : c_proc (cur u) = Some p;
  ru_slot : (p < NPROC)%nat;
  ru_hart : hartid u = 0%nat;
  ru_ticks : locks u !! L_ticks = None;
  ru_len : length (procs u) = NPROC;
  ru_killed : p_killed (proc_at u p) = 0
}.

(** The end of usertrap(), from the timer block on. *)
Definition after_tick (p : nat) : K Z := charge_tick p ;; finish p.

Lemma killed_ok p s :
  runs p s → killed p s = Ok 0 (settle s).
Proof.
  intros []. unfold killed. rewrite (locked_proc p _ id 0 s); [| done..|].
  - unfold upd_proc. rewrite alter_id_at by done. by rewrite set_procs_id.
  - unfold get, upd_proc. rewrite alter_id_at, set_procs_id by done.
    f_equal. done.
Qed.

Lemma p_killed_ticked me t i q : p_killed (ticked me t i q) = p_killed q.
Proof. unfold ticked, aged, woken. by repeat case_match. Qed.

Lemma proc_at_imap h s0 s i :
  procs s = imap h (procs s0) → (i < length (procs s0))%nat →
  proc_at s i = h i (proc_at s0 i).
Proof.
  intros E Hi. unfold proc_at. rewrite E, list_lookup_imap.
  by destruct (lookup_lt_is_Some_2 _ _ Hi) as [q ->].
Qed.

Lemma handle_timer junk p s :
  r_scause (csr s) = TIMER → clockintr s = Ok tt (clock_state s) →
  handle_cause junk p s = Ok 2 (clock_state s).
Proof.
  intros Hc E. unfold handle_cause, csr_get. ksteps. rewrite Hc.
  change (TIMER =? 8) with false. cbv iota.
  rewrite (bind_Ok _ _ _ 2 (clock_state s)); [done|].
  unfold devintr, csr_get. ksteps. rewrite Hc.
  change (TIMER =? EXTERNAL) with false. change (TIMER =? TIMER) with true. cbv iota.
  by rewrite (bind_Ok _ _ _ _ _ E).
Qed.

Lemma usertrap_timer junk p u :
  runs p u →
  ∃ u1, usertrap junk (timer u) = after_tick p u1 ∧ runs p u1 ∧ c_sie (cur u1) = false
    ∧ ticks u1 = u32 (ticks u + 1) ∧ locks u1 = locks u
    ∧ procs u1 = imap (ticked (Some p) (ticks u1)) (procs u).
Proof.
  intros [[Hok Hf] Hn Hc Hp Hh Hl Hlen Hk]. unfold lock_free in Hn.
  set (x := set_csr (set_r_stvec kernelvec (csr (timer u))) (timer u)).
  set (u2 := set_mem (store64 (mem x) (p_trapframe (proc_at x p) + TF_epc) (r_sepc (csr x))) (settle x)).
  assert (H2 : runs p (clock_state u2)).
  { constructor; simpl; try done.
    - split; [|done]. split; simpl; [lia | done].
    - by rewrite length_imap.
    - rewrite (proc_at_imap (ticked (Some p) (u32 (ticks u + 1))) u); [| by simpl; rewrite Hc | lia].
      by rewrite p_killed_ticked. }
  exists (settle (clock_state u2)). split; [|split].
  - unfold usertrap, csr_get, csr_put. ksteps. simpl. ksteps. fold x.
    rewrite (bind_Ok _ _ _ _ _ (curproc_ok x p ltac:(split; simpl; [lia | done]) Hc)).
    unfold set_tf. ksteps. change (bind ?m ?k _) with (bind m k u2).
    rewrite (bind_Ok _ _ _ 2 (clock_state u2)).
    2: { apply handle_timer; [done|]. apply clockintr_ok; try done.
         split; [|done]. split; simpl; [lia | done]. }
    rewrite (bind_Ok _ _ _ _ _ (killed_ok p _ H2)).
    change (negb (0 =? 0)) with false. change (2 =? 2) with true. cbv iota.
    rewrite (bind_Ok (ret tt) _ _ tt _ eq_refl). unfold after_tick, finish. reflexivity.
  - destruct H2 as [[]]. by constructor.
  - split_and!; simpl; try done. by rewrite Hc.
Qed.

(** [s'] is [s] but for memory, control registers and the interrupt state. *)
Definition same_run (p : nat) (s s' : kernel) : Prop :=
  runs p s' ∧ procs s' = procs s ∧ ticks s' = ticks s ∧ locks s' = locks s.

(** A run that ends with the process where [s] had it. *)
Definition keeps {A} (p : nat) (s : kernel) (r : res A) : Prop :=
  ∃ v s', r = Ok v s' ∧ same_run p s s'.

(** Steps that touch memory or the control registers only. *)
Definition quiet_step (g : kernel → kernel) : Prop :=
  ∀ x, procs (g x) = procs x ∧ ticks (g x) = ticks x ∧ locks (g x) = locks x
     ∧ hartid (g x) = hartid x ∧ c_proc (cur (g x)) = c_proc (cur x)
     ∧ c_noff (cur (g x)) = c_noff (cur x) ∧ (c_sie (cur x) = false → c_sie (cur (g x)) = false).

Lemma quiet_run p s x g : quiet_step g → same_run p s x → same_run p s (g x).
Proof.
  intros Hg ([[Hok Hf] Hn Hc Hp Hh Hl Hlen Hk] & E1 & E2 & E3).
  destruct (Hg x) as (G1 & G2 & G3 & G4 & G5 & G6 & G7). unfold lock_free in Hn.
  split_and!; [|congruence..].
  constructor; rewrite ?G1, ?G3, ?G4, ?G5; try done.
  - split; [|by rewrite G3]. unfold cpu_ok. rewrite G6, Hn. lia.
  - unfold lock_free. by rewrite G6.
  - unfold proc_at. by rewrite G1.
Qed.

Lemma keeps_modify {A} p s x g (k : unit → K A) :
  quiet_step g → same_run p s x → (∀ x', same_run p s x' → keeps p s (k tt x')) →
  keeps p s (bind (modify g) k x).
Proof. intros Hg Hx Hk. ksteps. apply Hk. by apply quiet_run. Qed.

Lemma prepare_return_ok p s : runs p s → keeps p s (prepare_return s).
Proof.
  intros Hs. assert (H0 : same_run p s (settle s)) by (apply (quiet_run _ _ s settle); done).
  destruct Hs as [[Hok _] _ Hc _ _ _ _ _]. unfold prepare_return.
  rewrite (bind_Ok _ _ _ _ _ (curproc_ok s p Hok Hc)).
  unfold intr_off, csr_put, csr_get, set_tf, get_tf, cpuid. revert H0. generalize (settle s) as x.
  intros x Hx.
  repeat (apply keeps_modify; [done | done | clear x Hx; intros x Hx; rewrite ?bind_get; cbv beta]).
  by exists tt, x.
Qed.

Lemma finish_ok p s : runs p s → keeps p s (finish p s).
Proof.
  intros Hs. destruct (prepare_return_ok p s Hs) as ([] & s' & E & Hs').
  unfold finish. rewrite (bind_Ok _ _ _ _ _ E). unfold pagetable_of. ksteps.
  do 2 eexists. split; [reflexivity | done].
Qed.
(** ** Turns of a process that computes *)

(** [k] takes a process that the scheduler switched in back to user mode. *)
Definition returns (p : nat) (k : thread) : Prop :=
  ∀ s, handover p s → c_proc (cur s) = Some p → hartid s = 0%nat → (p < NPROC)%nat →
    length (procs s) = NPROC → p_killed (proc_at s p) = 0 →
    locks s = {[L_proc p := 0%nat]} →
    ∃ v u, k s = Ok v u ∧ runs p u ∧ procs u = procs s ∧ ticks u = ticks s ∧ locks u = ∅.

Lemma release_runs p s i :
  handover p s → c_proc (cur s) = Some p → hartid s = 0%nat → (p < NPROC)%nat →
  length (procs s) = NPROC → p_killed (proc_at s p) = 0 → locks s = {[L_proc p := 0%nat]} →
  runs p (set_cur (Cpu (c_proc (cur s)) 0 i i) (set_locks (delete (L_proc p) (locks s)) s)).
Proof.
  intros Hh Hc H0 Hp Hlen Hk Hl.
  assert (delete (L_proc p) (locks s) = ∅) as E by (rewrite Hl; apply delete_singleton_eq).
  constructor; simpl; rewrite ?E; try done.
Qed.

Lemma resume_returns p : returns p (resume p).
Proof.
  intros s Hh Hc H0 Hp Hlen Hk Hl. unfold resume. ksteps.
  set (s1 := upd_cur (set_c_intena false) s).
  rewrite (bind_Ok _ _ _ _ _ (release_handover p s1 Hh)).
  destruct (finish_ok p _ (release_runs p s false Hh Hc H0 Hp Hlen Hk Hl))
    as (v & u & E & Hu & E1 & E2 & E3).
  exists v, u. split_and!; [exact E | done..|]. rewrite E3. simpl. rewrite Hl.
  apply delete_singleton_eq.
Qed.

(** The process entry after the timer block. *)
Definition charged (q : proc) : proc := set_p_mt (tick_account (p_mt q)).1 q.

(** The timer block up to yield(). *)
Lemma charge_ok p s :
  runs p s →
  charge_tick p s = (if (tick_account (p_mt (proc_at s p))).2 then yield else ret tt)
                      (upd_proc p charged (settle s))
  ∧ runs p (upd_proc p charged (settle s)).
Proof.
  intros [Hf Hn Hc Hp Hh Hl Hlen Hk]. split.
  - unfold charge_tick.
    rewrite (bind_Ok _ _ _ (tick_account (p_mt (proc_at s p))).2 (upd_proc p charged (settle s))); [done|].
    apply locked_proc; [done..|]. ksteps. unfold ret. f_equal. apply upd_proc_ext.
    intros q Hq. unfold charged. unfold proc_at. simpl in *. by rewrite Hq.
  - constructor; try done; simpl; rewrite ?length_alter; try done.
    rewrite proc_at_upd by (simpl; lia). done.
Qed.

(** One timer interrupt in user mode: the tick, and the switch at the end of the slice. *)
Lemma timer_tick junk p u :
  runs p u → locks u = ∅ →
  let t := u32 (ticks u + 1) in
  let ps := alter charged p (imap (ticked (Some p) t) (procs u)) in
  if (tick_account (p_mt (ticked (Some p) t p (proc_at u p)))).2
  then ∃ s k, usertrap junk (timer u) = Swtch s k ∧ handover p s ∧ hartid s = 0%nat
         ∧ ticks s = t ∧ locks s = {[L_proc p := 0%nat]} ∧ returns p k
         ∧ procs s = alter (switched_out RUNNABLE t) p ps
  else ∃ v u', usertrap junk (timer u) = Ok v u' ∧ runs p u' ∧ locks u' = ∅
         ∧ ticks u' = t ∧ procs u' = ps.
Proof.
  intros Hu Hl t ps. destruct (usertrap_timer junk p u Hu) as (u1 & E & Hu1 & Hs & Ht & El & Ep).
  assert (Eq : proc_at u1 p = ticked (Some p) t p (proc_at u p)).
  { apply (proc_at_imap _ u); [by rewrite Ep, Ht|]. destruct Hu. lia. }
  destruct (charge_ok p u1 Hu1) as [Ec Hu2]. rewrite Eq in Ec.
  assert (Ep2 : procs (upd_proc p charged (settle u1)) = ps) by (simpl; by rewrite Ep, Ht).
  set (u2 := upd_proc p charged (settle u1)) in *.
  set (b := (tick_account _).2) in *.
  assert (Ea : usertrap junk (timer u) = rbind ((if b then yield else ret tt) u2) (λ _, finish p)).
  { rewrite E. unfold after_tick, bind. by rewrite Ec. }
  rewrite Ea. clear E Ec Ea.
  assert (Hl2 : locks u2 = ∅) by (simpl; congruence).
  assert (Ht2 : ticks u2 = t) by done.
  assert (Hs2 : c_sie (cur u2) = false) by done. clearbody u2 b. destruct b.
  - pose proof (ru_len _ _ Hu2) as Hlen. pose proof (ru_slot _ _ Hu2) as Hp.
    pose proof (ru_free _ _ Hu2) as Hn. unfold lock_free in Hn.
    destruct (yield_ok u2 p) as (k & -> & Hk); try apply Hu2; [lia | done |].
    do 2 eexists. split; [reflexivity|]. split_and!; simpl.
    + unfold handover. simpl. by rewrite lookup_insert_eq, Hn.
    + apply Hu2.
    + done.
    + rewrite (ru_hart _ _ Hu2), Hl2. done.
    + intros s Hh Hc H0 Hp' Hlen' Hk' Hls. rewrite (Hk s Hh). simpl. rewrite Hs2.
      destruct (finish_ok p _ (release_runs p s false Hh Hc H0 Hp' Hlen' Hk' Hls))
        as (v & u' & E & Hu' & E1 & E2 & E3).
      exists v, u'. split_and!; [exact E | done..|]. rewrite E3. simpl. rewrite Hls.
      apply delete_singleton_eq.
    + by rewrite Ep2, Ht2.
  - simpl. destruct (finish_ok p u2 Hu2) as (v & u' & E & Hu' & E1 & E2 & E3).
    exists v, u'. split_and!; [exact E | done | congruence..].
Qed.

(** ** Three kinds of process *)

(** Computing since it last slept, for at least nine ticks. *)
Definition hog (e : Z) (m : metrics) : Prop :=
  proc_type m = PROC_TYPE_CPU_BOUND ∧ est_burst m = e ∧ 9 <= e < 2 ^ 30
  ∧ 0 <= current_burst m <= e.

(** RUNNABLE for [w] ticks. *)
Definition ready (w e : Z) (q : proc) : Prop :=
  p_state q = RUNNABLE ∧ p_killed q = 0 ∧ hog e (p_mt q) ∧ waitticks (p_mt q) = w ∧ 0 <= w < 2 ^ 30.
(** RUNNING, [j] ticks into a slice of four. *)
Definition busy (j e : Z) (q : proc) : Prop :=
  p_state q = RUNNING ∧ p_killed q = 0 ∧ hog e (p_mt q) ∧ waitticks (p_mt q) = 0
  ∧ time_slice (p_mt q) = 4 ∧ ticks_in_slice (p_mt q) = j.
(** Neither ready nor waiting for the clock. *)
Definition idle (q : proc) : Prop :=
  p_state q ≠ RUNNABLE ∧ sleeping_on Ch_ticks q = false.

Lemma ready_ticked p t i w e q :
  i ≠ p → w + 1 < 2 ^ 30 → ready w e q → ready (w + 1) e (ticked (Some p) t i q).
Proof.
  intros Hi Hb (Hs & Hk & (Ht & He & Hr & Hc) & Hw & Hw0). unfold ticked, woken.
  rewrite bool_decide_false by congruence. unfold sleeping_on. rewrite Hs. simpl.
  unfold aged. rewrite Hs. simpl. unfold ready, hog, upd_mt. simpl.
  destruct (clock_account_frame t (p_mt q)) as (-> & -> & -> & ->).
  rewrite Hw, u64_small by lia. split_and!; try done; lia.
Qed.

Lemma idle_ticked p t i q : idle q → idle (ticked (Some p) t i q).
Proof.
  intros [H1 H2]. unfold ticked, woken. rewrite H2. unfold aged.
  destruct (bool_decide (Some p = Some i)); rewrite bool_decide_false by done; done.
Qed.

Lemma busy_ticked p t j e q : busy j e q → ticked (Some p) t p q = q.
Proof.
  intros (Hs & _). unfold ticked, woken. rewrite bool_decide_true by done. unfold aged.
  by rewrite Hs.
Qed.

Lemma busy_charged j e q :
  0 <= j < 4 → e + 1 < 2 ^ 30 → busy j e q →
  ∃ e', e <= e' <= e + 1 ∧ hog e' (p_mt (charged q)) ∧ waitticks (p_mt (charged q)) = 0
    ∧ (tick_account (p_mt q)).2 = (j =? 3)
    ∧ (j < 3 → busy (j + 1) e' (charged q)).
Proof.
  intros Hj Hb (Hs & Hk & (Ht & He & Hr & Hc) & Hw & Hsl & Hti).
  unfold charged, busy, hog, tick_account. simpl.
  rewrite Hti, (u32_small (j + 1)), (u32_small (current_burst (p_mt q) + 1)), He by lia.
  exists (Z.max e (current_burst (p_mt q) + 1)).
  assert (Hcl : classify_burst_rt (current_burst (p_mt q) + 1) = PROC_TYPE_CPU_BOUND
                ∨ current_burst (p_mt q) + 1 <= e).
  { unfold classify_burst_rt, CPU_BOUND_BURST_THRESH. destruct (8 <=? _) eqn:E; [by left | right; lia]. }
  destruct (e <? current_burst (p_mt q) + 1) eqn:E; simpl; rewrite Hsl;
    (destruct (4 <=? j + 1) eqn:E4; simpl; split_and!; intros; repeat split; try done; try lia;
     try (destruct Hcl; [done | lia]); symmetry; lia).
Qed.

Lemma ready_switched e t q :
  hog e (p_mt q) → waitticks (p_mt q) = 0 → p_killed q = 0 →
  ready 0 e (switched_out RUNNABLE t q).
Proof.
  intros (Ht & He & Hr & Hc) Hw Hk. unfold ready, hog, switched_out, sched_account. simpl.
  replace (est_burst (p_mt q) <? current_burst (p_mt q)) with false by (symmetry; lia).
  simpl. split_and!; try done; lia.
Qed.
(** ** A turn *)

(** [p] is as [P] says, [o] as [Q] says, and everybody else is idle. *)
Definition scene (p o : nat) (P Q : proc → Prop) (s : kernel) : Prop :=
  P (proc_at s p) ∧ Q (proc_at s o) ∧ ∀ i, (i < NPROC)%nat → i ≠ p → i ≠ o → idle (proc_at s i).

(** A step that updates every entry on its own, and [p] once more. *)
Lemma proc_at_alter_imap f h p s0 s i :
  procs s = alter f p (imap h (procs s0)) → (i < length (procs s0))%nat →
  proc_at s i = (if decide (i = p) then f else id) (h i (proc_at s0 i)).
Proof.
  intros E Hi. unfold proc_at. rewrite E.
  destruct (lookup_lt_is_Some_2 _ _ Hi) as [q Hq].
  destruct (decide (i = p)) as [->|Hne].
  - rewrite list_lookup_alter_eq, list_lookup_imap, Hq. done.
  - rewrite list_lookup_alter_ne, list_lookup_imap, Hq by done. done.
Qed.

Lemma scene_step p o (P Q P' Q' : proc → Prop) f h s0 s :
  procs s = alter f p (imap h (procs s0)) → length (procs s0) = NPROC →
  p ≠ o → (p < NPROC)%nat → (o < NPROC)%nat → scene p o P Q s0 →
  (∀ q, P q → P' (f (h p q))) → (∀ q, Q q → Q' (h o q)) → (∀ i q, idle q → idle (h i q)) →
  scene p o P' Q' s.
Proof.
  intros E Hlen Hne Hp Ho (H1 & H2 & H3) HP HQ HI.
  split_and!.
  - rewrite (proc_at_alter_imap f h p s0 s p E) by lia. rewrite decide_True by done. by apply HP.
  - rewrite (proc_at_alter_imap f h p s0 s o E) by lia. rewrite decide_False by done. by apply HQ.
  - intros i Hi Hip Hio. rewrite (proc_at_alter_imap f h p s0 s i E) by lia.
    rewrite decide_False by done. apply HI. by apply H3.
Qed.

(** The rest of a slice, [j] ticks into it. *)
Lemma computes_slice junk p o eo n :
  p ≠ o → (o < NPROC)%nat →
  ∀ j u w e, j + Z.of_nat n = 3 → 0 <= j → e + 4 - j < 2 ^ 30 → w + 4 - j < 2 ^ 30 →
  runs p u → locks u = ∅ → scene p o (busy j e) (ready w eo) u →
  ∃ s k e', computes junk u s k ∧ handover p s ∧ hartid s = 0%nat ∧ locks s = {[L_proc p := 0%nat]}
    ∧ returns p k ∧ length (procs s) = NPROC ∧ e <= e' <= e + 4 - j
    ∧ ticks s = u32 (ticks u + (4 - j))
    ∧ scene p o (ready 0 e') (ready (w + 4 - j) eo) s.
Proof.
  intros Hne Ho. induction n as [|n IH]; intros j u w e Hj Hj0 Hb Hw Hu Hl Hsc;
    pose proof (timer_tick junk p u Hu Hl) as Ht; pose proof (ru_len _ _ Hu) as Hlen;
    pose proof (ru_slot _ _ Hu) as Hp; destruct Hsc as (HP & HQ & HI);
    cbv zeta in Ht; rewrite (busy_ticked _ _ _ _ _ HP) in Ht;
    destruct (busy_charged j e (proc_at u p)) as (e' & He & Hh & Hwt & Hy & Hbusy); try done; try lia;
    rewrite Hy in Ht.
  - assert (j = 3) as -> by lia. simpl in Ht.
    destruct Ht as (s & k & E & Hho & H0 & Htk & Hls & Hret & Hps).
    exists s, k, e'. split_and!; try done; try lia.
    + by apply computes_out.
    + by rewrite Hps, !length_alter, length_imap.
    + rewrite list_alter_alter_eq in Hps. replace (w + 4 - 3) with (w + 1) by lia.
      eapply (scene_step p o (λ q, q = proc_at u p) (ready w eo)); try done.
      * intros q ->. rewrite (busy_ticked _ _ _ _ _ HP). apply ready_switched; [done..|].
        by destruct HP as (_ & ? & _).
      * intros q. apply ready_ticked; [done | lia].
      * intros i q. apply idle_ticked.
  - rewrite (proj2 (Z.eqb_neq j 3)) in Ht by lia. destruct Ht as (v & u' & E & Hu' & Hl' & Htk & Hps).
    destruct (IH (j + 1) u' (w + 1) e') as (s & k & e2 & Hc & H1 & H2 & H3 & H4 & H5 & H6 & Htk' & H7);
      try done; try lia.
    + eapply (scene_step p o (λ q, q = proc_at u p) (ready w eo)); try done.
      * intros q ->. rewrite (busy_ticked _ _ _ _ _ HP). apply Hbusy. lia.
      * intros q. apply ready_ticked; [done | lia].
      * intros i q. apply idle_ticked.
    + exists s, k, e2. replace (w + 4 - j) with (w + 1 + 4 - (j + 1)) by lia.
      split_and!; try done; try lia; [by apply (computes_on _ _ v u')|].
      rewrite Htk', Htk, u32_add_l. f_equal. lia.
Qed.

(** Between turns: the two processes are ready and can be taken up again. *)
Definition waiting (p o : nat) (wp ep wo eo : Z) (c : threads * kernel) : Prop :=
  sched_idle c.2 ∧ hartid c.2 = 0%nat ∧ locks c.2 = ∅
  ∧ returns p (c.1 p) ∧ returns o (c.1 o)
  ∧ scene p o (ready wp ep) (ready wo eo) c.2.

Lemma ready_ranked w e q : ready w e q → ready w e (ranked q).
Proof. unfold ranked. intros H. pose proof H as (-> & _). by rewrite bool_decide_true. Qed.
Lemma idle_ranked q : idle q → idle (ranked q).
Proof. intros [H1 H2]. unfold ranked. by rewrite bool_decide_false. Qed.
Lemma busy_dispatched w e t q : ready w e q → busy 0 e (dispatched t (ranked q)).
Proof.
  intros H. apply ready_ranked in H. destruct H as (Hs & Hk & (Ht & He & Hr & Hc) & Hw & _).
  unfold busy, hog, dispatched, dispatch_account, calc_time_slice, upd_mt. simpl. by rewrite Ht.
Qed.

Lemma turn_ok junk p o wp ep wo eo c :
  p ≠ o → (p < NPROC)%nat → (o < NPROC)%nat → ep + 4 < 2 ^ 30 → wo + 4 < 2 ^ 30 →
  waiting p o wp ep wo eo c → (pick c.2).1 = Some p →
  ∃ c' ep', turn junk p c c' ∧ ep <= ep' <= ep + 4 ∧ ticks c'.2 = u32 (ticks c.2 + 4)
    ∧ waiting p o 0 ep' (wo + 4) eo c'.
Proof.
  intros Hne Hp Ho He Hw (Hidle & Hh & Hl & Hrp & Hro & Hsc) Hpick.
  destruct c as [T s]; simpl in *.
  destruct (scheduler_iter_pick s p Hidle Hpick) as (k & E & Hk).
  pose proof Hidle as (Hn & _ & Hlen). unfold lock_free in Hn.
  set (s1 := upd_cur _ _) in E.
  assert (H1 : handover p s1) by (by apply (dispatch_handover (ranked_state s))).
  assert (Hsc1 : scene p o (busy 0 ep) (ready wo eo) s1).
  { apply (scene_step p o (ready wp ep) (ready wo eo) _ _ (dispatched (ticks s)) (λ _, ranked) s);
      try done; intros *; eauto using busy_dispatched, ready_ranked, idle_ranked. }
  destruct (Hrp s1) as (v & u & Eu & Hu & Pu & Tu & Lu); try done.
  { unfold s1. simpl. by rewrite length_alter, length_imap. }
  { by destruct Hsc1 as ((_ & ? & _) & _). }
  { unfold s1. simpl. by rewrite Hl, Hh. }
  destruct (computes_slice junk p o eo 3 Hne Ho 0 u wo ep) as (s2 & k' & e' & Hc & H2 & H0 & L2 & Hr2 & Len2 & He' & Ht2 & Hsc2);
    try done; try lia.
  { unfold scene, proc_at. rewrite Pu. apply Hsc1. }
  exists (λ q, if decide (q = p) then k' else T q, set_cur (Cpu None 0 (c_intena (cur s2)) (c_intena (cur s2)))
           (set_locks (delete (L_proc p) (locks s2)) s2)), e'.
  assert (Ld : delete (L_proc p) (locks s2) = ∅) by (rewrite L2; apply delete_singleton_eq).
  split_and!; [|lia..| |].
  - exists s1, k, v, u, s2, k'. split_and!; try done. by apply Hk.
  - simpl. by rewrite Ht2, Tu.
  - unfold waiting. simpl. rewrite decide_True, decide_False, Ld by done.
    replace (wo + 4) with (wo + 4 - 0) by lia. split_and!; try done.
Qed.

(** ** The choice between the two *)

Lemma prio_ready w e q :
  ready w e q → calc_dynamic_priority (p_mt q) = Z.max 1 (Z.min 100 (10 + 2 * w - e)).
Proof.
  intros (_ & _ & (Ht & He & Hr & _) & Hw & Hb). unfold calc_dynamic_priority. rewrite Ht, He, Hw.
  unfold PRIO_BASE_CPU_BOUND, AGING_WEIGHT, BURST_PENALTY_WEIGHT, MIN_PRIORITY, MAX_PRIORITY.
  rewrite u64_small, u32_small by lia. rewrite (i32_small (w * 2)), (i32_small (e * 1)) by lia.
  rewrite i32_small by lia. cbv zeta. split_ifs; lia.
Qed.

Lemma pick_first p o P Q s :
  scene p o P Q s → (p < NPROC)%nat → p_state (proc_at s p) = RUNNABLE →
  (prio_at s o < prio_at s p ∨ (prio_at s o = prio_at s p ∧ (p < o)%nat)) →
  (pick s).1 = Some p.
Proof.
  intros (_ & _ & HI) Hp Hr Hprio. pose proof (pick_best s) as Hb. unfold best_of in Hb.
  destruct (pick s).1 as [i|].
  - destruct Hb as (Hi & Hir & _ & Hmax). specialize (Hmax p Hp Hr).
    destruct (decide (i = p)) as [->|Hip]; [done|].
    destruct (decide (i = o)) as [->|Hio]; [lia|].
    by destruct (HI i Hi Hip Hio).
  - destruct Hb as [_ Hnone]. by destruct (Hnone p Hp).
Qed.

(** Runs are determined by where they start. *)
Lemma computes_det junk u s k s' k' : computes junk u s k → computes junk u s' k' → s = s' ∧ k = k'.
Proof.
  intros H. revert s' k'. induction H as [u v u1 s k E _ IH|u s k E]; intros s' k' H';
    inversion H' as [? v' u2 ? ? F Hc|? ? ? F]; subst; rewrite E in F; simplify_eq; [by apply IH | done].
Qed.
Lemma turn_det junk p q c c1 c2 : turn junk p c c1 → turn junk q c c2 → p = q ∧ c1 = c2.
Proof.
  intros (s1 & k & v & u & s2 & k' & E1 & E2 & E3 & E4 & E5 & E6)
         (s1' & k0 & v' & u' & s2' & k0' & F1 & F2 & F3 & F4 & F5 & F6).
  rewrite E1 in F1. simplify_eq. rewrite E3 in F3. simplify_eq.
  destruct (computes_det _ _ _ _ _ _ E4 F4) as [-> ->].
  split; [done|]. destruct c1, c2; simpl in *. congruence.
Qed.
Lemma turns_det junk l1 l2 c c1 c2 :
  turns (turn junk) l1 c c1 → turns (turn junk) l2 c c2 → (length l1 <= length l2)%nat → l1 `prefix_of` l2.
Proof.
  intros H. revert l2 c2. induction H as [c|p l c d c' Ht _ IH]; intros l2 c2 H2 Hlen.
  - apply prefix_nil.
  - inversion H2 as [|q l' ? d' ? Ht' H2']; subst; simpl in Hlen; [lia|].
    destruct (turn_det _ _ _ _ _ _ Ht Ht') as [-> <-]. apply prefix_cons, (IH l' c2); [done | lia].
Qed.

(** ** Properties *)

Lemma waiting_prio p o wp ep wo eo c :
  waiting p o wp ep wo eo c →
  prio_at c.2 p = Z.max 1 (Z.min 100 (10 + 2 * wp - ep))
  ∧ prio_at c.2 o = Z.max 1 (Z.min 100 (10 + 2 * wo - eo)) ∧ 9 <= ep < 2 ^ 30 ∧ 9 <= eo < 2 ^ 30.
Proof.
  intros (_ & _ & _ & _ & _ & Hp & Ho & _). split_and!.
  1,2: by apply prio_ready.
  all: destruct Hp as (_ & _ & (_ & _ & ? & _) & _), Ho as (_ & _ & (_ & _ & ? & _) & _); lia.
Qed.

Lemma waiting_sym p o wp ep wo eo c : waiting p o wp ep wo eo c → waiting o p wo eo wp ep c.
Proof.
  intros (H1 & H2 & H3 & H4 & H5 & Hp & Ho & HI). split_and!; [done..|].
  split_and!; try done. intros i Hi Hio Hip. by apply HI.
Qed.

(** While [b] has not waited for half its burst, [a] goes on. *)
Lemma turns_of_lower junk a b eb n :
  (a < b)%nat → (b < NPROC)%nat →
  ∀ ea w c, waiting a b 0 ea w eb c → ea + 4 * Z.of_nat n < 2 ^ 30 →
  2 * w + 8 * Z.of_nat n <= eb - 1 → 
  ∃ c' ea', turns (turn junk) (replicate n a) c c' ∧ u32 (ticks c'.2) = u32 (ticks c.2 + 4 * Z.of_nat n)
    ∧ ea' <= ea + 4 * Z.of_nat n ∧ waiting a b 0 ea' (w + 4 * Z.of_nat n) eb c'.
Proof.
  intros Hab Hb. induction n as [|n IH]; intros ea w c Hc He Hw.
  - exists c, ea. replace (w + 4 * Z.of_nat 0) with w by lia.
    replace (ticks c.2 + 4 * Z.of_nat 0) with (ticks c.2) by lia.
    split_and!; [apply turns_nil | done | lia | done].
  - destruct (waiting_prio _ _ _ _ _ _ _ Hc) as (Pa & Pb & Ea & Eb).
    pose proof Hc as (_ & _ & _ & _ & _ & Hsc). pose proof Hsc as ((Hr & _) & (_ & _ & _ & _ & Hw0) & _).
    destruct (turn_ok junk a b 0 ea w eb c) as (c1 & e1 & Ht & He1 & Hk & Hc1); try done; try lia.
    { apply (pick_first a b _ _ _ Hsc); [lia | done | lia]. }
    destruct (IH e1 (w + 4) c1) as (c2 & e2 & Hts & Hk2 & He2 & Hc2); [done | lia | lia |].
    exists c2, e2. replace (w + 4 * Z.of_nat (S n)) with (w + 4 + 4 * Z.of_nat n) by lia.
    split_and!; [by apply (turns_cons _ _ _ _ c1) | | lia | done].
    rewrite Hk2, Hk, u32_add_l. f_equal. lia.
Qed.

Lemma turns_snoc junk l p c c1 c' : turns (turn junk) l c c1 → turn junk p c1 c' → turns (turn junk) (l ++ [p]) c c'.
Proof.
  intros H Hp. induction H as [c|q l c d c1 Hq _ IH]; simpl.
  - apply (turns_cons _ _ _ _ c'); [done | apply turns_nil].
  - apply (turns_cons _ _ _ _ d); [done | by apply IH].
Qed.

(** C12: how long one computing process keeps another from the CPU. Two processes that only
    compute share a hart, [a] in the lower slot, and [b], whose burst estimate is [eb], has just become
    ready. In every run the scheduler gives [a] the next (eb-1)/8 turns of four ticks, and
    then [b] runs: [b] is not starved, but its wait is half its own burst estimate, which has no
    bound for a process that does not sleep. *)
Theorem hog_wait junk a b ea eb c :
  (a < b)%nat → (b < NPROC)%nat → ea + eb < 2 ^ 29 → waiting a b 0 ea 0 eb c →
  let n := Z.to_nat ((eb - 1) / 8) in
  (∃ c', turns (turn junk) (replicate n a ++ [b]) c c'
     ∧ ticks c'.2 = u32 (ticks c.2 + 4 * Z.of_nat (S n)))
  ∧ ∀ l c', turns (turn junk) l c c' → (length l <= n)%nat → l = replicate (length l) a.
Proof.
  intros Hab Hb He Hc n. destruct (waiting_prio _ _ _ _ _ _ _ Hc) as (_ & _ & Ea & Eb).
  assert (Hn : 8 * Z.of_nat n <= eb - 1 < 8 * Z.of_nat n + 8).
  { unfold n. rewrite Z2Nat.id by dlia. dlia. }
  clearbody n.
  destruct (turns_of_lower junk a b eb n Hab Hb ea 0 c) as (c1 & e1 & Hts & Hk & He1 & Hc1);
    [done | lia | lia |].
  destruct (waiting_prio _ _ _ _ _ _ _ Hc1) as (Pa & Pb & Ea1 & _).
  apply waiting_sym in Hc1. pose proof Hc1 as (_ & _ & _ & _ & _ & Hsc). pose proof Hsc as ((Hr & _) & _).
  destruct (turn_ok junk b a (0 + 4 * Z.of_nat n) eb 0 e1 c1) as (c2 & e2 & Ht & _ & Hk2 & _);
    try done; try lia.
  { apply (pick_first b a _ _ _ Hsc); [lia | done | lia]. }
  assert (Hrun : turns (turn junk) (replicate n a ++ [b]) c c2) by (by apply (turns_snoc _ _ _ _ c1)).
  split.
  - exists c2. split; [done|]. rewrite Hk2, <- u32_add_l, Hk, u32_add_l. f_equal. lia.
  - intros l c' Hl Hlen.
    destruct (turns_det _ _ _ _ _ _ Hl Hts) as [l' E]; [by rewrite length_replicate|].
    symmetry. apply replicate_as_elem_of. split; [done|]. intros x Hx.
    assert (Hin : x ∈ replicate n a) by (rewrite E; apply elem_of_app; by left).
    by apply elem_of_replicate in Hin as [-> _].
Qed.
End hogs.

(** Slots 2 and 3 compute, with a burst estimate of 20 each. *)
Definition hog_proc : proc :=
  set_p_mt (set_proc_type PROC_TYPE_CPU_BOUND (set_est_burst 20 null_metrics))
    (set_p_state RUNNABLE null_proc).
Definition hog_demo : kernel :=
  set_procs ([null_proc; null_proc; hog_proc; hog_proc] ++ replicate 60 null_proc) null_kernel.

Lemma hog_demo_waiting : waiting 2 3 0 20 0 20 (resume (img := sample_image), hog_demo).
Proof.
  assert (Hr : ready 0 20 hog_proc) by (repeat split; simpl; lia).
  assert (Hi : idle null_proc) by done.
  assert (Hs : sched_idle hog_demo).
  { split; [done|]. split; [|done]. split; [split; simpl; lia | intros; apply lookup_empty]. }
  split; [exact Hs|]. split; [reflexivity|]. split; [reflexivity|].
  split; [exact (resume_returns (img := sample_image) 2)|].
  split; [exact (resume_returns (img := sample_image) 3)|].
  split; [exact Hr|]. split; [exact Hr|].
  intros i Hi64 H2 H3. unfold proc_at, hog_demo. cbn [procs set_procs snd].
  destruct i as [|[|[|[|i]]]]; try done. unfold NPROC in Hi64.
  change (idle (default null_proc (replicate 60 null_proc !! i))).
  rewrite lookup_replicate_2 by lia. exact Hi.
Qed.

(** Slot 3 gets the CPU after two turns of slot 2, twelve ticks from the start. *)
Lemma hog_wait_witness :
  ∃ c', turns (turn (img := sample_image) (λ _, [])) [2; 2; 3]%nat
          (resume (img := sample_image), hog_demo) c'
        ∧ ticks c'.2 = 12.
Proof.
  destruct (hog_wait (img := sample_image) (λ _, []) 2 3 20 20 (resume (img := sample_image), hog_demo))
    as [(c' & H & Ht) _].
  - lia.
  - unfold NPROC. lia.
  - lia.
  - exact hog_demo_waiting.
  - exists c'. split; [exact H | rewrite Ht; reflexivity].
Defined.
