(* ===== verification/Ulib.v ===== *)
(** What a user program is written against: the system calls of user/user.h, as an interface
    to be implemented by a kernel, the effects of a program, and the library routines of
    user/ulib.c. *)
From S2P Require Import Prelude Cstring Kernel.

(** ** System calls (user/user.h)

    The calls that act on the rest of the system take and return a [world]. A call that fails
    returns -1. [sys_read] also returns the bytes it stored at the caller's buffer, and
    [sys_fstat], [sys_getprocinfo] and [sys_getworkload] those of the structs. The interface leaves out the calls that create or
    replace a process, which do not return in the way of a function. *)
Class Os := {
  world : Type;
  sys_open : list Z → Z → world → Z * world;
  sys_close : Z → world → Z * world;
  sys_read : Z → Z → world → (Z * list Z) * world;
  sys_write : Z → list Z → world → Z * world;
  sys_fstat : Z → world → (Z * list Z) * world;
  sys_sbrk : Z → Z → world → Z * world;
  sys_link : list Z → list Z → world → Z * world;
  sys_unlink : list Z → world → Z * world;
  sys_mkdir : list Z → world → Z * world;
  sys_kill : Z → world → Z * world;
  sys_sync : world → Z * world;
  sys_pause : Z → world → Z * world;
  sys_getpid : world → Z * world;
  sys_getprocinfo : Z → world → (Z * list Z) * world;
  sys_getworkload : world → (Z * list Z) * world
}.

(** The pointer of value -1. *)
Definition SBRK_ERROR : Z := 2 ^ 64 - 1.

(** ** The effects of a program

    A program has its own memory and acts on the world. It returns, it exits with a status, it
    does something the C language leaves undefined, or it is still running when the [fuel] that
    bounds its loops is spent. *)
Section effects.
Context `{os : Os}.

Record ustate := Ustate { umem : memory; uworld : world }.
Inductive ures (A : Type) :=
| Done (a : A) (s : ustate) | Exited (status : Z) (s : ustate) | Undefined | Running.
Definition U (A : Type) : Type := ustate → ures A.
End effects.
#[global] Arguments Done {os A} a s.
#[global] Arguments Exited {os A} status s.
#[global] Arguments Undefined {os A}.
#[global] Arguments Running {os A}.

Section monad.
Context `{os : Os}.

Definition ureturn {A} (a : A) : U A := λ s, Done a s.
Definition ubind {A B} (m : U A) (k : A → U B) : U B := λ s,
  match m s with
  | Done a s => k a s
  | Exited n s => Exited n s
  | Undefined => Undefined
  | Running => Running
  end.
Definition exit {A} (status : Z) : U A := λ s, Exited status s.
Definition undefined {A} : U A := λ _, Undefined.
Definition running {A} : U A := λ _, Running.
Definition umemory : U memory := λ s, Done (umem s) s.
Definition on_memory (f : memory → memory) : U unit := λ s, Done tt (Ustate (f (umem s)) (uworld s)).
Definition on_world {A} (f : world → A * world) : U A := λ s,
  let '(a, w) := f (uworld s) in Done a (Ustate (umem s) w).
End monad.

Declare Scope user_scope.
Delimit Scope user_scope with U.
Notation "x <~ m ;; k" := (ubind m (λ x, k))
  (at level 100, m at level 99, k at level 200, right associativity) : user_scope.
Notation "m ;;~ k" := (ubind m (λ _, k)) (at level 100, k at level 200, right associativity) : user_scope.
Open Scope user_scope.

Section calls.
Context `{os : Os}.
Definition open_ (path : list Z) (omode : Z) : U Z := on_world (sys_open path omode).
Definition close (fd : Z) : U Z := on_world (sys_close fd).
(** [read] stores at the address [a], [write] sends [n] bytes from [a]. *)
Definition read (fd a n : Z) : U Z :=
  r <~ on_world (sys_read fd n) ;; on_memory (λ m, write_bytes m a r.2) ;;~ ureturn r.1.
Definition write (fd a n : Z) : U Z :=
  m <~ umemory ;; on_world (sys_write fd (read_bytes m a (Z.to_nat n))).
(** The same for a local array or a literal, which a program never has two names for. *)
Definition read_local (fd n : Z) : U (Z * list Z) := on_world (sys_read fd n).
Definition write_local (fd : Z) (l : list Z) : U Z := on_world (sys_write fd l).
End calls.

(** ** user/ulib.c *)

Fixpoint strcpy_loop (fuel : nat) (m : memory) (s t : Z) : option memory :=
  match fuel with
  | O => None
  | S fuel =>
      let m' := upd m s (m t) in
      if m t =? 0 then Some m' else strcpy_loop fuel m' (s + 1) (t + 1)
  end.
Definition strcpy (fuel : nat) (m : memory) (s t : Z) : option memory := strcpy_loop fuel m s t.

Fixpoint strcmp (fuel : nat) (m : memory) (p q : Z) : option Z :=
  match fuel with
  | O => None
  | S fuel =>
      if negb (m p =? 0) && (m p =? m q) then strcmp fuel m (p + 1) (q + 1)
      else Some (u8 (m p) - u8 (m q))
  end.

Fixpoint strlen (fuel : nat) (m : memory) (s : Z) : option Z :=
  match fuel with
  | O => None
  | S fuel => if m s =? 0 then Some 0 else (λ n, n + 1) <$> strlen fuel m (s + 1)
  end.

Definition memset (m : memory) (dst c n : Z) : memory := memset_loop (Z.to_nat (u32 n)) m dst c.

(** The address of the character, or 0. *)
Fixpoint strchr (fuel : nat) (m : memory) (s c : Z) : option Z :=
  match fuel with
  | O => None
  | S fuel =>
      if m s =? 0 then Some 0 else if m s =? c then Some s else strchr fuel m (s + 1) c
  end.

(** Signed overflow is undefined. *)
Fixpoint atoi_loop (fuel : nat) (m : memory) (s n : Z) : option Z :=
  match fuel with
  | O => None
  | S fuel =>
      if (48 <=? m s) && (m s <=? 57) then
        if (n * 10 <=? 2 ^ 31 - 1) && (n * 10 + m s <=? 2 ^ 31 - 1) then
          atoi_loop fuel m (s + 1) (n * 10 + m s - 48)
        else None
      else Some n
  end.
Definition atoi (fuel : nat) (m : memory) (s : Z) : option Z := atoi_loop fuel m s 0.

(** The two copying loops are those of the kernel's memmove(); the test between them is not. *)
Definition memmove (m : memory) (vdst vsrc n : Z) : memory :=
  if vdst <? vsrc then move_up (Z.to_nat n) m vdst vsrc
  else move_down (Z.to_nat n) m (vdst + n) (vsrc + n).

Definition memcmp (m : memory) (s1 s2 n : Z) : Z := memcmp_loop (Z.to_nat (u32 n)) m s1 s2.
Definition memcpy (m : memory) (dst src n : Z) : memory := memmove m dst src (i32 n).

Section ulib.
Context `{os : Os}.

(** [for (i = 0; i + 1 < max;) ...], from [i]; the result is the final [i]. *)
Fixpoint gets_loop (fuel : nat) (buf max i : Z) : U Z :=
  match fuel with
  | O => running
  | S fuel =>
      if i + 1 <? max then
        r <~ read_local 0 1 ;;
        if r.1 <? 1 then ureturn i
        else
          let c := nth 0 r.2 0 in
          on_memory (λ m, upd m (buf + i) c) ;;~
          if (c =? 10) || (c =? 13) then ureturn (i + 1) else gets_loop fuel buf max (i + 1)
      else ureturn i
  end.
Definition gets (fuel : nat) (buf max : Z) : U Z :=
  i <~ gets_loop fuel buf max 0 ;;
  on_memory (λ m, upd m (buf + i) 0) ;;~
  ureturn buf.

Definition stat (n : list Z) : U (Z * list Z) :=
  fd <~ open_ n O_RDONLY ;;
  if fd <? 0 then ureturn (-1, [])
  else
    r <~ on_world (sys_fstat fd) ;;
    close fd ;;~
    ureturn r.

Definition sbrk (n : Z) : U Z := on_world (sys_sbrk n SBRK_EAGER).
Definition sbrklazy (n : Z) : U Z := on_world (sys_sbrk n SBRK_LAZY).

(** The start() of ulib.c, which exec() enters. *)
Definition start (main : list (list Z) → U Z) (argv : list (list Z)) : U unit :=
  r <~ main argv ;; exit r.
End ulib.

(** The characters of the C string at [s]. *)
Fixpoint cstring (fuel : nat) (m : memory) (s : Z) : option (list Z) :=
  match fuel with
  | O => None
  | S fuel => if m s =? 0 then Some [] else (λ l, m s :: l) <$> cstring fuel m (s + 1)
  end.

(** ** Strings in memory *)

(** The bytes [l] are at [a]. *)
Definition holds (m : memory) (a : Z) (l : list Z) : Prop :=
  ∀ i c, l !! i = Some c → m (a + Z.of_nat i) = c.

Lemma holds_nil m a : holds m a [].
Proof. intros i c Hi. by rewrite lookup_nil in Hi. Qed.
Lemma holds_app m a l1 l2 :
  holds m a (l1 ++ l2) ↔ holds m a l1 ∧ holds m (a + Z.of_nat (length l1)) l2.
Proof.
  split.
  - intros H. split; intros i c Hi.
    + apply H. by apply lookup_app_l_Some.
    + rewrite <- Z.add_assoc, <- Nat2Z.inj_add. apply H.
      rewrite lookup_app_r by lia. by replace (length l1 + i - length l1)%nat with i by lia.
  - intros [H1 H2] i c Hi. apply lookup_app_Some in Hi as [Hi|[Hge Hi]]; [by apply H1|].
    specialize (H2 _ _ Hi). by replace (a + Z.of_nat i)
      with (a + Z.of_nat (length l1) + Z.of_nat (i - length l1)) by lia.
Qed.
Lemma holds_cons m a c l : holds m a (c :: l) ↔ m a = c ∧ holds m (a + 1) l.
Proof.
  change (c :: l) with ([c] ++ l). rewrite holds_app. split; intros [H1 H2]; split.
  - specialize (H1 0%nat c eq_refl). by rewrite Z.add_0_r in H1.
  - done.
  - intros i c' Hi. apply list_lookup_singleton_Some in Hi as [-> <-]. by rewrite Z.add_0_r.
  - done.
Qed.
Lemma holds_ext m m' a l :
  holds m a l → (∀ x, a <= x < a + Z.of_nat (length l) → m' x = m x) → holds m' a l.
Proof.
  intros H He i c Hi. rewrite He; [by apply H|]. apply lookup_lt_Some in Hi. lia.
Qed.
Lemma holds_write m a l : Forall (λ c, 0 <= c < 2 ^ 8) l → holds (write_bytes m a l) a l.
Proof.
  intros Hl i c Hi. rewrite (write_bytes_lookup _ _ _ _ c) by done.
  rewrite Forall_lookup in Hl. apply u8_small. by eapply Hl.
Qed.
Lemma holds_read m a l : holds m a l → read_bytes m a (length l) = l.
Proof.
  intros H. apply list_eq. intros i. destruct (decide (i < length l)%nat) as [Hi|Hi].
  - rewrite read_bytes_lookup by done. destruct (l !! i) as [c|] eqn:E.
    + by rewrite (H i c).
    + apply lookup_ge_None in E. lia.
  - rewrite !lookup_ge_None_2; [done| |]; rewrite ?length_read_bytes; lia.
Qed.

Lemma cstring_holds fuel m s l :
  holds m s (l ++ [0]) → Forall (λ x, x ≠ 0) l → (length l < fuel)%nat → cstring fuel m s = Some l.
Proof.
  revert s l. induction fuel as [|fuel IH]; intros s l H Hl Hf; [lia|]. cbn [cstring].
  destruct l as [|c l]; cbn [app] in H; apply holds_cons in H as [Hc H]; rewrite Hc.
  - done.
  - apply Forall_cons in Hl as [Hne Hl]. simpl in Hf.
    rewrite (proj2 (Z.eqb_neq c 0)) by done. by rewrite (IH _ l) by (done || lia).
Qed.
Lemma strchr_found fuel m s l c :
  holds m s (l ++ [c]) → Forall (λ x, x ≠ 0 ∧ x ≠ c) l → c ≠ 0 → (length l < fuel)%nat →
  strchr fuel m s c = Some (s + Z.of_nat (length l)).
Proof.
  revert s l. induction fuel as [|fuel IH]; intros s l H Hl Hc Hf; [lia|]. cbn [strchr].
  destruct l as [|x l]; cbn [app] in H; apply holds_cons in H as [Hx H]; rewrite Hx.
  - rewrite (proj2 (Z.eqb_neq c 0)), Z.eqb_refl by done. simpl. f_equal. lia.
  - apply Forall_cons in Hl as [[H0 Hxc] Hl]. simpl in Hf.
    rewrite (proj2 (Z.eqb_neq x 0)), (proj2 (Z.eqb_neq x c)) by done.
    rewrite (IH _ l) by (done || lia). f_equal. simpl. lia.
Qed.
Lemma strchr_missing fuel m s l c :
  holds m s (l ++ [0]) → Forall (λ x, x ≠ 0 ∧ x ≠ c) l → (length l < fuel)%nat →
  strchr fuel m s c = Some 0.
Proof.
  revert s l. induction fuel as [|fuel IH]; intros s l H Hl Hf; [lia|]. cbn [strchr].
  destruct l as [|x l]; cbn [app] in H; apply holds_cons in H as [Hx H]; rewrite Hx; [done|].
  apply Forall_cons in Hl as [[H0 Hxc] Hl]. simpl in Hf.
  rewrite (proj2 (Z.eqb_neq x 0)), (proj2 (Z.eqb_neq x c)) by done. apply (IH _ l); [done..|lia].
Qed.

(** The user's memmove() copies as if through a temporary buffer too, for every overlap. *)
Lemma memmove_holds m dst src l :
  holds m src l → Forall (λ c, 0 <= c < 2 ^ 8) l →
  holds (memmove m dst src (Z.of_nat (length l))) dst l.
Proof.
  intros H Hl i c Hi. pose proof (lookup_lt_Some _ _ _ Hi) as Hlt.
  rewrite Forall_lookup in Hl. unfold memmove. rewrite Nat2Z.id. destruct (dst <? src) eqn:E.
  - rewrite move_up_spec by lia. rewrite (H i c) by done. apply u8_small. by eapply Hl.
  - replace (dst + Z.of_nat i) with
      (dst + Z.of_nat (length l) - 1 - (Z.of_nat (length l) - 1 - Z.of_nat i)) by lia.
    rewrite move_down_spec by lia.
    replace (src + Z.of_nat (length l) - 1 - (Z.of_nat (length l) - 1 - Z.of_nat i))
      with (src + Z.of_nat i) by lia.
    rewrite (H i c) by done. apply u8_small. by eapply Hl.
Qed.
Lemma umemmove_frame m dst src n : frame dst n m (memmove m dst src n).
Proof.
  intros x Hx. unfold memmove. destruct (dst <? src).
  - apply move_up_frame. lia.
  - apply move_down_frame. lia.
Qed.

(** The C string at the start of a list of bytes. *)
Fixpoint until_nul (b : list Z) : list Z :=
  match b with
  | [] => []
  | c :: b => if c =? 0 then [] else c :: until_nul b
  end.
Lemma until_nul_word w b : Forall (λ c, c ≠ 0) w → until_nul (w ++ 0 :: b) = w.
Proof.
  induction 1 as [|c w Hc Hw IH]; simpl; [done|]. destruct (Z.eqb_spec c 0); [done|]. by rewrite IH.
Qed.

(** ** What a filter assumes of read() and write()

    The input is a stream: a read() returns as many bytes as it likes of what remains, at least
    one unless it is at the end of the stream or has been asked for none. Everything written to
    descriptor 1 goes out whole. *)
Class Stdio `{os : Os} (fd : Z) := {
  remaining : world → list Z;
  written : world → list Z;
  read_ok n w : 0 <= n →
    let '((r, l), w') := sys_read fd n w in
    r = Z.of_nat (length l) ∧ r <= n ∧ remaining w = l ++ remaining w' ∧
    (0 < n → remaining w ≠ [] → l ≠ []) ∧ written w' = written w;
  write_ok l w :
    let '(r, w') := sys_write 1 l w in
    r = Z.of_nat (length l) ∧ written w' = written w ++ l ∧ remaining w' = remaining w
}.
#[global] Arguments remaining {os} fd {_} _.
#[global] Arguments written {os} fd {_} _.
#[global] Arguments read_ok {os} fd {_} _ _ _.
#[global] Arguments write_ok {os} fd {_} _ _.

(** A write() of [l] to descriptor 1, and a read() into the buffer at [a]. *)
Lemma uwrite_run `{os : Os} fd {io : Stdio fd} l p n s :
  holds (umem s) p l → n = Z.of_nat (length l) →
  ∃ w', write 1 p n s = Done n (Ustate (umem s) w') ∧
    written fd w' = written fd (uworld s) ++ l ∧ remaining fd w' = remaining fd (uworld s).
Proof.
  intros Hh ->. unfold write, ubind, umemory, on_world. rewrite Nat2Z.id, holds_read by done.
  pose proof (write_ok fd l (uworld s)) as H. destruct (sys_write 1 l (uworld s)) as [r w'].
  destruct H as (-> & Hw & Hr). by exists w'.
Qed.
Lemma uread_run `{os : Os} fd {io : Stdio fd} a n s :
  0 <= n →
  ∃ l w', read fd a n s = Done (Z.of_nat (length l)) (Ustate (write_bytes (umem s) a l) w') ∧
    Z.of_nat (length l) <= n ∧ remaining fd (uworld s) = l ++ remaining fd w' ∧
    (0 < n → remaining fd (uworld s) ≠ [] → l ≠ []) ∧ written fd w' = written fd (uworld s).
Proof.
  intros Hn. unfold read, ubind, on_world, on_memory.
  pose proof (read_ok fd n (uworld s) Hn) as H. destruct (sys_read fd n (uworld s)) as [[r l] w'].
  destruct H as (-> & Hl & Hr & He & Hw). by exists l, w'.
Qed.
