(* ===== verification/Uprintf.v ===== *)
(** user/printf.c: formatted output of user programs, one write() per character. *)
From S2P Require Import Prelude Cstring Kernel Uart Ulib.

Definition udigits : list Z := chars "0123456789ABCDEF".

(** The loop of printint() that fills [buf], least significant digit first; a 64-bit number has
    at most 64 digits in any base. *)
Fixpoint uint_digits (fuel : nat) (x base : Z) : list Z :=
  match fuel with
  | O => []
  | S fuel =>
      default 0 (udigits !! Z.to_nat (x mod base))
      :: (if x / base =? 0 then [] else uint_digits fuel (x / base) base)
  end.
(** What printint() leaves in [char buf[20]]; [xx] is a [long long]. *)
Definition uint_buf (xx base : Z) (sgn : bool) : list Z :=
  let neg := sgn && (xx <? 0) in
  let x := if neg then u64 (- xx) else u64 xx in
  uint_digits 64 x base ++ (if neg then [45] else []).

Section printf.
Context `{os : Os}.

Definition putc (fd c : Z) : U Z := write_local fd [u8 c].
Fixpoint putcs (fd : Z) (l : list Z) : U unit :=
  match l with
  | [] => ureturn tt
  | c :: l => putc fd c ;;~ putcs fd l
  end.
(** Storing past the end of [buf] is undefined. *)
Definition printint (fd xx base : Z) (sgn : bool) : U unit :=
  if (20 <? length (uint_buf xx base sgn))%nat then undefined
  else putcs fd (reverse (uint_buf xx base sgn)).
Definition printptr (fd x : Z) : U unit :=
  putc fd 48 ;;~
  putc fd 120 ;;~
  putcs fd ((λ i, default 0 (udigits !! Z.to_nat (Z.shiftr (u64 (Z.shiftl x (4 * Z.of_nat i))) 60))) <$> seq 0 16).

Definition va_num (ap : list arg) (k : Z → list arg → U unit) : U unit :=
  match ap with Num v :: ap => k v ap | _ => undefined end.
Definition va_str (ap : list arg) (k : option (list Z) → list arg → U unit) : U unit :=
  match ap with Str s :: ap => k s ap | _ => undefined end.

(** The loop over the format; each round consumes at least one character. A [%] that ends the
    format prints nothing. *)
Fixpoint vprintf_loop (fuel : nat) (fd : Z) (fmt : list Z) (ap : list arg) : U unit :=
  match fuel with
  | O => running
  | S fuel =>
      match fmt with
      | [] => ureturn tt
      | c :: fmt =>
          if negb (c =? 37) then putc fd c ;;~ vprintf_loop fuel fd fmt ap
          else match fmt with
          | [] => ureturn tt
          | c0 :: _ =>
              let c1 := default 0 (fmt !! 1%nat) in
              let c2 := default 0 (fmt !! 2%nat) in
              let go (n : nat) ap := vprintf_loop fuel fd (drop n fmt) ap in
              let int (n : nat) (v base : Z) (sgn : bool) ap := printint fd v base sgn ;;~ go n ap in
              if c0 =? 100 then va_num ap (λ v, int 1%nat (i32 v) 10 true)
              else if (c0 =? 108) && (c1 =? 100) then va_num ap (λ v, int 2%nat (i64 v) 10 true)
              else if (c0 =? 108) && (c1 =? 108) && (c2 =? 100) then va_num ap (λ v, int 3%nat (i64 v) 10 true)
              else if c0 =? 117 then va_num ap (λ v, int 1%nat (u32 v) 10 false)
              else if (c0 =? 108) && (c1 =? 117) then va_num ap (λ v, int 2%nat (i64 v) 10 false)
              else if (c0 =? 108) && (c1 =? 108) && (c2 =? 117) then va_num ap (λ v, int 3%nat (i64 v) 10 false)
              else if c0 =? 120 then va_num ap (λ v, int 1%nat (u32 v) 16 false)
              else if (c0 =? 108) && (c1 =? 120) then va_num ap (λ v, int 2%nat (i64 v) 16 false)
              else if (c0 =? 108) && (c1 =? 108) && (c2 =? 120) then va_num ap (λ v, int 3%nat (i64 v) 16 false)
              else if c0 =? 112 then va_num ap (λ v ap, printptr fd (u64 v) ;;~ go 1%nat ap)
              else if c0 =? 99 then va_num ap (λ v ap, putc fd (u32 v) ;;~ go 1%nat ap)
              else if c0 =? 115 then
                va_str ap (λ s ap, putcs fd (default (chars "(null)") s) ;;~ go 1%nat ap)
              else if c0 =? 37 then putc fd 37 ;;~ go 1%nat ap
              else putc fd 37 ;;~ putc fd c0 ;;~ go 1%nat ap
          end
      end
  end.
Definition vprintf (fd : Z) (fmt : list Z) (ap : list arg) : U unit :=
  vprintf_loop (S (length fmt)) fd fmt ap.
Definition fprintf (fd : Z) (fmt : string) (ap : list arg) : U unit := vprintf fd (chars fmt) ap.
Definition printf (fmt : string) (ap : list arg) : U unit := vprintf 1 (chars fmt) ap.
End printf.

(** ** Numbers in decimal *)

Lemma udigit_ok d : 0 <= d < 10 → default 0 (udigits !! Z.to_nat d) = 48 + d.
Proof.
  intros H. assert (Hd : d ∈ (Z.of_nat <$> seq 0 10)).
  { apply list_elem_of_fmap. exists (Z.to_nat d). split; [lia|]. apply elem_of_seq. lia. }
  repeat (apply elem_of_cons in Hd as [->|Hd]; [done|]). by apply elem_of_nil in Hd.
Qed.

(** The number that [atoi()] has read once it has consumed [l], starting from [n]. *)
Definition decimal (n : Z) (l : list Z) : Z := foldl (λ n c, n * 10 + c - 48) n l.

Lemma decimal_ge n l : Forall (λ c, 48 <= c <= 57) l → 0 <= n → n <= decimal n l.
Proof.
  intros Hl. revert n. induction Hl as [|c l Hc Hl IH]; intros n Hn; simpl; [done|].
  specialize (IH (n * 10 + c - 48)). lia.
Qed.
Lemma uint_digits_decimal fuel x :
  0 <= x < 10 ^ Z.of_nat fuel → (0 < fuel)%nat →
  Forall (λ c, 48 <= c <= 57) (uint_digits fuel x 10) ∧ decimal 0 (reverse (uint_digits fuel x 10)) = x.
Proof.
  revert x. induction fuel as [|fuel IH]; intros x Hx Hf; [lia|]. cbn [uint_digits].
  rewrite udigit_ok by (apply Z.mod_pos_bound; lia). rewrite Nat2Z.inj_succ, Z.pow_succ_r in Hx by lia.
  destruct (Z.eqb_spec (x / 10) 0) as [E|E].
  - split; [apply Forall_singleton; dlia|]. cbn. dlia.
  - assert (0 < fuel)%nat by (destruct fuel; [simpl in Hx; dlia|lia]).
    destruct (IH (x / 10)) as [H1 H2]; [split; [dlia|apply Z.div_lt_upper_bound; lia]|done|].
    split; [constructor; [dlia|done]|]. rewrite reverse_cons. unfold decimal. rewrite foldl_app.
    fold (decimal 0 (reverse (uint_digits fuel (x / 10) 10))). rewrite H2. cbn. dlia.
Qed.

Lemma atoi_decimal fuel m s l c n :
  holds m s (l ++ [c]) → Forall (λ c, 48 <= c <= 57) l → ¬ 48 <= c <= 57 →
  0 <= n → decimal n l < 2 ^ 31 - 48 → (length l < fuel)%nat →
  atoi_loop fuel m s n = Some (decimal n l).
Proof.
  revert s l n. induction fuel as [|fuel IH]; intros s l n Hh Hl Hc Hn Hd Hf; [lia|]. cbn [atoi_loop].
  destruct l as [|x l]; cbn [app] in Hh; apply holds_cons in Hh as [Hx Hh]; rewrite Hx.
  - destruct (_ && _) eqn:E; [blia|done].
  - apply Forall_cons in Hl as [Hx9 Hl]. cbn [decimal foldl] in Hd |- *. simpl in Hf.
    pose proof (decimal_ge (n * 10 + x - 48) l Hl). unfold decimal in *.
    destruct (_ && _) eqn:E; [|blia]. destruct (_ && _) eqn:E1 in |- *; [|blia].
    apply IH; [done|done|done|lia|lia|lia].
Qed.

Lemma uint_digits_length fuel x base k :
  2 <= base → 0 <= x < base ^ Z.of_nat (S k) → (length (uint_digits fuel x base) <= S k)%nat.
Proof.
  intros Hb. revert x k. induction fuel as [|fuel IH]; intros x k Hx; cbn [uint_digits length]; [lia|].
  destruct (Z.eqb_spec (x / base) 0) as [E|E]; [simpl; lia|].
  rewrite Nat2Z.inj_succ, Z.pow_succ_r in Hx by lia. assert (0 <= x / base) by (apply Z.div_pos; lia).
  destruct k as [|k]; [rewrite Z.div_small in E; simpl in Hx; lia|].
  apply le_n_S, IH. split; [done|]. apply Z.div_lt_upper_bound; lia.
Qed.

(** printint() stays within its 20-byte buffer. *)
Theorem printint_fits xx base sgn :
  base = 10 ∨ base = 16 → - 2 ^ 63 <= xx < 2 ^ 64 → (length (uint_buf xx base sgn) <= 20)%nat.
Proof.
  intros Hb Hx. unfold uint_buf. rewrite length_app. destruct (sgn && (xx <? 0)) eqn:E.
  - apply andb_true_iff in E as [_ E]. apply Z.ltb_lt in E. rewrite u64_small by lia.
    pose proof (uint_digits_length 64 (- xx) base 18). cbn [length].
    assert (- xx < base ^ Z.of_nat 19) by (destruct Hb as [-> | ->]; simpl; lia). lia.
  - pose proof (uint_digits_length 64 (u64 xx) base 19). pose proof (u64_range xx). cbn [length].
    assert (u64 xx < base ^ Z.of_nat 20) by (destruct Hb as [-> | ->]; simpl; lia). lia.
Qed.

(** atoi() reads back what printf("%d") writes: with the characters printint() sends for
    [x] in memory, followed by any character that is not a digit, atoi() returns [x]. The bound
    is where atoi() itself overflows: it adds the character before it subtracts the '0'. *)
Theorem atoi_printint m s x c :
  0 <= x < 2 ^ 31 - 48 → ¬ 48 <= c <= 57 → holds m s (reverse (uint_buf x 10 true) ++ [c]) →
  atoi 64 m s = Some x.
Proof.
  intros Hx Hc Hh. unfold uint_buf in Hh. destruct (Z.ltb_spec x 0); [lia|]. cbn [andb] in Hh.
  rewrite app_nil_r, u64_small in Hh by lia.
  destruct (uint_digits_decimal 64 x) as [H1 H2]; [lia|lia|].
  unfold atoi. rewrite (atoi_decimal _ _ _ (reverse (uint_digits 64 x 10)) c); try done.
  - by rewrite H2.
  - by apply Forall_reverse.
  - rewrite H2. lia.
  - rewrite length_reverse. apply Nat.lt_le_trans with 11%nat; [|lia].
    apply le_n_S, (uint_digits_length 64 x 10 9); [lia|]. change (10 ^ Z.of_nat 10) with 10000000000. lia.
Qed.
Lemma atoi_printint_witness :
  atoi 64 (write_bytes (λ _, 0) 100 (reverse (uint_buf 2147483599 10 true) ++ [0])) 100 = Some 2147483599.
Proof.
  apply (atoi_printint _ _ 2147483599 0).
  - lia.
  - lia.
  - apply holds_write. apply (bool_decide_unpack _). vm_compute. exact I.
Defined.
