(* ===== verification/Uformat.v ===== *)
(** What printf() of user/printf.c prints: the text of a format and its arguments. *)
From S2P Require Import Prelude Cstring Kernel Uart Ulib Uprintf.

(** ** Output *)

Section output.
Context `{os : Os} (fd : Z) {io : Stdio fd}.

(** [m] sends [l] to descriptor 1, and does nothing else. *)
Definition prints {A} (m : U A) (l : list Z) : Prop := ∀ s, ∃ a s', m s = Done a s' ∧
  umem s' = umem s ∧ remaining fd (uworld s') = remaining fd (uworld s) ∧
  written fd (uworld s') = written fd (uworld s) ++ l.

Lemma prints_bind {A B} (m : U A) (k : A → U B) l1 l2 :
  prints m l1 → (∀ a, prints (k a) l2) → prints (ubind m k) (l1 ++ l2).
Proof.
  intros H1 H2 s. destruct (H1 s) as (a & s1 & E1 & M1 & R1 & W1).
  destruct (H2 a s1) as (b & s2 & E2 & M2 & R2 & W2).
  exists b, s2. unfold ubind. rewrite E1. split; [done|].
  rewrite M2, R2, W2, R1, W1, M1, app_assoc. done.
Qed.
Lemma prints_nothing : prints (ureturn tt) [].
Proof. intros s. exists tt, s. by rewrite app_nil_r. Qed.
Lemma prints_putc c : prints (putc 1 c) [u8 c].
Proof.
  intros s. unfold putc, write_local, on_world.
  pose proof (write_ok fd [u8 c] (uworld s)) as H. destruct (sys_write 1 [u8 c] (uworld s)) as [r w].
  destruct H as (-> & Hw & Hr). by exists 1, (Ustate (umem s) w).
Qed.
Lemma prints_putcs l : prints (putcs 1 l) (u8 <$> l).
Proof.
  induction l as [|c l IH]; [apply prints_nothing|]. cbn [putcs].
  change (u8 <$> c :: l) with ([u8 c] ++ (u8 <$> l)). apply prints_bind; [apply prints_putc|done].
Qed.

(** ** Formats *)

(** A number in a base: its digits, the most significant one first, after a sign. *)
Definition number (x base : Z) (sgn : bool) : list Z := u8 <$> reverse (uint_buf x base sgn).
(** The text of a format; a conversion that is missing its argument has none. *)
Fixpoint render (fmt : list Z) (ap : list arg) : option (list Z) :=
  match fmt with
  | [] => Some []
  | c :: fmt =>
      if negb (c =? 37) then (u8 c ::.) <$> render fmt ap
      else match fmt with
      | [] => None
      | c0 :: fmt =>
          if c0 =? 37 then (37 ::.) <$> render fmt ap
          else match ap with
          | Num v :: ap =>
              if c0 =? 100 then (number (i32 v) 10 true ++.) <$> render fmt ap
              else if c0 =? 117 then (number (u32 v) 10 false ++.) <$> render fmt ap
              else if c0 =? 120 then (number (u32 v) 16 false ++.) <$> render fmt ap
              else if c0 =? 99 then (u8 (u32 v) ::.) <$> render fmt ap
              else match fmt with
              | c1 :: fmt => if (c0 =? 108) && (c1 =? 117) then (number (i64 v) 10 false ++.) <$> render fmt ap else None
              | [] => None
              end
          | Str s :: ap =>
              if c0 =? 115 then ((u8 <$> default (chars "(null)") s) ++.) <$> render fmt ap else None
          | [] => None
          end
      end
  end.

Lemma prints_printint x base sgn :
  base = 10 ∨ base = 16 → - 2 ^ 63 <= x < 2 ^ 64 → prints (printint 1 x base sgn) (number x base sgn).
Proof.
  intros Hb Hx. unfold printint. pose proof (printint_fits x base sgn Hb Hx).
  destruct (Nat.ltb_spec 20 (length (uint_buf x base sgn))); [lia|]. apply prints_putcs.
Qed.

Lemma vprintf_loop_renders fuel fmt ap l :
  (length fmt < fuel)%nat → render fmt ap = Some l → prints (vprintf_loop fuel 1 fmt ap) l.
Proof.
  revert fmt ap l. induction fuel as [|fuel IH]; intros fmt ap l Hf Hr; [lia|].
  destruct fmt as [|c fmt]; [injection Hr as <-; apply prints_nothing|]. cbn [render vprintf_loop length] in *.
  destruct (c =? 37); cbn [negb] in *.
  2: { destruct (render fmt ap) as [r|] eqn:E; [|done]. injection Hr as <-.
    apply (prints_bind _ _ [u8 c]); [apply prints_putc|]. intros _. apply IH; [lia|done]. }
  destruct fmt as [|c0 fmt]; [done|]. cbn [length drop] in *. cbv zeta.
  assert (Hgo : ∀ ap' r, render fmt ap' = Some r → prints (vprintf_loop fuel 1 fmt ap') r) by (intros; apply IH; [lia|done]).
  assert (Hi : ∀ v, - 2 ^ 63 <= i32 v < 2 ^ 64) by (intros v; pose proof (i32_range v); lia).
  assert (Hu : ∀ v, - 2 ^ 63 <= u32 v < 2 ^ 64) by (intros v; pose proof (u32_range v); lia).
  destruct (Z.eqb_spec c0 37) as [->|H37].
  { destruct (render fmt ap) as [r|] eqn:E; [|done]. injection Hr as <-.
    apply (prints_bind _ _ [37]); [apply prints_putc|]. intros _. by apply Hgo. }
  destruct ap as [|[v|s] ap]; [done|..].
  - destruct (Z.eqb_spec c0 108) as [->|H108].
    { cbn [Z.eqb Pos.eqb andb] in Hr. destruct fmt as [|c1 fmt]; [done|].
      destruct (Z.eqb_spec c1 117) as [->|]; [|done]. destruct (render fmt ap) as [r|] eqn:E; [|done]. injection Hr as <-.
      cbn [Z.eqb Pos.eqb andb va_num drop lookup list_lookup from_option id default]. apply prints_bind.
      - apply prints_printint; [auto|]. unfold i64. pose proof (u64_range v). destruct (u64 v <? 2 ^ 63) eqn:E1; blia.
      - intros _. rewrite drop_0. apply IH; [simpl in Hf; lia|done]. }
    destruct (Z.eqb_spec c0 100) as [->|]; [|destruct (Z.eqb_spec c0 117) as [->|];
      [|destruct (Z.eqb_spec c0 120) as [->|]; [|destruct (Z.eqb_spec c0 99) as [->|]; [|by destruct fmt]]]];
      destruct (render fmt ap) as [r|] eqn:E; try done; injection Hr as <-;
      cbn [Z.eqb Pos.eqb andb va_num];
      (apply prints_bind; [|intros _; by apply Hgo]) || idtac.
    all: try (apply prints_printint; [auto|auto]).
    apply (prints_bind _ _ [u8 (u32 v)]); [apply prints_putc|]. intros _. by apply Hgo.
  - destruct (Z.eqb_spec c0 115) as [->|]; [|done]. destruct (render fmt ap) as [r|] eqn:E; [|done]. injection Hr as <-.
    cbn [Z.eqb Pos.eqb andb va_str]. apply prints_bind; [apply prints_putcs|]. intros _. by apply Hgo.
Qed.

(** printf() prints the text of its format, for the conversions that the programs use; it
    uses up its arguments in order, and no number overflows its buffer. *)
Theorem printf_renders fmt ap l : render (chars fmt) ap = Some l → prints (printf fmt ap) l.
Proof. intros H. unfold printf, vprintf. by apply vprintf_loop_renders; [lia|]. Qed.
End output.

(** A decimal number that is not negative is its digits. *)
Lemma number_digits x sgn :
  0 <= x < 2 ^ 64 → number x 10 sgn = reverse (uint_digits 64 x 10).
Proof.
  intros Hx. unfold number, uint_buf. destruct (Z.ltb_spec x 0); [lia|]. rewrite andb_false_r, app_nil_r, u64_small by lia.
  destruct (uint_digits_decimal 64 x) as [Hd _]; [lia|lia|]. apply Forall_reverse in Hd.
  induction Hd as [|c l Hc _ IH]; [done|]. rewrite fmap_cons, IH, u8_small; [done|]. lia.
Qed.
