(* ===== verification/Umalloc.v ===== *)
(** user/umalloc.c: the storage allocator of user programs.

    The heap is made of 16-byte units; a block is a header of one unit ([ptr], then [size] in
    units) and the units behind it. The free blocks form a ring through [ptr], which [freep]
    enters anywhere; the static header [base], of size 0, is always in it. The value of the
    static variable [freep] is passed and returned; everything else is in memory. Pointer
    comparisons are on 64-bit addresses. [fuel] bounds the walks around the ring. *)
From S2P Require Import Prelude Cstring Kernel Ulib.

Definition UNIT : Z := 16. (* sizeof(Header) *)

Definition hptr (m : memory) (p : Z) : Z := load64 m p.
Definition hsize (m : memory) (p : Z) : Z := load32 m (p + 8).
Definition set_hptr (p v : Z) (m : memory) : memory := store64 m p v.
Definition set_hsize (p v : Z) (m : memory) : memory := store32 m (p + 8) v.

(** ** free() *)

Fixpoint free_loop (fuel : nat) (m : memory) (bp p : Z) : option Z :=
  match fuel with
  | O => None
  | S fuel =>
      let nx := hptr m p in
      if (p <? bp) && (bp <? nx) then Some p
      else if (nx <=? p) && ((p <? bp) || (bp <? nx)) then Some p
      else free_loop fuel m bp nx
  end.

(** The result is the memory and [freep]. *)
Definition free (fuel : nat) (m : memory) (freep ap : Z) : option (memory * Z) :=
  let bp := u64 (ap - UNIT) in
  match free_loop fuel m bp freep with
  | None => None
  | Some p =>
      let nx := hptr m p in
      let m1 :=
        if u64 (bp + UNIT * hsize m bp) =? nx then
          let m' := set_hsize bp (u32 (hsize m bp + hsize m nx)) m in set_hptr bp (hptr m' nx) m'
        else set_hptr bp nx m in
      let m2 :=
        if u64 (p + UNIT * hsize m1 p) =? bp then
          let m' := set_hsize p (u32 (hsize m1 p + hsize m1 bp)) m1 in set_hptr p (hptr m' bp) m'
        else set_hptr p bp m1 in
      Some (m2, p)
  end.

(** ** morecore() and malloc() *)

Section malloc.
Context `{os : Os}.

(** The result is that of the function, and [freep]. *)
Definition morecore (fuel : nat) (freep nu : Z) : U (Z * Z) :=
  let nu := if nu <? 4096 then 4096 else nu in
  p <~ sbrk (i32 (u64 (nu * UNIT))) ;;
  if p =? SBRK_ERROR then ureturn (0, freep)
  else
    on_memory (set_hsize p nu) ;;~
    m <~ umemory ;;
    match free fuel m freep (u64 (p + UNIT)) with
    | None => running
    | Some (m', freep') => on_memory (λ _, m') ;;~ ureturn (freep', freep')
    end.

Fixpoint malloc_loop (fuel : nat) (freep nunits prevp p : Z) : U (Z * Z) :=
  match fuel with
  | O => running
  | S fuel =>
      m <~ umemory ;;
      if nunits <=? hsize m p then
        if hsize m p =? nunits then
          on_memory (set_hptr prevp (hptr m p)) ;;~ ureturn (u64 (p + UNIT), prevp)
        else
          let size := u32 (hsize m p - nunits) in
          on_memory (set_hsize p size) ;;~
          let p := u64 (p + UNIT * size) in
          on_memory (set_hsize p nunits) ;;~
          ureturn (u64 (p + UNIT), prevp)
      else if p =? freep then
        r <~ morecore fuel freep nunits ;;
        if r.1 =? 0 then ureturn r
        else m <~ umemory ;; malloc_loop fuel r.2 nunits r.1 (hptr m r.1)
      else malloc_loop fuel freep nunits p (hptr m p)
  end.

(** [base] is the address of the static header. *)
Definition malloc (base : Z) (fuel : nat) (freep nbytes : Z) : U (Z * Z) :=
  let nunits := u32 ((nbytes + UNIT - 1) / UNIT + 1) in
  (if freep =? 0 then on_memory (λ m, set_hsize base 0 (set_hptr base base m)) else ureturn tt) ;;~
  let freep := if freep =? 0 then base else freep in
  m <~ umemory ;;
  malloc_loop fuel freep nunits freep (hptr m freep).
End malloc.

(** ** Headers in memory *)

Definition far (p q : Z) : Prop := p + UNIT <= q ∨ q + UNIT <= p.

Lemma hptr_set_hptr p v m : 0 <= v < 2 ^ 64 → hptr (set_hptr p v m) p = v.
Proof. apply load64_store64. Qed.
Lemma hsize_set_hsize p v m : 0 <= v < 2 ^ 32 → hsize (set_hsize p v m) p = v.
Proof. apply load32_store32. Qed.
Lemma hptr_set_hptr_ne p q v m : far p q → hptr (set_hptr p v m) q = hptr m q.
Proof. intros H. apply load_store_ne. unfold far, UNIT in H. simpl. lia. Qed.
Lemma hsize_set_hptr p q v m : p = q ∨ far p q → hsize (set_hptr p v m) q = hsize m q.
Proof. intros H. apply load_store_ne. unfold far, UNIT in H. simpl. lia. Qed.
Lemma hptr_set_hsize p q v m : p = q ∨ far p q → hptr (set_hsize p v m) q = hptr m q.
Proof. intros H. apply load_store_ne. unfold far, UNIT in H. simpl. lia. Qed.
Lemma hsize_set_hsize_ne p q v m : far p q → hsize (set_hsize p v m) q = hsize m q.
Proof. intros H. apply load_store_ne. unfold far, UNIT in H. simpl. lia. Qed.
Lemma set_hptr_frame p v m : frame p UNIT m (set_hptr p v m).
Proof. intros x Hx. apply (store_frame 8). unfold UNIT in Hx. lia. Qed.
Lemma set_hsize_frame p v m : frame p UNIT m (set_hsize p v m).
Proof. intros x Hx. apply (store_frame 4). unfold UNIT in Hx. lia. Qed.

(** ** The ring of free blocks *)

(** A block: the address of its header, and its size. *)
Notation block := (Z * Z)%type.
Definition finish (x : block) : Z := x.1 + UNIT * x.2.
Definition addr_of (l : list block) (to : Z) : Z := match l with [] => to | x :: _ => x.1 end.

(** The headers of [l] are in memory, each pointing to the next, the last one to [to]. *)
Fixpoint lseg (m : memory) (l : list block) (to : Z) : Prop :=
  match l with
  | [] => True
  | x :: l => hsize m x.1 = x.2 ∧ hptr m x.1 = addr_of l to ∧ lseg m l to
  end.

Lemma addr_of_app l1 l2 to : addr_of (l1 ++ l2) to = addr_of l1 (addr_of l2 to).
Proof. by destruct l1. Qed.
Lemma lseg_app m l1 l2 to : lseg m (l1 ++ l2) to ↔ lseg m l1 (addr_of l2 to) ∧ lseg m l2 to.
Proof.
  induction l1 as [|x l1 IH]; simpl; [tauto|]. rewrite IH, addr_of_app. tauto.
Qed.
Lemma lseg_ext m m' l to :
  Forall (λ x, hptr m' x.1 = hptr m x.1 ∧ hsize m' x.1 = hsize m x.1) l → lseg m l to → lseg m' l to.
Proof. induction 1 as [|x l [H1 H2] _ IH]; simpl; [done|]. rewrite H1, H2. tauto. Qed.
Lemma lseg_addrs m l to : lseg m l to → Forall (λ x, hsize m x.1 = x.2) l.
Proof. induction l as [|x l IH]; simpl; [constructor|]. intros (? & _ & ?). constructor; auto. Qed.

(** The free blocks besides [base], in order of address, with a gap between one and the next. *)
Fixpoint spaced (lo : Z) (l : list block) (hi : Z) : Prop :=
  match l with
  | [] => True
  | x :: l => lo < x.1 ∧ 0 < x.2 ∧ finish x <= hi ∧ spaced (finish x) l hi
  end.

Definition separate (x y : block) : Prop := finish x <= y.1 ∨ finish y <= x.1.
Fixpoint pairwise (l : list block) : Prop :=
  match l with
  | [] => True
  | x :: l => Forall (separate x) l ∧ pairwise l
  end.
Definition units (l : list block) : Z := foldr (λ x n, x.2 + n) 0 l.
(** The last address of [l], or [d]; and where its last block ends. *)
Definition last_addr (l : list block) (d : Z) : Z := foldl (λ _ x, x.1) d l.
Definition last_finish (l : list block) (d : Z) : Z := foldl (λ _ x, finish x) d l.

Lemma spaced_app lo l1 l2 hi :
  spaced lo (l1 ++ l2) hi ↔ spaced lo l1 hi ∧ spaced (last_finish l1 lo) l2 hi.
Proof. revert lo. induction l1 as [|x l1 IH]; intros lo; simpl; [tauto|]. rewrite IH. tauto. Qed.
Lemma spaced_weaken lo lo' l hi : lo' <= lo → spaced lo l hi → spaced lo' l hi.
Proof. destruct l; simpl; [done|]. intros ? (? & ? & ? & ?). split_and!; try done. lia. Qed.
Lemma spaced_hi lo l hi hi' : hi <= hi' → spaced lo l hi → spaced lo l hi'.
Proof. intros Hh. revert lo. induction l as [|x l IH]; intros lo; simpl; [done|]. naive_solver lia. Qed.
Lemma spaced_range lo l hi :
  spaced lo l hi → Forall (λ x, lo < x.1 ∧ 0 < x.2 ∧ finish x <= hi) l.
Proof.
  revert lo. induction l as [|x l IH]; intros lo; simpl; [constructor|]. intros (H1 & H2 & H3 & H4).
  constructor; [done|]. eapply Forall_impl; [by apply IH|]. intros y (? & ? & ?).
  unfold finish, UNIT in *. lia.
Qed.

(** Where a block apart from the free ones belongs among them. *)
Lemma split_at lo F hi x :
  spaced lo F hi → Forall (separate x) F → 0 < x.2 →
  ∃ F1 F2, F = F1 ++ F2 ∧ Forall (λ y, finish y <= x.1) F1 ∧ Forall (λ y, finish x <= y.1) F2.
Proof.
  revert lo. induction F as [|y F IH]; intros lo Hs Hsep Hx; [by exists [], []|].
  simpl in Hs. destruct Hs as (H1 & H2 & H3 & H4). apply Forall_cons in Hsep as [Hy Hsep].
  destruct Hy as [Hy|Hy].
  - exists [], (y :: F). split; [done|]. split; [done|]. constructor; [done|].
    apply spaced_range in H4. eapply Forall_impl; [exact H4|]. intros z (? & ? & ?). cbn in *.
    unfold finish, UNIT in *. lia.
  - destruct (IH (finish y)) as (F1 & F2 & -> & HF1 & HF2); [done..|].
    exists (y :: F1), F2. split; [done|]. split; [by constructor|done].
Qed.

(** ** The walk of free() *)

Section walk.
Context (m : memory) (bp to : Z).

(** From a block below [bp], to the last one below it. *)
Lemma free_loop_below fuel x l F2 hi :
  lseg m (x :: l ++ F2) to → spaced x.1 l hi → x.1 < bp → Forall (λ y, finish y <= bp) l →
  Forall (λ y, bp < y.1) F2 → to <= x.1 → (length l < fuel)%nat →
  free_loop fuel m bp x.1 = Some (last_addr l x.1).
Proof.
  revert x fuel. induction l as [|y l IH]; intros x fuel Hm Hs Hx Hl HF Hto Hf;
    destruct fuel as [|fuel]; [simpl in Hf; lia| |simpl in Hf; lia|]; cbn [free_loop];
    simpl in Hm; destruct Hm as (_ & Hp & Hm); rewrite Hp.
  - destruct F2 as [|z F2]; simpl.
    + destruct (_ && _) eqn:E; [done|]. destruct (_ && _) eqn:E1 in |- *; [done|blia].
    + apply Forall_cons in HF as [Hz _]. destruct (_ && _) eqn:E; [done|blia].
  - simpl in Hs. destruct Hs as (H1 & H2 & H3 & H4). apply Forall_cons in Hl as [Hy Hl]. simpl.
    assert (y.1 < bp) by (unfold finish, UNIT in *; lia).
    destruct (_ && _) eqn:E; [blia|]. destruct (_ && _) eqn:E1 in |- *; [blia|].
    apply IH; try done; [|lia|simpl in Hf; lia].
    eapply spaced_weaken; [|exact H4]. unfold finish, UNIT. lia.
Qed.

(** From a block above it, to the start of the ring. *)
Lemma free_loop_above fuel l hi lo :
  lseg m l to → spaced lo l hi → bp <= lo → to < bp →
  free_loop (length l + fuel) m bp (addr_of l to) = free_loop fuel m bp to.
Proof.
  revert lo. induction l as [|x l IH]; intros lo Hm Hs Hlo Hto; [done|].
  simpl in Hm, Hs. destruct Hm as (_ & Hp & Hm), Hs as (H1 & H2 & H3 & H4).
  cbn [length Nat.add addr_of free_loop]. rewrite Hp.
  assert (Hx : x.1 < finish x) by (unfold finish, UNIT; lia).
  assert (addr_of l to = to ∨ x.1 < addr_of l to) as Hn.
  { destruct l as [|y l]; simpl; [by left|]. simpl in H4. right. lia. }
  destruct (_ && _) eqn:E; [blia|]. destruct (_ && _) eqn:E1 in |- *; [blia|].
  apply (IH (finish x)); [done..|lia|done].
Qed.

Lemma free_loop_ok fuel F1 F2 freep lo hi :
  lseg m ((to, 0) :: F1 ++ F2) to → spaced lo (F1 ++ F2) hi → to <= lo → lo < bp →
  Forall (λ y, finish y <= bp) F1 → Forall (λ y, bp < y.1) F2 →
  freep = to ∨ freep ∈ (F1 ++ F2).*1 → (S (length (F1 ++ F2)) <= fuel)%nat →
  free_loop fuel m bp freep = Some (last_addr F1 to).
Proof.
  intros Hm Hs Hlo Hbp H1 H2 Hfp Hf. rewrite length_app in Hf.
  apply spaced_app in Hs as [Hs1 Hs2].
  assert (Hbase : ∀ fuel, (length F1 < fuel)%nat → free_loop fuel m bp to = Some (last_addr F1 to)).
  { intros f Hf'. apply (free_loop_below f (to, 0) F1 F2 hi);
      first [done | simpl; lia | by eapply spaced_weaken; [|exact Hs1]]. }
  destruct Hfp as [->|Hfp]; [apply Hbase; lia|].
  apply list_elem_of_fmap in Hfp as (x & -> & Hx). apply elem_of_app in Hx as [Hx|Hx];
    apply list_elem_of_split in Hx as (u & v & ->).
  - pose proof (spaced_range _ _ _ Hs1) as Hr. apply Forall_app in Hr as [_ Hr].
    apply Forall_cons in Hr as [Hr _]. replace (last_addr (u ++ x :: v) to) with (last_addr v x.1)
      by (unfold last_addr; by rewrite foldl_app).
    simpl in Hm. destruct Hm as (_ & _ & Hm). rewrite <- app_assoc in Hm. apply lseg_app in Hm as [_ Hm].
    apply spaced_app in Hs1 as [Hs0 Hs1]. simpl in Hs1. destruct Hs1 as (H3 & H4 & H5 & H6).
    apply Forall_app in H1 as [_ H1]. apply Forall_cons in H1 as [Hx H1].
    rewrite length_app in Hf. simpl in Hf.
    unfold finish, UNIT in Hx, Hr, H6. apply (free_loop_below fuel x v F2 hi);
      first [done | lia | eapply spaced_weaken; [|exact H6]; lia].
  - simpl in Hm. destruct Hm as (_ & _ & Hm). apply lseg_app in Hm as [_ Hm].
    apply lseg_app in Hm as [_ Hm]. apply spaced_app in Hs2 as [_ Hs2].
    apply Forall_app in H2 as [_ H2]. apply Forall_cons in H2 as [Hx H2].
    rewrite length_app in Hf. cbn [length] in Hf.
    change x.1 with (addr_of (x :: v) to).
    replace fuel with (length (x :: v) + (fuel - length (x :: v)))%nat by (simpl; lia).
    rewrite (free_loop_above _ _ hi (x.1 - 1)); [apply Hbase; simpl; lia|done| |lia|lia].
    simpl in Hs2 |- *. destruct Hs2 as (? & ? & ? & ?). split_and!; try done. lia.
Qed.
End walk.

(** ** Giving a block back *)

Ltac ulia := simpl in *; unfold far, separate, finish, UNIT in *; cbn [fst snd] in *; lia.

Lemma header_frame a m m' q : frame a UNIT m m' → far a q → hptr m' q = hptr m q ∧ hsize m' q = hsize m q.
Proof.
  intros Hf Hq. unfold far, UNIT in *. split; eapply load_frame; try exact Hf; simpl; lia.
Qed.
Lemma lseg_frame a m m' l to :
  frame a UNIT m m' → Forall (λ x, far a x.1) l → lseg m l to → lseg m' l to.
Proof.
  intros Hf Hl. apply lseg_ext. eapply Forall_impl; [exact Hl|]. intros x. by apply header_frame.
Qed.
Lemma lseg_last m x l to : lseg m (x :: l) to → hptr m (last_addr l x.1) = to.
Proof.
  revert x. induction l as [|y l IH]; intros x; [by intros (_ & ? & _)|].
  intros (_ & _ & H). by apply (IH y).
Qed.
Lemma frame_trans a b n k m m1 m2 :
  frame a n m m1 → frame b k m1 m2 → ∀ x, ¬ a <= x < a + n → ¬ b <= x < b + k → m2 x = m x.
Proof. intros H1 H2 x Ha Hb. rewrite H2 by done. by apply H1. Qed.
Lemma frame_twice a n m m1 m2 : frame a n m m1 → frame a n m1 m2 → frame a n m m2.
Proof. intros H1 H2 x Hx. rewrite H2 by done. by apply H1. Qed.

(** A block that is apart from two adjacent ones is apart from their union. *)
Lemma separate_join y a n k :
  0 < y.2 → separate y (a, n) → separate y (a + UNIT * n, k) → separate y (a, n + k).
Proof. unfold separate, finish, UNIT. simpl. lia. Qed.

(** The first half of free(): [bp] takes in the block behind it, or points to it. *)
Lemma absorb_next m bp n F2 base hi :
  0 < base → base < bp → 0 < n → hi <= 2 ^ 36 → bp + UNIT * n <= hi →
  hsize m bp = n → lseg m F2 base → spaced (bp + UNIT * n - 1) F2 hi →
  let nx := addr_of F2 base in
  let m1 :=
    if u64 (bp + UNIT * hsize m bp) =? nx then
      let m' := set_hsize bp (u32 (hsize m bp + hsize m nx)) m in set_hptr bp (hptr m' nx) m'
    else set_hptr bp nx m in
  ∃ n' F3, lseg m1 ((bp, n') :: F3) base ∧ spaced (bp - 1) ((bp, n') :: F3) hi ∧
    n' + units F3 = n + units F2 ∧ frame bp UNIT m m1 ∧ n <= n' ∧ (length F3 <= length F2)%nat ∧
    (∀ y, 0 < y.2 → separate y (bp, n) → Forall (separate y) F2 → Forall (separate y) ((bp, n') :: F3)).
Proof.
  intros Hb Hbp Hn Hhi Hfin Hsz Hseg Hsp nx. rewrite Hsz. rewrite u64_small by (ulia).
  pose proof (spaced_range _ _ _ Hsp) as Hr.
  assert (Hnx : 0 <= nx < 2 ^ 64).
  { unfold nx. destruct F2 as [|y F2]; simpl; [ulia|].
    apply Forall_cons in Hr as [Hy _].
    ulia. }
  assert (Hfar : Forall (λ x, far bp x.1) F2).
  { eapply Forall_impl; [exact Hr|]. intros y Hy. ulia. }
  destruct (Z.eqb_spec (bp + UNIT * n) nx) as [E|E].
  - destruct F2 as [|[y k] F3]; simpl in nx; [ulia|].
    simpl in Hseg, Hsp. destruct Hseg as (Hk & Hp & Hseg), Hsp as (S1 & S2 & S3 & S4).
    apply Forall_cons in Hfar as [Hfy Hfar]. subst nx. simpl in Hfy. unfold finish in S3, S4. simpl in S3, S4.
    assert (Hkk : 0 <= n + k < 2 ^ 32) by (ulia).
    cbn zeta. rewrite Hk, u32_small by done. rewrite hptr_set_hsize by (by right). rewrite Hp.
    set (m' := set_hsize bp (n + k) m).
    assert (Hf : frame bp UNIT m (set_hptr bp (addr_of F3 base) m'))
      by (eapply frame_twice; [apply set_hsize_frame|apply set_hptr_frame]).
    exists (n + k), F3. split_and!; [| | |done|lia|simpl; lia|].
    + simpl. rewrite hsize_set_hptr by (by left). unfold m' at 1. rewrite hsize_set_hsize by done.
      split; [done|]. split; [|by apply (lseg_frame bp m)]. apply hptr_set_hptr.
      destruct F3 as [|z F3]; ulia.
    + simpl. unfold finish. simpl. replace (bp + UNIT * (n + k)) with (y + UNIT * k) by (ulia).
      split_and!; try done; ulia.
    + simpl. lia.
    + intros z Hz Hs1 Hs2. apply Forall_cons in Hs2 as [Hs2 Hs3]. constructor; [|done].
      apply separate_join; [done..|]. by rewrite E.
  - exists n, F2. pose proof (set_hptr_frame bp nx m) as Hf. split_and!; [| |done|done|lia|done|].
    + simpl. rewrite hsize_set_hptr, hptr_set_hptr by (done || by left).
      split; [done|]. split; [done|]. by apply (lseg_frame bp m).
    + simpl. split_and!; [lia|done|unfold finish; simpl; lia|].
      destruct F2 as [|y F2]; [done|]. simpl in Hsp, nx |- *. destruct Hsp as (S1 & S2 & S3 & S4).
      split_and!; try done. unfold finish. simpl. subst nx. lia.
    + intros z Hz Hs1 Hs2. by constructor.
Qed.

(** The second half: [p] takes in the block that now follows it, or points to it. *)
Lemma relink m p j bp n F base :
  0 <= p → 0 <= j → 0 <= n → 0 <= bp < 2 ^ 64 → p + UNIT * j < 2 ^ 64 → j + n < 2 ^ 32 →
  0 <= addr_of F base < 2 ^ 64 →
  hsize m p = j → far p bp → Forall (λ x, far p x.1) F → lseg m ((bp, n) :: F) base →
  let m2 :=
    if u64 (p + UNIT * hsize m p) =? bp then
      let m' := set_hsize p (u32 (hsize m p + hsize m bp)) m in set_hptr p (hptr m' bp) m'
    else set_hptr p bp m in
  ∃ j' F', lseg m2 ((p, j') :: F') base ∧ frame p UNIT m m2 ∧
    ((p + UNIT * j = bp ∧ j' = j + n ∧ F' = F) ∨ (p + UNIT * j ≠ bp ∧ j' = j ∧ F' = (bp, n) :: F)).
Proof.
  intros Hp Hj Hn Hbp Hpj Hjn Hto Hs Hfar HF (Hsz & Hptr & Hseg). simpl in Hsz, Hptr.
  rewrite Hs, u64_small by ulia. destruct (Z.eqb_spec (p + UNIT * j) bp) as [E|E].
  - cbn zeta. rewrite Hsz, u32_small by lia. rewrite hptr_set_hsize by (by right). rewrite Hptr.
    set (m' := set_hsize p (j + n) m).
    assert (Hf : frame p UNIT m (set_hptr p (addr_of F base) m'))
      by (eapply frame_twice; [apply set_hsize_frame|apply set_hptr_frame]).
    exists (j + n), F. split; [|split; [done|by left]]. simpl.
    rewrite hsize_set_hptr by (by left). unfold m' at 1. rewrite hsize_set_hsize by lia.
    split; [done|]. split; [by apply hptr_set_hptr|by apply (lseg_frame p m)].
  - exists j, ((bp, n) :: F). pose proof (set_hptr_frame p bp m) as Hf. split; [|split; [done|by right]].
    split; [by rewrite hsize_set_hptr by (by left)|]. split; [by apply hptr_set_hptr|].
    apply (lseg_frame p m); [done|by constructor|done].
Qed.

(** ** The invariant

    The heap is the memory from [lo] to the program's break [hi], above the static header. It
    is exactly divided into the free blocks [F], in the ring, and the blocks [al] handed out. *)
Record heap (base lo hi freep : Z) (m : memory) (F al : list block) : Prop := Heap {
  heap_base : 0 < base ∧ base + UNIT <= lo ∧ lo <= hi;
  heap_hi : hi <= 2 ^ 36;
  heap_freep : freep = base ∨ freep ∈ F.*1;
  heap_ring : lseg m ((base, 0) :: F) base;
  heap_spaced : spaced (lo - 1) F hi;
  heap_al : Forall (λ x, lo <= x.1 ∧ 0 < x.2 ∧ finish x <= hi ∧ hsize m x.1 = x.2) al;
  heap_apart : Forall (λ x, Forall (separate x) F) al;
  heap_pairwise : pairwise al;
  heap_total : UNIT * (units F + units al) = hi - lo
}.

Lemma units_app l1 l2 : units (l1 ++ l2) = units l1 + units l2.
Proof. unfold units. induction l1 as [|x l1 IH]; simpl; [done|]. rewrite IH. lia. Qed.
Lemma units_pos lo l hi : spaced lo l hi → 0 <= units l.
Proof. revert lo. induction l as [|x l IH]; intros lo; simpl; [done|]. intros (_ & ? & _ & H). apply IH in H. lia. Qed.
Lemma spaced_units lo l hi : spaced lo l hi → lo <= hi → UNIT * units l <= hi - lo.
Proof.
  revert lo. induction l as [|x l IH]; intros lo; simpl; [lia|]. intros (? & ? & ? & H) _.
  apply IH in H; [|done]. ulia.
Qed.

(** The blocks of a spaced list end, one gap apart, where a later one begins. *)
Lemma spaced_before lo G p j F hi :
  spaced lo (G ++ (p, j) :: F) hi → Forall (λ y, 0 < y.2 ∧ finish y < p) G ∧ Forall (λ y, p + UNIT * j < y.1) F.
Proof.
  intros H. apply spaced_app in H as [HG HF]. simpl in HF. destruct HF as (Hlt & _ & _ & HF). split.
  - clear HF. revert lo Hlt HG. induction G as [|y G IH]; intros lo Hlt HG; [constructor|].
    simpl in Hlt, HG. destruct HG as (H1 & H2 & H3 & H4). constructor; [|by apply (IH (finish y))].
    split; [done|]. destruct G as [|z G]; [done|]. pose proof (IH (finish y) Hlt H4) as HG.
    apply Forall_cons in HG as [HG _]. simpl in H4. ulia.
  - apply spaced_range in HF. eapply Forall_impl; [exact HF|]. intros y Hy. ulia.
Qed.

Lemma relink_ring m F1 bp n F3 base lo hi to :
  0 < base → base + UNIT <= lo → lo <= bp → hi <= 2 ^ 36 → 0 < n →
  lseg m ((base, 0) :: F1) to → spaced (lo - 1) F1 hi → Forall (λ y, finish y <= bp) F1 →
  lseg m ((bp, n) :: F3) base → spaced (bp - 1) ((bp, n) :: F3) hi →
  let p := last_addr F1 base in
  let m2 :=
    if u64 (p + UNIT * hsize m p) =? bp then
      let m' := set_hsize p (u32 (hsize m p + hsize m bp)) m in set_hptr p (hptr m' bp) m'
    else set_hptr p bp m in
  ∃ F', lseg m2 ((base, 0) :: F') base ∧ spaced (lo - 1) F' hi ∧
    units F' = units F1 + n + units F3 ∧ frame p UNIT m m2 ∧ (p = base ∨ p ∈ F'.*1) ∧
    (∃ x, x ∈ F' ∧ n <= x.2) ∧ (length F' <= S (length F1 + length F3))%nat ∧
    (∀ y, 0 < y.2 → Forall (separate y) F1 → Forall (separate y) ((bp, n) :: F3) →
       Forall (separate y) F').
Proof.
  intros Hb Hlo Hbp Hhi Hn Hseg Hsp H1 Hseg3 Hsp3 p.
  pose proof Hsp3 as (_ & _ & Hfin & Hsp4). unfold finish in Hfin, Hsp4. cbn [fst snd] in Hfin, Hsp4.
  assert (H3 : Forall (λ x, bp < x.1) F3).
  { apply spaced_range in Hsp4. eapply Forall_impl; [exact Hsp4|]. intros y Hy. ulia. }
  assert (Hto : 0 <= addr_of F3 base < 2 ^ 64) by (destruct F3; ulia).
  destruct F1 as [|[q j] G _] using rev_ind.
  - destruct (relink m base 0 bp n F3 base) as (j' & F' & E1 & E2 & E3); try done; try ulia.
    + eapply Forall_impl; [exact H3|]. intros y Hy. ulia.
    + destruct E3 as [E3|(_ & -> & ->)]; [ulia|]. exists ((bp, n) :: F3). split_and!; try done.
      * eapply spaced_weaken; [|exact Hsp3]. lia.
      * by left.
      * exists (bp, n). split; [by left|done].
  - assert (Hp : p = q) by (unfold p, last_addr; by rewrite foldl_app). clearbody p. subst p.
    rewrite app_comm_cons in Hseg. apply lseg_app in Hseg as [HsG (Hsj & _ & _)]. simpl in HsG, Hsj.
    pose proof (spaced_before _ _ _ _ _ _ Hsp) as [HG _]. pose proof (spaced_range _ _ _ Hsp) as Hq.
    apply Forall_app in Hq as [_ Hq]. apply Forall_cons in Hq as [Hq _]. apply Forall_app in H1 as [_ H1].
    apply Forall_cons in H1 as [Hqj _]. apply spaced_app in Hsp as [HspG Hspq]. simpl in Hspq.
    destruct Hspq as (Q1 & Q2 & Q3 & _).
    destruct (relink m q j bp n F3 base) as (j' & F' & E1 & E2 & E3); try done; try ulia.
    + eapply Forall_impl; [exact H3|]. intros y Hy. ulia.
    + exists (G ++ (q, j') :: F'). split_and!.
      * rewrite app_comm_cons. apply lseg_app. split; [|done]. apply (lseg_frame q m); [done| |done].
        constructor; [ulia|]. eapply Forall_impl; [exact HG|]. intros y Hy. ulia.
      * apply spaced_app. split; [done|]. simpl. unfold finish. simpl.
        destruct E3 as [(E & -> & ->)|(E & -> & ->)].
        -- replace (q + UNIT * (j + n)) with (bp + UNIT * n) by ulia. split_and!; [done|lia|done|done].
        -- simpl. unfold finish. simpl. split_and!; try done; ulia.
      * rewrite !units_app. destruct E3 as [(_ & -> & ->)|(_ & -> & ->)]; simpl; lia.
      * done.
      * right. rewrite fmap_app. apply elem_of_app. right. by left.
      * destruct E3 as [(_ & -> & ->)|(_ & -> & ->)];
          [exists (q, j + n); split; [set_solver|simpl; lia] | exists (bp, n); split; [set_solver|done]].
      * rewrite !length_app. destruct E3 as [(_ & -> & ->)|(_ & -> & ->)]; simpl; lia.
      * intros y Hy HyG Hy3. apply Forall_app in HyG as [HyG Hyq]. apply Forall_cons in Hyq as [Hyq _].
        apply Forall_app. split; [done|]. apply Forall_cons in Hy3 as [Hyb Hy3].
        destruct E3 as [(E & -> & ->)|(_ & -> & ->)]; [|by constructor; [|constructor]].
        constructor; [|done]. apply separate_join; [done..|]. by rewrite E.
Qed.

(** What is left of the allocated blocks once one is gone. *)
Lemma pairwise_app l1 l2 : pairwise (l1 ++ l2) ↔ pairwise l1 ∧ pairwise l2 ∧ Forall (λ x, Forall (separate x) l2) l1.
Proof.
  induction l1 as [|x l1 IH]; simpl.
  - split; [intros; split_and!; auto | tauto].
  - rewrite IH, Forall_app, Forall_cons. tauto.
Qed.
Lemma separate_sym x y : separate x y → separate y x.
Proof. unfold separate. tauto. Qed.
Lemma pairwise_middle l1 x l2 :
  pairwise (l1 ++ x :: l2) → pairwise (l1 ++ l2) ∧ Forall (λ y, separate y x) (l1 ++ l2).
Proof.
  rewrite !pairwise_app. simpl. intros (H1 & [H2 H3] & H4). split.
  - split_and!; try done. eapply Forall_impl; [exact H4|]. intros y Hy. by apply Forall_cons in Hy as [_ ?].
  - apply Forall_app. split.
    + eapply Forall_impl; [exact H4|]. intros y Hy. by apply Forall_cons in Hy as [? _].
    + eapply Forall_impl; [exact H2|]. apply separate_sym.
Qed.

Lemma spaced_raise lo l hi b : spaced lo l hi → Forall (λ y, b <= y.1) l → spaced (b - 1) l hi.
Proof.
  destruct l as [|x l]; [done|]. simpl. intros (? & ? & ? & ?) Hl.
  apply Forall_cons in Hl as [Hx _]. split_and!; try done. lia.
Qed.

(** The header written last, [p], is [base] or that of a free block. *)
Lemma last_addr_in F d : last_addr F d = d ∨ ∃ x, x ∈ F ∧ last_addr F d = x.1.
Proof.
  destruct F as [|x F _] using rev_ind; [by left|]. right. exists x. unfold last_addr.
  rewrite foldl_app. split; [|done]. apply elem_of_app. right. by left.
Qed.
Lemma headers_untouched lo y bp n F base (m m1 m2 : memory) :
  base + UNIT <= lo → lo <= y.1 → 0 < y.2 → 0 < n → separate y (bp, n) → Forall (separate y) F →
  Forall (λ x, 0 < x.2) F →
  frame bp UNIT m m1 → frame (last_addr F base) UNIT m1 m2 →
  ∀ a, y.1 <= a < finish y → m2 a = m a.
Proof.
  intros Hb Hy Hy2 Hn Hsep HF Hpos Hf1 Hf2 a Ha. apply (frame_trans _ _ _ _ _ _ _ Hf1 Hf2); [ulia|].
  destruct (last_addr_in F base) as [->|(x & Hx & ->)]; [ulia|].
  rewrite Forall_forall in HF, Hpos. specialize (HF x Hx). specialize (Hpos x Hx). ulia.
Qed.

(** free() gives back one block, and leaves the contents of the others alone. *)
Lemma free_ok base lo hi freep m F al1 al2 bp n fuel :
  heap base lo hi freep m F (al1 ++ (bp, n) :: al2) → (length F < fuel)%nat →
  ∃ m' freep' F', free fuel m freep (bp + UNIT) = Some (m', freep') ∧
    heap base lo hi freep' m' F' (al1 ++ al2) ∧ units F' = units F + n ∧
    (∃ x, x ∈ F' ∧ n <= x.2) ∧ (length F' <= S (length F))%nat ∧
    (∀ y, y ∈ al1 ++ al2 → ∀ a, y.1 <= a < finish y → m' a = m a).
Proof.
  intros [Hb Hhi Hfp Hring Hsp Hal Hap Hpw Htot] Hf.
  apply Forall_app in Hal as [Hal1 Hal]. apply Forall_cons in Hal as [Hbp Hal2].
  apply Forall_app in Hap as [Hap1 Hap]. apply Forall_cons in Hap as [Hsepb Hap2].
  destruct Hbp as (B1 & B2 & B3 & B4). cbn [fst snd] in B1, B2, B4.
  pose proof (pairwise_middle _ _ _ Hpw) as [Hpw' Hoth].
  destruct (split_at _ _ _ _ Hsp Hsepb B2) as (F1 & F2 & -> & H1 & H2). unfold finish in H2. cbn [fst snd] in H1, H2.
  assert (H2' : Forall (λ y, bp < y.1) F2) by (eapply Forall_impl; [exact H2|]; intros y Hy; ulia).
  unfold free. replace (u64 (bp + UNIT - UNIT)) with bp by (rewrite u64_small; ulia).
  rewrite (free_loop_ok m bp base fuel F1 F2 freep (lo - 1) hi) by (done || ulia).
  rewrite app_comm_cons in Hring. apply lseg_app in Hring as [R1 R2].
  pose proof (lseg_last _ _ _ _ R1) as Hnx. cbn [fst] in Hnx. rewrite Hnx.
  pose proof (spaced_range _ _ _ Hsp) as Hr. apply Forall_app in Hr as [Hr1 Hr2].
  apply spaced_app in Hsp as [S1 S2].
  destruct (absorb_next m bp n F2 base hi) as (n' & F3 & A1 & A2 & A3 & A4 & A5 & AL & A6); try done; try ulia.
  { by apply (spaced_raise _ _ _ (bp + UNIT * n)) in S2. }
  set (m1 := if u64 (bp + UNIT * hsize m bp) =? addr_of F2 base then _ else _) in *.
  destruct (relink_ring m1 F1 bp n' F3 base lo hi (addr_of F2 base)) as (F' & B5 & B6 & B7 & B8 & B9 & (z & Bx & Bx2) & BL & B10);
    try done; try ulia.
  { apply (lseg_frame bp m); [done| |done]. constructor; [ulia|]. rewrite Forall_forall in *.
    intros x Hx. specialize (Hr1 x Hx). specialize (H1 x Hx). ulia. }
  set (m2 := if u64 (last_addr F1 base + UNIT * hsize m1 (last_addr F1 base)) =? bp then _ else _) in *.
  assert (Hall : ∀ y, y ∈ al1 ++ al2 → (lo <= y.1 ∧ 0 < y.2 ∧ finish y <= hi ∧ hsize m y.1 = y.2) ∧
    Forall (separate y) F1 ∧ Forall (separate y) F2 ∧ separate y (bp, n)).
  { intros y Hy. rewrite Forall_forall in Hoth. specialize (Hoth y Hy).
    assert (Hy' : Forall (separate y) (F1 ++ F2)) 
      by (rewrite Forall_forall in Hap1, Hap2; apply elem_of_app in Hy as [Hy|Hy]; auto).
    assert (Hy2 : lo <= y.1 ∧ 0 < y.2 ∧ finish y <= hi ∧ hsize m y.1 = y.2).
    { rewrite Forall_forall in Hal1, Hal2. apply elem_of_app in Hy as [Hy|Hy]; [by apply Hal1|by apply Hal2]. }
    apply Forall_app in Hy' as [? ?]. done. }
  assert (Hsame : ∀ y, y ∈ al1 ++ al2 → ∀ a, y.1 <= a < finish y → m2 a = m a).
  { intros y Hy. destruct (Hall y Hy) as ((? & ? & ? & ?) & ? & ? & ?).
    apply (headers_untouched lo y bp n F1 base m m1 m2); try done; [ulia|].
    eapply Forall_impl; [exact Hr1|]. intros x Hx. ulia. }
  exists m2, (last_addr F1 base), F'. split; [done|]. split; [|split; [|split; [exists z; split; [done|lia]|split; [rewrite length_app; lia|done]]]].
  - split; try done.
    + apply Forall_forall. intros y Hy. destruct (Hall y Hy) as ((? & ? & ? & Hsz) & _).
      split_and!; try done. rewrite <- Hsz. apply load_ext. intros a Ha. apply (Hsame y Hy). ulia.
    + apply Forall_forall. intros y Hy. destruct (Hall y Hy) as ((? & ? & ? & ?) & ? & ? & ?).
      apply B10; [done..|]. by apply A6.
    + rewrite B7. rewrite !units_app in *. simpl in Htot. ulia.
  - rewrite B7, units_app. lia.
Qed.

(** ** Handing a block out *)

(** The last block of a segment can be made to point elsewhere. *)
Lemma lseg_set_last m y l to v hi :
  lseg m (y :: l) to → spaced (y.1 + UNIT - 1) l hi → 0 <= v < 2 ^ 64 →
  lseg (set_hptr (last_addr l y.1) v m) (y :: l) v.
Proof.
  intros H Hs Hv. revert y H Hs. induction l as [|z l IH]; intros y (H1 & H2 & H3) Hs.
  - simpl. rewrite hsize_set_hptr by (by left). by rewrite hptr_set_hptr.
  - simpl in Hs. destruct Hs as (S1 & S2 & S3 & S4).
    assert (Hz : z.1 <= last_addr l z.1).
    { destruct (last_addr_in l z.1) as [->|(w & Hw & ->)]; [done|].
      apply spaced_range in S4. rewrite Forall_forall in S4. specialize (S4 w Hw). ulia. }
    change (last_addr (z :: l) y.1) with (last_addr l z.1).
    assert (Hfar : far (last_addr l z.1) y.1) by ulia.
    split; [by rewrite hsize_set_hptr by (by right)|].
    split; [by rewrite hptr_set_hptr_ne|]. apply IH; [done|]. eapply spaced_weaken; [|exact S4]. ulia.
Qed.

(** Blocks handed out keep their contents, hence their headers. *)
Lemma al_kept lo hi m m' (al : list block) :
  Forall (λ x, lo <= x.1 ∧ 0 < x.2 ∧ finish x <= hi ∧ hsize m x.1 = x.2) al →
  (∀ y, y ∈ al → ∀ b, y.1 <= b < finish y → m' b = m b) →
  Forall (λ x, lo <= x.1 ∧ 0 < x.2 ∧ finish x <= hi ∧ hsize m' x.1 = x.2) al.
Proof.
  intros Hal Hk. rewrite Forall_forall in *. intros y Hy. destruct (Hal y Hy) as (? & ? & ? & Hs).
  split_and!; try done. rewrite <- Hs. apply load_ext. intros b Hb. apply (Hk y Hy). ulia.
Qed.

(** The list of free blocks around one of them. *)
Lemma apart_middle (al F1 F2 : list block) x :
  Forall (λ y, Forall (separate y) (F1 ++ x :: F2)) al →
  Forall (λ y, Forall (separate y) (F1 ++ F2)) al ∧ Forall (separate x) al.
Proof.
  intros H. split; (eapply Forall_impl; [exact H|]); intros y Hy; apply Forall_app in Hy as [H1 H2];
    apply Forall_cons in H2 as [H2 H3].
  - by apply Forall_app.
  - by apply separate_sym.
Qed.
Lemma spaced_apart lo F1 x k F2 hi :
  spaced lo (F1 ++ (x, k) :: F2) hi → Forall (separate (x, k)) (F1 ++ F2).
Proof.
  intros H. apply spaced_before in H as [H1 H2]. apply Forall_app. split.
  - eapply Forall_impl; [exact H1|]. intros y Hy. ulia.
  - eapply Forall_impl; [exact H2|]. intros y Hy. ulia.
Qed.

(** All of the block [x], which is behind [last_addr F1 base] in the ring. *)
Lemma take_all base lo hi freep m F1 x k F2 al :
  heap base lo hi freep m (F1 ++ (x, k) :: F2) al →
  let prev := last_addr F1 base in
  let m' := set_hptr prev (hptr m x) m in
  heap base lo hi prev m' (F1 ++ F2) ((x, k) :: al) ∧
  (∀ y, y ∈ al → ∀ b, y.1 <= b < finish y → m' b = m b).
Proof.
  intros [Hb Hhi Hfp Hring Hsp Hal Hap Hpw Htot] prev m'.
  pose proof (spaced_before _ _ _ _ _ _ Hsp) as [HF1 HF2]. pose proof (spaced_range _ _ _ Hsp) as Hr.
  pose proof (spaced_apart _ _ _ _ _ _ Hsp) as Hx. pose proof (apart_middle _ _ _ _ Hap) as [Hap' Hxal].
  apply Forall_app in Hr as [Hr1 Hr]. apply Forall_cons in Hr as [Hrx Hr2]. cbn [fst snd] in Hrx.
  rewrite app_comm_cons in Hring. apply lseg_app in Hring as [R1 (R2 & R3 & R4)]. cbn [fst snd] in R2, R3.
  apply spaced_app in Hsp as [S1 (S2 & S3 & S4 & S5)]. cbn [fst snd] in S2, S3.
  assert (Hpr : prev = base ∨ ∃ y, y ∈ F1 ∧ prev = y.1) by apply last_addr_in.
  assert (Hfx : prev + UNIT <= x).
  { destruct Hpr as [->|(y & Hy & ->)]; [ulia|]. rewrite Forall_forall in HF1. specialize (HF1 y Hy). ulia. }
  assert (Hkeep : ∀ y, y ∈ al → ∀ b, y.1 <= b < finish y → m' b = m b).
  { intros y Hy b Hyb. apply set_hptr_frame. rewrite Forall_forall in Hal, Hap.
    destruct (Hal y Hy) as (? & ? & ? & _). specialize (Hap y Hy). rewrite Forall_forall in Hap.
    destruct Hpr as [->|(z & Hz & ->)]; [ulia|]. rewrite Forall_forall in HF1. specialize (HF1 z Hz).
    assert (Hsep : separate y z) by (apply Hap; set_solver). ulia. }
  split; [|done]. unfold m' in *. rewrite R3 in Hkeep |- *.
  assert (Hto : 0 <= addr_of F2 base < 2 ^ 64).
  { destruct F2 as [|z F2]; [ulia|]. apply Forall_cons in Hr2 as [Hz _]. ulia. }
  split.
  - done.
  - done.
  - destruct Hpr as [->|(y & Hy & ->)]; [by left|right]. apply list_elem_of_fmap. exists y. set_solver.
  - rewrite app_comm_cons. apply lseg_app. split.
    + apply (lseg_set_last m (base, 0) F1 x _ hi); [done| |exact Hto]. eapply spaced_weaken; [|exact S1]. ulia.
    + apply (lseg_frame prev m); [apply set_hptr_frame| |done].
      eapply Forall_impl; [exact HF2|]. intros y Hy. ulia.
  - apply spaced_app. split; [done|]. eapply spaced_weaken; [|exact S5]. ulia.
  - constructor; [|by apply (al_kept lo hi m)]. cbn [fst snd].
    rewrite hsize_set_hptr by (right; by left). ulia.
  - constructor; done.
  - split; done.
  - rewrite units_app in *. simpl in *. lia.
Qed.

(** The last [nunits] units of a larger block. *)
Lemma take_tail base lo hi freep m F1 x k F2 al nunits :
  heap base lo hi freep m (F1 ++ (x, k) :: F2) al → 0 < nunits < k →
  let a := x + UNIT * (k - nunits) in
  let m' := set_hsize a nunits (set_hsize x (k - nunits) m) in
  heap base lo hi (last_addr F1 base) m' (F1 ++ (x, k - nunits) :: F2) ((a, nunits) :: al) ∧
  (∀ y, y ∈ al → ∀ b, y.1 <= b < finish y → m' b = m b).
Proof.
  intros [Hb Hhi Hfp Hring Hsp Hal Hap Hpw Htot] Hn a m'.
  pose proof (spaced_before _ _ _ _ _ _ Hsp) as [HF1 HF2]. pose proof (spaced_range _ _ _ Hsp) as Hr.
  pose proof (spaced_apart _ _ _ _ _ _ Hsp) as Hx. pose proof (apart_middle _ _ _ _ Hap) as [Hap' Hxal].
  apply Forall_app in Hr as [Hr1 Hr]. apply Forall_cons in Hr as [Hrx Hr2]. cbn [fst snd] in Hrx.
  rewrite app_comm_cons in Hring. apply lseg_app in Hring as [R1 (R2 & R3 & R4)]. cbn [fst snd] in R2, R3.
  apply spaced_app in Hsp as [S1 (S2 & S3 & S4 & S5)]. cbn [fst snd] in S2, S3.
  assert (Hk : 0 <= k - nunits < 2 ^ 32 ∧ 0 <= nunits < 2 ^ 32) by ulia.
  assert (Hax : x + UNIT <= a ∧ a + UNIT * nunits = x + UNIT * k) by ulia.
  assert (Hm : ∀ b, ¬ x <= b < x + UNIT * k → m' b = m b).
  { intros b Hxb. apply (frame_trans x a UNIT UNIT m (set_hsize x (k - nunits) m));
      [apply set_hsize_frame|apply set_hsize_frame|ulia|ulia]. }
  assert (Hseg : ∀ l to, Forall (λ y, y.1 + UNIT <= x ∨ x + UNIT * k <= y.1) l → lseg m l to → lseg m' l to).
  { intros l to Hl. apply lseg_ext. eapply Forall_impl; [exact Hl|]. intros y Hy.
    split; apply load_ext; intros b Hyb; apply Hm; ulia. }
  assert (Hkeep : ∀ y, y ∈ al → ∀ b, y.1 <= b < finish y → m' b = m b).
  { intros y Hy b Hyb. apply Hm. rewrite Forall_forall in Hxal. specialize (Hxal y Hy). ulia. }
  split; [|done]. split.
  - done.
  - done.
  - destruct (last_addr_in F1 base) as [->|(y & Hy & ->)]; [by left|right].
    apply list_elem_of_fmap. exists y. set_solver.
  - rewrite app_comm_cons. apply lseg_app. split.
    + apply Hseg; [|done]. constructor; [ulia|]. eapply Forall_impl; [exact HF1|]. intros y Hy. ulia.
    + simpl. unfold m'. rewrite hsize_set_hsize_ne, hsize_set_hsize, !hptr_set_hsize by
        first [done | lia | by left | right; ulia | ulia]. split; [done|]. split; [done|].
      apply Hseg; [|done]. eapply Forall_impl; [exact HF2|]. intros y Hy. ulia.
  - apply spaced_app. split; [done|]. simpl. split_and!; [ulia..|]. eapply spaced_weaken; [|exact S5]. ulia.
  - constructor; [|by apply (al_kept lo hi m)]. cbn [fst snd]. unfold m'. rewrite hsize_set_hsize by lia. ulia.
  - constructor.
    + apply Forall_app in Hx as [Hx1 Hx2]. apply Forall_app. split; [|constructor; [ulia|]].
      * eapply Forall_impl; [exact Hx1|]. intros y Hy. ulia.
      * eapply Forall_impl; [exact Hx2|]. intros y Hy. ulia.
    + rewrite Forall_forall in Hap', Hxal |- *. intros y Hy. specialize (Hap' y Hy). specialize (Hxal y Hy).
      apply Forall_app in Hap' as [? ?]. apply Forall_app. split; [done|]. constructor; [ulia|done].
  - split; [|done]. eapply Forall_impl; [exact Hxal|]. intros y Hy. ulia.
  - rewrite units_app in *. simpl in *. lia.
Qed.

(** ** The search of malloc() *)

Section search.
Context `{os : Os}.
Implicit Types s : ustate.

Lemma malloc_walk fuel freep nunits l prev to s :
  lseg (umem s) l to → Forall (λ x, x.2 < nunits ∧ x.1 ≠ freep) l →
  malloc_loop (length l + fuel) freep nunits prev (addr_of l to) s
  = malloc_loop fuel freep nunits (last_addr l prev) to s.
Proof.
  revert prev. induction l as [|x l IH]; intros prev Hm Hl; [done|].
  destruct Hm as (H1 & H2 & H3). apply Forall_cons in Hl as [[Hx Hne] Hl].
  cbn [length Nat.add malloc_loop addr_of]. unfold ubind at 1. cbn [umemory]. rewrite H1.
  destruct (Z.leb_spec nunits x.2); [lia|]. destruct (Z.eqb_spec x.1 freep); [done|].
  rewrite H2. by apply IH.
Qed.

(** A block that is large enough, behind [prev] in the ring. *)
Lemma malloc_found fuel base lo hi freep freep0 nunits F1 x k F2 al s :
  heap base lo hi freep0 (umem s) (F1 ++ (x, k) :: F2) al → 0 < nunits <= k →
  ∃ p m' F', malloc_loop (S fuel) freep nunits (last_addr F1 base) x s
      = Done (p, last_addr F1 base) (Ustate m' (uworld s)) ∧ p ≠ 0 ∧
    heap base lo hi (last_addr F1 base) m' F' ((p - UNIT, nunits) :: al) ∧
    (∀ y, y ∈ al → ∀ b, y.1 <= b < finish y → m' b = umem s b).
Proof.
  intros H Hn. pose proof H as [Hb Hhi _ Hring Hsp _ _ _ _].
  rewrite app_comm_cons in Hring. apply lseg_app in Hring as [_ (Hk & _ & _)]. cbn [fst snd] in Hk.
  pose proof (spaced_range _ _ _ Hsp) as Hr. apply Forall_app in Hr as [_ Hr].
  apply Forall_cons in Hr as [Hr _]. cbn [fst snd] in Hr.
  cbn [malloc_loop]. unfold ubind at 1. cbn [umemory]. rewrite Hk.
  destruct (Z.leb_spec nunits k); [|lia]. destruct (Z.eqb_spec k nunits) as [->|Hne].
  - destruct (take_all _ _ _ _ _ _ _ _ _ _ H) as [Ht Hkeep].
    exists (x + UNIT). eexists _, _. split; [|split; [|split; [|exact Hkeep]]].
    + unfold ubind, on_memory, ureturn. rewrite u64_small by ulia. reflexivity.
    + ulia.
    + replace (x + UNIT - UNIT) with x by lia. exact Ht.
  - destruct (take_tail _ _ _ _ _ _ _ _ _ _ nunits H) as [Ht Hkeep]; [lia|].
    rewrite (u32_small (k - nunits)) by ulia. rewrite (u64_small (x + _)) by ulia.
    exists (x + UNIT * (k - nunits) + UNIT). eexists _, _. split; [|split; [|split; [|exact Hkeep]]].
    + unfold ubind, on_memory, ureturn. rewrite u64_small by ulia. reflexivity.
    + ulia.
    + replace (x + UNIT * (k - nunits) + UNIT - UNIT) with (x + UNIT * (k - nunits)) by lia. exact Ht.
Qed.

Lemma first_big nunits (l : list block) :
  Forall (λ x, x.2 < nunits) l ∨
  ∃ u x v, l = u ++ x :: v ∧ Forall (λ x, x.2 < nunits) u ∧ nunits <= x.2.
Proof.
  induction l as [|y l IH]; [by left|]. destruct (decide (y.2 < nunits)) as [Hy|Hy].
  - destruct IH as [IH|(u & x & v & -> & Hu & Hx)]; [left; by constructor|].
    right. exists (y :: u), x, v. split; [done|]. split; [by constructor|done].
  - right. exists [], y, l. split; [done|]. split; [constructor|lia].
Qed.
Lemma spaced_NoDup base lo F hi : spaced lo F hi → base <= lo → NoDup ((base :: F.*1)).
Proof.
  revert base lo. induction F as [|x F IH]; intros base lo Hs Hb; simpl.
  - apply NoDup_singleton.
  - simpl in Hs. destruct Hs as (H1 & H2 & H3 & H4). apply NoDup_cons. split.
    + intros Hin. apply elem_of_cons in Hin as [->|Hin]; [lia|].
      apply list_elem_of_fmap in Hin as (y & -> & Hy). apply spaced_range in H4.
      rewrite Forall_forall in H4. specialize (H4 y Hy). ulia.
    + apply (IH x.1 (finish x)); [done|]. ulia.
Qed.
Lemma last_addr_app l1 x l2 d : last_addr (l1 ++ x :: l2) d = last_addr l2 x.1.
Proof. unfold last_addr. by rewrite foldl_app. Qed.

(** From [freep] around the ring: the search comes to a large enough block with its
    predecessor at hand, or back to [freep] if there is none. *)
Lemma malloc_search fuel base lo hi freep nunits F al s :
  heap base lo hi freep (umem s) F al → 0 < nunits → (length F < fuel)%nat →
  (∃ F1 x k F2 fuel', F = F1 ++ (x, k) :: F2 ∧ nunits <= k ∧ (0 < fuel')%nat ∧
     malloc_loop fuel freep nunits freep (hptr (umem s) freep) s
     = malloc_loop fuel' freep nunits (last_addr F1 base) x s) ∨
  (Forall (λ x, x.2 < nunits) F ∧ hsize (umem s) freep < nunits ∧
   ∃ prev, malloc_loop fuel freep nunits freep (hptr (umem s) freep) s
     = malloc_loop (fuel - length F) freep nunits prev freep s).
Proof.
  intros [Hb Hhi Hfp Hring Hsp _ _ _ _] Hn Hf.
  assert (HR : ∃ U n V, (base, 0) :: F = U ++ (freep, n) :: V).
  { destruct Hfp as [->|Hfp]; [by exists [], 0, F|]. apply list_elem_of_fmap in Hfp as ([a n] & -> & Hin).
    apply list_elem_of_split in Hin as (l1 & l2 & ->). by exists ((base, 0) :: l1), n, l2. }
  destruct HR as (U & n & V & HR).
  pose proof (spaced_NoDup base _ _ _ Hsp ltac:(ulia)) as Hnd.
  change (base :: F.*1) with ((base, 0) :: F).*1 in Hnd. rewrite HR in Hnd, Hring.
  rewrite fmap_app in Hnd. apply NoDup_app in Hnd as (_ & HU & HV). cbn in HV. apply NoDup_cons in HV as [HV _].
  assert (Hlen : (length F = length U + length V)%nat).
  { apply (f_equal length) in HR. rewrite length_app in HR. simpl in HR. lia. }
  rewrite Hlen in Hf. apply lseg_app in Hring as [LU (Hnsz & Hnext & LV)]. cbn [fst snd] in Hnsz, Hnext.
  assert (WV : ∀ u v, V = u ++ v → Forall (λ x, x.2 < nunits) u →
    malloc_loop fuel freep nunits freep (hptr (umem s) freep) s
    = malloc_loop (fuel - length u) freep nunits (last_addr u freep) (addr_of v base) s).
  { intros u v -> Hu. rewrite length_app in Hf. rewrite Hnext, addr_of_app.
    replace fuel with (length u + (fuel - length u))%nat at 1 by lia.
    apply lseg_app in LV as [LV _]. apply malloc_walk; [done|]. rewrite Forall_forall in *. set_solver. }
  assert (WU : ∀ u v f prev, U = u ++ v → Forall (λ x, x.2 < nunits) u → (length u <= f)%nat →
    malloc_loop f freep nunits prev base s
    = malloc_loop (f - length u) freep nunits (last_addr u prev) (addr_of v freep) s).
  { intros u v f prev -> Hu Hle.
    replace base with (addr_of u (addr_of v freep)) by 
      (rewrite <- addr_of_app; destruct (u ++ v) as [|[? ?] ?]; simpl in HR |- *; congruence).
    replace f with (length u + (f - length u))%nat at 1 by lia.
    apply lseg_app in LU as [LU _]. apply malloc_walk; [done|]. rewrite Forall_forall in *. set_solver. }
  destruct (first_big nunits V) as [SV|(u & [x k] & v & -> & Su & Hk)].
  2:{ left. assert (HF : ∃ F1, U ++ (freep, n) :: u = (base, 0) :: F1) by (destruct U; injection HR as -> ->; by eexists).
      destruct HF as (F1 & HF). rewrite app_comm_cons, app_assoc, HF in HR. injection HR as ->.
      exists F1, x, k, v, (fuel - length u)%nat. split; [done|]. split; [done|].
      rewrite length_app in Hf. split; [simpl in Hf; lia|]. rewrite (WV u ((x, k) :: v)) by done.
      change (last_addr F1 base) with (last_addr ((base, 0) :: F1) 0). by rewrite <- HF, last_addr_app. }
  destruct (first_big nunits U) as [SU|(u & [x k] & v & -> & Su & Hk)].
  2:{ left. destruct u as [|y F1]; cbn in HR; [injection HR as _ <- _; cbn in Hk; lia|].
      injection HR as <- ->.
      exists F1, x, k, (v ++ (freep, n) :: V), (fuel - length V - S (length F1))%nat. rewrite <- app_assoc.
      split; [done|]. split; [done|]. rewrite length_app in Hf. simpl in Hf. split; [lia|].
      rewrite (WV V []) by (done || by rewrite app_nil_r). cbn [addr_of].
      rewrite (WU ((base, 0) :: F1) ((x, k) :: v)) by (done || simpl; lia). done. }
  assert (HW : malloc_loop fuel freep nunits freep (hptr (umem s) freep) s
    = malloc_loop (fuel - length F) freep nunits (last_addr U (last_addr V freep)) freep s).
  { rewrite (WV V []) by (done || by rewrite app_nil_r). cbn [addr_of].
    rewrite (WU U []) by (done || by rewrite app_nil_r || lia). cbn [addr_of]. f_equal. lia. }
  destruct (decide (n < nunits)) as [Hn2|Hn2].
  - right. split; [|split; [by rewrite Hnsz|by eexists]].
    assert (HF : Forall (λ x, x.2 < nunits) ((base, 0) :: F)) by (rewrite HR; apply Forall_app; auto).
    by apply Forall_cons in HF as [_ ?].
  - left. destruct U as [|y F1]; cbn in HR; [injection HR as _ <- _; lia|]. injection HR as <- ->.
    exists F1, freep, n, V, (fuel - length (F1 ++ (freep, n) :: V))%nat. split; [done|]. split; [lia|].
    split; [lia|]. exact HW.
Qed.
End search.

(** ** Growing the heap *)

(** What malloc() assumes of sbrk(), for a positive number of bytes: it fails and changes
    nothing, or it returns the old break and moves it up. Memory allocated eagerly is far from
    filling the address space. *)
Class Brk `{os : Os} := {
  brk : world → Z;
  sbrk_ok n w : 0 < n →
    let '(r, w') := sys_sbrk n SBRK_EAGER w in
    (r = SBRK_ERROR ∧ brk w' = brk w) ∨ (r = brk w ∧ brk w' = brk w + n ∧ brk w + n <= 2 ^ 36)
}.

(** The new memory is a block of its own, as if it had been handed out. *)
Lemma heap_grow base lo hi freep m F al nu :
  heap base lo hi freep m F al → 0 < nu → hi + UNIT * nu <= 2 ^ 36 →
  heap base lo (hi + UNIT * nu) freep (set_hsize hi nu m) F ((hi, nu) :: al) ∧
  (∀ y, y ∈ al → ∀ b, y.1 <= b < finish y → set_hsize hi nu m b = m b).
Proof.
  intros [Hb Hhi Hfp Hring Hsp Hal Hap Hpw Htot] Hnu Hnew. pose proof (spaced_range _ _ _ Hsp) as Hr.
  assert (Hkeep : ∀ y, y ∈ al → ∀ b, y.1 <= b < finish y → set_hsize hi nu m b = m b).
  { intros y Hy b Hyb. rewrite Forall_forall in Hal. destruct (Hal y Hy) as (? & ? & ? & _).
    apply set_hsize_frame. ulia. }
  split; [|done]. split.
  - ulia.
  - done.
  - done.
  - apply (lseg_frame hi m); [apply set_hsize_frame| |done]. constructor; [ulia|].
    eapply Forall_impl; [exact Hr|]. intros y Hy. ulia.
  - eapply spaced_hi; [|exact Hsp]. ulia.
  - constructor; [cbn [fst snd]; rewrite hsize_set_hsize by ulia; ulia|]. apply (al_kept lo hi m) in Hkeep; [|done].
    eapply Forall_impl; [exact Hkeep|]. intros y (? & ? & ? & ?). ulia.
  - constructor; [|done]. eapply Forall_impl; [exact Hr|]. intros y Hy. ulia.
  - split; [|done]. eapply Forall_impl; [exact Hal|]. intros y Hy. ulia.
  - ulia.
Qed.

Section malloc_proof.
Context `{os : Os} {br : Brk}.
Implicit Types s : ustate.

(** The bytes morecore() asks sbrk() for: no fewer than 4096 units. *)
Definition asked (nu : Z) : Z := Z.max nu 4096 * UNIT.

Lemma morecore_ok fuel base lo freep nu F al s :
  heap base lo (brk (uworld s)) freep (umem s) F al → 0 < nu → UNIT * Z.max nu 4096 < 2 ^ 31 →
  (length F < fuel)%nat →
  let '(r, w') := sys_sbrk (asked nu) SBRK_EAGER (uworld s) in
  if r =? SBRK_ERROR then morecore fuel freep nu s = Done (0, freep) (Ustate (umem s) w') ∧ brk w' = brk (uworld s)
  else ∃ fp m' F', morecore fuel freep nu s = Done (fp, fp) (Ustate m' w') ∧ fp ≠ 0 ∧
     heap base lo (brk w') fp m' F' al ∧ (∃ x, x ∈ F' ∧ nu <= x.2) ∧ (length F' <= S (length F))%nat ∧
     (∀ y, y ∈ al → ∀ b, y.1 <= b < finish y → m' b = umem s b).
Proof.
  intros H Hnu Hmax Hf. unfold morecore. set (nu' := if nu <? 4096 then 4096 else nu).
  assert (Hnu' : nu' = Z.max nu 4096) by (unfold nu'; destruct (Z.ltb_spec nu 4096); lia). clearbody nu'.
  unfold asked. rewrite <- Hnu'.
  rewrite u64_small, i32_small by ulia.
  pose proof (sbrk_ok (nu' * UNIT) (uworld s) ltac:(ulia)) as Hs.
  destruct (sys_sbrk (nu' * UNIT) SBRK_EAGER (uworld s)) as [r w'] eqn:Er.
  assert (Hrun : ∀ k : Z → U (Z * Z), ubind (sbrk (nu' * UNIT)) k s = k r (Ustate (umem s) w'))
    by (intros k; unfold ubind, sbrk, on_world; by rewrite Er).
  rewrite Hrun. clear Hrun Er. destruct Hs as [[-> Hw]|(-> & Hw & Hmaxm)]; [by rewrite Z.eqb_refl|].
  pose proof H as [Hb Hhi _ _ _ _ _ _ _].
  destruct (Z.eqb_spec (brk (uworld s)) SBRK_ERROR) as [E|_]; [unfold SBRK_ERROR in E; ulia|].
  destruct (heap_grow _ _ _ _ _ _ _ nu' H) as [Hg Hk1]; [ulia|ulia|].
  destruct (free_ok _ _ _ _ _ _ [] al (brk (uworld s)) nu' fuel Hg Hf)
    as (m' & fp & F' & E & Hh & _ & (x & Hx & Hx2) & HL & Hk2).
  exists fp, m', F'. split; [|split; [|split; [|split; [|split]]]].
  - unfold ubind, on_memory, umemory. cbn [umem]. by rewrite u64_small, E by ulia.
  - destruct Hh as [Hb' _ [->|Hin] _ Hsp _ _ _ _]; [lia|]. apply list_elem_of_fmap in Hin as (y & -> & Hy).
    apply spaced_range in Hsp. rewrite Forall_forall in Hsp. specialize (Hsp y Hy). ulia.
  - rewrite Hw. replace (nu' * UNIT) with (UNIT * nu') by lia. done.
  - exists x. split; [done|lia].
  - done.
  - intros y Hy b Hyb. rewrite (Hk2 y Hy b Hyb). by apply (Hk1 y Hy).
Qed.

(** The allocator before its first call, and in use. *)
Definition ready (base lo freep : Z) (F al : list block) s : Prop :=
  (freep ≠ 0 ∧ heap base lo (brk (uworld s)) freep (umem s) F al) ∨
  (freep = 0 ∧ F = [] ∧ al = [] ∧ lo = brk (uworld s) ∧ 0 < base ∧ base + UNIT <= lo <= 2 ^ 36).

Lemma heap_first base lo m :
  0 < base → base + UNIT <= lo <= 2 ^ 36 →
  heap base lo lo base (set_hsize base 0 (set_hptr base base m)) [] [].
Proof.
  intros Hb Hlo. split; try done.
  - ulia.
  - ulia.
  - by left.
  - simpl. rewrite hsize_set_hsize, hptr_set_hsize, hptr_set_hptr by (by left || ulia). done.
  - ulia.
Qed.

Definition kept (al : list block) (m m' : memory) : Prop :=
  ∀ y, y ∈ al → ∀ b, y.1 <= b < finish y → m' b = m b.
Lemma kept_trans al m m1 m2 : kept al m m1 → kept al m1 m2 → kept al m m2.
Proof. intros H1 H2 y Hy b Hb. rewrite (H2 y Hy b Hb). by apply (H1 y Hy). Qed.

(** What a call of malloc() that succeeds leaves behind, with the kernel in state [w']. *)
Definition allocated (base lo nunits : Z) (al : list block) (m0 : memory) (w' : world) (r : ures (Z * Z)) : Prop :=
  ∃ p fp m' F', r = Done (p, fp) (Ustate m' w') ∧ p ≠ 0 ∧
    heap base lo (brk w') fp m' F' ((p - UNIT, nunits) :: al) ∧ kept al m0 m'.

Lemma malloc_there fuel base lo freep nunits F al s :
  heap base lo (brk (uworld s)) freep (umem s) F al → 0 < nunits → (length F < fuel)%nat →
  (∃ x, x ∈ F ∧ nunits <= x.2) →
  allocated base lo nunits al (umem s) (uworld s) (malloc_loop fuel freep nunits freep (hptr (umem s) freep) s).
Proof.
  intros H Hn Hf (z & Hz & Hz2).
  destruct (malloc_search fuel _ _ _ _ nunits _ _ _ H Hn Hf) as [(F1 & x & k & F2 & f & -> & Hk & Hf' & ->)|(Hsmall & _)].
  - destruct f as [|f]; [lia|].
    destruct (malloc_found f _ _ _ freep _ nunits _ _ _ _ _ s H) as (p & m' & F' & E & Hp & Hh & Hkeep); [lia|].
    exists p, (last_addr F1 base), m', F'. done.
  - rewrite Forall_forall in Hsmall. specialize (Hsmall z Hz). lia.
Qed.

(** What malloc() does when no free block has [nunits] units: it asks for more memory. *)
Definition extended (base lo nunits : Z) (F al : list block) (s : ustate) (r : ures (Z * Z)) : Prop :=
  let '(a, w') := sys_sbrk (asked nunits) SBRK_EAGER (uworld s) in
  if a =? SBRK_ERROR then
    ∃ fp m', r = Done (0, fp) (Ustate m' w') ∧ brk w' = brk (uworld s) ∧
      heap base lo (brk w') fp m' F al ∧ kept al (umem s) m'
  else allocated base lo nunits al (umem s) w' r.

Lemma malloc_more fuel base lo freep nunits F al s :
  heap base lo (brk (uworld s)) freep (umem s) F al → 0 < nunits → UNIT * Z.max nunits 4096 < 2 ^ 31 →
  (2 * length F + 4 <= fuel)%nat → Forall (λ x, x.2 < nunits) F →
  extended base lo nunits F al s (malloc_loop fuel freep nunits freep (hptr (umem s) freep) s).
Proof.
  intros H Hn Hmax Hf Hsmall. set (r := malloc_loop _ _ _ _ _ s).
  destruct (malloc_search fuel _ _ _ _ nunits _ _ _ H Hn ltac:(lia))
    as [(F1 & x & k & F2 & f & EF & Hk & _)|(_ & Hsz & prev & E)].
  { rewrite Forall_forall in Hsmall. assert (k < nunits); [|lia]. apply (Hsmall (x, k)). subst F. set_solver. }
  destruct (fuel - length F)%nat as [|f] eqn:Ef; [lia|].
  assert (Er : r = ubind (morecore f freep nunits) (λ q, if q.1 =? 0 then ureturn q
    else m <~ umemory ;; malloc_loop f q.2 nunits q.1 (hptr m q.1)) s).
  { unfold r. rewrite E. cbn [malloc_loop]. unfold ubind at 1. cbn [umemory].
    destruct (Z.leb_spec nunits (hsize (umem s) freep)); [lia|]. by rewrite Z.eqb_refl. }
  pose proof (morecore_ok f base lo freep nunits F al s H Hn Hmax ltac:(lia)) as Hm.
  unfold extended. destruct (sys_sbrk _ _ _) as [a w']. destruct (a =? SBRK_ERROR).
  - destruct Hm as [Em Hw]. exists freep, (umem s). rewrite Er. unfold ubind. rewrite Em, Hw. done.
  - destruct Hm as (fp & m' & F' & Em & Hfp & Hh & Hbig & HL & Hkeep).
    rewrite Er; unfold ubind; rewrite Em; cbn [fst snd]. destruct (Z.eqb_spec fp 0); [done|].
    destruct (malloc_there f base lo fp nunits F' al (Ustate m' w')) as (p & fp2 & m2 & F2 & E2 & Hp & Hh2 & Hk2);
      [done|done|lia|done|].
    exists p, fp2, m2, F2. split; [exact E2|]. split; [done|]. split; [done|]. by apply (kept_trans _ _ m').
Qed.
End malloc_proof.

(** C18: malloc() hands out memory that is nobody else's. Whatever has been allocated and freed
    before, and for requests whose size fits what sbrk() can be asked for, it terminates. If a
    free block is large enough, it succeeds without asking the kernel for anything. If none is,
    it calls sbrk() for the units it needs, and no fewer than 4096: it returns null exactly when
    that call fails, and every block is then as it was. When it succeeds, the block it returns
    has room for the bytes asked for, is disjoint from every block handed out before and from the
    free list, and the contents of those blocks are untouched; free and allocated blocks together
    still make up the whole heap, and the ring of free blocks is intact. *)
Theorem malloc_correct `{os : Os} {br : Brk} base lo freep nbytes F al fuel s :
  ready base lo freep F al s → 0 <= nbytes < 2 ^ 32 →
  let nunits := (nbytes + UNIT - 1) / UNIT + 1 in
  UNIT * Z.max nunits 4096 < 2 ^ 31 → (2 * length F + 4 <= fuel)%nat →
  nbytes <= UNIT * (nunits - 1) ∧
  ((∃ x, x ∈ F ∧ nunits <= x.2) →
     allocated base lo nunits al (umem s) (uworld s) (malloc base fuel freep nbytes s)) ∧
  (Forall (λ x, x.2 < nunits) F → extended base lo nunits F al s (malloc base fuel freep nbytes s)).
Proof.
  intros Hr Hn nunits Hmax Hf.
  assert (Hu : 0 < nunits ∧ nbytes <= UNIT * (nunits - 1)) by (unfold nunits, UNIT; dlia).
  split; [apply Hu|]. unfold malloc. rewrite (u32_small (_ / _ + 1)) by (fold nunits; ulia). fold nunits.
  destruct Hr as [[Hfp H]|(-> & -> & -> & -> & Hb & Hlo)].
  - destruct (Z.eqb_spec freep 0); [done|]. unfold ubind, ureturn, umemory. split; intros HF.
    + apply malloc_there with F; [done|lia|lia|done].
    + apply malloc_more; [done|lia|done|done|done].
  - split; [intros (x & Hx & _); by apply elem_of_nil in Hx|]. intros HF.
    unfold ubind, on_memory, umemory. cbn [Z.eqb umem uworld]. set (s0 := Ustate _ _).
    pose proof (malloc_more fuel base (brk (uworld s)) base nunits [] [] s0 ltac:(by apply heap_first)
      ltac:(lia) Hmax Hf HF) as Hx. unfold extended in Hx |- *. subst s0. cbn [umem uworld] in Hx.
    destruct (sys_sbrk _ _ _) as [a w']. destruct (a =? SBRK_ERROR).
    + destruct Hx as (fp & m' & E & Hw & Hh & _). exists fp, m'. split; [exact E|]. split; [done|]. split; [done|].
      intros y Hy. by apply elem_of_nil in Hy.
    + destruct Hx as (p & fp & m' & F' & E & Hp & Hh & _). exists p, fp, m', F'.
      split; [exact E|]. split; [done|]. split; [done|]. intros y Hy. by apply elem_of_nil in Hy.
Qed.

(** C36: free() takes a block back. Given the address of any block handed out, from any
    position of [freep], it terminates; the block joins the free list in order of address, merged
    with the free blocks that touch it on either side, no unit is lost, and the contents of the
    blocks still in use are untouched. *)
Theorem free_correct base lo hi freep m F al1 al2 bp n fuel :
  heap base lo hi freep m F (al1 ++ (bp, n) :: al2) → (length F < fuel)%nat →
  ∃ m' freep' F', free fuel m freep (bp + UNIT) = Some (m', freep') ∧
    heap base lo hi freep' m' F' (al1 ++ al2) ∧ units F' = units F + n ∧ kept (al1 ++ al2) m m'.
Proof.
  intros H Hf. destruct (free_ok _ _ _ _ _ _ _ _ _ _ _ H Hf) as (m' & fp & F' & E & Hh & Hu & _ & _ & Hk).
  exists m', fp, F'. done.
Qed.

(** A kernel that has a gigabyte to give. *)
Definition brk_os : Os := {|
  world := Z;
  sys_open _ _ w := (-1, w);
  sys_close _ w := (-1, w);
  sys_read _ _ w := ((-1, []), w);
  sys_write _ _ w := (-1, w);
  sys_fstat _ w := ((-1, []), w);
  sys_sbrk n _ w := if w + n <=? 2 ^ 30 then (w, w + n) else (SBRK_ERROR, w);
  sys_link _ _ w := (-1, w);
  sys_unlink _ w := (-1, w);
  sys_mkdir _ w := (-1, w);
  sys_kill _ w := (-1, w);
  sys_sync w := (0, w);
  sys_pause _ w := (0, w);
  sys_getpid w := (2, w);
  sys_getprocinfo _ w := ((-1, []), w);
  sys_getworkload w := ((-1, []), w)
|}.
Definition brk_sample : Brk (os := brk_os).
Proof.
  refine (Build_Brk brk_os (λ w, w : Z) _). intros n w Hn. cbn in w |- *.
  destruct (Z.leb_spec (w + n) (2 ^ 30)); [right|left]; lia.
Defined.

(** A program of 8192 bytes whose static header is at 4096. *)
Definition fresh : ustate (os := brk_os) := @Ustate brk_os (λ _, 0) 8192.

(** The first call gets 65536 bytes from the kernel; with the break at its limit it gets none. *)
Lemma malloc_correct_witness :
  allocated (br := brk_sample) 4096 8192 8 [] (λ _, 0) (8192 + 65536) (malloc (os := brk_os) 4096 4 0 100 fresh) ∧
  ∃ fp m', malloc (os := brk_os) 4096 4 0 100 (@Ustate brk_os (λ _, 0) (2 ^ 30))
           = Done (0, fp) (@Ustate brk_os m' (2 ^ 30)).
Proof.
  split.
  - destruct (malloc_correct (br := brk_sample) 4096 8192 0 100 [] [] 4 fresh) as (_ & _ & H).
    + right. unfold UNIT. cbn. do 4 (split; [reflexivity|]). lia.
    + lia.
    + vm_compute. reflexivity.
    + simpl. lia.
    + exact (H (Forall_nil_2 _)).
  - destruct (malloc_correct (br := brk_sample) 4096 (2 ^ 30) 0 100 [] [] 4 (@Ustate brk_os (λ _, 0) (2 ^ 30)))
      as (_ & _ & H).
    + right. unfold UNIT. cbn. do 4 (split; [reflexivity|]). lia.
    + lia.
    + vm_compute. reflexivity.
    + simpl. lia.
    + destruct (H (Forall_nil_2 _)) as (fp & m' & E & _). exists fp, m'. exact E.
Defined.

(** A heap of three blocks, the first and the last of them free. *)
Definition two_free : memory :=
  set_hsize 8192 2 (set_hptr 8192 8272 (set_hsize 8272 1 (set_hptr 8272 4096
    (set_hsize 8224 3 (set_hsize 4096 0 (set_hptr 4096 8192 (λ _, 0))))))).
Lemma two_free_heap : heap 4096 8192 8288 8272 two_free [(8192, 2); (8272, 1)] ([] ++ (8224, 3) :: []).
Proof.
  split.
  - unfold UNIT. lia.
  - lia.
  - right. apply (bool_decide_unpack _). by vm_compute.
  - cbn [lseg addr_of fst snd]. do 6 (split; [vm_compute; reflexivity|]). exact I.
  - cbn [spaced]. unfold finish, UNIT. cbn [fst snd]. lia.
  - apply Forall_singleton. unfold finish, UNIT. cbn [fst snd]. do 3 (split; [lia|]). vm_compute. reflexivity.
  - apply Forall_singleton. repeat constructor; unfold separate, finish, UNIT; simpl; lia.
  - repeat constructor.
  - vm_compute. reflexivity.
Qed.
Lemma free_correct_witness :
  ∃ m' freep' F', free 3 two_free 8272 8240 = Some (m', freep') ∧
    heap 4096 8192 8288 freep' m' F' [] ∧ units F' = 6.
Proof.
  destruct (free_correct 4096 8192 8288 8272 two_free [(8192, 2); (8272, 1)] [] [] 8224 3 3)
    as (m' & fp & F' & E & H & Hu & _).
  - exact two_free_heap.
  - simpl. lia.
  - exists m', fp, F'. split; [exact E|]. split; [exact H|exact Hu].
Defined.

(** Malloc() does not check that its request fits sbrk()'s int. Asked for 2^32 - 1 bytes
    it asks sbrk() for 16 (the low 32 bits of the 2^32 + 16 it needs), and returns, instead of
    null, the address of the break itself: a block whose size field claims 4 GB, of which the
    program owns the header. Asked for 2^31 bytes it passes sbrk() a negative number. *)
Theorem malloc_wraps :
  match malloc (os := brk_os) 4096 4 0 (2 ^ 32 - 1) fresh with
  | Done (p, _) s => p = 8208 ∧ uworld s = 8208 ∧ hsize (umem s) (p - UNIT) = 2 ^ 28 + 1
  | _ => False
  end ∧
  i32 (u64 ((2 ^ 31 / UNIT + 1) * UNIT)) = 16 - 2 ^ 31.
Proof. vm_compute. repeat split. Qed.
