(* ===== verification/Grep.v ===== *)
(** user/grep.c: the regular expression matcher, and the loop that splits its input into
    lines in a fixed buffer.

    The matcher reads two C strings and nothing else, so a string is the list of its
    characters and [re + 1] the tail of the list; the character after the last one is the NUL.
    The theorems relate it to a grammar of patterns and the language each one stands for. The
    loop works on the program's memory, and its theorem says that the lines it prints do not
    depend on how the input arrives. *)
From S2P Require Import Prelude Cstring Ulib.

(** ** The matcher *)

Definition CARET : Z := 94.
Definition STAR : Z := 42.
Definition DOT : Z := 46.
Definition DOLLAR : Z := 36.
Definition NEWLINE : Z := 10.

(** [s[i]], for [i] up to the length of the string. *)
Definition char_at (s : list Z) (i : nat) : Z := nth i s 0.

(** [do { if (matchhere(re, text)) return 1; } while (...)], with [matchhere(re)] given. *)
Fixpoint matchstar (c : Z) (matchhere_re : list Z → bool) (text : list Z) : bool :=
  matchhere_re text ||
  match text with
  | [] => false
  | t :: text' => if (t =? c) || (c =? DOT) then matchstar c matchhere_re text' else false
  end.

Fixpoint matchhere (re text : list Z) : bool :=
  match re with
  | [] => true
  | c :: re1 =>
      let otherwise :=
        if (c =? DOLLAR) && bool_decide (re1 = []) then bool_decide (text = [])
        else match text with
             | t :: text' => if (c =? DOT) || (c =? t) then matchhere re1 text' else false
             | [] => false
             end in
      match re1 with
      | c1 :: re2 => if c1 =? STAR then matchstar c (matchhere re2) text else otherwise
      | [] => otherwise
      end
  end.

Fixpoint match_anywhere (re text : list Z) : bool :=
  matchhere re text ||
  match text with
  | [] => false
  | _ :: text' => match_anywhere re text'
  end.
Definition match_ (re text : list Z) : bool :=
  match re with
  | c :: re1 => if c =? CARET then matchhere re1 text else match_anywhere re text
  | [] => match_anywhere re text
  end.

(** ** What a pattern means *)

Inductive atom := Any | Lit (c : Z).
Inductive item := One (a : atom) | Many (a : atom) | End_of_text.

Definition atom_of (c : Z) : atom := if c =? DOT then Any else Lit c.
Fixpoint items (re : list Z) : list item :=
  match re with
  | [] => []
  | c :: re1 =>
      let otherwise :=
        if (c =? DOLLAR) && bool_decide (re1 = []) then [End_of_text] else One (atom_of c) :: items re1 in
      match re1 with
      | c1 :: re2 => if c1 =? STAR then Many (atom_of c) :: items re2 else otherwise
      | [] => otherwise
      end
  end.

Definition matches_atom (a : atom) (t : Z) : Prop :=
  match a with Any => True | Lit c => t = c end.

(** [matches l w rest]: the items [l] match [w], where the text goes on with [rest]. *)
Inductive matches : list item → list Z → list Z → Prop :=
| M_nil rest : matches [] [] rest
| M_one a l t w rest : matches_atom a t → matches l w rest → matches (One a :: l) (t :: w) rest
| M_many a l w1 w2 rest :
    Forall (matches_atom a) w1 → matches l w2 rest → matches (Many a :: l) (w1 ++ w2) rest
| M_end l : matches l [] [] → matches (End_of_text :: l) [] [].

(** A match at the start of the text, and a match anywhere in it. *)
Definition matches_prefix (l : list item) (text : list Z) : Prop :=
  ∃ w rest, text = w ++ rest ∧ matches l w rest.
Definition pattern_matches (re text : list Z) : Prop :=
  match re with
  | c :: re1 =>
      if c =? CARET then matches_prefix (items re1) text
      else ∃ before after, text = before ++ after ∧ matches_prefix (items re) after
  | [] => True
  end.

(** ** The matcher implements the language *)

Lemma atom_ok c t : (t =? c) || (c =? DOT) = true ↔ matches_atom (atom_of c) t.
Proof. unfold atom_of, matches_atom. destruct (Z.eqb_spec c DOT), (Z.eqb_spec t c); naive_solver. Qed.

Lemma matchstar_ok c (mh : list Z → bool) text :
  matchstar c mh text = true ↔
  ∃ w text', text = w ++ text' ∧ Forall (matches_atom (atom_of c)) w ∧ mh text' = true.
Proof.
  induction text as [|t text IH]; simpl; rewrite orb_true_iff.
  - split.
    + intros [H|?]; [|done]. by exists [], [].
    + intros (w & text' & E & _ & H). left. by destruct w, text'.
  - split.
    + intros [H|H]; [by exists [], (t :: text)|].
      destruct (_ || _) eqn:E in H; [|done]. apply atom_ok in E.
      apply IH in H as (w & text' & -> & Hw & H). exists (t :: w), text'. auto.
    + intros (w & text' & E & Hw & H). destruct w as [|t' w]; simplify_eq/=; [by left|].
      right. apply Forall_cons in Hw as [Ht Hw]. apply atom_ok in Ht. rewrite Ht.
      apply IH. eauto.
Qed.

Lemma matches_prefix_many a l text :
  matches_prefix (Many a :: l) text ↔
  ∃ w text', text = w ++ text' ∧ Forall (matches_atom a) w ∧ matches_prefix l text'.
Proof.
  split.
  - intros (w & rest & -> & H). inversion H; subst.
    eexists w1, (w2 ++ rest). rewrite app_assoc. split; [done|]. split; [done|]. by eexists _, _.
  - intros (w1 & text' & -> & Hw & w2 & rest & -> & H). exists (w1 ++ w2), rest.
    rewrite app_assoc. split; [done|]. by constructor.
Qed.
Lemma matches_prefix_one a l text :
  matches_prefix (One a :: l) text ↔
  ∃ t text', text = t :: text' ∧ matches_atom a t ∧ matches_prefix l text'.
Proof.
  split.
  - intros (w & rest & -> & H). inversion H; subst. eexists t, (_ ++ rest). split; [done|].
    split; [done|]. by eexists _, _.
  - intros (t & text' & -> & Ht & w & rest & -> & H). exists (t :: w), rest. split; [done|].
    by constructor.
Qed.
Lemma matches_prefix_end text : matches_prefix [End_of_text] text ↔ text = [].
Proof.
  split.
  - intros (w & rest & -> & H). by inversion H.
  - intros ->. exists [], []. split; [done|]. repeat constructor.
Qed.

Lemma matchhere_ok re text : matchhere re text = true ↔ matches_prefix (items re) text.
Proof.
  remember (length re) as n eqn:Hn. assert (Hle : (length re <= n)%nat) by lia. clear Hn.
  revert re text Hle. induction n as [|n IH]; intros re text Hle.
  - destruct re; [|simpl in Hle; lia]. split; [|done]. intros _. exists [], text. repeat constructor.
  - destruct re as [|c re1]; [split; [|done]; intros _; exists [], text; repeat constructor|].
    simpl in Hle.
    assert (Ho : (if (c =? DOLLAR) && bool_decide (re1 = []) then bool_decide (text = [])
        else match text with
             | t :: text' => if (c =? DOT) || (c =? t) then matchhere re1 text' else false
             | [] => false
             end) = true ↔
      matches_prefix (if (c =? DOLLAR) && bool_decide (re1 = []) then [End_of_text]
        else One (atom_of c) :: items re1) text).
    { destruct (_ && _).
      - rewrite matches_prefix_end. apply bool_decide_eq_true.
      - rewrite matches_prefix_one. destruct text as [|t text]; [naive_solver|].
        rewrite <- (Z.eqb_sym t c). rewrite orb_comm. destruct (_ || _) eqn:E.
        + rewrite IH by lia. apply atom_ok in E. naive_solver.
        + split; [done|]. intros (t' & text' & [= <- <-] & Ht & _). apply atom_ok in Ht. congruence. }
    cbn [matchhere items]. destruct re1 as [|c1 re2]; [done|]. destruct (c1 =? STAR); [|done].
    rewrite matchstar_ok, matches_prefix_many. setoid_rewrite IH; [done|]. simpl in Hle. lia.
Qed.

Lemma match_anywhere_ok re text :
  match_anywhere re text = true ↔
  ∃ before after, text = before ++ after ∧ matches_prefix (items re) after.
Proof.
  induction text as [|t text IH]; simpl; rewrite orb_true_iff, matchhere_ok.
  - split.
    + intros [H|?]; [|done]. by exists [], [].
    + intros (b & a & E & H). symmetry in E. apply app_nil in E as [-> ->]. by left.
  - rewrite IH. split.
    + intros [H|(b & a & -> & H)]; [by exists [], (t :: text)|by exists (t :: b), a].
    + intros ([|t' b] & a & E & H); simplify_eq/=; [by left|right; eauto].
Qed.

(** C19: grep's matcher decides the language of the pattern. match() answers 1 exactly when
    the text contains, anywhere, or at its start if the pattern begins with [^], a piece that
    the rest of the pattern derives: [c] is the character itself, [.] any character, [x*] any
    number of characters that [x] matches, and [$] at the end of the pattern the end of the
    text; every other use of these symbols is the character itself. *)
Theorem match_correct re text : match_ re text = true ↔ pattern_matches re text.
Proof.
  unfold match_, pattern_matches. destruct re as [|c re].
  - rewrite match_anywhere_ok. split; [done|]. intros _. exists [], text. split; [done|].
    exists [], text. repeat constructor.
  - destruct (c =? CARET); [apply matchhere_ok|apply match_anywhere_ok].
Qed.

(** ** grep() *)

Definition BUFSIZE : Z := 1024.
(** More than the characters of the buffer, for the loops that stop at its NUL. *)
Definition BUFFUEL : nat := 1025.

Section grep.
Context `{os : Os}.
Context (buf : Z). (* the address of the global array *)

(** [while ((q = strchr(p, '\n')) != 0)], from [p]; the result is the final [p]. *)
Fixpoint grep_lines (fuel : nat) (pattern : list Z) (p : Z) : U Z :=
  match fuel with
  | O => running
  | S fuel =>
      m <~ umemory ;;
      match strchr BUFFUEL m p NEWLINE with
      | None => running
      | Some q =>
          if q =? 0 then ureturn p
          else
            on_memory (λ m, upd m q 0) ;;~
            m <~ umemory ;;
            match cstring BUFFUEL m p with
            | None => running
            | Some text =>
                (if match_ pattern text then
                   on_memory (λ m, upd m q NEWLINE) ;;~ write 1 p (q + 1 - p)
                 else ureturn 0) ;;~
                grep_lines fuel pattern (q + 1)
            end
      end
  end.

(** The outer loop, from [m]. *)
Fixpoint grep_loop (fuel : nat) (pattern : list Z) (fd m : Z) : U unit :=
  match fuel with
  | O => running
  | S fuel =>
      n <~ read fd (buf + m) (BUFSIZE - m - 1) ;;
      if n <=? 0 then ureturn tt
      else
        let m := m + n in
        on_memory (λ d, upd d (buf + m) 0) ;;~
        p <~ grep_lines BUFFUEL pattern buf ;;
        if 0 <? m then
          let m := m - (p - buf) in
          on_memory (λ d, memmove d buf p m) ;;~
          grep_loop fuel pattern fd m
        else grep_loop fuel pattern fd m
  end.
Definition grep (fuel : nat) (pattern : list Z) (fd : Z) : U unit := grep_loop fuel pattern fd 0.
End grep.

(** ** The lines grep prints *)

(** The terminated lines of [cur ++ input], where [cur] is the line so far. *)
Fixpoint lines (cur input : list Z) : list (list Z) :=
  match input with
  | [] => []
  | c :: input => if c =? NEWLINE then cur :: lines [] input else lines (cur ++ [c]) input
  end.
(** Up to the first line that does not fit in the buffer. *)
Fixpoint fitting (l : list (list Z)) : list (list Z) :=
  match l with
  | [] => []
  | x :: l => if Z.of_nat (length x) <=? 1022 then x :: fitting l else []
  end.
Definition printed (pattern : list Z) (l : list (list Z)) : list Z :=
  concat ((λ x, x ++ [NEWLINE]) <$> filter (λ x, match_ pattern x = true) l).
Definition grep_output (pattern input : list Z) : list Z :=
  printed pattern (fitting (lines [] input)).

Definition plain (c : Z) : Prop := 0 < c < 2 ^ 8.

Lemma lines_app cur a b :
  NEWLINE ∉ a → lines cur (a ++ b) = lines (cur ++ a) b.
Proof.
  revert cur. induction a as [|c a IH]; intros cur Ha; [by rewrite app_nil_r|].
  apply not_elem_of_cons in Ha as [Hc Ha]. cbn [lines app].
  rewrite (proj2 (Z.eqb_neq c NEWLINE)) by done. by rewrite IH, <- app_assoc by done.
Qed.
Lemma fitting_long cur rest : (1022 < length cur)%nat → fitting (lines cur rest) = [].
Proof.
  revert cur. induction rest as [|c rest IH]; intros cur Hc; [done|]. cbn [lines].
  destruct (c =? NEWLINE).
  - cbn [fitting]. destruct (Z.leb_spec (Z.of_nat (length cur)) 1022); [lia|done].
  - apply IH. rewrite length_app. lia.
Qed.
Lemma printed_cons pattern x l :
  printed pattern (x :: l)
  = (if match_ pattern x then x ++ [NEWLINE] else []) ++ printed pattern l.
Proof. unfold printed. rewrite filter_cons. destruct (match_ pattern x); by case_decide. Qed.

(** A text is its first line and the rest, or a line without an end. *)
Lemma first_line text :
  NEWLINE ∉ text ∨ ∃ l rest, text = l ++ NEWLINE :: rest ∧ NEWLINE ∉ l.
Proof.
  induction text as [|c text IH]; [left; by apply not_elem_of_nil|].
  destruct (decide (c = NEWLINE)) as [->|Hc].
  - right. exists [], text. split; [done|]. by apply not_elem_of_nil.
  - destruct IH as [IH|(l & rest & -> & Hl)].
    + left. by apply not_elem_of_cons.
    + right. exists (c :: l), rest. split; [done|]. by apply not_elem_of_cons.
Qed.
Lemma plain_line l : Forall plain l → NEWLINE ∉ l → Forall (λ x, x ≠ 0 ∧ x ≠ NEWLINE) l.
Proof.
  intros Hp Hn. rewrite Forall_forall in *. intros x Hx. specialize (Hp x Hx).
  split; [unfold plain in Hp; lia | intros ->; by apply Hn].
Qed.
Lemma lines_short cur text :
  Forall (λ x, (length x < length cur + length text)%nat) (lines cur text).
Proof.
  revert cur. induction text as [|c text IH]; intros cur; [constructor|]. cbn [lines length].
  destruct (c =? NEWLINE).
  - constructor; [lia|]. eapply Forall_impl; [apply IH|]. simpl. lia.
  - eapply Forall_impl; [apply IH|]. intros x. rewrite length_app. simpl. lia.
Qed.
Lemma fitting_app a b :
  Forall (λ x, (length x <= 1022)%nat) a → fitting (a ++ b) = a ++ fitting b.
Proof.
  induction 1 as [|x a Hx _ IH]; [done|]. cbn [fitting app].
  destruct (Z.leb_spec (Z.of_nat (length x)) 1022); [by rewrite IH|lia].
Qed.
Lemma printed_app pattern a b : printed pattern (a ++ b) = printed pattern a ++ printed pattern b.
Proof. unfold printed. by rewrite filter_app, fmap_app, concat_app. Qed.

(** The buffer after a read() behind the unfinished line. *)
Lemma filled m a part l :
  holds m a part → Forall plain l →
  holds (upd (write_bytes m (a + Z.of_nat (length part)) l)
    (a + (Z.of_nat (length part) + Z.of_nat (length l))) 0) a ((part ++ l) ++ [0]).
Proof.
  intros Hh Hl. rewrite !holds_app, holds_cons, length_app. split; [split|split; [|apply holds_nil]].
  - apply (holds_ext m); [done|]. intros x Hx. rewrite upd_ne by lia. apply write_bytes_frame. lia.
  - eapply holds_ext; [apply holds_write; eapply Forall_impl; [exact Hl|]; unfold plain; lia|].
    intros x Hx. apply upd_ne. lia.
  - rewrite Nat2Z.inj_add. by rewrite upd_eq.
Qed.

Section grep_proof.
Context `{os : Os} (fd : Z) {io : Stdio fd}.
Context (buf : Z) (Hbuf : 0 < buf).

(** One line of the inner loop, once its newline at [q] has been overwritten. *)
Lemma print_line pattern l rest p s :
  holds (umem s) p (l ++ NEWLINE :: rest) →
  let q := p + Z.of_nat (length l) in
  ∃ s1, (if match_ pattern l then on_memory (λ m, upd m q NEWLINE) ;;~ write 1 p (q + 1 - p)
         else ureturn 0) (Ustate (upd (umem s) q 0) (uworld s))
      = Done (if match_ pattern l then q + 1 - p else 0) s1 ∧
    holds (umem s1) (q + 1) rest ∧
    written fd (uworld s1) = written fd (uworld s) ++ (if match_ pattern l then l ++ [NEWLINE] else []) ∧
    remaining fd (uworld s1) = remaining fd (uworld s).
Proof.
  intros Hh q. apply holds_app in Hh as [Hh1 Hh2]. apply holds_cons in Hh2 as [Hnl Hh2]. fold q in Hh2.
  destruct (match_ pattern l).
  - unfold ubind at 1. cbn [on_memory umem uworld].
    destruct (uwrite_run fd (l ++ [NEWLINE]) p (q + 1 - p)
      (Ustate (upd (upd (umem s) q 0) q NEWLINE) (uworld s))) as (w' & E & Hw & Hr).
    + apply holds_app. split.
      * apply (holds_ext (umem s)); [done|]. intros x Hx. cbn. rewrite !upd_ne; unfold q; lia.
      * apply holds_cons. split; [apply upd_eq|apply holds_nil].
    + rewrite length_app. cbn. lia.
    + eexists. split; [exact E|]. split; [|done].
      apply (holds_ext (umem s)); [done|]. intros x Hx. cbn. rewrite !upd_ne; lia.
  - eexists. split; [reflexivity|]. split; [|by rewrite app_nil_r].
    apply (holds_ext (umem s)); [done|]. intros x Hx. cbn. rewrite upd_ne; lia.
Qed.

(** The inner loop prints the matching lines of the text in the buffer, and stops at the
    unfinished line behind them. *)
Lemma grep_lines_ok fuel pattern p text s :
  0 < p → holds (umem s) p (text ++ [0]) → Forall plain text → (length text <= 1023)%nat →
  (length text < fuel)%nat →
  ∃ part s', grep_lines fuel pattern p s
      = Done (p + Z.of_nat (length text) - Z.of_nat (length part)) s' ∧
    (length part <= length text)%nat ∧ NEWLINE ∉ part ∧ Forall plain part ∧
    holds (umem s') (p + Z.of_nat (length text) - Z.of_nat (length part)) part ∧
    written fd (uworld s') = written fd (uworld s) ++ printed pattern (lines [] text) ∧
    remaining fd (uworld s') = remaining fd (uworld s) ∧
    ∀ rest, lines [] (text ++ rest) = lines [] text ++ lines part rest.
Proof.
  revert p text s. induction fuel as [|fuel IH]; intros p text s Hp Hh Hpl Hlen Hf; [lia|].
  cbn [grep_lines]. unfold ubind at 1. cbn [umemory].
  destruct (first_line text) as [Hn|(l & rest & -> & Hl)].
  - rewrite (strchr_missing _ _ _ text) by (done || by apply plain_line || (unfold BUFFUEL; lia)).
    exists text, s. cbn. assert (lines [] text = []) as E.
    { pose proof (lines_app [] text [] Hn) as E. rewrite app_nil_r in E. by rewrite E. }
    rewrite E. cbn. rewrite app_nil_r. apply holds_app in Hh as [Hh _].
    replace (p + Z.of_nat (length text) - Z.of_nat (length text)) with p by lia.
    split_and!; try done. intros rest. by rewrite lines_app.
  - rewrite <- app_assoc in Hh. cbn [app] in Hh. rewrite length_app in Hlen, Hf. cbn [length] in Hlen, Hf.
    apply Forall_app in Hpl as [Hpl1 Hpl2]. apply Forall_cons in Hpl2 as [Hpn Hpl2].
    pose proof (plain_line l Hpl1 Hl) as Hl'.
    pose proof Hh as Hh0. apply holds_app in Hh as [Hh1 Hh2]. apply holds_cons in Hh2 as [Hnl Hh2].
    set (q := p + Z.of_nat (length l)) in *.
    rewrite (strchr_found _ _ _ l) by
      first [done | unfold BUFFUEL; lia | apply holds_app; split; [done|]; apply holds_cons; by split].
    fold q. destruct (Z.eqb_spec q 0) as [|_]; [unfold q in *; lia|].
    set (m1 := upd (umem s) q 0).
    assert (Hm1 : holds m1 p (l ++ [0])).
    { apply holds_app. split.
      - apply (holds_ext (umem s)); [done|]. intros x Hx. apply upd_ne. unfold q. lia.
      - apply holds_cons. split; [apply upd_eq|apply holds_nil]. }
    unfold ubind at 1. cbn [on_memory]. fold m1. unfold ubind at 1. cbn [umemory umem].
    rewrite (cstring_holds _ _ _ l) by
      first [done | unfold BUFFUEL; lia | eapply Forall_impl; [exact Hl'|]; cbn; tauto].
    destruct (print_line pattern l (rest ++ [0]) p s) as (s1 & E1 & Hh3 & Hw & Hr); [done|]. fold q m1 in E1.
    fold q in Hh3. unfold ubind at 1. rewrite E1.
    destruct (IH (q + 1) rest s1) as (part & s2 & E2 & Hpl3 & Hn3 & Hp3 & Hh4 & Hw2 & Hr2 & Hls); [lia|done|done|lia|lia|].
    exists part, s2. rewrite E2.
    assert (HL : ∀ r, lines [] (l ++ NEWLINE :: r) = l :: lines [] r).
    { intros r. rewrite lines_app by done. done. }
    replace (q + 1 + Z.of_nat (length rest)) with (p + Z.of_nat (length (l ++ NEWLINE :: rest))) in *
      by (rewrite length_app; cbn; lia).
    rewrite HL, printed_cons, app_assoc, <- Hw.
    split; [done|]. split; [rewrite length_app; cbn; lia|]. split_and!; try done; [congruence|].
    intros r. rewrite <- app_assoc. cbn [app]. rewrite HL. by rewrite Hls.
Qed.

Lemma grep_loop_ok fuel pattern part s :
  holds (umem s) buf part → NEWLINE ∉ part → Forall plain part → (length part <= 1023)%nat →
  Forall plain (remaining fd (uworld s)) → (length (remaining fd (uworld s)) < fuel)%nat →
  ∃ s', grep_loop buf fuel pattern fd (Z.of_nat (length part)) s = Done tt s' ∧
    written fd (uworld s') = written fd (uworld s)
      ++ printed pattern (fitting (lines part (remaining fd (uworld s)))).
Proof.
  revert part s. induction fuel as [|fuel IH]; intros part s Hh Hn Hpl Hlen Hpr Hf; [lia|].
  cbn [grep_loop]. unfold ubind at 1.
  destruct (uread_run fd (buf + Z.of_nat (length part)) (BUFSIZE - Z.of_nat (length part) - 1) s)
    as (l & w & E & Hl & Hr & He & Hw); [unfold BUFSIZE; lia|]. rewrite E. clear E.
  unfold BUFSIZE in Hl, He. destruct (decide (l = [])) as [->|Hne].
  - exists (Ustate (umem s) w). split; [done|]. cbn. rewrite Hw.
    destruct (decide (length part = 1023%nat)) as [Hp|Hp].
    + rewrite fitting_long by lia. by rewrite app_nil_r.
    + destruct (remaining fd (uworld s)); [by rewrite app_nil_r|]. exfalso. apply He; [lia|done|done].
  - assert (0 < length l)%nat by (destruct l; [done|simpl; lia]).
    destruct (Z.leb_spec (Z.of_nat (length l)) 0); [lia|].
    rewrite Hr in Hpr, Hf. apply Forall_app in Hpr as [Hpl2 Hpr]. rewrite length_app in Hf.
    unfold ubind at 1. cbn [on_memory umem uworld]. unfold ubind at 1.
    set (m1 := write_bytes (umem s) _ l). set (m2 := upd m1 _ 0).
    destruct (grep_lines_ok BUFFUEL pattern buf (part ++ l) (Ustate m2 w))
      as (part2 & s2 & E2 & H1 & H2 & H3 & H4 & H5 & H6 & H7).
    1: done.
    1: by apply filled.
    1: by apply Forall_app.
    1: rewrite length_app; lia.
    1: rewrite length_app; unfold BUFFUEL; lia.
    rewrite E2. destruct (Z.ltb_spec 0 (Z.of_nat (length part) + Z.of_nat (length l))); [|lia].
    rewrite length_app in E2, H1, H4 |- *. 
    set (p := buf + _ - _) in *.
    replace (Z.of_nat (length part) + Z.of_nat (length l) - (p - buf)) with (Z.of_nat (length part2)) by lia.
    unfold ubind at 1. cbn [on_memory].
    destruct (IH part2 (Ustate (memmove (umem s2) buf p (Z.of_nat (length part2))) (uworld s2))) as (s3 & E3 & H9); cbn [umem uworld].
    + apply memmove_holds; [done|]. eapply Forall_impl; [exact H3|]. unfold plain. lia.
    + done.
    + done.
    + lia.
    + by rewrite H6.
    + rewrite H6. cbn. lia.
    + exists s3. split; [done|]. rewrite H9. cbn [uworld]. rewrite H5, H6. cbn [uworld]. rewrite Hw, <- app_assoc. f_equal.
      rewrite Hr. rewrite <- printed_app. f_equal.
      rewrite <- fitting_app.
      * by rewrite <- H7, <- app_assoc, (lines_app [] part).
      * eapply Forall_impl; [apply lines_short|]. intros x. rewrite length_app. simpl. lia.
Qed.
End grep_proof.


(** C37: grep prints the right lines however its input arrives. For any input without NUL
    bytes and any way read() splits it, grep() terminates, and what it writes is exactly the
    terminated lines that match the pattern, each with its newline, in order, up to the first
    line of more than 1022 characters. The buffer holds 1023: at such a line grep stops without
    a message, whatever follows; an unterminated last line is not looked at. *)
Theorem grep_correct `{os : Os} (fd : Z) {io : Stdio fd} buf pattern fuel s :
  0 < buf → Forall plain (remaining fd (uworld s)) →
  (length (remaining fd (uworld s)) < fuel)%nat →
  ∃ s', grep buf fuel pattern fd s = Done tt s' ∧
    written fd (uworld s')
    = written fd (uworld s) ++ grep_output pattern (remaining fd (uworld s)).
Proof.
  intros Hb Hp Hf. apply (grep_loop_ok fd buf Hb fuel pattern []);
    first [done | apply holds_nil | apply not_elem_of_nil | simpl; lia].
Qed.

(** A kernel whose reads return at most three bytes at a time. *)
#[global] Instance sample_os : Os := {|
  world := list Z * list Z;
  sys_open _ _ w := (0, w);
  sys_close _ w := (0, w);
  sys_read _ n w := let l := take (Nat.min 3 (Z.to_nat n)) w.1 in
    ((Z.of_nat (length l), l), (drop (Nat.min 3 (Z.to_nat n)) w.1, w.2));
  sys_write _ l w := (Z.of_nat (length l), (w.1, w.2 ++ l));
  sys_fstat _ w := ((-1, []), w);
  sys_sbrk _ _ w := (SBRK_ERROR, w);
  sys_link _ _ w := (-1, w);
  sys_unlink _ w := (-1, w);
  sys_mkdir _ w := (-1, w);
  sys_kill _ w := (-1, w);
  sys_sync w := (0, w);
  sys_pause _ w := (0, w);
  sys_getpid w := (2, w);
  sys_getprocinfo _ w := ((-1, []), w);
  sys_getworkload w := ((-1, []), w)
|}.
#[global] Instance sample_stdio : Stdio (os := sample_os) 0.
Proof.
  refine {| remaining := fst : world → list Z; written := snd : world → list Z |}.
  - intros n w Hn. cbn -[Nat.min]. split; [done|]. rewrite length_take, take_drop. split; [lia|].
    split; [done|]. split; [|done]. intros Hn' He. destruct w.1; [done|].
    destruct (Nat.min 3 (Z.to_nat n)) eqn:E; [lia|done].
  - intros l w. done.
Defined.

Lemma grep_correct_witness :
  let s := Ustate (os := sample_os) (λ _, 0) ([97; 98; 10; 99; 10; 98; 10; 98], []) in
  ∃ s', grep 4096 20 [98; 36] 0 s = Done tt s' ∧ (uworld s').2 = [97; 98; 10; 98; 10].
Proof.
  intros s. destruct (grep_correct 0 4096 [98; 36] 20 s) as (s' & E & H).
  - lia.
  - repeat constructor.
  - simpl. lia.
  - exists s'. split; [exact E|]. exact H.
Defined.
