(* ===== verification/Tools.v ===== *)
(** The small user programs: cat, wc, echo, kill, ln, mkdir, rm, sync and ls, and the main()
    of grep.

    A main() takes the strings of argv; what it does with them is read them. The buffers a
    program reads into are in its memory. *)
From S2P Require Import Prelude Cstring Kernel Uart Fs Ulib Uprintf Uformat Grep.

Section tools.
Context `{os : Os}.
Context (buf : Z). (* the address of the program's global [buf] *)

Definition eol (s : string) : string := s +:+ newline.
(** [argv[i]] as an argument of printf(). *)
Definition str (l : list Z) : arg := Str (Some l).

(** [for (i = 1; i < argc; i++)] over [argv[1..]]. *)
Fixpoint each_arg (l : list (list Z)) (f : list Z → U unit) : U unit :=
  match l with
  | [] => ureturn tt
  | a :: l => f a ;;~ each_arg l f
  end.

(** ** user/cat.c *)

Fixpoint cat_loop (fuel : nat) (fd : Z) : U Z :=
  match fuel with
  | O => running
  | S fuel =>
      n <~ read fd buf 512 ;;
      if 0 <? n then
        r <~ write 1 buf n ;;
        if negb (r =? n) then fprintf 2 (eol "cat: write error") [] ;;~ exit 1 else cat_loop fuel fd
      else ureturn n
  end.
Definition cat (fuel : nat) (fd : Z) : U unit :=
  n <~ cat_loop fuel fd ;;
  if n <? 0 then fprintf 2 (eol "cat: read error") [] ;;~ exit 1 else ureturn tt.
Definition cat_main (fuel : nat) (argv : list (list Z)) : U Z :=
  (if (length argv <=? 1)%nat then cat fuel 0 ;;~ exit 0 else ureturn tt) ;;~
  each_arg (drop 1 argv) (λ a,
    fd <~ open_ a O_RDONLY ;;
    if fd <? 0 then fprintf 2 (eol "cat: cannot open %s") [str a] ;;~ exit 1
    else cat fuel fd ;;~ close fd ;;~ ureturn tt) ;;~
  exit 0.

(** ** user/wc.c *)

(** [strchr(" \r\t\n\v", c)]: strchr() never finds the NUL. *)
Definition is_space (c : Z) : bool := bool_decide (c ∈ [32; 13; 9; 10; 11]).

(** The counters [l], [w], [c] and [inword]; an increment past the largest int is undefined. *)
Record counts := Counts { n_l : Z; n_w : Z; n_c : Z; inword : bool }.
Definition wc_char (ch : Z) (k : counts) : counts :=
  let l := if ch =? 10 then n_l k + 1 else n_l k in
  if is_space ch then Counts l (n_w k) (n_c k + 1) false
  else if negb (inword k) then Counts l (n_w k + 1) (n_c k + 1) true
  else Counts l (n_w k) (n_c k + 1) (inword k).
Fixpoint wc_chars (l : list Z) (k : counts) : U counts :=
  match l with
  | [] => ureturn k
  | ch :: l => if n_c k =? 2 ^ 31 - 1 then undefined else wc_chars l (wc_char ch k)
  end.
Fixpoint wc_loop (fuel : nat) (fd : Z) (k : counts) : U (Z * counts) :=
  match fuel with
  | O => running
  | S fuel =>
      n <~ read fd buf 512 ;;
      if 0 <? n then
        m <~ umemory ;;
        k' <~ wc_chars (read_bytes m buf (Z.to_nat n)) k ;;
        wc_loop fuel fd k'
      else ureturn (n, k)
  end.
Definition wc (fuel : nat) (fd : Z) (name : list Z) : U unit :=
  r <~ wc_loop fuel fd (Counts 0 0 0 false) ;;
  if r.1 <? 0 then printf (eol "wc: read error") [] ;;~ exit 1
  else printf (eol "%d %d %d %s") [Num (n_l r.2); Num (n_w r.2); Num (n_c r.2); str name].
Definition wc_main (fuel : nat) (argv : list (list Z)) : U Z :=
  (if (length argv <=? 1)%nat then wc fuel 0 [] ;;~ exit 0 else ureturn tt) ;;~
  each_arg (drop 1 argv) (λ a,
    fd <~ open_ a O_RDONLY ;;
    if fd <? 0 then printf (eol "wc: cannot open %s") [str a] ;;~ exit 1
    else wc fuel fd a ;;~ close fd ;;~ ureturn tt) ;;~
  exit 0.

(** ** user/grep.c, main() *)

Definition grep_main (fuel : nat) (argv : list (list Z)) : U Z :=
  (if (length argv <=? 1)%nat then
     fprintf 2 (eol "usage: grep pattern [file ...]") [] ;;~ exit 1 else ureturn tt) ;;~
  let pattern := nth 1 argv [] in
  (if (length argv <=? 2)%nat then grep buf fuel pattern 0 ;;~ exit 0 else ureturn tt) ;;~
  each_arg (drop 2 argv) (λ a,
    fd <~ open_ a O_RDONLY ;;
    if fd <? 0 then printf (eol "grep: cannot open %s") [str a] ;;~ exit 1
    else grep buf fuel pattern fd ;;~ close fd ;;~ ureturn tt) ;;~
  exit 0.

(** ** user/echo.c *)

Fixpoint echo_args (l : list (list Z)) : U unit :=
  match l with
  | [] => ureturn tt
  | a :: l =>
      write_local 1 a ;;~
      match l with
      | [] => write_local 1 [10] ;;~ ureturn tt
      | _ => write_local 1 [32] ;;~ echo_args l
      end
  end.
Definition echo_main (argv : list (list Z)) : U Z := echo_args (drop 1 argv) ;;~ exit 0.

(** ** user/ln.c, mkdir.c, rm.c, sync.c *)

Definition ln_main (argv : list (list Z)) : U Z :=
  (if negb (length argv =? 3)%nat then fprintf 2 (eol "Usage: ln old new") [] ;;~ exit 1
   else ureturn tt) ;;~
  r <~ on_world (sys_link (nth 1 argv []) (nth 2 argv [])) ;;
  (if r <? 0 then
     fprintf 2 (eol "link %s %s: failed") [str (nth 1 argv []); str (nth 2 argv [])]
   else ureturn tt) ;;~
  exit 0.

(** The loops of mkdir.c and rm.c, which stop at the first failure. *)
Fixpoint until_failure (l : list (list Z)) (f : list Z → U Z) (msg : string) : U unit :=
  match l with
  | [] => ureturn tt
  | a :: l =>
      r <~ f a ;;
      if r <? 0 then fprintf 2 (eol msg) [str a] else until_failure l f msg
  end.
Definition mkdir_main (argv : list (list Z)) : U Z :=
  (if (length argv <? 2)%nat then fprintf 2 (eol "Usage: mkdir files...") [] ;;~ exit 1
   else ureturn tt) ;;~
  until_failure (drop 1 argv) (λ a, on_world (sys_mkdir a)) "mkdir: %s failed to create" ;;~
  exit 0.
Definition rm_main (argv : list (list Z)) : U Z :=
  (if (length argv <? 2)%nat then fprintf 2 (eol "Usage: rm files...") [] ;;~ exit 1
   else ureturn tt) ;;~
  until_failure (drop 1 argv) (λ a, on_world (sys_unlink a)) "rm: %s failed to delete" ;;~
  exit 0.
Definition sync_main (argv : list (list Z)) : U Z := on_world sys_sync ;;~ exit 0.

(** ** user/kill.c *)

(** atoi() of a string of argv. *)
Definition atoi_arg (l : list Z) : option Z := atoi (S (length l)) (write_bytes (λ _, 0) 0 l) 0.
Definition kill_main (argv : list (list Z)) : U Z :=
  (if (length argv <? 2)%nat then fprintf 2 (eol "usage: kill pid...") [] ;;~ exit 1
   else ureturn tt) ;;~
  each_arg (drop 1 argv) (λ a,
    match atoi_arg a with
    | Some pid => on_world (sys_kill pid) ;;~ ureturn tt
    | None => undefined
    end) ;;~
  exit 0.

(** ** user/ls.c *)

(** The name after the last slash, padded with blanks to DIRSIZ characters. *)
Fixpoint after_slash (path : list Z) : list Z :=
  match path with
  | [] => []
  | c :: path => if bool_decide (47 ∈ path) then after_slash path else if c =? 47 then path else c :: path
  end.
Definition fmtname (path : list Z) : list Z :=
  let p := after_slash path in
  if (DIRSIZ <=? length p)%nat then p else p ++ replicate (DIRSIZ - length p) 32.

(** The fields of a [struct stat] that ls prints, as printf() takes them. *)
Definition st_type (st : list Z) : Z := i16 (load 2 (write_bytes (λ _, 0) 0 st) 8).
Definition st_ino (st : list Z) : Z := load32 (write_bytes (λ _, 0) 0 st) 4.
Definition st_size (st : list Z) : Z := load64 (write_bytes (λ _, 0) 0 st) 16.
Definition ls_line (name : list Z) (st : list Z) : U unit :=
  printf (eol "%s %d %d %d") [str name; Num (st_type st); Num (st_ino st); Num (i32 (st_size st))].

(** The loop over the directory entries; [dir] is [buf], the path with a slash behind it. *)
Fixpoint ls_entries (fuel : nat) (fd : Z) (dir : list Z) : U unit :=
  match fuel with
  | O => running
  | S fuel =>
      r <~ read_local fd 16 ;;
      if negb (r.1 =? 16) then ureturn tt
      else if load 2 (write_bytes (λ _, 0) 0 r.2) 0 =? 0 then ls_entries fuel fd dir
      else
        let name := take DIRSIZ (drop 2 r.2) in
        let path := dir ++ default name (cstring (S DIRSIZ) (write_bytes (λ _, 0) 0 name) 0) in
        st <~ stat path ;;
        (if st.1 <? 0 then printf (eol "ls: cannot stat %s") [str path]
         else ls_line (fmtname path) st.2) ;;~
        ls_entries fuel fd dir
  end.
Definition ls (fuel : nat) (path : list Z) : U unit :=
  fd <~ open_ path O_RDONLY ;;
  if fd <? 0 then fprintf 2 (eol "ls: cannot open %s") [str path]
  else
    st <~ on_world (sys_fstat fd) ;;
    if st.1 <? 0 then fprintf 2 (eol "ls: cannot stat %s") [str path] ;;~ close fd ;;~ ureturn tt
    else
      (if (st_type st.2 =? T_DEVICE) || (st_type st.2 =? T_FILE) then ls_line (fmtname path) st.2
       else if st_type st.2 =? T_DIR then
         if (512 <? length path + 1 + DIRSIZ + 1)%nat then printf (eol "ls: path too long") []
         else ls_entries fuel fd (path ++ [47])
       else ureturn tt) ;;~
      close fd ;;~ ureturn tt.
Definition ls_main (fuel : nat) (argv : list (list Z)) : U Z :=
  (if (length argv <? 2)%nat then ls fuel (chars ".") ;;~ exit 0 else ureturn tt) ;;~
  each_arg (drop 1 argv) (ls fuel) ;;~
  exit 0.
End tools.

(** ** cat copies, wc counts *)

(** The words of a text: its maximal pieces without white space. *)
Fixpoint pieces (cur l : list Z) : list (list Z) :=
  match l with
  | [] => [cur]
  | c :: l => if is_space c then cur :: pieces [] l else pieces (cur ++ [c]) l
  end.
Definition words (l : list Z) : list (list Z) := filter (λ w, w ≠ []) (pieces [] l).

(** What wc counts over [l], from [k]. *)
Definition wc_text (l : list Z) (k : counts) : counts := foldl (λ k c, wc_char c k) k l.

Lemma wc_text_chars l k : n_c (wc_text l k) = n_c k + Z.of_nat (length l).
Proof.
  unfold wc_text. revert k. induction l as [|c l IH]; intros k; simpl; [lia|]. rewrite IH.
  unfold wc_char. destruct (is_space c), (inword k); simpl; lia.
Qed.
Lemma wc_text_lines l k :
  n_l (wc_text l k) = n_l k + Z.of_nat (length (filter (λ c, c = NEWLINE) l)).
Proof.
  unfold wc_text. revert k. induction l as [|c l IH]; intros k; simpl; [lia|]. rewrite IH, filter_cons.
  assert (E : n_l (wc_char c k) = if c =? 10 then n_l k + 1 else n_l k)
    by (unfold wc_char; destruct (is_space c), (inword k); done).
  unfold NEWLINE. rewrite E. destruct (Z.eqb_spec c 10); case_decide; simpl; lia.
Qed.
(** [cur] is the word wc is in. *)
Lemma wc_text_words l k cur :
  inword k = bool_decide (cur ≠ []) →
  n_w (wc_text l k) = n_w k + Z.of_nat (length (filter (λ w, w ≠ []) (pieces cur l)))
                        - (if inword k then 1 else 0).
Proof.
  unfold wc_text. revert k cur. induction l as [|c l IH]; intros k cur Hk.
  - cbn [foldl pieces]. rewrite filter_cons, filter_nil, Hk.
    case_bool_decide; case_decide; try done; simpl; lia.
  - cbn [foldl pieces]. unfold wc_char at 2. destruct (is_space c) eqn:Es.
    + rewrite (IH _ []) by done. cbn [n_w inword]. rewrite filter_cons, Hk.
      case_bool_decide; case_decide; try done; simpl; lia.
    + assert (Hne : cur ++ [c] ≠ []) by (by destruct cur).
      destruct (inword k) eqn:Ei; cbn [negb]; rewrite (IH _ (cur ++ [c]))
        by (cbn; by rewrite bool_decide_true); cbn [n_w inword]; lia.
Qed.

Lemma words_le cur l :
  (length (filter (λ w, w ≠ []) (pieces cur l))
   <= length l + (if bool_decide (cur = []) then 0 else 1))%nat.
Proof.
  revert cur. induction l as [|c l IH]; intros cur; cbn [pieces].
  - rewrite filter_cons. destruct cur; [by rewrite decide_False by (by intros [])|].
    rewrite decide_True by done. done.
  - destruct (is_space c).
    + specialize (IH []). rewrite filter_cons. simpl in IH |- *. case_decide; case_bool_decide; simpl; tauto || lia.
    + specialize (IH (cur ++ [c])). rewrite bool_decide_false in IH by (by destruct cur). simpl.
      case_bool_decide; lia.
Qed.

Section filters.
Context `{os : Os} (fd : Z) {io : Stdio fd} (buf : Z).
Definition byte_range (c : Z) : Prop := 0 <= c < 2 ^ 8.

(** cat copies its input to its output, whole and in order, however read() splits it, and
    stops. *)
Theorem cat_correct fuel s :
  Forall byte_range (remaining fd (uworld s)) → (length (remaining fd (uworld s)) < fuel)%nat →
  ∃ s', cat buf fuel fd s = Done tt s' ∧ remaining fd (uworld s') = [] ∧
    written fd (uworld s') = written fd (uworld s) ++ remaining fd (uworld s).
Proof.
  intros Hb Hf. unfold cat.
  assert (H : ∃ s', cat_loop buf fuel fd s = Done 0 s' ∧ remaining fd (uworld s') = [] ∧
    written fd (uworld s') = written fd (uworld s) ++ remaining fd (uworld s)).
  { revert s Hb Hf. induction fuel as [|fuel IH]; intros s Hb Hf; [lia|].
    cbn [cat_loop]. unfold ubind at 1.
    destruct (uread_run fd buf 512 s) as (l & w & E & Hl & Hr & He & Hw); [lia|]. rewrite E.
    destruct (decide (l = [])) as [->|Hne].
    - eexists. split; [reflexivity|]. cbn. destruct (remaining fd (uworld s)) eqn:Er.
      + cbn in Hr. by rewrite app_nil_r, <- Hr, Hw.
      + exfalso. by apply He.
    - assert (0 < length l)%nat by (destruct l; [done|simpl; lia]).
      destruct (Z.ltb_spec 0 (Z.of_nat (length l))); [|lia]. rewrite Hr in Hb, Hf.
      apply Forall_app in Hb as [Hb1 Hb2]. rewrite length_app in Hf. unfold ubind at 1.
      destruct (uwrite_run fd l buf (Z.of_nat (length l)) (Ustate (write_bytes (umem s) buf l) w))
        as (w2 & E2 & Hw2 & Hr2); [by apply holds_write|done|].
      rewrite E2, Z.eqb_refl. cbn [negb]. cbn [umem uworld] in Hw2, Hr2 |- *.
      destruct (IH (Ustate (write_bytes (umem s) buf l) w2)) as (s' & E3 & H3 & H4);
        cbn [uworld]; rewrite ?Hr2; [done|lia|].
      exists s'. split; [done|]. split; [done|]. cbn [uworld] in H4.
      by rewrite H4, Hr2, Hw2, Hw, Hr, app_assoc. }
  destruct H as (s' & E & H). unfold ubind. rewrite E. by exists s'.
Qed.

(** The line wc prints. *)
Lemma prints_counts l w c name :
  0 <= l < 2 ^ 31 → 0 <= w < 2 ^ 31 → 0 <= c < 2 ^ 31 → Forall byte_range name →
  prints fd (printf (eol "%d %d %d %s") [Num l; Num w; Num c; str name])
    (number l 10 true ++ [32] ++ number w 10 true ++ [32] ++ number c 10 true ++ [32] ++ name ++ [10]).
Proof.
  intros Hl Hw Hc Hn. apply printf_renders. unfold str.
  change (chars (eol "%d %d %d %s")) with [37; 100; 32; 37; 100; 32; 37; 100; 32; 37; 115; 10].
  assert (En : u8 <$> name = name).
  { induction Hn as [|x name Hx _ IH]; [done|]. by rewrite fmap_cons, IH, u8_small. }
  cbn [render negb Z.eqb Pos.eqb andb default from_option id fmap option_fmap option_map].
  rewrite !i32_small by lia. change (list_fmap _ _ u8 name) with (u8 <$> name). by rewrite En.
Qed.

Lemma wc_chars_ok l k s :
  n_c k + Z.of_nat (length l) < 2 ^ 31 → wc_chars l k s = Done (wc_text l k) s.
Proof.
  revert k. induction l as [|c l IH]; intros k Hk; [done|]. cbn [wc_chars]. simpl in Hk.
  destruct (Z.eqb_spec (n_c k) (2 ^ 31 - 1)); [lia|]. rewrite IH; [done|].
  change (wc_char c k) with (wc_text [c] k). rewrite wc_text_chars. simpl. lia.
Qed.
Lemma wc_loop_ok fuel k s :
  Forall byte_range (remaining fd (uworld s)) → (length (remaining fd (uworld s)) < fuel)%nat →
  n_c k + Z.of_nat (length (remaining fd (uworld s))) < 2 ^ 31 →
  ∃ s', wc_loop buf fuel fd k s = Done (0, wc_text (remaining fd (uworld s)) k) s' ∧
    written fd (uworld s') = written fd (uworld s).
Proof.
  revert k s. induction fuel as [|fuel IH]; intros k s Hb Hf Hk; [lia|]. cbn [wc_loop]. unfold ubind at 1.
  destruct (uread_run fd buf 512 s) as (l & w & E & Hl & Hr & He & Hw); [lia|]. rewrite E.
  destruct (decide (l = [])) as [->|Hne].
  - eexists. destruct (remaining fd (uworld s)) eqn:Er; [by split|exfalso; by apply He].
  - assert (0 < length l)%nat by (destruct l; [done|simpl; lia]).
    destruct (Z.ltb_spec 0 (Z.of_nat (length l))); [|lia]. rewrite Hr in *.
    apply Forall_app in Hb as [Hb1 Hb2]. rewrite length_app in Hf, Hk.
    unfold ubind at 1. cbn [umemory umem]. unfold ubind at 1.
    rewrite Nat2Z.id, holds_read by (by apply holds_write). rewrite wc_chars_ok by lia.
    destruct (IH (wc_text l k) (Ustate (write_bytes (umem s) buf l) w)) as (s' & E2 & H2);
      cbn [uworld]; [done|lia|rewrite wc_text_chars; lia|].
    exists s'. rewrite E2. unfold wc_text. rewrite <- foldl_app. split; [done|]. by rewrite H2, <- Hw.
Qed.

(** wc counts right however read() splits its input. It prints, in decimal, the number of
    newlines, the number of maximal pieces without white space, and the number of bytes, then the
    name; for inputs of less than 2^31 bytes, where its int counters do not overflow. *)
Theorem wc_correct fuel name s :
  let input := remaining fd (uworld s) in
  Forall byte_range input → Forall byte_range name → (length input < fuel)%nat →
  Z.of_nat (length input) < 2 ^ 31 →
  ∃ s', wc buf fuel fd name s = Done tt s' ∧
    written fd (uworld s') = written fd (uworld s)
      ++ number (Z.of_nat (length (filter (λ c, c = NEWLINE) input))) 10 true ++ [32]
      ++ number (Z.of_nat (length (words input))) 10 true ++ [32]
      ++ number (Z.of_nat (length input)) 10 true ++ [32] ++ name ++ [10].
Proof.
  intros input Hb Hn Hf Hlen. unfold wc, ubind.
  destruct (wc_loop_ok fuel (Counts 0 0 0 false) s) as (s1 & E & Hw); [done..|]. fold input in E. rewrite E.
  cbn [fst snd]. destruct (Z.ltb_spec 0 0); [lia|].
  rewrite wc_text_lines, (wc_text_words _ _ []), wc_text_chars by done. cbn [n_l n_w n_c inword].
  rewrite Z.sub_0_r, !Z.add_0_l. fold (words input).
  assert (H1 : (length (filter (λ c, c = NEWLINE) input) <= length input)%nat) by apply length_filter.
  assert (H2 : (length (words input) <= length input)%nat) 
    by (rewrite <- (Nat.add_0_r (length input)); apply (words_le [] input)).
  destruct (prints_counts (Z.of_nat (length (filter (λ c, c = NEWLINE) input)))
    (Z.of_nat (length (words input))) (Z.of_nat (length input)) name) with (s := s1)
    as ([] & s2 & E2 & _ & _ & W2); [lia|lia|lia|done|].
  exists s2. split; [done|]. by rewrite W2, Hw.
Qed.
End filters.

Lemma cat_correct_witness :
  let s := Ustate (os := sample_os) (λ _, 0) ([104; 105; 0; 10; 200], [1]) in
  ∃ s', cat 4096 6 0 s = Done tt s' ∧ (uworld s').2 = [1; 104; 105; 0; 10; 200].
Proof.
  intros s. destruct (cat_correct 0 4096 6 s) as (s' & E & _ & H).
  - repeat constructor; by vm_compute.
  - simpl. lia.
  - exists s'. split; [exact E|exact H].
Defined.
Lemma wc_correct_witness :
  let s := Ustate (os := sample_os) (λ _, 0) (chars "to be  or" ++ [10] ++ chars "not", []) in
  ∃ s', wc 4096 20 0 (chars "f") s = Done tt s' ∧ (uworld s').2 = chars "1 4 13 f" ++ [10].
Proof.
  intros s. destruct (wc_correct 0 4096 20 (chars "f") s) as (s' & E & H).
  - repeat constructor; by vm_compute.
  - repeat constructor; by vm_compute.
  - simpl. lia.
  - simpl. lia.
  - exists s'. split; [exact E|]. cbn [written sample_stdio] in H. rewrite H. vm_compute. reflexivity.
Defined.
