(* ===== verification/Monitor.v ===== *)
(** user/monitor.c: the program that shows the table of processes and its measurements, from the
    records of getprocinfo() and getworkload(), and that what it shows of a process is what
    the kernel has measured. *)
From S2P Require Import Prelude Pstat Kernel Spinlock Sched Cstring Riscv Kalloc Vm ProcMem ProcStat Sleeplock Uart Bio Log Fs.
From S2P Require Import Console Pipe File Proc Exec Syscall Ulib Uprintf Uformat Grep Tools.

(** ** Tables of names *)

Definition state_names : list (list Z) :=
  chars <$> ["UNUSED  "; "USED    "; "SLEEPING"; "RUNNABLE"; "RUNNING "; "ZOMBIE  "].
Definition type_names : list (list Z) := chars <$> ["INTERACTIVE"; "CPU_BOUND  "; "MIXED      "].
Definition health_names : list (list Z) := chars <$> ["NORMAL  "; "WARNING "; "CRITICAL"].
(** [(code >= 0 && code <= n) ? names[code] : unknown] *)
Definition name_in (names : list (list Z)) (unknown : string) (code : Z) : list Z :=
  if (0 <=? code) && (code <=? Z.of_nat (length names) - 1) then default [] (names !! Z.to_nat code)
  else chars unknown.

(** ** The program *)

(** The loop of print_padded_num() that fills [buf], least significant digit first. *)
Fixpoint rev_digits (fuel : nat) (temp : Z) : list Z :=
  match fuel with
  | O => []
  | S fuel => if 0 <? temp then temp mod 10 + 48 :: rev_digits fuel (temp / 10) else []
  end.
Definition num_buf (num : Z) : list Z := if num =? 0 then [48] else rev_digits 64 num.

Section monitor.
(** The address of [procs]. *)
Context `{os : Os} (procs : Z).

Fixpoint repeat_print (n : nat) : U unit :=
  match n with O => ureturn tt | S n => printf " " [] ;;~ repeat_print n end.
Definition print_padded_str (s : list Z) (width : nat) : U unit :=
  printf "%s" [str s] ;;~ repeat_print (width - length s).
Fixpoint print_chars (l : list Z) : U unit :=
  match l with [] => ureturn tt | c :: l => printf "%c" [Num c] ;;~ print_chars l end.
(** Storing past the end of [char buf[24]] is undefined. *)
Definition print_padded_num (num : Z) (width : nat) : U unit :=
  if (24 <? length (num_buf num))%nat then undefined
  else repeat_print (width - length (num_buf num)) ;;~ print_chars (reverse (num_buf num)).

(** The fields of a [struct procinfo], an [int] or a [uint64]. *)
Definition int_field (d : list Z) (off : Z) : Z := i32 (field d off 4).

(** The body of the loop over the processes; an [int] is converted to the [uint64] that
    print_padded_num() takes. *)
Definition print_row (d : list Z) : U unit :=
  let st := name_in state_names "UNKNOWN " (int_field d 24) in
  let tp := name_in type_names "UNKNOWN    " (int_field d 92) in
  let hl := name_in health_names "UNKNOWN " (int_field d 124) in
  print_padded_num (u64 (int_field d 0)) 6 ;;~ printf " " [] ;;~
  print_padded_str (until_nul (drop 8 d)) 15 ;;~ printf " " [] ;;~
  print_padded_str st 11 ;;~ printf " " [] ;;~
  print_padded_num (field d 32 8) 5 ;;~ printf " " [] ;;~
  print_padded_num (field d 40 8) 5 ;;~ printf " " [] ;;~
  print_padded_num (field d 88 4) 6 ;;~ printf " " [] ;;~
  print_padded_num (field d 108 4) 5 ;;~ printf " " [] ;;~
  print_padded_num (field d 112 4) 4 ;;~ printf " " [] ;;~
  print_padded_num (u64 (int_field d 96)) 5 ;;~ printf " " [] ;;~
  print_padded_num (u64 (int_field d 116)) 5 ;;~ printf " " [] ;;~
  print_padded_num (field d 128 4) 6 ;;~ printf " " [] ;;~
  print_padded_str hl 9 ;;~ printf " " [] ;;~
  printf (eol "%s") [str tp].

Definition getprocinfo (max addr : Z) : U Z :=
  r <~ on_world (sys_getprocinfo max) ;; on_memory (λ m, write_bytes m addr r.2) ;;~ ureturn r.1.
Definition getworkload : U (Z * list Z) := on_world sys_getworkload.

Fixpoint print_rows (n : nat) (i : Z) : U unit :=
  match n with
  | O => ureturn tt
  | S n =>
      m <~ umemory ;;
      print_row (read_bytes m (procs + Z.of_nat PROCINFO * i) PROCINFO) ;;~
      print_rows n (i + 1)
  end.

Definition double_rule : string :=
  "========================================================================================================".
Definition single_rule : string :=
  "--------------------------------------------------------------------------------------------------------".
Definition title : string :=
  "                                 ADAPTIVE INTELLIGENT XV6 PROCESS MONITOR                               ".
Definition heading : string :=
  "PID    NAME            STATE       CPU   WAIT  BURST  PRED  ERR  PRIO  ANOM  HEALS  HEALTH    TYPE       ".
(** Field [k] of the [struct workload_info], an argument of printf(). *)
Definition winfo (w : list Z) (k : Z) : arg := Num (field w (4 * k) 4).
Definition print_summary (w : list Z) : U unit :=
  printf (eol "WORKLOAD SUMMARY:") [] ;;~
  printf (eol "  Total Active: %d | Runnable: %d | Running: %d | Sleeping: %d")
    [winfo w 3; winfo w 0; winfo w 1; winfo w 2] ;;~
  printf (eol "  Avg Est Burst: %u ticks | Interactive: %d%% | CPU-Bound: %d%% | Mixed: %d%%")
    [winfo w 4; winfo w 5; winfo w 6; winfo w 7] ;;~
  printf (eol "SYSTEM HEALTH SUMMARY:") [] ;;~
  printf (eol "  Healthy: %d | Warning: %d | Critical: %d | Total Healing Actions: %d")
    [winfo w 8; winfo w 9; winfo w 10; winfo w 11] ;;~
  printf (eol (eol double_rule)) [].

Definition display_monitor : U unit :=
  count <~ getprocinfo 64 procs ;;
  if count <? 0 then printf (eol "monitor: getprocinfo failed") []
  else
    r <~ getworkload ;;
    if r.1 <? 0 then printf (eol "monitor: getworkload failed") []
    else
      printf (eol double_rule) [] ;;~ printf (eol title) [] ;;~ printf (eol double_rule) [] ;;~
      printf (eol heading) [] ;;~ printf (eol single_rule) [] ;;~
      print_rows (Z.to_nat count) 0 ;;~
      printf (eol single_rule) [] ;;~
      print_summary r.2.

(** [for (i = 0; i < iterations; i++)], with the number of rounds that are left. *)
Fixpoint monitor_loop (n : nat) (delay_ticks : Z) : U unit :=
  match n with
  | O => ureturn tt
  | S n =>
      display_monitor ;;~
      (if (0 <? n)%nat then on_world (sys_pause delay_ticks) ;;~ ureturn tt else ureturn tt) ;;~
      monitor_loop n delay_ticks
  end.
(** An argument that is a positive number, or the default. *)
Definition positive_arg (argv : list (list Z)) (i : nat) (other : Z) (k : Z → U Z) : U Z :=
  match argv !! i with
  | None => k other
  | Some a =>
      match atoi_arg a with
      | Some n => k (if n <=? 0 then other else n)
      | None => undefined
      end
  end.
Definition monitor_main (argv : list (list Z)) : U Z :=
  positive_arg argv 1 1 (λ iterations,
  positive_arg argv 2 10 (λ delay_ticks,
    monitor_loop (Z.to_nat iterations) delay_ticks ;;~ exit 0)).
End monitor.

(** ** What it prints *)

Definition dec (x : Z) : list Z := number x 10 false.
Definition pad_left (w : nat) (l : list Z) : list Z := replicate (w - length l) 32 ++ l.
Definition pad_right (w : nat) (l : list Z) : list Z := l ++ replicate (w - length l) 32.

Lemma u8_bytes l : Forall byte_range l → u8 <$> l = l.
Proof. induction 1 as [|c l Hc _ IH]; [done|]. by rewrite fmap_cons, IH, u8_small. Qed.
Lemma rev_digits_eq fuel x : 0 < x < 10 ^ Z.of_nat fuel → rev_digits fuel x = uint_digits fuel x 10.
Proof.
  revert x. induction fuel as [|fuel IH]; intros x Hx; [simpl in Hx; lia|]. cbn [rev_digits uint_digits].
  rewrite (proj2 (Z.ltb_lt _ _)) by lia. rewrite udigit_ok by (apply Z.mod_pos_bound; lia).
  rewrite Nat2Z.inj_succ, Z.pow_succ_r in Hx by lia. rewrite (Z.add_comm 48). f_equal.
  destruct (Z.eqb_spec (x / 10) 0) as [->|E]; [by destruct fuel|].
  apply IH. split; [|apply Z.div_lt_upper_bound; lia]. assert (0 <= x / 10) by (apply Z.div_pos; lia). lia.
Qed.
Lemma num_buf_eq x : 0 <= x < 2 ^ 64 → reverse (num_buf x) = dec x ∧ (length (num_buf x) <= 20)%nat.
Proof.
  intros Hx. assert (E : num_buf x = uint_digits 64 x 10).
  { unfold num_buf. destruct (Z.eqb_spec x 0) as [->|]; [by vm_compute|]. apply rev_digits_eq. lia. }
  rewrite E. split; [by rewrite <- (number_digits x false)|]. apply uint_digits_length; lia.
Qed.
Lemma length_dec x : 0 <= x < 2 ^ 64 → length (dec x) = length (num_buf x).
Proof. intros H. destruct (num_buf_eq x H) as [<- _]. by rewrite length_reverse. Qed.
Lemma dec_digits x : 0 <= x < 2 ^ 64 → Forall (λ c, 48 <= c <= 57) (dec x).
Proof. intros H. unfold dec. rewrite number_digits by done. apply Forall_reverse. apply uint_digits_decimal; lia. Qed.

Section output.
Context `{os : Os} (fd : Z) {io : Stdio fd}.

Lemma prints_literal fmt : forallb (λ c, negb (c =? 37) && (0 <=? c) && (c <? 256)) (chars fmt) = true →
  prints fd (printf fmt []) (chars fmt).
Proof.
  intros H. apply printf_renders. induction (chars fmt) as [|c l IH]; [done|]. cbn [forallb] in H.
  apply andb_true_iff in H as [Hc Hl]. cbn [render]. destruct (c =? 37); [done|]. cbn [negb].
  rewrite IH by done. cbn. rewrite u8_small by blia. done.
Qed.
Lemma prints_repeat n : prints fd (repeat_print n) (replicate n 32).
Proof.
  induction n as [|n IH]; [apply prints_nothing|]. cbn [repeat_print replicate].
  apply (prints_bind fd _ _ [32]); [by apply (prints_literal " ")|done].
Qed.
Lemma prints_padded_str s w : Forall byte_range s → prints fd (print_padded_str s w) (pad_right w s).
Proof.
  intros Hs. apply prints_bind; [|intros _; apply prints_repeat]. apply printf_renders.
  change (render (chars "%s") [str s]) with (Some ((u8 <$> s) ++ [])). by rewrite u8_bytes, app_nil_r.
Qed.
Lemma prints_chars l : Forall (λ c, 48 <= c <= 57) l → prints fd (print_chars l) l.
Proof.
  induction 1 as [|c l Hc _ IH]; [apply prints_nothing|]. cbn [print_chars].
  apply (prints_bind fd _ _ [c]); [|done]. apply printf_renders.
  change (chars "%c") with [37; 99]. cbn [render negb Z.eqb Pos.eqb fmap option_fmap option_map].
  rewrite u32_small, u8_small by lia. done.
Qed.
Lemma prints_padded_num x w : 0 <= x < 2 ^ 64 → prints fd (print_padded_num x w) (pad_left w (dec x)).
Proof.
  intros Hx. destruct (num_buf_eq x Hx) as [E Hl]. unfold print_padded_num, pad_left.
  destruct (Nat.ltb_spec 24 (length (num_buf x))); [lia|]. rewrite (length_dec x Hx), E.
  apply prints_bind; [apply prints_repeat|]. intros _. by apply prints_chars, dec_digits.
Qed.

Lemma name_in_bytes names unknown code :
  Forall (Forall byte_range) names → Forall byte_range (chars unknown) → Forall byte_range (name_in names unknown code).
Proof.
  intros Hn Hu. unfold name_in. destruct (_ && _); [|done]. destruct (names !! Z.to_nat code) as [l|] eqn:E; [|constructor].
  by apply (Forall_lookup_1 _ _ _ _ Hn E).
Qed.

(** The text of a row, by the fields of the record. *)
Definition row (pid : Z) (name st : list Z) (cpu wait burst pred err prio anom heals : Z) (hl tp : list Z) : list Z :=
  pad_left 6 (dec pid) ++ [32] ++ pad_right 15 name ++ [32] ++ pad_right 11 st ++ [32] ++
  pad_left 5 (dec cpu) ++ [32] ++ pad_left 5 (dec wait) ++ [32] ++ pad_left 6 (dec burst) ++ [32] ++
  pad_left 5 (dec pred) ++ [32] ++ pad_left 4 (dec err) ++ [32] ++ pad_left 5 (dec prio) ++ [32] ++
  pad_left 5 (dec anom) ++ [32] ++ pad_left 6 (dec heals) ++ [32] ++ pad_right 9 hl ++ [32] ++ tp ++ [10].

Lemma prints_row d :
  (∀ off n, n = 4 ∨ n = 8 → 0 <= field d off n < 2 ^ 64) → Forall byte_range (until_nul (drop 8 d)) →
  prints fd (print_row d)
    (row (u64 (int_field d 0)) (until_nul (drop 8 d)) (name_in state_names "UNKNOWN " (int_field d 24))
      (field d 32 8) (field d 40 8) (field d 88 4) (field d 108 4) (field d 112 4) (u64 (int_field d 96))
      (u64 (int_field d 116)) (field d 128 4) (name_in health_names "UNKNOWN " (int_field d 124))
      (name_in type_names "UNKNOWN    " (int_field d 92))).
Proof.
  intros Hf Hname. unfold print_row, row. cbv zeta.
  assert (Hsp : prints fd (printf " " []) [32]) by (by apply (prints_literal " ")).
  assert (Hu : ∀ v, 0 <= u64 v < 2 ^ 64) by (intros v; apply u64_range).
  assert (Hst : Forall byte_range (name_in state_names "UNKNOWN " (int_field d 24)))
    by (apply name_in_bytes; apply (bool_decide_unpack _); by vm_compute).
  assert (Hhl : Forall byte_range (name_in health_names "UNKNOWN " (int_field d 124)))
    by (apply name_in_bytes; apply (bool_decide_unpack _); by vm_compute).
  assert (Htp : Forall byte_range (name_in type_names "UNKNOWN    " (int_field d 92)))
    by (apply name_in_bytes; apply (bool_decide_unpack _); by vm_compute).
  repeat (apply prints_bind;
    [first [exact Hsp | apply prints_padded_num; first [apply Hu | apply Hf; auto] | by apply prints_padded_str]|intros _]).
  apply printf_renders. set (tp := name_in type_names _ _) in *.
  change (render (chars (eol "%s")) [str tp]) with (Some ((u8 <$> tp) ++ [10])). by rewrite u8_bytes.
Qed.
End output.

(** ** What it shows of a process *)

Definition state_text (st : procstate) : list Z :=
  chars match st with
        | UNUSED => "UNUSED  " | USED => "USED    " | SLEEPING => "SLEEPING"
        | RUNNABLE => "RUNNABLE" | RUNNING => "RUNNING " | ZOMBIE => "ZOMBIE  "
        end.
Definition type_text (t : proc_type_t) : list Z :=
  chars match t with
        | PROC_TYPE_INTERACTIVE => "INTERACTIVE" | PROC_TYPE_CPU_BOUND => "CPU_BOUND  " | PROC_TYPE_MIXED => "MIXED      "
        end.
Definition health_text (h : health_t) : list Z :=
  chars match h with HEALTH_NORMAL => "NORMAL  " | HEALTH_WARNING => "WARNING " | HEALTH_CRITICAL => "CRITICAL" end.

(** The row of a process, from the fields that the kernel keeps for it. *)
Definition proc_row (p : proc) (name : list Z) : list Z :=
  let m := p_mt p in
  row (p_pid p) name (state_text (p_state p)) (cputicks m) (waitticks m) (est_burst m) (predicted_burst m)
    (prediction_error m) (priority m) (anomaly_score m) (healing_actions m)
    (health_text (health_status m)) (type_text (proc_type m)).

(** The values fit their C types, the signed ones are not negative, and the name is a string. *)
Record shown (p : proc) (name : list Z) : Prop := {
  sh_pid : 0 <= p_pid p < 2 ^ 31;
  sh_cpu : 0 <= cputicks (p_mt p) < 2 ^ 64;
  sh_wait : 0 <= waitticks (p_mt p) < 2 ^ 64;
  sh_burst : 0 <= est_burst (p_mt p) < 2 ^ 32;
  sh_pred : 0 <= predicted_burst (p_mt p) < 2 ^ 32;
  sh_err : 0 <= prediction_error (p_mt p) < 2 ^ 32;
  sh_prio : 0 <= priority (p_mt p) < 2 ^ 31;
  sh_anom : 0 <= anomaly_score (p_mt p) < 2 ^ 31;
  sh_heals : 0 <= healing_actions (p_mt p) < 2 ^ 32;
  sh_name : Forall (λ c, 0 < c < 256) name ∧ (length name < 16)%nat;
  sh_string : ∃ rest, p_name p = name ++ 0 :: rest
}.

Lemma bytes_write_bytes m a l : bytes m → bytes (write_bytes m a l).
Proof. revert m a. induction l as [|v l IH]; intros m a H; [done|]. by apply IH, bytes_upd. Qed.
(** safestrcpy() of a string that fits copies it and its NUL. *)
Lemma safestrcpy_arr_string dst src name rest :
  src = name ++ 0 :: rest → Forall (λ c, 0 < c < 256) name → (length name < 16)%nat → (length dst <= 4096)%nat →
  ∃ tail, safestrcpy_arr dst src 16 = name ++ 0 :: tail.
Proof.
  intros -> Hn Hl Hd. unfold safestrcpy_arr, safestrcpy. change (16 <=? 0) with false.
  change (Z.to_nat (16 - 1)) with 15%nat. change (Z.to_nat 16) with 16%nat.
  set (m := write_bytes (write_bytes _ _ _) _ _).
  assert (Hb : bytes m) by (unfold m; apply bytes_write_bytes, bytes_write_bytes; intros x; lia).
  assert (Hm : ∀ i c, (name ++ 0 :: rest) !! i = Some c → m (4096 + Z.of_nat i) = u8 c)
    by (intros i c Hc; unfold m; by apply write_bytes_lookup).
  destruct (safestrcpy_copies 15 m 0 4096 Hb) as (l & Hl15 & H0 & Hc & Hend); [lia|].
  assert (Hlast : m (4096 + Z.of_nat (length name)) = 0) by (rewrite (Hm _ 0); [done|by rewrite list_lookup_middle]).
  assert (Hin : ∀ i c, name !! i = Some c → m (4096 + Z.of_nat i) = c ∧ c ≠ 0).
  { intros i c Hi. assert (Hr := Forall_lookup_1 _ _ _ _ Hn Hi). cbn beta in Hr.
    rewrite (Hm i c) by (rewrite lookup_app_l; [done|by eapply lookup_lt_Some]). rewrite u8_small by lia. lia. }
  assert (El : l = Z.of_nat (length name)).
  { destruct (decide (l < Z.of_nat (length name))) as [Hlt|Hge].
    - destruct (lookup_lt_is_Some_2 name (Z.to_nat l)) as [c Hc']; [lia|]. destruct (Hin _ _ Hc') as [E Hz].
      rewrite Z2Nat.id in E by lia. lia.
    - destruct (decide (l = Z.of_nat (length name))) as [|Hne]; [done|].
      destruct (Hc (Z.of_nat (length name))) as [_ Hz]; [lia|done]. }
  set (r := read_bytes _ 0 16). exists (drop (S (length name)) r).
  assert (Hr0 : r !! length name = Some 0) by (unfold r; rewrite read_bytes_lookup by lia; by rewrite <- El, H0).
  rewrite <- (take_drop (length name) r) at 1. rewrite (drop_S _ 0) by done. f_equal.
  apply list_eq. intros i. destruct (decide (i < length name)%nat) as [Hi|Hi].
  - rewrite lookup_take_lt by done. unfold r. rewrite read_bytes_lookup by lia.
    destruct (lookup_lt_is_Some_2 _ _ Hi) as [c Hc']. rewrite Hc'. destruct (Hin _ _ Hc') as [E _].
    destruct (Hc (Z.of_nat i)) as [E' _]; [lia|]. by rewrite E', E.
  - rewrite lookup_take_ge by lia. symmetry. apply lookup_ge_None. lia.
Qed.

Section record.
Context (ppid : Z) (p : proc) (junk name : list Z).
Context (Hjunk : length junk = PROCINFO) (Hs : shown p name).
Notation d := (procinfo ppid p junk).

Lemma record_field k o n v :
  procinfo_fields ppid p junk !! k = Some (o, le n v) → 0 <= v < 2 ^ (8 * Z.of_nat n) →
  field d (Z.of_nat o) (Z.of_nat n) = v.
Proof.
  intros Hk Hv. unfold field. rewrite !Nat2Z.id, (procinfo_num ppid p junk Hjunk k) with (v := v) by done. by apply Z.mod_small.
Qed.
Lemma record_int k o v :
  procinfo_fields ppid p junk !! k = Some (o, le 4 v) → 0 <= v < 2 ^ 31 → int_field d (Z.of_nat o) = v ∧ u64 v = v.
Proof.
  intros Hk Hv. unfold int_field. change 4 with (Z.of_nat 4). rewrite (record_field k o 4 v) by (done || simpl; lia).
  rewrite i32_small, u64_small by lia. done.
Qed.
Lemma record_name : until_nul (drop 8 d) = name.
Proof.
  destruct (sh_name _ _ Hs) as [Hn Hl]. destruct (sh_string _ _ Hs) as [rest Hr].
  pose proof (procinfo_field ppid p junk Hjunk 2 _ _ eq_refl) as H. rewrite length_safestrcpy_arr in H.
  destruct (safestrcpy_arr_string (take 16 (drop 8 junk)) (p_name p) name rest Hr Hn Hl) as [tail E].
  { rewrite length_take. lia. }
  rewrite E in H. unfold ProcStat.slice in H. change (Z.to_nat 16) with 16%nat in H.
  rewrite <- (take_drop 16 (drop 8 d)), H, <- app_assoc. apply until_nul_word.
  eapply Forall_impl; [exact Hn|]. simpl. lia.
Qed.

(** The row of the record is the row of the process. *)
Lemma prints_record `{os : Os} fd {io : Stdio fd} :
  (∀ off n, n = 4 ∨ n = 8 → 0 <= field d off n < 2 ^ 64) → prints fd (print_row d) (proc_row p name).
Proof.
  intros Hf. assert (Hp := prints_row fd d Hf). rewrite record_name in Hp.
  assert (Hst : int_field d 24 = state_code (p_state p)).
  { apply (record_int 3 24 (state_code (p_state p)) eq_refl). by destruct (p_state p). }
  assert (Hty : int_field d 92 = type_code (proc_type (p_mt p))).
  { apply (record_int 13 92 (type_code (proc_type (p_mt p))) eq_refl). by destruct (proc_type (p_mt p)). }
  assert (Hhl : int_field d 124 = health_code (health_status (p_mt p))).
  { apply (record_int 21 124 (health_code (health_status (p_mt p))) eq_refl). by destruct (health_status (p_mt p)). }
  destruct (record_int 0 0 (p_pid p) eq_refl (sh_pid _ _ Hs)) as [E1 E1'].
  destruct (record_int 14 96 (priority (p_mt p)) eq_refl (sh_prio _ _ Hs)) as [E2 E2'].
  destruct (record_int 19 116 (anomaly_score (p_mt p)) eq_refl (sh_anom _ _ Hs)) as [E3 E3'].
  pose proof (record_field 4 32 8 _ eq_refl (sh_cpu _ _ Hs)) as F1.
  pose proof (record_field 5 40 8 _ eq_refl (sh_wait _ _ Hs)) as F2.
  pose proof (record_field 12 88 4 _ eq_refl (sh_burst _ _ Hs)) as F3.
  pose proof (record_field 17 108 4 _ eq_refl (sh_pred _ _ Hs)) as F4.
  pose proof (record_field 18 112 4 _ eq_refl (sh_err _ _ Hs)) as F5.
  pose proof (record_field 22 128 4 _ eq_refl (sh_heals _ _ Hs)) as F6.
  change (Z.of_nat 0) with 0 in E1. change (Z.of_nat 96) with 96 in E2. change (Z.of_nat 116) with 116 in E3.
  change (Z.of_nat 32) with 32 in F1. change (Z.of_nat 8) with 8 in F1.
  change (Z.of_nat 40) with 40 in F2. change (Z.of_nat 8) with 8 in F2.
  change (Z.of_nat 88) with 88 in F3. change (Z.of_nat 4) with 4 in F3.
  change (Z.of_nat 108) with 108 in F4. change (Z.of_nat 4) with 4 in F4.
  change (Z.of_nat 112) with 112 in F5. change (Z.of_nat 4) with 4 in F5.
  change (Z.of_nat 128) with 128 in F6. change (Z.of_nat 4) with 4 in F6.
  rewrite Hst, Hty, Hhl, E1, E2, E3, E1', E2', E3', F1, F2, F3, F4, F5, F6 in Hp.
  assert (Hn : Forall byte_range name).
  { destruct (sh_name _ _ Hs) as [Hn _]. eapply Forall_impl; [exact Hn|]. unfold byte_range. simpl. lia. }
  specialize (Hp Hn). unfold proc_row. cbv zeta.
  replace (state_text (p_state p)) with (name_in state_names "UNKNOWN " (state_code (p_state p))) by (by destruct (p_state p)).
  replace (type_text (proc_type (p_mt p))) with (name_in type_names "UNKNOWN    " (type_code (proc_type (p_mt p))))
    by (by destruct (proc_type (p_mt p))).
  replace (health_text (health_status (p_mt p))) with (name_in health_names "UNKNOWN " (health_code (health_status (p_mt p))))
    by (by destruct (health_status (p_mt p))).
  exact Hp.
Qed.
End record.

(** ** The whole display *)

Lemma bytes_le n v : Forall byte_range (le n v).
Proof.
  revert v. induction n as [|n IH]; intros v; cbn [le]; constructor; [|done]. apply Z.mod_pos_bound. lia.
Qed.
Lemma bytes_put_at o l d : Forall byte_range l → Forall byte_range d → Forall byte_range (put_at o l d).
Proof.
  intros Hl Hd. unfold put_at. apply Forall_app_2; [by apply Forall_take|].
  apply Forall_app_2; [done|by apply Forall_drop].
Qed.
Lemma bytes_stored fs d :
  Forall (λ f, Forall byte_range f.2) fs → Forall byte_range d → Forall byte_range (stored fs d).
Proof.
  unfold stored. intros Hfs. revert d.
  induction Hfs; intros d Hd; [done|]. cbn [foldl]. auto using bytes_put_at.
Qed.
Lemma bytes_safestrcpy_loop n m s t : bytes m → bytes (safestrcpy_loop n m s t).
Proof.
  revert m s t. induction n as [|n IH]; intros m s t Hm; cbn [safestrcpy_loop]; [by apply bytes_upd|].
  destruct (m t =? 0); auto using bytes_upd.
Qed.
Lemma bytes_safestrcpy_arr dst src : Forall byte_range (safestrcpy_arr dst src 16).
Proof.
  unfold safestrcpy_arr, safestrcpy. change (16 <=? 0) with false. cbn iota.
  set (m := safestrcpy_loop _ _ _ _). assert (Hm : bytes m).
  { apply bytes_safestrcpy_loop, bytes_write_bytes, bytes_write_bytes. intros x. lia. }
  generalize 0 (Z.to_nat 16). intros a n. revert a. induction n as [|n IH]; intros a; cbn [read_bytes];
    constructor; [apply Hm|apply IH].
Qed.
Lemma bytes_procinfo_fields ppid p junk : Forall (λ f, Forall byte_range f.2) (procinfo_fields ppid p junk).
Proof.
  unfold procinfo_fields. cbv zeta.
  repeat (apply Forall_cons_2; [cbn [snd]; first [apply bytes_le | apply bytes_safestrcpy_arr]|]). apply Forall_nil_2.
Qed.
Lemma bytes_procinfo ppid p junk : Forall byte_range junk → Forall byte_range (procinfo ppid p junk).
Proof. intros Hj. rewrite procinfo_stored. apply bytes_stored; [apply bytes_procinfo_fields|exact Hj]. Qed.
Lemma unle_range l : Forall byte_range l → 0 <= unle l < 2 ^ (8 * Z.of_nat (length l)).
Proof.
  induction 1 as [|c l Hc _ IH]; cbn [unle length]; [lia|]. unfold byte_range in Hc.
  replace (8 * Z.of_nat (S (length l))) with (8 + 8 * Z.of_nat (length l)) by lia.
  rewrite Z.pow_add_r by lia. nia.
Qed.
Lemma field_range d off n : Forall byte_range d → n = 4 ∨ n = 8 → 0 <= field d off n < 2 ^ 64.
Proof.
  intros Hd Hn. unfold field, ProcStat.slice.
  assert (H := unle_range _ (Forall_take _ (Z.to_nat n) _ (Forall_drop _ (Z.to_nat off) _ Hd))).
  split; [apply H|]. eapply Z.lt_le_trans; [apply H|]. apply Z.pow_le_mono_r; [lia|].
  rewrite length_take. lia.
Qed.
Lemma length_procinfo ppid p junk : length junk = PROCINFO → length (procinfo ppid p junk) = PROCINFO.
Proof.
  intros Hj. rewrite procinfo_stored, length_stored; [done|]. by apply disjoint_fits, procinfo_disjoint.
Qed.

(** A process as getprocinfo() reports it, with what the kernel's stack held. *)
Record entry := Entry { e_ppid : Z; e_proc : proc; e_junk : list Z; e_name : list Z }.
Definition e_record (e : entry) : list Z := procinfo (e_ppid e) (e_proc e) (e_junk e).
Definition e_row (e : entry) : list Z := proc_row (e_proc e) (e_name e).
Definition entry_ok (e : entry) : Prop :=
  length (e_junk e) = PROCINFO ∧ Forall byte_range (e_junk e) ∧ shown (e_proc e) (e_name e).

(** The lines below the table. *)
Definition summary_text (w : workload_info) : list Z :=
  chars (eol "WORKLOAD SUMMARY:") ++
  (chars "  Total Active: " ++ dec (num_total w) ++ chars " | Runnable: " ++ dec (num_runnable w) ++
   chars " | Running: " ++ dec (num_running w) ++ chars " | Sleeping: " ++ dec (num_sleeping w) ++ [10]) ++
  (chars "  Avg Est Burst: " ++ dec (avg_est_burst w) ++ chars " ticks | Interactive: " ++ dec (pct_interactive w) ++
   chars "% | CPU-Bound: " ++ dec (pct_cpu_bound w) ++ chars "% | Mixed: " ++ dec (pct_mixed w) ++ chars (eol "%")) ++
  chars (eol "SYSTEM HEALTH SUMMARY:") ++
  (chars "  Healthy: " ++ dec (num_healthy w) ++ chars " | Warning: " ++ dec (num_warning w) ++
   chars " | Critical: " ++ dec (num_critical w) ++ chars " | Total Healing Actions: " ++
   dec (total_healing_actions w) ++ [10]) ++
  chars (eol (eol double_rule)).
Definition table_text (es : list entry) (w : workload_info) : list Z :=
  chars (eol double_rule) ++ chars (eol title) ++ chars (eol double_rule) ++ chars (eol heading) ++
  chars (eol single_rule) ++ concat (e_row <$> es) ++ chars (eol single_rule) ++ summary_text w.
Definition counters (w : workload_info) : list Z :=
  [num_runnable w; num_running w; num_sleeping w; num_total w; avg_est_burst w;
   pct_interactive w; pct_cpu_bound w; pct_mixed w; num_healthy w; num_warning w; num_critical w;
   total_healing_actions w].

Lemma field_counter l k v :
  l !! k = Some v → 0 <= v < 2 ^ 31 → field (concat (le 4 <$> l)) (4 * Z.of_nat k) 4 = v.
Proof.
  intros Hk Hv. unfold field, ProcStat.slice. replace (Z.to_nat (4 * Z.of_nat k)) with (4 * k)%nat by lia.
  revert k Hk. induction l as [|x l IH]; intros [|k] Hk; try done.
  - injection Hk as ->. change (4 * 0)%nat with 0%nat. rewrite drop_0. change (le 4 <$> v :: l) with (le 4 v :: (le 4 <$> l)).
    cbn [concat]. rewrite take_app_length' by (by rewrite length_le). rewrite unle_le. apply Z.mod_small. simpl. lia.
  - change (le 4 <$> x :: l) with (le 4 x :: (le 4 <$> l)). cbn [concat].
    replace (4 * S k)%nat with (length (le 4 x) + 4 * k)%nat by (rewrite length_le; lia).
    rewrite drop_app_add. by apply IH.
Qed.

#[local] Opaque procinfo safestrcpy_arr.
Section display.
Context `{os : Os} (fd : Z) {io : Stdio fd} (procs : Z).

(** [m] prints [l] when the memory is [mem]. *)
Definition prints_in (mem : memory) (m : U unit) (l : list Z) : Prop := ∀ s, umem s = mem →
  ∃ s', m s = Done tt s' ∧ umem s' = mem ∧ written fd (uworld s') = written fd (uworld s) ++ l.
Lemma prints_anywhere mem m l : prints fd m l → prints_in mem m l.
Proof. intros H s <-. destruct (H s) as ([] & s' & E & M & _ & W). eauto. Qed.
Lemma prints_then mem m k l1 l2 : prints_in mem m l1 → prints_in mem k l2 → prints_in mem (m ;;~ k) (l1 ++ l2).
Proof.
  intros H1 H2 s Hs. destruct (H1 s Hs) as (s1 & E1 & M1 & W1). destruct (H2 s1 M1) as (s2 & E2 & M2 & W2).
  exists s2. unfold ubind. rewrite E1, W2, W1, app_assoc. done.
Qed.

Lemma prints_rows mem es i :
  Forall entry_ok es → holds mem (procs + Z.of_nat PROCINFO * i) (concat (e_record <$> es)) →
  prints_in mem (print_rows procs (length es) i) (concat (e_row <$> es)).
Proof.
  intros Hes. revert i. induction Hes as [|e es (Hj & Hjb & Hsh) _ IH]; intros i Hh; cbn [length print_rows].
  - by apply prints_anywhere, prints_nothing.
  - change (e_record <$> e :: es) with (e_record e :: (e_record <$> es)) in Hh. cbn [concat] in Hh.
    assert (Hl : length (e_record e) = PROCINFO) by (exact (length_procinfo _ _ _ Hj)).
    apply holds_app in Hh as [H1 H2]. apply holds_read in H1. rewrite Hl in H1, H2.
    intros s Hs. unfold ubind at 1, umemory at 1. rewrite Hs, H1. revert s Hs. apply prints_then.
    + apply prints_anywhere, prints_record; [exact Hj|exact Hsh|].
      intros off n. apply field_range. by apply bytes_procinfo.
    + apply IH. by replace (procs + Z.of_nat PROCINFO * (i + 1))
        with (procs + Z.of_nat PROCINFO * i + Z.of_nat PROCINFO) by lia.
Qed.

Lemma signed_dec v : 0 <= v < 2 ^ 31 → number (i32 v) 10 true = dec v.
Proof. intros H. rewrite i32_small by lia. unfold dec. by rewrite !number_digits by lia. Qed.
Lemma unsigned_dec v : 0 <= v < 2 ^ 31 → number (u32 v) 10 false = dec v.
Proof. intros H. by rewrite u32_small by lia. Qed.
#[local] Opaque number.
Lemma prints_summary w :
  Forall (λ v, 0 <= v < 2 ^ 31) (counters w) → prints fd (print_summary (workload_bytes w)) (summary_text w).
Proof.
  intros Hc. assert (Hw : ∀ k v, 0 <= k → counters w !! Z.to_nat k = Some v → winfo (workload_bytes w) k = Num v).
  { intros k v H0 Hk. unfold winfo, workload_bytes. fold (counters w). replace k with (Z.of_nat (Z.to_nat k)) by lia.
    rewrite (field_counter _ _ v Hk); [done|]. by apply (Forall_lookup_1 _ _ _ _ Hc Hk). }
  unfold print_summary.
  rewrite (Hw 0 _ ltac:(lia) eq_refl), (Hw 1 _ ltac:(lia) eq_refl), (Hw 2 _ ltac:(lia) eq_refl),
    (Hw 3 _ ltac:(lia) eq_refl), (Hw 4 _ ltac:(lia) eq_refl), (Hw 5 _ ltac:(lia) eq_refl),
    (Hw 6 _ ltac:(lia) eq_refl), (Hw 7 _ ltac:(lia) eq_refl), (Hw 8 _ ltac:(lia) eq_refl),
    (Hw 9 _ ltac:(lia) eq_refl), (Hw 10 _ ltac:(lia) eq_refl), (Hw 11 _ ltac:(lia) eq_refl).
  clear Hw. unfold counters in Hc. rewrite !Forall_cons in Hc. destruct_and! Hc. unfold summary_text.
  rewrite <- !signed_dec by done. rewrite (signed_dec (avg_est_burst w)), <- (unsigned_dec (avg_est_burst w)) by done.
  repeat (apply prints_bind; [first [by apply prints_literal | by apply printf_renders]|intros _]).
  by apply prints_literal.
Qed.

(** C22: monitor shows what the kernel has measured. For every process that getprocinfo()
    reports it prints one row, in order, with the decimal values of the fields that the kernel
    keeps for the process, and the names of its state, health and type. The padding of the
    records, which the kernel does not set, is not shown. Below the table it prints the summary
    that getworkload() computed. *)
Theorem monitor_shows es w w1 w2 s :
  sys_getprocinfo 64 (uworld s) = ((Z.of_nat (length es), concat (e_record <$> es)), w1) →
  sys_getworkload w1 = ((0, workload_bytes w), w2) →
  written fd w2 = written fd (uworld s) →
  Forall entry_ok es → Forall (λ v, 0 <= v < 2 ^ 31) (counters w) →
  ∃ s', display_monitor procs s = Done tt s' ∧
    written fd (uworld s') = written fd (uworld s) ++ table_text es w.
Proof.
  intros E1 E2 Hw Hes Hc. unfold display_monitor, getprocinfo. unfold ubind at 1 2 3, on_world at 1. rewrite E1.
  cbn [on_memory ureturn fst snd umem uworld]. destruct (Z.ltb_spec (Z.of_nat (length es)) 0); [lia|].
  unfold ubind at 1, getworkload, on_world. cbn [uworld umem]. rewrite E2. cbn [fst snd]. change (0 <? 0) with false.
  cbn iota. rewrite Nat2Z.id, <- Hw. clear E1 E2 Hw w1.
  set (mem := write_bytes _ _ _).
  assert (Hh : holds mem (procs + Z.of_nat PROCINFO * 0) (concat (e_record <$> es))).
  { rewrite Z.mul_0_r, Z.add_0_r. apply holds_write. apply Forall_concat, Forall_fmap.
    eapply Forall_impl; [exact Hes|]. intros e (_ & Hj & _). by apply bytes_procinfo. }
  enough (Hp : prints_in mem _ (table_text es w)) by (destruct (Hp (Ustate mem w2) eq_refl) as (s' & E & _ & W); eauto).
  unfold table_text. do 7 (apply prints_then; [first [by apply prints_rows|by apply prints_anywhere, prints_literal]|]).
  apply prints_anywhere, prints_summary, Hc.
Qed.
(** A system call that fails is reported, and nothing is shown. *)
Theorem monitor_reports r l w1 s :
  sys_getprocinfo 64 (uworld s) = ((r, l), w1) → written fd w1 = written fd (uworld s) → r < 0 →
  ∃ s', display_monitor procs s = Done tt s' ∧
    written fd (uworld s') = written fd (uworld s) ++ chars (eol "monitor: getprocinfo failed").
Proof.
  intros E Hw Hr. unfold display_monitor, getprocinfo. unfold ubind at 1 2 3, on_world at 1. rewrite E, <- Hw.
  cbn [on_memory ureturn fst snd umem uworld]. rewrite (proj2 (Z.ltb_lt _ _)) by lia.
  set (s0 := Ustate _ w1). destruct (prints_literal fd (eol "monitor: getprocinfo failed") eq_refl s0)
    as ([] & s' & E' & _ & _ & W). by exists s'.
Qed.
End display.

(** A system with one process, the first one. *)
Definition init_proc : proc :=
  Proc RUNNING None 0 0 1 None 0 0 0 0 (Context 0 0 (replicate 12 0)) (replicate NOFILE None) None
    (chars "init" ++ replicate 12 0) null_metrics.
Definition init_entry : entry := Entry 0 init_proc (replicate PROCINFO 170) (chars "init").
Definition init_workload : workload_info := WorkloadInfo 0 1 0 1 2 0 0 100 1 0 0 0.
Definition monitor_os : Os := {|
  world := list Z;
  sys_open _ _ w := (0, w);
  sys_close _ w := (0, w);
  sys_read _ _ w := ((0, []), w);
  sys_write _ l w := (Z.of_nat (length l), w ++ l);
  sys_fstat _ w := ((-1, []), w);
  sys_sbrk _ _ w := (SBRK_ERROR, w);
  sys_link _ _ w := (-1, w);
  sys_unlink _ w := (-1, w);
  sys_mkdir _ w := (-1, w);
  sys_kill _ w := (-1, w);
  sys_sync w := (0, w);
  sys_pause _ w := (0, w);
  sys_getpid w := (2, w);
  sys_getprocinfo _ w := ((1, e_record init_entry), w);
  sys_getworkload w := ((0, workload_bytes init_workload), w)
|}.
Definition monitor_stdio : Stdio (os := monitor_os) 0.
Proof.
  refine {| remaining := (λ _, []) : world (Os := monitor_os) → list Z; written := id : world (Os := monitor_os) → list Z |}.
  - intros n w Hn. cbn. split_and!; done.
  - intros l w. cbn. split_and!; done.
Defined.
Lemma monitor_shows_witness :
  ∃ s', display_monitor (os := monitor_os) 4096 (Ustate (os := monitor_os) (λ _, 0) []) = Done tt s' ∧
    uworld s' = table_text [init_entry] init_workload.
Proof.
  apply (monitor_shows (os := monitor_os) 0 (io := monitor_stdio) 4096 [init_entry] init_workload [] []
    (Ustate (os := monitor_os) (λ _, 0) [])).
  - cbn [concat]. reflexivity.
  - reflexivity.
  - reflexivity.
  - constructor; [|constructor]. split; [reflexivity|].
    split; [apply (bool_decide_unpack _); vm_compute; exact I|].
    split; try (vm_compute; split; congruence).
    + split; [apply (bool_decide_unpack _); vm_compute; exact I|vm_compute; lia].
    + exists (replicate 11 0). reflexivity.
  - apply (bool_decide_unpack _). vm_compute. exact I.
Defined.
