(* ===== verification/Load.v ===== *)
(** The programs that put load on the scheduler: user/stable.c, user/mixed_test.c,
    user/anomaly.c, user/bursttest.c, user/sleep_test.c and user/cpu_test.c. Each is shown to be
    the program that prints its first line, sleeps as often and as long as it says, and prints the
    sum that its loops compute, in closed form. *)
From S2P Require Import Prelude Cstring Kernel Uart Ulib Uprintf Tools.

(** ** The programs *)

(** A value of type [int]; an operation that overflows is undefined. *)
Definition cint (x : Z) : option Z := if (- 2 ^ 31 <=? x) && (x <? 2 ^ 31) then Some x else None.
(** [for (; n > 0; i++) acc += f(i)], for a [volatile uint64 acc]. *)
Fixpoint accumulate (n : nat) (f : Z → option Z) (i acc : Z) : option Z :=
  match n with
  | O => Some acc
  | S n => match f i with Some x => accumulate n f (i + 1) (u64 (acc + x)) | None => None end
  end.

Section load.
Context `{os : Os}.

Definition getpid : U Z := on_world sys_getpid.
Definition pause (n : Z) : U unit := on_world (sys_pause n) ;;~ ureturn tt.
(** [int x = other; if (argc > i) x = atoi(argv[i]);] *)
Definition int_arg {A} (argv : list (list Z)) (i : nat) (other : Z) (k : Z → U A) : U A :=
  match argv !! i with
  | None => k other
  | Some a => match atoi_arg a with Some n => k n | None => undefined end
  end.

(** Loops over the rounds from [r] on, [n] of them, each of which adds up [f r i] for [i] below
    [work r] and sleeps for [nap r] ticks. *)
Fixpoint rounds_loop (n : nat) (r acc : Z) (work : Z → Z) (f : Z → Z → option Z) (nap : Z → Z) : U Z :=
  match n with
  | O => ureturn acc
  | S n =>
      match accumulate (Z.to_nat (work r)) (f r) 0 acc with
      | Some acc => pause (nap r) ;;~ rounds_loop n (r + 1) acc work f nap
      | None => undefined
      end
  end.

Definition stable_main (argv : list (list Z)) : U Z :=
  int_arg argv 1 100 (λ rounds,
    pid <~ getpid ;;
    printf (eol "stable (pid %d) running %d predictable rounds...") [Num pid; Num rounds] ;;~
    acc <~ rounds_loop (Z.to_nat rounds) 0 0 (λ _, 30000000) (λ _ i, cint (i * 3 + 1)) (λ _, 2) ;;
    pid <~ getpid ;;
    printf (eol "stable (pid %d) finished (acc=%lu).") [Num pid; Num acc] ;;~
    exit 0).

Definition mixed_test_main (argv : list (list Z)) : U Z :=
  int_arg argv 1 200 (λ rounds,
    pid <~ getpid ;;
    printf (eol "mixed_test (pid %d) starting mixed CPU/I-O workload (%d rounds)...") [Num pid; Num rounds] ;;~
    acc <~ rounds_loop (Z.to_nat rounds) 0 0 (λ _, 80000000)
             (λ r i, match cint (r + 1) with Some x => Some (Z.lxor i x) | None => None end) (λ _, 4) ;;
    pid <~ getpid ;;
    printf (eol "mixed_test (pid %d) completed (acc %lu).") [Num pid; Num acc] ;;~
    exit 0).

Definition anomaly_main (argv : list (list Z)) : U Z :=
  int_arg argv 1 30 (λ rounds,
    pid <~ getpid ;;
    printf (eol "anomaly (pid %d) generating erratic burst surges & rapid state swings...") [Num pid] ;;~
    acc <~ rounds_loop (Z.to_nat rounds) 0 0 (λ r, if Z.rem r 3 =? 0 then 120000000 else 200000)
             (λ r i, cint (i * 7 + r)) (λ r, if Z.rem r 2 =? 0 then 1 else 5) ;;
    pid <~ getpid ;;
    printf (eol "anomaly (pid %d) finished (acc=%lu).") [Num pid; Num acc] ;;~
    exit 0).

(** The loop over the phases. *)
Fixpoint phases_loop (n : nat) (p sum : Z) : U Z :=
  match n with
  | O => ureturn sum
  | S n =>
      let work_len := if Z.rem p 2 =? 0 then 5000000 else 80000000 in
      let sleep_len := if Z.rem p 2 =? 0 then 6 else 1 in
      match cint (p + 1) with
      | Some p1 =>
          printf (eol "bursttest phase %d: work=%d, sleep=%d") [Num p1; Num work_len; Num sleep_len] ;;~
          sum <~ rounds_loop 20 0 sum (λ _, work_len)
                   (λ r i, match cint (r + p) with Some x => Some (Z.lxor i x) | None => None end) (λ _, sleep_len) ;;
          phases_loop n (p + 1) sum
      | None => undefined
      end
  end.
Definition bursttest_main (argv : list (list Z)) : U Z :=
  int_arg argv 1 4 (λ phases,
    pid <~ getpid ;;
    printf (eol "bursttest (pid %d) starting dynamic burst transition test...") [Num pid] ;;~
    sum <~ phases_loop (Z.to_nat phases) 0 0 ;;
    pid <~ getpid ;;
    printf (eol "bursttest (pid %d) completed (sum=%lu).") [Num pid; Num sum] ;;~
    exit 0).

Fixpoint sleep_loop (n : nat) (sleep_duration : Z) : U unit :=
  match n with O => ureturn tt | S n => pause sleep_duration ;;~ sleep_loop n sleep_duration end.
Definition sleep_test_main (argv : list (list Z)) : U Z :=
  int_arg argv 1 1000 (λ iterations,
  int_arg argv 2 5 (λ sleep_duration,
    pid <~ getpid ;;
    printf (eol "sleep_test (pid %d) starting interactive sleep workload (%d iterations, %d ticks each)...")
      [Num pid; Num iterations; Num sleep_duration] ;;~
    sleep_loop (Z.to_nat iterations) sleep_duration ;;~
    pid <~ getpid ;;
    printf (eol "sleep_test (pid %d) finished sleeping.") [Num pid] ;;~
    exit 0)).

(** The loop of cpu_test, with the rounds it has been followed for. *)
Definition cpu_term (i : Z) : Z := Z.lxor (u64 (i * 3 + 7)) (Z.shiftr i 2).
Fixpoint cpu_loop (fuel : nat) (limit i sum : Z) : U Z :=
  match fuel with
  | O => running
  | S fuel =>
      if (limit =? 0) || (i <? limit) then cpu_loop fuel limit (u64 (i + 1)) (u64 (sum + cpu_term i))
      else ureturn sum
  end.
Definition cpu_test_main (fuel : nat) (argv : list (list Z)) : U Z :=
  int_arg argv 1 0 (λ limit,
    pid <~ getpid ;;
    printf (eol "cpu_test (pid %d) starting intense CPU-bound work...") [Num pid] ;;~
    sum <~ cpu_loop fuel (u64 limit) 0 0 ;;
    pid <~ getpid ;;
    printf (eol "cpu_test (pid %d) finished calculation (checksum %lu)") [Num pid; Num sum] ;;~
    exit 0).
End load.

(** ** Sums *)

(** The sum of [g i] for the [n] values of [i] from [a] on. *)
Definition sum_from (a n : Z) (g : Z → Z) : Z := foldr Z.add 0 (g <$> seqZ a n).

Lemma sum_from_0 a n g : n <= 0 → sum_from a n g = 0.
Proof. intros H. unfold sum_from. by rewrite seqZ_nil. Qed.
Lemma sum_from_S a n g : 0 < n → sum_from a n g = g a + sum_from (a + 1) (n - 1) g.
Proof. intros H. unfold sum_from. by rewrite seqZ_cons. Qed.
Lemma sum_linear c d a n : 0 <= n → 2 * sum_from a n (λ i, i * c + d) = n * (2 * (a * c + d) + c * (n - 1)).
Proof.
  intros Hn. revert a. pattern n. apply natlike_ind; [|clear n Hn; intros n Hn IH|done]; intros a.
  - rewrite sum_from_0 by lia. lia.
  - rewrite sum_from_S by lia. replace (Z.succ n - 1) with n by lia. rewrite Z.mul_add_distr_l, IH. lia.
Qed.
(** Exclusive or with a number below a power of two permutes the numbers below a multiple of it. *)
Lemma lxor_block j x i : 0 <= j → 0 <= x < 2 ^ j → Z.lxor i x / 2 ^ j = i / 2 ^ j.
Proof.
  intros Hj Hx. rewrite <- !Z.shiftr_div_pow2 by done. apply Z.bits_inj'. intros b Hb.
  rewrite !Z.shiftr_spec, Z.lxor_spec by done. destruct (decide (x = 0)) as [->|Hne]; [by rewrite Z.bits_0, xorb_false_r|].
  rewrite (Z.bits_above_log2 x); [by rewrite xorb_false_r|lia|]. assert (Z.log2 x < j) by (apply Z.log2_lt_pow2; lia). lia.
Qed.
Lemma sum_permutation a n f g : f <$> seqZ a n ≡ₚ g <$> seqZ a n → sum_from a n f = sum_from a n g.
Proof. unfold sum_from. induction 1; simpl; lia. Qed.
Lemma sum_lxor j q x : 0 <= j → 0 <= q → 0 <= x < 2 ^ j →
  sum_from 0 (q * 2 ^ j) (λ i, Z.lxor i x) = sum_from 0 (q * 2 ^ j) id.
Proof.
  intros Hj Hq Hx. set (n := q * 2 ^ j). assert (0 < 2 ^ j) by (apply Z.pow_pos_nonneg; lia). apply sum_permutation.
  rewrite list_fmap_id. apply submseteq_length_Permutation; [apply NoDup_submseteq|by rewrite length_fmap].
  - apply NoDup_fmap_2_strong; [|apply NoDup_seqZ]. intros a b _ _ E. apply (f_equal (λ z, Z.lxor z x)) in E.
    by rewrite !Z.lxor_assoc, Z.lxor_nilpotent, !Z.lxor_0_r in E.
  - intros y (i & -> & Hi)%list_elem_of_fmap. rewrite elem_of_seqZ in *.
    assert (0 <= Z.lxor i x) by (apply Z.lxor_nonneg; lia). pose proof (lxor_block j x i Hj Hx) as Hb.
    assert (i / 2 ^ j < q) by (apply Z.div_lt_upper_bound; lia). rewrite <- Hb in *.
    split; [done|]. destruct (decide (Z.lxor i x < n)) as [|Hge]; [lia|]. exfalso.
    assert (q <= Z.lxor i x / 2 ^ j) by (apply Z.div_le_lower_bound; lia). lia.
Qed.

(** ** What the programs do *)

Lemma cint_ok x : - 2 ^ 31 <= x < 2 ^ 31 → cint x = Some x.
Proof. intros H. unfold cint. destruct (_ && _) eqn:E; [done|blia]. Qed.
Lemma accumulate_ok n f g i acc :
  (∀ j, i <= j < i + Z.of_nat n → f j = Some (g j)) → 0 <= acc < 2 ^ 64 →
  accumulate n f i acc = Some (u64 (acc + sum_from i (Z.of_nat n) g)).
Proof.
  revert i acc. induction n as [|n IH]; intros i acc Hf Ha; cbn [accumulate].
  - by rewrite sum_from_0, Z.add_0_r, u64_small by lia.
  - rewrite Hf by lia. rewrite IH; [|intros j Hj; apply Hf; lia|apply u64_range].
    rewrite (sum_from_S i) by lia. replace (Z.of_nat (S n) - 1) with (Z.of_nat n) by lia. f_equal.
    unfold u64. rewrite Zplus_mod_idemp_l. f_equal. lia.
Qed.

Section runs.
Context `{os : Os}.

Fixpoint naps (l : list Z) : U unit :=
  match l with [] => ureturn tt | n :: l => pause n ;;~ naps l end.

Lemma ubind_ext {A B} (m : U A) (k k' : A → U B) : (∀ a s, k a s = k' a s) → ∀ s, ubind m k s = ubind m k' s.
Proof. intros H s. unfold ubind. by destruct (m s). Qed.
Lemma ubind_assoc {A B C} (m : U A) (k : A → U B) (k' : B → U C) s :
  ubind (ubind m k) k' s = ubind m (λ a, ubind (k a) k') s.
Proof. unfold ubind. by destruct (m s). Qed.

(** Loops over rounds only sleep, and add up. *)
Lemma rounds_loop_ok {B} n r acc work f g nap (K : Z → U B) s :
  (∀ q i, r <= q < r + Z.of_nat n → 0 <= i < work q → f q i = Some (g q i)) →
  (∀ q, r <= q < r + Z.of_nat n → 0 <= work q) → 0 <= acc < 2 ^ 64 →
  ubind (rounds_loop n r acc work f nap) K s =
  ubind (naps (nap <$> seqZ r (Z.of_nat n)))
    (λ _, K (u64 (acc + sum_from r (Z.of_nat n) (λ q, sum_from 0 (work q) (g q))))) s.
Proof.
  revert r acc s. induction n as [|n IH]; intros r acc s Hf Hw Ha; cbn [rounds_loop].
  - rewrite sum_from_0, Z.add_0_r, u64_small by lia. rewrite seqZ_nil by lia. done.
  - rewrite (accumulate_ok _ _ (g r)); [|intros i Hi; apply Hf; specialize (Hw r); lia|done].
    rewrite Z2Nat.id by (apply Hw; lia). rewrite seqZ_cons by lia. rewrite (sum_from_S r) by lia.
    replace (Z.pred (Z.of_nat (S n))) with (Z.of_nat n) by lia. replace (Z.of_nat (S n) - 1) with (Z.of_nat n) by lia.
    cbn [fmap list_fmap naps]. rewrite !ubind_assoc. apply ubind_ext. intros [] s'.
    rewrite IH; [|intros q i Hq; apply Hf; lia|intros q Hq; apply Hw; lia|apply u64_range].
    change (Z.succ r) with (r + 1). apply ubind_ext. intros [] s''. f_equal. unfold u64. rewrite Zplus_mod_idemp_l. f_equal. lia.
Qed.

(** The value of an argument, if atoi() does not overflow. *)
Definition arg_value (argv : list (list Z)) (i : nat) (other : Z) : option Z :=
  match argv !! i with None => Some other | Some a => atoi_arg a end.
Lemma int_arg_ok {A} argv i other x (k : Z → U A) s : arg_value argv i other = Some x → int_arg argv i other k s = k x s.
Proof. unfold arg_value, int_arg. destruct (argv !! i) as [a|]; [by intros -> | by intros [= ->]]. Qed.

(** What is left of a program that adds up [acc]: it sleeps, and prints its second line. *)
Definition ending (l : list Z) (fmt : string) (acc : Z) : U Z :=
  naps l ;;~ pid <~ getpid ;; printf (eol fmt) [Num pid; Num acc] ;;~ exit 0.

Lemma same_naps (c a n : Z) : 0 <= n → (λ _ : Z, c) <$> seqZ a n = replicate (Z.to_nat n) c.
Proof.
  intros Hn. rewrite <- (length_seqZ a n). induction (seqZ a n) as [|x l IH]; [done|]. cbn. by rewrite IH.
Qed.
Lemma sum_ext a n f g : (∀ i, a <= i < a + n → f i = g i) → sum_from a n f = sum_from a n g.
Proof.
  intros H. unfold sum_from. f_equal. apply list_fmap_ext. intros k i Hi. apply H.
  apply list_elem_of_lookup_2, elem_of_seqZ in Hi. lia.
Qed.
Lemma sum_const n c : 0 <= n → sum_from 0 n (λ _, c) = n * c.
Proof.
  intros Hn. pose proof (sum_linear 0 c 0 n Hn). rewrite (sum_ext 0 n _ (λ i, i * 0 + c)); [lia|]. intros i _. lia.
Qed.
Lemma sum_below n : 0 <= n → 2 * sum_from 0 n id = n * (n - 1).
Proof.
  intros Hn. pose proof (sum_linear 1 0 0 n Hn) as H. rewrite (sum_ext 0 n id (λ i, i * 1 + 0)); [|unfold id; lia]. lia.
Qed.

#[local] Opaque sum_from rounds_loop naps.
Lemma stable_round : sum_from 0 30000000 (λ i, i * 3 + 1) = 1349999985000000.
Proof. pose proof (sum_linear 3 1 0 30000000 ltac:(lia)). lia. Qed.
Lemma lxor_round q x : 0 <= q → 0 <= x < 1024 → sum_from 0 (q * 1024) (λ i, Z.lxor i x) = q * 512 * (q * 1024 - 1).
Proof. intros Hq Hx. change 1024 with (2 ^ 10). rewrite sum_lxor by lia. pose proof (sum_below (q * 2 ^ 10)). lia. Qed.

(** stable sleeps for 2 ticks after each round; every round adds the same. *)
Theorem stable_correct argv rounds s :
  arg_value argv 1 100 = Some rounds → 0 <= rounds →
  stable_main argv s =
  (pid <~ getpid ;; printf (eol "stable (pid %d) running %d predictable rounds...") [Num pid; Num rounds] ;;~
   ending (replicate (Z.to_nat rounds) 2) "stable (pid %d) finished (acc=%lu)." (u64 (rounds * 1349999985000000))) s.
Proof.
  intros Ha Hr. unfold stable_main. rewrite (int_arg_ok _ _ _ _ _ _ Ha).
  apply ubind_ext. intros pid s1. apply ubind_ext. intros [] s2.
  rewrite (rounds_loop_ok _ _ _ _ _ (λ _ i, i * 3 + 1)); [|intros q i Hq Hi; apply cint_ok; lia|lia|lia].
  rewrite Z2Nat.id, same_naps by done. rewrite stable_round, sum_const, Z.add_0_l by done. reflexivity.
Qed.

(** mixed_test: exclusive or with the number of the round only permutes what is added. *)
Theorem mixed_test_correct argv rounds s :
  arg_value argv 1 200 = Some rounds → 0 <= rounds < 1024 →
  mixed_test_main argv s =
  (pid <~ getpid ;;
   printf (eol "mixed_test (pid %d) starting mixed CPU/I-O workload (%d rounds)...") [Num pid; Num rounds] ;;~
   ending (replicate (Z.to_nat rounds) 4) "mixed_test (pid %d) completed (acc %lu)." (u64 (rounds * 3199999960000000))) s.
Proof.
  intros Ha Hr. unfold mixed_test_main. rewrite (int_arg_ok _ _ _ _ _ _ Ha).
  apply ubind_ext. intros pid s1. apply ubind_ext. intros [] s2.
  rewrite (rounds_loop_ok _ _ _ _ _ (λ r i, Z.lxor i (r + 1))); [|intros q i Hq Hi; by rewrite cint_ok by lia|lia|lia].
  rewrite Z2Nat.id, same_naps by lia. rewrite (sum_ext _ _ _ (λ _, 3199999960000000)), sum_const, Z.add_0_l; [reflexivity|lia|].
  intros q Hq. apply (lxor_round 78125 (q + 1)); lia.
Qed.

Lemma anomaly_round r n : 0 <= n → 2 * sum_from 0 n (λ i, i * 7 + r) = n * (2 * r + 7 * (n - 1)).
Proof. intros Hn. pose proof (sum_linear 7 r 0 n Hn). lia. Qed.

(** anomaly: every third round is six hundred times as long as the others, and the naps are of 1 and
    5 ticks in turn. *)
Theorem anomaly_correct argv rounds s :
  arg_value argv 1 30 = Some rounds → 0 <= rounds <= 2 ^ 30 →
  anomaly_main argv s =
  (pid <~ getpid ;;
   printf (eol "anomaly (pid %d) generating erratic burst surges & rapid state swings...") [Num pid] ;;~
   ending ((λ r, if Z.rem r 2 =? 0 then 1 else 5) <$> seqZ 0 rounds) "anomaly (pid %d) finished (acc=%lu)."
     (u64 (sum_from 0 rounds (λ r, if Z.rem r 3 =? 0 then 50399999580000000 + 120000000 * r
                                   else 139999300000 + 200000 * r)))) s.
Proof.
  intros Ha Hr. unfold anomaly_main. rewrite (int_arg_ok _ _ _ _ _ _ Ha).
  apply ubind_ext. intros pid s1. apply ubind_ext. intros [] s2.
  rewrite (rounds_loop_ok _ _ _ _ _ (λ r i, i * 7 + r)); [| |intros q _; destruct (_ =? 0); lia|lia].
  2: { intros q i Hq Hi. apply cint_ok. destruct (Z.rem q 3 =? 0); lia. }
  rewrite Z2Nat.id, Z.add_0_l by lia. rewrite (sum_ext 0 rounds _ (λ r, if Z.rem r 3 =? 0 then 50399999580000000 + 120000000 * r else 139999300000 + 200000 * r));
    [reflexivity|]. intros q _. cbv beta.
  destruct (Z.rem q 3 =? 0); [pose proof (anomaly_round q 120000000)|pose proof (anomaly_round q 200000)]; lia.
Qed.

(** The lines that bursttest prints and the naps of its phases. *)
Fixpoint phases_run (n : nat) (p : Z) : U unit :=
  match n with
  | O => ureturn tt
  | S n =>
      let work_len := if Z.rem p 2 =? 0 then 5000000 else 80000000 in
      let sleep_len := if Z.rem p 2 =? 0 then 6 else 1 in
      printf (eol "bursttest phase %d: work=%d, sleep=%d") [Num (p + 1); Num work_len; Num sleep_len] ;;~
      naps (replicate 20 sleep_len) ;;~
      phases_run n (p + 1)
  end.
(** A phase adds twenty times the sum of the numbers below its [work_len]. *)
Definition phase_sum (p : Z) : Z := 20 * (if Z.rem p 2 =? 0 then 12499997500000 else 3199999960000000).
Lemma phase_round p r : 0 <= p <= 44 → 0 <= r < 20 →
  sum_from 0 (if Z.rem p 2 =? 0 then 5000000 else 80000000) (λ i, Z.lxor i (r + p))
  = if Z.rem p 2 =? 0 then 12499997500000 else 3199999960000000.
Proof.
  intros Hp Hr. destruct (Z.rem p 2 =? 0); [|apply (lxor_round 78125); lia].
  pose proof (sum_lxor 6 78125 (r + p) ltac:(lia) ltac:(lia) ltac:(lia)) as H.
  change (78125 * 2 ^ 6) with 5000000 in H. rewrite H. pose proof (sum_below 5000000). lia.
Qed.
Lemma phases_loop_ok {B} n p sum (K : Z → U B) s :
  0 <= p → p + Z.of_nat n <= 45 → 0 <= sum < 2 ^ 64 →
  ubind (phases_loop n p sum) K s =
  ubind (phases_run n p) (λ _, K (u64 (sum + sum_from p (Z.of_nat n) phase_sum))) s.
Proof.
  revert p sum s. induction n as [|n IH]; intros p sum s Hp Hn Hs; cbn [phases_loop phases_run].
  - rewrite sum_from_0, Z.add_0_r, u64_small by lia. reflexivity.
  - rewrite cint_ok by lia. rewrite !ubind_assoc. apply ubind_ext. intros [] s1. rewrite !ubind_assoc.
    rewrite (rounds_loop_ok _ _ _ _ _ (λ r i, Z.lxor i (r + p)));
      [|intros q i Hq Hi; by rewrite cint_ok by lia|intros q _; destruct (_ =? 0); lia|done].
    rewrite same_naps by lia. apply ubind_ext. intros [] s2. rewrite IH by (try apply u64_range; lia).
    apply ubind_ext. intros [] s3. f_equal. rewrite (sum_from_S p) by lia.
    replace (Z.of_nat (S n) - 1) with (Z.of_nat n) by lia.
    rewrite (sum_ext 0 (Z.of_nat 20) _ (λ _, if Z.rem p 2 =? 0 then 12499997500000 else 3199999960000000));
      [|intros q Hq; apply phase_round; lia]. rewrite sum_const by lia.
    change (Z.of_nat 20) with 20. fold (phase_sum p). unfold u64. rewrite Zplus_mod_idemp_l. f_equal. lia.
Qed.

(** bursttest: the phases alternate between short bursts with long naps and long bursts with short
    ones, twenty of each. *)
Theorem bursttest_correct argv phases s :
  arg_value argv 1 4 = Some phases → 0 <= phases <= 45 →
  bursttest_main argv s =
  (pid <~ getpid ;;
   printf (eol "bursttest (pid %d) starting dynamic burst transition test...") [Num pid] ;;~
   phases_run (Z.to_nat phases) 0 ;;~
   ending [] "bursttest (pid %d) completed (sum=%lu)." (u64 (sum_from 0 phases phase_sum))) s.
Proof.
  intros Ha Hp. unfold bursttest_main. rewrite (int_arg_ok _ _ _ _ _ _ Ha).
  apply ubind_ext. intros pid s1. apply ubind_ext. intros [] s2.
  rewrite phases_loop_ok by lia. rewrite Z2Nat.id, Z.add_0_l by lia. reflexivity.
Qed.

Lemma cpu_loop_ok fuel limit i sum s :
  0 <= i <= limit → 0 < limit < 2 ^ 31 → 0 <= sum < 2 ^ 64 → limit - i < Z.of_nat fuel →
  cpu_loop fuel limit i sum s = Done (u64 (sum + sum_from i (limit - i) cpu_term)) s.
Proof.
  revert i sum. induction fuel as [|fuel IH]; intros i sum Hi Hl Hs Hf; [lia|]. cbn [cpu_loop].
  destruct (Z.eqb_spec limit 0); [lia|]. cbn [orb]. destruct (Z.ltb_spec i limit).
  - rewrite (u64_small (i + 1)), IH by (try apply u64_range; lia). f_equal. rewrite (sum_from_S i) by lia.
    replace (limit - (i + 1)) with (limit - i - 1) by lia. unfold u64. rewrite Zplus_mod_idemp_l. f_equal. lia.
  - rewrite sum_from_0, Z.add_0_r, u64_small by lia. done.
Qed.
Lemma cpu_loop_forever fuel i sum s : cpu_loop fuel 0 i sum s = Running.
Proof. revert i sum. induction fuel as [|fuel IH]; intros i sum; [done|]. cbn [cpu_loop]. apply IH. Qed.

(** cpu_test computes for as long as it is told to; without an argument it never ends. *)
Theorem cpu_test_correct fuel argv limit s :
  arg_value argv 1 0 = Some limit → 0 <= limit < 2 ^ 31 → limit < Z.of_nat fuel →
  cpu_test_main fuel argv s =
  (pid <~ getpid ;;
   printf (eol "cpu_test (pid %d) starting intense CPU-bound work...") [Num pid] ;;~
   if limit =? 0 then running
   else ending [] "cpu_test (pid %d) finished calculation (checksum %lu)" (u64 (sum_from 0 limit cpu_term))) s.
Proof.
  intros Ha Hl Hf. unfold cpu_test_main. rewrite (int_arg_ok _ _ _ _ _ _ Ha).
  apply ubind_ext. intros pid s1. apply ubind_ext. intros [] s2. rewrite (u64_small limit) by lia.
  destruct (Z.eqb_spec limit 0) as [->|Hne].
  - unfold ubind at 1. by rewrite cpu_loop_forever.
  - unfold ubind at 1. rewrite cpu_loop_ok by lia. rewrite Z.sub_0_r, Z.add_0_l. reflexivity.
Qed.

#[local] Transparent naps.
(** sleep_test only sleeps. *)
Theorem sleep_test_correct argv iterations sleep_duration s :
  arg_value argv 1 1000 = Some iterations → arg_value argv 2 5 = Some sleep_duration →
  sleep_test_main argv s =
  (pid <~ getpid ;;
   printf (eol "sleep_test (pid %d) starting interactive sleep workload (%d iterations, %d ticks each)...")
     [Num pid; Num iterations; Num sleep_duration] ;;~
   naps (replicate (Z.to_nat iterations) sleep_duration) ;;~
   pid <~ getpid ;; printf (eol "sleep_test (pid %d) finished sleeping.") [Num pid] ;;~ exit 0) s.
Proof.
  intros H1 H2. unfold sleep_test_main. rewrite (int_arg_ok _ _ _ _ _ _ H1), (int_arg_ok _ _ _ _ _ _ H2).
  apply ubind_ext. intros pid s1. apply ubind_ext. intros [] s2. generalize (Z.to_nat iterations) as n.
  intros n. revert s2. induction n as [|n IH]; intros s2; [reflexivity|].
  cbn [sleep_loop replicate naps]. rewrite !ubind_assoc. apply ubind_ext. intros [] s3. apply IH.
Qed.
End runs.
