(* ===== verification/Procs.v ===== *)
(** Programs that make processes: user/init.c, user/zombie.c, user/forktest.c and user/starve.c,
    each as a machine that makes system calls and goes on with their results, and the processes
    that run them together, in every interleaving of their calls. *)
From S2P Require Import Prelude Kernel Cstring Uart Ulib File Tools.

(** ** Programs *)

(** [Other] is a call that does nothing to processes; its result may be any number. *)
Inductive call :=
| Fork | Wait | Exit (status : Z) | Exec (path : list Z) (argv : list (list Z))
| Open (path : list Z) (mode : Z) | Mknod (path : list Z) (major minor : Z) | Dup (fd : Z)
| Write (fd : Z) (text : list Z) | Pause (n : Z) | Compute | Kill (pid : Z) | Other.

(** Where a program is: the call that it makes next, and how it goes on when that returns [r]. *)
Class Program (point : Type) := { next : point → call; resume : point → Z → point }.

(** ** user/init.c *)

(** [Restarting] is the top of the outer loop; [Reaping pid] is the inner loop, with the
    variable [pid]; [Starting] is the child before exec(). [Failing message] prints
    the message and exits. *)
Inductive ipoint :=
| Opening | Making | Reopening | Dup1 | Dup2 | Restarting | Forking | Reaping (pid : Z)
| Starting | Failing (message : string) | IExit (status : Z).

Definition sh_argv : list (list Z) := [chars "sh"].

Definition init_next (p : ipoint) : call :=
  match p with
  | Opening | Reopening => Open (chars "console") O_RDWR
  | Making => Mknod (chars "console") CONSOLE 0
  | Dup1 | Dup2 => Dup 0
  | Restarting => Write 1 (chars (eol "init: starting sh"))
  | Forking => Fork
  | Reaping _ => Wait
  | Starting => Exec (chars "sh") sh_argv
  | Failing message => Write 1 (chars (eol message))
  | IExit status => Exit status
  end.
Definition init_resume (p : ipoint) (r : Z) : ipoint :=
  match p with
  | Opening => if r <? 0 then Making else Dup1
  | Making => Reopening
  | Reopening => Dup1
  | Dup1 => Dup2
  | Dup2 => Restarting
  | Restarting => Forking
  | Forking =>
      if r <? 0 then Failing "init: fork failed" else if r =? 0 then Starting else Reaping r
  | Reaping pid =>
      if r =? pid then Restarting
      else if r <? 0 then Failing "init: wait returned an error"
      else Reaping pid
  | Starting => Failing "init: exec sh failed"
  | Failing _ => IExit 1
  | IExit status => IExit status
  end.
#[export] Instance init_main : Program ipoint := {| next := init_next; resume := init_resume |}.

(** ** user/zombie.c *)

Inductive zpoint := ZForking | ZPausing | ZExit.
Definition zombie_next (p : zpoint) : call := match p with ZForking => Fork | ZPausing => Pause 5 | ZExit => Exit 0 end.
Definition zombie_resume (p : zpoint) (r : Z) : zpoint :=
  match p with
  | ZForking => if 0 <? r then ZPausing else ZExit
  | ZPausing => ZExit
  | ZExit => ZExit
  end.
#[export] Instance zombie_main : Program zpoint := {| next := zombie_next; resume := zombie_resume |}.

(** ** user/forktest.c *)

Definition N : Z := 1000.
(** The loops have the variable [n]; [FWaiting 0] is the call of wait() after the loop. *)
Inductive fpoint :=
| FStart | FForking (n : Z) | FChild | FWaiting (n : Z) | FOk | FFailing (message : string) | FExit (status : Z).
(** What follows the loop that forks. *)
Definition forked (n : Z) : fpoint :=
  if n =? N then FFailing "fork claimed to work N times!" else FWaiting n.
Definition forktest_next (p : fpoint) : call :=
  match p with
  | FStart => Write 1 (chars (eol "fork test"))
  | FForking _ => Fork
  | FChild => Exit 0
  | FWaiting _ => Wait
  | FOk => Write 1 (chars (eol "fork test OK"))
  | FFailing message => Write 1 (chars (eol message))
  | FExit status => Exit status
  end.
Definition forktest_resume (p : fpoint) (r : Z) : fpoint :=
  match p with
  | FStart => FForking 0
  | FForking n =>
      if r <? 0 then forked n else if r =? 0 then FChild
      else if n + 1 <? N then FForking (n + 1) else forked (n + 1)
  | FChild => FChild
  | FWaiting n =>
      if 0 <? n then if r <? 0 then FFailing "wait stopped early" else FWaiting (n - 1)
      else if r =? -1 then FOk else FFailing "wait got too many"
  | FOk => FExit 0
  | FFailing _ => FExit 1
  | FExit status => FExit status
  end.
#[export] Instance forktest_main : Program fpoint := {| next := forktest_next; resume := forktest_resume |}.

(** ** user/starve.c *)

(** The loops have the variables [k] and [i]; [SWorking] is the loop of a child. *)
Inductive spoint :=
| SStart | SForking (k : Z) | SWorking | SChildExit | SWaiting (i : Z) | SDone | SExit.
Definition nkids : Z := 3.
Definition starve_next (p : spoint) : call :=
  match p with
  | SStart | SDone => Other (* the messages, with getpid() *)
  | SForking _ => Fork
  | SWorking => Compute
  | SWaiting _ => Wait
  | SChildExit | SExit => Exit 0
  end.
Definition starve_resume (p : spoint) (r : Z) : spoint :=
  match p with
  | SStart => SForking 0
  | SForking k => if r =? 0 then SWorking else if k + 1 <? nkids then SForking (k + 1) else SWaiting 0
  | SWorking => SChildExit
  | SChildExit => SChildExit
  | SWaiting i => if i + 1 <? nkids then SWaiting (i + 1) else SDone
  | SDone => SExit
  | SExit => SExit
  end.
#[export] Instance starve_main : Program spoint := {| next := starve_next; resume := starve_resume |}.

(** ** Processes *)

(** A process runs one of these programs, or another one. *)
Inductive prog (other : Type) :=
| PInit (p : ipoint) | PZombie (p : zpoint) | PForktest (p : fpoint) | PStarve (p : spoint) | POther (p : other).
Arguments PInit {other} p.
Arguments PZombie {other} p.
Arguments PForktest {other} p.
Arguments PStarve {other} p.
Arguments POther {other} p.
#[export] Instance prog_main {other} `{!Program other} : Program (prog other) := {|
  next p :=
    match p with
    | PInit p => next p | PZombie p => next p | PForktest p => next p | PStarve p => next p | POther p => next p
    end;
  resume p r :=
    match p with
    | PInit p => PInit (resume p r) | PZombie p => PZombie (resume p r)
    | PForktest p => PForktest (resume p r) | PStarve p => PStarve (resume p r)
    | POther p => POther (resume p r)
    end
|}.

Section processes.
Context {point : Type} `{!Program point}.
(** Which programs exec() may start, in a process with the children [C]. *)
Context (loads : gset Z → list Z → list (list Z) → point → Prop).

(** A process runs, or it has exited with a status; [marked] is the field [killed]. *)
Record slot := Slot { parent : Z; marked : bool; body : point + Z }.
(** The processes by their pids. [denied] says that init asked for a process it did not get;
    [spoiled] that a free entry of the process table is marked as killed. *)
Record system := System { table : gmap Z slot; denied : bool; spoiled : bool }.

Definition children_of (t : gmap Z slot) (i : Z) : gset Z := dom (filter (λ x, parent x.2 = i) t).
Definition adopted (i : Z) (x : slot) : slot := if parent x =? i then Slot 1 (marked x) (body x) else x.
(** The children of [i] become children of init. *)
Definition reparented (i : Z) (t : gmap Z slot) : gmap Z slot := adopted i <$> t.
Definition goes_on (t : gmap Z slot) (i par : Z) (p : point) (r : Z) : gmap Z slot :=
  <[i := Slot par false (inl (resume p r))]> t.
Definition exited (t : gmap Z slot) (i par : Z) (k : bool) (status : Z) : gmap Z slot :=
  <[i := Slot par k (inr status)]> (reparented i t).
Definition set_marked (x : slot) : slot := Slot (parent x) true (body x).
Definition mark (c : Z) (t : gmap Z slot) : gmap Z slot := alter set_marked c t.

(** Process [i] makes its next call, takes a fatal trap, or exits because it was killed. A killed
    process does not return to its program: usertrap() makes it exit with -1 ([step_killed]), at
    once or when the call that it sleeps in has returned, such as wait() with -1; only a child
    that has exited in the meantime is still reaped ([step_wait_killed]). kill() of a pid of 0
    finds an unused entry, and the process that is made there later is killed from the start.
    exit() of init, of its own or as it was killed, is a panic; wait() with children that all run
    makes no step. *)
Inductive step (i : Z) : system → system → Prop :=
| step_fork t d z par p c k :
    t !! i = Some (Slot par false (inl p)) → next p = Fork → 0 < c → t !! c = None → (size t < NPROC)%nat →
    (k = true → z = true) →
    step i (System t d z) (System (<[c := Slot i k (inl (resume p 0))]> (goes_on t i par p c)) d z)
| step_fork_fails t d z par p :
    t !! i = Some (Slot par false (inl p)) → next p = Fork →
    step i (System t d z) (System (goes_on t i par p (-1)) (d || (i =? 1)) z)
| step_wait t d z par p c k st :
    t !! i = Some (Slot par false (inl p)) → next p = Wait → t !! c = Some (Slot i k (inr st)) →
    step i (System t d z) (System (goes_on (delete c t) i par p c) d z)
| step_wait_fails t d z par p :
    t !! i = Some (Slot par false (inl p)) → next p = Wait → children_of t i = ∅ →
    step i (System t d z) (System (goes_on t i par p (-1)) d z)
| step_wait_killed t d z par p c k st :
    t !! i = Some (Slot par true (inl p)) → next p = Wait → t !! c = Some (Slot i k (inr st)) → i ≠ 1 →
    step i (System t d z) (System (exited (delete c t) i par true (-1)) d z)
| step_killed t d z par p :
    t !! i = Some (Slot par true (inl p)) → i ≠ 1 →
    step i (System t d z) (System (exited t i par true (-1)) d z)
| step_fault t d z par p :
    t !! i = Some (Slot par false (inl p)) →
    step i (System t d z) (System (mark i t) d z)
| step_exit t d z par p status :
    t !! i = Some (Slot par false (inl p)) → next p = Exit status → i ≠ 1 →
    step i (System t d z) (System (exited t i par false status) d z)
| step_exec t d z par p path argv q :
    t !! i = Some (Slot par false (inl p)) → next p = Exec path argv → loads (children_of t i) path argv q →
    step i (System t d z) (System (<[i := Slot par false (inl q)]> t) d z)
| step_exec_fails t d z par p path argv :
    t !! i = Some (Slot par false (inl p)) → next p = Exec path argv →
    step i (System t d z) (System (goes_on t i par p (-1)) d z)
| step_kill t d z par p c :
    t !! i = Some (Slot par false (inl p)) → next p = Kill c → is_Some (t !! c) →
    step i (System t d z) (System (mark c (goes_on t i par p 0)) d z)
| step_kill_unused t d z par p :
    t !! i = Some (Slot par false (inl p)) → next p = Kill 0 → (size t < NPROC)%nat →
    step i (System t d z) (System (goes_on t i par p 0) d true)
| step_kill_fails t d z par p c :
    t !! i = Some (Slot par false (inl p)) → next p = Kill c → t !! c = None → (c ≠ 0 ∨ size t = NPROC) →
    step i (System t d z) (System (goes_on t i par p (-1)) d z)
| step_other t d z par p r :
    t !! i = Some (Slot par false (inl p)) →
    match next p with Fork | Wait | Exit _ | Exec _ _ | Kill _ => False | _ => True end →
    step i (System t d z) (System (goes_on t i par p r) d z).

Inductive reachable (s0 : system) : system → Prop :=
| reach_refl : reachable s0 s0
| reach_step s s' i : reachable s0 s → step i s s' → reachable s0 s'.

(** Every process but init has a parent that runs; init runs. *)
Record wf (t : gmap Z slot) : Prop := {
  wf_pos : ∀ i x, t !! i = Some x → 0 < i;
  wf_init : ∃ k p, t !! 1 = Some (Slot 0 k (inl p));
  wf_parent : ∀ i x, t !! i = Some x → i ≠ 1 → parent x ≠ i ∧ ∃ par k p, t !! parent x = Some (Slot par k (inl p))
}.

Lemma elem_children t i c : c ∈ children_of t i ↔ ∃ k b, t !! c = Some (Slot i k b).
Proof.
  unfold children_of. rewrite elem_of_dom. split.
  - intros [x Hx]. apply map_lookup_filter_Some in Hx as [Hx <-]. exists (marked x), (body x). by destruct x.
  - intros (k & b & Hb). exists (Slot i k b). by apply map_lookup_filter_Some.
Qed.
Lemma size_children t i : (size (children_of t i) <= size t)%nat.
Proof. unfold children_of. rewrite size_dom. apply map_size_filter. Qed.
Lemma children_goes_on t i par k p k' q j :
  t !! i = Some (Slot par k p) → children_of (<[i := Slot par k' q]> t) j = children_of t j.
Proof.
  intros Hi. apply set_eq. intros c. rewrite !elem_children. destruct (decide (c = i)) as [->|Hne].
  - rewrite lookup_insert_eq, Hi. split; intros (x & b & E); simplify_eq; eauto.
  - by rewrite lookup_insert_ne by done.
Qed.
Lemma children_mark t c j : children_of (mark c t) j = children_of t j.
Proof.
  apply set_eq. intros x. rewrite !elem_children. unfold mark. destruct (decide (x = c)) as [->|Hne].
  - rewrite lookup_alter_eq. destruct (t !! c) as [[par k b]|]; unfold set_marked; cbn; split; intros (? & ? & E); simplify_eq/=; eauto.
  - by rewrite lookup_alter_ne by done.
Qed.
Lemma children_new t i c k p j :
  t !! c = None → children_of (<[c := Slot i k p]> t) j = if decide (j = i) then {[c]} ∪ children_of t j else children_of t j.
Proof.
  intros Hc. apply set_eq. intros x. rewrite elem_children. destruct (decide (x = c)) as [->|Hne].
  - rewrite lookup_insert_eq. destruct (decide (j = i)) as [->|Hk].
    + split; [set_solver|eauto].
    + rewrite elem_children, Hc. split; intros (? & b & E); simplify_eq.
  - rewrite lookup_insert_ne by done. destruct (decide (j = i)) as [->|Hk]; [|by rewrite elem_children].
    rewrite elem_of_union, elem_of_singleton, elem_children. naive_solver.
Qed.
Lemma children_reaped t i c k b j :
  t !! c = Some (Slot i k b) →
  children_of (delete c t) j = if decide (j = i) then children_of t j ∖ {[c]} else children_of t j.
Proof.
  intros Hc. apply set_eq. intros x. rewrite elem_children. destruct (decide (x = c)) as [->|Hne].
  - rewrite lookup_delete_eq. destruct (decide (j = i)) as [->|Hk].
    + split; [by intros (? & ? & ?)|set_solver].
    + rewrite elem_children, Hc. split; intros (? & ? & ?); simplify_eq.
  - rewrite lookup_delete_ne by done. destruct (decide (j = i)) as [->|Hk]; [|by rewrite elem_children].
    rewrite elem_of_difference, elem_of_singleton, elem_children. naive_solver.
Qed.
Lemma lookup_reparented i t c : reparented i t !! c = adopted i <$> t !! c.
Proof. apply lookup_fmap. Qed.
Lemma children_reparented t i j :
  j ≠ i → i ≠ 1 →
  children_of (reparented i t) j = if decide (j = 1) then children_of t 1 ∪ children_of t i else children_of t j.
Proof.
  intros Hk Hi. apply set_eq. intros c. rewrite elem_children, lookup_reparented. unfold adopted.
  destruct (decide (j = 1)) as [->|Hk1].
  - rewrite elem_of_union, !elem_children. destruct (t !! c) as [[par k b]|] eqn:E; simpl; [|naive_solver].
    destruct (Z.eqb_spec par i); naive_solver.
  - rewrite elem_children. destruct (t !! c) as [[par k b]|] eqn:E; simpl; [|naive_solver].
    destruct (Z.eqb_spec par i); naive_solver.
Qed.

(** A process that goes on, is marked, or exits, keeps its place. *)
Lemma wf_goes_on t i par k p k' q :
  wf t → t !! i = Some (Slot par k (inl p)) → wf (<[i := Slot par k' (inl q)]> t).
Proof.
  intros [Hp (k0 & p0 & H0) Hpar] Hi. split.
  - intros j x. destruct (decide (j = i)) as [->|]; [eauto|rewrite lookup_insert_ne by done; eauto].
  - destruct (decide (i = 1)) as [->|].
    + simplify_eq. exists k', q. by rewrite lookup_insert_eq.
    + exists k0, p0. by rewrite lookup_insert_ne.
  - intros j x Hk Hk1. assert (Hx : ∃ x', t !! j = Some x' ∧ parent x' = parent x).
    { destruct (decide (j = i)) as [->|].
      - rewrite lookup_insert_eq in Hk. simplify_eq. eauto.
      - rewrite lookup_insert_ne in Hk by done. eauto. }
    destruct Hx as (x' & Hx' & <-). destruct (Hpar j x' Hx' Hk1) as (Hne & par' & k1 & p' & E). split; [done|].
    destruct (decide (parent x' = i)) as [->|].
    + rewrite lookup_insert_eq. eauto.
    + rewrite lookup_insert_ne by done. eauto.
Qed.
Lemma lookup_mark c t j x : mark c t !! j = Some x →
  ∃ k, t !! j = Some (Slot (parent x) k (body x)).
Proof.
  unfold mark. destruct (decide (j = c)) as [->|].
  - rewrite lookup_alter_eq. intros (y & Hy & ->)%fmap_Some. exists (marked y). by destruct y.
  - rewrite lookup_alter_ne by done. intros Hx. exists (marked x). by destruct x.
Qed.
Lemma lookup_marked c t j par k b : t !! j = Some (Slot par k b) → ∃ k', mark c t !! j = Some (Slot par k' b).
Proof.
  intros Hj. unfold mark. destruct (decide (j = c)) as [->|].
  - rewrite lookup_alter_eq, Hj. by exists true.
  - rewrite lookup_alter_ne by done. eauto.
Qed.
Lemma wf_mark t c : wf t → wf (mark c t).
Proof.
  intros [Hp (k0 & p0 & H0) Hpar]. split.
  - intros j x (k & Hj)%lookup_mark. eauto.
  - destruct (lookup_marked c _ _ _ _ _ H0) as [k' ?]. eauto.
  - intros j x (k & Hj)%lookup_mark Hj1. destruct (Hpar _ _ Hj Hj1) as (Hne & par' & k1 & p' & E). split; [done|].
    destruct (lookup_marked c _ _ _ _ _ E) as [k' ?]. eauto.
Qed.
Lemma wf_new t i c par k0 p k q :
  wf t → t !! i = Some (Slot par k0 (inl p)) → 0 < c → t !! c = None → wf (<[c := Slot i k (inl q)]> t).
Proof.
  intros [Hp (ki & p0 & H0) Hpar] Hi Hc Hn. split.
  - intros j x. destruct (decide (j = c)) as [->|]; [done|rewrite lookup_insert_ne by done; eauto].
  - exists ki, p0. rewrite lookup_insert_ne; [done|congruence].
  - intros j x Hk Hk1. destruct (decide (j = c)) as [->|].
    + rewrite lookup_insert_eq in Hk. simplify_eq/=. split; [congruence|].
      rewrite lookup_insert_ne by congruence. eauto.
    + rewrite lookup_insert_ne in Hk by done. destruct (Hpar j x Hk Hk1) as (Hne & par' & k' & p' & E).
      split; [done|]. rewrite lookup_insert_ne by congruence. eauto.
Qed.
Lemma wf_reaped t c par k st : wf t → t !! c = Some (Slot par k (inr st)) → wf (delete c t).
Proof.
  intros [Hp (k0 & p0 & H0) Hpar] Hc. split.
  - intros j x Hk. apply lookup_delete_Some in Hk as [_ Hk]. eauto.
  - exists k0, p0. rewrite lookup_delete_ne; [done|congruence].
  - intros j x Hk Hk1. apply lookup_delete_Some in Hk as [_ Hk]. destruct (Hpar j x Hk Hk1) as (Hne & par' & k' & p' & E).
    split; [done|]. rewrite lookup_delete_ne by congruence. eauto.
Qed.
Lemma wf_exit t i par k p k' status :
  wf t → t !! i = Some (Slot par k (inl p)) → i ≠ 1 → wf (exited t i par k' status).
Proof.
  intros [Hp (k0 & p0 & H0) Hpar] Hi H1. destruct (Hpar i _ Hi H1) as (Hself & Hlive). simpl in *.
  assert (Hl : ∀ j, j ≠ i → exited t i par k' status !! j = adopted i <$> t !! j)
    by (intros j Hk; unfold exited; by rewrite lookup_insert_ne, lookup_reparented).
  assert (Hr : ∀ j, j ≠ i → (∃ par k p, t !! j = Some (Slot par k (inl p))) →
    ∃ par' k1 p', exited t i par k' status !! j = Some (Slot par' k1 (inl p'))).
  { intros j Hk (par' & k1 & p' & E). rewrite Hl, E by done. unfold adopted. simpl. destruct (_ =? _); eauto. }
  split.
  - intros j x. destruct (decide (j = i)) as [->|]; [eauto|]. rewrite Hl by done.
    intros (x' & Hx' & _)%fmap_Some. eauto.
  - exists k0, p0. rewrite Hl, H0 by done. unfold adopted. cbn [fmap option_fmap option_map parent].
    assert (0 < i) by eauto. destruct (Z.eqb_spec 0 i); [lia|done].
  - intros j x Hk Hk1. destruct (decide (j = i)) as [->|Hne].
    + unfold exited in Hk. rewrite lookup_insert_eq in Hk. simplify_eq/=. split; [done|]. by apply Hr.
    + rewrite Hl in Hk by done. apply fmap_Some in Hk as (x' & Hx' & ->).
      destruct (Hpar j x' Hx' Hk1) as (Hnk & Hlk). unfold adopted. destruct (Z.eqb_spec (parent x') i) as [E|E]; simpl.
      * split; [done|]. apply Hr; eauto.
      * split; [done|]. by apply Hr.
Qed.
Lemma wf_step i s s' : wf (table s) → step i s s' → wf (table s').
Proof.
  intros Hw Hs. destruct Hs; simpl in *; unfold goes_on in *;
    try (by eapply wf_goes_on); try (by eapply wf_exit); try by apply wf_mark.
  - eapply wf_new; [by eapply wf_goes_on|by rewrite lookup_insert_eq|done|].
    rewrite lookup_insert_ne; [done|congruence].
  - eapply wf_goes_on; [by eapply wf_reaped|]. by rewrite lookup_delete_ne by congruence.
  - eapply wf_exit; [by eapply wf_reaped| |done]. by rewrite lookup_delete_ne by congruence.
  - apply wf_mark. by eapply wf_goes_on.
Qed.

(** ** Reasoning about one process at a time

    [J denied i p C] is what is true of the process [i] at point [p] with the children [C]. The
    other processes can only exit, and init is given the children of those that do. *)
Record local_inv (J : bool → Z → point → gset Z → Prop) : Prop := {
  li_fork d i p C c : J d i p C → next p = Fork → 0 < c → c ≠ 1 → c ∉ C → (size C < NPROC)%nat → J d i (resume p c) ({[c]} ∪ C);
  li_child d i p C c : J d i p C → next p = Fork → c ≠ 1 → J d c (resume p 0) ∅;
  li_fork_fails d i p C : J d i p C → next p = Fork → J (d || (i =? 1)) i (resume p (-1)) C;
  li_wait d i p C c : J d i p C → next p = Wait → 0 < c → c ∈ C → J d i (resume p c) (C ∖ {[c]});
  li_wait_fails d i p : J d i p ∅ → next p = Wait → J d i (resume p (-1)) ∅;
  li_exec d i p C path argv q : J d i p C → next p = Exec path argv → loads C path argv q → J d i q C;
  li_exec_fails d i p C path argv : J d i p C → next p = Exec path argv → J d i (resume p (-1)) C;
  li_other d i p C r : J d i p C →
    match next p with Fork | Wait | Exit _ | Exec _ _ | Kill _ => False | _ => True end → J d i (resume p r) C;
  li_kill d i p C c r : J d i p C → next p = Kill c → r = 0 ∨ r = -1 → J d i (resume p r) C;
  li_adopt d p C D : J d 1 p C → C ## D → J d 1 p (C ∪ D);
  li_denied d i p C : J d i p C → J true i p C
}.
Definition everywhere (J : bool → Z → point → gset Z → Prop) (s : system) : Prop :=
  wf (table s) ∧ ∀ i par k p, table s !! i = Some (Slot par k (inl p)) → J (denied s) i p (children_of (table s) i).

Section local.
Context (J : bool → Z → point → gset Z → Prop) (HJ : local_inv J).

(** A process that goes on with its children as they were. *)
Lemma everywhere_goes_on t d z d' z' i par k p k' q :
  everywhere J (System t d z) → t !! i = Some (Slot par k (inl p)) → (d' = d ∨ d' = true) →
  J d' i q (children_of t i) → everywhere J (System (<[i := Slot par k' (inl q)]> t) d' z').
Proof.
  intros [Hw Hj] Hi Hd Hq. split; [by eapply wf_goes_on|]. simpl in *. intros j par' k1 p' Hk.
  erewrite children_goes_on by done. destruct (decide (j = i)) as [->|].
  - rewrite lookup_insert_eq in Hk. by simplify_eq.
  - rewrite lookup_insert_ne in Hk by done. apply Hj in Hk. destruct Hd as [->| ->]; [done|by eapply li_denied].
Qed.
Lemma everywhere_mark t d z c : everywhere J (System t d z) → everywhere J (System (mark c t) d z).
Proof.
  intros [Hw Hj]. split; [by apply wf_mark|]. simpl in *. intros j par k p (k' & Hk)%lookup_mark.
  rewrite children_mark. by eapply Hj.
Qed.
Lemma children_of_new t c : wf t → t !! c = None → 0 < c → children_of t c = ∅.
Proof.
  intros Hw Hn Hc. apply set_eq. intros j. rewrite elem_children. split; [|set_solver]. intros (k & b & Hk).
  destruct (decide (j = 1)) as [->|Hk1].
  - destruct (wf_init t Hw) as (k' & p & Hp). simplify_eq. lia.
  - destruct (wf_parent t Hw j _ Hk Hk1) as (_ & par & k' & p & E). simpl in E. congruence.
Qed.

Lemma everywhere_fork t d z i par p c k :
  everywhere J (System t d z) → t !! i = Some (Slot par false (inl p)) → next p = Fork → 0 < c → t !! c = None →
  (size t < NPROC)%nat → everywhere J (System (<[c := Slot i k (inl (resume p 0))]> (goes_on t i par p c)) d z).
Proof.
  intros [Hw Hj] Hi Hn Hc Hf Hsz. cbn [table denied] in *. assert (HJi := Hj _ _ _ _ Hi).
  assert (Hc1 : c ≠ 1) by (intros ->; destruct (wf_init t Hw) as (? & ? & ?); congruence).
  assert (Hci : c ≠ i) by congruence. unfold goes_on. split.
  { eapply wf_new; [by eapply wf_goes_on|by rewrite lookup_insert_eq|done|]. by rewrite lookup_insert_ne. }
  cbn [table denied]. intros j par' k' p' Hk. rewrite children_new by (by rewrite lookup_insert_ne).
  erewrite children_goes_on by done. destruct (decide (j = c)) as [->|Hkc].
  - rewrite lookup_insert_eq in Hk. simplify_eq. rewrite decide_False by done.
    rewrite children_of_new by done. by eapply li_child.
  - rewrite lookup_insert_ne in Hk by done. destruct (decide (j = i)) as [->|Hki].
    + rewrite lookup_insert_eq in Hk. simplify_eq. eapply li_fork; try done.
      * rewrite elem_children. by intros (? & b & E); congruence.
      * eapply Nat.le_lt_trans; [|exact Hsz]. apply size_children.
    + rewrite lookup_insert_ne in Hk by done. by eapply Hj.
Qed.

(** What the others keep when [i] reaps [c]. *)
Lemma children_not_reaped t i c k st j :
  t !! c = Some (Slot i k (inr st)) → j ≠ i → children_of (delete c t) j = children_of t j.
Proof. intros Hc Hj. erewrite children_reaped by done. by rewrite decide_False. Qed.

Lemma everywhere_wait t d z i par p c k st :
  everywhere J (System t d z) → t !! i = Some (Slot par false (inl p)) → next p = Wait →
  t !! c = Some (Slot i k (inr st)) → everywhere J (System (goes_on (delete c t) i par p c) d z).
Proof.
  intros [Hw Hj] Hi Hn Hc. cbn [table denied] in *. assert (Hci : c ≠ i) by congruence. unfold goes_on. split.
  { eapply wf_goes_on; [by eapply wf_reaped|]. by rewrite lookup_delete_ne. }
  cbn [table denied]. intros j par' k' p' Hk.
  erewrite children_goes_on by (by rewrite lookup_delete_ne). destruct (decide (j = i)) as [->|Hki].
  - rewrite lookup_insert_eq in Hk. simplify_eq. erewrite children_reaped, decide_True by done.
    eapply li_wait; [done|by eapply Hj|done|by eapply wf_pos|]. rewrite elem_children. eauto.
  - rewrite lookup_insert_ne in Hk by done. apply lookup_delete_Some in Hk as [_ Hk].
    erewrite children_not_reaped by done. by eapply Hj.
Qed.

(** The properties of the other processes are enough when [i] exits. *)
Definition elsewhere (i : Z) (s : system) : Prop :=
  wf (table s) ∧ ∀ j par k p, j ≠ i → table s !! j = Some (Slot par k (inl p)) → J (denied s) j p (children_of (table s) j).

Lemma everywhere_exit t d z i par k p k' status :
  elsewhere i (System t d z) → t !! i = Some (Slot par k (inl p)) → i ≠ 1 →
  everywhere J (System (exited t i par k' status) d z).
Proof.
  intros [Hw Hj] Hi H1. cbn [table denied] in *. split; [by eapply wf_exit|]. cbn [table denied].
  intros j par' k1 p' Hk. unfold exited in *.
  destruct (decide (j = i)) as [->|Hki]; [rewrite lookup_insert_eq in Hk; simplify_eq|].
  rewrite lookup_insert_ne in Hk by done. rewrite lookup_reparented in Hk. apply fmap_Some in Hk as (x & Hx & E).
  assert (Hx' : ∃ par'' k'', t !! j = Some (Slot par'' k'' (inl p')))
    by (destruct x as [px kx bx]; unfold adopted in E; simpl in E; destruct (px =? i); simplify_eq; eauto).
  destruct Hx' as (par'' & k'' & Hk). assert (HJk := Hj _ _ _ _ Hki Hk).
  destruct (wf_parent t Hw i _ Hi H1) as (Hself & _). simpl in Hself.
  erewrite (children_goes_on _ i par k (inl p));
    [|rewrite lookup_reparented, Hi; unfold adopted; simpl; by destruct (Z.eqb_spec par i)].
  rewrite children_reparented by done. destruct (decide (j = 1)) as [->|]; [|done].
  apply li_adopt; [done..|]. apply elem_of_disjoint. intros c. rewrite !elem_children. naive_solver.
Qed.

Lemma everywhere_step i s s' : everywhere J s → step i s s' → everywhere J s'.
Proof.
  intros He Hs. destruct (He) as [Hw Hj].
  destruct Hs; cbn [table denied] in *;
    lazymatch goal with H : _ !! i = Some (Slot _ _ (inl _)) |- _ => pose proof (Hj _ _ _ _ H) as HJi end.
  - by eapply everywhere_fork.
  - eapply everywhere_goes_on; [exact He|done|by destruct (i =? 1); rewrite ?orb_true_r, ?orb_false_r; auto|].
    by eapply li_fork_fails.
  - by eapply everywhere_wait.
  - eapply everywhere_goes_on; [exact He|done|auto|].
    match goal with H : children_of t i = ∅ |- _ => rewrite H in * end. by eapply li_wait_fails.
  - eapply everywhere_exit; [|by rewrite lookup_delete_ne by congruence|done]. split; [by eapply wf_reaped|].
    cbn [table denied]. intros j par' k' p' Hji [_ Hk]%lookup_delete_Some.
    erewrite children_not_reaped by done. by eapply Hj.
  - eapply everywhere_exit; [|done|done]. split; [done|]. intros. by eapply Hj.
  - by apply everywhere_mark.
  - eapply everywhere_exit; [|done|done]. split; [done|]. intros. by eapply Hj.
  - eapply everywhere_goes_on; [exact He|done|auto|]. by eapply li_exec.
  - eapply everywhere_goes_on; [exact He|done|auto|]. by eapply li_exec_fails.
  - apply everywhere_mark. eapply everywhere_goes_on; [exact He|done|auto|]. eapply li_kill; eauto.
  - eapply everywhere_goes_on; [exact He|done|auto|]. eapply li_kill; eauto.
  - eapply everywhere_goes_on; [exact He|done|auto|]. eapply li_kill; eauto.
  - eapply everywhere_goes_on; [exact He|done|auto|]. by eapply li_other.
Qed.
Lemma everywhere_reachable s0 s : everywhere J s0 → reachable s0 s → everywhere J s.
Proof. intros H0. induction 1; eauto using everywhere_step. Qed.
End local.
End processes.
