(* ===== verification/Family.v ===== *)
(** What the programs of Procs.v do together: init keeps a shell and adopts the processes that
    lose their parents, forktest always succeeds, starve reaps its workers, and a process that
    zombie leaves behind goes to init. *)
From S2P Require Import Prelude Kernel Cstring Uart Ulib File Tools Procs.

Section programs.
Context {other : Type} `{!Program other}.
Notation prog := (prog other).

(** What is true of a process at a point with its children. *)
Definition init_good (d : bool) (p : ipoint) (C : gset Z) : Prop :=
  match p with
  | Reaping pid => pid ∈ C
  | Starting => False
  | Failing _ | IExit _ => d = true
  | _ => True
  end.
Definition forktest_good (p : fpoint) (C : gset Z) : Prop :=
  match p with
  | FForking n | FWaiting n => 0 <= n < N ∧ Z.of_nat (size C) = n
  | FFailing _ => False
  | FExit status => status = 0 ∧ C = ∅
  | _ => C = ∅
  end.
Definition starve_good (p : spoint) (C : gset Z) : Prop :=
  match p with
  | SForking k => 0 <= k < nkids ∧ Z.of_nat (size C) <= k
  | SWaiting i => 0 <= i < nkids ∧ Z.of_nat (size C) <= nkids - i
  | _ => C = ∅
  end.
Definition good (d : bool) (i : Z) (p : prog) (C : gset Z) : Prop :=
  match p with
  | PInit p => i = 1 → init_good d p C
  | PForktest p => i ≠ 1 ∧ forktest_good p C
  | PStarve p => i ≠ 1 ∧ starve_good p C
  | _ => i ≠ 1
  end.

(** exec() starts a program at its first call; the ones that count their children are started by
    processes that have none. *)
Definition starts (C : gset Z) (p : prog) : Prop :=
  match p with
  | PInit p => p = Opening
  | PZombie p => p = ZForking
  | PForktest p => p = FStart ∧ C = ∅
  | PStarve p => p = SStart ∧ C = ∅
  | POther _ => True
  end.
Context (loads : gset Z → list Z → list (list Z) → prog → Prop).
Context (Hloads : ∀ C path argv p, loads C path argv p → starts C p).

Lemma size_new (C : gset Z) c : c ∉ C → size ({[c]} ∪ C) = S (size C).
Proof. intros H. rewrite size_union by set_solver. by rewrite size_singleton. Qed.
Lemma size_less (C : gset Z) c : c ∈ C → S (size (C ∖ {[c]})) = size C.
Proof.
  intros H. rewrite <- (size_new (C ∖ {[c]}) c) by set_solver. f_equal.
  apply set_eq. intros x. destruct (decide (x = c)); set_solver.
Qed.

Ltac at_point p :=
  destruct p as [p|p|p|p|p]; cbn [next resume prog_main init_main zombie_main forktest_main starve_main good] in *;
  try done; destruct p; try done;
  cbn [init_next zombie_next forktest_next starve_next init_resume zombie_resume forktest_resume starve_resume
    init_good forktest_good starve_good forked] in *.
Lemma programs_local : local_inv loads good.
Proof.
  split.
  - intros d i p C c Hg Hn Hc H1 HC Hs. at_point p.
    + intros Hi. rewrite (proj2 (Z.ltb_ge _ _)), (proj2 (Z.eqb_neq _ _)) by lia. cbn. set_solver.
    + destruct Hg as (? & ? & Hg). split; [done|]. rewrite (proj2 (Z.ltb_ge _ _)), (proj2 (Z.eqb_neq c _)) by lia.
      unfold NPROC in Hs. rewrite (proj2 (Z.ltb_lt (n + 1) N)) by (unfold N; lia). cbn [forktest_good].
      rewrite size_new by done. unfold N. lia.
    + destruct Hg as (? & ? & Hg). split; [done|]. rewrite (proj2 (Z.eqb_neq c _)) by lia.
      destruct (Z.ltb_spec (k + 1) nkids); cbn [starve_good]; rewrite size_new by done; unfold nkids in *; lia.
  - intros d i p C c Hg Hn H1. at_point p; [by destruct Hg..].
  - intros d i p C Hg Hn. at_point p.
    + intros ->. cbn. by rewrite orb_true_r.
    + destruct Hg as (? & ? & Hg). split; [done|]. unfold forked. rewrite (proj2 (Z.eqb_neq n N)) by lia. done.
    + destruct Hg as (? & ? & Hg). split; [done|]. change (-1 =? 0) with false.
      destruct (Z.ltb_spec (k + 1) nkids); cbn [starve_good]; unfold nkids in *; lia.
  - intros d i p C c Hg Hn Hc HC. at_point p.
    + intros ->. destruct (Z.eqb_spec c pid); [done|]. rewrite (proj2 (Z.ltb_ge _ _)) by lia. cbn. set_solver.
    + destruct Hg as (? & ? & Hg). pose proof (size_less C c HC). split; [done|].
      rewrite (proj2 (Z.ltb_lt 0 n)), (proj2 (Z.ltb_ge c 0)) by lia. cbn [forktest_good]. lia.
    + destruct Hg as (? & ? & Hg). pose proof (size_less C c HC). split; [done|].
      destruct (Z.ltb_spec (i0 + 1) nkids); cbn [starve_good]; [lia|]. apply leibniz_equiv, size_empty_iff. unfold nkids in *. lia.
  - intros d i p Hg Hn. at_point p.
    + intros ->. set_solver.
    + destruct Hg as (? & ? & Hg). rewrite size_empty in Hg. subst n. split; [done|]. done.
    + destruct Hg as (? & ? & Hg). split; [done|]. rewrite size_empty in *.
      destruct (Z.ltb_spec (i0 + 1) nkids); cbn [starve_good]; rewrite ?size_empty; unfold nkids in *; [lia|done].
  - intros d i p C path argv q Hg Hn Hl. apply Hloads in Hl.
    assert (Hi : i ≠ 1) by (destruct p as [p|p|p|p|p]; cbn in *; try (by destruct p); tauto).
    destruct q; cbn in *; naive_solver.
  - intros d i p C path argv Hg Hn. at_point p. intros Hi. by apply Hg in Hi.
  - intros d i p C r Hg Hn. at_point p; try (by destruct (r <? 0)); try done; destruct Hg as [? Hg]; subst;
      cbn [forktest_good starve_good]; rewrite ?size_empty; done.
  - intros d i p C c r Hg Hn _. at_point p.
  - intros d p C D Hg HD. destruct p as [p|p|p|p|p]; cbn in *; try naive_solver. intros _. specialize (Hg eq_refl).
    destruct p; cbn in *; try done. set_solver.
  - intros d i p C Hg. destruct p as [p|p|p|p|p]; cbn in *; try done. intros Hi. specialize (Hg Hi).
    by destruct p; cbn in *.
Qed.

Definition booted : system (point := prog) := System {[1 := Slot 0 false (inl (PInit Opening))]} false false.
Lemma booted_good : everywhere good booted.
Proof.
  split; unfold booted; cbn [table denied].
  - split.
    + intros i x [<- _]%lookup_singleton_Some. lia.
    + exists false, (PInit Opening). apply lookup_singleton_eq.
    + intros i x [<- _]%lookup_singleton_Some. done.
  - by intros i par k p [<- [= <- <- <-]]%lookup_singleton_Some.
Qed.
Lemma reachable_good s : reachable loads booted s → everywhere good s.
Proof. apply everywhere_reachable; [apply programs_local|apply booted_good]. Qed.


(** Nothing protects init from kill(): the call kill(1) of any process marks it, and the only
    thing that it can still do is the exit that the kernel answers with a panic. *)
Theorem kill_stops_init s i par p :
  reachable loads booted s → table s !! i = Some (Slot par false (inl p)) → next p = Kill 1 →
  ∃ s', step loads i s s' ∧ (∃ q, table s' !! 1 = Some (Slot 0 true (inl (PInit q)))) ∧ ∀ s'', ¬ step loads 1 s' s''.
Proof.
  intros Hr Hi Hn. apply reachable_good in Hr as [Hw Hg]. destruct (wf_init _ Hw) as (k & p1 & Hp).
  assert (H1 := Hg _ _ _ _ Hp). destruct s as [t d z]. cbn [table denied] in *.
  assert (i ≠ 1) by (intros ->; assert (p1 = p) as -> by congruence; destruct p as [p|p|p|p|p]; cbn in *; [by destruct p|tauto..]).
  eexists. split; [by eapply step_kill|]. cbn [table].
  assert (E : mark 1 (goes_on t i par p 0) !! 1 = Some (Slot 0 true (inl p1))).
  { unfold mark, goes_on. by rewrite lookup_alter_eq, lookup_insert_ne, Hp. }
  split.
  - destruct p1 as [p1|p1|p1|p1|p1]; cbn [good] in H1; try tauto. eauto.
  - intros s'' Hs. inversion Hs; simplify_eq/=; congruence.
Qed.

(** forktest succeeds. Wherever fork() first fails, forktest finds as many children as it made,
    and then none; it never prints that a call went wrong and it exits with 0. *)
Theorem forktest_correct s i par k p :
  reachable loads booted s → table s !! i = Some (Slot par k (inl (PForktest p))) →
  (∀ m, p ≠ FFailing m) ∧ (∀ status, p = FExit status → status = 0) ∧
  (∀ n, p = FWaiting n → Z.of_nat (size (children_of (table s) i)) = n) ∧
  (p = FOk → children_of (table s) i = ∅).
Proof.
  intros Hr Hi. apply reachable_good in Hr as [_ Hg]. apply Hg in Hi as [_ Hi].
  split_and!; [intros m ->|intros status ->|intros n ->|intros ->]; cbn in Hi; tauto.
Qed.

(** starve says that it has reaped its workers only when it has, even when fork() failed. *)
Theorem starve_correct s i par k :
  reachable loads booted s → table s !! i = Some (Slot par k (inl (PStarve SDone))) → children_of (table s) i = ∅.
Proof. intros Hr Hi. apply reachable_good in Hr as [_ Hg]. by apply Hg in Hi as [_ Hi]. Qed.

(** The child that zombie leaves behind goes to init when zombie exits. *)
Theorem zombie_correct s i par k c :
  reachable loads booted s → table s !! i = Some (Slot par k (inl (PZombie ZExit))) → c ∈ children_of (table s) i →
  ∃ s', step loads i s s' ∧ c ∈ children_of (table s') 1.
Proof.
  intros Hr Hi Hc. apply reachable_good in Hr as [Hw Hg]. assert (H1 := Hg _ _ _ _ Hi). cbn [good] in H1.
  destruct s as [t d z]. cbn [table] in *.
  exists (System (exited t i par k (if k then -1 else 0)) d z). split.
  { destruct k; [by eapply step_killed|by eapply step_exit]. }
  apply elem_children in Hc as (k' & b & Hc). apply elem_children. exists k', b. cbn [table]. unfold exited.
  assert (c ≠ i).
  { intros ->. rewrite Hi in Hc. simplify_eq. by destruct (wf_parent _ Hw i _ Hi H1). }
  rewrite lookup_insert_ne, lookup_reparented, Hc by done. unfold adopted. cbn. by rewrite Z.eqb_refl.
Qed.

Lemma reach_first s0 s1 s i : step loads i s0 s1 → reachable loads s1 s → reachable loads s0 s.
Proof. intros H. induction 1; eapply reach_step; eauto using reach_refl. Qed.
End programs.

(** A run: init starts, its child executes forktest, which makes one process. *)
#[local] Instance nothing : Program unit := {| next _ := Pause 1; resume _ _ := tt |}.
Definition any_program (C : gset Z) (path : list Z) (argv : list (list Z)) (p : prog unit) : Prop := starts C p.
Ltac quiet j v := eapply (reach_first _ _ _ _ j); [eapply step_other with (r := v); [reflexivity|exact I]|].
Lemma family_run : ∃ s, reachable any_program (booted (other := unit)) s ∧
  table s !! 1 = Some (Slot 0 false (inl (PInit (Reaping 2)))) ∧ table s !! 2 = Some (Slot 1 false (inl (PForktest FOk))) ∧
  denied s = false.
Proof.
  eexists. split.
  - quiet 1 0. quiet 1 1. quiet 1 2. quiet 1 18.
    eapply (reach_first _ _ _ _ 1); [eapply step_fork with (c := 2) (k := false); [reflexivity|reflexivity|lia|reflexivity|vm_compute; lia|done]|].
    eapply (reach_first _ _ _ _ 2); [eapply step_exec with (q := PForktest FStart); [reflexivity|reflexivity|vm_compute; done]|].
    quiet 2 10.
    eapply (reach_first _ _ _ _ 2); [eapply step_fork with (c := 3) (k := false); [reflexivity|reflexivity|lia|reflexivity|vm_compute; lia|done]|].
    eapply (reach_first _ _ _ _ 3); [eapply step_exit; [reflexivity|reflexivity|lia]|].
    eapply (reach_first _ _ _ _ 2); [eapply step_fork_fails; reflexivity|].
    eapply (reach_first _ _ _ _ 2); [eapply step_wait with (c := 3); reflexivity|].
    eapply (reach_first _ _ _ _ 2); [eapply step_wait_fails; reflexivity|].
    apply reach_refl.
  - vm_compute. done.
Qed.
