(* ===== verification/Rand.v ===== *)
(** user/grind.c: the generator of random numbers that picks the system calls. It is the one of
    Park and Miller, computed without leaving 32 bits, and it takes all its values in turn. *)
From Stdlib Require Import Znumtheory Zpow_facts.
From S2P Require Import Prelude.

(** ** The program *)

(** The constants 0x7fffffff and 0x7ffffffe. *)
Notation P31 := 2147483647.
Notation P31' := 2147483646.

(** do_rand(): the result and what it leaves in [*ctx], an [unsigned long]. The variables are
    [long]s; an [int] is returned. *)
Definition do_rand (ctx : Z) : Z * Z :=
  let x := ctx mod P31' + 1 in
  let hi := Z.quot x 127773 in
  let lo := Z.rem x 127773 in
  let x := 16807 * lo - 2836 * hi in
  let x := if x <? 0 then x + P31 else x in
  let x := x - 1 in
  (i32 x, u64 x).
(** [rand_next], and rand() as a step on it. *)
Definition rand_next : Z := 1.
Definition rand (next : Z) : Z * Z := do_rand next.
(** [rand_next] after [k] calls. *)
Fixpoint rands (k : nat) (next : Z) : Z :=
  match k with O => next | S k => rands k (rand next).2 end.

(** ** The generator *)

Lemma schrage x : 0 < x < P31 →
  let y := 16807 * Z.rem x 127773 - 2836 * Z.quot x 127773 in
  (if y <? 0 then y + P31 else y) = (16807 * x) mod P31.
Proof.
  intros Hx y. assert (Hq := Z.quot_rem' x 127773). assert (Hr := Z.rem_bound_pos x 127773 ltac:(lia) ltac:(lia)).
  assert (Hq0 : 0 <= Z.quot x 127773 <= 16807) by (split; [apply Z.quot_pos; lia|]; nia).
  apply Z.mod_unique_pos with (q := Z.quot x 127773 - (if y <? 0 then 1 else 0)); unfold y in *;
    destruct (Z.ltb_spec (16807 * Z.rem x 127773 - 2836 * Z.quot x 127773) 0); lia.
Qed.

(** ** Primes by trial division *)

Definition no_divisor (p : Z) : bool := forallb (λ d, negb (p mod d =? 0)) (seqZ 2 (Z.sqrt p - 1)).
Lemma no_divisor_spec p d : no_divisor p = true → 0 < p → (d | p) → 2 <= d → d * d <= p → False.
Proof.
  intros Hn Hp Hd H2 Hs. unfold no_divisor in Hn. rewrite forallb_forall in Hn.
  assert (d <= Z.sqrt p) by (apply Z.sqrt_le_square; lia).
  specialize (Hn d). rewrite (proj2 (Z.mod_divide p d ltac:(lia)) Hd) in Hn.
  discriminate Hn. apply list_elem_of_In, elem_of_seqZ. lia.
Qed.
Lemma gcd_small p a : no_divisor p = true → 0 < a < p → Z.gcd a p = 1.
Proof.
  intros Hn Ha. assert (Hg := Z.gcd_nonneg a p). assert (Hg0 : Z.gcd a p ≠ 0) by (intros E%Z.gcd_eq_0; lia).
  destruct (Z.gcd_divide_l a p) as [u Hu]. destruct (Z.gcd_divide_r a p) as [v Hv].
  set (g := Z.gcd a p) in *. destruct (decide (g = 1)) as [|H1]; [done|exfalso].
  assert (2 <= g) by lia. assert (g <= a) by (apply Z.divide_pos_le; [lia|by exists u]).
  assert (2 <= v) by nia. destruct (decide (g * g <= p)).
  - apply (no_divisor_spec p g); [done|lia|by exists v|lia|done].
  - apply (no_divisor_spec p v); [done|lia|exists g; lia|lia|nia].
Qed.
Lemma gcd_prime q m : no_divisor q = true → 0 < q → ¬ (q | m) → Z.gcd m q = 1.
Proof.
  intros Hn Hq Hm. rewrite <- Z.gcd_mod_l. apply gcd_small; [done|].
  assert (Hb := Z.mod_pos_bound m q Hq). split; [|lia].
  destruct (decide (m mod q = 0)) as [E|]; [|lia]. exfalso. apply Hm. by apply Z.mod_divide; [lia|].
Qed.

(** ** The order of 16807 *)

Definition P31'_factors : list Z := [2; 3; 3; 7; 11; 31; 151; 331].
(** A divisor of a product of primes is 1 or a multiple of one of them. *)
Lemma divisor_factor l m : Forall (λ q, no_divisor q = true ∧ 0 < q) l → 0 < m → (m | foldr Z.mul 1 l) →
  m = 1 ∨ ∃ q, q ∈ l ∧ (q | m).
Proof.
  intros Hl Hm. induction Hl as [|q l [Hq Hq0] _ IH]; cbn [foldr]; intros Hd.
  - left. apply Z.divide_1_r_nonneg; [lia|done].
  - destruct (Zdivide_dec q m) as [Hqm|Hqm]; [right; exists q; split; [by left|done]|].
    destruct IH as [->|(q' & Hin & Hq')]; [by eapply Z.gauss; [exact Hd|apply gcd_prime]|by left|].
    right. exists q'. split; [by right|done].
Qed.

Definition one_at (a k : Z) : Prop := (a ^ k) mod P31 = 1.
Lemma one_at_mul a k j : 0 <= k → 0 <= j → one_at a k → one_at a (k * j).
Proof. intros Hk Hj H. unfold one_at. rewrite Z.pow_mul_r, Zpower_mod, H, Z.pow_1_l by lia. done. Qed.
Lemma one_at_rem a x y : 0 <= x → 0 < y → one_at a x → one_at a y → one_at a (x mod y).
Proof.
  intros Hx Hy H1 H2. unfold one_at in *. rewrite (Z.div_mod x y) in H1 by lia.
  assert (0 <= x / y) by (apply Z.div_pos; lia). assert (0 <= x mod y) by (apply Z.mod_pos_bound; lia).
  rewrite Z.pow_add_r, Z.mul_mod in H1 by nia. rewrite (one_at_mul a y (x / y)) in H1 by (try lia; done).
  by rewrite Z.mul_1_l, Z.mod_mod in H1 by lia.
Qed.
Lemma one_at_add a n k : 0 <= n → 0 <= k → one_at a n → one_at a (n + k) → one_at a k.
Proof.
  unfold one_at. intros Hn Hk H1 H2. rewrite Z.pow_add_r, <- Z.mul_mod_idemp_l, H1, Z.mul_1_l in H2 by lia. done.
Qed.
Lemma one_at_gcd a : ∀ y, 0 <= y → ∀ x, 0 <= x → one_at a x → one_at a y → one_at a (Z.gcd x y).
Proof.
  apply (Zlt_0_ind (λ y, ∀ x, 0 <= x → one_at a x → one_at a y → one_at a (Z.gcd x y))).
  intros y IH Hy x Hx H1 H2. destruct (decide (y = 0)) as [->|Hn].
  - by rewrite Z.gcd_0_r, Z.abs_eq.
  - rewrite Z.gcd_comm, <- Z.gcd_mod_r. assert (0 <= x mod y < y) by (apply Z.mod_pos_bound; lia).
    apply IH; [done|lia|done|]. by apply one_at_rem; try lia.
Qed.
Lemma one_16807 : one_at 16807 P31'.
Proof. unfold one_at. rewrite <- Zpow_mod_correct by lia. vm_compute. reflexivity. Qed.
(** No smaller power of 16807 is 1. *)
Lemma order_16807 k : 0 < k < P31' → ¬ one_at 16807 k.
Proof.
  intros Hk H. assert (Hn := one_16807).
  assert (Hg := one_at_gcd 16807 P31' ltac:(lia) k ltac:(lia) H Hn).
  assert (Hg0 := Z.gcd_nonneg k P31'). set (g := Z.gcd k P31') in *.
  assert (Hgk : g <= k) by (apply Z.divide_pos_le; [lia|apply Z.gcd_divide_l]).
  destruct (Z.gcd_divide_r k P31') as [m Hm]. fold g in Hm.
  destruct (divisor_factor P31'_factors m) as [->|(q & Hin & [j Hj])]; [..|lia|].
  - unfold P31'_factors. repeat constructor; by vm_compute.
  - nia.
  - exists g. change (foldr Z.mul 1 P31'_factors) with P31'. lia.
  - assert (0 < q) by (assert (Hp : Forall (λ q, 0 < q) P31'_factors) by (unfold P31'_factors; repeat constructor; lia);
      rewrite Forall_forall in Hp; by apply Hp).
    assert (Hq : one_at 16807 (P31' / q)).
    { replace (P31' / q) with (g * j); [apply one_at_mul; [lia|nia|done]|].
      apply Z.div_unique_exact; [lia|nia]. }
    unfold one_at in Hq. rewrite <- Zpow_mod_correct in Hq by lia. revert Hq.
    unfold P31'_factors in Hin. repeat (apply elem_of_cons in Hin as [->|Hin]; [by vm_compute|]).
    by apply not_elem_of_nil in Hin.
Qed.


(** A function from [n] numbers to [n] numbers that takes no value twice takes each. *)
Lemma onto n (f : Z → Z) :
  (∀ i, 0 <= i < n → 1 <= f i <= n) → (∀ i j, 0 <= i → i < j → j < n → f i ≠ f j) →
  ∀ x, 1 <= x <= n → ∃ i, 0 <= i < n ∧ f i = x.
Proof.
  intros Hf Hinj x Hx. assert (Hp : f <$> seqZ 0 n ≡ₚ seqZ 1 n).
  { apply submseteq_length_Permutation; [apply NoDup_submseteq|by rewrite length_fmap, !length_seqZ].
    - apply NoDup_fmap_2_strong; [|apply NoDup_seqZ]. intros i j Hi Hj E. rewrite elem_of_seqZ in Hi, Hj.
      destruct (Z.lt_trichotomy i j) as [H|[H|H]]; [|done|]; exfalso; [apply (Hinj i j)|apply (Hinj j i)]; lia.
    - intros y (i & -> & Hi)%list_elem_of_fmap. rewrite elem_of_seqZ in Hi. apply elem_of_seqZ.
      specialize (Hf i). lia. }
  assert (Hin : x ∈ seqZ 1 n) by (apply elem_of_seqZ; lia). rewrite <- Hp in Hin.
  apply list_elem_of_fmap in Hin as (i & -> & Hi). rewrite elem_of_seqZ in Hi. exists i. split; [lia|done].
Qed.

(** A power of 16807 can be cancelled. *)
Lemma power_inverse i : 0 <= i <= P31' → (16807 ^ (P31' - i) * 16807 ^ i) mod P31 = 1.
Proof. intros Hi. rewrite <- Z.pow_add_r by lia. replace (P31' - i + i) with P31' by lia. apply one_16807. Qed.
(** Every number below 2^31 - 1 is a power of 16807; so 2^31 - 1 is a prime. *)
Lemma all_powers x : 1 <= x <= P31' → ∃ i, 0 <= i < P31' ∧ 16807 ^ i mod P31 = x.
Proof.
  apply onto.
  - intros i Hi. assert (Hb := Z.mod_pos_bound (16807 ^ i) P31 ltac:(lia)).
    assert (16807 ^ i mod P31 ≠ 0); [|lia]. intros E. assert (Hp := power_inverse i ltac:(lia)).
    rewrite <- Z.mul_mod_idemp_r, E, Z.mul_0_r in Hp by lia. done.
  - intros i j Hi Hij Hj E. assert (Hp := power_inverse i ltac:(lia)).
    rewrite <- Z.mul_mod_idemp_r, E, Z.mul_mod_idemp_r, <- Z.pow_add_r in Hp by lia.
    apply (order_16807 (j - i)); [lia|].
    replace (P31' - i + j) with (P31' + (j - i)) in Hp by lia. apply (one_at_add _ P31'); [lia|lia|apply one_16807|done].
Qed.
Lemma P31_coprime x : 1 <= x <= P31' → Z.gcd x P31 = 1.
Proof.
  intros (i & Hi & <-)%all_powers. assert (Hp := power_inverse i ltac:(lia)).
  rewrite <- Z.mul_mod_idemp_r in Hp by lia. set (x := 16807 ^ i mod P31) in *. set (y := 16807 ^ (P31' - i)) in *.
  apply Z.bezout_1_gcd. exists y, (- (y * x / P31)). rewrite (Z.div_mod (y * x) P31) at 1 by lia. lia.
Qed.

(** ** rand() *)

(** One call, on a value that a call leaves: the generator of Park and Miller. *)
Lemma do_rand_ok s : 0 <= s < P31' →
  ∃ s', do_rand s = (s', s') ∧ 0 <= s' < P31' ∧ s' + 1 = (16807 * (s + 1)) mod P31.
Proof.
  intros Hs. unfold do_rand. cbv zeta. rewrite Z.mod_small by lia. assert (Hx := schrage (s + 1) ltac:(lia)).
  cbv zeta in Hx. rewrite Hx. clear Hx. exists ((16807 * (s + 1)) mod P31 - 1).
  assert (Hb := Z.mod_pos_bound (16807 * (s + 1)) P31 ltac:(lia)).
  assert (Hz : (16807 * (s + 1)) mod P31 ≠ 0).
  { intros E. apply Z.mod_divide in E; [|lia]. assert (Hd : (P31 | s + 1)).
    { eapply Z.gauss; [exact E|]. by vm_compute. }
    apply Z.divide_pos_le in Hd; lia. }
  rewrite i32_small, u64_small by lia. split; [done|]. lia.
Qed.
Lemma rands_power k s : 0 <= s < P31' →
  0 <= rands k s < P31' ∧ rands k s + 1 = (16807 ^ Z.of_nat k * (s + 1)) mod P31.
Proof.
  revert s. induction k as [|k IH]; intros s Hs; cbn [rands].
  - split; [done|]. rewrite Z.pow_0_r, Z.mul_1_l, Z.mod_small; lia.
  - destruct (do_rand_ok s Hs) as (s' & E & Hs' & Hx). unfold rand. rewrite E. cbn [snd].
    destruct (IH s' Hs') as [Hr Hp]. split; [done|]. rewrite Hp, Hx, Z.mul_mod_idemp_r by lia. f_equal.
    rewrite Nat2Z.inj_succ, Z.pow_succ_r by lia. ring.
Qed.

Lemma rands_add j k s : rands (j + k) s = rands k (rands j s).
Proof. revert s. induction j as [|j IH]; intros s; [done|]. cbn [Nat.add rands]. apply IH. Qed.
Lemma rands_cycle s k : 0 <= s < P31' → rands k s = s ↔ one_at 16807 (Z.of_nat k).
Proof.
  intros Hs. destruct (rands_power k s Hs) as [_ Hp]. unfold one_at. split.
  - intros E. rewrite E in Hp. set (a := 16807 ^ Z.of_nat k) in *.
    assert (Hd : (P31 | (a - 1) * (s + 1))).
    { apply Z.mod_divide; [lia|]. rewrite Z.mul_sub_distr_r, Zminus_mod, <- Hp, Z.mul_1_l by lia.
      rewrite (Z.mod_small (s + 1)) by lia. by rewrite Z.sub_diag. }
    rewrite Z.mul_comm in Hd. apply Z.gauss in Hd; [|rewrite Z.gcd_comm; apply P31_coprime; lia].
    destruct Hd as [c Hc]. replace a with (1 + c * P31) by lia. by rewrite Z.mod_add.
  - intros E. rewrite <- Z.mul_mod_idemp_l, E, Z.mul_1_l, Z.mod_small in Hp by lia. lia.
Qed.
Lemma rands_differ s i j :
  0 <= s < P31' → (i < j)%nat → Z.of_nat j < P31' → rands i s ≠ rands j s.
Proof.
  intros Hs Hij Hj E. replace j with (i + (j - i))%nat in E by lia. rewrite rands_add in E.
  destruct (rands_power i s Hs) as [Hr _]. symmetry in E. apply rands_cycle in E; [|done].
  apply (order_16807 (Z.of_nat (j - i))); [lia|done].
Qed.

Definition int_range (x : Z) : Prop := - 2 ^ 31 <= x < 2 ^ 31.
Lemma rand_in_int x : 0 < x < P31 →
  let lo := Z.rem x 127773 in let hi := Z.quot x 127773 in
  let y := 16807 * lo - 2836 * hi in
  Forall int_range [x; lo; hi; 16807 * lo; 2836 * hi; y; if y <? 0 then y + P31 else y].
Proof.
  intros Hx lo hi y. assert (Hq := Z.quot_rem' x 127773). assert (Hr := Z.rem_bound_pos x 127773 ltac:(lia) ltac:(lia)).
  fold hi lo in Hq, Hr. assert (Hq0 : 0 <= hi <= 16807) by (split; [apply Z.quot_pos; lia|]; nia).
  unfold y, int_range. repeat constructor; try lia; destruct (Z.ltb_spec (16807 * lo - 2836 * hi) 0); lia.
Qed.

(** C40: the comment of do_rand() holds. From any state a call computes 7^5 x mod 2^31 - 1 for the
    value x that the state stands for, and no value that it computes on the way leaves the range
    of a 32-bit [int]; and the generator
    has the longest period there is: the 2^31 - 2 calls of rand() that start anywhere return
    every number from 0 to 2^31 - 3, each exactly once, and the next one starts over. *)
Theorem rand_full_period ctx s :
  0 <= ctx < 2 ^ 64 → 0 <= s < P31' →
  (∃ s', do_rand ctx = (s', s') ∧ 0 <= s' < P31' ∧ s' + 1 = (16807 * (ctx mod P31' + 1)) mod P31)
  ∧ (let x := ctx mod P31' + 1 in let lo := Z.rem x 127773 in let hi := Z.quot x 127773 in
     let y := 16807 * lo - 2836 * hi in
     Forall int_range [x; lo; hi; 16807 * lo; 2836 * hi; y; if y <? 0 then y + P31 else y])
  ∧ (∀ t, 0 <= t < P31' → exists! i, Z.of_nat i < P31' ∧ rands i s = t)
  ∧ ∀ n, Z.of_nat n = P31' → rands n s = s.
Proof.
  intros Hctx Hs. split_and!.
  - destruct (do_rand_ok (ctx mod P31')) as (s' & E & H); [apply Z.mod_pos_bound; lia|]. exists s'. split; [|done].
    rewrite <- E. unfold do_rand. by rewrite Z.mod_mod by lia.
  - apply rand_in_int. pose proof (Z.mod_pos_bound ctx P31' ltac:(lia)). lia.
  - intros t Ht. destruct (onto P31' (λ i, rands (Z.to_nat i) s + 1)) with (x := t + 1) as (i & Hi & E); [..|lia|].
    + intros i _. destruct (rands_power (Z.to_nat i) s Hs). lia.
    + intros i j Hi Hij Hj E. apply (rands_differ s (Z.to_nat i) (Z.to_nat j) Hs); lia.
    + exists (Z.to_nat i). split; [split; lia|]. intros j [Hj Et].
      destruct (Nat.lt_trichotomy (Z.to_nat i) j) as [H|[H|H]]; [|done|]; exfalso;
        [apply (rands_differ s (Z.to_nat i) j Hs)|apply (rands_differ s j (Z.to_nat i) Hs)]; lia.
  - intros n Hn. apply rands_cycle; [done|]. rewrite Hn. apply one_16807.
Qed.

Lemma rand_full_period_witness :
  do_rand rand_next = (33613, 33613) ∧ exists! i, Z.of_nat i < P31' ∧ rands i rand_next = 0.
Proof.
  destruct (rand_full_period rand_next rand_next) as (_ & _ & H & _); [unfold rand_next; lia|unfold rand_next; lia|].
  split; [reflexivity|]. apply H. lia.
Defined.
