(* ===== verification/Shell.v ===== *)
(** user/sh.c: the parser of command lines.

    A pointer into the command line is the rest of the line from there on: [*s] is its first
    character (the NUL if nothing is left), [s < es] says that it is not empty, and [s++] is its
    tail. A call of panic() is an [Error] with its message. *)
From S2P Require Import Prelude Cstring Kernel Uart Ulib.

(** ** Parsed commands *)

Definition MAXARGS : nat := 10.

(** A piece of the line, from [q] up to [eq]. *)
Definition word : Type := list Z * list Z.
Definition text_of (x : word) : list Z := take (length x.1 - length x.2) x.1.
Record redir := Redir { r_file : word; r_mode : Z; r_fd : Z }.
Inductive cmd :=
| EXEC (argv : list word)
| REDIR (c : cmd) (r : redir)
| PIPE (left right : cmd)
| LIST (left right : cmd)
| BACK (c : cmd).

Inductive parsed (A : Type) := Parsed (a : A) | Error (msg : string) | Out_of_fuel.
#[global] Arguments Parsed {A} a.
#[global] Arguments Error {A} msg.
#[global] Arguments Out_of_fuel {A}.
Definition pbind {A B} (m : parsed A) (k : A → parsed B) : parsed B :=
  match m with Parsed a => k a | Error e => Error e | Out_of_fuel => Out_of_fuel end.
Declare Scope parser_scope.
Delimit Scope parser_scope with parser.
Notation "'let*' x := m 'in' k" := (pbind m (λ x, k))
  (at level 200, x pattern, m at level 100, k at level 200, right associativity) : parser_scope.
Open Scope parser_scope.

(** ** Tokens *)

Definition whitespace : list Z := [32; 9; 13; 10; 11].
Definition symbols : list Z := chars "<|>&;()".
(** [strchr(set, c)] as a condition; strchr() does not find the NUL. *)
Definition is_in (set : list Z) (c : Z) : bool := bool_decide (c ∈ set).
Definition star (s : list Z) : Z := nth 0 s 0.

(** The loops [while (s < es && ...) s++;]. *)
Fixpoint skip (p : Z → bool) (s : list Z) : list Z :=
  match s with
  | [] => []
  | c :: s' => if p c then skip p s' else s
  end.
Definition word_char (c : Z) : bool := negb (is_in whitespace c) && negb (is_in symbols c).

(** The result of the function, [*q], [*eq] and [*ps]. *)
Definition gettoken (ps : list Z) : Z * list Z * list Z * list Z :=
  let s := skip (is_in whitespace) ps in
  let q := s in
  let '(ret, s) :=
    if star s =? 0 then (0, s)
    else if is_in (chars "|();&<") (star s) then (star s, drop 1 s)
    else if star s =? 62 then
      let s := drop 1 s in if star s =? 62 then (43, drop 1 s) else (62, s)
    else (97, skip word_char s) in
  (ret, q, s, skip (is_in whitespace) s).

(** The result, and [*ps]. *)
Definition peek (ps toks : list Z) : bool * list Z :=
  let s := skip (is_in whitespace) ps in
  (negb (star s =? 0) && is_in toks (star s), s).

(** ** The parser *)

(** O_RDONLY, and the two ways to open a file for writing: [>] and [>>]. *)
Definition redir_of (tok : Z) (f : word) : redir :=
  if tok =? 60 then Redir f O_RDONLY 0
  else if tok =? 62 then Redir f (Z.lor (Z.lor O_WRONLY O_CREATE) O_TRUNC) 1
  else Redir f (Z.lor O_WRONLY O_CREATE) 1.

(** The redirections it wraps around its argument, innermost first, and [*ps]. parseexec()
    goes on filling in the command that the first of them wraps, so they are kept apart. *)
Fixpoint parseredirs (fuel : nat) (ps : list Z) : parsed (list redir * list Z) :=
  match fuel with
  | O => Out_of_fuel
  | S fuel =>
      let '(b, s) := peek ps (chars "<>") in
      if negb b then Parsed ([], s)
      else
        let '(tok, _, _, s) := gettoken s in
        let '(t, q, eq, s) := gettoken s in
        if negb (t =? 97) then Error "missing file for redirection"
        else
          let* (rs, s) := parseredirs fuel s in
          Parsed (redir_of tok (q, eq) :: rs, s)
  end.
Definition wrap (c : cmd) (rs : list redir) : cmd := foldl REDIR c rs.

(** The loop of parseexec(), with the arguments and redirections so far. *)
Fixpoint parseargs (fuel : nat) (argv : list word) (rs : list redir) (ps : list Z)
    : parsed (cmd * list Z) :=
  match fuel with
  | O => Out_of_fuel
  | S fuel =>
      let '(b, s) := peek ps (chars "|)&;") in
      if b then Parsed (wrap (EXEC argv) rs, s)
      else
        let '(tok, q, eq, s) := gettoken s in
        if tok =? 0 then Parsed (wrap (EXEC argv) rs, s)
        else if negb (tok =? 97) then Error "syntax"
        else
          let argv := argv ++ [(q, eq)] in
          if (MAXARGS <=? length argv)%nat then Error "too many args"
          else
            let* (more, s) := parseredirs fuel s in
            parseargs fuel argv (rs ++ more) s
  end.

(** [while (peek(ps, es, "&")) ...] *)
Fixpoint parsebacks (fuel : nat) (c : cmd) (ps : list Z) : parsed (cmd * list Z) :=
  match fuel with
  | O => Out_of_fuel
  | S fuel =>
      let '(b, s) := peek ps (chars "&") in
      if negb b then Parsed (c, s)
      else let '(_, _, _, s) := gettoken s in parsebacks fuel (BACK c) s
  end.

Fixpoint parseline (fuel : nat) (ps : list Z) : parsed (cmd * list Z) :=
  match fuel with
  | O => Out_of_fuel
  | S fuel =>
      let* (c, s) := parsepipe fuel ps in
      let* (c, s) := parsebacks (S (length s)) c s in
      let '(b, s) := peek s (chars ";") in
      if negb b then Parsed (c, s)
      else
        let '(_, _, _, s) := gettoken s in
        let* (c', s) := parseline fuel s in
        Parsed (LIST c c', s)
  end
with parsepipe (fuel : nat) (ps : list Z) : parsed (cmd * list Z) :=
  match fuel with
  | O => Out_of_fuel
  | S fuel =>
      let* (c, s) := parseexec fuel ps in
      let '(b, s) := peek s (chars "|") in
      if negb b then Parsed (c, s)
      else
        let '(_, _, _, s) := gettoken s in
        let* (c', s) := parsepipe fuel s in
        Parsed (PIPE c c', s)
  end
with parseexec (fuel : nat) (ps : list Z) : parsed (cmd * list Z) :=
  match fuel with
  | O => Out_of_fuel
  | S fuel =>
      let '(b, s) := peek ps (chars "(") in
      if b then parseblock fuel s
      else
        let* (rs, s) := parseredirs (S (length s)) s in
        parseargs (S (length s)) [] rs s
  end
with parseblock (fuel : nat) (ps : list Z) : parsed (cmd * list Z) :=
  match fuel with
  | O => Out_of_fuel
  | S fuel =>
      let '(b, s) := peek ps (chars "(") in
      if negb b then Error "parseblock"
      else
        let '(_, _, _, s) := gettoken s in
        let* (c, s) := parseline fuel s in
        let '(b, s) := peek s (chars ")") in
        if negb b then Error "syntax - missing )"
        else
          let '(_, _, _, s) := gettoken s in
          let* (rs, s) := parseredirs (S (length s)) s in
          Parsed (wrap c rs, s)
  end.

(** The depth of the recursion is at most four calls per character and four more. *)
Definition parse_fuel (s : list Z) : nat := (4 * length s + 4)%nat.
(** Up to the call of nulterminate(). *)
Definition parsecmd (s : list Z) : parsed cmd :=
  let* (c, s) := parseline (parse_fuel s) s in
  let '(_, s) := peek s [] in
  if negb (bool_decide (s = [])) then Error "syntax" else Parsed c.

(** ** What a token is *)

Lemma skip_le p s : (length (skip p s) <= length s)%nat.
Proof. induction s as [|c s IH]; simpl; [done|]. destruct (p c); simpl; lia. Qed.
Lemma skip_stop p s : skip p s = [] ∨ p (star (skip p s)) = false.
Proof. induction s as [|c s IH]; simpl; [by left|]. destruct (p c) eqn:E; [done|by right]. Qed.
Lemma skip_stay p s : s = [] ∨ p (star s) = false → skip p s = s.
Proof. intros [->|H]; [done|]. destruct s as [|c s]; [done|]. cbn in *. by rewrite H. Qed.
Lemma skip_idem p s : skip p (skip p s) = skip p s.
Proof. apply skip_stay, skip_stop. Qed.
(** The characters skipped. *)
Lemma skip_split p s : ∃ w, s = w ++ skip p s ∧ Forall (λ c, p c = true) w.
Proof.
  induction s as [|c s (w & E & Hw)]; simpl; [by exists []|]. destruct (p c) eqn:Ep.
  - exists (c :: w). simpl. rewrite <- E. auto.
  - by exists [].
Qed.

Inductive token : list Z → Z → list Z → Prop :=
| T_end q : star q = 0 → token q 0 q
| T_symbol q t eq : star q ∈ symbols → star q ≠ 0 → t ≠ 0 → t ≠ 97 → (length eq < length q)%nat →
    (∃ w, q = w ++ eq) → token q t eq
| T_word w eq : w ≠ [] → Forall (λ c, word_char c = true) w → eq = [] ∨ word_char (star eq) = false →
    token (w ++ eq) 97 eq.

Lemma is_in_true set c : is_in set c = true ↔ c ∈ set.
Proof. apply bool_decide_eq_true. Qed.
Lemma is_in_false set c : is_in set c = false ↔ c ∉ set.
Proof. apply bool_decide_eq_false. Qed.

Lemma gettoken_token ps :
  let '(t, q, eq, s') := gettoken ps in
  q = skip (is_in whitespace) ps ∧ s' = skip (is_in whitespace) eq ∧ token q t eq.
Proof.
  unfold gettoken. set (q := skip (is_in whitespace) ps).
  pose proof (skip_stop (is_in whitespace) ps) as Hq. fold q in Hq.
  destruct (Z.eqb_spec (star q) 0) as [E0|E0]; [split_and!; try done; by constructor|].
  destruct q as [|c r] eqn:Eq; [done|]. cbn [star nth] in *.
  destruct (is_in (chars "|();&<") c) eqn:E1.
  { apply is_in_true in E1. split_and!; try done. constructor; try done; cbn [star nth].
    - apply (bool_decide_unpack _). unfold symbols.
      repeat (apply elem_of_cons in E1 as [->|E1]; [by vm_compute|]). by apply elem_of_nil in E1.
    - intros ->. revert E1. by apply (bool_decide_unpack _).
    - rewrite length_drop. simpl. lia.
    - by exists [c]. }
  destruct (Z.eqb_spec c 62) as [->|E2].
  { destruct (Z.eqb_spec (star (drop 1 (62 :: r))) 62) as [E3|E3]; split_and!; try done.
    - simpl in E3. destruct r as [|d r]; [done|]. cbn in E3. subst d. constructor; try done.
      + by apply (bool_decide_unpack _).
      + rewrite length_drop. simpl. lia.
      + by exists [62; 62].
    - constructor; try done.
      + by apply (bool_decide_unpack _).
      + rewrite length_drop. simpl. lia.
      + by exists [62]. }
  split_and!; try done. destruct Hq as [Hq|Hq]; [done|].
  assert (Hc : word_char c = true).
  { unfold word_char. rewrite Hq. simpl. apply negb_true_iff, is_in_false. intros Hin.
    apply is_in_false in E1. unfold symbols in Hin. cbn in Hin, E1. set_solver. }
  destruct (skip_split word_char (c :: r)) as (w & E & Hw). rewrite E at 1. apply T_word.
  - intros ->. simpl in E. rewrite Hc in E. apply (f_equal length) in E. simpl in E.
    pose proof (skip_le word_char r). lia.
  - done.
  - apply skip_stop.
Qed.

(** ** The parser terminates, and its words are words of the line *)

(** [q] up to [eq] is a maximal piece of the line [l] without white space or symbols. *)
Definition good (l : list Z) (x : word) : Prop :=
  x.1 `suffix_of` l ∧ ∃ w, x.1 = w ++ x.2 ∧ w ≠ [] ∧ Forall (λ c, word_char c = true) w ∧
    (x.2 = [] ∨ word_char (star x.2) = false).
Fixpoint words_of (c : cmd) : list word :=
  match c with
  | EXEC argv => argv
  | REDIR c r => words_of c ++ [r_file r]
  | PIPE c1 c2 | LIST c1 c2 => words_of c1 ++ words_of c2
  | BACK c => words_of c
  end.

(** A redirection is one of the standard input or output. *)
Definition good_redir (l : list Z) (r : redir) : Prop := good l (r_file r) ∧ (r_fd r = 0 ∨ r_fd r = 1).
(** A command made of such words and redirections. *)
Fixpoint sound (l : list Z) (c : cmd) : Prop :=
  match c with
  | EXEC argv => Forall (good l) argv
  | REDIR c r => sound l c ∧ good_redir l r
  | PIPE c1 c2 | LIST c1 c2 => sound l c1 ∧ sound l c2
  | BACK c => sound l c
  end.
Lemma sound_words l c : sound l c → Forall (good l) (words_of c).
Proof.
  induction c as [argv|c IH r|c1 IH1 c2 IH2|c1 IH1 c2 IH2|c IH]; simpl; [done|..|done].
  - intros [H [Hr _]]. apply Forall_app. split; [by apply IH|by constructor].
  - intros [H1 H2]. apply Forall_app. auto.
  - intros [H1 H2]. apply Forall_app. auto.
Qed.

(** The outcome of parsing a command at [s], a place of the line [l]. *)
Definition fine (l s : list Z) (r : parsed (cmd * list Z)) : Prop :=
  match r with
  | Parsed (c, s') => s' `suffix_of` s ∧ sound l c
  | Error _ => True
  | Out_of_fuel => False
  end.

Lemma suffix_length {A} (l1 l2 : list A) : l1 `suffix_of` l2 → (length l1 <= length l2)%nat.
Proof. intros [k ->]. rewrite length_app. lia. Qed.
Lemma skip_suffix p s : skip p s `suffix_of` s.
Proof. destruct (skip_split p s) as (w & E & _). by exists w. Qed.
Lemma token_suffix q t eq : token q t eq → eq `suffix_of` q.
Proof. intros [q' _|q' t' eq' _ _ _ _ _ H|w eq' _ _ _]; [done|done|by exists w]. Qed.

Lemma peek_ok ps toks :
  let '(b, s) := peek ps toks in
  s `suffix_of` ps ∧ skip (is_in whitespace) s = s ∧ (b = true → star s ∈ toks ∧ star s ≠ 0).
Proof.
  unfold peek. split; [apply skip_suffix|]. split; [apply skip_idem|].
  intros H. apply andb_true_iff in H as [H1 H2]. apply is_in_true in H2.
  apply negb_true_iff, Z.eqb_neq in H1. done.
Qed.
Lemma gettoken_ok l s :
  s `suffix_of` l →
  let '(t, q, eq, s') := gettoken s in
  s' `suffix_of` s ∧ (t = 97 → good l (q, eq) ∧ (length s' < length s)%nat) ∧
  (skip (is_in whitespace) s = s → star s ∈ symbols → star s ≠ 0 → (length s' < length s)%nat).
Proof.
  intros Hs. pose proof (gettoken_token s) as H. destruct (gettoken s) as [[[t q] eq] s'].
  destruct H as (-> & -> & H). pose proof (token_suffix _ _ _ H) as He.
  pose proof (skip_suffix (is_in whitespace) s) as Hq. pose proof (skip_suffix (is_in whitespace) eq) as Hs'.
  assert (Hqs := suffix_length _ _ Hq). assert (Hes := suffix_length _ _ Hs').
  split; [by do 2 (etrans; [eassumption|])|]. split.
  - intros ->. inversion H as [|q' t' eq' _ _ _ Hne|w eq' Hw1 Hw2 Hw3 E1]; subst; [done|]. split.
    + split; [cbn [fst]; rewrite E1; by etrans|]. by exists w.
    + rewrite <- E1, length_app in Hqs. destruct w; [done|]. simpl in Hqs. lia.
  - intros E Hin Hnz. rewrite E in *. inversion H as [q' H0|q' t' eq' _ _ _ _ Hlt|w eq' Hw1 Hw2 Hw3 E1]; subst.
    + done.
    + lia.
    + destruct w as [|c w]; [done|]. cbn [app star nth] in Hin. apply Forall_cons in Hw2 as [Hc _].
      unfold word_char in Hc. apply andb_true_iff in Hc as [_ Hc]. apply negb_true_iff, is_in_false in Hc. done.
Qed.

Lemma parseredirs_ok fuel l s :
  s `suffix_of` l → (length s < fuel)%nat →
  match parseredirs fuel s with
  | Parsed (rs, s') => s' `suffix_of` s ∧ Forall (good_redir l) rs
  | Error _ => True
  | Out_of_fuel => False
  end.
Proof.
  revert s. induction fuel as [|fuel IH]; intros s Hs Hf; [lia|]. cbn [parseredirs].
  pose proof (peek_ok s (chars "<>")) as Hp. destruct (peek s (chars "<>")) as [[] s1];
    destruct Hp as (P1 & P2 & P3); cbn [negb]; [|done]. destruct (P3 eq_refl) as [P4 P5].
  pose proof (gettoken_ok l s1) as H1. destruct (gettoken s1) as [[[tok q1] e1] s2].
  destruct H1 as (T1 & _ & T2); [by etrans|].
  pose proof (gettoken_ok l s2) as H2. destruct (gettoken s2) as [[[t q] eq] s3].
  destruct H2 as (T3 & T4 & _); [by do 2 (etrans; [eassumption|])|].
  destruct (Z.eqb_spec t 97) as [->|]; [|done]. destruct (T4 eq_refl) as [T5 T6]. cbn [negb].
  assert (s3 `suffix_of` s) by (by do 2 (etrans; [eassumption|])).
  assert (Hlen := suffix_length _ _ T1). assert (Hlen1 := suffix_length _ _ P1).
  specialize (IH s3). destruct (parseredirs fuel s3) as [[rs s4]|e|]; cbn [pbind].
  - destruct IH as [I1 I2]; [by etrans|lia|]. split; [by etrans|]. constructor; [|done].
    unfold redir_of, good_redir. repeat case_match; auto.
  - done.
  - apply IH; [by etrans|lia].
Qed.

Lemma wrap_sound l c rs : sound l c → Forall (good_redir l) rs → sound l (wrap c rs).
Proof. intros Hc Hr. revert c Hc. induction Hr as [|r rs Hr _ IH]; intros c Hc; [done|]. by apply IH. Qed.
Lemma parseargs_ok fuel l argv rs s :
  s `suffix_of` l → (length s < fuel)%nat → Forall (good l) argv → Forall (good_redir l) rs →
  fine l s (parseargs fuel argv rs s).
Proof.
  revert argv rs s. induction fuel as [|fuel IH]; intros argv rs s Hs Hf Ha Hr; [lia|]. cbn [parseargs].
  pose proof (peek_ok s (chars "|)&;")) as Hp. destruct (peek s (chars "|)&;")) as [[] s1];
    destruct Hp as (P1 & P2 & _); [split; [done|]; by apply wrap_sound|].
  pose proof (gettoken_ok l s1) as H1. destruct (gettoken s1) as [[[tok q] eq] s2].
  destruct H1 as (T1 & T2 & _); [by etrans|]. assert (s2 `suffix_of` s) by by etrans.
  destruct (Z.eqb_spec tok 0); [split; [done|]; by apply wrap_sound|].
  destruct (Z.eqb_spec tok 97) as [->|]; [|done]. destruct (T2 eq_refl) as [T3 T4]. cbn [negb].
  destruct (MAXARGS <=? _)%nat; [done|]. assert (Hlen := suffix_length _ _ P1).
  pose proof (parseredirs_ok fuel l s2) as Hrd. destruct (parseredirs fuel s2) as [[more s3]|e|]; cbn [pbind].
  - destruct Hrd as [R1 R2]; [by etrans|lia|]. assert (Hlen2 := suffix_length _ _ R1).
    specialize (IH (argv ++ [(q, eq)]) (rs ++ more) s3). destruct (parseargs fuel _ _ s3) as [[c s4]|e|].
    + destruct IH as [I1 I2]; [by do 2 (etrans; [eassumption|])|lia|apply Forall_app; auto|apply Forall_app; auto|].
      split; [|done]. by do 2 (etrans; [eassumption|]).
    + done.
    + apply IH; [by do 2 (etrans; [eassumption|])|lia|apply Forall_app; auto|apply Forall_app; auto].
  - done.
  - apply Hrd; [by etrans|lia].
Qed.
Lemma parsebacks_ok fuel l c s :
  s `suffix_of` l → (length s < fuel)%nat → sound l c → fine l s (parsebacks fuel c s).
Proof.
  revert c s. induction fuel as [|fuel IH]; intros c s Hs Hf Hc; [lia|]. cbn [parsebacks].
  pose proof (peek_ok s (chars "&")) as Hp. destruct (peek s (chars "&")) as [[] s1];
    destruct Hp as (P1 & P2 & P3); cbn [negb]; [|done]. destruct (P3 eq_refl) as [P4 P5].
  pose proof (gettoken_ok l s1) as H1. destruct (gettoken s1) as [[[t q] eq] s2].
  destruct H1 as (T1 & _ & T2); [by etrans|]. assert (s2 `suffix_of` s) by by etrans.
  assert (Hlen := suffix_length _ _ P1). assert (length s2 < length s1)%nat.
  { apply T2; [done| |done]. cbn in P4. set_solver. }
  specialize (IH (BACK c) s2). destruct (parsebacks fuel (BACK c) s2) as [[c' s3]|e|].
  - destruct IH as [I1 I2]; [by etrans|lia|done|]. split; [by etrans|done].
  - done.
  - apply IH; [by etrans|lia|done].
Qed.

Lemma fine_bind l s s1 m k :
  fine l s1 m → s1 `suffix_of` s →
  (∀ c s2, s2 `suffix_of` s1 → sound l c → fine l s (k (c, s2))) → fine l s (pbind m k).
Proof. destruct m as [[c s2]|e|]; simpl; [|done|done]. intros [H1 H2] Hs Hk. by apply Hk. Qed.
Lemma fine_weaken l s s1 r : fine l s1 r → s1 `suffix_of` s → fine l s r.
Proof. destruct r as [[c s2]|e|]; simpl; [|done|done]. intros [H1 H2] Hs. split; [by etrans|done]. Qed.
(** One of the symbols [toks] is next, and is taken. *)
Lemma take_symbol l s toks s1 :
  s `suffix_of` l → peek s toks = (true, s1) → (∀ c, c ∈ toks → c ∈ symbols) →
  ∃ t q eq s2, gettoken s1 = (t, q, eq, s2) ∧ s2 `suffix_of` s ∧ (length s2 < length s)%nat.
Proof.
  intros Hs E Ht. pose proof (peek_ok s toks) as Hp. rewrite E in Hp. destruct Hp as (P1 & P2 & P3).
  destruct (P3 eq_refl) as [P4 P5]. pose proof (gettoken_ok l s1) as H1.
  destruct (gettoken s1) as [[[t q] eq] s2]. destruct H1 as (T1 & _ & T2); [by etrans|].
  exists t, q, eq, s2. split; [done|]. split; [by etrans|].
  assert (Hlen := suffix_length _ _ P1). specialize (T2 P2 (Ht _ P4) P5). lia.
Qed.

(** What follows the first operand of [;] and [|]. *)
Lemma fine_infix l s toks mk f c :
  s `suffix_of` l → (∀ x, x ∈ toks → x ∈ symbols) → sound l c →
  (∀ c', sound l c' → sound l (mk c c')) →
  (∀ s', s' `suffix_of` s → (length s' < length s)%nat → fine l s' (f s')) →
  fine l s (let '(b, s1) := peek s toks in
    if negb b then Parsed (c, s1)
    else let '(_, _, _, s2) := gettoken s1 in
      pbind (f s2) (λ '(c', s3), Parsed (mk c c', s3))).
Proof.
  intros Hs Ht Hc Hmk Hf. destruct (peek s toks) as [[] s1] eqn:E; cbn [negb].
  - destruct (take_symbol l s toks s1) as (t & q & eq & s2 & -> & H2 & L2); [done..|].
    eapply fine_bind; [by apply Hf|done|]. intros c' s3 H3 Hc'. split; [by etrans|]. by apply Hmk.
  - pose proof (peek_ok s toks) as Hp. rewrite E in Hp. by destruct Hp as [Hp _].
Qed.

Lemma parse_ok fuel l s :
  s `suffix_of` l →
  ((4 * length s + 4 <= fuel)%nat → fine l s (parseline fuel s)) ∧
  ((4 * length s + 3 <= fuel)%nat → fine l s (parsepipe fuel s)) ∧
  ((4 * length s + 2 <= fuel)%nat → fine l s (parseexec fuel s)) ∧
  ((4 * length s + 1 <= fuel)%nat → fine l s (parseblock fuel s)).
Proof.
  revert s. induction fuel as [|fuel IH]; intros s Hs; [split_and!; lia|].
  assert (Hin : ∀ toks, bool_decide (Forall (λ c, c ∈ symbols) toks) = true → ∀ c, c ∈ toks → c ∈ symbols).
  { intros toks H. apply bool_decide_eq_true in H. by apply Forall_forall. }
  split_and!; intros Hf; cbn [parseline parsepipe parseexec parseblock].
  - eapply fine_bind; [apply (IH s); [done|lia]|done|]. intros c s1 H1 Hc. assert (L1 := suffix_length _ _ H1).
    eapply fine_bind; [apply (parsebacks_ok _ l c s1); [by etrans|lia|done]|done|]. intros c' s2 H2 Hc'.
    assert (L2 := suffix_length _ _ H2). assert (s2 `suffix_of` s) by by etrans. assert (s2 `suffix_of` l) by by etrans.
    eapply fine_weaken; [|exact H]. apply fine_infix; [done|by apply Hin|done|by intros|].
    intros s' H' L'. apply IH; [by etrans|lia].
  - eapply fine_bind; [apply (IH s); [done|lia]|done|]. intros c s2 H2 Hc. assert (L2 := suffix_length _ _ H2).
    eapply fine_weaken; [|exact H2]. apply fine_infix; [by etrans|by apply Hin|done|by intros|].
    intros s' H' L'. apply IH; [etrans; [exact H'|]; by etrans|lia].
  - pose proof (peek_ok s (chars "(")) as Hp. destruct (peek s (chars "(")) as [[] s1]; destruct Hp as (P1 & _ & _);
      assert (L1 := suffix_length _ _ P1).
    + eapply fine_weaken; [|exact P1]. apply IH; [by etrans|lia].
    + pose proof (parseredirs_ok (S (length s1)) l s1) as Hr.
      destruct (parseredirs (S (length s1)) s1) as [[rs s2]|e|]; cbn [pbind].
      * destruct Hr as [R1 R2]; [by etrans|lia|]. apply (fine_weaken l s s2); [|by etrans].
        apply parseargs_ok; [by do 2 (etrans; [eassumption|])|lia|done|done].
      * done.
      * apply Hr; [by etrans|lia].
  - destruct (peek s (chars "(")) as [[] s1] eqn:E; cbn [negb]; [|done].
    destruct (take_symbol l s (chars "(") s1) as (t & q & eq & s2 & -> & H2 & L2); [done..|by apply Hin|].
    eapply fine_bind; [apply (IH s2); [by etrans|lia]|done|]. intros c s3 H3 Hc.
    assert (s3 `suffix_of` l) by (etrans; [exact H3|]; by etrans).
    destruct (peek s3 (chars ")")) as [[] s4] eqn:E4; cbn [negb]; [|done].
    destruct (take_symbol l s3 (chars ")") s4) as (t' & q' & eq' & s5 & -> & H5 & L5); [done..|by apply Hin|].
    assert (s5 `suffix_of` s) by (etrans; [exact H5|]; etrans; [exact H3|exact H2]).
    pose proof (parseredirs_ok (S (length s5)) l s5) as Hr.
    destruct (parseredirs (S (length s5)) s5) as [[rs s6]|e|]; cbn [pbind].
    + destruct Hr as [R1 R2]; [by etrans|lia|]. split; [by etrans|]. by apply wrap_sound.
    + done.
    + apply Hr; [by etrans|lia].
Qed.

(** Parsing a line gives a command made of words of the line, or a syntax error. *)
Lemma parsecmd_ok l :
  match parsecmd l with Parsed c => sound l c | Error _ => True | Out_of_fuel => False end.
Proof.
  unfold parsecmd. destruct (parse_ok (parse_fuel l) l l) as [H _]; [done|].
  specialize (H ltac:(unfold parse_fuel; lia)).
  destruct (parseline (parse_fuel l) l) as [[c s]|e|]; cbn [pbind]; [|done|done].
  destruct (peek s []) as [b s']. by destruct (negb _); [|destruct H].
Qed.

(** ** NUL-terminating the words *)

(** The line is in a buffer with a NUL after it, so [eq] is at the index [len - length eq]. *)
Definition chop (len : nat) (b : list Z) (x : word) : list Z := <[(len - length x.2)%nat := 0]> b.
Fixpoint nulterminate (len : nat) (c : cmd) (b : list Z) : list Z :=
  match c with
  | EXEC argv => foldl (chop len) b argv
  | REDIR c r => chop len (nulterminate len c b) (r_file r)
  | PIPE c1 c2 | LIST c1 c2 => nulterminate len c2 (nulterminate len c1 b)
  | BACK c => nulterminate len c b
  end.

Lemma nulterminate_words len c b : nulterminate len c b = foldl (chop len) b (words_of c).
Proof.
  revert b. induction c as [argv|c IH r|c1 IH1 c2 IH2|c1 IH1 c2 IH2|c IH]; intros b; simpl;
    rewrite ?foldl_app, ?IH1, ?IH2, ?IH; done.
Qed.

Lemma chops_lookup len ws b i :
  foldl (chop len) b ws !! i =
  if bool_decide (Exists (λ x : word, i = (len - length x.2)%nat) ws ∧ (i < length b)%nat)
  then Some 0 else b !! i.
Proof.
  revert b. induction ws as [|x ws IH]; intros b; cbn [foldl].
  { rewrite bool_decide_false; [done|]. intros [H _]. inversion H. }
  rewrite IH. unfold chop. rewrite length_insert.
  assert (Hex := Exists_cons (λ x : word, i = (len - length x.2)%nat) x ws). cbn beta in Hex.
  destruct (decide (i = (len - length x.2)%nat)) as [E|E].
  - case_bool_decide as H1; case_bool_decide as H2; try tauto.
    + rewrite E, list_lookup_insert_eq; [done|]. subst i. tauto.
    + rewrite list_insert_ge; [done|]. rewrite <- E. apply Nat.nlt_ge. tauto.
  - rewrite list_lookup_insert_ne by done. case_bool_decide; case_bool_decide; tauto.
Qed.

(** A character of the line at an index, given the rest of the line from there. *)
Lemma suffix_lookup (l s : list Z) i :
  s `suffix_of` l → l !! (length l - length s + i)%nat = s !! i.
Proof.
  intros [p ->]. rewrite length_app, lookup_app_r by lia. f_equal. lia.
Qed.

Lemma nulterminate_good l ws x :
  Forall (λ c, c ≠ 0) l → Forall (good l) ws → x ∈ ws →
  ∃ b w, x.1 = w ++ x.2 ∧
    drop (length l - length x.1) (foldl (chop (length l)) (l ++ [0]) ws) = w ++ 0 :: b.
Proof.
  intros Hl Hws Hx. assert (Hg : good l x) by (by eapply Forall_forall in Hws).
  destruct Hg as (Hsuf & w & Ew & _ & Hw & _). set (d := drop _ _).
  assert (Hlen := suffix_length _ _ Hsuf). assert (Elen := f_equal length Ew). rewrite length_app in Elen.
  exists (drop (S (length w)) d), w. split; [done|].
  rewrite <- (take_drop (length w) d) at 1.
  assert (Hin : ∀ i, (i < length w)%nat → d !! i = w !! i).
  { intros i Hi. subst d. rewrite lookup_drop, chops_lookup, bool_decide_false.
    - rewrite lookup_app_l by lia. rewrite suffix_lookup by done. rewrite Ew. by apply lookup_app_l.
    - rewrite Exists_exists. intros [(y & Hy & E) _].
      assert (Hg : good l y) by (by eapply Forall_forall in Hws).
      destruct Hg as (Hsuf' & w' & Ew' & _ & _ & Hend).
      assert (Hlen' := suffix_length _ _ Hsuf'). assert (Elen' := f_equal length Ew'). rewrite length_app in Elen'.
      destruct Hend as [Hend|Hend]; [rewrite Hend in *; simpl in *; lia|].
      assert (Hsuf2 : y.2 `suffix_of` l) by (destruct Hsuf' as [p ->]; exists (p ++ w'); by rewrite <- app_assoc, <- Ew').
      pose proof (suffix_lookup l x.1 i Hsuf) as L1. pose proof (suffix_lookup l y.2 0 Hsuf2) as L2.
      rewrite Nat.add_0_r, <- E, L1, Ew, lookup_app_l in L2 by done.
      destruct y.2 as [|c r] eqn:Ey; [simpl in *; lia|]. cbn in L2, Hend.
      apply (Forall_lookup_1 _ _ _ _ Hw) in L2. congruence. }
  assert (Hend : d !! length w = Some 0).
  { subst d. rewrite lookup_drop, chops_lookup, bool_decide_true; [done|].
    rewrite Exists_exists, length_app. simpl. split; [|lia]. exists x. split; [done|lia]. }
  rewrite (drop_S _ 0) by done. f_equal.
  apply list_eq. intros i. destruct (decide (i < length w)%nat) as [Hi|Hi].
  - rewrite lookup_take_lt by done. by apply Hin.
  - rewrite lookup_take_ge by lia. symmetry. apply lookup_ge_None. lia.
Qed.

(** C38: parsecmd() returns for every line (the parser never runs out of the depth it is given,
    so the recursion of the C functions is bounded by the length of the line), and if the line
    is one it accepts, nulterminate() leaves in the buffer, at the pointer of every argument
    and of every file name of the command, exactly the word that the parser saw there: a
    NUL written for one word never damages another. *)
Theorem parsecmd_words l :
  Forall (λ c, c ≠ 0) l →
  match parsecmd l with
  | Out_of_fuel => False
  | Error _ => True
  | Parsed c => ∀ q eq, (q, eq) ∈ words_of c →
      ∃ w, q = w ++ eq ∧ w ≠ [] ∧ Forall (λ ch, word_char ch = true) w ∧
        until_nul (drop (length l - length q) (nulterminate (length l) c (l ++ [0]))) = w
  end.
Proof.
  intros Hl. pose proof (parsecmd_ok l) as H. destruct (parsecmd l) as [c| |]; [|done..].
  apply sound_words in H.
  intros q eq Hx. rewrite nulterminate_words.
  destruct (nulterminate_good l (words_of c) (q, eq)) as (b & w & Ew & Ed); [done..|]. simpl in Ew, Ed. rewrite Ed.
  assert (Hg : good l (q, eq)) by (by eapply Forall_forall in H).
  destruct Hg as (Hsuf & w' & Ew' & Hne & Hw & _). simpl in *. rewrite Ew in Ew'. apply app_inv_tail in Ew' as <-.
  exists w. split_and!; try done. apply until_nul_word.
  apply Forall_forall. intros z Hz. eapply (Forall_forall _ l) in Hl; [exact Hl|].
  destruct Hsuf as [p ->]. rewrite Ew. set_solver.
Qed.
Definition sample_line : list Z := chars "cat<in |grep x>>out;(ls & )" ++ [10].
Lemma parsecmd_words_witness :
  match parsecmd sample_line with
  | Parsed c => until_nul (drop 16 (nulterminate (length sample_line) c (sample_line ++ [0]))) = chars "out"
  | _ => False
  end.
Proof.
  assert (H : Forall (λ c, c ≠ 0) sample_line) by (by apply (bool_decide_unpack _)).
  pose proof (parsecmd_words sample_line H) as W. revert W.
  destruct (parsecmd sample_line) as [c| |] eqn:E; [|by vm_compute in E..]. intros W.
  destruct (W (drop 16 sample_line) (drop 19 sample_line)) as (w & Ew & _ & _ & <-).
  - assert (Hc : parsecmd sample_line = Parsed c) by exact E.
    vm_compute in Hc. injection Hc as <-. by apply (bool_decide_unpack _).
  - change (drop 16 sample_line) with (chars "out" ++ drop 19 sample_line) in Ew. by apply app_inv_tail in Ew.
Defined.
