(* ===== verification/ShellSyntax.v ===== *)
(** user/sh.c: the language that the parser of Shell.v reads. Commands are written out with the
    precedences of the syntax, and read back. *)
From S2P Require Import Prelude Cstring Kernel Uart Ulib Shell.

(** ** Printing and parsing *)

(** Commands with the text of their words. *)
Inductive rop := R_in | R_out | R_append.
Inductive acmd :=
| AExec (argv : list (list Z))
| ARedir (c : acmd) (op : rop) (file : list Z)
| APipe (left right : acmd)
| AList (left right : acmd)
| ABack (c : acmd).

Definition rop_chars (op : rop) : list Z :=
  match op with R_in => [60] | R_out => [62] | R_append => [62; 62] end.
Definition rop_token (op : rop) : Z := match op with R_in => 60 | R_out => 62 | R_append => 43 end.
(** A command in the syntax of the shell, a space before every token: at level 3 any command,
    at level 2 no [;], at level 1 no [&] and at level 0 no [|] outside parentheses. *)
Definition print_word (w : list Z) : list Z := 32 :: w.
Definition print_redir (r : rop * list Z) : list Z := 32 :: rop_chars r.1 ++ print_word r.2.
Definition group (inner : bool) (s : list Z) : list Z := if inner then 32 :: 40 :: s ++ [32; 41] else s.
Fixpoint print (level : nat) (a : acmd) : list Z :=
  match a with
  | AExec argv => mjoin (print_word <$> argv)
  | ARedir c op f => print 0 c ++ print_redir (op, f)
  | APipe a b => group (level <? 1)%nat (print 0 a ++ [32; 124] ++ print 1 b)
  | ABack a => group (level <? 2)%nat (print 2 a ++ [32; 38])
  | AList a b => group (level <? 3)%nat (print 2 a ++ [32; 59] ++ print 3 b)
  end.

(** The command of the parser, by the text of its words. *)
Definition rop_of (r : redir) : rop :=
  if r_fd r =? 0 then R_in
  else if r_mode r =? Z.lor (Z.lor O_WRONLY O_CREATE) O_TRUNC then R_out else R_append.
Fixpoint meaning (c : cmd) : acmd :=
  match c with
  | EXEC argv => AExec (text_of <$> argv)
  | REDIR c r => ARedir (meaning c) (rop_of r) (text_of (r_file r))
  | PIPE a b => APipe (meaning a) (meaning b)
  | LIST a b => AList (meaning a) (meaning b)
  | BACK c => ABack (meaning c)
  end.

Definition plain_word (w : list Z) : bool :=
  negb (bool_decide (w = [])) && forallb (λ c, word_char c && negb (c =? 0)) w.
(** What the shell can express: words of ordinary characters, fewer than [MAXARGS] a command. *)
Fixpoint expressible (a : acmd) : bool :=
  match a with
  | AExec argv => forallb plain_word argv && (length argv <? MAXARGS)%nat
  | ARedir c _ f => expressible c && plain_word f
  | APipe a b | AList a b => expressible a && expressible b
  | ABack c => expressible c
  end.

(** *** Tokens of printed text *)

(** Every token is followed by a space or the end. *)
Definition spaced_off (s : list Z) : Prop := s = [] ∨ ∃ s', s = 32 :: s'.
(** The first character after the white space, [0] at the end. *)
Definition next (s : list Z) : Z := star (skip (is_in whitespace) s).

Lemma word_char_symbol c set : forallb (is_in symbols) set = true → word_char c = true → is_in set c = false.
Proof.
  intros Hs H. apply andb_true_iff in H as [_ H]. apply negb_true_iff, is_in_false in H.
  apply is_in_false. intros Hc%list_elem_of_In. rewrite forallb_forall in Hs. by apply H, is_in_true, Hs.
Qed.
Lemma word_char_space c : word_char c = true → is_in whitespace c = false.
Proof. intros H. apply andb_true_iff in H as [H _]. by apply negb_true_iff in H. Qed.

Lemma plain_word_inv w :
  plain_word w = true → ∃ c w', w = c :: w' ∧ c ≠ 0 ∧ Forall (λ c, word_char c = true) w.
Proof.
  unfold plain_word. intros [H1 H2]%andb_true_iff. destruct w as [|c w]; [done|].
  exists c, w. split; [done|]. rewrite forallb_forall in H2. split.
  - specialize (H2 c (or_introl eq_refl)). lia.
  - apply Forall_forall. intros x Hx. apply list_elem_of_In in Hx. specialize (H2 x Hx).
    by apply andb_true_iff in H2 as [H2 _].
Qed.

Lemma next_space s : next (32 :: s) = next s.
Proof. done. Qed.
Lemma next_word w s : plain_word w = true → word_char (next (print_word w ++ s)) = true.
Proof.
  intros (c & w' & -> & Hc & Hw)%plain_word_inv. apply Forall_cons in Hw as [Hw _].
  unfold next. cbn. by rewrite (word_char_space c).
Qed.
Lemma peek_next s toks :
  peek s toks = (negb (next s =? 0) && is_in toks (next s), skip (is_in whitespace) s).
Proof. done. Qed.
Lemma peek_skip s toks : peek (skip (is_in whitespace) s) toks = peek s toks.
Proof. unfold peek. by rewrite skip_idem. Qed.
Lemma gettoken_skip s : gettoken (skip (is_in whitespace) s) = gettoken s.
Proof. unfold gettoken. by rewrite skip_idem. Qed.
Lemma parseredirs_skip fuel s : parseredirs fuel (skip (is_in whitespace) s) = parseredirs fuel s.
Proof. destruct fuel; cbn [parseredirs]; by rewrite ?peek_skip. Qed.
Lemma parseargs_skip fuel argv rs s :
  parseargs fuel argv rs (skip (is_in whitespace) s) = parseargs fuel argv rs s.
Proof. destruct fuel; cbn [parseargs]; by rewrite ?peek_skip. Qed.
Lemma parsebacks_skip fuel c s : parsebacks fuel c (skip (is_in whitespace) s) = parsebacks fuel c s.
Proof. destruct fuel; cbn [parsebacks]; by rewrite ?peek_skip. Qed.
Lemma parseexec_skip fuel s : parseexec fuel (skip (is_in whitespace) s) = parseexec fuel s.
Proof. destruct fuel; cbn [parseexec]; by rewrite ?peek_skip. Qed.
Lemma parsepipe_skip fuel s : parsepipe fuel (skip (is_in whitespace) s) = parsepipe fuel s.
Proof. destruct fuel; cbn [parsepipe]; by rewrite ?parseexec_skip. Qed.
Lemma parseline_skip fuel s : parseline fuel (skip (is_in whitespace) s) = parseline fuel s.
Proof. destruct fuel; cbn [parseline]; by rewrite ?parsepipe_skip. Qed.

Lemma skip_app p w s : Forall (λ c, p c = true) w → s = [] ∨ p (star s) = false → skip p (w ++ s) = s.
Proof. induction 1 as [|c w Hc Hw IH]; intros Hs; simpl; [by apply skip_stay|]. rewrite Hc. by apply IH. Qed.

(** A printed word is read back as that word. *)
Lemma gettoken_print w s :
  plain_word w = true → spaced_off s →
  ∃ q, gettoken (print_word w ++ s) = (97, q, s, skip (is_in whitespace) s) ∧ text_of (q, s) = w.
Proof.
  intros Hw Hs. destruct (plain_word_inv w Hw) as (c & w' & -> & Hc & Hall).
  exists ((c :: w') ++ s). split.
  - assert (Hc' := Hall). apply Forall_cons in Hc' as [Hc' _].
    unfold gettoken. change (print_word (c :: w') ++ s) with (32 :: (c :: w') ++ s).
    change (skip (is_in whitespace) (32 :: (c :: w') ++ s)) with (skip (is_in whitespace) ((c :: w') ++ s)).
    rewrite (skip_stay _ ((c :: w') ++ s)) by (right; by apply word_char_space). cbn zeta.
    change (star ((c :: w') ++ s)) with c. destruct (Z.eqb_spec c 0); [done|].
    rewrite (word_char_symbol c) by done.
    destruct (Z.eqb_spec c 62) as [->|_]; [by vm_compute in Hc'|].
    rewrite skip_app; [done|done|]. destruct Hs as [->|[s' ->]]; [by left|by right].
  - unfold text_of. cbn [fst snd]. rewrite length_app, Nat.add_sub. by rewrite take_app_length.
Qed.

Lemma gettoken_symbol c s :
  is_in (chars "|();&<") c = true → gettoken (32 :: c :: s) = (c, c :: s, s, skip (is_in whitespace) s).
Proof.
  intros H. assert (Hc : c ≠ 0 ∧ is_in whitespace c = false).
  { apply is_in_true in H. cbn in H. repeat (apply elem_of_cons in H as [->|H]; [done|]). by apply elem_of_nil in H. }
  destruct Hc as [H0 Hw]. unfold gettoken.
  change (skip (is_in whitespace) (32 :: c :: s)) with (skip (is_in whitespace) (c :: s)).
  rewrite (skip_stay _ (c :: s)) by (by right). cbn zeta. change (star (c :: s)) with c.
  destruct (Z.eqb_spec c 0); [done|]. by rewrite H.
Qed.
Lemma gettoken_rop op s :
  ∃ q, gettoken (32 :: rop_chars op ++ 32 :: s) = (rop_token op, q, 32 :: s, skip (is_in whitespace) (32 :: s)).
Proof. destruct op; eexists; [by apply gettoken_symbol|reflexivity..]. Qed.

(** *** Redirections *)

Definition plain_redirs (rs : list (rop * list Z)) : Prop := Forall (λ r, plain_word r.2 = true) rs.
Definition print_redirs (rs : list (rop * list Z)) : list Z := mjoin (print_redir <$> rs).
Definition print_words (ws : list (list Z)) : list Z := mjoin (print_word <$> ws).
Definition redirs_of (rs : list redir) : list (rop * list Z) := (λ r, (rop_of r, text_of (r_file r))) <$> rs.
Definition awrap (a : acmd) (rs : list (rop * list Z)) : acmd := foldl (λ c r, ARedir c r.1 r.2) a rs.

Lemma meaning_wrap c rs : meaning (wrap c rs) = awrap (meaning c) (redirs_of rs).
Proof. revert c. induction rs as [|r rs IH]; intros c; [done|]. apply (IH (REDIR c r)). Qed.
Lemma rop_of_token op f : rop_of (redir_of (rop_token op) f) = op.
Proof. by destruct op. Qed.
Lemma r_file_token op f : r_file (redir_of (rop_token op) f) = f.
Proof. by destruct op. Qed.
Lemma spaced_redirs rs s : spaced_off s → spaced_off (print_redirs rs ++ s).
Proof. destruct rs as [|r rs]; [done|]. intros _. right. by eexists. Qed.
Lemma spaced_words ws s : spaced_off s → spaced_off (print_words ws ++ s).
Proof. destruct ws as [|w ws]; [done|]. intros _. right. by eexists. Qed.
Lemma next_redir r s : next (print_redir r ++ s) ∈ chars "<>".
Proof. destruct r as [[] f]; by apply (bool_decide_unpack _). Qed.

Lemma parseredirs_print rs s fuel :
  plain_redirs rs → spaced_off s → is_in (chars "<>") (next s) = false → (length rs < fuel)%nat →
  ∃ rs', parseredirs fuel (print_redirs rs ++ s) = Parsed (rs', skip (is_in whitespace) s) ∧
    redirs_of rs' = rs.
Proof.
  intros Hrs Hs Hn. revert fuel. induction Hrs as [|[op f] rs Hf Hrs IH]; intros fuel Hfuel.
  - destruct fuel as [|fuel]; [simpl in *; lia|]. exists []. cbn [parseredirs print_redirs fmap list_fmap mjoin list_join app].
    rewrite peek_next, Hn, andb_false_r. done.
  - destruct fuel as [|fuel]; [simpl in *; lia|]. destruct (IH fuel) as (rs' & E & Ers); [simpl in *; lia|].
    cbn [parseredirs]. change (print_redirs ((op, f) :: rs)) with (print_redir (op, f) ++ print_redirs rs).
    rewrite <- app_assoc, peek_next. pose proof (next_redir (op, f) (print_redirs rs ++ s)) as Hop.
    rewrite (proj2 (is_in_true _ _) Hop). destruct (Z.eqb_spec (next (print_redir (op, f) ++ print_redirs rs ++ s)) 0) as [E0|_].
    { rewrite E0 in Hop. exfalso. revert Hop. by apply (bool_decide_unpack _). }
    cbn [negb andb]. rewrite gettoken_skip.
    change (print_redir (op, f) ++ print_redirs rs ++ s) with (32 :: (rop_chars op ++ print_word f) ++ print_redirs rs ++ s).
    rewrite <- app_assoc.
    destruct (gettoken_rop op (f ++ print_redirs rs ++ s)) as [q Hq].
    change (32 :: f ++ print_redirs rs ++ s) with (print_word f ++ print_redirs rs ++ s) in Hq. rewrite Hq.
    destruct (gettoken_print f (print_redirs rs ++ s)) as (q' & Hq' & Ht); [done|by apply spaced_redirs|].
    rewrite gettoken_skip, Hq'. change (97 =? 97) with true. cbn [negb].
    rewrite parseredirs_skip, E. cbn [pbind]. eexists. split; [done|].
    cbn. rewrite rop_of_token, r_file_token, Ht. f_equal. exact Ers.
Qed.

(** *** Simple commands *)

(** What may follow a command, up to the symbols of the set. *)
Definition stops (set s : list Z) : Prop := spaced_off s ∧ next s ∈ 0 :: set.

Lemma stops_not set s toks c :
  stops set s → c = next s → forallb (λ x, negb (is_in (0 :: set) x)) toks = true → is_in toks c = false.
Proof.
  intros [_ Hn] -> H. apply is_in_false. intros Hc. rewrite forallb_forall in H.
  apply list_elem_of_In in Hc. specialize (H _ Hc). apply negb_true_iff, is_in_false in H. done.
Qed.
Lemma stops_sub set set' s : stops set s → forallb (is_in set') set = true → stops set' s.
Proof.
  intros [Hs Hn] H. split; [done|]. apply elem_of_cons in Hn as [->|Hn]; [by left|]. right.
  rewrite forallb_forall in H. apply is_in_true, H. by apply list_elem_of_In.
Qed.

Lemma parseargs_stop fuel argv rs s :
  stops (chars "|)&;") s →
  parseargs (S fuel) argv rs s = Parsed (wrap (EXEC argv) rs, skip (is_in whitespace) s).
Proof.
  intros [_ Hn]. cbn [parseargs]. rewrite peek_next. apply elem_of_cons in Hn as [E|Hn].
  - rewrite E, Z.eqb_refl. cbn [negb andb]. rewrite gettoken_skip.
    unfold gettoken. unfold next in E. rewrite E. cbn. by rewrite skip_idem.
  - rewrite (proj2 (is_in_true _ _) Hn). destruct (Z.eqb_spec (next s) 0) as [E|_]; [|done].
    rewrite E in Hn. exfalso. revert Hn. by apply (bool_decide_unpack _).
Qed.

Lemma parseargs_word fuel argv rs w s :
  plain_word w = true → spaced_off s → (S (length argv) < MAXARGS)%nat →
  ∃ x, text_of x = w ∧
    parseargs (S fuel) argv rs (print_word w ++ s) =
    pbind (parseredirs fuel s) (λ '(more, s), parseargs fuel (argv ++ [x]) (rs ++ more) s).
Proof.
  intros Hw Hs Hlen. destruct (gettoken_print w s Hw Hs) as (q & Hq & Ht). exists (q, s). split; [done|].
  cbn [parseargs]. rewrite peek_next.
  rewrite (word_char_symbol (next (print_word w ++ s))) by (done || by apply next_word).
  rewrite andb_false_r, gettoken_skip, Hq. change (97 =? 0) with false. change (97 =? 97) with true. cbn [negb].
  rewrite length_app, (proj2 (Nat.leb_gt _ _)) by (simpl; lia). by rewrite parseredirs_skip.
Qed.

Lemma parseargs_print ws argv rs0 rs s fuel :
  forallb plain_word ws = true → plain_redirs rs → stops (chars "|)&;") s → (ws = [] → rs = []) →
  (length argv + length ws < MAXARGS)%nat → (length ws + length rs < fuel)%nat →
  ∃ c, parseargs fuel argv rs0 (print_words ws ++ print_redirs rs ++ s) = Parsed (c, skip (is_in whitespace) s) ∧
    meaning c = awrap (AExec ((text_of <$> argv) ++ ws)) (redirs_of rs0 ++ rs).
Proof.
  intros Hws Hrs Hs. revert argv rs0 rs fuel Hrs Hws.
  induction ws as [|w ws IH]; intros argv rs0 rs fuel Hrs Hws Hnil Hlen Hfuel;
    (destruct fuel as [|fuel]; [simpl in *; lia|]).
  - rewrite Hnil by done. eexists. split; [by apply parseargs_stop|].
    rewrite meaning_wrap. by rewrite !app_nil_r.
  - simpl in Hws. apply andb_true_iff in Hws as [Hw Hws]. simpl in Hlen, Hfuel.
    change (print_words (w :: ws)) with (print_word w ++ print_words ws). rewrite <- app_assoc.
    destruct (parseargs_word fuel argv rs0 w (print_words ws ++ print_redirs rs ++ s)) as (x & Hx & ->);
      [done|by apply spaced_words, spaced_redirs; destruct Hs|lia|].
    assert (Hsp : spaced_off s) by apply Hs.
    destruct ws as [|w' ws'] eqn:Ews.
    + change (print_words [] ++ print_redirs rs ++ s) with (print_redirs rs ++ s).
      destruct (parseredirs_print rs s fuel) as (rs' & -> & Ers); [done..| |simpl in *; lia|].
      { by eapply stops_not. }
      cbn [pbind]. rewrite parseargs_skip.
      destruct (IH (argv ++ [x]) (rs0 ++ rs') [] fuel) as (c & E & Em); [constructor|done|done| | |];
        [rewrite length_app; simpl in *; lia|simpl in *; lia|].
      exists c. split; [exact E|]. rewrite Em. unfold redirs_of in *.
      rewrite !fmap_app, Ers, <- Hx, <- !app_assoc, ?app_nil_r. done.
    + rewrite <- Ews in *. destruct (parseredirs_print [] (print_words ws ++ print_redirs rs ++ s) fuel) as (rs' & E' & Ers);
        [constructor|by apply spaced_words, spaced_redirs| |simpl in *; lia|].
      { rewrite Ews. apply word_char_symbol; [done|]. cbn in Hws. rewrite Ews in Hws. simpl in Hws.
        apply andb_true_iff in Hws as [Hw' _]. change (print_words (w' :: ws')) with (print_word w' ++ print_words ws').
        rewrite <- app_assoc. by apply next_word. }
      cbn [app print_redirs fmap list_fmap mjoin list_join] in E'. rewrite E'. cbn [pbind]. rewrite parseargs_skip.
      destruct (IH (argv ++ [x]) (rs0 ++ rs') rs fuel) as (c & E & Em); [done|done|by rewrite Ews| | |];
        [rewrite length_app; simpl in *; lia|simpl in *; lia|].
      exists c. split; [exact E|]. rewrite Em. unfold redirs_of in *.
      rewrite !fmap_app, Ers, <- Hx, <- !app_assoc, ?app_nil_r. done.
Qed.

Lemma length_words ws : forallb plain_word ws = true → (2 * length ws <= length (print_words ws))%nat.
Proof.
  induction ws as [|w ws IH]; [done|]. cbn [forallb]. intros [Hw Hws]%andb_true_iff. specialize (IH Hws).
  change (print_words (w :: ws)) with (print_word w ++ print_words ws). rewrite length_app.
  destruct (plain_word_inv w Hw) as (c & w' & -> & _). simpl. lia.
Qed.
Lemma length_redirs rs : (3 * length rs <= length (print_redirs rs))%nat.
Proof.
  induction rs as [|[op f] rs IH]; [done|].
  change (print_redirs ((op, f) :: rs)) with (print_redir (op, f) ++ print_redirs rs). rewrite length_app.
  unfold print_redir. destruct op; simpl; lia.
Qed.

(** *** All commands *)

(** The function reads the text [t] as the command [a], and stops before [rest]. *)
Definition reads (f : list Z → parsed (cmd * list Z)) (t rest : list Z) (a : acmd) : Prop :=
  ∃ c, f (t ++ rest) = Parsed (c, skip (is_in whitespace) rest) ∧ meaning c = a.
Definition reads_exec (a : acmd) : Prop := ∀ rs rest fuel,
  plain_redirs rs → stops (chars "|)&;") rest →
  (4 * length ((print 0 a ++ print_redirs rs) ++ rest) + 2 <= fuel)%nat →
  reads (parseexec fuel) (print 0 a ++ print_redirs rs) rest (awrap a rs).
Definition reads_pipe (a : acmd) : Prop := ∀ rest fuel,
  stops (chars ")&;") rest → (4 * length (print 1 a ++ rest) + 3 <= fuel)%nat →
  reads (parsepipe fuel) (print 1 a) rest a.
(** The first two statements of parseline(), and [k] times [&]. *)
Definition backs (k : nat) : list Z := mjoin (replicate k [32; 38]).
Definition reads_back (a : acmd) : Prop := ∀ k rest fuel,
  stops (chars ");") rest → (4 * length ((print 2 a ++ backs k) ++ rest) + 3 <= fuel)%nat →
  reads (λ t, let* (c, s) := parsepipe fuel t in parsebacks (S (length s)) c s)
    (print 2 a ++ backs k) rest (Nat.iter k ABack a).
Definition reads_line (a : acmd) : Prop := ∀ rest fuel,
  stops (chars ")") rest → (4 * length (print 3 a ++ rest) + 4 <= fuel)%nat →
  reads (parseline fuel) (print 3 a) rest a.

(** The symbol that ends a command in printed text. *)
Lemma stops_symbol set c s : is_in set c = true → is_in whitespace c = false → stops set (32 :: c :: s).
Proof.
  intros Hc Hw. split; [right; by eexists|]. right. unfold next. cbn [skip]. change (is_in whitespace 32) with true.
  cbn iota. rewrite Hw. by apply is_in_true.
Qed.
Lemma peek_symbol c s toks : is_in symbols c = true →
  peek (32 :: c :: s) toks = (is_in toks c, skip (is_in whitespace) (32 :: c :: s)).
Proof.
  intros H. rewrite peek_next. apply is_in_true in H. unfold symbols in H. cbn in H.
  repeat (apply elem_of_cons in H as [->|H]; [done|]). by apply elem_of_nil in H.
Qed.
Lemma peek_stop set s toks : stops set s → forallb (λ x, negb (is_in (0 :: set) x)) toks = true →
  peek s toks = (false, skip (is_in whitespace) s).
Proof. intros Hs Ht. rewrite peek_next, (stops_not set s toks (next s)), andb_false_r; done. Qed.

Lemma tokens_count ws rs s : forallb plain_word ws = true →
  (length ws + length rs <= length (skip (is_in whitespace) (print_words ws ++ print_redirs rs ++ s)))%nat.
Proof.
  intros Hws. assert (Hl := length_redirs rs). destruct ws as [|w ws].
  - change (print_words [] ++ print_redirs rs ++ s) with (print_redirs rs ++ s).
    destruct rs as [|[op f] rs]; [simpl; lia|].
    assert (E : skip (is_in whitespace) (print_redirs ((op, f) :: rs) ++ s) = drop 1 (print_redirs ((op, f) :: rs) ++ s))
      by (by destruct op). rewrite E, length_drop, length_app. simpl in *. lia.
  - assert (Hl' := length_words (w :: ws) Hws). simpl in Hws. apply andb_true_iff in Hws as [Hw _].
    destruct (plain_word_inv w Hw) as (c & w' & -> & _ & Hall). apply Forall_cons in Hall as [Hc _].
    assert (E : skip (is_in whitespace) (print_words ((c :: w') :: ws) ++ print_redirs rs ++ s) =
      drop 1 (print_words ((c :: w') :: ws) ++ print_redirs rs ++ s)).
    { change (skip (is_in whitespace) (c :: (w' ++ print_words ws) ++ print_redirs rs ++ s) =
        c :: (w' ++ print_words ws) ++ print_redirs rs ++ s).
      apply skip_stay. right. by apply word_char_space. }
    rewrite E, length_drop, !length_app. simpl in *. lia.
Qed.

Lemma next_words w ws s : forallb plain_word (w :: ws) = true → word_char (next (print_words (w :: ws) ++ s)) = true.
Proof.
  cbn [forallb]. intros [Hw _]%andb_true_iff.
  change (print_words (w :: ws)) with (print_word w ++ print_words ws). rewrite <- app_assoc. by apply next_word.
Qed.
Lemma exec_simple argv : expressible (AExec argv) = true → reads_exec (AExec argv).
Proof.
  cbn [expressible]. intros [Hw Hn%Nat.ltb_lt]%andb_true_iff rs rest fuel Hrs Hs Hfuel. unfold reads.
  destruct fuel as [|fuel]; [lia|]. rewrite <- app_assoc.
  change (print 0 (AExec argv)) with (print_words argv). cbn [parseexec].
  assert (Hsp : spaced_off rest) by apply Hs. assert (Hlen := tokens_count argv rs rest Hw).
  destruct argv as [|w argv'].
  - change (print_words [] ++ print_redirs rs ++ rest) with (print_redirs rs ++ rest) in *.
    assert (Hp : peek (print_redirs rs ++ rest) (chars "(") = (false, skip (is_in whitespace) (print_redirs rs ++ rest))).
    { destruct rs as [|[op f] rs]; [by apply (peek_stop _ rest _ Hs)|]. by destruct op. }
    rewrite Hp, parseredirs_skip.
    destruct (parseredirs_print rs rest (S (length (skip (is_in whitespace) (print_redirs rs ++ rest)))))
      as (rs' & -> & Ers); [done|done|by eapply stops_not|simpl in *; lia|].
    cbn [pbind]. rewrite parseargs_skip, parseargs_stop by done. eexists. split; [done|].
    by rewrite meaning_wrap, Ers.
  - set (argv := w :: argv') in *. assert (Hnext := next_words w argv' (print_redirs rs ++ rest) Hw). fold argv in Hnext.
    rewrite peek_next, (word_char_symbol _ (chars "(")), andb_false_r, parseredirs_skip by done.
    destruct (parseredirs_print [] (print_words argv ++ print_redirs rs ++ rest)
      (S (length (skip (is_in whitespace) (print_words argv ++ print_redirs rs ++ rest))))) as (rs' & E & Ers);
      [constructor|by apply spaced_words, spaced_redirs|by apply word_char_symbol|simpl; lia|].
    change (print_redirs [] ++ ?x) with x in E. rewrite E. cbn [pbind]. rewrite parseargs_skip.
    destruct (parseargs_print argv [] rs' rs rest
      (S (length (skip (is_in whitespace) (print_words argv ++ print_redirs rs ++ rest))))) as (c & E' & Em);
      [done..|lia|]. exists c. split; [exact E'|]. by rewrite Em, Ers.
Qed.

Lemma exec_redir a op f : plain_word f = true → reads_exec a → reads_exec (ARedir a op f).
Proof.
  intros Hf H rs rest fuel Hrs Hs Hfuel. cbn [print] in *. rewrite <- (app_assoc (print 0 a)) in *.
  change (print_redir (op, f) ++ print_redirs rs) with (print_redirs ((op, f) :: rs)) in *.
  apply (H ((op, f) :: rs)); [by constructor|done|done].
Qed.

(** [( ... )], and the redirections after it. *)
Lemma exec_group a : print 0 a = group true (print 3 a) → reads_line a → reads_exec a.
Proof.
  intros Hp H rs rest fuel Hrs Hs Hfuel. unfold reads. rewrite Hp in *. unfold group in *.
  rewrite !length_app in Hfuel. cbn [length] in Hfuel. rewrite length_app in Hfuel. cbn [length] in Hfuel.
  set (u := print_redirs rs ++ rest) in *.
  replace (((32 :: 40 :: print 3 a ++ [32; 41]) ++ print_redirs rs) ++ rest)
    with (32 :: 40 :: print 3 a ++ 32 :: 41 :: u)
    by (subst u; rewrite <- !app_assoc; cbn [app]; by rewrite <- !app_assoc).
  destruct fuel as [|[|fuel]]; [lia..|]. cbn [parseexec parseblock].
  rewrite peek_symbol, peek_skip, peek_symbol by done. change (is_in (chars "(") 40) with true. cbn [negb].
  rewrite gettoken_skip, gettoken_symbol, parseline_skip by done.
  destruct (H (32 :: 41 :: u) fuel) as (c & -> & Hc); [by apply stops_symbol| |].
  { rewrite length_app. cbn [length]. subst u. rewrite length_app. lia. }
  cbn [pbind]. rewrite peek_skip, peek_symbol by done. change (is_in (chars ")") 41) with true. cbn [negb].
  rewrite gettoken_skip, gettoken_symbol, parseredirs_skip by done.
  assert (Hlen := tokens_count [] rs rest eq_refl).
  change (print_words [] ++ print_redirs rs ++ rest) with u in Hlen.
  destruct (parseredirs_print rs rest (S (length (skip (is_in whitespace) u)))) as (rs' & E & Ers);
    [done|by destruct Hs|by eapply stops_not|simpl in Hlen; lia|].
  subst u. rewrite E. cbn [pbind]. eexists. split; [done|]. by rewrite meaning_wrap, Hc, Ers.
Qed.

Lemma pipe_exec a : print 1 a = print 0 a → reads_exec a → reads_pipe a.
Proof.
  intros Hp H rest fuel Hs Hfuel. unfold reads. rewrite Hp in *. destruct fuel as [|fuel]; [lia|].
  destruct (H [] rest fuel) as (c & E & Hc); [constructor|by eapply stops_sub|..].
  { change (print_redirs []) with (@nil Z). rewrite app_nil_r. lia. }
  change (print_redirs []) with (@nil Z) in E. rewrite app_nil_r in E.
  exists c. split; [|done]. cbn [parsepipe]. rewrite E. cbn [pbind]. rewrite peek_skip.
  by rewrite (peek_stop _ _ _ Hs).
Qed.
Lemma pipe_pipe a b : reads_exec a → reads_pipe b → reads_pipe (APipe a b).
Proof.
  intros Ha Hb rest fuel Hs Hfuel. unfold reads. cbn [print group Nat.ltb Nat.leb] in *.
  rewrite <- !app_assoc in *. cbn [app] in *. rewrite length_app in Hfuel. cbn [length] in Hfuel.
  destruct fuel as [|fuel]; [lia|]. cbn [parsepipe].
  destruct (Ha [] (32 :: 124 :: print 1 b ++ rest) fuel) as (c & E & Hc); [constructor|by apply stops_symbol|..];
    change (print_redirs []) with (@nil Z); rewrite ?app_nil_r.
  { rewrite length_app. cbn [length]. lia. }
  change (print_redirs []) with (@nil Z) in E. rewrite app_nil_r in E. rewrite E. cbn [pbind].
  rewrite peek_skip, peek_symbol by done. change (is_in (chars "|") 124) with true. cbn [negb].
  rewrite gettoken_skip, gettoken_symbol, parsepipe_skip by done.
  destruct (Hb rest fuel Hs) as (c' & -> & Hc'); [lia|]. cbn [pbind]. eexists. split; [done|].
  cbn [meaning]. by rewrite Hc, Hc'.
Qed.

Lemma parsebacks_print k c rest fuel : stops (chars ");") rest → (k < fuel)%nat →
  parsebacks fuel c (backs k ++ rest) = Parsed (Nat.iter k BACK c, skip (is_in whitespace) rest).
Proof.
  intros Hs. revert fuel c. induction k as [|k IH]; intros fuel c Hf; (destruct fuel as [|fuel]; [lia|]); cbn [parsebacks].
  - change (backs 0 ++ rest) with rest. by rewrite (peek_stop _ _ _ Hs).
  - change (backs (S k) ++ rest) with (32 :: 38 :: backs k ++ rest).
    rewrite peek_symbol by done. change (is_in (chars "&") 38) with true. cbn [negb].
    rewrite gettoken_skip, gettoken_symbol, parsebacks_skip, IH by (done || lia). by rewrite <- Nat.iter_succ_r.
Qed.
Lemma backs_count k rest : (k <= length (skip (is_in whitespace) (backs k ++ rest)))%nat.
Proof.
  destruct k as [|k]; [lia|].
  change (skip (is_in whitespace) (backs (S k) ++ rest)) with (38 :: backs k ++ rest). cbn [length]. rewrite length_app.
  assert (k <= length (backs k))%nat; [|lia]. induction k as [|k IH]; [done|].
  change (backs (S k)) with (32 :: 38 :: backs k). cbn [length]. lia.
Qed.
Lemma stops_backs k rest : stops (chars ");") rest → stops (chars ")&;") (backs k ++ rest).
Proof.
  intros Hs. destruct k as [|k]; [by eapply stops_sub|].
  change (backs (S k) ++ rest) with (32 :: 38 :: backs k ++ rest). by apply stops_symbol.
Qed.
Lemma meaning_backs k c : meaning (Nat.iter k BACK c) = Nat.iter k ABack (meaning c).
Proof. induction k as [|k IH]; [done|]. cbn. by f_equal. Qed.

Lemma back_pipe a : print 2 a = print 1 a → reads_pipe a → reads_back a.
Proof.
  intros Hp H k rest fuel Hs Hfuel. unfold reads. rewrite Hp in *. rewrite <- app_assoc in *.
  destruct (H (backs k ++ rest) fuel (stops_backs _ _ Hs) Hfuel) as (c & -> & Hc). cbn [pbind].
  assert (Hk := backs_count k rest). rewrite parsebacks_skip, parsebacks_print by (done || lia).
  eexists. split; [done|]. by rewrite meaning_backs, Hc.
Qed.
Lemma back_back a : reads_back a → reads_back (ABack a).
Proof.
  intros H k rest fuel Hs Hfuel. cbn [print group Nat.ltb Nat.leb] in *. rewrite <- (app_assoc (print 2 a)) in *.
  change ([32; 38] ++ backs k) with (backs (S k)) in *. rewrite <- Nat.iter_succ_r. by apply H.
Qed.

Lemma line_back a : print 3 a = print 2 a → reads_back a → reads_line a.
Proof.
  intros Hp H rest fuel Hs Hfuel. unfold reads. rewrite Hp in *. destruct fuel as [|fuel]; [lia|].
  destruct (H O rest fuel) as (c & E & Hc); [by eapply stops_sub|..]; change (backs 0) with (@nil Z) in *; rewrite ?app_nil_r in *.
  { lia. }
  exists c. split; [|done]. cbn [parseline]. destruct (parsepipe fuel _) as [[c0 s0]| |]; [|done..].
  cbn [pbind] in *. rewrite E. cbn [pbind]. by rewrite peek_skip, (peek_stop _ _ _ Hs).
Qed.
Lemma line_list a b : reads_back a → reads_line b → reads_line (AList a b).
Proof.
  intros Ha Hb rest fuel Hs Hfuel. unfold reads. cbn [print group Nat.ltb Nat.leb] in *.
  rewrite <- !app_assoc in *. cbn [app] in *. rewrite length_app in Hfuel. cbn [length] in Hfuel.
  destruct fuel as [|fuel]; [lia|]. cbn [parseline].
  destruct (Ha O (32 :: 59 :: print 3 b ++ rest) fuel) as (c & E & Hc); [by apply stops_symbol|..];
    change (backs 0) with (@nil Z) in *; rewrite ?app_nil_r in *.
  { rewrite length_app. cbn [length]. lia. }
  destruct (parsepipe fuel _) as [[c0 s0]| |]; [|done..]. cbn [pbind] in *. rewrite E. cbn [pbind].
  rewrite peek_skip, peek_symbol by done. change (is_in (chars ";") 59) with true. cbn [negb].
  rewrite gettoken_skip, gettoken_symbol, parseline_skip by done.
  destruct (Hb rest fuel Hs) as (c' & -> & Hc'); [lia|]. cbn [pbind]. eexists. split; [done|].
  cbn [meaning]. cbn in Hc. by rewrite Hc, Hc'.
Qed.

Lemma reads_all a : expressible a = true → reads_exec a ∧ reads_pipe a ∧ reads_back a ∧ reads_line a.
Proof.
  induction a as [argv|a IH op f|a IHa b IHb|a IHa b IHb|a IH]; intros He.
  - assert (reads_exec (AExec argv)) by (by apply exec_simple).
    assert (reads_pipe (AExec argv)) by (by apply pipe_exec).
    assert (reads_back (AExec argv)) by (by apply back_pipe).
    assert (reads_line (AExec argv)) by (by apply line_back). done.
  - simpl in He. apply andb_true_iff in He as [He Hf]. destruct IH as (H0 & _); [done|].
    assert (reads_exec (ARedir a op f)) by (by apply exec_redir).
    assert (reads_pipe (ARedir a op f)) by (by apply pipe_exec).
    assert (reads_back (ARedir a op f)) by (by apply back_pipe).
    assert (reads_line (ARedir a op f)) by (by apply line_back). done.
  - simpl in He. apply andb_true_iff in He as [Hea Heb].
    destruct IHa as (Ha & _); [done|]. destruct IHb as (_ & Hb & _); [done|].
    assert (reads_pipe (APipe a b)) by (by apply pipe_pipe).
    assert (reads_back (APipe a b)) by (by apply back_pipe).
    assert (reads_line (APipe a b)) by (by apply line_back).
    assert (reads_exec (APipe a b)) by (by apply exec_group). done.
  - simpl in He. apply andb_true_iff in He as [Hea Heb].
    destruct IHa as (_ & _ & Ha & _); [done|]. destruct IHb as (_ & _ & _ & Hb); [done|].
    assert (reads_line (AList a b)) by (by apply line_list).
    assert (reads_exec (AList a b)) by (by apply exec_group).
    assert (reads_pipe (AList a b)) by (by apply pipe_exec).
    assert (reads_back (AList a b)) by (by apply back_pipe). done.
  - destruct IH as (_ & _ & Ha & _); [done|].
    assert (reads_back (ABack a)) by (by apply back_back).
    assert (reads_line (ABack a)) by (by apply line_back).
    assert (reads_exec (ABack a)) by (by apply exec_group).
    assert (reads_pipe (ABack a)) by (by apply pipe_exec). done.
Qed.

(** C20: the parser implements the grammar of the shell: every command (simple commands of
    fewer than MAXARGS words, redirections, pipes, lists and background commands, nested in
    any way), written out with the precedences of the syntax ([;] binds weakest, then [&], then
    [|], then redirections) and parentheses where these require them, is read back by
    parsecmd() as that command. *)
Theorem parsecmd_print a :
  expressible a = true → ∃ c, parsecmd (print 3 a) = Parsed c ∧ meaning c = a.
Proof.
  intros He. destruct (reads_all a He) as (_ & _ & _ & H).
  destruct (H [] (parse_fuel (print 3 a))) as (c & E & Hc).
  - split; [by left|]. by left.
  - rewrite app_nil_r. unfold parse_fuel. lia.
  - rewrite app_nil_r in E. exists c. split; [|done]. unfold parsecmd. rewrite E. done.
Qed.
Definition sample_cmd : acmd :=
  AList (ABack (APipe (ARedir (AExec [chars "cat"]) R_in (chars "in"))
      (ARedir (AList (AExec [chars "ls"; chars "/"]) (AExec [chars "wc"])) R_append (chars "out"))))
    (AExec [chars "echo"; chars "done"]).
Lemma parsecmd_print_witness :
  print 3 sample_cmd = chars " cat < in | ( ls / ; wc ) >> out & ; echo done" ∧
  ∃ c, parsecmd (print 3 sample_cmd) = Parsed c ∧ meaning c = sample_cmd.
Proof. split; [reflexivity|]. apply (parsecmd_print sample_cmd). vm_compute. reflexivity. Defined.
