(* ===== verification/ShellRun.v ===== *)
(** user/sh.c: runcmd() and the loop of main(), as the system calls of a tree of processes, and
    what these do to descriptors. *)
From S2P Require Import Prelude Cstring Kernel Uart Ulib Shell.

(** ** Running a command *)

(** What a process does, as the system calls it makes: each with what happens after it. The
    result of open() is its descriptor or [-1], the result of pipe() the two descriptors; a
    string is the word that nulterminate() left at its pointer. *)
Inductive proc :=
| Exit (status : Z)
| Exec (argv : list (list Z)) (failed : proc)
| Close (fd : Z) (k : proc)
| Open (file : list Z) (mode : Z) (k : Z → proc)
| Pipe (k : option (Z * Z) → proc)
| Dup (fd : Z) (k : proc)
| Fork (child parent failed : proc)
| Wait (k : proc)
| Chdir (dir : list Z) (k : bool → proc)
| Print (fmt : string) (arg : list Z) (k : proc).

(** panic() and the failure of fork1(). *)
Definition sh_panic (s : string) : proc := Print "%s" (chars s) (Exit 1).
Definition fork1 (child parent : proc) : proc := Fork child parent (sh_panic "fork").

Fixpoint runcmd (c : cmd) : proc :=
  match c with
  | EXEC [] => Exit 1
  | EXEC (x :: argv) => Exec (text_of <$> x :: argv) (Print "exec %s failed" (text_of x) (Exit 0))
  | REDIR c r =>
      Close (r_fd r) (Open (text_of (r_file r)) (r_mode r) (λ fd,
        if fd <? 0 then Print "open %s failed" (text_of (r_file r)) (Exit 1) else runcmd c))
  | LIST c1 c2 => fork1 (runcmd c1) (Wait (runcmd c2))
  | PIPE c1 c2 =>
      Pipe (λ p, match p with
        | None => sh_panic "pipe"
        | Some (p0, p1) =>
            fork1 (Close 1 (Dup p1 (Close p0 (Close p1 (runcmd c1)))))
              (fork1 (Close 0 (Dup p0 (Close p0 (Close p1 (runcmd c2)))))
                (Close p0 (Close p1 (Wait (Wait (Exit 0))))))
        end)
  | BACK c => fork1 (runcmd c) (Exit 0)
  end.

(** The loop of main() that makes sure that three descriptors are open; each round opens one
    more, so it makes at most four. *)
Fixpoint open_console (rounds : nat) (k : proc) : proc :=
  match rounds with
  | O => k
  | S rounds =>
      Open (chars "console") O_RDWR (λ fd,
        if fd <? 0 then k else if 3 <=? fd then Close fd k else open_console rounds k)
  end.
(** The loop of main(), on the strings that the calls of getcmd() leave in [buf]. *)
Definition blank (c : Z) : bool := (c =? 32) || (c =? 9).
Fixpoint read_lines (lines : list (list Z)) : proc :=
  match lines with
  | [] => Exit 0
  | buf :: lines =>
      if star buf =? 0 then Exit 0
      else
        let s := skip blank buf in
        if star s =? 10 then read_lines lines
        else if bool_decide (take 3 s = chars "cd ") then
          let dir := drop 3 (take (length s - 1) s) in
          Chdir dir (λ ok, if ok then read_lines lines
            else Print "cannot cd %s" dir (read_lines lines))
        else
          fork1 (match parsecmd s with
                 | Parsed c => runcmd c
                 | Error e => sh_panic e
                 | Out_of_fuel => Exit 0
                 end) (Wait (read_lines lines))
  end.
Definition sh_main (lines : list (list Z)) : proc := open_console 4 (read_lines lines).

(** ** What the kernel does with these calls *)

(** What a descriptor refers to: something that the process was started with, a file it
    opened, or an end of a pipe, named by the process and the call that made it. *)
Definition call : Type := list nat * nat.
Inductive target := Inherited (id : Z) | Opened (file : list Z) (mode : Z) | Reader (p : call) | Writer (p : call).
Notation fds := (gmap Z target).

Definition lowest (t : fds) : option Z := snd <$> list_find (λ fd, t !! fd = None) (seqZ 0 (Z.of_nat NOFILE)).
Definition install (t : fds) (x : target) : option (Z * fds) := (λ fd, (fd, <[fd := x]> t)) <$> lowest t.

Inductive event :=
| Launched (argv : list (list Z)) (t : fds)
| Waiting (t : fds)
| Changed (dir : list Z)
| Exited (status : Z).

(** Everything that a process and its children do: [me] is the process (the calls of fork()
    that lead to it), [n] the number of its next call, [t] its descriptors. [ok] says which of the
    calls succeed. The events of different processes may happen in any order. *)
Fixpoint events (ok : call → bool) (p : proc) (me : list nat) (n : nat) (t : fds) : list event :=
  match p with
  | Exit status => [Exited status]
  | Exec argv failed => if ok (me, n) then [Launched argv t] else events ok failed me (S n) t
  | Close fd k => events ok k me (S n) (delete fd t)
  | Open file mode k =>
      match (if ok (me, n) then install t (Opened file mode) else None) with
      | Some (fd, t') => events ok (k fd) me (S n) t'
      | None => events ok (k (-1)) me (S n) t
      end
  | Pipe k =>
      match (if ok (me, n) then
               '(p0, t') ← install t (Reader (me, n));
               '(p1, t'') ← install t' (Writer (me, n)); Some (p0, p1, t'')
             else None) with
      | Some (p0, p1, t'') => events ok (k (Some (p0, p1))) me (S n) t''
      | None => events ok (k None) me (S n) t
      end
  | Dup fd k => events ok k me (S n) (from_option snd t (t !! fd ≫= install t))
  | Fork child parent failed =>
      if ok (me, n) then events ok child (me ++ [n]) 0 t ++ events ok parent me (S n) t
      else events ok failed me (S n) t
  | Wait k => Waiting t :: events ok k me (S n) t
  | Chdir dir k => if ok (me, n) then Changed dir :: events ok (k true) me (S n) t else events ok (k false) me (S n) t
  | Print _ _ k => events ok k me (S n) t
  end.

(** *** What the user asked for *)

(** The programs of a command, each with what its descriptors must be, and the points at
    which the shell waits. *)
Fixpoint wanted (c : cmd) (me : list nat) (n : nat) (t : fds) : list event :=
  match c with
  | EXEC [] => [Exited 1]
  | EXEC argv => [Launched (text_of <$> argv) t]
  | REDIR c r => wanted c me (n + 2) (<[r_fd r := Opened (text_of (r_file r)) (r_mode r)]> t)
  | LIST c1 c2 => wanted c1 (me ++ [n]) 0 t ++ Waiting t :: wanted c2 me (n + 2) t
  | PIPE c1 c2 =>
      wanted c1 (me ++ [S n]) 4 (<[1 := Writer (me, n)]> t) ++
      wanted c2 (me ++ [S (S n)]) 4 (<[0 := Reader (me, n)]> t) ++ [Waiting t; Waiting t; Exited 0]
  | BACK c => wanted c (me ++ [n]) 0 t ++ [Exited 0]
  end.

(** *** Descriptors *)

(** Exactly the three standard descriptors are open. *)
Definition std (t : fds) : Prop := ∀ fd, is_Some (t !! fd) ↔ 0 <= fd < 3.

Lemma lowest_eq t fd :
  0 <= fd < Z.of_nat NOFILE → t !! fd = None → (∀ i, 0 <= i < fd → is_Some (t !! i)) → lowest t = Some fd.
Proof.
  intros Hfd Hn Hlow. unfold lowest.
  assert (E : list_find (λ fd, t !! fd = None) (seqZ 0 (Z.of_nat NOFILE)) = Some (Z.to_nat fd, fd)).
  { apply list_find_Some. split; [apply lookup_seqZ; lia|]. split; [done|].
    intros j y Hj Hlt Hy. apply lookup_seqZ in Hj as [-> Hj].
    destruct (Hlow (0 + Z.of_nat j)) as [x Hx]; [lia|congruence]. }
  by rewrite E.
Qed.
Lemma std_none t fd : std t → ¬ (0 <= fd < 3) → t !! fd = None.
Proof. intros H Hfd. apply eq_None_not_Some. intros Hs. by apply Hfd, H. Qed.
Lemma std_insert t fd x : std t → 0 <= fd < 3 → std (<[fd := x]> t).
Proof.
  intros H Hfd i. rewrite lookup_insert_is_Some. specialize (H i). destruct (decide (fd = i)) as [->|]; naive_solver.
Qed.

Lemma install_closed t fd x :
  std t → 0 <= fd < 3 → install (delete fd t) x = Some (fd, <[fd := x]> t).
Proof.
  intros H Hfd. unfold install. rewrite (lowest_eq _ fd).
  - simpl. by rewrite insert_delete_eq.
  - unfold NOFILE. lia.
  - apply lookup_delete_eq.
  - intros i Hi. rewrite lookup_delete_ne by lia. apply H. lia.
Qed.
Lemma install_next t x : std t → install t x = Some (3, <[3 := x]> t).
Proof.
  intros H. unfold install. rewrite (lowest_eq _ 3); [done|unfold NOFILE; lia|apply std_none; [done|lia]|].
  intros i Hi. by apply H.
Qed.
Lemma install_pipe t x y : std t → install (<[3 := x]> t) y = Some (4, <[4 := y]> (<[3 := x]> t)).
Proof.
  intros H. unfold install. rewrite (lowest_eq _ 4); [done|unfold NOFILE; lia|..].
  - rewrite lookup_insert_ne by lia. apply std_none; [done|lia].
  - intros i Hi. apply lookup_insert_is_Some. destruct (decide (3 = i)); [by left|right]. split; [done|]. apply H. lia.
Qed.

(** A child of a pipe puts one end at its descriptor [fd] and closes both others. *)
Lemma plumb t fd p x y :
  std t → fd = 0 ∨ fd = 1 → (p = 3 ∨ p = 4) →
  let t' := delete fd (<[4 := y]> (<[3 := x]> t)) in
  delete 4 (delete 3 (from_option snd t' (t' !! p ≫= install t'))) = <[fd := (if p =? 3 then x else y)]> t.
Proof.
  intros H Hfd Hp t'. assert (Hlook : t' !! p = Some (if p =? 3 then x else y)).
  { subst t'. rewrite lookup_delete_ne by lia. destruct Hp as [->| ->]; [rewrite lookup_insert_ne by lia|]; apply lookup_insert_eq. }
  rewrite Hlook. simpl. unfold install. rewrite (lowest_eq t' fd); [..|].
  - simpl. subst t'. apply map_eq. intros i. rewrite !lookup_delete, !lookup_insert, lookup_delete, !lookup_insert.
    destruct (decide (4 = i)) as [<-|]; [rewrite decide_False by lia; symmetry; apply std_none; [done|lia]|].
    destruct (decide (3 = i)) as [<-|]; [rewrite decide_False by lia; symmetry; apply std_none; [done|lia]|].
    by destruct (decide (fd = i)).
  - unfold NOFILE. lia.
  - apply lookup_delete_eq.
  - intros i Hi. subst t'. rewrite lookup_delete_ne by lia. rewrite !lookup_insert_ne by lia. apply H. lia.
Qed.
Lemma unplumb t x y : std t → delete 4 (delete 3 (<[4 := y]> (<[3 := x]> t))) = t.
Proof.
  intros H. rewrite delete_insert_ne by lia. rewrite delete_insert_id; [|rewrite lookup_delete_ne, lookup_insert_ne by lia; apply std_none; [done|lia]].
  apply delete_insert_id. apply std_none; [done|lia].
Qed.

(** *** The calls of runcmd() *)

Lemma events_redir ok file mode k me n t fd :
  std t → fd = 0 ∨ fd = 1 →
  events ok (Close fd (Open file mode k)) me n t =
  if ok (me, S n) then events ok (k fd) me (n + 2) (<[fd := Opened file mode]> t)
  else events ok (k (-1)) me (n + 2) (delete fd t).
Proof.
  intros H Hfd. replace (n + 2)%nat with (S (S n)) by lia. cbn [events].
  destruct (ok (me, S n)); [|done]. by rewrite install_closed by (done || lia).
Qed.
Lemma events_pipe ok c1 c2 me n t :
  std t →
  events ok (runcmd (PIPE c1 c2)) me n t =
  if ok (me, n) then
    if ok (me, S n) then
      events ok (runcmd c1) (me ++ [S n]) 4 (<[1 := Writer (me, n)]> t) ++
      if ok (me, S (S n)) then
        events ok (runcmd c2) (me ++ [S (S n)]) 4 (<[0 := Reader (me, n)]> t) ++ [Waiting t; Waiting t; Exited 0]
      else [Exited 1]
    else [Exited 1]
  else [Exited 1].
Proof.
  intros H. cbn [runcmd events fork1 sh_panic]. destruct (ok (me, n)); [|done].
  rewrite install_next by done. cbn [mbind option_bind]. rewrite install_pipe by done. cbn [mbind option_bind events].
  destruct (ok (me, S n)); [|done]. f_equal; [f_equal; exact (plumb t 1 4 _ _ H (or_intror eq_refl) (or_intror eq_refl))|].
  destruct (ok (me, S (S n))); [|done]. f_equal.
  - f_equal. exact (plumb t 0 3 _ _ H (or_introl eq_refl) (or_introl eq_refl)).
  - by rewrite unplumb.
Qed.

(** If every call succeeds, exactly what is wanted happens. *)
Lemma events_wanted l c me n t :
  sound l c → std t → events (λ _, true) (runcmd c) me n t = wanted c me n t.
Proof.
  revert me n t. induction c as [argv|c IH r|c1 IH1 c2 IH2|c1 IH1 c2 IH2|c IH]; intros me n t Hc Ht; cbn [sound] in Hc.
  - by destruct argv.
  - destruct Hc as [Hc [_ Hr]]. cbn [runcmd wanted]. rewrite events_redir by done.
    rewrite (proj2 (Z.ltb_ge _ _)) by lia. apply IH; [done|]. apply std_insert; [done|lia].
  - destruct Hc as [H1 H2]. rewrite events_pipe by done. cbn [wanted].
    rewrite IH1, IH2 by (done || (by apply std_insert)). done.
  - destruct Hc as [H1 H2]. cbn [runcmd fork1 events wanted]. rewrite IH1, IH2 by done.
    by replace (n + 2)%nat with (S (S n)) by lia.
  - cbn [runcmd fork1 events wanted]. by rewrite IH.
Qed.
(** Whatever fails, nothing else happens. *)
Lemma events_safe ok l c me n t e :
  sound l c → std t → e ∈ events ok (runcmd c) me n t → e ∈ wanted c me n t ∨ ∃ status, e = Exited status.
Proof.
  revert me n t. induction c as [argv|c IH r|c1 IH1 c2 IH2|c1 IH1 c2 IH2|c IH]; intros me n t Hc Ht; cbn [sound] in Hc.
  - destruct argv as [|x argv]; cbn [runcmd events wanted]; [by left|].
    destruct (ok (me, n)); [by left|]. intros ->%list_elem_of_singleton. right. by eexists.
  - destruct Hc as [Hc [_ Hr]]. cbn [runcmd wanted]. rewrite events_redir by done. destruct (ok (me, S n)).
    + rewrite (proj2 (Z.ltb_ge _ _)) by lia. apply IH; [done|]. apply std_insert; [done|lia].
    + cbn. intros ->%list_elem_of_singleton. right. by eexists.
  - destruct Hc as [H1 H2]. rewrite events_pipe by done. cbn [wanted]. rewrite !elem_of_app.
    assert (Hx : e ∈ [Exited 1] → ∃ status, e = Exited status) by (intros ->%list_elem_of_singleton; by eexists).
    destruct (ok (me, n)); [|auto]. destruct (ok (me, S n)); [|auto]. rewrite elem_of_app.
    intros [He|He]; [apply IH1 in He; [tauto|done|apply std_insert; [done|lia]]|].
    destruct (ok (me, S (S n))); [|auto]. apply elem_of_app in He as [He|He]; [|tauto].
    apply IH2 in He; [tauto|done|apply std_insert; [done|lia]].
  - destruct Hc as [H1 H2]. cbn [runcmd fork1 sh_panic events wanted]. rewrite elem_of_app, elem_of_cons.
    replace (n + 2)%nat with (S (S n)) by lia. destruct (ok (me, n)).
    + rewrite elem_of_app, elem_of_cons. intros [He|[He|He]]; [apply IH1 in He; tauto|tauto|apply IH2 in He; tauto].
    + intros ->%list_elem_of_singleton. right. by eexists.
  - cbn [runcmd fork1 sh_panic events wanted]. rewrite elem_of_app. destruct (ok (me, n)).
    + rewrite elem_of_app. intros [He|He]; [apply IH in He; tauto|tauto].
    + intros ->%list_elem_of_singleton. right. by eexists.
Qed.

Definition event_std (e : event) : Prop :=
  match e with Launched argv t => argv ≠ [] ∧ std t | Waiting t => std t | Changed _ | Exited _ => True end.
Lemma wanted_std l c me n t : sound l c → std t → Forall event_std (wanted c me n t).
Proof.
  revert me n t. induction c as [argv|c IH r|c1 IH1 c2 IH2|c1 IH1 c2 IH2|c IH]; intros me n t Hc Ht;
    cbn [sound wanted] in *.
  - by destruct argv; apply Forall_singleton.
  - destruct Hc as [Hc [_ Hr]]. apply IH; [done|]. apply std_insert; [done|lia].
  - rewrite !Forall_app. destruct Hc as [H1 H2]. split_and!.
    + apply IH1; [done|]. by apply std_insert.
    + apply IH2; [done|]. by apply std_insert.
    + rewrite !Forall_cons. done.
  - rewrite Forall_app, Forall_cons. destruct Hc. auto.
  - apply Forall_app. split; [by apply IH|by apply Forall_singleton].
Qed.

(** C21: runcmd() connects the programs of a command line as it says. Started with exactly the
    standard descriptors, and if every system call succeeds, a parsed command launches exactly
    its programs, in its tree of processes, each with its arguments and with the descriptors it
    should have: the files of its redirections (the inner ones last) and the two ends of
    its pipes at 0 and 1, both ends of a pipe made by the same call, everything else inherited,
    and no other descriptor left open; and the shell waits for them with its own descriptors
    unchanged, so that it holds no end of a pipe. Whatever calls fail, nothing else is
    launched. *)
Theorem runcmd_correct l c me n t :
  parsecmd l = Parsed c → std t →
  events (λ _, true) (runcmd c) me n t = wanted c me n t ∧
  Forall event_std (wanted c me n t) ∧
  ∀ ok e, e ∈ events ok (runcmd c) me n t → e ∈ wanted c me n t ∨ ∃ status, e = Exited status.
Proof.
  intros Hl Ht. pose proof (parsecmd_ok l) as Hs. rewrite Hl in Hs. split_and!.
  - by eapply events_wanted.
  - by eapply wanted_std.
  - intros ok e. by eapply events_safe.
Qed.
Definition console_fds : fds := <[0 := Inherited 0]> (<[1 := Inherited 1]> {[2 := Inherited 2]}).
Lemma console_fds_std : std console_fds.
Proof.
  intros fd. unfold console_fds. rewrite !lookup_insert_is_Some, lookup_singleton_is_Some. lia.
Qed.
Lemma runcmd_correct_witness :
  match parsecmd (chars "cat <in | wc") with
  | Parsed c => ∃ t1 t2, events (λ _, true) (runcmd c) [] 0 console_fds =
      [Launched [chars "cat"] t1; Launched [chars "wc"] t2; Waiting console_fds; Waiting console_fds; Exited 0] ∧
      t1 !! 0 = Some (Opened (chars "in") O_RDONLY) ∧ t1 !! 1 = Some (Writer ([], 0%nat)) ∧
      t2 !! 0 = Some (Reader ([], 0%nat)) ∧ t2 !! 1 = Some (Inherited 1)
  | _ => False
  end.
Proof.
  destruct (parsecmd (chars "cat <in | wc")) as [c| |] eqn:E; [|by vm_compute in E..].
  destruct (runcmd_correct _ c [] 0 console_fds E console_fds_std) as [-> _].
  vm_compute in E. injection E as <-. eexists _, _. split; [reflexivity|]. by vm_compute.
Defined.

(** The parent's loop: every child starts from its descriptors, which never change. *)
Lemma read_lines_std ok lines me n t :
  std t → Forall event_std (events ok (read_lines lines) me n t).
Proof.
  intros Ht. revert n. induction lines as [|buf lines IH]; intros n; cbn [read_lines]; [by apply Forall_singleton|].
  destruct (star buf =? 0); [by apply Forall_singleton|]. cbv zeta. set (s := skip blank buf).
  destruct (star s =? 10); [apply IH|]. case_bool_decide; cbn [fork1 sh_panic events].
  - destruct (ok (me, n)); [apply Forall_cons; split; [done|]|cbn [events]]; apply IH.
  - destruct (ok (me, n)); [|by apply Forall_singleton]. apply Forall_app. split; [|apply Forall_cons; split; [done|apply IH]].
    pose proof (parsecmd_ok s) as Hs. destruct (parsecmd s) as [c|e|]; [|by apply Forall_singleton..].
    apply Forall_forall. intros e He. destruct (events_safe _ s c _ _ _ e Hs Ht He) as [Hw|[st ->]]; [|done].
    pose proof (wanted_std s c (me ++ [n]) 0 t Hs Ht) as Hf. by eapply Forall_forall in Hf.
Qed.

(** C39: the shell leaks no descriptor. Started by init with exactly the standard descriptors,
    whatever lines it reads and whatever system calls fail, every program that the shell and the
    processes it forks launch has a name and starts with exactly the descriptors 0, 1 and 2
    open, and whenever one of them waits for its children it has exactly these open. *)
Theorem shell_descriptors ok lines t :
  std t → Forall event_std (events ok (sh_main lines) [] 0 t).
Proof.
  intros Ht. unfold sh_main. cbn [open_console events]. destruct (ok ([], 0%nat)).
  - rewrite install_next by done. change (3 <? 0) with false. change (3 <=? 3) with true. cbn [events].
    rewrite delete_insert_id by (apply std_none; [done|lia]). by apply read_lines_std.
  - change (-1 <? 0) with true. by apply read_lines_std.
Qed.
Lemma shell_descriptors_witness :
  Forall event_std
    (events (λ c, negb (bool_decide (c = ([2%nat; 1%nat], 4%nat)))) (sh_main [chars "ls | wc" ++ [10]; chars "cd /" ++ [10]]) [] 0 console_fds).
Proof. apply (shell_descriptors _ _ console_fds). exact console_fds_std. Defined.
