(* ===== verification/ShellInput.v ===== *)
(** user/sh.c: getcmd(), which reads the next line with gets() of user/ulib.c. *)
From S2P Require Import Prelude Cstring Kernel Uart Ulib Shell ShellRun.

Section getcmd.
Context `{os : Os} {io : Stdio 0}.
(** The prompt is written to descriptor 2, which does not disturb the input. *)
Hypothesis prompt_ok : ∀ l w, remaining 0 (sys_write 2 l w).2 = remaining 0 w.

Definition getcmd (fuel : nat) (buf nbuf : Z) : U Z :=
  write_local 2 (chars "$ ") ;;~
  on_memory (λ m, memset m buf 0 nbuf) ;;~
  gets fuel buf nbuf ;;~
  m <~ umemory ;;
  if m buf =? 0 then ureturn (-1) else ureturn 0.

(** ** What gets() reads *)

(** The first line of the input, with its end, or as much of it as [n] characters, and the rest. *)
Fixpoint cut (n : nat) (l : list Z) : list Z * list Z :=
  match n, l with
  | S n, c :: l =>
      if (c =? 10) || (c =? 13) then ([c], l)
      else let '(line, rest) := cut n l in (c :: line, rest)
  | _, _ => ([], l)
  end.

Lemma cut_app n l : (cut n l).1 ++ (cut n l).2 = l ∧ (length (cut n l).1 <= n)%nat.
Proof.
  revert l. induction n as [|n IH]; intros [|c l]; cbn [cut]; try (split; [done|cbn; lia]).
  destruct (_ || _); [split; [done|cbn; lia]|]. specialize (IH l). destruct (cut n l) as [line rest]. cbn in *.
  destruct IH as [-> H]. split; [done|lia].
Qed.

Lemma gets_loop_ok fuel buf max i n s :
  i + 1 + Z.of_nat n = max → (n < fuel)%nat →
  ∃ s', gets_loop fuel buf max i s = Done (i + Z.of_nat (length (cut n (remaining 0 (uworld s))).1)) s' ∧
    umem s' = write_bytes (umem s) (buf + i) (cut n (remaining 0 (uworld s))).1 ∧
    remaining 0 (uworld s') = (cut n (remaining 0 (uworld s))).2.
Proof.
  revert i n s. induction fuel as [|fuel IH]; intros i n s Hn Hf; [lia|]. cbn [gets_loop].
  destruct n as [|n]; [destruct (Z.ltb_spec (i + 1) max); [lia|]; exists s; cbn; rewrite Z.add_0_r; done|].
  destruct (Z.ltb_spec (i + 1) max); [|lia]. unfold ubind at 1, read_local, on_world.
  pose proof (read_ok 0 1 (uworld s) ltac:(lia)) as H'. destruct (sys_read 0 1 (uworld s)) as [[r l] w'].
  destruct H' as (-> & Hl & Hr & He & _). cbn [fst snd]. destruct l as [|c [|? ?]]; [| |cbn in Hl; lia].
  - destruct (remaining 0 (uworld s)) as [|c rest]; [|by destruct (He ltac:(lia) ltac:(done))].
    cbn in *. eexists. split; [by rewrite Z.add_0_r|]. done.
  - rewrite Hr. cbn [app cut nth length]. change (Z.of_nat 1 <? 1) with false. cbv iota zeta. destruct ((c =? 10) || (c =? 13)).
    + eexists. split; [reflexivity|]. done.
    + destruct (IH (i + 1) n (Ustate (upd (umem s) (buf + i) c) w')) as (s' & E & M & R); [lia|lia|].
      cbn [uworld umem] in *. destruct (cut n (remaining 0 w')) as [line rest]. cbn [fst snd length] in *. exists s'.
      unfold ubind, on_memory. cbn [umem uworld]. rewrite E. split; [f_equal; lia|]. split; [|done]. rewrite M.
      cbn [write_bytes]. f_equal; lia.
Qed.

Lemma line_stored m buf nbuf line j :
  0 < nbuf < 2 ^ 31 → (length line < Z.to_nat nbuf)%nat → Forall (λ c, 0 <= c < 2 ^ 8) line → (j < Z.to_nat nbuf)%nat →
  upd (write_bytes (memset m buf 0 nbuf) buf line) (buf + Z.of_nat (length line)) 0 (buf + Z.of_nat j) = default 0 (line !! j).
Proof.
  intros Hn Hl Hb Hj. destruct (decide (j < length line)%nat) as [Hlt|Hge].
  - apply lookup_lt_is_Some in Hlt as [c Hc]. rewrite upd_ne by (apply lookup_lt_Some in Hc; lia).
    rewrite (write_bytes_lookup _ _ _ _ c), Hc by done. apply u8_small. by apply (Forall_lookup_1 _ _ _ _ Hb Hc).
  - rewrite lookup_ge_None_2 by lia. destruct (decide (j = length line)) as [->|Hne]; [by rewrite upd_eq|].
    rewrite upd_ne by lia. rewrite write_bytes_frame by lia. unfold memset. rewrite memset_loop_spec, u32_small by lia.
    destruct (_ && _) eqn:E; [done|blia].
Qed.

(** The shell reads its input line by line. getcmd() leaves in the buffer the next line of the
    input with its end, or as much of a longer one as fits, followed by NUL bytes; it takes
    exactly these characters from the input and writes nowhere else. It reports the end of the input, and a
    line that begins with a NUL byte as well. *)
Theorem getcmd_correct fuel buf nbuf s :
  0 < nbuf < 2 ^ 31 → nbuf <= Z.of_nat fuel → Forall (λ c, 0 <= c < 2 ^ 8) (remaining 0 (uworld s)) →
  let '(line, rest) := cut (Z.to_nat (nbuf - 1)) (remaining 0 (uworld s)) in
  ∃ s', getcmd fuel buf nbuf s = Done (if default 0 (head line) =? 0 then -1 else 0) s' ∧
    read_bytes (umem s') buf (Z.to_nat nbuf) = line ++ replicate (Z.to_nat nbuf - length line) 0 ∧
    frame buf nbuf (umem s) (umem s') ∧ remaining 0 (uworld s') = rest ∧ remaining 0 (uworld s) = line ++ rest.
Proof.
  intros Hn Hf Hb. destruct (cut _ _) as [line rest] eqn:Ec. unfold getcmd, write_local, gets.
  pose proof (prompt_ok (chars "$ ") (uworld s)) as Hp.
  unfold ubind at 1, on_world. destruct (sys_write 2 (chars "$ ") (uworld s)) as [r w]. cbn [snd] in Hp.
  unfold ubind at 1, on_memory at 1. cbn [umem uworld]. set (m0 := memset (umem s) buf 0 nbuf).
  destruct (gets_loop_ok fuel buf nbuf 0 (Z.to_nat (nbuf - 1)) (Ustate m0 w)) as (s1 & E & M & R); [lia|lia|].
  cbn [uworld umem] in *. rewrite Hp, Ec in *. cbn [fst snd] in *. unfold ubind. rewrite E. unfold on_memory, ureturn, umemory.
  cbn [umem uworld]. rewrite M, Z.add_0_r, Z.add_0_l.
  destruct (cut_app (Z.to_nat (nbuf - 1)) (remaining 0 (uworld s))) as [Hcut Hlen]. rewrite Ec in Hcut, Hlen. cbn [fst snd] in *.
  set (m1 := upd (write_bytes m0 buf line) (buf + Z.of_nat (length line)) 0).
  assert (Hl : (length line < Z.to_nat nbuf)%nat) by lia. rewrite <- Hcut in Hb. apply Forall_app in Hb as [Hb _].
  assert (Hm : ∀ j, (j < Z.to_nat nbuf)%nat → m1 (buf + Z.of_nat j) = default 0 (line !! j)) by (intros j Hj; by apply line_stored).
  exists (Ustate m1 (uworld s1)). split_and!; cbn [umem uworld]; [| | |done|done].
  - specialize (Hm 0%nat ltac:(lia)). rewrite Z.add_0_r in Hm. rewrite Hm, head_lookup. by destruct (_ =? 0).
  - apply list_eq. intros j. destruct (decide (j < Z.to_nat nbuf)%nat) as [Hj|Hj].
    + rewrite read_bytes_lookup, Hm by done. destruct (line !! j) as [c|] eqn:Ej; [by rewrite (lookup_app_l_Some _ _ _ _ Ej)|].
      apply lookup_ge_None in Ej. rewrite lookup_app_r, lookup_replicate_2 by lia. done.
    + rewrite !lookup_ge_None_2; [done|rewrite length_app, length_replicate; lia|rewrite length_read_bytes; lia].
  - intros x Hx. unfold m1. rewrite upd_ne by lia. rewrite write_bytes_frame by lia. unfold m0, memset.
    rewrite memset_loop_spec, u32_small by lia. destruct (_ && _) eqn:Ex; [blia|done].
Qed.
End getcmd.
