(* ===== verification/Mkfs.v ===== *)
(** mkfs/mkfs.c: the program that builds the file system image on the host.

    The host may store integers in either byte order ([big]), which is what xshort() and xint()
    are for. A block of the image file is its bytes; a [struct dinode] is a record of the
    values the host sees in its fields. An argument is the name of a file, and what the
    calls of read() return for it, or [None] if it cannot be opened. The host's lseek() and
    write() are taken to succeed. *)
From S2P Require Import Prelude Pstat Kernel Spinlock Sched Cstring Riscv Kalloc Vm ProcMem Sleeplock Uart Bio Log.
From S2P Require Import ProcStat Cache Crash Fs Tx FsBlock FsInode.

(** ** State and effects *)

Definition NINODES : Z := 200.
Definition nbitmap : Z := FSSIZE / BPB + 1.
Definition ninodeblocks : Z := NINODES / IPB + 1.
Definition nlog : Z := LOGBLOCKS + 1.
Definition nmeta : Z := 2 + nlog + ninodeblocks + nbitmap.
Definition nblocks : Z := FSSIZE - nmeta.
Definition zeroes : list Z := replicate (Z.to_nat BSIZE) 0.

Record mkfs := Mkfs { image : list (list Z); freeinode : Z; freeblock : Z }.
(** die() and a failed assert() end the program. *)
Inductive outcome (A : Type) := Finished (a : A) (s : mkfs) | Failed (why : string).
#[global] Arguments Finished {A} a s.
#[global] Arguments Failed {A} why.
Definition M (A : Type) : Type := mkfs → outcome A.
Definition mdone {A} (a : A) : M A := λ s, Finished a s.
Definition mthen {A B} (m : M A) (k : A → M B) : M B :=
  λ s, match m s with Finished a s' => k a s' | Failed e => Failed e end.
Definition die {A} (why : string) : M A := λ _, Failed why.
Definition massert (b : bool) (what : string) : M unit := if b then mdone tt else die what.
Declare Scope mkfs_scope.
Delimit Scope mkfs_scope with mkfs.
Notation "x <== m ;; k" := (mthen m (λ x, k))
  (at level 100, m at next level, right associativity) : mkfs_scope.
Notation "' p <== m ;; k" := (mthen m (λ x, let p := x in k))
  (at level 100, p pattern, m at next level, right associativity) : mkfs_scope.
Notation "m ;;; k" := (mthen m (λ _, k)) (at level 100, right associativity) : mkfs_scope.
Open Scope mkfs_scope.

Fixpoint mfor {A} (l : list A) (f : A → M unit) : M unit :=
  match l with [] => mdone tt | x :: l => f x ;;; mfor l f end.

(** [freeblock++] and [freeinode++] *)
Definition next_block : M Z := λ s, Finished (freeblock s) (Mkfs (image s) (freeinode s) (u32 (freeblock s + 1))).
Definition next_inode : M Z := λ s, Finished (freeinode s) (Mkfs (image s) (u32 (freeinode s + 1)) (freeblock s)).

(** The sector at the offset [sec * BSIZE] of the image file, a product of [uint]s. *)
Definition sector (sec : Z) : nat := Z.to_nat (u32 (sec * BSIZE) / BSIZE).
(** Writing past the end extends the file, with zeroes in between. *)
Definition wsect (sec : Z) (buf : list Z) : M unit := λ s,
  let i := sector sec in
  let img := image s ++ replicate (S i - length (image s)) zeroes in
  Finished tt (Mkfs (<[i := buf]> img) (freeinode s) (freeblock s)).
Definition rsect (sec : Z) : M (list Z) := λ s,
  match image s !! sector sec with
  | Some buf => Finished buf s
  | None => Failed "read"
  end.

Section host.
(** The most significant byte comes first on the host. *)
Context (big : bool).

(** The value of bytes in the memory of the host. *)
Definition in_host (b : list Z) : Z := unle (if big then rev b else b).
Definition xshort (x : Z) : Z := in_host [u8 x; u8 (Z.shiftr x 8)].
Definition xint (x : Z) : Z := in_host [u8 x; u8 (Z.shiftr x 8); u8 (Z.shiftr x 16); u8 (Z.shiftr x 24)].
(** Between the values that the host sees and those that the kernel will see in the same bytes. *)
Definition host_dinode (di : dinode) : dinode :=
  Dinode (i16 (xshort (d_type di))) (i16 (xshort (d_major di))) (i16 (xshort (d_minor di)))
    (i16 (xshort (d_nlink di))) (xint (d_size di)) (xint <$> d_addrs di).

(** ** The super block, as the host computes it *)

Definition sb : superblock :=
  Superblock FSMAGIC (xint FSSIZE) (xint nblocks) (xint NINODES) (xint nlog) (xint 2)
    (xint (2 + nlog)) (xint (2 + nlog + ninodeblocks)).
(** [memmove(buf, &sb, sizeof(sb))] into a block of zeroes. *)
Definition sb_fields : list Z :=
  [sb_magic sb; sb_size sb; sb_nblocks sb; sb_ninodes sb; sb_nlog sb; sb_logstart sb;
   sb_inodestart sb; sb_bmapstart sb].
Definition sb_block : list Z := put_words zeroes 0 (xint <$> sb_fields) 8.

(** ** Inodes *)

Definition winode (inum : Z) (ip : dinode) : M unit :=
  let bn := IBLOCK inum sb in
  buf <== rsect bn ;;
  wsect bn (write_dinode buf (dinode_off inum) (host_dinode ip)).
Definition rinode (inum : Z) : M dinode :=
  buf <== rsect (IBLOCK inum sb) ;;
  mdone (host_dinode (read_dinode buf (dinode_off inum))).

Definition ialloc (type : Z) : M Z :=
  inum <== next_inode ;;
  winode inum (Dinode (i16 (xshort type)) 0 0 (i16 (xshort 1)) (xint 0) (replicate (NDIRECT + 1) 0)) ;;;
  mdone inum.

(** ** Appending to a file *)

Definition addr (din : dinode) (k : nat) : Z := default 0 (d_addrs din !! k).
Definition set_addrs (k : nat) (a : Z) (din : dinode) : dinode :=
  Dinode (d_type din) (d_major din) (d_minor din) (d_nlink din) (d_size din) (<[k := a]> (d_addrs din)).
Definition set_size (sz : Z) (din : dinode) : dinode :=
  Dinode (d_type din) (d_major din) (d_minor din) (d_nlink din) sz (d_addrs din).

(** [if (xint(din.addrs[k]) == 0) din.addrs[k] = xint(freeblock++);] *)
Definition ensure (k : nat) (din : dinode) : M dinode :=
  if xint (addr din k) =? 0 then b <== next_block ;; mdone (set_addrs k (xint b) din) else mdone din.
(** The entry [k] of the indirect block [a], which gets a block if it has none. *)
Definition indirect_for (a : Z) (k : nat) : M Z :=
  indirect <== rsect a ;;
  if xint (get32 indirect (4 * k)) =? 0 then
    b <== next_block ;;
    let indirect := put32 indirect (4 * k) (xint (xint b)) in
    wsect a indirect ;;;
    mdone (xint (xint (get32 indirect (4 * k))))
  else mdone (xint (xint (get32 indirect (4 * k)))).
(** The block [x] that holds the block [fbn] of the file. *)
Definition block_for (din : dinode) (fbn : Z) : M (dinode * Z) :=
  if fbn <? Z.of_nat NDIRECT then
    din <== ensure (Z.to_nat fbn) din ;;
    mdone (din, xint (addr din (Z.to_nat fbn)))
  else
    din <== ensure NDIRECT din ;;
    x <== indirect_for (xint (addr din NDIRECT)) (Z.to_nat fbn - NDIRECT) ;;
    mdone (din, x).

Fixpoint iappend_loop (fuel : nat) (din : dinode) (off : Z) (p : list Z) : M (dinode * Z) :=
  match fuel with
  | O => mdone (din, off)
  | S fuel =>
      if bool_decide (p = []) then mdone (din, off)
      else
        let fbn := off / BSIZE in
        massert (fbn <? MAXFILE) "fbn < MAXFILE" ;;;
        '(din, x) <== block_for din fbn ;;
        let n1 := Z.min (Z.of_nat (length p)) (u32 (u32 ((fbn + 1) * BSIZE) - off)) in
        buf <== rsect x ;;
        wsect x (put_at (Z.to_nat (off - fbn * BSIZE)) (take (Z.to_nat n1) p) buf) ;;;
        iappend_loop fuel din (u32 (off + n1)) (drop (Z.to_nat n1) p)
  end.
(** Each round takes at least one byte of [xp]. *)
Definition iappend (inum : Z) (xp : list Z) : M unit :=
  din <== rinode inum ;;
  '(din, off) <== iappend_loop (S (length xp)) din (xint (d_size din)) xp ;;
  winode inum (set_size (xint off) din).

(** ** The bitmap, and the whole program *)

Definition balloc (used : Z) : M unit :=
  massert (used <? BPB) "used < BPB" ;;;
  wsect (sb_bmapstart sb) (foldl bit_set zeroes (Z.of_nat <$> seq 0 (Z.to_nat used))).

(** An entry of the root directory, with its name by strncpy() or strcpy(). *)
Definition new_entry (inum : Z) (name : list Z) : list Z := dirent (xshort (xshort inum)) name.
Definition dot_entry (inum : Z) (name : list Z) : list Z :=
  le 2 (xshort (xshort inum)) ++ put_at 0 name (replicate DIRSIZ 0).

Definition no_user (arg : list Z) : list Z := if bool_decide (take 5 arg = chars "user/") then drop 5 arg else arg.
Definition no_underscore (s : list Z) : list Z := if bool_decide (take 1 s = chars "_") then drop 1 s else s.
Definition add_file (rootino : Z) (file : list Z * option (list (list Z))) : M unit :=
  let '(arg, reads) := file in
  let shortname := no_user arg in
  massert (negb (bool_decide (47 ∈ shortname))) "index(shortname, '/') == 0" ;;;
  match reads with
  | None => die "open"
  | Some reads =>
      let shortname := no_underscore shortname in
      massert (length shortname <=? DIRSIZ)%nat "strlen(shortname) <= DIRSIZ" ;;;
      inum <== ialloc T_FILE ;;
      iappend rootino (new_entry inum shortname) ;;;
      mfor reads (iappend inum)
  end.

Definition main (files : list (list Z * option (list (list Z)))) : M unit :=
  mfor (Z.of_nat <$> seq 0 (Z.to_nat FSSIZE)) (λ i, wsect i zeroes) ;;;
  wsect 1 sb_block ;;;
  rootino <== ialloc T_DIR ;;
  massert (rootino =? ROOTINO) "rootino == ROOTINO" ;;;
  iappend rootino (dot_entry rootino (chars ".")) ;;;
  iappend rootino (dot_entry rootino (chars "..")) ;;;
  mfor files (add_file rootino) ;;;
  din <== rinode rootino ;;
  let off := xint (d_size din) in
  let off := u32 (u32 (off / BSIZE + 1) * BSIZE) in
  winode rootino (set_size (xint off) din) ;;;
  (λ s, balloc (i32 (freeblock s)) s).

(** A new image file is empty, the first inode is 1 and the first data block follows the others. *)
Definition mkfs_run (files : list (list Z * option (list (list Z)))) : outcome unit :=
  main files (Mkfs [] 1 nmeta).
End host.
