(* ===== verification/MkfsFiles.v ===== *)
(** mkfs/mkfs.c on a little-endian host: how files are laid out in the image, and that ialloc()
    and iappend() keep the layout. Every file owns its blocks, they are taken one after the
    other, and each operation writes only the blocks and the inode of one file. *)
From S2P Require Import Prelude Pstat Kernel Spinlock Sched Cstring Riscv Kalloc Vm ProcMem Sleeplock Uart Bio Log.
From S2P Require Import ProcStat Cache Crash Fs Tx FsBlock FsInode Mkfs.

(** ** A little-endian host *)

Lemma shiftr_div x n : 0 <= n → Z.shiftr x n = x / 2 ^ n.
Proof. apply Z.shiftr_div_pow2. Qed.
Lemma xint_little x : xint false x = u32 x.
Proof. unfold xint, in_host. cbn [unle]. rewrite !shiftr_div by lia. unfold u8, u32. dlia. Qed.
Lemma xshort_little x : xshort false x = u16 x.
Proof. unfold xshort, in_host. cbn [unle]. rewrite !shiftr_div by lia. unfold u8, u16. dlia. Qed.
Lemma host_dinode_little di : dinode_ok di → host_dinode false di = di.
Proof.
  intros [H1 H2 H3 H4 H5 [_ H7]]. unfold host_dinode. rewrite !xshort_little, !i16_u16 by done.
  rewrite xint_little, u32_small by done. destruct di as [ty ma mi nl sz ad].
  cbn [d_type d_major d_minor d_nlink d_size d_addrs] in *. f_equal. clear -H7.
  induction H7 as [|a ad Ha _ IH]; [done|]. by rewrite fmap_cons, xint_little, u32_small, IH.
Qed.

Lemma sector_small b : 0 <= b < FSSIZE → sector b = Z.to_nat b.
Proof.
  intros Hb. unfold sector. change BSIZE with 1024. unfold FSSIZE in Hb. rewrite u32_small by lia.
  by rewrite Z.div_mul.
Qed.

(** The states of a program that has written the whole image. *)
Record sized (s : mkfs) : Prop := {
  sz_len : length (image s) = Z.to_nat FSSIZE;
  sz_data : Forall is_block_data (image s)
}.
Lemma zeroes_data : is_block_data zeroes.
Proof. split; [apply length_replicate|]. apply Forall_replicate. by unfold byte. Qed.

Lemma rsect_ok s b d : 0 <= b < FSSIZE → image s !! Z.to_nat b = Some d → rsect b s = Finished d s.
Proof. intros Hb Hd. unfold rsect. by rewrite sector_small, Hd. Qed.
Lemma wsect_ok s b d :
  sized s → 0 <= b < FSSIZE → is_block_data d →
  wsect b d s = Finished tt (Mkfs (<[Z.to_nat b := d]> (image s)) (freeinode s) (freeblock s)) ∧
  sized (Mkfs (<[Z.to_nat b := d]> (image s)) (freeinode s) (freeblock s)).
Proof.
  intros [Hl Hd] Hb Hdat. unfold wsect. rewrite sector_small by done. cbv zeta.
  replace (S (Z.to_nat b) - length (image s))%nat with O by (rewrite Hl; lia). rewrite app_nil_r. split; [done|].
  split; cbn [image]; [by rewrite length_insert|by apply Forall_insert].
Qed.
Lemma sized_lookup s b : sized s → 0 <= b < FSSIZE → ∃ d, image s !! Z.to_nat b = Some d ∧ is_block_data d.
Proof.
  intros [Hl Hd] Hb. destruct (lookup_lt_is_Some_2 (image s) (Z.to_nat b)) as [d E]; [lia|].
  exists d. split; [done|]. by apply (Forall_lookup_1 _ _ _ _ Hd E).
Qed.

(** ** Files in the image *)

(** An inode and what belongs to it: its contents, its data blocks in order, and its indirect
    block or 0. *)
Record node := Node { n_type : Z; n_content : list Z; n_data : list Z; n_ind : Z }.
Definition node_addrs (nd : node) : list Z := take NDIRECT (n_data nd ++ replicate NDIRECT 0) ++ [n_ind nd].
Definition node_dinode (nd : node) : dinode :=
  Dinode (n_type nd) 0 0 1 (Z.of_nat (length (n_content nd))) (node_addrs nd).
Definition node_blocks (nd : node) : list Z := n_data nd ++ (if n_ind nd =? 0 then [] else [n_ind nd]).
(** Block [k] of a file, with zeroes after its end. *)
Definition bsize : nat := 1024.
Definition block_of (content : list Z) (k : nat) : list Z := take bsize (drop (bsize * k) content ++ zeroes).

Record node_ok (img : list (list Z)) (nd : node) : Prop := {
  no_cap : (length (n_content nd) <= bsize * length (n_data nd))%nat;
  no_max : (length (n_data nd) <= NDIRECT + 256)%nat;
  no_bytes : Forall byte (n_content nd);
  no_direct : n_ind nd = 0 → (length (n_data nd) <= NDIRECT)%nat;
  no_indirect : n_ind nd ≠ 0 → (NDIRECT <= length (n_data nd))%nat ∧ ∃ d, img !! Z.to_nat (n_ind nd) = Some d ∧
    ∀ k, (k < 256)%nat → get32 d (4 * k) = default 0 (n_data nd !! (NDIRECT + k)%nat);
  no_data : ∀ k b, n_data nd !! k = Some b → img !! Z.to_nat b = Some (block_of (n_content nd) k)
}.

Definition owned (nodes : list node) : list Z := mjoin (node_blocks <$> nodes).
Record layout (s : mkfs) (nodes : list node) : Prop := {
  la_sized : sized s;
  la_free : freeblock s = nmeta + Z.of_nat (length (owned nodes));
  la_bound : freeblock s <= FSSIZE;
  la_nodup : NoDup (owned nodes);
  la_range : Forall (λ b, nmeta <= b < freeblock s) (owned nodes);
  la_nodes : Forall (node_ok (image s)) nodes;
  la_zero : ∀ b, freeblock s <= b < FSSIZE → image s !! Z.to_nat b = Some zeroes
}.

Lemma node_ok_frame img img' nd :
  (∀ b, b ∈ node_blocks nd → img' !! Z.to_nat b = img !! Z.to_nat b) → node_ok img nd → node_ok img' nd.
Proof.
  intros Hf [H1 H2 H3 H4 H5 H6]. split; [done..| |].
  - intros Hi. destruct (H5 Hi) as (Hl & d & Hd & Hk). split; [done|]. exists d. split; [|done]. rewrite Hf; [done|].
    unfold node_blocks. rewrite (proj2 (Z.eqb_neq _ _) Hi). set_solver.
  - intros k b Hk. rewrite Hf; [by apply H6|]. unfold node_blocks. apply elem_of_app. left.
    by eapply list_elem_of_lookup_2.
Qed.

Lemma owned_lookup nodes i nd :
  nodes !! i = Some nd → owned nodes ≡ₚ node_blocks nd ++ owned (take i nodes ++ drop (S i) nodes).
Proof.
  intros H. unfold owned. rewrite <- (take_drop_middle nodes i nd H) at 1.
  rewrite !fmap_app, fmap_cons, !join_app. cbn [mjoin list_join]. fold (@mjoin list _ Z).
  apply Permutation_app_swap_app.
Qed.
Lemma owned_insert nodes i nd nd' :
  nodes !! i = Some nd → owned (<[i := nd']> nodes) ≡ₚ node_blocks nd' ++ owned (take i nodes ++ drop (S i) nodes).
Proof.
  intros H. assert (Hi := lookup_lt_Some _ _ _ H). rewrite (owned_lookup (<[i:=nd']> nodes) i nd').
  - rewrite take_insert_ge, drop_insert_lt by lia. done.
  - by apply list_lookup_insert_eq.
Qed.

Lemma owned_elem nodes i nd b : nodes !! i = Some nd → b ∈ node_blocks nd → b ∈ owned nodes.
Proof. intros H Hb. rewrite (owned_lookup nodes i nd H). set_solver. Qed.
Lemma owned_disjoint nodes i j nd nd' b :
  NoDup (owned nodes) → nodes !! i = Some nd → nodes !! j = Some nd' → i ≠ j → b ∈ node_blocks nd' → b ∉ node_blocks nd.
Proof.
  intros Hn Hi Hj Hne Hb. rewrite (owned_lookup nodes i nd Hi), NoDup_app in Hn. destruct Hn as (_ & Hn & _).
  intros Hb'. apply (Hn b Hb'). destruct (decide (j < i)%nat) as [Hlt|Hlt].
  - apply (owned_elem _ j nd'); [|done]. rewrite lookup_app_l by (apply lookup_lt_Some in Hi; rewrite length_take; lia).
    by rewrite lookup_take_lt.
  - apply (owned_elem _ (j - 1) nd'); [|done]. apply lookup_lt_Some in Hi.
    rewrite lookup_app_r by (rewrite length_take; lia). rewrite length_take, lookup_drop.
    replace (S i + (j - 1 - i `min` length nodes))%nat with j by lia. done.
Qed.

(** One file changes: it may take the next free block, and only its own blocks are written. *)
Lemma layout_update s s' nodes i nd nd' extra :
  layout s nodes → nodes !! i = Some nd → sized s' →
  extra = [] ∧ freeblock s' = freeblock s ∨
    extra = [freeblock s] ∧ freeblock s' = freeblock s + 1 ∧ freeblock s < FSSIZE →
  node_blocks nd' ≡ₚ extra ++ node_blocks nd →
  (∀ j, (∀ b, b ∈ node_blocks nd → Z.to_nat b ≠ j) → image s' !! j = image s !! j) →
  node_ok (image s') nd' → layout s' (<[i := nd']> nodes).
Proof.
  intros [L1 L2 L2b L3 L4 L5 L6] Hi Hs' Hx Hp Hf Hok.
  assert (P : owned (<[i := nd']> nodes) ≡ₚ extra ++ owned nodes).
  { rewrite (owned_insert _ _ nd) by done. rewrite Hp, (owned_lookup nodes i nd Hi). by rewrite app_assoc. }
  assert (Hown : ∀ b, b ∈ node_blocks nd → nmeta <= b < freeblock s).
  { intros b Hb. apply (Forall_forall (λ b, nmeta <= b < freeblock s) (owned nodes)); [done|]. by eapply owned_elem. }
  split.
  - done.
  - rewrite P, length_app. destruct Hx as [[-> ->]|(-> & -> & _)]; simpl; lia.
  - lia.
  - rewrite P. destruct Hx as [[-> _]|[-> _]]; [done|]. apply NoDup_cons. split; [|done].
    intros Hb. eapply Forall_forall in L4; [|exact Hb]. simpl in L4. lia.
  - rewrite P. apply Forall_app. split; [destruct Hx as [[-> _]|(-> & -> & _)]; [done|apply Forall_singleton]; lia|].
    eapply Forall_impl; [exact L4|]. simpl. lia.
  - apply Forall_lookup. intros j x Hj. apply list_lookup_insert_Some in Hj as [(-> & -> & _)|[Hne Hj]]; [done|].
    assert (Hx' : node_ok (image s) x) by (by apply (Forall_lookup_1 _ _ _ _ L5 Hj)).
    apply (node_ok_frame (image s)); [|done]. intros b Hb. apply Hf. intros c Hc E.
    assert (nmeta <= b < freeblock s).
    { apply (Forall_forall (λ b, nmeta <= b < freeblock s) (owned nodes)); [done|]. by eapply owned_elem. }
    pose proof (Hown c Hc) as Hc'. assert (0 < nmeta) by done. assert (c = b) as -> by lia.
    by eapply (owned_disjoint nodes i j).
  - intros b Hb. rewrite Hf; [apply L6; lia|]. intros c Hc. pose proof (Hown c Hc). assert (0 < nmeta) by done. lia.
Qed.

(** ** Adding blocks to a file *)

Definition with_node (nd : node) (din : dinode) : dinode :=
  Dinode (d_type din) (d_major din) (d_minor din) (d_nlink din) (d_size din) (node_addrs nd).
(** A file uses its indirect block if it needs it. *)
Definition tight (nd : node) : Prop := n_ind nd ≠ 0 ↔ (NDIRECT < length (n_data nd))%nat.
(** The number of blocks that a file with [m] data blocks owns. *)
Definition need (m : nat) : nat := if (NDIRECT <? m)%nat then S m else m.

Lemma length_direct nd : length (take NDIRECT (n_data nd ++ replicate NDIRECT 0)) = NDIRECT.
Proof. rewrite length_take, length_app, length_replicate. lia. Qed.
Lemma node_addrs_direct nd k : (k < NDIRECT)%nat → default 0 (node_addrs nd !! k) = default 0 (n_data nd !! k).
Proof.
  intros Hk. unfold node_addrs. rewrite lookup_app_l by (by rewrite length_direct). rewrite lookup_take_lt by done.
  destruct (decide (k < length (n_data nd))%nat) as [Hl|Hl]; [by rewrite lookup_app_l|].
  rewrite lookup_app_r by lia. rewrite (lookup_ge_None_2 (n_data nd)) by lia.
  rewrite lookup_replicate_2 by (unfold NDIRECT in *; lia). done.
Qed.
Lemma node_addrs_indirect nd : default 0 (node_addrs nd !! NDIRECT) = n_ind nd.
Proof. unfold node_addrs. rewrite lookup_app_r by (by rewrite length_direct). by rewrite length_direct, Nat.sub_diag. Qed.
Lemma node_addrs_set_direct nd b :
  (length (n_data nd) < NDIRECT)%nat →
  <[length (n_data nd) := b]> (node_addrs nd) = node_addrs (Node (n_type nd) (n_content nd) (n_data nd ++ [b]) (n_ind nd)).
Proof.
  intros Hl. unfold node_addrs. cbn [n_data n_ind]. rewrite insert_app_l by (by rewrite length_direct). f_equal.
  rewrite <- take_insert_lt by done. rewrite insert_app_r_alt, Nat.sub_diag by lia.
  rewrite <- app_assoc. change (replicate NDIRECT 0) with (0 :: replicate 11 0) at 1. cbn [insert list_insert].
  rewrite !take_app_ge by lia. f_equal. change ([b] ++ replicate NDIRECT 0) with (b :: replicate NDIRECT 0).
  unfold NDIRECT in *. destruct (12 - length (n_data nd))%nat as [|m] eqn:E; [done|]. cbn [take].
  f_equal. rewrite !take_replicate. f_equal. lia.
Qed.
Lemma node_addrs_set_indirect nd b :
  <[NDIRECT := b]> (node_addrs nd) = node_addrs (Node (n_type nd) (n_content nd) (n_data nd) b).
Proof.
  unfold node_addrs. rewrite insert_app_r_alt by (by rewrite length_direct). by rewrite length_direct, Nat.sub_diag.
Qed.

Lemma block_of_end content k : (length content <= bsize * k)%nat → block_of content k = zeroes.
Proof. intros H. unfold block_of. rewrite drop_ge by done. reflexivity. Qed.

(** Appending to the block that the end of the file is in. *)
Lemma block_of_append content piece k :
  (bsize * k <= length content)%nat → (length content + length piece <= bsize * S k)%nat →
  put_at (length content - bsize * k) piece (block_of content k) = block_of (content ++ piece) k.
Proof.
  intros H1 H2. unfold block_of, put_at. rewrite (drop_app_le content) by done.
  set (c := drop (bsize * k) content). assert (Hc : length c = (length content - bsize * k)%nat) by apply length_drop.
  rewrite <- Hc. assert (Hb : (length c + length piece <= bsize)%nat) by lia. clearbody c.
  rewrite take_take, Nat.min_l, take_app_length by lia. rewrite <- app_assoc.
  rewrite !(take_app_ge c) by lia. f_equal. rewrite (take_app_ge piece) by lia. f_equal.
  rewrite drop_app_ge by lia. unfold zeroes. rewrite !take_replicate, drop_replicate.
  f_equal. change (Z.to_nat BSIZE) with bsize. lia.
Qed.
Lemma block_of_other content piece k j :
  (bsize * k <= length content)%nat → (length content + length piece <= bsize * S k)%nat → j ≠ k →
  block_of (content ++ piece) j = block_of content j.
Proof.
  intros H1 H2 Hj. destruct (decide (j < k)%nat) as [Hlt|Hge].
  - unfold block_of. assert (bsize * S j <= bsize * k)%nat by (apply Nat.mul_le_mono_l; lia).
    assert (E : (bsize * S j = bsize * j + bsize)%nat) by lia.
    rewrite drop_app_le by lia. rewrite <- app_assoc. rewrite !take_app_le by (rewrite length_drop; lia). done.
  - assert (bsize * S k <= bsize * j)%nat by (apply Nat.mul_le_mono_l; lia).
    rewrite !block_of_end; [done|lia|rewrite length_app; lia].
Qed.

Section steps.
Context (s : mkfs) (nodes : list node) (i : nat) (nd : node).
Context (L : layout s nodes) (Hi : nodes !! i = Some nd).

Lemma nd_ok : node_ok (image s) nd.
Proof. by apply (Forall_lookup_1 _ _ _ _ (la_nodes _ _ L) Hi). Qed.
Lemma nd_range b : b ∈ node_blocks nd → nmeta <= b < freeblock s.
Proof.
  intros Hb. apply (Forall_forall (λ b, nmeta <= b < freeblock s) (owned nodes)); [apply (la_range _ _ L)|].
  by eapply owned_elem.
Qed.
Lemma nd_data_range k b : n_data nd !! k = Some b → nmeta <= b < freeblock s.
Proof. intros Hk. apply nd_range. unfold node_blocks. apply elem_of_app. left. by eapply list_elem_of_lookup_2. Qed.
Lemma nd_ind_range : n_ind nd ≠ 0 → nmeta <= n_ind nd < freeblock s.
Proof. intros H. apply nd_range. unfold node_blocks. rewrite (proj2 (Z.eqb_neq _ _) H). set_solver. Qed.

(** The state after [freeblock++]. *)
Definition taken : mkfs := Mkfs (image s) (freeinode s) (freeblock s + 1).
Lemma next_block_ok : freeblock s < FSSIZE → next_block s = Finished (freeblock s) taken.
Proof.
  intros H. unfold next_block, taken. rewrite u32_small; [done|]. rewrite (la_free _ _ L).
  assert (nmeta = 47) by done. unfold FSSIZE in *. rewrite (la_free _ _ L) in H. lia.
Qed.
Lemma taken_sized : sized taken.
Proof. destruct (la_sized _ _ L) as [H1 H2]. by split. Qed.

Lemma add_direct :
  (length (n_data nd) < NDIRECT)%nat → freeblock s < FSSIZE →
  layout taken (<[i := Node (n_type nd) (n_content nd) (n_data nd ++ [freeblock s]) (n_ind nd)]> nodes).
Proof.
  intros Hl Hf. destruct nd_ok as [H1 H2 H3 H4 H5 H6].
  apply (layout_update s taken nodes i nd _ [freeblock s]); [done..|apply taken_sized|by right| |done|].
  - unfold node_blocks. cbn [n_data n_ind]. rewrite <- app_assoc. apply Permutation_app_swap_app.
  - split; cbn [n_content n_data n_ind]; rewrite ?length_app; cbn [length].
    + lia.
    + unfold NDIRECT in *. lia.
    + done.
    + lia.
    + intros Hn. destruct (H5 Hn) as [Hge _]. lia.
    + intros k b [Hk|[Hk Hb]]%lookup_app_Some; [by apply H6|]. apply list_lookup_singleton_Some in Hb as [Hb <-].
      cbn [image taken]. rewrite block_of_end by (replace k with (length (n_data nd)) by lia; done).
      apply (la_zero _ _ L). lia.
Qed.
Lemma add_indirect :
  n_ind nd = 0 → length (n_data nd) = NDIRECT → freeblock s < FSSIZE →
  layout taken (<[i := Node (n_type nd) (n_content nd) (n_data nd) (freeblock s)]> nodes).
Proof.
  intros H0 Hl Hf. destruct nd_ok as [H1 H2 H3 H4 H5 H6]. assert (Hz := la_zero _ _ L (freeblock s)).
  assert (Hpos : 0 < freeblock s) by (rewrite (la_free _ _ L); assert (nmeta = 47) by done; lia).
  apply (layout_update s taken nodes i nd _ [freeblock s]); [done..|apply taken_sized|by right| |done|].
  - unfold node_blocks. cbn [n_data n_ind]. rewrite H0, Z.eqb_refl, app_nil_r, (proj2 (Z.eqb_neq _ _)) by lia.
    by rewrite Permutation_app_comm.
  - split; cbn [n_content n_data n_ind]; try done; [lia|]. intros _. split; [lia|]. exists zeroes.
    split; [apply Hz; lia|]. intros k Hk. rewrite lookup_ge_None_2 by lia.
    unfold get32, zeroes. rewrite !lookup_replicate_2 by (change (Z.to_nat BSIZE) with 1024%nat; lia). done.
Qed.

(** The state after a block of the file is written. *)
Definition stored (s0 : mkfs) (b : Z) (d : list Z) : mkfs :=
  Mkfs (<[Z.to_nat b := d]> (image s0)) (freeinode s0) (freeblock s0).
Lemma stored_lookup s0 b d j : Z.to_nat b ≠ j → image (stored s0 b d) !! j = image s0 !! j.
Proof. apply list_lookup_insert_ne. Qed.
Lemma stored_eq b d : nmeta <= b < FSSIZE → image (stored s b d) !! Z.to_nat b = Some d.
Proof.
  intros Hb. apply list_lookup_insert_eq. destruct (la_sized _ _ L) as [H _]. rewrite H.
  assert (nmeta = 47) by done. lia.
Qed.

Lemma add_entry d :
  n_ind nd ≠ 0 → (NDIRECT <= length (n_data nd) < NDIRECT + 256)%nat → freeblock s < FSSIZE →
  image s !! Z.to_nat (n_ind nd) = Some d →
  layout (stored taken (n_ind nd) (put32 d (4 * (length (n_data nd) - NDIRECT)) (freeblock s)))
    (<[i := Node (n_type nd) (n_content nd) (n_data nd ++ [freeblock s]) (n_ind nd)]> nodes).
Proof.
  intros H0 Hl Hf Hd. destruct nd_ok as [H1 H2 H3 H4 H5 H6]. assert (Hr := nd_ind_range H0).
  set (d' := put32 d _ _). assert (Hm : nmeta = 47) by done.
  assert (Hdd : is_block_data d) by (by apply (Forall_lookup_1 _ _ _ _ (sz_data _ (la_sized _ _ L)) Hd)).
  assert (Hnd : ∀ b, b ∈ n_data nd → nmeta <= b < freeblock s ∧ b ≠ n_ind nd).
  { intros b Hb. split; [apply nd_range; unfold node_blocks; set_solver|]. intros ->.
    assert (Hdup := la_nodup _ _ L). rewrite (owned_lookup nodes i nd Hi) in Hdup. apply NoDup_app in Hdup as (Hdup & _).
    unfold node_blocks in Hdup. rewrite (proj2 (Z.eqb_neq _ _) H0) in Hdup. apply NoDup_app in Hdup as (_ & Hdup & _).
    apply (Hdup _ Hb). set_solver. }
  apply (layout_update s _ nodes i nd _ [freeblock s]); [done..| |by right| | |].
  - destruct (wsect_ok taken (n_ind nd) d') as [_ Hs]; [apply taken_sized|lia|by apply put32_data|done].
  - unfold node_blocks. cbn [n_data n_ind]. rewrite <- app_assoc. apply Permutation_app_swap_app.
  - intros j Hj. change (image s) with (image taken). apply stored_lookup, Hj. unfold node_blocks. rewrite (proj2 (Z.eqb_neq _ _) H0). set_solver.
  - split; cbn [n_content n_data n_ind]; rewrite ?length_app; cbn [length]; try done; [lia|lia|..].
    + intros _. split; [lia|]. exists d'. split; [apply (stored_eq (n_ind nd) d'); lia|].
      intros k Hk. destruct Hdd as [Hlen _]. change (Z.to_nat BSIZE) with 1024%nat in Hlen.
      destruct (H5 H0) as (_ & d0 & Hd0 & Hk0). rewrite Hd in Hd0. injection Hd0 as <-.
      destruct (decide (k = length (n_data nd) - NDIRECT)%nat) as [->|Hne].
      * unfold d'. rewrite get32_put32_eq by lia. rewrite u32_small by (unfold FSSIZE in *; lia).
        replace (NDIRECT + (length (n_data nd) - NDIRECT))%nat with (length (n_data nd)) by lia.
        by rewrite list_lookup_middle.
      * unfold d'. rewrite get32_put32_ne by lia. rewrite Hk0 by done. f_equal.
        destruct (decide (NDIRECT + k < length (n_data nd))%nat) as [Hlt|Hge]; [by rewrite lookup_app_l|].
        rewrite !lookup_ge_None_2 by (rewrite ?length_app; cbn [length]; lia). done.
    + intros k b [Hk|[Hk Hb]]%lookup_app_Some.
      * assert (Hb : b ∈ n_data nd) by (by eapply list_elem_of_lookup_2). destruct (Hnd b Hb) as [Hr1 Hr2].
        rewrite stored_lookup by lia. by apply H6.
      * apply list_lookup_singleton_Some in Hb as [Hb <-]. rewrite stored_lookup by lia.
        rewrite block_of_end by (replace k with (length (n_data nd)) by lia; done). apply (la_zero _ _ L). lia.
Qed.

Lemma fill k b piece :
  n_data nd !! k = Some b → (bsize * k <= length (n_content nd))%nat →
  (length (n_content nd) + length piece <= bsize * S k)%nat → Forall byte piece →
  layout (stored s b (put_at (length (n_content nd) - bsize * k) piece (block_of (n_content nd) k)))
    (<[i := Node (n_type nd) (n_content nd ++ piece) (n_data nd) (n_ind nd)]> nodes).
Proof.
  intros Hk H0 Hl Hp. destruct nd_ok as [H1 H2 H3 H4 H5 H6]. assert (Hr := nd_data_range k b Hk).
  rewrite block_of_append by done. set (d' := block_of _ k). assert (Hm : nmeta = 47) by done.
  assert (Hlt := lookup_lt_Some _ _ _ Hk).
  assert (Hcap : (bsize * S k <= bsize * length (n_data nd))%nat) by (apply Nat.mul_le_mono_l; lia).
  assert (Hd' : is_block_data d').
  { split; [unfold d', block_of; rewrite length_take, length_app; unfold zeroes; rewrite length_replicate; change (Z.to_nat BSIZE) with bsize; lia|].
    apply Forall_take, Forall_app. split; [apply Forall_drop, Forall_app; done|apply zeroes_data]. }
  assert (Hfs := la_bound _ _ L).
  assert (Hdup := la_nodup _ _ L). rewrite (owned_lookup nodes i nd Hi) in Hdup. apply NoDup_app in Hdup as (Hdup & _).
  unfold node_blocks in Hdup. apply NoDup_app in Hdup as (Hdup1 & Hdup2 & _).
  apply (layout_update s _ nodes i nd _ []); [done..| |by left|done| |].
  - destruct (wsect_ok s b d') as [_ Hs]; [apply (la_sized _ _ L)|lia|done|done].
  - intros j Hj. apply stored_lookup, Hj. unfold node_blocks. apply elem_of_app. left. by eapply list_elem_of_lookup_2.
  - split; cbn [n_content n_data n_ind]; rewrite ?length_app; [lia|done|by apply Forall_app|done|..].
    + intros Hn. destruct (H5 Hn) as (Hge & d & Hd & Hget). split; [done|]. exists d. split; [|done].
      rewrite stored_lookup; [done|]. assert (Hr' := nd_ind_range Hn). intros E. assert (b = n_ind nd) as -> by lia.
      apply (Hdup2 (n_ind nd)); [by eapply list_elem_of_lookup_2|]. rewrite (proj2 (Z.eqb_neq _ _) Hn). set_solver.
    + intros j c Hj. destruct (decide (j = k)) as [->|Hne].
      * rewrite Hj in Hk. injection Hk as ->. apply (stored_eq b d'). lia.
      * assert (Hr' := nd_data_range j c Hj). rewrite stored_lookup.
        -- rewrite (block_of_other _ _ k) by done. by apply H6.
        -- intros E. assert (b = c) as -> by lia. by apply Hne, (NoDup_lookup (n_data nd) j k c).
Qed.
End steps.

(** The blocks before the data blocks are not touched. *)
Definition same_low (s s' : mkfs) : Prop :=
  freeinode s' = freeinode s ∧ ∀ b, 0 <= b < nmeta → image s' !! Z.to_nat b = image s !! Z.to_nat b.
Lemma same_low_refl s : same_low s s.
Proof. done. Qed.
Lemma same_low_trans s1 s2 s3 : same_low s1 s2 → same_low s2 s3 → same_low s1 s3.
Proof. intros [H1 H2] [H3 H4]. split; [by rewrite H3|]. intros b Hb. by rewrite H4, H2. Qed.
Lemma same_low_taken s : same_low s (taken s).
Proof. done. Qed.
Lemma same_low_stored s b d : nmeta <= b → same_low s (stored s b d).
Proof. intros Hb. split; [done|]. intros c Hc. apply stored_lookup. lia. Qed.

Lemma with_node_id nd din : d_addrs din = node_addrs nd → with_node nd din = din.
Proof. intros H. unfold with_node. rewrite <- H. by destruct din. Qed.
Lemma block_small s nodes b : layout s nodes → nmeta <= b < freeblock s → u32 b = b ∧ b ≠ 0.
Proof.
  intros L Hb. assert (H := la_bound _ _ L). unfold FSSIZE in H. assert (nmeta = 47) by done.
  split; [apply u32_small|]; lia.
Qed.
Lemma free_small s nodes : layout s nodes → freeblock s < FSSIZE → u32 (freeblock s) = freeblock s.
Proof.
  intros L H. assert (E := la_free _ _ L). unfold FSSIZE in H. assert (nmeta = 47) by done. apply u32_small. lia.
Qed.

Section block_for.
Context (s : mkfs) (nodes : list node) (i : nat) (nd : node) (din : dinode).
Context (L : layout s nodes) (Hi : nodes !! i = Some nd) (Ha : d_addrs din = node_addrs nd) (Ht : tight nd).
Notation m := (length (n_data nd)).

Lemma direct_ok k :
  (k <= m)%nat → (k < NDIRECT)%nat → ((k < m)%nat ∨ freeblock s < FSSIZE) →
  ∃ s' nd' x, block_for false din (Z.of_nat k) s = Finished (with_node nd' din, x) s' ∧
    layout s' (<[i := nd']> nodes) ∧ n_type nd' = n_type nd ∧ n_content nd' = n_content nd ∧
    n_data nd' !! k = Some x ∧ length (n_data nd') = Nat.max m (S k) ∧ tight nd' ∧ same_low s s'.
Proof.
  intros Hk Hd Hf. unfold block_for. rewrite (proj2 (Z.ltb_lt _ _)), Nat2Z.id by lia. unfold ensure, addr.
  rewrite Ha, node_addrs_direct, xint_little by done. destruct (decide (k < m)%nat) as [Hlt|Hge].
  - destruct (lookup_lt_is_Some_2 (n_data nd) k Hlt) as [b Hb]. rewrite Hb. 
    destruct (block_small s nodes b L) as [E E0]; [by eapply nd_data_range|]. cbn [from_option id]. rewrite E.
    rewrite (proj2 (Z.eqb_neq _ _)) by done. cbn [mthen mdone].
    exists s, nd, b. rewrite with_node_id by done. split.
    + unfold mthen, mdone. rewrite Ha, node_addrs_direct, Hb, xint_little by done. cbn [from_option id]. by rewrite E.
    + rewrite list_insert_id by done. split_and!; try done. lia.
  - assert (k = m) as -> by lia. rewrite lookup_ge_None_2 by lia. cbn [from_option id].
    change (u32 0 =? 0) with true. unfold mthen, mdone. destruct Hf as [Hf|Hf]; [lia|].
    rewrite (next_block_ok s nodes L Hf), xint_little, (free_small s nodes) by done.
    set (nd' := Node (n_type nd) (n_content nd) (n_data nd ++ [freeblock s]) (n_ind nd)).
    exists (taken s), nd', (freeblock s).
    assert (E : set_addrs m (freeblock s) din = with_node nd' din).
    { unfold set_addrs, with_node, nd'. by rewrite Ha, node_addrs_set_direct. }
    rewrite E. split_and!; try done.
    + cbn [with_node d_addrs]. rewrite node_addrs_direct by done. unfold nd'. cbn [n_data].
      rewrite list_lookup_middle by done. cbn [from_option id]. by rewrite xint_little, (free_small s nodes).
    + by apply add_direct.
    + unfold nd'. cbn [n_data]. by rewrite list_lookup_middle.
    + unfold nd'. cbn [n_data]. rewrite length_app. simpl. lia.
    + unfold tight in *. unfold nd'. cbn [n_data n_ind]. rewrite length_app. cbn [length]. rewrite Ht. lia.
Qed.

(** After the indirect block is there. *)
Lemma ensure_indirect :
  (NDIRECT <= m)%nat → (n_ind nd = 0 → freeblock s < FSSIZE) →
  ∃ s' nd', ensure false NDIRECT din s = Finished (with_node nd' din) s' ∧
    layout s' (<[i := nd']> nodes) ∧ n_type nd' = n_type nd ∧ n_content nd' = n_content nd ∧
    n_data nd' = n_data nd ∧ n_ind nd' ≠ 0 ∧ same_low s s' ∧
    freeblock s' = freeblock s + (if n_ind nd =? 0 then 1 else 0).
Proof.
  intros Hm Hf. unfold ensure, addr. rewrite Ha, node_addrs_indirect, xint_little.
  assert (Hok := nd_ok s nodes i nd L Hi). destruct (Z.eqb_spec (n_ind nd) 0) as [E0|E0].
  - rewrite E0. change (u32 0 =? 0) with true. unfold mthen, mdone.
    rewrite (next_block_ok s nodes L), xint_little, (free_small s nodes) by auto.
    exists (taken s), (Node (n_type nd) (n_content nd) (n_data nd) (freeblock s)). split_and!; try done.
    + unfold set_addrs, with_node. by rewrite Ha, node_addrs_set_indirect.
    + apply add_indirect; auto. assert (Hd := no_direct _ _ Hok E0). lia.
    + cbn [n_ind]. rewrite (la_free _ _ L). assert (nmeta = 47) by done. lia.
  - destruct (block_small s nodes (n_ind nd) L) as [E _]; [by eapply nd_ind_range|].
    rewrite E, (proj2 (Z.eqb_neq _ _)) by done. exists s, nd. rewrite with_node_id by done.
    rewrite list_insert_id by done. split_and!; try done. lia.
Qed.
End block_for.

(** The entry of the indirect block. *)
Lemma indirect_for_ok s nodes i nd k :
  layout s nodes → nodes !! i = Some nd → n_ind nd ≠ 0 → (k <= length (n_data nd))%nat →
  (NDIRECT <= k < NDIRECT + 256)%nat → ((k < length (n_data nd))%nat ∨ freeblock s < FSSIZE) →
  ∃ s' data x, indirect_for false (n_ind nd) (k - NDIRECT) s = Finished x s' ∧
    layout s' (<[i := Node (n_type nd) (n_content nd) data (n_ind nd)]> nodes) ∧
    node_addrs (Node (n_type nd) (n_content nd) data (n_ind nd)) = node_addrs nd ∧
    data !! k = Some x ∧ length data = Nat.max (length (n_data nd)) (S k) ∧ same_low s s'.
Proof.
  intros L Hi H0 Hk Hr Hf. assert (Hok := nd_ok s nodes i nd L Hi).
  destruct (no_indirect _ _ Hok H0) as (Hge & d & Hd & Hget). specialize (Hget (k - NDIRECT)%nat ltac:(lia)).
  replace (NDIRECT + (k - NDIRECT))%nat with k in Hget by lia.
  assert (Hrange := nd_ind_range s nodes i nd L Hi H0). assert (Hb := la_bound _ _ L). assert (Hm : nmeta = 47) by done.
  unfold indirect_for, mthen, mdone. rewrite (rsect_ok s _ d), !xint_little, Hget by (lia || done).
  destruct (decide (k < length (n_data nd))%nat) as [Hlt|Hlt].
  - destruct (lookup_lt_is_Some_2 _ _ Hlt) as [b Eb]. rewrite Eb. cbn [from_option id].
    destruct (block_small s nodes b L) as [E E0]; [by eapply nd_data_range|].
    rewrite !E, (proj2 (Z.eqb_neq _ _)) by done. exists s, (n_data nd), b. split; [done|].
    rewrite list_insert_id by (rewrite Hi; by destruct nd). split_and!; try done. lia.
  - assert (k = length (n_data nd)) as -> by lia. rewrite lookup_ge_None_2 by lia. change (u32 _ =? 0) with true.
    destruct Hf as [Hf|Hf]; [lia|]. assert (Eu := free_small s nodes L Hf).
    rewrite (next_block_ok s nodes L Hf). cbv zeta. rewrite !xint_little, !Eu.
    assert (Hdd : is_block_data d) by (by apply (Forall_lookup_1 _ _ _ _ (sz_data _ (la_sized _ _ L)) Hd)).
    set (d' := put32 d (4 * (length (n_data nd) - NDIRECT)) (freeblock s)).
    destruct (wsect_ok (taken s) (n_ind nd) d') as [-> _]; [by eapply taken_sized|lia|by apply put32_data|].
    assert (Eg : get32 d' (4 * (length (n_data nd) - NDIRECT)) = freeblock s).
    { destruct Hdd as [Hlen _]. change (Z.to_nat BSIZE) with 1024%nat in Hlen. unfold d'. by rewrite get32_put32_eq by lia. }
    rewrite Eg, !Eu. exists (stored (taken s) (n_ind nd) d'), (n_data nd ++ [freeblock s]), (freeblock s).
    split_and!; [done|by apply add_entry| |by apply list_lookup_middle|rewrite length_app; simpl; lia|].
    { unfold node_addrs. cbn [n_data n_ind]. rewrite <- app_assoc. by rewrite !take_app_le by lia. }
    apply (same_low_trans _ (taken s)); [apply same_low_taken|apply same_low_stored; lia].
Qed.

Lemma block_for_ok s nodes i nd din k :
  layout s nodes → nodes !! i = Some nd → d_addrs din = node_addrs nd → tight nd →
  (k <= length (n_data nd))%nat → (k < NDIRECT + 256)%nat →
  freeblock s + Z.of_nat (need (Nat.max (length (n_data nd)) (S k))) - Z.of_nat (need (length (n_data nd))) <= FSSIZE →
  ∃ s' nd' x, block_for false din (Z.of_nat k) s = Finished (with_node nd' din, x) s' ∧
    layout s' (<[i := nd']> nodes) ∧ n_type nd' = n_type nd ∧ n_content nd' = n_content nd ∧
    n_data nd' !! k = Some x ∧ length (n_data nd') = Nat.max (length (n_data nd)) (S k) ∧ tight nd' ∧ same_low s s'.
Proof.
  intros L Hi Ha Ht Hk Hmax Hf. unfold need in Hf. destruct (decide (k < NDIRECT)%nat) as [Hd|Hd].
  { apply direct_ok; try done. destruct (decide (k < length (n_data nd))%nat) as [|Hge]; [by left|right].
    destruct (Nat.ltb_spec NDIRECT (length (n_data nd))), (Nat.ltb_spec NDIRECT (length (n_data nd) `max` S k)); lia. }
  assert (Hneed : (n_ind nd = 0 → freeblock s + 1 < FSSIZE) ∧ ((k < length (n_data nd))%nat ∨ freeblock s < FSSIZE)).
  { unfold tight in Ht. destruct (decide (k < length (n_data nd))%nat) as [Hlt|Hge].
    - split; [|by left]. intros E. destruct (proj2 Ht); [lia|done].
    - split; [intros E; assert (¬ (NDIRECT < length (n_data nd))%nat) by tauto|right];
        destruct (Nat.ltb_spec NDIRECT (length (n_data nd))), (Nat.ltb_spec NDIRECT (length (n_data nd) `max` S k)); lia. }
  destruct Hneed as [Hn1 Hn2].
  destruct (ensure_indirect s nodes i nd din L Hi Ha) as (s1 & nd1 & E1 & L1 & Ety & Eco & Eda & H0 & Hlow & Ef); [lia|lia|].
  assert (Hi1 : <[i := nd1]> nodes !! i = Some nd1) by (apply list_lookup_insert_eq; by eapply lookup_lt_Some).
  destruct (indirect_for_ok s1 _ i nd1 k L1 Hi1 H0) as (s2 & data & x & E2 & L2 & Haddr & Hx & Hlen & Hlow2);
    [by rewrite Eda|lia|rewrite Eda; destruct (Z.eqb_spec (n_ind nd) 0); lia|].
  unfold block_for. rewrite (proj2 (Z.ltb_ge _ _)), Nat2Z.id by lia. unfold mthen at 1. rewrite E1.
  unfold addr. cbn [with_node d_addrs]. rewrite node_addrs_indirect, xint_little.
  destruct (block_small s1 _ (n_ind nd1) L1) as [-> _]; [by eapply nd_ind_range|]. unfold mthen, mdone. rewrite E2.
  rewrite list_insert_insert_eq in L2. exists s2, (Node (n_type nd1) (n_content nd1) data (n_ind nd1)), x.
  cbn [n_type n_content n_data]. rewrite Eda in Hlen. split_and!; try done.
  - unfold with_node at 2. by rewrite Haddr.
  - unfold tight. cbn [n_data n_ind]. split; [lia|done].
  - by eapply same_low_trans.
Qed.

(** ** Appending *)

(** The number of blocks of a file of [n] bytes. *)
Definition blocks (n : nat) : nat := ((n + 1023) / bsize)%nat.
(** A file has the blocks it needs. *)
Definition exact (nd : node) : Prop := length (n_data nd) = blocks (length (n_content nd)) ∧ tight nd.

Lemma exact_blocks nd : exact nd → length (node_blocks nd) = need (blocks (length (n_content nd))).
Proof.
  intros [E Ht]. unfold node_blocks, need, tight in *. rewrite length_app, <- E.
  destruct (Nat.ltb_spec NDIRECT (length (n_data nd))) as [H|H].
  - rewrite (proj2 (Z.eqb_neq _ _)) by tauto. simpl. lia.
  - destruct (Z.eqb_spec (n_ind nd) 0) as [|H0]; [simpl; lia|]. apply Ht in H0. lia.
Qed.
Lemma layout_count s s' nodes i nd nd' :
  layout s nodes → layout s' (<[i := nd']> nodes) → nodes !! i = Some nd →
  freeblock s' = freeblock s + Z.of_nat (length (node_blocks nd')) - Z.of_nat (length (node_blocks nd)).
Proof.
  intros L L' Hi. rewrite (la_free _ _ L), (la_free _ _ L').
  rewrite (owned_insert nodes i nd) by done. rewrite (owned_lookup nodes i nd Hi), !length_app. lia.
Qed.
Lemma blocks_mono n n' : (n <= n')%nat → (blocks n <= blocks n')%nat.
Proof. intros H. apply Nat.Div0.div_le_mono. lia. Qed.
Lemma need_mono n n' : (n <= n')%nat → (need n <= need n')%nat.
Proof. intros H. unfold need. destruct (Nat.ltb_spec NDIRECT n), (Nat.ltb_spec NDIRECT n'); lia. Qed.
(** The block that the next byte goes to, and the blocks after a piece has been put there. *)
Lemma blocks_within n k : (bsize * k < n)%nat → (n <= bsize * S k)%nat → blocks n = S k.
Proof.
  intros H1 H2. unfold blocks. symmetry. unfold bsize in *. apply (Nat.div_unique _ 1024 (S k) (n + 1023 - 1024 * S k)); lia.
Qed.
Lemma blocks_next n : (blocks n = n / bsize ∨ blocks n = S (n / bsize))%nat.
Proof.
  pose proof (Nat.div_mod n bsize ltac:(done)) as Hd. pose proof (Nat.mod_upper_bound n bsize ltac:(done)) as Hm.
  destruct (decide (n mod bsize = 0)%nat) as [E|E].
  - left. unfold blocks. symmetry. apply (Nat.div_unique _ bsize _ 1023); unfold bsize in *; lia.
  - right. apply blocks_within; lia.
Qed.

(** The second half of a round: the piece is written. *)
Lemma iappend_round s nodes i nd k x piece :
  layout s nodes → nodes !! i = Some nd → n_data nd !! k = Some x → length (n_data nd) = S k → tight nd →
  (bsize * k <= length (n_content nd))%nat → (0 < length piece)%nat →
  (length (n_content nd) + length piece <= bsize * S k)%nat → Forall byte piece →
  let nd' := Node (n_type nd) (n_content nd ++ piece) (n_data nd) (n_ind nd) in
  let d := block_of (n_content nd) k in
  ∃ s', rsect x s = Finished d s ∧
    wsect x (put_at (length (n_content nd) - bsize * k) piece d) s = Finished tt s' ∧
    layout s' (<[i := nd']> nodes) ∧ exact nd' ∧ same_low s s'.
Proof.
  intros L Hi Hx Hlen Ht H1 H2 H3 Hp nd' d. assert (Hr := nd_data_range s nodes i nd L Hi k x Hx).
  assert (Hb := la_bound _ _ L). assert (Hm : nmeta = 47) by done. assert (Hok := nd_ok s nodes i nd L Hi).
  assert (Lf := fill s nodes i nd L Hi k x piece Hx H1 H3 Hp). set (d' := put_at _ _ _) in *.
  exists (stored s x d'). split; [apply rsect_ok; [lia|by apply (no_data _ _ Hok)]|]. split.
  { assert (Hd' : is_block_data d').
    { apply (Forall_lookup_1 _ _ (Z.to_nat x) _ (sz_data _ (la_sized _ _ Lf))). apply (stored_eq s nodes L). lia. }
    destruct (wsect_ok s x d') as [Hw _]; [apply (la_sized _ _ L)|lia|done|done]. }
  split; [done|]. split; [|apply same_low_stored; lia]. split; [|done].
  unfold nd'. cbn [n_data n_content]. rewrite length_app, Hlen. symmetry. apply blocks_within; lia.
Qed.

(** A round of the loop. *)
Lemma iappend_step fuel s nodes i nd din p :
  layout s nodes → nodes !! i = Some nd → d_addrs din = node_addrs nd → exact nd → Forall byte p → p ≠ [] →
  let n := length (n_content nd) in
  (n + length p <= bsize * (NDIRECT + 256))%nat →
  freeblock s + Z.of_nat (need (blocks (n + length p))) - Z.of_nat (need (blocks n)) <= FSSIZE →
  ∃ r s' nd', (0 < r <= length p)%nat ∧
    iappend_loop false (S fuel) din (Z.of_nat n) p s =
      iappend_loop false fuel (with_node nd' din) (Z.of_nat (n + r)) (drop r p) s' ∧
    layout s' (<[i := nd']> nodes) ∧ n_type nd' = n_type nd ∧ n_content nd' = n_content nd ++ take r p ∧
    exact nd' ∧ same_low s s'.
Proof.
  intros L Hi Ha He Hp E0 n Hmax Hf. cbn [iappend_loop]. rewrite bool_decide_false by done. set (k := (n / bsize)%nat).
  assert (Hpos : (0 < length p)%nat) by (destruct p; [done|simpl; lia]).
  assert (Hdm := Nat.div_mod n bsize ltac:(done)). assert (Hmu := Nat.mod_upper_bound n bsize ltac:(done)). fold k in Hdm.
  assert (Ek : Z.of_nat n / BSIZE = Z.of_nat k) by (unfold k, bsize; by rewrite Nat2Z.inj_div).
  rewrite Ek. assert (Hk : (k < NDIRECT + 256)%nat) by (unfold bsize, NDIRECT in *; lia).
  unfold massert. rewrite (proj2 (Z.ltb_lt _ _)) by (change MAXFILE with 268; unfold NDIRECT in *; lia).
  assert (Hbn : length (n_data nd) = k ∨ length (n_data nd) = S k) by (destruct He as [-> _]; apply blocks_next).
  destruct (block_for_ok s nodes i nd din k) as (s1 & nd1 & x & E1 & L1 & Ety & Eco & Hx & Hlen & Ht1 & Hlow1);
    [done|done|done|apply He|lia|done| |].
  { replace (length (n_data nd) `max` S k)%nat with (S k) by lia. destruct He as [-> _]. fold n.
    assert (Hn : (need (S k) <= need (blocks (n + length p)))%nat); [|lia].
    apply need_mono. rewrite <- (blocks_within (S (bsize * k)) k) by (unfold bsize in *; lia). apply blocks_mono. lia. }
  assert (Hlen1 : length (n_data nd1) = S k) by lia.
  set (r := Nat.min (length p) (bsize * S k - n)).
  assert (En1 : Z.min (Z.of_nat (length p)) (u32 (u32 ((Z.of_nat k + 1) * BSIZE) - Z.of_nat n)) = Z.of_nat r).
  { change BSIZE with 1024. unfold bsize, NDIRECT in *. rewrite (u32_small ((Z.of_nat k + 1) * 1024)) by lia.
    rewrite u32_small by lia. lia. }
  unfold mthen at 1. cbn [mdone]. unfold mthen at 1. rewrite E1. cbv zeta. rewrite En1, Nat2Z.id.
  assert (Hi1 : <[i := nd1]> nodes !! i = Some nd1) by (apply list_lookup_insert_eq; by eapply lookup_lt_Some).
  assert (Hlr : length (take r p) = r) by (rewrite length_take; lia).
  destruct (iappend_round s1 (<[i := nd1]> nodes) i nd1 k x (take r p) L1 Hi1 Hx Hlen1 Ht1) as (s2 & Er & Ew & L2 & He2 & Hlow2);
    rewrite ?Eco, ?Hlr; fold n; [lia|lia|lia|by apply Forall_take|].
  rewrite Eco in *. fold n in Ew. rewrite list_insert_insert_eq in L2.
  exists r, s2, (Node (n_type nd1) (n_content nd ++ take r p) (n_data nd1) (n_ind nd1)). split; [lia|]. split.
  - unfold mthen. rewrite Er. replace (Z.to_nat (Z.of_nat n - Z.of_nat k * BSIZE)) with (n - bsize * k)%nat
      by (change BSIZE with 1024; unfold bsize in *; lia). rewrite Ew.
    rewrite u32_small by (unfold bsize, NDIRECT in *; lia). rewrite <- Nat2Z.inj_add. reflexivity.
  - split_and!; [exact L2|done|done|done|by eapply same_low_trans].
Qed.

Lemma iappend_loop_ok fuel s nodes i nd din p :
  layout s nodes → nodes !! i = Some nd → d_addrs din = node_addrs nd → exact nd → Forall byte p →
  (length p < fuel)%nat → (length (n_content nd) + length p <= bsize * (NDIRECT + 256))%nat →
  freeblock s + Z.of_nat (need (blocks (length (n_content nd) + length p)))
    - Z.of_nat (need (blocks (length (n_content nd)))) <= FSSIZE →
  ∃ s' nd', iappend_loop false fuel din (Z.of_nat (length (n_content nd))) p s =
      Finished (with_node nd' din, Z.of_nat (length (n_content nd'))) s' ∧
    layout s' (<[i := nd']> nodes) ∧ n_type nd' = n_type nd ∧ n_content nd' = n_content nd ++ p ∧
    exact nd' ∧ same_low s s'.
Proof.
  revert s nodes nd din p. induction fuel as [|fuel IH]; intros s nodes nd din p L Hi Ha He Hp Hfuel Hmax Hf; [lia|].
  destruct (decide (p = [])) as [->|E0].
  { exists s, nd. cbn [iappend_loop]. rewrite with_node_id, list_insert_id, app_nil_r by done. done. }
  destruct (iappend_step fuel s nodes i nd din p) as (r & s2 & nd2 & Hr & -> & L2 & Ety2 & Eco2 & He2 & Hlow2); [done..|].
  assert (Hn2 : length (n_content nd2) = (length (n_content nd) + r)%nat) by (rewrite Eco2, length_app, length_take; lia).
  destruct (IH s2 (<[i := nd2]> nodes) nd2 (with_node nd2 din) (drop r p)) as (s3 & nd3 & E3 & L3 & Ety3 & Eco3 & He3 & Hlow3);
    rewrite ?length_drop, ?Hn2; try done; [|by apply Forall_drop|lia|lia|..].
  - apply list_lookup_insert_eq. by eapply lookup_lt_Some.
  - replace (length (n_content nd) + r + (length p - r))%nat with (length (n_content nd) + length p)%nat by lia.
    rewrite (layout_count s s2 nodes i nd nd2 L L2 Hi), (exact_blocks nd He), (exact_blocks nd2 He2), Hn2. lia.
  - exists s3, nd3. rewrite list_insert_insert_eq in L3. rewrite Hn2 in E3. rewrite E3. split_and!; try done.
    + by rewrite Ety3.
    + rewrite Eco3, Eco2. by rewrite <- app_assoc, take_drop.
    + by eapply same_low_trans.
Qed.

(** ** The table of inodes *)

(** The inode blocks have room for this many. *)
Definition inode_slots : Z := ninodeblocks * IPB.
Definition dinode_at (s : mkfs) (inum : Z) (di : dinode) : Prop :=
  ∃ d, image s !! Z.to_nat (IBLOCK inum (sb false)) = Some d ∧ read_dinode d (dinode_off inum) = di.

Lemma IBLOCK_range inum :
  0 <= inum < inode_slots → IBLOCK inum (sb false) = 33 + inum / 16 ∧ 33 <= IBLOCK inum (sb false) < 46.
Proof.
  intros H. change inode_slots with 208 in H. unfold IBLOCK. change (sb_inodestart (sb false)) with 33. change IPB with 16.
  assert (0 <= inum / 16 < 13) by (split; [apply Z.div_pos; lia|apply Z.div_lt_upper_bound; lia]).
  rewrite u32_small by lia. lia.
Qed.
Lemma dinode_off_apart n m :
  0 <= n → 0 <= m → n / 16 = m / 16 → n ≠ m → (dinode_off n + 64 <= dinode_off m ∨ dinode_off m + 64 <= dinode_off n)%nat.
Proof.
  intros Hn Hm E Hne. unfold dinode_off. change IPB with 16.
  pose proof (Z.div_mod n 16). pose proof (Z.div_mod m 16).
  pose proof (Z.mod_pos_bound n 16). pose proof (Z.mod_pos_bound m 16). lia.
Qed.

Lemma winode_ok s inum di :
  sized s → 0 <= inum < inode_slots → dinode_ok di →
  ∃ s', winode false inum di s = Finished tt s' ∧ sized s' ∧ freeinode s' = freeinode s ∧ freeblock s' = freeblock s ∧
    (∀ b, b < 33 ∨ 46 <= b → 0 <= b → image s' !! Z.to_nat b = image s !! Z.to_nat b) ∧ dinode_at s' inum di ∧
    ∀ m di', 0 <= m < inode_slots → m ≠ inum → dinode_at s m di' → dinode_at s' m di'.
Proof.
  intros Hs Hn Hdi. destruct (IBLOCK_range inum Hn) as [Eb Hb]. set (b := IBLOCK inum (sb false)) in *.
  destruct (sized_lookup s b Hs) as (d & Hd & Hdd); [unfold FSSIZE; lia|].
  set (d' := write_dinode d (dinode_off inum) di). assert (Hlen := proj1 Hdd).
  destruct (wsect_ok s b d' Hs) as [Hw Hs']; [unfold FSSIZE; lia|by apply write_dinode_data|].
  exists (stored s b d'). split.
  { unfold winode, mthen. fold b. rewrite (rsect_ok s b d) by (done || unfold FSSIZE; lia).
    rewrite host_dinode_little by done. exact Hw. }
  split_and!; try done.
  - intros c Hc Hc0. apply stored_lookup. lia.
  - exists d'. split; [|apply read_write_dinode; [done|]; rewrite Hlen; apply dinode_off_ok].
    fold b. apply list_lookup_insert_eq. rewrite (sz_len _ Hs). unfold FSSIZE. lia.
  - intros m di' Hm Hne (dm & Hdm & Er). destruct (IBLOCK_range m Hm) as [Em Hbm]. unfold dinode_at.
    destruct (decide (IBLOCK m (sb false) = b)) as [E|E].
    + rewrite E in *. rewrite Hd in Hdm. injection Hdm as <-. exists d'.
      split; [apply list_lookup_insert_eq; rewrite (sz_len _ Hs); unfold FSSIZE; lia|].
      unfold d'. rewrite read_write_other; [done|]. apply dinode_off_apart; lia.
    + exists dm. split; [|done]. rewrite stored_lookup by lia. done.
Qed.
Lemma rinode_ok s inum di :
  0 <= inum < inode_slots → dinode_ok di → dinode_at s inum di → rinode false inum s = Finished di s.
Proof.
  intros Hn Hdi (d & Hd & Er). destruct (IBLOCK_range inum Hn) as [_ Hb]. unfold rinode, mthen, mdone.
  rewrite (rsect_ok s _ d) by (done || unfold FSSIZE; lia). rewrite Er. by rewrite host_dinode_little.
Qed.

(** ** The file system *)

Definition free_dinode : dinode := Dinode 0 0 0 0 0 (replicate (NDIRECT + 1) 0).
Record fsys (s : mkfs) (nodes : list node) : Prop := {
  fs_layout : layout s nodes;
  fs_exact : Forall exact nodes;
  fs_types : Forall (λ nd, n_type nd = T_DIR ∨ n_type nd = T_FILE) nodes;
  fs_count : freeinode s = 1 + Z.of_nat (length nodes);
  fs_max : freeinode s <= NINODES;
  fs_inodes : ∀ i nd, nodes !! i = Some nd → dinode_at s (Z.of_nat (S i)) (node_dinode nd);
  fs_unused : ∀ inum, freeinode s <= inum < inode_slots → dinode_at s inum free_dinode;
  fs_super : image s !! 1%nat = Some (sb_block false);
  fs_log : ∀ b, 2 <= b < 2 + nlog → image s !! Z.to_nat b = Some zeroes
}.

(** Only blocks before the data blocks change. *)
Lemma layout_meta s s' nodes :
  layout s nodes → sized s' → freeblock s' = freeblock s →
  (∀ b, nmeta <= b → image s' !! Z.to_nat b = image s !! Z.to_nat b) → layout s' nodes.
Proof.
  intros [L1 L2 L2b L3 L4 L5 L6] Hs Hf Hi. assert (nmeta = 47) by done. split; rewrite ?Hf; try done.
  - apply Forall_lookup. intros i nd Hnd. apply (node_ok_frame (image s)).
    + intros b Hb. apply owned_elem with (i := i) (nodes := nodes) in Hb; [|done].
      eapply Forall_forall in L4; [|exact Hb]. simpl in L4. apply Hi; lia.
    + by apply (Forall_lookup_1 _ _ _ _ L5 Hnd).
  - intros b Hb. rewrite Hi by lia. by apply L6.
Qed.

Lemma node_dinode_ok s nodes i nd :
  layout s nodes → nodes !! i = Some nd → n_type nd = T_DIR ∨ n_type nd = T_FILE → dinode_ok (node_dinode nd).
Proof.
  intros L Hi Hty. assert (Hok := nd_ok s nodes i nd L Hi). assert (Hb := la_bound _ _ L). assert (nmeta = 47) by done.
  unfold FSSIZE in Hb. split; cbn [node_dinode d_type d_major d_minor d_nlink d_size d_addrs].
  - unfold T_DIR, T_FILE in Hty. lia.
  - lia.
  - lia.
  - lia.
  - assert (H1 := no_cap _ _ Hok). assert (H2 := no_max _ _ Hok). unfold NDIRECT, bsize in *. lia.
  - split; [unfold node_addrs; rewrite length_app, length_direct; done|].
    apply Forall_app. split.
    + apply Forall_take, Forall_app. split; [|apply Forall_replicate; lia].
      apply Forall_lookup. intros k b Hk. assert (Hr := nd_data_range s nodes i nd L Hi k b Hk). lia.
    + apply Forall_singleton. destruct (decide (n_ind nd = 0)) as [->|H0]; [lia|].
      assert (Hr := nd_ind_range s nodes i nd L Hi H0). lia.
Qed.

Lemma fs_slot s nodes i nd : fsys s nodes → nodes !! i = Some nd → 0 <= Z.of_nat (S i) < inode_slots ∧ Z.of_nat (S i) < freeinode s.
Proof.
  intros F Hi. apply lookup_lt_Some in Hi. pose proof (fs_count _ _ F). pose proof (fs_max _ _ F).
  change inode_slots with 208. unfold NINODES in *. lia.
Qed.

Lemma new_dinode_ok type : type = T_DIR ∨ type = T_FILE → dinode_ok (Dinode type 0 0 1 0 (replicate (NDIRECT + 1) 0)).
Proof.
  intros H. split; cbn [d_type d_major d_minor d_nlink d_size d_addrs]; try lia; [unfold T_DIR, T_FILE in *; lia|].
  split; [done|]. apply Forall_replicate. lia.
Qed.
Lemma layout_new s nodes type :
  layout s nodes → layout s (nodes ++ [Node type [] [] 0]).
Proof.
  intros [L1 L2 L2b L3 L4 L5 L6].
  assert (E : owned (nodes ++ [Node type [] [] 0]) = owned nodes).
  { unfold owned. rewrite fmap_app, join_app. cbn. by rewrite app_nil_r. }
  split; rewrite ?E; try done. apply Forall_app. split; [done|]. apply Forall_singleton.
  split; cbn [n_content n_data n_ind]; try done; simpl; lia.
Qed.

Lemma ialloc_ok s nodes type :
  fsys s nodes → freeinode s < NINODES → type = T_DIR ∨ type = T_FILE →
  ∃ s', ialloc false type s = Finished (freeinode s) s' ∧ fsys s' (nodes ++ [Node type [] [] 0]).
Proof.
  intros F Hn Hty. destruct F as [F1 F2 F3 F4 F5 F6 F7 F8 F9]. set (inum := freeinode s) in *. unfold NINODES in *.
  set (s1 := Mkfs (image s) (inum + 1) (freeblock s)).
  assert (Hs1 : sized s1) by (destruct (la_sized _ _ F1); by split).
  destruct (winode_ok s1 inum (Dinode type 0 0 1 0 (replicate (NDIRECT + 1) 0)) Hs1)
    as (s2 & E2 & S2 & Ei & Ef & Hother & Hat & Hkeep); [change inode_slots with 208; lia|by apply new_dinode_ok|].
  exists s2. split.
  - unfold ialloc, mthen, mdone, next_inode. fold inum. rewrite u32_small by lia. fold s1.
    rewrite !xshort_little, xint_little. change (i16 (u16 1)) with 1. change (u32 0) with 0.
    rewrite i16_u16 by (unfold T_DIR, T_FILE in *; lia). by rewrite E2.
  - split; rewrite ?Ei; cbn [freeinode s1].
    + apply (layout_meta s); [by apply layout_new|done|done|]. intros b Hb. assert (nmeta = 47) by done. apply Hother; lia.
    + apply Forall_app. split; [done|]. apply Forall_singleton. split; [done|]. split; [done|]. unfold NDIRECT. simpl. lia.
    + apply Forall_app. split; [done|]. by apply Forall_singleton.
    + rewrite length_app. simpl. lia.
    + unfold NINODES. lia.
    + intros i nd [Hi|[Hi Hnd]]%lookup_app_Some.
      * apply Hkeep; [change inode_slots with 208; apply lookup_lt_Some in Hi; lia|apply lookup_lt_Some in Hi; lia|by apply F6].
      * apply list_lookup_singleton_Some in Hnd as [Hi' <-]. replace (Z.of_nat (S i)) with inum by lia. exact Hat.
    + intros m Hm. apply Hkeep; [lia|lia|]. apply F7. lia.
    + change 1%nat with (Z.to_nat 1) in *. rewrite Hother by lia. done.
    + intros b Hb. change (2 + nlog) with 33 in *. rewrite Hother by lia. by apply F9.
Qed.

Lemma iappend_ok s nodes i nd p :
  fsys s nodes → nodes !! i = Some nd → Forall byte p →
  (length (n_content nd) + length p <= bsize * (NDIRECT + 256))%nat →
  freeblock s + Z.of_nat (need (blocks (length (n_content nd) + length p)))
    - Z.of_nat (need (blocks (length (n_content nd)))) <= FSSIZE →
  ∃ s' nd', iappend false (Z.of_nat (S i)) p s = Finished tt s' ∧ fsys s' (<[i := nd']> nodes) ∧
    n_type nd' = n_type nd ∧ n_content nd' = n_content nd ++ p.
Proof.
  intros F Hi Hp Hmax Hf. destruct (fs_slot _ _ _ _ F Hi) as [Hslot Hlt]. destruct F as [F1 F2 F3 F4 F5 F6 F7 F8 F9].
  assert (Hty := Forall_lookup_1 _ _ _ _ F3 Hi). assert (He := Forall_lookup_1 _ _ _ _ F2 Hi). cbn beta in Hty.
  assert (Hdi := node_dinode_ok s nodes i nd F1 Hi Hty).
  destruct (iappend_loop_ok (S (length p)) s nodes i nd (node_dinode nd) p F1 Hi)
    as (s1 & nd' & E1 & L1 & Ety & Eco & He' & Hfi & Hlow); [done..|lia|done|done|].
  assert (Hdi' : dinode_ok (node_dinode nd')).
  { eapply node_dinode_ok; [exact L1|apply list_lookup_insert_eq; by eapply lookup_lt_Some|]. by rewrite Ety. }
  destruct (winode_ok s1 (Z.of_nat (S i)) (node_dinode nd') (la_sized _ _ L1)) as (s2 & E2 & S2 & Ei & Ef & Hother & Hat & Hkeep);
    [done|done|]. assert (Hlow' : ∀ m di, 0 <= m < inode_slots → dinode_at s m di → dinode_at s1 m di).
  { intros m di Hm (d & Hd & Er). exists d. split; [|done]. rewrite Hlow; [done|].
    destruct (IBLOCK_range m Hm). assert (nmeta = 47) by done. lia. }
  exists s2, nd'. split_and!; try done.
  - unfold iappend, mthen. rewrite (rinode_ok s _ (node_dinode nd)) by auto.
    destruct (do_size _ Hdi) as [Hsz1 Hsz2]. rewrite xint_little, u32_small by done. cbn [d_size node_dinode] in *.
    rewrite E1. cbv zeta. rewrite xint_little, u32_small by apply (do_size _ Hdi').
    change (set_size _ _) with (Dinode (n_type nd) 0 0 1 (Z.of_nat (length (n_content nd'))) (node_addrs nd')).
    rewrite <- Ety. exact E2.
  - split; rewrite ?length_insert; rewrite ?Ei, ?Hfi.
    + apply (layout_meta s1); [done..|]. intros b Hb. assert (nmeta = 47) by done. apply Hother; lia.
    + by apply Forall_insert.
    + apply Forall_insert; [done|]. by rewrite Ety.
    + done.
    + done.
    + intros j x [(-> & -> & _)|[Hne Hj]]%list_lookup_insert_Some; [done|].
      apply Hkeep; [|lia|]; apply lookup_lt_Some in Hj as Hj'; unfold NINODES in *; change inode_slots with 208 in *; [lia|].
      apply Hlow'; [lia|by apply F6].
    + intros m Hm. apply Hkeep; [lia|lia|]. apply Hlow'; [lia|by apply F7].
    + change 1%nat with (Z.to_nat 1) in *. assert (nmeta = 47) by done. rewrite Hother, Hlow by lia. done.
    + intros b Hb. change (2 + nlog) with 33 in *. assert (nmeta = 47) by done. rewrite Hother, Hlow by lia. by apply F9.
Qed.
