(* ===== verification/MkfsImage.v ===== *)
(** mkfs/mkfs.c: the image that main() builds, as the kernel finds it. *)
From S2P Require Import Prelude Pstat Kernel Spinlock Sched Cstring Riscv Kalloc Vm ProcMem Sleeplock Uart Bio Log.
From S2P Require Import ProcStat Cache Crash Fs Tx FsBlock FsInode Mkfs MkfsFiles.

(** ** Names and entries *)

Definition padded_name (name : list Z) : list Z := name ++ replicate (DIRSIZ - length name) 0.
Lemma strncpy_arr_name name :
  Forall (λ c, 0 < c < 256) name → (length name <= DIRSIZ)%nat → strncpy_arr name DIRSIZ = padded_name name.
Proof.
  intros Hb Hl. unfold strncpy_arr, strncpy, padded_name. rewrite Nat2Z.id. unfold DIRSIZ in *.
  set (m := write_bytes _ _ _).
  assert (Hin : ∀ i c, name !! i = Some c → m (4096 + Z.of_nat i) = c ∧ c ≠ 0).
  { intros i c Hc. assert (Hr := Forall_lookup_1 _ _ _ _ Hb Hc). cbn in Hr. unfold m.
    rewrite (write_bytes_lookup _ _ _ _ _ Hc), u8_small by lia. lia. }
  assert (Hnz : ∀ j, 0 <= j < Z.of_nat (length name) → m (4096 + j) ≠ 0).
  { intros j Hj. destruct (lookup_lt_is_Some_2 name (Z.to_nat j)) as [c Hc]; [lia|].
    destruct (Hin _ _ Hc) as [E E']. rewrite Z2Nat.id in E by lia. congruence. }
  assert (Hout : m (4096 + Z.of_nat (length name)) = 0) by (unfold m; rewrite write_bytes_frame by lia; done).
  apply list_eq. intros i. destruct (decide (i < 14)%nat) as [Hi|Hi].
  - rewrite read_bytes_lookup by done. destruct (decide (i < length name)%nat) as [Hlt|Hge].
    + destruct (lookup_lt_is_Some_2 _ _ Hlt) as [c Hc]. rewrite lookup_app_l, Hc by done. f_equal.
      rewrite strncpy_copies by (lia || (intros j Hj; apply Hnz; lia)).
      destruct (Hin _ _ Hc) as [-> _]. assert (Hr := Forall_lookup_1 _ _ _ _ Hb Hc). cbn in Hr. apply u8_small. lia.
    + rewrite lookup_app_r, lookup_replicate_2 by lia. f_equal. destruct (decide (i = length name)) as [->|Hne].
      * rewrite strncpy_copies by (lia || (intros j Hj; apply Hnz; lia)).
        by rewrite Hout.
      * apply (strncpy_pads _ _ _ _ _ (Z.of_nat (length name))); lia.
  - rewrite (lookup_ge_None_2 (read_bytes _ _ _)) by (rewrite length_read_bytes; lia).
    rewrite lookup_ge_None_2 by (rewrite length_app, length_replicate; lia). done.
Qed.

(** An entry as the kernel reads it. *)
Definition entry (inum : Z) (name : list Z) : list Z := le 2 inum ++ padded_name name.
Lemma new_entry_ok inum name :
  0 <= inum < 2 ^ 16 → Forall (λ c, 0 < c < 256) name → (length name <= DIRSIZ)%nat →
  new_entry false inum name = entry inum name.
Proof.
  intros Hi Hb Hl. unfold new_entry, dirent, entry. rewrite strncpy_arr_name by done.
  rewrite !xshort_little. assert (E : u16 inum = inum) by (unfold u16; by rewrite Z.mod_small). by rewrite !E.
Qed.
Lemma dot_entry_ok name : name = chars "." ∨ name = chars ".." → dot_entry false 1 name = entry 1 name.
Proof. by intros [->| ->]. Qed.
Lemma entry_bytes inum name : Forall (λ c, 0 < c < 256) name → Forall byte (entry inum name).
Proof.
  intros Hb. unfold entry, padded_name. rewrite !Forall_app. split_and!.
  - cbn [le]. repeat constructor; apply Z.mod_pos_bound; lia.
  - eapply Forall_impl; [exact Hb|]. unfold byte. simpl. lia.
  - apply Forall_replicate. unfold byte. lia.
Qed.
Lemma length_entry inum name : (length name <= DIRSIZ)%nat → length (entry inum name) = 16%nat.
Proof. intros H. unfold entry, padded_name. rewrite !length_app, length_replicate. cbn [le length]. unfold DIRSIZ in *. lia. Qed.

(** ** Files by their contents *)

Definition view (nd : node) : Z * list Z := (n_type nd, n_content nd).
Definition files (s : mkfs) (l : list (Z * list Z)) : Prop := ∃ nodes, fsys s nodes ∧ view <$> nodes = l.
Definition cost (f : Z * list Z) : nat := need (blocks (length f.2)).
Definition used (l : list (Z * list Z)) : Z := nmeta + Z.of_nat (sum_list_with cost l).

Lemma fsys_free s nodes : fsys s nodes → freeblock s = used (view <$> nodes).
Proof.
  intros F. rewrite (la_free _ _ (fs_layout _ _ F)). unfold used, owned. do 2 f_equal.
  assert (Hx := fs_exact _ _ F). clear F. induction Hx as [|nd nodes' He _ IH]; [done|]. cbn. rewrite length_app, (exact_blocks nd He).
  unfold cost at 1. cbn. f_equal. exact IH.
Qed.
Lemma files_inum s l : files s l → freeinode s = 1 + Z.of_nat (length l).
Proof. intros (nodes & F & <-). rewrite (fs_count _ _ F). by rewrite length_fmap. Qed.

Lemma ialloc_files s l type :
  files s l → 1 + Z.of_nat (length l) < NINODES → type = T_DIR ∨ type = T_FILE →
  ∃ s', ialloc false type s = Finished (1 + Z.of_nat (length l)) s' ∧ files s' (l ++ [(type, [])]).
Proof.
  intros Hf Hn Hty. assert (Ei := files_inum _ _ Hf). destruct Hf as (nodes & F & <-).
  destruct (ialloc_ok s nodes type F) as (s' & E & F'); [by rewrite Ei|done|]. exists s'. split; [by rewrite E, Ei|].
  eexists. split; [exact F'|]. by rewrite fmap_app.
Qed.
Lemma sum_insert l i f f' :
  l !! i = Some f → (sum_list_with cost (<[i := f']> l) + cost f = sum_list_with cost l + cost f')%nat.
Proof.
  revert i. induction l as [|g l IH]; intros i Hi; [done|]. destruct i as [|i]; simpl in *.
  - injection Hi as ->. lia.
  - specialize (IH i Hi). lia.
Qed.
Lemma iappend_files s l i type c p :
  files s l → l !! i = Some (type, c) → Forall byte p → (length (c ++ p) <= bsize * (NDIRECT + 256))%nat →
  used (<[i := (type, c ++ p)]> l) <= FSSIZE →
  ∃ s', iappend false (Z.of_nat (S i)) p s = Finished tt s' ∧ files s' (<[i := (type, c ++ p)]> l).
Proof.
  intros (nodes & F & <-) Hi Hp Hmax Hu. rewrite list_lookup_fmap in Hi.
  destruct (nodes !! i) as [nd|] eqn:End; [|done]. injection Hi as <- <-. rewrite length_app in Hmax.
  assert (Hs := sum_insert (view <$> nodes) i (view nd) (n_type nd, n_content nd ++ p)).
  rewrite list_lookup_fmap, End in Hs. specialize (Hs eq_refl). unfold used in Hu.
  destruct (iappend_ok s nodes i nd p F End Hp Hmax) as (s' & nd' & E & F' & Ety & Eco).
  { rewrite (fsys_free _ _ F). unfold used.
    change (cost (view nd)) with (need (blocks (length (n_content nd)))) in Hs.
    change (cost (n_type nd, n_content nd ++ p)) with (need (blocks (length (n_content nd ++ p)))) in Hs.
    rewrite length_app in Hs. lia. }
  exists s'. split; [done|]. exists (<[i := nd']> nodes). split; [done|]. rewrite list_fmap_insert. unfold view at 1.
  by rewrite Ety, Eco.
Qed.

Lemma cost_mono type c p : (cost (type, c) <= cost (type, c ++ p))%nat.
Proof. unfold cost. cbn [snd]. apply need_mono, blocks_mono. rewrite length_app. lia. Qed.
Lemma used_mono l i type c p :
  l !! i = Some (type, c) → used l <= used (<[i := (type, c ++ p)]> l).
Proof.
  intros Hi. pose proof (sum_insert l i (type, c) (type, c ++ p) Hi). pose proof (cost_mono type c p). unfold used. lia.
Qed.
Lemma used_app l l' : used l <= used (l ++ l').
Proof. unfold used. rewrite sum_list_with_app. lia. Qed.

(** Reading a file in pieces. *)
Lemma reads_ok reads s l i type c :
  files s l → l !! i = Some (type, c) → Forall (Forall byte) reads →
  (length (c ++ mjoin reads) <= bsize * (NDIRECT + 256))%nat → used (<[i := (type, c ++ mjoin reads)]> l) <= FSSIZE →
  ∃ s', mfor reads (iappend false (Z.of_nat (S i))) s = Finished tt s' ∧ files s' (<[i := (type, c ++ mjoin reads)]> l).
Proof.
  intros Hf Hi Hr. revert s l c Hf Hi. induction Hr as [|p reads Hp Hr IH]; intros s l c Hf Hi Hmax Hu.
  - exists s. cbn. rewrite app_nil_r, list_insert_id by done. done.
  - change (mjoin (p :: reads)) with (p ++ mjoin reads) in *. rewrite app_assoc in *.
    destruct (iappend_files s l i type c p) as (s1 & E1 & F1); [done..| | |].
    + rewrite !length_app in *. lia.
    + etrans; [|exact Hu]. rewrite <- (list_insert_insert_eq l i (type, (c ++ p) ++ mjoin reads) (type, c ++ p)). apply used_mono.
      apply list_lookup_insert_eq. by eapply lookup_lt_Some.
    + destruct (IH s1 (<[i := (type, c ++ p)]> l) (c ++ p)) as (s2 & E2 & F2); [done| |done|by rewrite list_insert_insert_eq|].
      { apply list_lookup_insert_eq. by eapply lookup_lt_Some. }
      rewrite list_insert_insert_eq in F2. exists s2. split; [|done]. cbn [mfor]. unfold mthen. by rewrite E1.
Qed.

(** ** The arguments *)

Definition short_name (arg : list Z) : list Z := no_underscore (no_user arg).
Definition arg_ok (arg : list Z) : bool :=
  negb (bool_decide (47 ∈ no_user arg)) && (length (short_name arg) <=? DIRSIZ)%nat
  && forallb (λ c, (0 <? c) && (c <? 256)) arg.
Notation input := (list Z * list (list Z))%type.
Definition input_ok (f : input) : Prop :=
  arg_ok f.1 = true ∧ Forall (Forall byte) f.2 ∧ (length (mjoin f.2) <= bsize * (NDIRECT + 256))%nat.
Definition to_arg (f : input) : list Z * option (list (list Z)) := (f.1, Some f.2).
Definition to_file (f : input) : Z * list Z := (T_FILE, mjoin f.2).
(** The entries of the files, whose inodes are numbered from [inum]. *)
Fixpoint entries_from (inum : Z) (l : list input) : list Z :=
  match l with
  | [] => []
  | f :: l => entry inum (short_name f.1) ++ entries_from (inum + 1) l
  end.

Lemma arg_ok_inv arg : arg_ok arg = true →
  47 ∉ no_user arg ∧ (length (short_name arg) <= DIRSIZ)%nat ∧ Forall (λ c, 0 < c < 256) (short_name arg).
Proof.
  unfold arg_ok. intros [[H1 H2]%andb_true_iff H3]%andb_true_iff. split_and!.
  - apply negb_true_iff, bool_decide_eq_false in H1. done.
  - by apply Nat.leb_le.
  - assert (Ha : Forall (λ c, 0 < c < 256) arg).
    { apply Forall_forall. intros c Hc. rewrite forallb_forall in H3. apply list_elem_of_In, H3 in Hc. blia. }
    unfold short_name, no_underscore, no_user. repeat case_bool_decide; repeat apply Forall_drop; done.
Qed.
Lemma length_entries_from inum l : Forall input_ok l → length (entries_from inum l) = (16 * length l)%nat.
Proof.
  intros H. revert inum. induction H as [|f l [Hf _] _ IH]; intros inum; [done|]. cbn [entries_from length].
  destruct (arg_ok_inv _ Hf) as (_ & Hl & _). rewrite length_app, IH, length_entry by done. lia.
Qed.

Lemma add_file_ok f s root l :
  files s ((T_DIR, root) :: l) → input_ok f → 2 + Z.of_nat (length l) < NINODES →
  let e := entry (2 + Z.of_nat (length l)) (short_name f.1) in
  (length (root ++ e) <= bsize * (NDIRECT + 256))%nat →
  used ((T_DIR, root ++ e) :: l ++ [to_file f]) <= FSSIZE →
  ∃ s', add_file false 1 (to_arg f) s = Finished tt s' ∧ files s' ((T_DIR, root ++ e) :: l ++ [to_file f]).
Proof.
  intros Hf (Harg & Hr & Hlen) Hn e Hroot Hu. destruct f as [arg reads].
  change (to_file (arg, reads)) with (T_FILE, mjoin reads) in *. cbn [fst snd] in *.
  destruct (arg_ok_inv _ Harg) as (Hslash & Hname & Hchars). set (inum := 2 + Z.of_nat (length l)) in *.
  destruct (ialloc_files s _ T_FILE Hf) as (s1 & E1 & F1); [cbn [length]; lia|by right|].
  replace (1 + Z.of_nat (length ((T_DIR, root) :: l))) with inum in E1 by (cbn [length]; lia).
  set (l2 := (T_DIR, root ++ e) :: l ++ [(T_FILE, [])]).
  assert (Hl2 : l2 !! S (length l) = Some (T_FILE, [])) by (unfold l2; cbn [lookup list_lookup]; by apply list_lookup_middle).
  assert (El2 : ∀ c, <[S (length l) := (T_FILE, c)]> l2 = (T_DIR, root ++ e) :: l ++ [(T_FILE, c)]).
  { intros c. change ((T_DIR, root ++ e) :: <[length l := (T_FILE, c)]> (l ++ [(T_FILE, [])]) = (T_DIR, root ++ e) :: l ++ [(T_FILE, c)]).
    f_equal. rewrite insert_app_r_alt, Nat.sub_diag by lia. done. }
  destruct (iappend_files s1 _ 0 T_DIR root e F1) as (s2 & E2 & F2); [done|by apply entry_bytes|done| |].
  { change (used l2 <= FSSIZE). etrans; [|exact Hu]. rewrite <- (El2 (mjoin reads)). apply (used_mono l2 _ _ [] (mjoin reads) Hl2). }
  change (files s2 l2) in F2.
  destruct (reads_ok reads s2 l2 (S (length l)) T_FILE [] F2 Hl2 Hr) as (s3 & E3 & F3); [done|by rewrite El2|].
  rewrite El2 in F3. exists s3. split; [|done]. unfold add_file, to_arg, massert. cbn [fst snd]. cbv zeta.
  fold (short_name arg).
  rewrite bool_decide_false, (proj2 (Nat.leb_le _ _)) by done. cbn [negb]. unfold mthen, mdone. rewrite E1.
  rewrite new_entry_ok by (done || unfold NINODES in *; lia). change (iappend false 1) with (iappend false (Z.of_nat 1)).
  fold e. rewrite E2.
  replace inum with (Z.of_nat (S (S (length l)))) by lia. exact E3.
Qed.

Lemma add_files_ok fs s root l :
  files s ((T_DIR, root) :: l) → Forall input_ok fs → 1 + Z.of_nat (length l + length fs) < NINODES →
  let e := entries_from (2 + Z.of_nat (length l)) fs in
  (length (root ++ e) <= bsize * (NDIRECT + 256))%nat →
  used ((T_DIR, root ++ e) :: l ++ (to_file <$> fs)) <= FSSIZE →
  ∃ s', mfor (to_arg <$> fs) (add_file false 1) s = Finished tt s' ∧
    files s' ((T_DIR, root ++ e) :: l ++ (to_file <$> fs)).
Proof.
  intros Hf Hok. revert s root l Hf. induction Hok as [|f fs Hf Hok IH]; intros s root l F Hn e Hroot Hu; subst e.
  { exists s. cbn [entries_from fmap list_fmap] in *. by rewrite !app_nil_r in *. }
  cbn [entries_from] in *. set (e1 := entry (2 + Z.of_nat (length l)) (short_name f.1)) in *.
  change (to_file <$> f :: fs) with ([to_file f] ++ (to_file <$> fs)) in *.
  rewrite (app_assoc root) in Hroot, Hu |- *. rewrite (app_assoc l) in Hu |- *.
  replace (2 + Z.of_nat (length l) + 1) with (2 + Z.of_nat (length (l ++ [to_file f]))) in * by (rewrite length_app; simpl; lia).
  destruct (add_file_ok f s root l F Hf) as (s1 & E1 & F1); [cbn [length] in Hn; lia| | |].
  - rewrite length_app in Hroot. fold e1. lia.
  - etrans; [|exact Hu]. fold e1. etrans; [apply (used_app _ (to_file <$> fs))|].
    apply (used_mono ((T_DIR, root ++ e1) :: (l ++ [to_file f]) ++ (to_file <$> fs)) 0). done.
  - fold e1 in F1. destruct (IH s1 (root ++ e1) (l ++ [to_file f]) F1) as (s2 & E2 & F2);
      [rewrite length_app; cbn [length] in *; lia|exact Hroot|exact Hu|].
    exists s2. split; [|done]. change (to_arg <$> f :: fs) with (to_arg f :: (to_arg <$> fs)). cbn [mfor]. unfold mthen. by rewrite E1.
Qed.

(** ** The first and the last steps *)

Lemma zero_image k n fi fb :
  (k + n <= Z.to_nat FSSIZE)%nat →
  mfor (Z.of_nat <$> seq k n) (λ i, wsect i zeroes) (Mkfs (replicate k zeroes) fi fb) =
  Finished tt (Mkfs (replicate (k + n) zeroes) fi fb).
Proof.
  revert k. induction n as [|n IH]; intros k Hk; [by rewrite Nat.add_0_r|].
  cbn [seq fmap list_fmap mfor]. unfold mthen, wsect at 1. rewrite sector_small by lia. rewrite Nat2Z.id.
  cbv zeta. cbn [image freeinode freeblock]. rewrite length_replicate.
  replace (S k - k)%nat with 1%nat by lia. replace (replicate k zeroes ++ replicate 1 zeroes) with (replicate (S k) zeroes)
    by (by rewrite <- replicate_add, Nat.add_1_r).
  rewrite list_insert_id by (apply lookup_replicate_2; lia). rewrite IH by lia. do 3 f_equal. lia.
Qed.

Lemma zeroes_lookup k : default 0 (zeroes !! k) = 0.
Proof.
  unfold zeroes. destruct (decide (k < Z.to_nat BSIZE)%nat); [by rewrite lookup_replicate_2|].
  by rewrite lookup_ge_None_2 by (rewrite length_replicate; lia).
Qed.
Lemma read_zeroes off : read_dinode zeroes off = free_dinode.
Proof.
  assert (E2 : ∀ o, get16 zeroes o = 0) by (intros o; unfold get16; by rewrite !zeroes_lookup).
  assert (E4 : ∀ o, get32 zeroes o = 0) by (intros o; unfold get32; by rewrite !zeroes_lookup).
  unfold read_dinode. rewrite !E2, E4. f_equal. apply list_eq. intros i. rewrite list_lookup_fmap.
  destruct (decide (i < NDIRECT + 1)%nat) as [Hi|Hi].
  - rewrite (proj2 (lookup_seq 0 (NDIRECT + 1) i i)), lookup_replicate_2 by lia. cbn [fmap option_fmap option_map]. by rewrite E4.
  - rewrite (lookup_ge_None_2 (seq _ _)), (lookup_ge_None_2 (replicate _ _)) by (rewrite ?length_seq, ?length_replicate; lia).
    done.
Qed.

Definition blank_image : mkfs := Mkfs (<[1%nat := sb_block false]> (replicate (Z.to_nat FSSIZE) zeroes)) 1 nmeta.
Lemma blank_lookup b : 0 <= b < FSSIZE → b ≠ 1 → image blank_image !! Z.to_nat b = Some zeroes.
Proof.
  intros Hb Hne. unfold blank_image. cbn [image]. rewrite list_lookup_insert_ne by lia. apply lookup_replicate_2. lia.
Qed.
Lemma sb_block_data : is_block_data (sb_block false).
Proof. apply put_words_data, zeroes_data. Qed.
Lemma blank_sized : sized blank_image.
Proof.
  split; cbn [blank_image image]; [by rewrite length_insert, length_replicate|].
  apply Forall_insert; [apply Forall_replicate, zeroes_data|apply sb_block_data].
Qed.
Lemma blank_files : files blank_image [].
Proof.
  exists []. split; [|done]. assert (Hm : nmeta = 47) by done. split.
  - split; [apply blank_sized|done|done|constructor|constructor|constructor|].
    intros b Hb. cbn [blank_image freeblock] in Hb. apply blank_lookup; lia.
  - constructor.
  - constructor.
  - done.
  - done.
  - intros i nd Hi. by rewrite lookup_nil in Hi.
  - intros inum Hi. cbn [blank_image freeinode] in Hi. destruct (IBLOCK_range inum) as [_ Hb]; [lia|].
    exists zeroes. split; [apply blank_lookup; unfold FSSIZE; lia|apply read_zeroes].
  - cbn [blank_image image]. apply list_lookup_insert_eq. rewrite length_replicate. unfold FSSIZE. lia.
  - intros b Hb. change (2 + nlog) with 33 in Hb. apply blank_lookup; unfold FSSIZE; lia.
Qed.

(** ** What the kernel finds *)

(** The super block, a block, an inode and the blocks of a file, as the code of kernel/fs.c
    decodes them: bmap() takes the first addresses from the inode and the others from the
    indirect block; an address 0 stands for a block that it would allocate, of zeroes. *)
Definition kernel_sb : superblock :=
  Superblock FSMAGIC FSSIZE nblocks NINODES nlog 2 (2 + nlog) (2 + nlog + ninodeblocks).
Definition block (img : list (list Z)) (b : Z) : list Z := default [] (img !! Z.to_nat b).
Definition inode_of (img : list (list Z)) (inum : Z) : dinode :=
  read_dinode (block img (IBLOCK inum kernel_sb)) (dinode_off inum).
Definition block_addr (img : list (list Z)) (di : dinode) (k : nat) : Z :=
  if (k <? NDIRECT)%nat then default 0 (d_addrs di !! k)
  else
    let a := default 0 (d_addrs di !! NDIRECT) in
    if a =? 0 then 0 else get32 (block img a) (4 * (k - NDIRECT)).
Definition block_bytes (img : list (list Z)) (di : dinode) (k : nat) : list Z :=
  let a := block_addr img di k in if a =? 0 then zeroes else block img a.
Definition file_bytes (img : list (list Z)) (di : dinode) : list Z :=
  take (Z.to_nat (d_size di)) (mjoin (block_bytes img di <$> seq 0 (blocks (Z.to_nat (d_size di))))).

Lemma node_block_addr img nd di k :
  node_ok img nd → d_addrs di = node_addrs nd → (k < NDIRECT + 256)%nat →
  block_addr img di k = default 0 (n_data nd !! k).
Proof.
  intros Hok Ha Hk. unfold block_addr. rewrite Ha. destruct (Nat.ltb_spec k NDIRECT) as [Hd|Hd].
  - by apply node_addrs_direct.
  - rewrite node_addrs_indirect. destruct (Z.eqb_spec (n_ind nd) 0) as [E0|E0].
    + rewrite lookup_ge_None_2; [done|]. assert (H := no_direct _ _ Hok E0). lia.
    + destruct (no_indirect _ _ Hok E0) as (_ & d & Hdd & Hget). unfold block. rewrite Hdd. cbn [from_option id].
      rewrite Hget by lia. do 2 f_equal. lia.
Qed.
Lemma node_block_bytes img nd di k :
  node_ok img nd → Forall (λ b, b ≠ 0) (n_data nd) → d_addrs di = node_addrs nd → (k < NDIRECT + 256)%nat →
  block_bytes img di k = block_of (n_content nd) k.
Proof.
  intros Hok Hnz Ha Hk. unfold block_bytes. rewrite (node_block_addr img nd) by done.
  destruct (n_data nd !! k) as [b|] eqn:E; cbn [from_option id].
  - assert (Hb := Forall_lookup_1 _ _ _ _ Hnz E). cbn in Hb. rewrite (proj2 (Z.eqb_neq _ _) Hb).
    unfold block. by rewrite (no_data _ _ Hok _ _ E).
  - rewrite Z.eqb_refl. symmetry. apply block_of_end. apply lookup_ge_None in E.
    etrans; [apply (no_cap _ _ Hok)|]. by apply Nat.mul_le_mono_l.
Qed.

(** The blocks of a file, one after the other, are its contents and zeroes. *)
Lemma blocks_join content m :
  (length content <= bsize * m)%nat →
  mjoin (block_of content <$> seq 0 m) = content ++ replicate (bsize * m - length content) 0.
Proof.
  revert content. induction m as [|m IH]; intros content Hl.
  { rewrite Nat.mul_0_r in *. destruct content; [done|simpl in Hl; lia]. }
  assert (E : block_of content <$> seq 0 (S m) = block_of content 0 :: (block_of (drop bsize content) <$> seq 0 m)).
  { change (seq 0 (S m)) with (0%nat :: seq 1 m). rewrite fmap_cons, <- fmap_S_seq, <- list_fmap_compose. f_equal.
    apply list_fmap_ext. intros j k _. unfold compose, block_of. rewrite drop_drop. do 3 f_equal. lia. }
  rewrite E. change (mjoin (?a :: ?b)) with (a ++ mjoin b). rewrite IH by (rewrite length_drop; lia).
  assert (Ez : zeroes = replicate bsize 0) by reflexivity.
  unfold block_of. rewrite Nat.mul_0_r, drop_0, length_drop. destruct (decide (length content <= bsize)%nat) as [Hc|Hc].
  - rewrite drop_ge, take_app_ge by done. rewrite <- app_assoc. f_equal. rewrite Ez, take_replicate. cbn [app].
    rewrite <- replicate_add. f_equal. lia.
  - rewrite take_app_le by lia. rewrite app_assoc, take_drop. do 2 f_equal. lia.
Qed.
Lemma node_file_bytes img nd di sz :
  node_ok img nd → Forall (λ b, b ≠ 0) (n_data nd) → d_addrs di = node_addrs nd → d_size di = Z.of_nat sz →
  (length (n_content nd) <= sz)%nat → (blocks sz <= NDIRECT + 256)%nat →
  file_bytes img di = n_content nd ++ replicate (sz - length (n_content nd)) 0.
Proof.
  intros Hok Hnz Ha Hsz Hlen Hmax. unfold file_bytes. rewrite Hsz, Nat2Z.id.
  assert (E : block_bytes img di <$> seq 0 (blocks sz) = block_of (n_content nd) <$> seq 0 (blocks sz)).
  { apply list_fmap_ext. intros i k Hk. apply lookup_seq in Hk as [-> Hk]. apply node_block_bytes; [done..|]. lia. }
  assert (Hb : (sz <= bsize * blocks sz)%nat).
  { unfold blocks, bsize. pose proof (Nat.div_mod (sz + 1023) 1024 ltac:(done)).
    pose proof (Nat.mod_upper_bound (sz + 1023) 1024 ltac:(done)). lia. }
  rewrite E, blocks_join by lia. rewrite take_app_ge by done. f_equal. rewrite take_replicate. f_equal. lia.
Qed.

(** The bitmap of the first blocks. *)
Lemma bitmap_ok n :
  Z.of_nat n <= BPB → let d := foldl bit_set zeroes (Z.of_nat <$> seq 0 n) in
  is_block_data d ∧ ∀ b, 0 <= b → bit_free d b = negb (b <? Z.of_nat n).
Proof.
  intros Hn. induction n as [|n IH]; cbv zeta.
  - split; [apply zeroes_data|]. intros b Hb. cbn [seq fmap list_fmap foldl]. unfold bit_free, bit_byte.
    rewrite zeroes_lookup, Z.land_0_l. symmetry. apply negb_true_iff, Z.ltb_ge. lia.
  - rewrite seq_S, fmap_app, foldl_app. cbn [fmap list_fmap foldl]. destruct IH as [Hd Hb]; [lia|].
    destruct (bit_set_ok (foldl bit_set zeroes (Z.of_nat <$> seq 0 n)) (Z.of_nat n) Hd) as [Hd' Hb'];
      [lia|].
    split; [done|]. intros b Hb0. rewrite Hb', Hb by done.
    destruct (Z.ltb_spec b (Z.of_nat n)), (Z.ltb_spec b (Z.of_nat (S n))), (Z.eqb_spec b (Z.of_nat n)); cbn; lia || done.
Qed.

(** ** The whole image *)

Definition root_entries (l : list input) : list Z :=
  (entry 1 (chars ".") ++ entry 1 (chars "..")) ++ entries_from 2 l.
Definition all_files (l : list input) : list (Z * list Z) := (T_DIR, root_entries l) :: (to_file <$> l).
(** What fits: the inodes of the super block, and the blocks of the image. *)
Definition fits (l : list input) : Prop := Z.of_nat (length l) + 2 <= NINODES ∧ used (all_files l) <= FSSIZE.
(** The size that the root directory is given. *)
Definition root_size (l : list input) : nat := (bsize * S (length (root_entries l) / bsize))%nat.

Record image_ok (img : list (list Z)) (l : list input) : Prop := {
  io_length : length img = Z.to_nat FSSIZE;
  io_super : read_superblock (block img 1) = kernel_sb;
  (** no transaction to be recovered *)
  io_log : get32 (block img 2) 0 = 0;
  io_root : d_type (inode_of img ROOTINO) = T_DIR ∧ d_nlink (inode_of img ROOTINO) = 1 ∧
    file_bytes img (inode_of img ROOTINO) =
      root_entries l ++ replicate (root_size l - length (root_entries l)) 0;
  io_files : ∀ i f, l !! i = Some f →
    let di := inode_of img (2 + Z.of_nat i) in
    d_type di = T_FILE ∧ d_nlink di = 1 ∧ d_size di = Z.of_nat (length (mjoin f.2)) ∧ file_bytes img di = mjoin f.2;
  io_free_inodes : ∀ inum, 2 + Z.of_nat (length l) <= inum < NINODES → d_type (inode_of img inum) = 0;
  io_bitmap : ∀ b, 0 <= b < FSSIZE →
    bit_free (block img (BBLOCK b kernel_sb)) (b mod BPB) = negb (b <? used (all_files l));
  (** every block in use is marked as such, and no block is in two files *)
  io_blocks : ∀ i k, (i <= length l)%nat → (k < NDIRECT + 256)%nat →
    let b := block_addr img (inode_of img (1 + Z.of_nat i)) k in b ≠ 0 →
    nmeta <= b < used (all_files l) ∧
    ∀ i' k', (i' <= length l)%nat → (k' < NDIRECT + 256)%nat →
      block_addr img (inode_of img (1 + Z.of_nat i')) k' = b → i' = i ∧ k' = k
}.

Lemma length_root l : Forall input_ok l → length (root_entries l) = (16 * (2 + length l))%nat.
Proof.
  intros H. unfold root_entries. rewrite !length_app, length_entries_from by done.
  change (length (entry 1 (chars "."))) with 16%nat. change (length (entry 1 (chars ".."))) with 16%nat. lia.
Qed.
Lemma root_limit l : Forall input_ok l → fits l → (root_size l <= bsize * 5)%nat ∧ (length (root_entries l) < root_size l)%nat.
Proof.
  intros H [Hn _]. rewrite (length_root l H) in *. unfold root_size. rewrite (length_root l H).
  unfold NINODES in Hn. assert (Hl : (16 * (2 + length l) <= 3200)%nat) by lia.
  pose proof (Nat.div_mod (16 * (2 + length l)) bsize ltac:(done)) as Hd.
  pose proof (Nat.mod_upper_bound (16 * (2 + length l)) bsize ltac:(done)) as Hm. unfold bsize in *. lia.
Qed.

(** The last statements of main(). *)
Definition finish : M unit :=
  din <== rinode false 1 ;;
  winode false 1 (set_size (xint false (u32 (u32 (xint false (d_size din) / BSIZE + 1) * BSIZE))) din) ;;;
  (λ s, balloc false (i32 (freeblock s)) s).

Lemma init_ok {A} (k : M A) :
  (mfor (Z.of_nat <$> seq 0 (Z.to_nat FSSIZE)) (λ i, wsect i zeroes) ;;; wsect 1 (sb_block false) ;;; k)
    (Mkfs [] 1 nmeta) = k blank_image.
Proof.
  assert (E0 : mfor (Z.of_nat <$> seq 0 (Z.to_nat FSSIZE)) (λ i, wsect i zeroes) (Mkfs [] 1 nmeta) =
    Finished tt (Mkfs (replicate (Z.to_nat FSSIZE) zeroes) 1 nmeta)) by (apply (zero_image 0); lia).
  unfold mthen at 1. rewrite E0. set (s := Mkfs (replicate _ _) _ _).
  assert (Es : sized s) by (split; cbn [s image]; [by rewrite length_replicate|apply Forall_replicate, zeroes_data]).
  assert (Hr : 0 <= 1 < FSSIZE) by (unfold FSSIZE; lia).
  destruct (wsect_ok s 1 (sb_block false) Es Hr sb_block_data) as [Ew _]. unfold mthen. by rewrite Ew.
Qed.
Lemma build_ok l :
  Forall input_ok l → fits l →
  ∃ s, files s (all_files l) ∧
    mkfs_run false (to_arg <$> l) =
    finish s.
Proof.
  intros Hok Hfits. destruct (root_limit l Hok Hfits) as [Hrl Hrs]. destruct Hfits as [Hn Hu].
  set (e1 := entry 1 (chars ".")). set (e2 := entry 1 (chars "..")).
  assert (He : Forall byte e1 ∧ Forall byte e2 ∧ length e1 = 16%nat ∧ length e2 = 16%nat) by (by repeat split; apply (bool_decide_unpack _)).
  destruct He as (B1 & B2 & N1 & N2).
  destruct (ialloc_files blank_image [] T_DIR blank_files) as (s1 & E1 & F1); [done|by left|]. cbn [app length] in E1, F1.
  assert (Hsmall : ∀ c : list Z, (length c <= 32)%nat → used [(T_DIR, c)] <= FSSIZE).
  { intros c Hc. unfold used, cost. cbn [sum_list_with snd]. assert (Hb : (need (blocks (length c)) <= need (blocks 32))%nat)
      by (apply need_mono, blocks_mono; lia). change (need (blocks 32)) with 1%nat in Hb. change nmeta with 47. unfold FSSIZE. lia. }
  destruct (iappend_files s1 _ 0 T_DIR [] e1 F1) as (s2 & E2 & F2);
    [done|done|cbn [app]; rewrite ?length_app; unfold bsize, NDIRECT; lia|apply Hsmall; cbn [app]; rewrite ?length_app; lia|].
  destruct (iappend_files s2 _ 0 T_DIR e1 e2 F2) as (s3 & E3 & F3);
    [done|done|cbn [app]; rewrite ?length_app; unfold bsize, NDIRECT; lia|apply Hsmall; cbn [app]; rewrite ?length_app; lia|].
  destruct (add_files_ok l s3 (e1 ++ e2) [] F3 Hok) as (s4 & E4 & F4);
    [cbn [length]; lia| |exact Hu|].
  { change (length (root_entries l) <= bsize * (NDIRECT + 256))%nat. unfold bsize, NDIRECT in *. lia. }
  exists s4. split; [exact F4|]. unfold mkfs_run, main.
  rewrite init_ok.
  unfold mthen at 1. rewrite E1. change (1 + Z.of_nat 0) with 1. unfold massert. change (1 =? ROOTINO) with true. unfold mthen at 1. cbn [mdone].
  unfold mthen at 1. rewrite !dot_entry_ok by auto. fold e1 e2.
  change (iappend false 1) with (iappend false (Z.of_nat 1)). rewrite E2. unfold mthen at 1. rewrite E3.
  unfold mthen at 1. rewrite E4. reflexivity.
Qed.

(** What they do: the root gets its size, and the bitmap is written. *)
Lemma mkfs_finish_ok s nd nodes :
  fsys s (nd :: nodes) → let n := length (n_content nd) in (n < bsize * 5)%nat →
  let di := Dinode (n_type nd) 0 0 1 (Z.of_nat (bsize * S (n / bsize))) (node_addrs nd) in
  ∃ s', finish s = Finished tt s' ∧ layout s' (nd :: nodes) ∧ freeblock s' = freeblock s ∧ dinode_at s' 1 di ∧
    (∀ m di, 1 < m < inode_slots → dinode_at s m di → dinode_at s' m di) ∧
    (∀ b, 0 <= b < 33 → image s' !! Z.to_nat b = image s !! Z.to_nat b) ∧
    ∀ b, 0 <= b → bit_free (block (image s') 46) b = negb (b <? freeblock s).
Proof.
  intros F n Hn di. assert (Hm : nmeta = 47) by done. destruct (fs_slot s _ 0 nd F eq_refl) as [Hslot _].
  change (Z.of_nat 1) with 1 in Hslot. assert (Hty := Forall_inv (fs_types _ _ F)). cbn beta in Hty.
  assert (L := fs_layout _ _ F). assert (Hdi0 := node_dinode_ok s _ 0 nd L eq_refl Hty).
  assert (Hdiv : (n / bsize < 5)%nat) by (apply Nat.Div0.div_lt_upper_bound; lia).
  assert (Esz : u32 (u32 (u32 (Z.of_nat n) / BSIZE + 1) * BSIZE) = Z.of_nat (bsize * S (n / bsize))).
  { change BSIZE with (Z.of_nat bsize). rewrite (u32_small (Z.of_nat n)) by (unfold bsize in *; lia).
    rewrite <- Nat2Z.inj_div. generalize dependent (n / bsize)%nat. intros q _ Hq. change (Z.of_nat bsize) with 1024.
    rewrite (u32_small (Z.of_nat q + 1)) by lia. rewrite u32_small by lia. unfold bsize. lia. }
  assert (Hdi : dinode_ok di).
  { destruct Hdi0 as [D1 D2 D3 D4 D5 D6]. split; try done. cbn [di d_size]. unfold bsize in *. lia. }
  destruct (winode_ok s 1 di (la_sized _ _ L) Hslot Hdi) as (s1 & E1 & S1 & Ei & Ef & Hother & Hat & Hkeep).
  assert (Hfb := la_bound _ _ L). assert (Hfree := la_free _ _ L). unfold FSSIZE in Hfb.
  destruct (bitmap_ok (Z.to_nat (freeblock s))) as [Bd Bb]; [change BPB with 8192; lia|].
  set (bm := foldl bit_set zeroes _) in *.
  destruct (wsect_ok s1 46 bm S1) as [Ew Sw]; [unfold FSSIZE; lia|done|]. set (s2 := Mkfs _ _ _) in Ew, Sw.
  exists s2. split_and!.
  - unfold finish, mthen. rewrite (rinode_ok s 1 (node_dinode nd) Hslot Hdi0) by apply (fs_inodes _ _ F 0 nd eq_refl).
    rewrite !xint_little. cbn [d_size node_dinode]. fold n. rewrite Esz, u32_small by (unfold bsize in *; lia).
    change (set_size _ _) with di. rewrite E1. unfold balloc, massert. rewrite Ef, (proj2 (Z.ltb_lt _ _)).
    + replace (i32 (freeblock s)) with (freeblock s) by (unfold i32; dlia). exact Ew.
    + change BPB with 8192. unfold i32. dlia.
  - apply (layout_meta s); [done..|]. intros b Hb. cbn [s2 image]. rewrite list_lookup_insert_ne by lia. apply Hother; lia.
  - done.
  - destruct Hat as (d & Hd & Er). exists d. split; [|done]. cbn [s2 image]. destruct (IBLOCK_range 1 Hslot).
    rewrite list_lookup_insert_ne by lia. done.
  - intros m di' Hmm Hat'. destruct (Hkeep m di') as (d & Hd & Er); [lia|lia|done|]. exists d. split; [|done].
    cbn [s2 image]. destruct (IBLOCK_range m); [lia|]. rewrite list_lookup_insert_ne by lia. done.
  - intros b Hb. cbn [s2 image]. rewrite list_lookup_insert_ne by lia. apply Hother; lia.
  - intros b Hb. unfold block. cbn [s2 image]. rewrite list_lookup_insert_eq by (rewrite (sz_len _ S1); unfold FSSIZE; lia).
    cbn [from_option id]. rewrite Bb by done. rewrite Z2Nat.id by lia. done.
Qed.

Lemma inode_of_at s m di : dinode_at s m di → inode_of (image s) m = di.
Proof. intros (d & Hd & <-). unfold inode_of, block. change (sb false) with kernel_sb in Hd. by rewrite Hd. Qed.

Section image.
Context (s : mkfs) (nodes : list node) (L : layout s nodes).
Context (Ha : ∀ i nd, nodes !! i = Some nd → d_addrs (inode_of (image s) (1 + Z.of_nat i)) = node_addrs nd).

Lemma data_nonzero i nd : nodes !! i = Some nd → Forall (λ b, b ≠ 0) (n_data nd).
Proof.
  intros Hi. apply Forall_lookup. intros k b Hk. assert (Hr := nd_data_range s nodes i nd L Hi k b Hk).
  assert (nmeta = 47) by done. lia.
Qed.
Lemma image_block i nd k b :
  nodes !! i = Some nd → (k < NDIRECT + 256)%nat →
  block_addr (image s) (inode_of (image s) (1 + Z.of_nat i)) k = b → b ≠ 0 → n_data nd !! k = Some b.
Proof.
  intros Hi Hk Hb Hnz. rewrite (node_block_addr _ nd) in Hb by (done || by apply Ha || by eapply nd_ok).
  destruct (n_data nd !! k); cbn [from_option id] in Hb; congruence.
Qed.
Lemma image_blocks i k :
  (i < length nodes)%nat → (k < NDIRECT + 256)%nat →
  let b := block_addr (image s) (inode_of (image s) (1 + Z.of_nat i)) k in b ≠ 0 →
  nmeta <= b < freeblock s ∧
  ∀ i' k', (i' < length nodes)%nat → (k' < NDIRECT + 256)%nat →
    block_addr (image s) (inode_of (image s) (1 + Z.of_nat i')) k' = b → i' = i ∧ k' = k.
Proof.
  intros Hi Hk b Hb. destruct (lookup_lt_is_Some_2 _ _ Hi) as [nd Hnd].
  assert (Hd := image_block i nd k b Hnd Hk eq_refl Hb). split; [by eapply nd_data_range|].
  intros i' k' Hi' Hk' E. destruct (lookup_lt_is_Some_2 _ _ Hi') as [nd' Hnd'].
  assert (Hd' := image_block i' nd' k' b Hnd' Hk' E Hb).
  destruct (decide (i' = i)) as [->|Hne].
  - split; [done|]. rewrite Hnd in Hnd'. injection Hnd' as <-. assert (Hdup := la_nodup _ _ L).
    rewrite (owned_lookup nodes i nd Hnd) in Hdup. apply NoDup_app in Hdup as (Hdup & _). unfold node_blocks in Hdup.
    apply NoDup_app in Hdup as (Hdup & _). by eapply (NoDup_lookup (n_data nd)).
  - exfalso. apply (owned_disjoint nodes i i' nd nd' b (la_nodup _ _ L) Hnd Hnd'); [done|..].
    + unfold node_blocks. apply elem_of_app. left. by eapply list_elem_of_lookup_2.
    + unfold node_blocks. apply elem_of_app. left. by eapply list_elem_of_lookup_2.
Qed.
Lemma image_file i nd :
  nodes !! i = Some nd → exact nd → inode_of (image s) (1 + Z.of_nat i) = node_dinode nd →
  file_bytes (image s) (node_dinode nd) = n_content nd.
Proof.
  intros Hi [He _] E. assert (Hok := nd_ok s nodes i nd L Hi).
  rewrite (node_file_bytes _ nd _ (length (n_content nd))); try done.
  - by rewrite Nat.sub_diag, app_nil_r.
  - by eapply data_nonzero.
  - rewrite <- He. apply (no_max _ _ Hok).
Qed.
End image.

Lemma view_lookup (nodes : list node) (l : list input) (i : nat) f :
  view <$> nodes = to_file <$> l → l !! i = Some f →
  ∃ nd, nodes !! i = Some nd ∧ n_type nd = T_FILE ∧ n_content nd = mjoin f.2.
Proof.
  intros Hv Hi. assert (E := f_equal (.!! i) Hv). cbn beta in E. rewrite !list_lookup_fmap, Hi in E.
  destruct (nodes !! i) as [nd|]; [|done]. injection E as E1 E2. by exists nd.
Qed.

(** C17: mkfs builds the file system that the kernel expects. On a little-endian host, for files
    with valid names that are not too large, and that together fit the inodes and the blocks of
    the image, the program succeeds, however the host's read() cuts the files into pieces;
    and the code of kernel/fs.c decodes the image as it should: the super block describes the
    layout, the log is empty, the root directory holds the entries of the files under their
    names, every file has its inode and its contents, all other inodes are free, the bitmap
    marks exactly the blocks in use, and no block belongs to two files. *)
Theorem mkfs_correct l :
  Forall input_ok l → fits l →
  ∃ s, mkfs_run false (to_arg <$> l) = Finished tt s ∧ image_ok (image s) l.
Proof.
  intros Hok Hfits. destruct (root_limit l Hok Hfits) as [Hr1 Hr2]. destruct (build_ok l Hok Hfits) as (s & Hf & ->).
  destruct Hf as (nodes & F & Hv). destruct nodes as [|nd nodes]; [done|]. injection Hv as Hty Hco Hv.
  change (view <$> nodes = to_file <$> l) in Hv.
  destruct (mkfs_finish_ok s nd nodes F) as (s' & E & L' & Ef & Hat & Hkeep & Hlow & Hbits); [rewrite Hco; lia|].
  exists s'. split; [done|]. rewrite Hty, Hco in Hat. fold (root_size l) in Hat.
  assert (Hfree : freeblock s = used (all_files l)).
  { rewrite (fsys_free _ _ F). unfold all_files. rewrite fmap_cons. unfold view at 1. by rewrite Hty, Hco, Hv. }
  assert (Hlen : length nodes = length l) by (apply (f_equal length) in Hv; by rewrite !length_fmap in Hv).
  assert (Hn : Z.of_nat (length l) + 2 <= NINODES) by apply Hfits. unfold NINODES in Hn.
  assert (Hfile : ∀ i x, nodes !! i = Some x → inode_of (image s') (2 + Z.of_nat i) = node_dinode x).
  { intros i x Hx. apply inode_of_at. assert (Hi := lookup_lt_Some _ _ _ Hx). apply Hkeep; [change inode_slots with 208; lia|].
    replace (2 + Z.of_nat i) with (Z.of_nat (S (S i))) by lia. by apply (fs_inodes _ _ F (S i)). }
  assert (Hroot := inode_of_at s' 1 _ Hat).
  assert (Haddr : ∀ i x, (nd :: nodes) !! i = Some x → d_addrs (inode_of (image s') (1 + Z.of_nat i)) = node_addrs x).
  { intros [|i] x Hx; [injection Hx as <-; change (1 + Z.of_nat 0) with 1; by rewrite Hroot|].
    replace (1 + Z.of_nat (S i)) with (2 + Z.of_nat i) by lia. by rewrite (Hfile i x). }
  split.
  - apply (sz_len _ (la_sized _ _ L')).
  - assert (E1 : image s' !! 1%nat = Some (sb_block false)) by (rewrite <- (fs_super _ _ F); apply (Hlow 1); lia).
    unfold block. change (Z.to_nat 1) with 1%nat. rewrite E1. vm_compute. reflexivity.
  - unfold block. rewrite Hlow by lia. rewrite (fs_log _ _ F 2) by (change (2 + nlog) with 33; lia). reflexivity.
  - change ROOTINO with 1. rewrite Hroot. split_and!; try done. rewrite <- Hco.
    apply (node_file_bytes _ nd); [by apply (nd_ok s' _ 0 nd L')|by apply (data_nonzero s' _ L' 0)|done|done|rewrite Hco; lia|].
    etrans; [apply (blocks_mono _ (bsize * 5)); lia|]. change (blocks (bsize * 5)) with 5%nat. unfold NDIRECT. lia.
  - intros i f Hi. destruct (view_lookup _ _ _ _ Hv Hi) as (x & Hx & Etx & Ecx). cbv zeta.
    assert (Ei := Hfile i x Hx). rewrite Ei, <- Ecx. split_and!; try done.
    apply (image_file s' _ L' (S i)); [done|by apply (Forall_lookup_1 _ _ (S i) x (fs_exact _ _ F))|].
    by replace (1 + Z.of_nat (S i)) with (2 + Z.of_nat i) by lia.
  - intros inum Hi. unfold NINODES in Hi. rewrite (inode_of_at s' inum free_dinode); [done|].
    apply Hkeep; [change inode_slots with 208; lia|]. apply (fs_unused _ _ F). rewrite (fs_count _ _ F).
    change inode_slots with 208. cbn [length]. lia.
  - intros b Hb. unfold FSSIZE in Hb. unfold BBLOCK. change BPB with 8192. change (sb_bmapstart kernel_sb) with 46.
    rewrite Z.div_small, Z.mod_small by lia. change (u32 (0 + 46)) with 46. rewrite Hbits by lia. by rewrite Hfree.
  - intros i k Hi Hk b Hb. rewrite <- Hfree, <- Ef.
    destruct (image_blocks s' _ L' Haddr i k) as [Hrange Hinj]; [cbn [length]; lia|done|done|].
    split; [done|]. intros i' k' Hi' Hk' Eb. apply Hinj; [cbn [length]; lia|done|done].
Qed.
Definition demo_inputs : list input :=
  [(chars "README", [chars "hello"; chars " world"]); (chars "user/_cat", [replicate 1024 7; replicate 1000 8])].
Lemma demo_inputs_ok : Forall input_ok demo_inputs.
Proof.
  apply Forall_cons; split; [|apply Forall_singleton];
    (split; [reflexivity|split; [apply (bool_decide_unpack _); vm_compute; exact I|apply Nat.leb_le; vm_compute; reflexivity]]).
Qed.
Lemma mkfs_correct_witness :
  ∃ s, mkfs_run false (to_arg <$> demo_inputs) = Finished tt s ∧ image_ok (image s) demo_inputs.
Proof. apply (mkfs_correct demo_inputs demo_inputs_ok). split; vm_compute; discriminate. Defined.

(** xint() and xshort() are there for hosts of either byte order, but on a big-endian host the
    result is no file system: the magic number is stored as it is, and the numbers of the
    inode and bitmap blocks are used after their conversion, so that the inodes and then the
    bitmap are written over the boot block. The program reports no error. *)
Theorem mkfs_big_endian :
  match mkfs_run true [] with
  | Finished _ s =>
      sb_magic (read_superblock (block (image s) 1)) = 0x40302010 ∧ d_type (inode_of (image s) ROOTINO) = 0 ∧
      bit_free (block (image s) (sb_bmapstart kernel_sb)) 0 = true ∧ bit_free (block (image s) 0) 0 = false
  | Failed _ => False
  end.
Proof. vm_compute. auto. Qed.

(** The size of the root directory is rounded up to one block too much if its entries fill their
    blocks: with 62 files it has a second block by its size, but no address for it. *)
Theorem mkfs_root_hole :
  match mkfs_run false (replicate 62 (chars "f", Some [])) with
  | Finished _ s =>
      d_size (inode_of (image s) ROOTINO) = 2 * BSIZE ∧ block_addr (image s) (inode_of (image s) ROOTINO) 1 = 0
  | Failed _ => False
  end.
Proof. vm_compute. auto. Qed.
